(* ===== verification/_CoqProject ===== *)
-Q . S2P
Prelude.v
Types.v
Packet.v
Protocol.v
UdpHeader.v
SequenceTracker.v
Reassembler.v
JitterBuffer.v
SessionCodes.v
Crypto.v
UdpCrypto.v
SecureChannel.v
Double.v
AdaptiveBitrate.v
ScreenCapture.v
VideoEncoder.v
VideoDecoder.v
AudioCodec.v
WasapiPlayer.v
WasapiCapture.v
UdpTransport.v
UdpTransportSpec.v
MediaPath.v
Network.v
TcpTransport.v
OrderedMap.v
InputProtocol.v
VirtualGamepad.v
InputInjector.v
InputInjectorSpec.v
ControllerReader.v
InputSender.v
Json.v
Config.v
SignalingClient.v
HostStreamer.v
HostStreamerSpec.v
ClientStreamer.v
ClientStreamerSpec.v
StreamPath.v
LossRecovery.v
HostSession.v
HostSessionSpec.v
ClientSession.v
ClientSessionSpec.v
HostApp.v
ClientApp.v
Calls.v
HostCoordinator.v
HostCoordinatorSpec.v
HostCoordinatorRuns.v
HostCoordinatorReady.v
VideoWidget.v
InputForwarding.v
ClientCoordinator.v
ClientCoordinatorSpec.v
ClientCoordinatorRuns.v
Theme.v
Qt.v
Paths.v
Log.v
SettingsWindow.v
ClientWindow.v
HostWindow.v
WindowTexts.v
MainWindow.v
Startup.v
Tests.v
Handshake.v
