(* ===== verification/Prelude.v ===== *)
(** A verification development for RemotePlay (src/), a C++ game-streaming
    application: a host captures a window or a monitor, a client joins with a
    session code over TCP, the two negotiate and exchange keys, and video, audio
    and input then flow over UDP.

    This library models the program from the wire to its windows: the control and
    datagram protocols, the cryptographic channel, the two transports, the two
    session state machines, input from the client's devices to the host's desktop,
    the capture and coding of pictures and sound around the library calls, the
    streamers, the two coordinators that tie all of it together, and what the pages
    of the window do with the coordinators. Each file
    follows one part of the source; a definition carries the name of the function
    it translates.

    * How the parts interact

    A host ([HostSession]) listens through a TCP server; each accepted socket is
    a [TcpConnection] whose frames ([Packet]) carry messages ([Protocol]). The
    client ([ClientSession]) connects, says hello with a session code
    ([SessionCodes]), and the two handshake until both are CONNECTED
    ([Handshake]). The application then exchanges EC public keys over that
    connection, and both ends derive a [SecureChannel] ([Crypto]). Media goes
    over a [UdpTransport]: frames are cut into fragments behind a fixed header
    ([UdpHeader]), sealed by the channel through the [UdpCryptoSink] interface,
    and at the other end checked, opened, counted ([SequenceTracker]),
    reassembled ([Reassembler]) and ordered and delayed ([JitterBuffer]).

    Above that, [HostCoordinator] and [ClientCoordinator] own a session (through
    the facades [HostApp] and [ClientApp]), react to its callbacks on the Qt
    thread, run the key exchange and start the streamers on workers. A
    [HostStreamer] takes frames from [ScreenCapture] and sound from
    [WasapiCapture], encodes them ([VideoEncoder], [AudioCodec]) and sends them; a
    [ClientStreamer] decodes ([VideoDecoder]), plays ([WasapiPlayer]) and shows them
    ([VideoWidget]), whose keys and mouse come back through [InputForwarding],
    [InputSender] and the host's [InputInjector].

    On top, [MainWindow] holds the pages: [HostWindow] and [ClientWindow] call a
    coordinator each and react to its signals, [SettingsWindow] edits the [Config]
    that all of them refer to. The outputs of a page's model are the events of its
    coordinator's, and theorems such as [typed_address_is_dialled] and
    [picked_source_is_captured] run through both.

    * Files

    - [Prelude]: machine integers as [Z] with their wrap-around, bytes, the
      little-endian codec, the shared tactics and hint databases.
    - [Types] (common/Types, common/Version): enums, resolutions and their text
      form, the program's constants.
    - [Packet] (networking/Packet): the 10-byte control frame header, the
      bounds-checked reader and the writer.
    - [Protocol] (networking/Protocol): the sixteen messages, encoding, decoding,
      codec negotiation.
    - [UdpHeader], [SequenceTracker], [Reassembler], [JitterBuffer]
      (networking/UdpProtocol): the four parts of the datagram protocol.
    - [SessionCodes], [Crypto], [SecureChannel] (security/): session codes, the
      wrappers of the Windows CNG primitives, the sealed channel. CNG is the
      class [CNG], its documented behaviour [CNGLaws] and [GcmBinding]; [Toy]
      instantiates all three, so no hypothesis is empty.
    - [UdpCrypto] (networking/UdpCrypto.h): the interface between the transport
      and the channel, as a class; [SecureChannel] discharges its laws.
    - [Double]: IEEE binary64 through the Standard Library's SpecFloat, for the
      round-trip and jitter averages and the bitrate controller.
    - [AdaptiveBitrate] (adapt/AdaptiveBitrate): the bitrate controller.
    - [UdpTransport], [UdpTransportSpec] (networking/UdpTransport): the datagram
      transport and its theorems.
    - [TcpTransport] (networking/TcpTransport): connections (read loop, write
      queue, shutdown), the accept loop, the direct and the relay connection
      attempts, the client that makes them.
    - [OrderedMap]: [std::map] as a key-ordered list, and the state-and-output
      actions the sessions are written in.
    - [HostSession], [HostSessionSpec] (host/HostSession): the host's client
      table, its handlers and its theorems.
    - [ClientSession], [ClientSessionSpec] (client/ClientSession): the client's
      state machine and its theorems.
    - [Handshake]: the two sessions run against each other.
    - [InputProtocol] (input/InputProtocol.h): the packed input structs.
    - [ControllerReader], [InputSender] (input/): the client's pads and its input
      thread.
    - [VirtualGamepad], [InputInjector], [InputInjectorSpec] (input/): the host's
      virtual pads, the injector, and what it guarantees.
    - [Json], [Config] (common/Config): the accessors of the JSON library the
      program uses, and the configuration: loading, sanitizing, saving.
    - [SignalingClient] (signaling/SignalingClient): the connection to the
      signaling server, its reader thread, requests and responses.
    - [ScreenCapture] (capture/), [VideoEncoder], [AudioCodec] (encoding/),
      [VideoDecoder] (decoding/), [WasapiCapture], [WasapiPlayer] (audio/): the
      devices and codecs, with the results of the system's and FFmpeg's calls as
      arguments, and the byte queue and the resampler as interfaces.
    - [HostStreamer], [HostStreamerSpec] (host/HostStreamer), [ClientStreamer],
      [ClientStreamerSpec] (client/ClientStreamer): the two pipelines, one
      iteration of the thread as a step.
    - [MediaPath], [Network], [StreamPath], [LossRecovery]: two transports, then the
      two streamers, run against each other without encryption, through a network
      that delivers frame by frame ([MediaPath]) or in any way ([Network], and
      [StreamPath] for the streamers). Nothing is modelled in them; they compose the
      operations of the files above.
    - [HostApp] (host/HostApp), [ClientApp] (client/ClientApp): the facades that own
      a session.
    - [Calls]: actions that may end the program (a null pointer, an escaped
      exception, an undefined computation), with the rules [wlp] and [wp] and the
      judgements [preserves], [total] and [safely].
    - [HostCoordinator], [HostCoordinatorSpec], [HostCoordinatorRuns],
      [HostCoordinatorReady] (app/HostCoordinator): the host application; its
      invariants, its runs and crashes, and what becomes of the key confirmation.
    - [VideoWidget] (ui/VideoWidget), [InputForwarding] (app/ClientCoordinator, the
      key table and the connections to the widget).
    - [ClientCoordinator], [ClientCoordinatorSpec], [ClientCoordinatorRuns]
      (app/ClientCoordinator): the client application; the keys it agrees on with
      the host's.
    - [Paths] (common/Paths), [Log] (common/Log): directories, addresses, the log and
      the removal of old files.
    - [Qt]: the text functions of Qt the windows use, as a class with its documented
      laws and an instance; decimal text.
    - [SettingsWindow], [ClientWindow], [HostWindow], [MainWindow] (ui/): the pages.
    - [WindowTexts] (ui/ClientWindow, ui/HostWindow): what the labels say, with
      [QString::arg] as a class with its documented laws; [Theme] (ui/Theme): the
      palette and the style sheet.
    - [Startup] (app/main.cpp): the whole program from its start to its end.
    - [Tests] (tests/): the repository's deterministic unit tests replayed on the
      models.

    * Modelling choices

    A function of the source is a function on an explicit state. What leaves a
    component (frames handed to a socket, callbacks) is a list of events in
    order. Work posted to an io thread is a queue in the state that a step takes
    from, so that interleavings of callers and the io thread are sequences of
    steps. Clocks, random words, resolver and socket results are arguments.
    Integers have their C++ width: every conversion and every arithmetic step
    that can wrap says so ([u16], [u32], [u64]). Undefined behaviour of the
    source is a result of its own ([Reassembler.Undefined]) rather than a made-up
    value. The log lines of the components are not modelled.

    Fuel: [Types.dec_digits] prints any 64-bit value in 20 digits; the loops of
    [JitterBuffer], [Reassembler.gcLoop], [UdpTransport.drainTasks] and
    [Crypto.hkdfExpand] take the length of what they consume or produce, and each
    iteration shortens it, so they never stop early; [TcpTransport.readReply]
    removes a line per iteration. [AudioCodec.encodeLoop] takes the length of the
    queue, and [ScreenCapture.reacquire] the code's three attempts.

    * What the theorems show

    - Codecs: encoding and decoding are inverse ([message_roundtrip],
      [udp_header_roundtrip], [deframing] over any cutting of the stream), a
      decoder accepts only well-formed input and stays inside it
      ([decode_sound], [udp_header_decode_sound], [decode_in_bounds]).
    - Media: a frame is rebuilt from its fragments in any order
      ([reassembly_any_order]), released in order and without loss or invention
      ([jitter_delivers_in_order], [jitter_conserves_frames]); the loss and
      duplicate counters are exact ([tracker_accounting],
      [tracker_duplicate_exact]); memory safety of the reassembler for the frames
      a correct sender makes ([feed_memory_safe]), and the inputs where it fails
      ([feed_overflow], [feed_dangling_buffer]).
    - The media path as a whole, in the clear: the frames whose fragments arrive are
      delivered once and in order when the network delivers frame by frame
      ([video_stream_plays], [input_frame_delivered]); over any network the client
      shows what its decoder makes of packets of the host's encoder, unchanged and in
      order, and frame by frame of all of them that arrive
      ([client_shows_what_the_host_encodes], against references without
      transports); a lost frame brings a keyframe ([lost_frame_brings_a_keyframe]).
    - Security: key agreement, nonce uniqueness, replay rejection, authenticity,
      fail-closed sending and receiving, session-code verification. With an
      authenticated cipher the encrypted path as written accepts nothing
      ([sealed_datagram_dropped], [honest_datagram_needs_visible_counter]): the
      safety theorems hold, and this is why no liveness theorem is stated there.
    - Sessions: the client life cycle, that admission needs the session code,
      capacity, the snapshot, the time-outs, the clean-up of a client session,
      and that a handshake with the right code ends with both sides connected
      and in agreement.
    - Input: the wire format is exact ([unpackInput_exact]); events arrive in order
      ([events_arrive_in_order]), states are sent on change
      ([states_sent_on_change]); the host enforces the permissions last granted
      ([live_permissions_enforced]) and leaves no button and no key pressed, the
      extended keys apart ([no_stuck_keys]); what is sent of the pads is what they
      show ([poll_reads_the_pads]); the bus holds the pads of the list
      ([bus_mirrors_pads]).
    - Bitrate: changes are justified and spaced ([changes_are_justified]) and the
      target follows a persistent link condition ([target_follows_the_link]) within
      the ranges whose sums fit an [int] ([huge_targets_overflow]).

    - Pictures and sound: captured frames and the encoder's copies stay inside
      their buffers ([frames_inside_the_desktop], [encoder_stays_in_its_buffers]),
      the widget shows the rows it is given ([presented_rows_are_the_source]) inside
      its own rectangle ([picture_is_inside_the_widget],
      [overlay_lines_are_on_the_backdrop]). What captures sound gives every packet
      back and stays in its buffer ([packets_are_given_back],
      [blocks_fit_their_buffer]), and leaves nothing behind
      ([destroyed_capture_holds_nothing], [destroyed_reader_holds_nothing] for the
      pads), but no sound passes its resampler ([no_sound_is_captured]).
    - Streamers: starting is all or nothing ([start_all_or_nothing],
      [running_streamer_is_complete], [running_client_is_complete]), and failures
      end the capture thread ([failures_end_the_loop]).
    - Settings and signaling: a saved configuration is loaded back
      ([save_load_roundtrip]), also by the next start of the program
      ([settings_survive_restart], [configuration_stays_valid]), the settings page gives back exactly what it can show
      ([settings_page_roundtrip]), a response reaches its caller
      ([response_reaches_the_caller]).
    - Windows: the page admits nobody but by the user's yes to the player's own
      dialog ([only_the_host_admits]; a client can do without, see
      [approval_can_be_bypassed]); the source, size and rate on the page are
      those of the streams ([picked_source_is_captured]) and the typed address is the
      one dialled ([typed_address_is_dialled], [address_roundtrip],
      [server_field_roundtrip]); the client's page stays consistent, with a way out
      of full screen ([client_page_is_consistent], [escape_is_a_game_key]), the
      host's is not flooded ([host_page_is_not_flooded]), and the pages keep this
      inside the main window ([pages_work_together]). The statistics overlay and
      the labels say what they mean ([stats_lines_read], [labels_read],
      [connected_text_reads]) but for a name with a marker in it
      ([host_name_takes_the_number]); no token of the style sheet is left over
      ([sheet_is_complete]).
    - Coordinators: the two applications agree on keys
      ([applications_agree_on_keys]); streamers are started behind a channel of the
      client's own, whose keys are derived unless the agreement failed
      ([media_is_sealed], [failed_agreement_starts_a_stream]); players have distinct
      slots ([player_slots_distinct]); stopping releases everything, and ends unless
      the signaling server has closed its connection ([stop_releases_all],
      [client_stop_releases_all], [stop_after_the_server_left_is_fatal]); this is
      also how the client's runs end otherwise than well ([client_run_ends_well]) and
      one of the host's crashes ([crash_only_after_hosting]). Between two programs built from this source no
      stream ever starts ([no_stream_ever_starts]), and no input is ever sent
      ([input_is_never_forwarded]). What the widget reports would be synthesised
      faithfully ([widget_input_is_injected]).

    A few closed runs show what the code does not promise
      ([approval_can_be_bypassed], [approval_window_is_cut],
      [start_while_active_kills], [stale_close_ends_next_session] and others).

    * Not modelled

    common/WinHeaders.h is preprocessor definitions. Inside the modelled parts:
    layouts, what Qt paints with a style, COM initialisation, socket options.
    third_party/ is vendored, the signaling server is a separate Python
    program. The memory orderings of the threads are replaced by sequences of
    steps. *)


From Stdlib Require Export ZArith Lia.
From stdpp Require Export base list gmap strings numbers option.

(** * Machine integers

    C++ integers are kept in [Z]; every conversion to a fixed-width unsigned
    type is written out with the wrap-around of that type. *)

Declare Scope rp_scope.
Delimit Scope rp_scope with rp.
Open Scope Z_scope.

Definition u8 (x : Z) : Z := x mod 2 ^ 8.
Definition u16 (x : Z) : Z := x mod 2 ^ 16.
Definition u32 (x : Z) : Z := x mod 2 ^ 32.
Definition u64 (x : Z) : Z := x mod 2 ^ 64.

(** Two's complement reinterpretation of a [w]-bit pattern. *)
Definition to_signed (w x : Z) : Z :=
  let y := x mod 2 ^ w in if y <? 2 ^ (w - 1) then y else y - 2 ^ w.

Definition i16 (x : Z) : Z := to_signed 16 x.
Definition i32 (x : Z) : Z := to_signed 32 x.
Definition i64 (x : Z) : Z := to_signed 64 x.

(** [x] is representable in [w] unsigned bits. *)
Definition fits (w x : Z) : Prop := 0 <= x < 2 ^ w.

#[export] Instance fits_dec (w x : Z) : Decision (fits w x).
Proof. unfold fits. apply _. Defined.

(** * Bytes

    [std::vector<uint8_t>] and [std::string] are byte sequences. *)

Abbreviation bytes := (list Z).

Definition byte_ok (b : Z) : Prop := 0 <= b < 256.
Definition bytes_ok (bs : bytes) : Prop := Forall byte_ok bs.

#[export] Instance byte_ok_dec (b : Z) : Decision (byte_ok b).
Proof. unfold byte_ok. apply _. Defined.

#[export] Instance bytes_ok_dec (bs : bytes) : Decision (bytes_ok bs).
Proof. unfold bytes_ok. apply _. Defined.

(** A C++ string literal as its bytes. *)
Definition byte_of_ascii (a : Ascii.ascii) : Z := Z.of_N (Ascii.N_of_ascii a).
Definition str (s : string) : bytes := byte_of_ascii <$> String.list_ascii_of_string s.

(** Length of a byte sequence as a [Z] (a [size_t]). *)
Abbreviation zlen l := (Z.of_nat (length l)).

(** [n] little-endian bytes of [v]: byte [i] is [(v >> 8i) & 0xFF]. *)
Definition le_put (n : nat) (v : Z) : bytes :=
  (fun i : nat => Z.land (Z.shiftr v (8 * Z.of_nat i)) 255) <$> seq 0 n.

(** The value of little-endian bytes: [v |= b_i << 8i]. *)
Fixpoint le_get_from (i : Z) (bs : bytes) : Z :=
  match bs with
  | [] => 0
  | b :: bs => Z.lor (Z.shiftl b (8 * i)) (le_get_from (i + 1) bs)
  end.
Definition le_get (bs : bytes) : Z := le_get_from 0 bs.

(** * Automation *)

Create HintDb rp discriminated.
Create Rewrite HintDb rp_width.

(** Case analysis on the boolean tests of the code, as propositions. *)
Ltac bdestr_in H :=
  lazymatch type of H with
  | context [?a <? ?b] => destruct (Z.ltb_spec a b)
  | context [?a <=? ?b] => destruct (Z.leb_spec a b)
  | context [?a =? ?b] => destruct (Z.eqb_spec a b)
  end.

Ltac bdestr :=
  match goal with
  | |- context [?a <? ?b] => destruct (Z.ltb_spec a b)
  | |- context [?a <=? ?b] => destruct (Z.leb_spec a b)
  | |- context [?a =? ?b] => destruct (Z.eqb_spec a b)
  end.

(** Turns boolean hypotheses into propositions [lia] understands. *)
Ltac b2p :=
  repeat match goal with
    | H : (_ && _)%bool = true |- _ => apply andb_true_iff in H; destruct H
    | H : (_ || _)%bool = false |- _ => apply orb_false_iff in H; destruct H
    | H : (_ || _)%bool = true |- _ => apply orb_true_iff in H
    | H : (_ && _)%bool = false |- _ => apply andb_false_iff in H
    | H : negb _ = true |- _ => apply negb_true_iff in H
    | H : negb _ = false |- _ => apply negb_false_iff in H
    | H : (_ <? _) = true |- _ => apply Z.ltb_lt in H
    | H : (_ <? _) = false |- _ => apply Z.ltb_ge in H
    | H : (_ <=? _) = true |- _ => apply Z.leb_le in H
    | H : (_ <=? _) = false |- _ => apply Z.leb_gt in H
    | H : (_ =? _) = true |- _ => apply Z.eqb_eq in H
    | H : (_ =? _) = false |- _ => apply Z.eqb_neq in H
    | H : bool_decide _ = true |- _ => apply bool_decide_eq_true in H
    | H : bool_decide _ = false |- _ => apply bool_decide_eq_false in H
    end.

(** Splits a [match] or [if], innermost first, keeping its equation. *)
Ltac break_goal :=
  match goal with
  | |- context [match ?x with _ => _ end] =>
      lazymatch x with
      | context [match _ with _ => _ end] => fail
      | _ => destruct x eqn:?
      end
  | |- context [match ?x with _ => _ end] => destruct x eqn:?
  end.

Ltac break_hyp H :=
  match type of H with
  | context [match ?x with _ => _ end] =>
      lazymatch x with
      | context [match _ with _ => _ end] => fail
      | _ => destruct x eqn:?
      end
  | context [match ?x with _ => _ end] => destruct x eqn:?
  end.

(** Proves a decidable statement about concrete values by evaluation. *)
Ltac by_decision := refine (bool_decide_unpack _ _); vm_compute; exact I.

(** Evaluates the widths so that [lia] sees numerals. *)
Ltac widths :=
  unfold fits, byte_ok, u8, u16, u32, u64 in *;
  change (2 ^ 8) with 256 in *;
  change (2 ^ 16) with 65536 in *;
  change (2 ^ 32) with 4294967296 in *;
  change (2 ^ 64) with 18446744073709551616 in *.

Ltac wsolve := widths; Z.div_mod_to_equations; lia.

(** * Width lemmas *)

Lemma u8_id x : fits 8 x -> u8 x = x.
Proof. apply Z.mod_small. Qed.
Lemma u16_id x : fits 16 x -> u16 x = x.
Proof. apply Z.mod_small. Qed.
Lemma u32_id x : fits 32 x -> u32 x = x.
Proof. apply Z.mod_small. Qed.
Lemma u64_id x : fits 64 x -> u64 x = x.
Proof. apply Z.mod_small. Qed.

Lemma i32_small n : 0 <= n < 2 ^ 31 -> i32 n = n.
Proof.
  intros H. unfold i32, to_signed. cbv zeta. rewrite Z.mod_small by lia. destruct (Z.ltb_spec n (2 ^ (32 - 1))); lia.
Qed.
Lemma u8_fits x : fits 8 (u8 x).
Proof. apply Z.mod_pos_bound. reflexivity. Qed.
Lemma u16_fits x : fits 16 (u16 x).
Proof. apply Z.mod_pos_bound. reflexivity. Qed.
Lemma u32_fits x : fits 32 (u32 x).
Proof. apply Z.mod_pos_bound. reflexivity. Qed.
Lemma u64_fits x : fits 64 (u64 x).
Proof. apply Z.mod_pos_bound. reflexivity. Qed.

#[export] Hint Resolve u8_fits u16_fits u32_fits u64_fits : rp.
#[export] Hint Rewrite u8_id u16_id u32_id u64_id using (assumption || (widths; lia)) : rp_width.

(** * Little-endian codec *)

Lemma le_put_length n v : length (le_put n v) = n.
Proof. unfold le_put. by rewrite length_fmap, length_seq. Qed.

Lemma le_put_succ n v : le_put (S n) v = Z.land v 255 :: le_put n (Z.shiftr v 8).
Proof.
  unfold le_put. rewrite <- cons_seq, fmap_cons. f_equal.
  rewrite <- fmap_S_seq, <- list_fmap_compose.
  apply list_fmap_ext. intros i x _. cbn.
  rewrite Z.shiftr_shiftr by lia. do 2 f_equal. lia.
Qed.

Lemma land_255 v : Z.land v 255 = v mod 256.
Proof. change 255 with (Z.ones 8). by rewrite Z.land_ones. Qed.

Lemma le_put_ok n v : bytes_ok (le_put n v).
Proof.
  unfold bytes_ok, le_put. apply Forall_fmap, Forall_forall. intros i _. cbn.
  rewrite land_255. apply Z.mod_pos_bound. lia.
Qed.

Lemma le_get_from_shift i bs :
  0 <= i -> le_get_from i bs = Z.shiftl (le_get bs) (8 * i).
Proof.
  unfold le_get. intros Hi.
  assert (G : forall j, 0 <= j -> le_get_from (j + i) bs = Z.shiftl (le_get_from j bs) (8 * i)).
  { induction bs as [|b bs IH]; intros j Hj; cbn [le_get_from].
    - by rewrite Z.shiftl_0_l.
    - rewrite Z.shiftl_lor, Z.shiftl_shiftl by lia.
      f_equal; [f_equal; lia|].
      replace (j + i + 1) with ((j + 1) + i) by lia. apply IH. lia. }
  specialize (G 0). rewrite Z.add_0_l in G. apply G. lia.
Qed.

Lemma le_get_cons b bs : le_get (b :: bs) = Z.lor b (Z.shiftl (le_get bs) 8).
Proof.
  unfold le_get. cbn [le_get_from]. rewrite Z.mul_0_r, Z.shiftl_0_r. f_equal.
  by rewrite le_get_from_shift.
Qed.

Lemma le_get_cons_add b bs : byte_ok b -> le_get (b :: bs) = b + 256 * le_get bs.
Proof.
  intros Hb. rewrite le_get_cons, <- Z.add_nocarry_lor.
  - rewrite Z.shiftl_mul_pow2 by lia. lia.
  - apply Z.bits_inj'. intros k Hk. rewrite Z.land_spec, Z.bits_0.
    destruct (Z.ltb_spec k 8).
    + by rewrite Z.shiftl_spec_low, andb_false_r.
    + destruct (Z.eqb_spec b 0) as [->|Hne]; [by rewrite Z.bits_0|].
      rewrite (Z.bits_above_log2 b k); [done|unfold byte_ok in Hb; lia|].
      apply Z.lt_le_trans with 8; [|lia].
      apply Z.log2_lt_pow2; unfold byte_ok in Hb; lia.
Qed.

Lemma le_get_range bs : bytes_ok bs -> 0 <= le_get bs < 256 ^ zlen bs.
Proof.
  induction 1 as [|b bs Hb _ IH]; [cbn; lia|].
  rewrite le_get_cons_add by done. cbn [length]. rewrite Nat2Z.inj_succ, Z.pow_succ_r by lia.
  unfold byte_ok in Hb. lia.
Qed.

Lemma le_get_put n v : le_get (le_put n v) = v mod 256 ^ Z.of_nat n.
Proof.
  revert v. induction n as [|n IH]; intros v.
  { cbn. by rewrite Z.mod_1_r. }
  rewrite le_put_succ, le_get_cons_add, IH, land_255, Z.shiftr_div_pow2 by
    (rewrite ?land_255; try apply Z.mod_pos_bound; lia).
  change (2 ^ 8) with 256. rewrite Nat2Z.inj_succ, Z.pow_succ_r by lia.
  rewrite Z.rem_mul_r by lia. lia.
Qed.

Lemma le_put_get bs : bytes_ok bs -> le_put (length bs) (le_get bs) = bs.
Proof.
  induction 1 as [|b bs Hb _ IH]; [done|].
  cbn [length]. rewrite le_put_succ, le_get_cons_add by done.
  rewrite land_255, Z.shiftr_div_pow2 by lia. change (2 ^ 8) with 256.
  unfold byte_ok in Hb. f_equal.
  - rewrite (Z.mul_comm 256), Z.mod_add by lia. apply Z.mod_small. lia.
  - rewrite (Z.mul_comm 256), Z.div_add, (Z.div_small b) by lia. by rewrite Z.add_0_l.
Qed.

Lemma le_get_put_id n v : 0 <= v < 256 ^ Z.of_nat n -> le_get (le_put n v) = v.
Proof. intros. rewrite le_get_put. by apply Z.mod_small. Qed.

Lemma le_get_put_16 v : fits 16 v -> le_get (le_put 2 v) = v.
Proof. intros H. apply le_get_put_id. exact H. Qed.
Lemma le_get_put_32 v : fits 32 v -> le_get (le_put 4 v) = v.
Proof. intros H. apply le_get_put_id. exact H. Qed.
Lemma le_get_put_64 v : fits 64 v -> le_get (le_put 8 v) = v.
Proof. intros H. apply le_get_put_id. exact H. Qed.

#[export] Hint Resolve le_put_ok : rp.

(** * Lists *)

Lemma take_drop_mid {A} (pre mid post : list A) :
  take (length mid) (drop (length pre) (pre ++ mid ++ post)) = mid.
Proof. by rewrite drop_app_length, take_app_length. Qed.

Lemma lookup_mid {A} (pre post : list A) x :
  (pre ++ x :: post) !! length pre = Some x.
Proof. by rewrite lookup_app_r, Nat.sub_diag. Qed.

Lemma bytes_ok_app bs1 bs2 : bytes_ok (bs1 ++ bs2) <-> bytes_ok bs1 /\ bytes_ok bs2.
Proof. apply Forall_app. Qed.

Lemma bytes_ok_take n bs : bytes_ok bs -> bytes_ok (take n bs).
Proof. apply Forall_take. Qed.

Lemma bytes_ok_drop n bs : bytes_ok bs -> bytes_ok (drop n bs).
Proof. apply Forall_drop. Qed.

#[export] Hint Resolve bytes_ok_take bytes_ok_drop : rp.

(** Decomposes byte-range obligations over literal lists and appends. *)
Ltac bytes_tac :=
  unfold bytes_ok in *;
  repeat first
    [ done | assumption | apply le_put_ok | apply Forall_nil_2 | apply Forall_app_2
    | apply Forall_cons_2 ].

Lemma le_put_2 v : exists b0 b1, le_put 2 v = [b0; b1] /\ byte_ok b0 /\ byte_ok b1.
Proof.
  pose proof (le_put_length 2 v) as L. pose proof (le_put_ok 2 v) as O.
  destruct (le_put 2 v) as [|b0 [|b1 [|]]]; try discriminate.
  exists b0, b1. by inversion_clear O as [|? ? ? O']; inversion_clear O'.
Qed.

Lemma le_put_4 v : exists b0 b1 b2 b3, le_put 4 v = [b0; b1; b2; b3].
Proof.
  pose proof (le_put_length 4 v) as L.
  destruct (le_put 4 v) as [|b0 [|b1 [|b2 [|b3 [|]]]]]; try discriminate.
  by exists b0, b1, b2, b3.
Qed.

Lemma le_put_8 v : exists b0 b1 b2 b3 b4 b5 b6 b7,
  le_put 8 v = [b0; b1; b2; b3; b4; b5; b6; b7].
Proof.
  pose proof (le_put_length 8 v) as L.
  destruct (le_put 8 v) as [|b0 [|b1 [|b2 [|b3 [|b4 [|b5 [|b6 [|b7 [|]]]]]]]]]; try discriminate.
  by exists b0, b1, b2, b3, b4, b5, b6, b7.
Qed.
