(* ===== verification/Types.v ===== *)
(** common/Types.h, common/Types.cpp and common/Version.h: the enums, small value types
    and constants shared by the host, the client and the protocol, with the text
    conversions. *)

From S2P Require Import Prelude.

(** * common/Version.h *)

Definition kAppName : bytes := str "RemotePlay".
Definition kAppVersion : bytes := str "0.1.1".
Definition kDefaultListenPort : Z := 41717.
Definition kMaxClients : nat := 4.

(** * Enums *)

Inductive ConnectionState :=
  | Connecting | Authenticating | Connected | Streaming | Disconnected.

#[export] Instance ConnectionState_eq_dec : EqDecision ConnectionState.
Proof. solve_decision. Defined.

Definition connectionStateString (s : ConnectionState) : bytes :=
  match s with
  | Connecting => str "CONNECTING"
  | Authenticating => str "AUTHENTICATING"
  | Connected => str "CONNECTED"
  | Streaming => str "STREAMING"
  | Disconnected => str "DISCONNECTED"
  end.

(** [enum class VideoCodec : uint8_t] has a fixed underlying type, so any byte
    read from the wire is a value of it; the named values are the constants. *)
Definition VideoCodec := Z.
Definition H264 : VideoCodec := 0.
Definition Hevc : VideoCodec := 1.
Definition Av1 : VideoCodec := 2.

Definition videoCodecString (c : VideoCodec) : bytes :=
  if c =? H264 then str "H.264"
  else if c =? Hevc then str "HEVC"
  else if c =? Av1 then str "AV1"
  else str "UNKNOWN".

Inductive CaptureMode := CaptureWindow | CaptureMonitor.

#[export] Instance CaptureMode_eq_dec : EqDecision CaptureMode.
Proof. solve_decision. Defined.

Definition captureModeCode (m : CaptureMode) : Z :=
  match m with CaptureWindow => 0 | CaptureMonitor => 1 end.

Definition captureModeString (m : CaptureMode) : bytes :=
  match m with CaptureWindow => str "Window" | CaptureMonitor => str "Monitor" end.

(** * Character classes of the C locale *)

Definition tolower (c : Z) : Z := if (65 <=? c) && (c <=? 90) then c + 32 else c.
Definition isspace (c : Z) : bool := ((9 <=? c) && (c <=? 13)) || (c =? 32).
Definition isdigit (c : Z) : bool := (48 <=? c) && (c <=? 57).

Definition videoCodecFromString (name : bytes) : option VideoCodec :=
  let n := tolower <$> name in
  if bool_decide (n = str "h264") || bool_decide (n = str "h.264") || bool_decide (n = str "avc")
  then Some H264
  else if bool_decide (n = str "hevc") || bool_decide (n = str "h265") || bool_decide (n = str "h.265")
  then Some Hevc
  else if bool_decide (n = str "av1") then Some Av1
  else None.

(** * Resolution *)

Record Resolution := mkResolution { res_width : Z; res_height : Z }.

#[export] Instance Resolution_eq_dec : EqDecision Resolution.
Proof. solve_decision. Defined.

Definition defaultResolution : Resolution := mkResolution 1920 1080.

(** [ostream << uint32_t]: the decimal digits. Twenty steps cover any 64-bit
    value. *)
Fixpoint dec_digits (fuel : nat) (v : Z) (acc : bytes) : bytes :=
  match fuel with
  | O => acc
  | S fuel =>
      let acc := (48 + v mod 10) :: acc in
      if v / 10 =? 0 then acc else dec_digits fuel (v / 10) acc
  end.
Definition print_dec (v : Z) : bytes := dec_digits 20 v [].

(** [strtoul(s, nullptr, 10)] on a string of digits: saturates at [ULONG_MAX]
    (32 bits on the Windows targets). *)
Definition ULONG_MAX : Z := 2 ^ 32 - 1.
Definition dec_value (s : bytes) : Z := foldl (fun v c => 10 * v + (c - 48)) 0 s.
Definition strtoul (s : bytes) : Z := Z.min (dec_value s) ULONG_MAX.

Definition Resolution_toString (r : Resolution) : bytes :=
  print_dec (res_width r) ++ [120] ++ print_dec (res_height r).

(** [std::string::find(ch)] with the text before and after the match. *)
Fixpoint split_at_char (c : Z) (s : bytes) : option (bytes * bytes) :=
  match s with
  | [] => None
  | x :: s =>
      if x =? c then Some ([], s)
      else match split_at_char c s with
           | Some (a, b) => Some (x :: a, b)
           | None => None
           end
  end.

Definition Resolution_parse (text : bytes) : option Resolution :=
  let cleaned := filter (fun c => negb (isspace c)) text in
  let cleaned := (fun c => if (c =? 88) || (c =? 42) || (c =? 120) then 120 else c) <$> cleaned in
  match split_at_char 120 cleaned with
  | None => None
  | Some (w, h) =>
      if bool_decide (w = []) || bool_decide (h = []) then None
      else if negb (forallb isdigit w) then None
      else if negb (forallb isdigit h) then None
      else
        let ww := strtoul w in
        let hh := strtoul h in
        if (ww <? 320) || (8192 <? ww) || (hh <? 240) || (8192 <? hh) then None
        else Some (mkResolution ww hh)
  end.

Definition Resolution_presets : list Resolution :=
  [mkResolution 1280 720; mkResolution 1920 1080; mkResolution 2560 1440; mkResolution 3840 2160].

Definition fpsPresets : list Z := [30; 60; 120].

(** * Input permissions *)

Record InputPermissions := mkInputPermissions {
  perm_controller : bool; perm_keyboard : bool; perm_mouse : bool; perm_vibration : bool }.

#[export] Instance InputPermissions_eq_dec : EqDecision InputPermissions.
Proof. solve_decision. Defined.

Definition defaultInputPermissions : InputPermissions := mkInputPermissions true false false true.

Definition allDisabled (p : InputPermissions) : bool :=
  negb (perm_controller p) && negb (perm_keyboard p) && negb (perm_mouse p).

(** * Properties *)

Definition resolution_supported (r : Resolution) : Prop :=
  320 <= res_width r <= 8192 /\ 240 <= res_height r <= 8192.

(** Printing and reading a decimal below ten thousand, by evaluation of every
    value the supported range contains. *)
Definition dec_roundtrips (v : Z) : bool :=
  let s := print_dec v in
  forallb isdigit s && (strtoul s =? v) && negb (bool_decide (s = [])).

Lemma dec_roundtrips_range v :
  0 <= v <= 8192 ->
  forallb isdigit (print_dec v) = true /\ strtoul (print_dec v) = v /\ print_dec v <> [].
Proof.
  assert (H : forallb (fun n => dec_roundtrips (Z.of_nat n)) (seq 0 (Z.to_nat 8193)) = true)
    by (vm_compute; reflexivity).
  rewrite forallb_forall in H. intros Hv. specialize (H (Z.to_nat v)).
  rewrite Z2Nat.id in H by lia. unfold dec_roundtrips in H.
  assert (Hin : In (Z.to_nat v) (seq 0 (Z.to_nat 8193))) by (apply in_seq; lia).
  specialize (H Hin). b2p. done.
Qed.

Lemma split_at_char_app c a b :
  Forall (fun x => x <> c) a -> split_at_char c (a ++ c :: b) = Some (a, b).
Proof.
  induction 1 as [|x a Hx _ IH]; cbn.
  - by rewrite Z.eqb_refl.
  - rewrite (proj2 (Z.eqb_neq x c) Hx), IH. done.
Qed.

Lemma digits_clean s :
  forallb isdigit s = true ->
  Forall (fun x => x <> 120) s /\
  filter (fun c => negb (isspace c)) s = s /\
  (fun c => if (c =? 88) || (c =? 42) || (c =? 120) then 120 else c) <$> s = s.
Proof.
  induction s as [|x s IH]; [done|]. cbn [forallb]. intros H. b2p.
  destruct (IH H0) as (I1 & I2 & I3).
  unfold isdigit in H. b2p.
  split; [constructor; [lia|done]|]. split.
  - rewrite filter_cons_True, I2; [done|].
    unfold isspace. repeat bdestr; cbn; try lia; done.
  - rewrite fmap_cons, I3. repeat bdestr; cbn; try lia; done.
Qed.

(** Reading a resolution back from its own text gives the resolution, for every
    supported size. *)
Theorem resolution_parse_toString (r : Resolution) (H : resolution_supported r) :
  Resolution_parse (Resolution_toString r) = Some r.
Proof.
  destruct r as [w h], H as [Hw Hh]. cbn [res_width res_height] in *.
  destruct (dec_roundtrips_range w ltac:(lia)) as (Dw & Vw & Nw).
  destruct (dec_roundtrips_range h ltac:(lia)) as (Dh & Vh & Nh).
  destruct (digits_clean _ Dw) as (Cw1 & Cw2 & Cw3).
  destruct (digits_clean _ Dh) as (Ch1 & Ch2 & Ch3).
  unfold Resolution_parse, Resolution_toString. cbn [res_width res_height].
  rewrite !list.filter_app, Cw2, Ch2.
  change (filter (fun c => negb (isspace c)) [120]) with [120].
  rewrite !fmap_app, Cw3, Ch3. cbn [fmap list_fmap app].
  change (if (120 =? 88) || (120 =? 42) || (120 =? 120) then 120 else 120) with 120.
  rewrite split_at_char_app by done.
  rewrite !bool_decide_false by done. rewrite Dw, Dh, Vw, Vh. cbn.
  repeat bdestr; cbn; try lia; done.
Qed.

(** Whatever text is accepted denotes a supported resolution. *)
Lemma resolution_parse_sound text r :
  Resolution_parse text = Some r -> resolution_supported r.
Proof.
  unfold Resolution_parse. cbv zeta. intros H.
  repeat (break_hyp H; try discriminate). b2p. injection H as <-.
  unfold resolution_supported. cbn. lia.
Qed.
