(* ===== verification/Packet.v ===== *)
(** networking/Packet.h and networking/Packet.cpp: the 10-byte TCP frame header
    and the bounds-checked little-endian [ByteWriter] and [ByteReader].

    A pointer-and-size pair is the list of the bytes it designates; offsets are
    [nat]. The reader is a state monad over [{data; pos; ok}] whose failure is
    sticky, as the class documents. *)

From S2P Require Import Prelude.

(** * Frames *)

Definition kFrameMagic : Z := 0x5250.
Definition kFrameVersion : Z := 1.
Definition kFrameHeaderSize : nat := 10.
Definition kMaxControlPayload : Z := 64 * 1024.

Record FrameHeader := mkFrameHeader {
  fh_magic : Z; fh_version : Z; fh_type : Z; fh_flags : Z; fh_payloadSize : Z }.

Definition FrameHeader_valid (h : FrameHeader) : bool :=
  (fh_magic h =? kFrameMagic) && (fh_version h =? kFrameVersion) &&
  (fh_payloadSize h <=? kMaxControlPayload).

Definition appendU16 (v : Z) (out : bytes) : bytes :=
  out ++ [u8 (Z.land v 255); u8 (Z.land (Z.shiftr v 8) 255)].

(** [for (i < 4) push_back((v >> 8i) & 0xFF)]. *)
Definition appendU32 (v : Z) (out : bytes) : bytes := out ++ le_put 4 v.
Definition appendU64 (v : Z) (out : bytes) : bytes := out ++ le_put 8 v.

(** [makeFrame(type, flags, payload, payloadSize)]; the payload pointer may be
    null. *)
Definition makeFrame4 (type flags : Z) (payload : option bytes) (payloadSize : Z) : bytes :=
  let out := appendU16 kFrameMagic [] in
  let out := out ++ [kFrameVersion] in
  let out := appendU16 type out in
  let out := out ++ [flags] in
  let out := appendU32 payloadSize out in
  match payload with
  | Some p => if payloadSize =? 0 then out else out ++ take (Z.to_nat payloadSize) p
  | None => out
  end.

Definition makeFrame (type : Z) (payload : bytes) : bytes :=
  makeFrame4 type 0 (if bool_decide (payload = []) then None else Some payload) (u32 (zlen payload)).

(** [data[i]] of a buffer the caller has checked to be long enough. *)
Definition byte_at (data : bytes) (i : nat) : Z := nth i data 0.

Definition parseFrameHeader (data : bytes) : option FrameHeader :=
  if (length data <? kFrameHeaderSize)%nat then None
  else
    let h := {|
      fh_magic := u16 (Z.lor (byte_at data 0) (Z.shiftl (byte_at data 1) 8));
      fh_version := byte_at data 2;
      fh_type := u16 (Z.lor (byte_at data 3) (Z.shiftl (byte_at data 4) 8));
      fh_flags := byte_at data 5;
      fh_payloadSize :=
        Z.lor (Z.lor (Z.lor (byte_at data 6) (Z.shiftl (byte_at data 7) 8))
                     (Z.shiftl (byte_at data 8) 16))
              (Z.shiftl (byte_at data 9) 24) |} in
    if FrameHeader_valid h then Some h else None.

(** * ByteWriter *)

Module ByteWriter.

Definition w_u8 (v : Z) (buf : bytes) : bytes := buf ++ [v].
Definition w_u16 (v : Z) (buf : bytes) : bytes := appendU16 v buf.
Definition w_u32 (v : Z) (buf : bytes) : bytes := appendU32 v buf.
Definition w_u64 (v : Z) (buf : bytes) : bytes := appendU64 v buf.
Definition w_i32 (v : Z) (buf : bytes) : bytes := appendU32 (u32 v) buf.
Definition w_bool (v : bool) (buf : bytes) : bytes := buf ++ [if v then 1 else 0].
Definition w_bytes (data : bytes) (buf : bytes) : bytes := buf ++ data.

Definition kMaxStr : nat := 1024.

Definition w_str (s : bytes) (buf : bytes) : bytes :=
  let n := if (kMaxStr <? length s)%nat then kMaxStr else length s in
  appendU16 (u16 (Z.of_nat n)) buf ++ take n s.

End ByteWriter.

(** * ByteReader *)

Module ByteReader.

Record reader := mkReader { r_data : bytes; r_pos : nat; r_ok : bool }.

Definition init (data : bytes) : reader := mkReader data 0 true.
Definition remaining (r : reader) : nat := length (r_data r) - r_pos r.
Definition fail (r : reader) : reader := mkReader (r_data r) (r_pos r) false.
Definition advance (n : nat) (r : reader) : reader :=
  mkReader (r_data r) (r_pos r + n) (r_ok r).

(** The computation type of the read methods. *)
Definition rd (A : Type) : Type := reader -> A * reader.

#[export] Instance rd_ret : MRet rd := fun A a r => (a, r).
#[export] Instance rd_bind : MBind rd := fun A B k m r => let '(a, r) := m r in k a r.

(** The shared shape of the fixed-width reads: check, read [n] bytes, advance. *)
Definition r_take {A} (n : nat) (zero : A) (k : bytes -> A) : rd A := fun r =>
  if negb (r_ok r) || (length (r_data r) <? r_pos r + n)%nat
  then (zero, fail r)
  else (k (take n (drop (r_pos r) (r_data r))), advance n r).

Definition r_u8 : rd Z := r_take 1 0 (fun b => byte_at b 0).
Definition r_u16 : rd Z :=
  r_take 2 0 (fun b => u16 (Z.lor (byte_at b 0) (Z.shiftl (byte_at b 1) 8))).
(** [for (i < 4) v |= data[pos + i] << 8i]. *)
Definition r_u32 : rd Z := r_take 4 0 le_get.
Definition r_u64 : rd Z := r_take 8 0 le_get.
Definition r_i32 : rd Z := v ← r_u32; mret (i32 v).
Definition r_bool : rd bool := v ← r_u8; mret (negb (v =? 0)).

(** [bytes(out, n)] leaves [out] untouched on failure; [old] is its content. *)
Definition r_bytes (n : nat) (old : bytes) : rd bytes := r_take n old (fun b => b).

Definition r_str : rd bytes :=
  n ← r_u16;
  r_take (Z.to_nat n) [] (fun b => b).

Definition get_ok : rd bool := fun r => (r_ok r, r).
Definition get_remaining : rd nat := fun r => (remaining r, r).

End ByteReader.

Import ByteReader.

(** * Frame properties *)

Lemma appendU16_put v out : fits 16 v -> appendU16 v out = out ++ le_put 2 v.
Proof.
  intros Hv. unfold appendU16. f_equal. rewrite !le_put_succ. cbn [le_put fmap].
  rewrite !land_255, Z.shiftr_div_pow2 by lia. repeat f_equal; apply u8_id; wsolve.
Qed.

Lemma u16_le_get b0 b1 :
  byte_ok b0 -> byte_ok b1 -> u16 (Z.lor b0 (Z.shiftl b1 8)) = le_get [b0; b1].
Proof.
  intros H0 H1. rewrite !le_get_cons. change (le_get []) with 0.
  rewrite Z.shiftl_0_l, Z.lor_0_r. apply u16_id.
  pose proof (le_get_range [b0; b1]) as R.
  rewrite !le_get_cons in R. change (le_get []) with 0 in R.
  rewrite Z.shiftl_0_l, Z.lor_0_r in R. apply R. bytes_tac.
Qed.

Lemma lor4_le_get b0 b1 b2 b3 :
  Z.lor (Z.lor (Z.lor b0 (Z.shiftl b1 8)) (Z.shiftl b2 16)) (Z.shiftl b3 24)
  = le_get [b0; b1; b2; b3].
Proof.
  rewrite !le_get_cons. change (le_get []) with 0. rewrite Z.shiftl_0_l, Z.lor_0_r.
  rewrite !Z.shiftl_lor, !Z.shiftl_shiftl, !Z.lor_assoc by lia. done.
Qed.

(** The first ten bytes of a frame, in wire order. *)
Definition frame_header_bytes (type flags size : Z) : bytes :=
  le_put 2 kFrameMagic ++ [kFrameVersion] ++ le_put 2 type ++ [flags] ++ le_put 4 size.

Lemma makeFrame_eq type payload :
  fits 16 type -> zlen payload < 2 ^ 32 ->
  makeFrame type payload = frame_header_bytes type 0 (zlen payload) ++ payload.
Proof.
  intros Ht Hp. unfold makeFrame, makeFrame4, frame_header_bytes, appendU32.
  rewrite !appendU16_put by (done || (widths; cbn; lia)).
  rewrite u32_id by (widths; lia).
  case_bool_decide as E.
  - subst payload. rewrite app_nil_r. by rewrite <- !app_assoc.
  - rewrite (proj2 (Z.eqb_neq _ _)) by (destruct payload; cbn in *; [done|lia]).
    rewrite Nat2Z.id, firstn_all. by rewrite <- !app_assoc.
Qed.

Lemma frame_header_bytes_length type flags size :
  length (frame_header_bytes type flags size) = kFrameHeaderSize.
Proof. unfold frame_header_bytes. by rewrite !length_app, !le_put_length. Qed.

Lemma parse_frame_header_bytes type flags size rest :
  fits 16 type -> 0 <= size <= kMaxControlPayload ->
  parseFrameHeader (frame_header_bytes type flags size ++ rest)
  = Some (mkFrameHeader kFrameMagic kFrameVersion type flags size).
Proof.
  intros Ht Hs. unfold parseFrameHeader.
  rewrite length_app, frame_header_bytes_length. cbn [Nat.ltb Nat.leb].
  unfold frame_header_bytes.
  destruct (le_put_2 type) as (t0 & t1 & Et & Ht0 & Ht1).
  destruct (le_put_4 size) as (s0 & s1 & s2 & s3 & Es).
  rewrite Et, Es. cbn [app]. cbv [byte_at].
  change (le_put 2 kFrameMagic) with [80; 82]. cbn [app nth].
  rewrite lor4_le_get, (u16_le_get t0 t1), <- Et, <- Es, le_get_put_16 by done.
  rewrite le_get_put_32 by (unfold kMaxControlPayload in Hs; widths; lia).
  unfold FrameHeader_valid. cbn [fh_magic fh_version fh_payloadSize].
  rewrite (proj2 (Z.leb_le _ _)) by apply Hs. done.
Qed.

(** Whatever the type and payload, a frame with a payload of at most 64 KiB is
    parsed back to a header carrying exactly that type and size, and its
    payload is what follows the ten header bytes. *)
Theorem frame_roundtrip type payload
  (Ht : fits 16 type) (Hp : zlen payload <= kMaxControlPayload) :
  parseFrameHeader (makeFrame type payload)
    = Some (mkFrameHeader kFrameMagic kFrameVersion type 0 (zlen payload)) /\
  drop kFrameHeaderSize (makeFrame type payload) = payload.
Proof.
  unfold kMaxControlPayload in Hp. rewrite makeFrame_eq by (widths; lia). split.
  - apply parse_frame_header_bytes; [done|unfold kMaxControlPayload; lia].
  - by rewrite <- (frame_header_bytes_length type 0 (zlen payload)), drop_app_length.
Qed.

(** A header is only ever accepted with the magic, the version and a payload
    size within the control-channel cap. *)
Lemma parseFrameHeader_valid data h :
  parseFrameHeader data = Some h ->
  (kFrameHeaderSize <= length data)%nat /\ fh_magic h = kFrameMagic /\
  fh_version h = kFrameVersion /\ fh_payloadSize h <= kMaxControlPayload.
Proof.
  unfold parseFrameHeader. destruct (Nat.ltb_spec (length data) kFrameHeaderSize); [done|].
  intros E. destruct (FrameHeader_valid _) eqn:V; [|done]. injection E as <-.
  unfold FrameHeader_valid in V. b2p. done.
Qed.

(** * Reader properties *)

(** The reader never looks past its buffer. *)
Definition reader_ok (r : reader) : Prop := (r_pos r <= length (r_data r))%nat.

(** [preserves m]: [m] keeps the buffer and its bounds, never moves backwards,
    and a reader that has failed stays failed. *)
Definition preserves {A} (m : rd A) : Prop := forall r,
  reader_ok r ->
  let r' := (m r).2 in
  reader_ok r' /\ r_data r' = r_data r /\ (r_pos r <= r_pos r')%nat /\
  (r_ok r = false -> r_ok r' = false /\ r_pos r' = r_pos r).

Create HintDb reader discriminated.

Lemma preserves_ret {A} (a : A) : preserves (mret a).
Proof. intros r Hr. cbn. auto. Qed.

Lemma preserves_bind {A B} (m : rd A) (k : A -> rd B) :
  preserves m -> (forall a, preserves (k a)) -> preserves (m ≫= k).
Proof.
  intros Hm Hk r Hr. unfold mbind, rd_bind. specialize (Hm r Hr).
  destruct (m r) as [a r1]. cbn in Hm. destruct Hm as (H1 & H2 & H3 & H4).
  specialize (Hk a r1 H1). destruct (k a r1) as [b r2]. cbn in *.
  destruct Hk as (K1 & K2 & K3 & K4). split; [done|]. split; [congruence|]. split; [lia|].
  intros E. destruct (H4 E) as [E1 P1]. destruct (K4 E1) as [E2 P2]. split; [done|lia].
Qed.

Lemma preserves_take {A} n (z : A) k : preserves (r_take n z k).
Proof.
  intros r Hr. unfold r_take.
  destruct (negb (r_ok r) || _) eqn:E; cbn; unfold reader_ok in *; cbn.
  - repeat split; auto; lia.
  - apply orb_false_iff in E as [E1 E2]. apply negb_false_iff in E1.
    apply Nat.ltb_ge in E2. repeat split; auto; try lia; congruence.
Qed.

Lemma preserves_get_ok : preserves get_ok.
Proof. intros r Hr. cbn. auto. Qed.

Lemma preserves_get_remaining : preserves get_remaining.
Proof. intros r Hr. cbn. auto. Qed.

#[export] Hint Resolve preserves_ret preserves_take preserves_get_ok preserves_get_remaining : reader.
#[export] Hint Extern 4 (preserves (_ ≫= _)) => apply preserves_bind; intros : reader.
#[export] Hint Extern 3 (preserves r_u8) => unfold r_u8 : reader.
#[export] Hint Extern 3 (preserves r_u16) => unfold r_u16 : reader.
#[export] Hint Extern 3 (preserves r_u32) => unfold r_u32 : reader.
#[export] Hint Extern 3 (preserves r_u64) => unfold r_u64 : reader.
#[export] Hint Extern 3 (preserves r_bool) => unfold r_bool : reader.
#[export] Hint Extern 3 (preserves r_str) => unfold r_str : reader.
#[export] Hint Extern 3 (preserves (r_bytes _ _)) => unfold r_bytes : reader.

(** [reads_dep m bs f]: wherever [bs] stands in a buffer, a healthy reader at
    its first byte returns [f post], where [post] are the bytes after [bs], and
    ends just after [bs]. [reads] is the case of a result that does not depend
    on what follows. *)
Definition reads_dep {A} (m : rd A) (bs : bytes) (f : bytes -> A) : Prop := forall pre post,
  m (mkReader (pre ++ bs ++ post) (length pre) true)
  = (f post, mkReader (pre ++ bs ++ post) (length pre + length bs) true).
Definition reads {A} (m : rd A) (bs : bytes) (a : A) : Prop := reads_dep m bs (fun _ => a).

Lemma reads_ret {A} (a : A) : reads (mret a) [] a.
Proof. intros pre post. cbn. by rewrite Nat.add_0_r. Qed.

Lemma reads_dep_bind {A B} (m : rd A) (k : A -> rd B) bs1 bs2 a f :
  reads m bs1 a -> reads_dep (k a) bs2 f -> reads_dep (m ≫= k) (bs1 ++ bs2) f.
Proof.
  intros Hm Hk pre post. unfold mbind, rd_bind. rewrite <- app_assoc, Hm.
  specialize (Hk (pre ++ bs1) post). rewrite <- app_assoc, !length_app in Hk.
  rewrite Hk, length_app. do 2 f_equal. lia.
Qed.

Lemma reads_bind {A B} (m : rd A) (k : A -> rd B) bs1 bs2 a b :
  reads m bs1 a -> reads (k a) bs2 b -> reads (m ≫= k) (bs1 ++ bs2) b.
Proof. apply reads_dep_bind. Qed.

Lemma reads_dep_map {A B} (m : rd A) (g : A -> B) bs f :
  reads_dep m bs f -> reads_dep (m ≫= fun x => mret (g x)) bs (fun post => g (f post)).
Proof. intros Hm pre post. unfold mbind, rd_bind. by rewrite Hm. Qed.

Lemma reads_bind_ret {A B} (m : rd A) (f : A -> B) bs a :
  reads m bs a -> reads (m ≫= fun x => mret (f x)) bs (f a).
Proof. apply reads_dep_map. Qed.

Lemma reads_dep_init {A} (m : rd A) bs f extra :
  reads_dep m bs f -> (m (init (bs ++ extra))).1 = f extra.
Proof. intros H. specialize (H [] extra). cbn [app length Nat.add] in H. unfold init. by rewrite H. Qed.

Lemma reads_take {A} (z : A) k bs : reads (r_take (length bs) z k) bs (k bs).
Proof.
  intros pre post. unfold r_take. cbn [r_ok r_data r_pos negb orb].
  rewrite (proj2 (Nat.ltb_ge _ _)) by (rewrite !length_app; lia).
  by rewrite take_drop_mid.
Qed.

Lemma reads_take_eq {A} n (z : A) k bs a :
  length bs = n -> k bs = a -> reads (r_take n z k) bs a.
Proof. intros <- <-. apply reads_take. Qed.

Lemma reads_u8 v : reads r_u8 [v] v.
Proof. by apply reads_take_eq. Qed.

Lemma reads_u16 v : fits 16 v -> reads r_u16 (le_put 2 v) v.
Proof.
  intros Hv. apply reads_take_eq; [apply le_put_length|].
  destruct (le_put_2 v) as (b0 & b1 & E & H0 & H1).
  rewrite E. cbv [byte_at]. cbn [nth]. rewrite u16_le_get, <- E by done. by apply le_get_put_16.
Qed.

Lemma reads_u32 v : fits 32 v -> reads r_u32 (le_put 4 v) v.
Proof. intros. apply reads_take_eq; [apply le_put_length|by apply le_get_put_32]. Qed.

Lemma reads_u64 v : fits 64 v -> reads r_u64 (le_put 8 v) v.
Proof. intros. apply reads_take_eq; [apply le_put_length|by apply le_get_put_64]. Qed.

Lemma reads_bool (b : bool) : reads r_bool [if b then 1 else 0] b.
Proof.
  replace b with (negb ((if b then 1 else 0) =? 0)) at 2 by (by destruct b).
  unfold r_bool. apply (reads_bind_ret r_u8 (fun v => negb (v =? 0))). apply reads_u8.
Qed.

Lemma reads_bytes old bs : reads (r_bytes (length bs) old) bs bs.
Proof. by apply reads_take_eq. Qed.

Lemma reads_str s : (length s <= ByteWriter.kMaxStr)%nat ->
  reads r_str (le_put 2 (zlen s) ++ s) s.
Proof.
  intros Hs. unfold r_str. unfold ByteWriter.kMaxStr in Hs.
  eapply reads_bind; [apply reads_u16; widths; lia|].
  rewrite Nat2Z.id. by apply reads_take_eq.
Qed.

(** What [w_str] appends: the capped length and the capped text. *)
Lemma w_str_eq s buf :
  ByteWriter.w_str s buf
  = buf ++ le_put 2 (zlen (take ByteWriter.kMaxStr s)) ++ take ByteWriter.kMaxStr s.
Proof.
  unfold ByteWriter.w_str. rewrite length_take.
  destruct (Nat.ltb_spec ByteWriter.kMaxStr (length s)) as [H|H].
  - rewrite Nat.min_l by lia. rewrite appendU16_put, u16_id, <- app_assoc; done.
  - rewrite Nat.min_r by lia. unfold ByteWriter.kMaxStr in H.
    rewrite !take_ge by (unfold ByteWriter.kMaxStr; lia).
    rewrite u16_id, appendU16_put, <- app_assoc by (widths; lia). done.
Qed.
