(* ===== verification/Protocol.v ===== *)
(** networking/Protocol.h and networking/Protocol.cpp: the control-channel
    messages, their wire encoding, and codec negotiation.

    An [Envelope] carries its type and its body separately, exactly as the C++
    struct does (an enum and a [std::variant]); nothing forces them to agree. *)

From S2P Require Import Prelude Types Packet.
Import ByteWriter ByteReader.

(** * Identifiers *)

Inductive Id :=
  | IdClientHello | IdHostReject | IdHostApproved | IdHostCapabilities
  | IdClientCapabilities | IdNegotiationResult | IdPing | IdPong
  | IdInputPermission | IdKick | IdBye
  | IdStreamStart | IdStreamStop | IdKeyframeRequest | IdKeyExchange | IdSessionKeyReady.

#[export] Instance Id_eq_dec : EqDecision Id.
Proof. solve_decision. Defined.

Definition idCode (i : Id) : Z :=
  match i with
  | IdClientHello => 0x0001 | IdHostReject => 0x0002 | IdHostApproved => 0x0003
  | IdHostCapabilities => 0x0004 | IdClientCapabilities => 0x0005
  | IdNegotiationResult => 0x0006 | IdPing => 0x0007 | IdPong => 0x0008
  | IdInputPermission => 0x0009 | IdKick => 0x000A | IdBye => 0x000B
  | IdStreamStart => 0x0010 | IdStreamStop => 0x0011 | IdKeyframeRequest => 0x0012
  | IdKeyExchange => 0x0013 | IdSessionKeyReady => 0x0014
  end.

Definition allIds : list Id :=
  [IdClientHello; IdHostReject; IdHostApproved; IdHostCapabilities; IdClientCapabilities;
   IdNegotiationResult; IdPing; IdPong; IdInputPermission; IdKick; IdBye;
   IdStreamStart; IdStreamStop; IdKeyframeRequest; IdKeyExchange; IdSessionKeyReady].

(** [static_cast<Id>(raw)], where the value is one of the named constants. *)
Definition idOfRaw (raw : Z) : option Id := list_find (fun i => idCode i = raw) allIds ≫= fun p => Some p.2.

Definition knownId (raw : Z) : bool := bool_decide (is_Some (idOfRaw raw)).

Definition idName (i : Id) : bytes :=
  match i with
  | IdClientHello => str "CLIENT_HELLO" | IdHostReject => str "HOST_REJECT"
  | IdHostApproved => str "HOST_APPROVED" | IdHostCapabilities => str "HOST_CAPABILITIES"
  | IdClientCapabilities => str "CLIENT_CAPABILITIES"
  | IdNegotiationResult => str "NEGOTIATION_RESULT" | IdPing => str "PING" | IdPong => str "PONG"
  | IdInputPermission => str "INPUT_PERMISSION" | IdKick => str "KICK" | IdBye => str "BYE"
  | IdStreamStart => str "STREAM_START" | IdStreamStop => str "STREAM_STOP"
  | IdKeyframeRequest => str "KEYFRAME_REQUEST" | IdKeyExchange => str "KEY_EXCHANGE"
  | IdSessionKeyReady => str "SESSION_KEY_READY"
  end.

Inductive Reason :=
  | ROk | RBadSessionCode | RRejectedByHost | RProtocolError | RUnsupportedVersion
  | RInactivityTimeout | RKicked | RServerFull | RNoCommonCodec.

#[export] Instance Reason_eq_dec : EqDecision Reason.
Proof. solve_decision. Defined.

Definition reasonCode (r : Reason) : Z :=
  match r with
  | ROk => 0 | RBadSessionCode => 1 | RRejectedByHost => 2 | RProtocolError => 3
  | RUnsupportedVersion => 4 | RInactivityTimeout => 5 | RKicked => 6 | RServerFull => 7
  | RNoCommonCodec => 8
  end.

Definition reasonName (r : Reason) : bytes :=
  match r with
  | ROk => str "ok" | RBadSessionCode => str "bad session code"
  | RRejectedByHost => str "rejected by host" | RProtocolError => str "protocol error"
  | RUnsupportedVersion => str "unsupported protocol version"
  | RInactivityTimeout => str "inactivity timeout" | RKicked => str "kicked by host"
  | RServerFull => str "session full" | RNoCommonCodec => str "no common codec"
  end.

(** * Messages *)

Record ClientHello := mkClientHello {
  hello_clientName : bytes; hello_sessionCode : bytes; hello_appVersion : bytes }.
Record HostReject := mkHostReject { reject_reasonCode : Z; reject_reasonText : bytes }.
Record HostCapabilities := mkHostCapabilities {
  hc_hostName : bytes; hc_gameName : bytes; hc_captureMode : Z; hc_width : Z; hc_height : Z;
  hc_fps : Z; hc_bitrateKbps : Z; hc_offeredCodecs : list VideoCodec }.
Record ClientCapabilities := mkClientCapabilities { cc_supportedCodecs : list VideoCodec }.
Record NegotiationResult := mkNegotiationResult {
  nr_accepted : bool; nr_codec : Z; nr_width : Z; nr_height : Z; nr_fps : Z;
  nr_bitrateKbps : Z; nr_note : bytes }.
Record Ping := mkPing { ping_epochMs : Z }.
Record Pong := mkPong { pong_echoEpochMs : Z }.
Record InputPermission := mkInputPermission {
  ip_controller : bool; ip_keyboard : bool; ip_mouse : bool; ip_vibration : bool }.
Record Kick := mkKick { kick_reason : bytes }.
Record Bye := mkBye { bye_reason : bytes }.
Record StreamStart := mkStreamStart {
  ss_udpPort : Z; ss_sessionId : Z; ss_playerIndex : Z; ss_codec : Z; ss_width : Z;
  ss_height : Z; ss_fps : Z; ss_bitrateKbps : Z }.
Record StreamStop := mkStreamStop { stop_reason : bytes }.
Record KeyExchange := mkKeyExchange { kx_publicKey : bytes; kx_salt : bytes }.

Inductive Body :=
  | BClientHello (m : ClientHello)
  | BHostReject (m : HostReject)
  | BHostApproved
  | BHostCapabilities (m : HostCapabilities)
  | BClientCapabilities (m : ClientCapabilities)
  | BNegotiationResult (m : NegotiationResult)
  | BPing (m : Ping)
  | BPong (m : Pong)
  | BInputPermission (m : InputPermission)
  | BKick (m : Kick)
  | BBye (m : Bye)
  | BStreamStart (m : StreamStart)
  | BStreamStop (m : StreamStop)
  | BKeyframeRequest
  | BKeyExchange (m : KeyExchange)
  | BSessionKeyReady.

Record Envelope := mkEnvelope { env_type : Id; env_body : Body }.

(** [std::variant] default-constructs its first alternative. *)
Definition defaultBody : Body := BClientHello (mkClientHello [] [] []).

(** The identifier of the alternative the variant holds. *)
Definition bodyId (b : Body) : Id :=
  match b with
  | BClientHello _ => IdClientHello | BHostReject _ => IdHostReject
  | BHostApproved => IdHostApproved | BHostCapabilities _ => IdHostCapabilities
  | BClientCapabilities _ => IdClientCapabilities
  | BNegotiationResult _ => IdNegotiationResult | BPing _ => IdPing | BPong _ => IdPong
  | BInputPermission _ => IdInputPermission | BKick _ => IdKick | BBye _ => IdBye
  | BStreamStart _ => IdStreamStart | BStreamStop _ => IdStreamStop
  | BKeyframeRequest => IdKeyframeRequest | BKeyExchange _ => IdKeyExchange
  | BSessionKeyReady => IdSessionKeyReady
  end.

(** * Writers *)

Definition kMaxCodecs : nat := 32.

Definition writeVideoCodecList (list : list VideoCodec) (w : bytes) : bytes :=
  let w := w_u8 (u8 (Z.of_nat (Nat.min (length list) kMaxCodecs))) w in
  foldl (fun w c => w_u8 (u8 c) w) w (take kMaxCodecs list).

Definition writeMsg (b : Body) (w : bytes) : bytes :=
  match b with
  | BClientHello m =>
      let w := w_str (hello_clientName m) w in
      let w := w_str (hello_sessionCode m) w in
      w_str (hello_appVersion m) w
  | BHostReject m =>
      let w := w_u16 (reject_reasonCode m) w in
      w_str (reject_reasonText m) w
  | BHostApproved => w
  | BHostCapabilities m =>
      let w := w_str (hc_hostName m) w in
      let w := w_str (hc_gameName m) w in
      let w := w_u8 (hc_captureMode m) w in
      let w := w_u16 (hc_width m) w in
      let w := w_u16 (hc_height m) w in
      let w := w_u8 (hc_fps m) w in
      let w := w_u32 (hc_bitrateKbps m) w in
      writeVideoCodecList (hc_offeredCodecs m) w
  | BClientCapabilities m => writeVideoCodecList (cc_supportedCodecs m) w
  | BNegotiationResult m =>
      let w := w_bool (nr_accepted m) w in
      let w := w_u8 (nr_codec m) w in
      let w := w_u16 (nr_width m) w in
      let w := w_u16 (nr_height m) w in
      let w := w_u8 (nr_fps m) w in
      let w := w_u32 (nr_bitrateKbps m) w in
      w_str (nr_note m) w
  | BPing m => w_u64 (ping_epochMs m) w
  | BPong m => w_u64 (pong_echoEpochMs m) w
  | BInputPermission m =>
      let w := w_bool (ip_controller m) w in
      let w := w_bool (ip_keyboard m) w in
      let w := w_bool (ip_mouse m) w in
      w_bool (ip_vibration m) w
  | BKick m => w_str (kick_reason m) w
  | BBye m => w_str (bye_reason m) w
  | BStreamStart m =>
      let w := w_u16 (ss_udpPort m) w in
      let w := w_u32 (ss_sessionId m) w in
      let w := w_u8 (ss_playerIndex m) w in
      let w := w_u8 (ss_codec m) w in
      let w := w_u16 (ss_width m) w in
      let w := w_u16 (ss_height m) w in
      let w := w_u8 (ss_fps m) w in
      w_u32 (ss_bitrateKbps m) w
  | BStreamStop m => w_str (stop_reason m) w
  | BKeyframeRequest => w
  | BKeyExchange m =>
      let w := w_bytes (kx_publicKey m) w in
      w_bytes (kx_salt m) w
  | BSessionKeyReady => w
  end.

(** The payload depends on the body the variant holds, not on [env_type]. *)
Definition encodeMessage (e : Envelope) : bytes := writeMsg (env_body e) [].

(** * Readers *)

(** [return r.ok();] *)
Definition read_done : rd bool := get_ok.
(** [return r.ok() && r.remaining() == 0;] *)
Definition read_done_exact : rd bool :=
  ok ← get_ok; n ← get_remaining; mret (ok && (n =? 0)%nat).

Fixpoint read_codecs (n : nat) : rd (list VideoCodec) :=
  match n with
  | O => mret []
  | S n => c ← r_u8; cs ← read_codecs n; mret (c :: cs)
  end.

Definition readVideoCodecList : rd (list VideoCodec) :=
  n ← r_u8; read_codecs (Z.to_nat n).

(** One reader per message; the boolean is the C++ return value. *)
Definition readMsg (i : Id) : rd (Body * bool) :=
  match i with
  | IdClientHello =>
      name ← r_str; code ← r_str; ver ← r_str; ok ← read_done;
      mret (BClientHello (mkClientHello name code ver), ok)
  | IdHostReject =>
      code ← r_u16; text ← r_str; ok ← read_done; mret (BHostReject (mkHostReject code text), ok)
  | IdHostApproved => ok ← read_done_exact; mret (BHostApproved, ok)
  | IdHostCapabilities =>
      host ← r_str; game ← r_str; mode ← r_u8; w ← r_u16; h ← r_u16; fps ← r_u8; kbps ← r_u32;
      codecs ← readVideoCodecList; ok ← read_done;
      mret (BHostCapabilities (mkHostCapabilities host game mode w h fps kbps codecs), ok)
  | IdClientCapabilities =>
      codecs ← readVideoCodecList; ok ← read_done;
      mret (BClientCapabilities (mkClientCapabilities codecs), ok)
  | IdNegotiationResult =>
      acc ← r_bool; codec ← r_u8; w ← r_u16; h ← r_u16; fps ← r_u8; kbps ← r_u32; note ← r_str;
      ok ← read_done;
      mret (BNegotiationResult (mkNegotiationResult acc codec w h fps kbps note), ok)
  | IdPing => t ← r_u64; ok ← read_done_exact; mret (BPing (mkPing t), ok)
  | IdPong => t ← r_u64; ok ← read_done_exact; mret (BPong (mkPong t), ok)
  | IdInputPermission =>
      c ← r_bool; k ← r_bool; m ← r_bool; v ← r_bool; ok ← read_done_exact;
      mret (BInputPermission (mkInputPermission c k m v), ok)
  | IdKick => reason ← r_str; ok ← read_done; mret (BKick (mkKick reason), ok)
  | IdBye => reason ← r_str; ok ← read_done; mret (BBye (mkBye reason), ok)
  | IdStreamStart =>
      port ← r_u16; sid ← r_u32; player ← r_u8; codec ← r_u8; w ← r_u16; h ← r_u16; fps ← r_u8;
      kbps ← r_u32; ok ← read_done_exact;
      mret (BStreamStart (mkStreamStart port sid player codec w h fps kbps), ok)
  | IdStreamStop => reason ← r_str; ok ← read_done; mret (BStreamStop (mkStreamStop reason), ok)
  | IdKeyframeRequest => ok ← read_done_exact; mret (BKeyframeRequest, ok)
  | IdKeyExchange =>
      pub ← r_bytes 64 (replicate 64 0); salt ← r_bytes 16 (replicate 16 0); ok ← read_done_exact;
      mret (BKeyExchange (mkKeyExchange pub salt), ok)
  | IdSessionKeyReady => ok ← read_done_exact; mret (BSessionKeyReady, ok)
  end.

Definition decodeMessage (rawType : Z) (data : bytes) : option Envelope :=
  if negb (knownId rawType) then None
  else match idOfRaw rawType with
       | None => None
       | Some type =>
           let '((body, ok), _) := readMsg type (init data) in
           if ok then Some (mkEnvelope type body) else None
       end.

(** * Negotiation *)

Fixpoint negotiateCodec (hostPreference clientSupported : list VideoCodec) : option VideoCodec :=
  match hostPreference with
  | [] => None
  | want :: rest =>
      if bool_decide (want ∈ clientSupported) then Some want
      else negotiateCodec rest clientSupported
  end.

(** * Wire form *)

(** The C++ types of the fields: every value fits its declared width. Key
    material has the sizes [SecureChannel] produces. *)
Definition body_typed (b : Body) : Prop :=
  match b with
  | BHostReject m => fits 16 (reject_reasonCode m)
  | BHostCapabilities m =>
      fits 16 (hc_width m) /\ fits 16 (hc_height m) /\ fits 32 (hc_bitrateKbps m) /\
      Forall (fits 8) (hc_offeredCodecs m)
  | BClientCapabilities m => Forall (fits 8) (cc_supportedCodecs m)
  | BNegotiationResult m =>
      fits 16 (nr_width m) /\ fits 16 (nr_height m) /\ fits 32 (nr_bitrateKbps m)
  | BPing m => fits 64 (ping_epochMs m)
  | BPong m => fits 64 (pong_echoEpochMs m)
  | BStreamStart m =>
      fits 16 (ss_udpPort m) /\ fits 32 (ss_sessionId m) /\ fits 16 (ss_width m) /\
      fits 16 (ss_height m) /\ fits 32 (ss_bitrateKbps m)
  | BKeyExchange m => length (kx_publicKey m) = 64%nat /\ length (kx_salt m) = 16%nat
  | _ => True
  end.

#[export] Instance body_typed_dec b : Decision (body_typed b).
Proof. destruct b; cbn; apply _. Defined.

(** The protocol caps: strings at 1024 bytes, codec lists at 32 entries. *)
Definition cap (s : bytes) : bytes := take kMaxStr s.

Definition canon (b : Body) : Body :=
  match b with
  | BClientHello m => BClientHello (mkClientHello (cap (hello_clientName m))
                        (cap (hello_sessionCode m)) (cap (hello_appVersion m)))
  | BHostReject m => BHostReject (mkHostReject (reject_reasonCode m) (cap (reject_reasonText m)))
  | BHostCapabilities m =>
      BHostCapabilities (mkHostCapabilities (cap (hc_hostName m)) (cap (hc_gameName m))
        (hc_captureMode m) (hc_width m) (hc_height m) (hc_fps m) (hc_bitrateKbps m)
        (take kMaxCodecs (hc_offeredCodecs m)))
  | BClientCapabilities m =>
      BClientCapabilities (mkClientCapabilities (take kMaxCodecs (cc_supportedCodecs m)))
  | BNegotiationResult m =>
      BNegotiationResult (mkNegotiationResult (nr_accepted m) (nr_codec m) (nr_width m)
        (nr_height m) (nr_fps m) (nr_bitrateKbps m) (cap (nr_note m)))
  | BKick m => BKick (mkKick (cap (kick_reason m)))
  | BBye m => BBye (mkBye (cap (bye_reason m)))
  | BStreamStop m => BStreamStop (mkStreamStop (cap (stop_reason m)))
  | b => b
  end.

(** Messages whose reader also demands that nothing follows. *)
Definition strictId (i : Id) : bool :=
  match i with
  | IdHostApproved | IdPing | IdPong | IdInputPermission | IdStreamStart
  | IdKeyframeRequest | IdKeyExchange | IdSessionKeyReady => true
  | _ => false
  end.

(** * Codec lemmas *)

Lemma reads_codecs cs : reads (read_codecs (length cs)) cs cs.
Proof.
  induction cs as [|c cs IH]; cbn [length read_codecs]; [apply reads_ret|].
  apply (reads_bind _ _ [c] cs c); [apply reads_u8|].
  by apply (reads_bind_ret _ (cons c)).
Qed.

Lemma foldl_w_u8 cs w :
  Forall (fits 8) cs -> foldl (fun w c => w_u8 (u8 c) w) w cs = w ++ cs.
Proof.
  intros H. revert w. induction H as [|c cs Hc _ IH]; intros w; cbn [foldl].
  - by rewrite app_nil_r.
  - rewrite IH. unfold w_u8. rewrite u8_id, <- app_assoc by done. done.
Qed.

Lemma writeVideoCodecList_eq cs w :
  Forall (fits 8) cs ->
  writeVideoCodecList cs w
  = w ++ [zlen (take kMaxCodecs cs)] ++ take kMaxCodecs cs.
Proof.
  intros H. unfold writeVideoCodecList. rewrite foldl_w_u8 by (by apply Forall_take).
  unfold w_u8. rewrite length_take, Nat.min_comm, u8_id, <- app_assoc by (unfold kMaxCodecs; widths; lia).
  done.
Qed.

Lemma reads_codec_list cs :
  (length cs <= kMaxCodecs)%nat -> reads readVideoCodecList ([zlen cs] ++ cs) cs.
Proof.
  intros H. eapply reads_bind; [apply reads_u8|]. rewrite Nat2Z.id. apply reads_codecs.
Qed.

Lemma reads_done : reads read_done [] true.
Proof. intros pre post. cbn. by rewrite Nat.add_0_r. Qed.

Lemma reads_done_exact : reads_dep read_done_exact [] (fun post => bool_decide (post = [])).
Proof.
  intros pre post. unfold read_done_exact, mbind, rd_bind, get_ok, get_remaining, remaining.
  cbn [r_ok r_data r_pos]. rewrite app_nil_l, length_app, Nat.add_0_r.
  replace (length pre + length post - length pre)%nat with (length post) by lia.
  unfold mret, rd_ret. cbn [andb]. f_equal.
  destruct post; [by rewrite bool_decide_true|by rewrite bool_decide_false].
Qed.

Lemma cap_length s : (length (cap s) <= kMaxStr)%nat.
Proof. unfold cap. rewrite length_take. lia. Qed.

Create HintDb wire discriminated.
#[export] Hint Resolve reads_u8 reads_u16 reads_u32 reads_u64 reads_bool reads_str cap_length : wire.

(** Length-prefixed text and counted codecs on the wire. *)
Definition wire_str (s : bytes) : bytes := le_put 2 (zlen s) ++ s.
Definition wire_codecs (cs : list VideoCodec) : bytes := [zlen cs] ++ cs.

Lemma reads_wire_str s : reads r_str (wire_str (cap s)) (cap s).
Proof. apply reads_str, cap_length. Qed.

Lemma reads_wire_codecs cs :
  reads readVideoCodecList (wire_codecs (take kMaxCodecs cs)) (take kMaxCodecs cs).
Proof. apply reads_codec_list. rewrite length_take. lia. Qed.

Lemma reads_pub bs : length bs = 64%nat -> reads (r_bytes 64 (replicate 64 0)) bs bs.
Proof. intros <-. apply reads_bytes. Qed.
Lemma reads_salt bs : length bs = 16%nat -> reads (r_bytes 16 (replicate 16 0)) bs bs.
Proof. intros <-. apply reads_bytes. Qed.
#[export] Hint Resolve reads_wire_str reads_wire_codecs reads_pub reads_salt : wire.

Lemma w_str_wire s w : w_str s w = w ++ wire_str (cap s).
Proof. apply w_str_eq. Qed.
Lemma w_codecs_wire cs w :
  Forall (fits 8) cs -> writeVideoCodecList cs w = w ++ wire_codecs (take kMaxCodecs cs).
Proof. apply writeVideoCodecList_eq. Qed.
Lemma w_u16_wire v w : fits 16 v -> w_u16 v w = w ++ le_put 2 v.
Proof. apply appendU16_put. Qed.

Create Rewrite HintDb wire_form.
#[export] Hint Rewrite w_str_wire : wire_form.
#[export] Hint Rewrite w_codecs_wire w_u16_wire using done : wire_form.

Lemma idOfRaw_code i : idOfRaw (idCode i) = Some i.
Proof. by destruct i. Qed.

Lemma idOfRaw_Some raw i : idOfRaw raw = Some i -> idCode i = raw.
Proof.
  unfold idOfRaw. intros H. apply bind_Some in H as ([k j] & Hf & [= <-]).
  apply list_find_Some in Hf. by destruct Hf as (_ & ? & _).
Qed.

Lemma knownId_code i : knownId (idCode i) = true.
Proof. unfold knownId. rewrite idOfRaw_code. by apply bool_decide_true. Qed.

(** Reads the fields of a message one after the other. *)
Ltac read_fields :=
  lazymatch goal with
  | |- reads_dep (read_done ≫= _) _ _ => apply reads_dep_map; apply reads_done
  | |- reads_dep (read_done_exact ≫= _) _ _ => apply reads_dep_map; apply reads_done_exact
  | |- reads_dep (_ ≫= _) _ _ => eapply reads_dep_bind; [solve [eauto with wire]|]; read_fields
  end.

(** What [readMsg] returns on an encoded message followed by [post]. *)
Lemma readMsg_writeMsg b :
  body_typed b ->
  reads_dep (readMsg (bodyId b)) (writeMsg b [])
    (fun post => (canon b, negb (strictId (bodyId b)) || bool_decide (post = []))).
Proof.
  intros Ht. rewrite <- (app_nil_r (writeMsg b [])).
  destruct b as [m|m| |m|m|m|m|m|m|m|m|m|m| |m| ]; try destruct m;
    cbn [bodyId readMsg writeMsg canon strictId negb orb body_typed] in *;
    repeat match goal with H : _ /\ _ |- _ => destruct H end;
    cbn in * |-;
    autorewrite with wire_form;
    unfold w_u8, w_u32, w_u64, w_bool, w_bytes, appendU32, appendU64;
    rewrite <- ?app_assoc; rewrite ?app_nil_l; cbn [hello_clientName] ;
    read_fields.
Qed.

(** [decodeMessage] on a well-typed encoded message followed by [extra] bytes:
    the capped message comes back, except that the fixed-size messages are
    refused when anything follows. *)
Lemma decode_encode_extra b extra :
  body_typed b ->
  decodeMessage (idCode (bodyId b)) (encodeMessage (mkEnvelope (bodyId b) b) ++ extra)
  = if negb (strictId (bodyId b)) || bool_decide (extra = [])
    then Some (mkEnvelope (bodyId b) (canon b)) else None.
Proof.
  intros Ht. unfold decodeMessage, encodeMessage. rewrite knownId_code, idOfRaw_code.
  cbn [negb env_body].
  pose proof (reads_dep_init _ _ _ extra (readMsg_writeMsg b Ht)) as R.
  destruct (readMsg (bodyId b) _) as [[body ok] r]. cbn in R. injection R as -> ->. done.
Qed.

Lemma decode_encode b :
  body_typed b ->
  decodeMessage (idCode (bodyId b)) (encodeMessage (mkEnvelope (bodyId b) b)) = Some (mkEnvelope (bodyId b) (canon b)).
Proof.
  intros H. rewrite <- (app_nil_r (encodeMessage _)), decode_encode_extra by done.
  by rewrite bool_decide_true, orb_true_r.
Qed.

(** Decoding never reads past the payload: [readMsg] keeps the reader within
    its buffer, whatever bytes arrive. *)
Lemma preserves_read_codecs n : preserves (read_codecs n).
Proof. induction n; cbn [read_codecs]; auto 10 with reader. Qed.
#[export] Hint Resolve preserves_read_codecs : reader.
#[export] Hint Extern 3 (preserves read_done) => unfold read_done : reader.
#[export] Hint Extern 3 (preserves read_done_exact) => unfold read_done_exact : reader.
#[export] Hint Extern 3 (preserves readVideoCodecList) => unfold readVideoCodecList : reader.

Lemma preserves_readMsg i : preserves (readMsg i).
Proof. destruct i; cbn [readMsg]; auto 40 with reader. Qed.

(** * Values a reader can return *)

(** [yields m P]: on a buffer of bytes [m] returns a value satisfying [P] and
    keeps the buffer. *)
Definition yields {A} (m : rd A) (P : A -> Prop) : Prop := forall r,
  bytes_ok (r_data r) -> P (m r).1 /\ r_data (m r).2 = r_data r.

Lemma yields_ret {A} (a : A) (P : A -> Prop) : P a -> yields (mret a) P.
Proof. intros H r _. done. Qed.

Lemma yields_bind {A B} (m : rd A) (k : A -> rd B) P Q :
  yields m P -> (forall a, P a -> yields (k a) Q) -> yields (m ≫= k) Q.
Proof.
  intros Hm Hk r Hr. unfold mbind, rd_bind. destruct (Hm r Hr) as [H1 H2].
  destruct (m r) as [a r1]. cbn in *.
  destruct (Hk a H1 r1) as [K1 K2]; [by rewrite H2|]. rewrite K2, H2. done.
Qed.

Lemma yields_take {A} n (z : A) k (P : A -> Prop) :
  P z -> (forall b, length b = n -> bytes_ok b -> P (k b)) -> yields (r_take n z k) P.
Proof.
  intros Hz Hk r Hr. unfold r_take. destruct (negb (r_ok r) || _) eqn:E; [done|].
  apply orb_false_iff in E as [_ E2]. apply Nat.ltb_ge in E2. cbn. split; [|done].
  apply Hk; [rewrite length_take, length_drop; lia|eauto with rp].
Qed.

Lemma yields_u16 : yields r_u16 (fits 16).
Proof. apply yields_take; [done|]. intros. apply u16_fits. Qed.

Lemma yields_le n :
  yields (r_take n 0 le_get) (fun v => 0 <= v < 256 ^ Z.of_nat n).
Proof.
  apply yields_take; [lia|]. intros b L O. rewrite <- L. by apply le_get_range.
Qed.

Lemma yields_u32 : yields r_u32 (fits 32).
Proof. apply (yields_le 4). Qed.
Lemma yields_u64 : yields r_u64 (fits 64).
Proof. apply (yields_le 8). Qed.
Lemma yields_u8 : yields r_u8 (fits 8).
Proof.
  apply yields_take; [done|]. intros b L O. destruct b as [|x b]; [done|].
  by inversion O.
Qed.

Lemma yields_any {A} (m : rd A) : preserves m -> (forall r, r_data (m r).2 = r_data r) ->
  yields m (fun _ => True).
Proof. intros _ H r _. by rewrite H. Qed.

Lemma yields_str : yields r_str (fun _ => True).
Proof.
  eapply yields_bind; [apply yields_u16|]. intros n _. by apply yields_take.
Qed.

Lemma yields_bool : yields r_bool (fun _ => True).
Proof. eapply yields_bind; [apply yields_u8|]. intros. by apply yields_ret. Qed.

Lemma yields_codecs n : yields (read_codecs n) (Forall (fits 8)).
Proof.
  induction n; cbn [read_codecs]; [by apply yields_ret|].
  eapply yields_bind; [apply yields_u8|]. intros c Hc.
  eapply yields_bind; [apply IHn|]. intros cs Hcs. apply yields_ret. by constructor.
Qed.

Lemma yields_codec_list : yields readVideoCodecList (Forall (fits 8)).
Proof. eapply yields_bind; [apply yields_u8|]. intros. apply yields_codecs. Qed.

Lemma yields_bytes n old :
  length old = n -> yields (r_bytes n old) (fun b => length b = n).
Proof. intros. by apply yields_take. Qed.

Lemma yields_done : yields read_done (fun _ => True).
Proof. intros r _. done. Qed.
Lemma yields_done_exact : yields read_done_exact (fun _ => True).
Proof. by intros r _. Qed.

Create HintDb yields discriminated.
#[export] Hint Resolve yields_u8 yields_u16 yields_u32 yields_u64 yields_str yields_bool
  yields_codec_list yields_done yields_done_exact : yields.
#[export] Hint Extern 2 (yields (r_bytes _ _) _) => apply yields_bytes; reflexivity : yields.

Lemma yields_readMsg i : yields (readMsg i) (fun p => bodyId p.1 = i /\ body_typed p.1).
Proof.
  destruct i; cbn [readMsg];
    repeat (eapply yields_bind; [solve [eauto with yields]|intros]);
    apply yields_ret; cbn; auto 10.
Qed.

(** * Theorems *)

(** C11: encoding a well-typed message and decoding it under its own type gives
    the message back, with strings cut at the protocol's 1024-byte cap and codec
    lists at 32 entries. *)
Theorem message_roundtrip (b : Body) (H : body_typed b) :
  decodeMessage (idCode (bodyId b)) (encodeMessage (mkEnvelope (bodyId b) b))
  = Some (mkEnvelope (bodyId b) (canon b)).
Proof. by apply decode_encode. Qed.

Definition sample_hello : Body :=
  BClientHello (mkClientHello (str "Mahdyar") (str "ABC7-K92P") (str "0.1.1")).

Lemma message_roundtrip_witness :
  decodeMessage 1 (encodeMessage (mkEnvelope IdClientHello sample_hello))
  = Some (mkEnvelope IdClientHello sample_hello).
Proof. apply (message_roundtrip sample_hello). exact I. Defined.

(** Whatever bytes arrive, a decoded message has the type it was sent under,
    holds the matching variant alternative, and every field fits its declared
    width. *)
Theorem decode_sound rawType data e
  (Hd : bytes_ok data) (H : decodeMessage rawType data = Some e) :
  idCode (env_type e) = rawType /\ bodyId (env_body e) = env_type e /\ body_typed (env_body e).
Proof.
  unfold decodeMessage in H. destruct (knownId rawType); cbn [negb] in H; [|done].
  destruct (idOfRaw rawType) as [i|] eqn:Ei; [|done].
  pose proof (yields_readMsg i (init data) Hd) as [[Y1 Y2] _].
  destruct (readMsg i (init data)) as [[body ok] r]. cbn [fst snd] in *.
  destruct ok; [|done]. injection H as <-. cbn [env_type env_body]. split; [by apply idOfRaw_Some|done].
Qed.

Lemma decode_sound_witness :
  exists e, decodeMessage 7 [1; 0; 0; 0; 0; 0; 0; 0] = Some e /\ idCode (env_type e) = 7.
Proof.
  eexists. split; [vm_compute; reflexivity|].
  refine (proj1 (decode_sound 7 [1; 0; 0; 0; 0; 0; 0; 0] _ _ _)).
  - by_decision.
  - vm_compute. reflexivity.
Defined.

(** Decoding any payload of any type keeps the reader inside the payload
    (no read past its end) and a failed read never succeeds later. *)
Theorem decode_in_bounds (i : Id) (data : bytes) :
  let r := (readMsg i (init data)).2 in
  r_data r = data /\ (r_pos r <= length data)%nat.
Proof.
  destruct (preserves_readMsg i (init data)) as (H1 & H2 & _); [unfold reader_ok; cbn; lia|].
  cbn in *. split; [done|]. unfold reader_ok in H1. by rewrite H2 in H1.
Qed.

(** What the decoder does with bytes after a well-formed message: the
    fixed-size messages are refused, all others are accepted and the extra
    bytes are silently ignored. *)
Theorem decode_trailing_bytes (b : Body) (extra : bytes) (H : body_typed b) (Hx : extra <> []) :
  decodeMessage (idCode (bodyId b)) (encodeMessage (mkEnvelope (bodyId b) b) ++ extra)
  = if strictId (bodyId b) then None else Some (mkEnvelope (bodyId b) (canon b)).
Proof.
  rewrite decode_encode_extra by done. rewrite bool_decide_false by done.
  rewrite orb_false_r. by destruct (strictId _).
Qed.

Lemma decode_trailing_bytes_witness :
  decodeMessage 1 (encodeMessage (mkEnvelope IdClientHello sample_hello) ++ [1; 2; 3])
  = Some (mkEnvelope IdClientHello sample_hello).
Proof. apply (decode_trailing_bytes sample_hello [1; 2; 3]); [exact I|discriminate]. Defined.

(** An envelope whose type is set to a fixed-size message but whose body was
    left at the variant's default (a CLIENT_HELLO with empty strings) encodes to
    six bytes that the peer refuses. Both coordinators build SESSION_KEY_READY
    this way. *)
Theorem default_body_rejected (i : Id) (H : strictId i = true) :
  length (encodeMessage (mkEnvelope i defaultBody)) = 6%nat /\
  decodeMessage (idCode i) (encodeMessage (mkEnvelope i defaultBody)) = None.
Proof. split; [by destruct i|]. destruct i; try discriminate; vm_compute; reflexivity. Qed.

Lemma default_body_rejected_witness :
  decodeMessage 0x14 (encodeMessage (mkEnvelope IdSessionKeyReady defaultBody)) = None.
Proof. refine (proj2 (default_body_rejected IdSessionKeyReady _)). reflexivity. Defined.

(** Negotiation picks the first codec of the host's preference list that the
    client supports, and fails exactly when there is none. *)
Theorem negotiateCodec_spec (host client : list VideoCodec) :
  match negotiateCodec host client with
  | Some c => exists before after,
      host = before ++ c :: after /\ c ∈ client /\ Forall (fun x => x ∉ client) before
  | None => Forall (fun x => x ∉ client) host
  end.
Proof.
  induction host as [|w host IH]; cbn [negotiateCodec]; [done|].
  case_bool_decide as E.
  - exists [], host. done.
  - destruct (negotiateCodec host client) as [c|].
    + destruct IH as (before & after & -> & H1 & H2). exists (w :: before), after.
      split; [done|]. split; [done|]. by constructor.
    + by constructor.
Qed.
