(* ===== verification/UdpHeader.v ===== *)
(** networking/UdpProtocol.h and UdpProtocol.cpp, first part: the datagram
    header, its codec, and the fragment count of a payload.

    A destination buffer is a list; [mem_put] is a store of bytes at an offset.
    The header decoder fills its out-parameter field by field and may return
    before the end, so its result carries the partially filled header. *)

From S2P Require Import Prelude Packet.

(** * Constants *)

(** [enum class UdpType : uint8_t]: fixed underlying type, named values. *)
Definition UdpType := Z.
Definition UdpVideo : UdpType := 0.
Definition UdpAudio : UdpType := 1.
Definition UdpInput : UdpType := 2.
Definition UdpControl : UdpType := 3.
Definition UdpPing : UdpType := 4.
Definition UdpPong : UdpType := 5.
Definition UdpKeyframeRequest : UdpType := 6.
Definition UdpStreamStart : UdpType := 7.
Definition UdpStreamStop : UdpType := 8.

Definition FlagFragment : Z := 0x01.
Definition FlagKeyframe : Z := 0x02.
Definition FlagEncrypted : Z := 0x04.

Definition kUdpMagic : Z := 0x5252.
Definition kUdpVersion : Z := 0x01.
Definition kUdpHeaderSize : nat := 2 + 1 + 1 + 1 + 4 + 8 + 2 + 2 + 8 + 2.
Definition kMaxUdpPayload : nat := 1100.
Definition kMaxFragments : Z := 1024.

(** * Header *)

Record UdpHeader := mkUdpHeader {
  uh_magic : Z; uh_version : Z; uh_type : Z; uh_flags : Z; uh_sessionId : Z;
  uh_sequence : Z; uh_fragmentIndex : Z; uh_fragmentCount : Z; uh_timestampNs : Z;
  uh_payloadSize : Z }.

#[export] Instance UdpHeader_eq_dec : EqDecision UdpHeader.
Proof. solve_decision. Defined.

Definition defaultUdpHeader : UdpHeader := mkUdpHeader kUdpMagic kUdpVersion 0 0 0 0 0 1 0 0.

(** [memcpy(buf + off, bs, n)]. *)
Definition mem_put (off : nat) (bs : bytes) (buf : bytes) : bytes :=
  take off buf ++ bs ++ drop (off + length bs) buf.

(** [memcpy(&v, p, n)] on a little-endian machine. *)
Definition mem_get (off n : nat) (buf : bytes) : Z := le_get (take n (drop off buf)).

Definition encodeUdpHeader (h : UdpHeader) (buf : bytes) : bytes :=
  let buf := mem_put 0 (le_put 2 (uh_magic h)) buf in
  let buf := mem_put 2 [uh_version h] buf in
  let buf := mem_put 3 [uh_type h] buf in
  let buf := mem_put 4 [uh_flags h] buf in
  let buf := mem_put 5 (le_put 4 (uh_sessionId h)) buf in
  let buf := mem_put 9 (le_put 8 (uh_sequence h)) buf in
  let buf := mem_put 17 (le_put 2 (uh_fragmentIndex h)) buf in
  let buf := mem_put 19 (le_put 2 (uh_fragmentCount h)) buf in
  let buf := mem_put 21 (le_put 8 (uh_timestampNs h)) buf in
  mem_put 29 (le_put 2 (uh_payloadSize h)) buf.

Definition decodeUdpHeader (buf : bytes) (datagramSize : Z) (out : UdpHeader) : bool * UdpHeader :=
  if datagramSize <? Z.of_nat kUdpHeaderSize then (false, out)
  else
    let '(mkUdpHeader mg vs ty fl sid sq fi fc ts ps) := out in
    let mg := mem_get 0 2 buf in
    if negb (mg =? kUdpMagic) then (false, mkUdpHeader mg vs ty fl sid sq fi fc ts ps)
    else
      let vs := byte_at buf 2 in
      if negb (vs =? kUdpVersion) then (false, mkUdpHeader mg vs ty fl sid sq fi fc ts ps)
      else
        let ty := byte_at buf 3 in
        if 8 <? ty then (false, mkUdpHeader mg vs ty fl sid sq fi fc ts ps)
        else
          let fl := byte_at buf 4 in
          let sid := mem_get 5 4 buf in
          let sq := mem_get 9 8 buf in
          let fi := mem_get 17 2 buf in
          let fc := mem_get 19 2 buf in
          let ts := mem_get 21 8 buf in
          let ps := mem_get 29 2 buf in
          let h := mkUdpHeader mg vs ty fl sid sq fi fc ts ps in
          if datagramSize <? Z.of_nat kUdpHeaderSize + ps then (false, h)
          else if (fc =? 0) || (kMaxFragments <? fc) then (false, h)
          else if fc <=? fi then (false, h)
          else (true, h).

Definition fragmentCountFor (size : Z) : Z :=
  if size =? 0 then 1
  else
    let n := u16 (u64 (size + Z.of_nat kMaxUdpPayload - 1) / Z.of_nat kMaxUdpPayload) in
    if n <? 1 then 1 else n.

Lemma kMaxUdpPayload_Z : Z.of_nat kMaxUdpPayload = 1100.
Proof. reflexivity. Qed.

(** * Layout *)

(** The header as one byte string. *)
Definition header_bytes (h : UdpHeader) : bytes :=
  le_put 2 (uh_magic h) ++ [uh_version h] ++ [uh_type h] ++ [uh_flags h] ++
  le_put 4 (uh_sessionId h) ++ le_put 8 (uh_sequence h) ++ le_put 2 (uh_fragmentIndex h) ++
  le_put 2 (uh_fragmentCount h) ++ le_put 8 (uh_timestampNs h) ++ le_put 2 (uh_payloadSize h).

Lemma header_bytes_length h : length (header_bytes h) = kUdpHeaderSize.
Proof. unfold header_bytes. by rewrite !length_app, !le_put_length. Qed.

Lemma mem_put_app off (pre bs post : bytes) :
  length pre = off -> (length bs <= length post)%nat ->
  mem_put off bs (pre ++ post) = (pre ++ bs) ++ drop (length bs) post.
Proof.
  intros <- H. unfold mem_put. rewrite take_app_length, <- app_assoc. do 2 f_equal.
  by rewrite <- drop_drop, drop_app_length.
Qed.

Lemma mem_put_length off bs buf :
  (off + length bs <= length buf)%nat -> length (mem_put off bs buf) = length buf.
Proof.
  intros H. unfold mem_put. rewrite !length_app, length_take, length_drop. lia.
Qed.

(** Storing a header writes exactly the 31 bytes [header_bytes] and leaves the
    rest of the buffer alone. *)
Lemma encodeUdpHeader_bytes h buf :
  (kUdpHeaderSize <= length buf)%nat ->
  encodeUdpHeader h buf = header_bytes h ++ drop kUdpHeaderSize buf.
Proof.
  intros H. unfold kUdpHeaderSize in *. cbn in H. unfold encodeUdpHeader.
  rewrite <- (app_nil_l buf).
  repeat (rewrite mem_put_app; [|by rewrite ?length_app, ?le_put_length|
    rewrite ?le_put_length; cbn [length]; rewrite ?length_drop, ?le_put_length; cbn [length]; lia]).
  rewrite ?le_put_length; cbn [length]. rewrite !drop_drop, app_nil_l.
  unfold header_bytes. rewrite <- !app_assoc. reflexivity.
Qed.

(** * Well-formed headers *)

(** A header whose fields have their C++ widths. *)
Definition header_typed (h : UdpHeader) : Prop :=
  fits 16 (uh_magic h) /\ fits 8 (uh_version h) /\ fits 8 (uh_type h) /\ fits 8 (uh_flags h) /\
  fits 32 (uh_sessionId h) /\ fits 64 (uh_sequence h) /\ fits 16 (uh_fragmentIndex h) /\
  fits 16 (uh_fragmentCount h) /\ fits 64 (uh_timestampNs h) /\ fits 16 (uh_payloadSize h).

(** What the decoder checks. *)
Definition header_valid (h : UdpHeader) : Prop :=
  uh_magic h = kUdpMagic /\ uh_version h = kUdpVersion /\ uh_type h <= 8 /\
  1 <= uh_fragmentCount h <= kMaxFragments /\ uh_fragmentIndex h < uh_fragmentCount h.

#[export] Instance header_typed_dec h : Decision (header_typed h).
Proof. unfold header_typed. apply _. Defined.
#[export] Instance header_valid_dec h : Decision (header_valid h).
Proof. unfold header_valid. apply _. Defined.

(** The fields of an encoded header, read back at the decoder's offsets. *)
Lemma header_fields h rest :
  header_typed h ->
  let b := header_bytes h ++ rest in
  mem_get 0 2 b = uh_magic h /\ byte_at b 2 = uh_version h /\ byte_at b 3 = uh_type h /\
  byte_at b 4 = uh_flags h /\ mem_get 5 4 b = uh_sessionId h /\ mem_get 9 8 b = uh_sequence h /\
  mem_get 17 2 b = uh_fragmentIndex h /\ mem_get 19 2 b = uh_fragmentCount h /\
  mem_get 21 8 b = uh_timestampNs h /\ mem_get 29 2 b = uh_payloadSize h.
Proof.
  intros (H1 & _ & _ & _ & H5 & H6 & H7 & H8 & H9 & H10) b. subst b.
  unfold header_bytes, mem_get, byte_at.
  destruct (le_put_2 (uh_magic h)) as (? & ? & E1 & _).
  destruct (le_put_4 (uh_sessionId h)) as (? & ? & ? & ? & E2).
  destruct (le_put_8 (uh_sequence h)) as (? & ? & ? & ? & ? & ? & ? & ? & E3).
  destruct (le_put_2 (uh_fragmentIndex h)) as (? & ? & E4 & _).
  destruct (le_put_2 (uh_fragmentCount h)) as (? & ? & E5 & _).
  destruct (le_put_8 (uh_timestampNs h)) as (? & ? & ? & ? & ? & ? & ? & ? & E6).
  destruct (le_put_2 (uh_payloadSize h)) as (? & ? & E7 & _).
  rewrite E1, E2, E3, E4, E5, E6, E7. cbn [app drop take nth]. rewrite ?take_0.
  rewrite <- E1, <- E2, <- E3, <- E4, <- E5, <- E6, <- E7.
  rewrite !le_get_put_16, le_get_put_32, !le_get_put_64 by done. done.
Qed.

(** Every field of a decoded header fits its width. *)
Lemma mem_get_range off n buf :
  bytes_ok buf -> (off + n <= length buf)%nat -> 0 <= mem_get off n buf < 256 ^ Z.of_nat n.
Proof.
  intros Hb Hl. unfold mem_get.
  pose proof (le_get_range (take n (drop off buf))) as R.
  rewrite length_take, length_drop, Nat.min_l in R by lia. apply R. eauto with rp.
Qed.

Lemma byte_at_range buf i : bytes_ok buf -> (i < length buf)%nat -> fits 8 (byte_at buf i).
Proof.
  intros Hb Hi. unfold byte_at. destruct (lookup_lt_is_Some_2 buf i Hi) as [x Hx].
  rewrite (nth_lookup_Some _ _ _ _ Hx). by apply (Forall_lookup_1 _ _ _ _ Hb Hx).
Qed.

(** The bytes of a buffer are determined by the fields the decoder reads. *)
Lemma header_bytes_of_fields b :
  bytes_ok b -> (kUdpHeaderSize <= length b)%nat ->
  header_bytes (mkUdpHeader (mem_get 0 2 b) (byte_at b 2) (byte_at b 3) (byte_at b 4)
    (mem_get 5 4 b) (mem_get 9 8 b) (mem_get 17 2 b) (mem_get 19 2 b) (mem_get 21 8 b)
    (mem_get 29 2 b)) = take kUdpHeaderSize b.
Proof.
  intros Hb Hl.
  assert (Hc : length (take kUdpHeaderSize b) = 31%nat)
    by (rewrite length_take, Nat.min_l by done; reflexivity).
  assert (Ho : bytes_ok (take kUdpHeaderSize b)) by eauto with rp.
  assert (Eb : b = take kUdpHeaderSize b ++ drop kUdpHeaderSize b) by (by rewrite take_drop).
  revert Eb Hc Ho. generalize (take kUdpHeaderSize b) (drop kUdpHeaderSize b).
  intros c rest -> Hc Ho. clear Hb Hl.
  do 31 (destruct c as [|? c]; [discriminate Hc|]). destruct c; [|discriminate Hc].
  unfold header_bytes, mem_get, byte_at. cbn [app drop take nth kUdpHeaderSize Nat.add uh_magic uh_version
    uh_type uh_flags uh_sessionId uh_sequence uh_fragmentIndex uh_fragmentCount uh_timestampNs
    uh_payloadSize].
  assert (P : forall bs, bytes_ok bs -> forall n, length bs = n -> le_put n (le_get bs) = bs)
    by (intros bs Hbs n <-; by apply le_put_get).
  unfold bytes_ok in Ho. rewrite !Forall_cons_iff in Ho. destruct_and! Ho. rewrite ?take_0.
  rewrite !P by (done || bytes_tac). cbn [app take]. done.
Qed.

(** The decoder on an encoded header. *)
Lemma decode_header_bytes h payload junk :
  header_typed h -> header_valid h -> uh_payloadSize h <= zlen payload ->
  decodeUdpHeader (header_bytes h ++ payload) (zlen (header_bytes h ++ payload)) junk = (true, h).
Proof.
  intros Ht Hv Hp.
  pose proof (header_fields h payload Ht) as F. cbn zeta in F.
  destruct F as (F1 & F2 & F3 & F4 & F5 & F6 & F7 & F8 & F9 & F10).
  destruct Hv as (V1 & V2 & V3 & V4 & V5).
  unfold decodeUdpHeader. rewrite length_app, header_bytes_length, Nat2Z.inj_add.
  rewrite (proj2 (Z.ltb_ge _ _)) by lia.
  destruct junk as [mg vs ty fl sid sq fi fc ts ps].
  rewrite F1, V1, Z.eqb_refl. cbn [negb]. rewrite F2, V2, Z.eqb_refl. cbn [negb].
  rewrite F3, (proj2 (Z.ltb_ge _ _)) by lia.
  rewrite F4, F5, F6, F7, F8, F9, F10.
  rewrite (proj2 (Z.ltb_ge _ _)) by lia.
  rewrite (proj2 (Z.eqb_neq _ _)), (proj2 (Z.ltb_ge _ _)), (proj2 (Z.leb_gt _ _)) by lia.
  cbn [orb]. rewrite <- V1, <- V2. by destruct h.
Qed.

(** * Theorems *)

(** A datagram header survives the wire: any typed header that passes the
    protocol checks is stored as the first 31 bytes of the datagram and decoded
    back to itself, whatever payload follows. *)
Theorem udp_header_roundtrip h buf payload junk
  (Ht : header_typed h) (Hv : header_valid h)
  (Hb : length buf = kUdpHeaderSize) (Hp : uh_payloadSize h <= zlen payload) :
  let datagram := encodeUdpHeader h buf ++ payload in
  decodeUdpHeader datagram (zlen datagram) junk = (true, h).
Proof.
  intros datagram. subst datagram. rewrite encodeUdpHeader_bytes by lia.
  rewrite drop_ge, app_nil_r by lia. by apply decode_header_bytes.
Qed.

Definition sample_header : UdpHeader :=
  mkUdpHeader kUdpMagic kUdpVersion 0 3 0xDEADBEEF 123456789 2 7 987654321 4.

Lemma udp_header_roundtrip_witness :
  decodeUdpHeader (encodeUdpHeader sample_header (replicate 31 0) ++ [1; 2; 3; 4]) 35 defaultUdpHeader
  = (true, sample_header).
Proof.
  apply (udp_header_roundtrip sample_header (replicate 31 0) [1; 2; 3; 4] defaultUdpHeader).
  - by_decision.
  - by_decision.
  - reflexivity.
  - by_decision.
Defined.

(** An accepted datagram carries a typed, valid header whose payload lies
    inside the datagram, and its first 31 bytes are exactly the encoding of that
    header. *)
Theorem udp_header_decode_sound buf junk h
  (Hb : bytes_ok buf) (H : decodeUdpHeader buf (zlen buf) junk = (true, h)) :
  header_typed h /\ header_valid h /\
  Z.of_nat kUdpHeaderSize + uh_payloadSize h <= zlen buf /\
  take kUdpHeaderSize buf = header_bytes h.
Proof.
  unfold decodeUdpHeader in H.
  destruct (Z.ltb_spec (zlen buf) (Z.of_nat kUdpHeaderSize)) as [|L]; [done|].
  assert (L' : (31 <= length buf)%nat) by (unfold kUdpHeaderSize in L; cbn in L; lia).
  destruct junk as [? ? ? ? ? ? ? ? ? ?].
  repeat (break_hyp H; try discriminate). injection H as <-. b2p.
  pose proof (mem_get_range 19 2 buf Hb ltac:(lia)) as R19.
  unfold header_typed, header_valid.
  cbn [uh_magic uh_version uh_type uh_flags uh_sessionId uh_sequence uh_fragmentIndex
       uh_fragmentCount uh_timestampNs uh_payloadSize].
  split_and!; try done; try lia;
    try (by apply byte_at_range; [|lia]);
    try (by apply mem_get_range; [|lia]).
  symmetry. apply header_bytes_of_fields; [done|]. unfold kUdpHeaderSize. cbn. lia.
Qed.

Lemma udp_header_decode_sound_witness :
  header_valid sample_header.
Proof.
  refine (proj1 (proj2 (udp_header_decode_sound
    (header_bytes sample_header ++ [1; 2; 3; 4]) defaultUdpHeader sample_header _ _))).
  - by_decision.
  - vm_compute. reflexivity.
Defined.

(** The datagram header occupies 31 bytes, one more than the 30 its comments
    and the AEAD associated-data length state. *)
Theorem udp_header_size h buf (H : length buf = 31%nat) :
  kUdpHeaderSize = 31%nat /\ encodeUdpHeader h buf = header_bytes h /\
  length (header_bytes h) = 31%nat.
Proof.
  split; [done|]. split; [|apply header_bytes_length].
  rewrite encodeUdpHeader_bytes by (unfold kUdpHeaderSize; cbn; lia).
  rewrite drop_ge by (unfold kUdpHeaderSize; cbn; lia). apply app_nil_r.
Qed.

Lemma udp_header_size_witness :
  encodeUdpHeader sample_header (replicate 31 0) = header_bytes sample_header.
Proof. refine (proj1 (proj2 (udp_header_size sample_header (replicate 31 0) _))). reflexivity. Defined.

(** The fragment count is the ceiling of size / 1100, while it fits 16 bits. *)
Lemma fragmentCountFor_ceil size :
  0 < size <= 65535 * 1100 -> fragmentCountFor size = (size + 1099) / 1100.
Proof.
  intros H. unfold fragmentCountFor, kMaxUdpPayload.
  rewrite (proj2 (Z.eqb_neq _ _)) by lia.
  replace (size + Z.of_nat 1100 - 1) with (size + 1099) by lia.
  change (Z.of_nat 1100) with 1100.
  rewrite (u64_id (size + 1099)) by (widths; lia).
  assert (1 <= (size + 1099) / 1100 <= 65535) by (Z.div_mod_to_equations; lia).
  rewrite u16_id by (widths; lia).
  rewrite (proj2 (Z.ltb_ge _ _)) by lia. done.
Qed.
