(* ===== verification/SequenceTracker.v ===== *)
(** networking/UdpProtocol.h and UdpProtocol.cpp, second part: the per-type
    loss, duplicate and late-packet accounting ([class SequenceTracker]).

    The counters are [uint64_t]; the window is the array [seenWindow_[64]] with
    the bit mask of its filled slots. *)

From S2P Require Import Prelude.

(** * Tracker *)

Record SequenceTracker := mkTracker {
  st_highest : Z; st_initialized : bool; st_duplicates : Z; st_lost : Z; st_late : Z;
  st_received : Z; st_seenWindow : list Z; st_seenMask : Z }.

Definition kLateWindow : Z := 64.

Definition newTracker : SequenceTracker := mkTracker 0 false 0 0 0 0 (replicate 64 0) 0.

(** [track(seq)]: the returned code and the new state. *)
Definition track (seq : Z) (t : SequenceTracker) : Z * SequenceTracker :=
  let received := u64 (st_received t + 1) in
  let slot := seq mod 64 in
  let window := <[Z.to_nat slot := seq]> (st_seenWindow t) in
  let mask := Z.lor (st_seenMask t) (Z.shiftl 1 slot) in
  if negb (st_initialized t) then
    (0, mkTracker seq true (st_duplicates t) (st_lost t) (st_late t) received window mask)
  else if st_highest t <? seq then
    let gap := seq - st_highest t in
    let lost := if 1 <? gap then u64 (st_lost t + (gap - 1)) else st_lost t in
    (i64 gap, mkTracker seq true (st_duplicates t) lost (st_late t) received window mask)
  else if u64 (seq + kLateWindow) <? st_highest t then
    (-1, mkTracker (st_highest t) true (st_duplicates t) (st_lost t) (u64 (st_late t + 1)) received
           (st_seenWindow t) (st_seenMask t))
  else if (Z.land (Z.shiftr (st_seenMask t) slot) 1 =? 1) &&
          (nth (Z.to_nat slot) (st_seenWindow t) 0 =? seq) then
    (1, mkTracker (st_highest t) true (u64 (st_duplicates t + 1)) (st_lost t) (st_late t) received
          (st_seenWindow t) (st_seenMask t))
  else
    (0, mkTracker (st_highest t) true (st_duplicates t) (st_lost t) (u64 (st_late t + 1)) received
          window mask).

(** [reset()]. *)
Definition resetTracker (t : SequenceTracker) : SequenceTracker := newTracker.

(** The packets of a stream in arrival order. *)
Definition trackAll (qs : list Z) (t : SequenceTracker) : SequenceTracker :=
  foldl (fun t q => snd (track q t)) t qs.

Lemma trackAll_snoc qs q t : trackAll (qs ++ [q]) t = snd (track q (trackAll qs t)).
Proof. unfold trackAll. by rewrite foldl_app. Qed.

Lemma trackAll_cons_snoc p qs q t :
  trackAll (p :: qs ++ [q]) t = snd (track q (trackAll (p :: qs) t)).
Proof. apply (trackAll_snoc (p :: qs)). Qed.

(** * The window *)

(** Slot [q mod 64] is filled and holds [q]. *)
Definition holds (t : SequenceTracker) (q : Z) : bool :=
  (Z.land (Z.shiftr (st_seenMask t) (q mod 64)) 1 =? 1) &&
  (nth (Z.to_nat (q mod 64)) (st_seenWindow t) 0 =? q).

Lemma mask_bit m s : 0 <= s -> (Z.land (Z.shiftr m s) 1 =? 1) = Z.testbit m s.
Proof.
  intros Hs. rewrite Z.testbit_odd. change 1 with (Z.ones 1). rewrite Z.land_ones by lia.
  change (2 ^ 1) with 2. rewrite Zmod_odd. by destruct (Z.odd _).
Qed.

Lemma holds_spec t q :
  holds t q = Z.testbit (st_seenMask t) (q mod 64) &&
              (nth (Z.to_nat (q mod 64)) (st_seenWindow t) 0 =? q).
Proof. unfold holds. rewrite mask_bit; [done|]. apply Z.mod_pos_bound. lia. Qed.

(** The update of [seenWindow_] and [seenMask_] by an arriving [seq]. *)
Definition marked (seq : Z) (t t' : SequenceTracker) : Prop :=
  st_seenWindow t' = <[Z.to_nat (seq mod 64) := seq]> (st_seenWindow t) /\
  st_seenMask t' = Z.lor (st_seenMask t) (Z.shiftl 1 (seq mod 64)).

Lemma holds_marked_same t t' seq :
  length (st_seenWindow t) = 64%nat -> marked seq t t' -> holds t' seq = true.
Proof.
  intros HL [Ew Em]. pose proof (Z.mod_pos_bound seq 64 ltac:(lia)) as Hm.
  rewrite holds_spec, Ew, Em, Z.lor_spec, Z.shiftl_spec by lia.
  rewrite Z.sub_diag, orb_true_r. cbn.
  rewrite (nth_lookup_Some _ _ _ seq); [apply Z.eqb_refl|].
  apply list_lookup_insert_eq. lia.
Qed.

Lemma holds_marked_other t t' seq q :
  marked seq t t' -> q mod 64 <> seq mod 64 -> holds t' q = holds t q.
Proof.
  intros [Ew Em] Hne. pose proof (Z.mod_pos_bound seq 64 ltac:(lia)).
  pose proof (Z.mod_pos_bound q 64 ltac:(lia)).
  rewrite !holds_spec, Ew, Em, Z.lor_spec, Z.shiftl_spec by lia. f_equal.
  - destruct (Z.ltb_spec (q mod 64 - seq mod 64) 0).
    + by rewrite (Z.testbit_neg_r 1), orb_false_r by lia.
    + rewrite (Z.bits_above_log2 1) by (cbn; lia). apply orb_false_r.
  - rewrite !nth_lookup, list_lookup_insert_ne by lia. done.
Qed.

Lemma holds_marked_clash t t' seq q :
  length (st_seenWindow t) = 64%nat ->
  marked seq t t' -> q mod 64 = seq mod 64 -> q <> seq -> holds t' q = false.
Proof.
  intros HL [Ew Em] He Hne. pose proof (Z.mod_pos_bound seq 64 ltac:(lia)).
  rewrite holds_spec, Ew, He, (nth_lookup_Some _ _ _ seq) by (apply list_lookup_insert_eq; lia).
  rewrite (proj2 (Z.eqb_neq _ _)) by done. apply andb_false_r.
Qed.

(** Sequences less than 64 apart use different slots. *)
Lemma slots_differ a b : a <> b -> Z.abs (a - b) < 64 -> a mod 64 <> b mod 64.
Proof. intros. Z.div_mod_to_equations. lia. Qed.

(** * One step *)

Definition seq_ok (q : Z) : Prop := 0 <= q < 2 ^ 64 - 64.

#[export] Instance seq_ok_dec q : Decision (seq_ok q).
Proof. unfold seq_ok. apply _. Defined.

(** The five outcomes of [track] on an initialised tracker or the first packet. *)
Inductive track_case (seq : Z) (t : SequenceTracker) : Z * SequenceTracker -> Prop :=
| track_first t' :
    st_initialized t = false -> marked seq t t' ->
    t' = mkTracker seq true (st_duplicates t) (st_lost t) (st_late t) (u64 (st_received t + 1))
           (st_seenWindow t') (st_seenMask t') ->
    track_case seq t (0, t')
| track_advance t' :
    st_initialized t = true -> st_highest t < seq -> marked seq t t' ->
    t' = mkTracker seq true (st_duplicates t)
           (if 1 <? seq - st_highest t then u64 (st_lost t + (seq - st_highest t - 1)) else st_lost t)
           (st_late t) (u64 (st_received t + 1)) (st_seenWindow t') (st_seenMask t') ->
    track_case seq t (i64 (seq - st_highest t), t')
| track_too_late :
    st_initialized t = true -> seq <= st_highest t -> seq + 64 < st_highest t ->
    track_case seq t (-1, mkTracker (st_highest t) true (st_duplicates t) (st_lost t)
      (u64 (st_late t + 1)) (u64 (st_received t + 1)) (st_seenWindow t) (st_seenMask t))
| track_duplicate :
    st_initialized t = true -> seq <= st_highest t <= seq + 64 -> holds t seq = true ->
    track_case seq t (1, mkTracker (st_highest t) true (u64 (st_duplicates t + 1)) (st_lost t)
      (st_late t) (u64 (st_received t + 1)) (st_seenWindow t) (st_seenMask t))
| track_reordered t' :
    st_initialized t = true -> seq <= st_highest t <= seq + 64 -> holds t seq = false ->
    marked seq t t' ->
    t' = mkTracker (st_highest t) true (st_duplicates t) (st_lost t) (u64 (st_late t + 1))
           (u64 (st_received t + 1)) (st_seenWindow t') (st_seenMask t') ->
    track_case seq t (0, t').

Lemma track_cases seq t : seq_ok seq -> track_case seq t (track seq t).
Proof.
  intros Hs. unfold track. destruct (st_initialized t) eqn:Ei; cbn [negb].
  2:{ eapply track_first; done. }
  destruct (Z.ltb_spec (st_highest t) seq).
  { eapply track_advance; done. }
  assert (Eu : u64 (seq + kLateWindow) = seq + 64)
    by (apply u64_id; unfold seq_ok, kLateWindow in *; widths; lia).
  rewrite Eu. destruct (Z.ltb_spec (seq + 64) (st_highest t)).
  { by apply track_too_late. }
  fold (holds t seq). destruct (holds t seq) eqn:Eh.
  - apply track_duplicate; [done|lia|done].
  - eapply track_reordered; done || lia.
Qed.

(** * Accounting *)

(** What the counters mean after a non-empty run that started with [first]. *)
Record accounted (first : Z) (n : Z) (t : SequenceTracker) : Prop := {
  acc_init : st_initialized t = true;
  acc_window : length (st_seenWindow t) = 64%nat;
  acc_received : st_received t = n;
  acc_dup : 0 <= st_duplicates t;
  acc_late : 0 <= st_late t;
  acc_lost : 0 <= st_lost t <= st_highest t - first;
  acc_bound : st_duplicates t + st_late t < n;
  acc_balance : st_received t - st_duplicates t - st_late t + st_lost t = st_highest t - first + 1 }.

Lemma accounted_first q : seq_ok q -> accounted q 1 (snd (track q newTracker)).
Proof.
  intros Hq. destruct (track_cases q newTracker Hq) as [t' _ [Ew _] E|? Hi|Hi|Hi|? Hi];
    try discriminate Hi.
  cbn [snd]. rewrite E. split; cbn; try done; try lia.
  - by rewrite Ew, length_insert.
  - change (u64 (0 + 1)) with 1. lia.
Qed.

Lemma accounted_step first n q t :
  seq_ok first -> seq_ok q -> 1 <= n < 2 ^ 64 - 1 -> st_highest t < 2 ^ 64 ->
  accounted first n t -> accounted first (n + 1) (snd (track q t)).
Proof.
  intros Hf Hq Hn Hh [Hi Hw Hr Hd Hl Hlo Hb Hbal].
  assert (Er : u64 (st_received t + 1) = n + 1) by (rewrite Hr; apply u64_id; widths; lia).
  unfold seq_ok in *.
  destruct (track_cases q t Hq) as [? Hi'|t' _ Hlt [Ew _] E| |_ Hr2 _|t' _ Hr2 _ [Ew _] E];
    [congruence| | | |]; cbn [snd].
  - rewrite E. split; cbn; try lia; try done.
    + by rewrite Ew, length_insert.
    + bdestr; [rewrite u64_id by (widths; lia)|]; lia.
    + rewrite Er. bdestr; [rewrite u64_id by (widths; lia)|]; lia.
  - split; cbn; rewrite ?Er, ?(u64_id (st_late t + 1)) by (widths; lia); done || lia.
  - split; cbn; rewrite ?Er, ?(u64_id (st_duplicates t + 1)) by (widths; lia); done || lia.
  - rewrite E.
    split; cbn; rewrite ?Er, ?(u64_id (st_late t + 1)) by (widths; lia); try done; try lia.
    by rewrite Ew, length_insert.
Qed.

(** [highest_] is the maximum of the sequences seen. *)
Definition max_of (first : Z) (qs : list Z) : Z := foldl Z.max first qs.

Lemma track_highest q t :
  seq_ok q -> st_initialized t = true ->
  st_highest (snd (track q t)) = Z.max (st_highest t) q /\ st_initialized (snd (track q t)) = true.
Proof.
  intros Hq Hi. destruct (track_cases q t Hq) as [? Hi'|t' _ ? _ E| | |t' _ ? _ _ E];
    [congruence|rewrite E|..|rewrite E]; cbn; split; done || lia.
Qed.

Lemma trackAll_highest first qs :
  Forall seq_ok (first :: qs) ->
  st_highest (trackAll (first :: qs) newTracker) = max_of first qs /\
  st_initialized (trackAll (first :: qs) newTracker) = true.
Proof.
  intros [Hf Hqs]%Forall_cons_iff. induction qs as [|q qs IH] using rev_ind.
  { by pose proof (accounted_first first Hf). }
  apply Forall_app in Hqs as [Hqs [Hq _]%Forall_cons_iff]. destruct (IH Hqs) as [E Hi].
  rewrite trackAll_cons_snoc. destruct (track_highest q _ Hq Hi) as [-> ->].
  unfold max_of in *. by rewrite foldl_app, E.
Qed.

Lemma max_of_ok first qs : Forall seq_ok (first :: qs) -> seq_ok (max_of first qs).
Proof.
  intros [Hf Hqs]%Forall_cons_iff. unfold max_of. revert first Hf.
  induction Hqs as [|q qs Hq _ IH]; intros first Hf; [done|]. cbn. apply IH.
  unfold seq_ok in *. lia.
Qed.

Lemma trackAll_accounted first qs :
  Forall seq_ok (first :: qs) -> zlen (first :: qs) < 2 ^ 64 ->
  accounted first (zlen (first :: qs)) (trackAll (first :: qs) newTracker).
Proof.
  induction qs as [|q qs IH] using rev_ind; intros HF HL.
  { apply accounted_first. by inversion HF. }
  assert (Forall seq_ok (first :: qs) /\ seq_ok q) as [HF' Hq].
  { inversion_clear HF as [|? ? Hf Hr]. apply Forall_app in Hr as [Hr [Hq _]%Forall_cons_iff].
    split; [by constructor|done]. }
  rewrite trackAll_cons_snoc. cbn [length] in *. rewrite length_app in *. cbn [length] in *.
  replace (Z.of_nat (S (length qs + 1))) with (Z.of_nat (S (length qs)) + 1) by lia.
  apply accounted_step; try lia; try done.
  - by inversion HF'.
  - destruct (trackAll_highest first qs HF') as [-> _]. pose proof (max_of_ok first qs HF').
    unfold seq_ok in *. lia.
  - apply IH; [done|lia].
Qed.

(** * Duplicates *)

(** The newest sequence never has a packet exactly 64 behind it: the window
    spans 65 sequence numbers but has 64 slots. *)
Fixpoint no_edge (highest : Z) (qs : list Z) : bool :=
  match qs with
  | [] => true
  | q :: qs => negb (q + 64 =? highest) && no_edge (Z.max highest q) qs
  end.

Lemma no_edge_snoc h qs q :
  no_edge h (qs ++ [q]) = no_edge h qs && negb (q + 64 =? foldl Z.max h qs).
Proof.
  revert h. induction qs as [|p qs IH]; intros h; cbn; [by rewrite andb_true_r|].
  by rewrite IH, andb_assoc.
Qed.

(** Whatever the window holds was tracked. *)
Definition window_sound (seen : list Z) (t : SequenceTracker) : Prop :=
  length (st_seenWindow t) = 64%nat /\ forall q, holds t q = true -> q ∈ seen.

(** Whatever was tracked among the 64 newest sequences is in the window. *)
Definition window_complete (seen : list Z) (t : SequenceTracker) : Prop :=
  forall q, q ∈ seen -> st_highest t - 63 <= q -> holds t q = true.

Lemma window_sound_step seen q t :
  seq_ok q -> window_sound seen t -> window_sound (seen ++ [q]) (snd (track q t)).
Proof.
  intros Hq [HL HS].
  assert (G : forall t', marked q t t' -> window_sound (seen ++ [q]) t').
  { intros t' Hm. split; [destruct Hm as [-> _]; by rewrite length_insert|].
    intros p Hp. apply elem_of_app. destruct (decide (p = q)) as [->|Hne]; [right; set_solver|].
    left. destruct (decide (p mod 64 = q mod 64)) as [Hc|Hc].
    - by rewrite (holds_marked_clash t t' q p) in Hp.
    - apply HS. by rewrite (holds_marked_other t t' q p) in Hp. }
  destruct (track_cases q t Hq); cbn [snd]; try (by apply G);
    (split; [done|]; intros p Hp; apply elem_of_app; left; by apply HS).
Qed.

Lemma window_complete_step seen q t :
  seq_ok q -> length (st_seenWindow t) = 64%nat -> st_initialized t = true ->
  q + 64 <> st_highest t -> (forall p, p ∈ seen -> p <= st_highest t) ->
  window_complete seen t -> window_complete (seen ++ [q]) (snd (track q t)).
Proof.
  intros Hq HL Hi He Hmax HC.
  assert (G : forall t', marked q t t' -> st_highest t' = Z.max (st_highest t) q ->
                         st_highest t - 63 <= q -> window_complete (seen ++ [q]) t').
  { intros t' Hm Eh Hlo p Hp Hge. rewrite elem_of_app, list_elem_of_singleton in Hp.
    destruct (decide (p = q)) as [->|Hne]; [by apply (holds_marked_same t)|].
    destruct Hp as [Hp|]; [|done]. specialize (Hmax p Hp).
    rewrite (holds_marked_other t t' q p); [apply HC; [done|lia]|done|].
    apply slots_differ; lia. }
  destruct (track_cases q t Hq) as [? Hi'|t' _ Hlt Hm E|_ Hle Hlate|_ Hr Hh|t' _ Hr Hh Hm E];
    [congruence| | | |]; cbn [snd].
  - apply G; [done|rewrite E; cbn; lia|lia].
  - intros p Hp Hge. cbn in Hge. rewrite elem_of_app, list_elem_of_singleton in Hp.
    destruct Hp as [Hp| ->]; [by apply HC|lia].
  - intros p Hp Hge. cbn in Hge. rewrite elem_of_app, list_elem_of_singleton in Hp.
    destruct Hp as [Hp| ->]; [by apply HC|exact Hh].
  - apply G; [done|rewrite E; cbn; lia|lia].
Qed.

Lemma max_of_first first qs : first <= max_of first qs.
Proof.
  unfold max_of. revert first. induction qs as [|q qs IH]; intros first; cbn; [lia|].
  specialize (IH (Z.max first q)). lia.
Qed.

Lemma max_of_ge first qs p : p ∈ first :: qs -> p <= max_of first qs.
Proof.
  unfold max_of. revert first. induction qs as [|q qs IH]; intros first Hp; cbn.
  { apply list_elem_of_singleton in Hp. lia. }
  pose proof (max_of_first (Z.max first q) qs) as Hm. unfold max_of in Hm.
  apply elem_of_cons in Hp as [->|[->|Hp]%elem_of_cons]; [lia|lia|].
  apply IH. by apply list_elem_of_further.
Qed.

Lemma trackAll_window first qs :
  Forall seq_ok (first :: qs) ->
  window_sound (first :: qs) (trackAll (first :: qs) newTracker) /\
  (no_edge first qs = true -> window_complete (first :: qs) (trackAll (first :: qs) newTracker)).
Proof.
  induction qs as [|q qs IH] using rev_ind; intros HF.
  { apply Forall_cons_iff in HF as [Hf _].
    assert (W : window_sound [first] (trackAll [first] newTracker)).
    { apply (window_sound_step [] first newTracker); [done|]. split; [done|].
      intros p Hp. rewrite holds_spec in Hp. by rewrite Z.bits_0 in Hp. }
    split; [done|]. intros _ p Hp%list_elem_of_singleton _. subst p.
    destruct (track_cases first newTracker Hf) as [t' _ Hm _|? Hi|Hi|Hi|? Hi]; try discriminate Hi.
    apply (holds_marked_same newTracker); [done|].
    by destruct (track_cases first newTracker Hf) as [? _ ? _|? Hi|Hi|Hi|? Hi]. }
  assert (Forall seq_ok (first :: qs) /\ seq_ok q) as [HF' Hq].
  { inversion_clear HF as [|? ? Hf Hr]. apply Forall_app in Hr as [Hr [Hq _]%Forall_cons_iff].
    split; [by constructor|done]. }
  destruct (IH HF') as [HS HC]. destruct (trackAll_highest first qs HF') as [Eh Hi].
  change (first :: qs ++ [q]) with ((first :: qs) ++ [q]). rewrite trackAll_snoc.
  split; [by apply window_sound_step|].
  rewrite no_edge_snoc. intros [Hn He]%andb_true_iff. b2p.
  apply window_complete_step; try done.
  - apply HS.
  - rewrite Eh. done.
  - rewrite Eh. apply max_of_ge.
  - by apply HC.
Qed.

(** * Theorems *)

(** The counters of a stream balance: over any run of fewer than 2^64
    packets, [highest_] is the maximum sequence seen, every packet is counted in
    [received_], and the packets that were neither duplicates nor late, plus the
    packets counted lost, are exactly the sequence numbers between the first and
    the highest. *)
Theorem tracker_accounting first qs
  (Hq : Forall seq_ok (first :: qs)) (Hn : zlen (first :: qs) < 2 ^ 64) :
  let t := trackAll (first :: qs) newTracker in
  st_highest t = max_of first qs /\
  st_received t = zlen (first :: qs) /\
  0 <= st_duplicates t /\ 0 <= st_late t /\ 0 <= st_lost t /\
  st_received t - st_duplicates t - st_late t + st_lost t = max_of first qs - first + 1.
Proof.
  intros t. subst t. destruct (trackAll_accounted first qs Hq Hn).
  destruct (trackAll_highest first qs Hq) as [Eh _]. rewrite <- Eh. split_and!; done || lia.
Qed.

Lemma tracker_accounting_witness :
  let t := trackAll [10; 11; 15; 13; 11; 16] newTracker in
  st_received t - st_duplicates t - st_late t + st_lost t = 7.
Proof.
  refine (proj2 (proj2 (proj2 (proj2 (proj2 (tracker_accounting 10 [11; 15; 13; 11; 16] _ _)))))).
  - by_decision.
  - by_decision.
Defined.

(** Duplicate detection is exact inside the window: as long as no packet is
    exactly 64 behind the newest, a packet at most 63 behind the newest is
    counted as a duplicate exactly when its sequence was tracked before, and
    otherwise as a late first arrival. *)
Theorem tracker_duplicate_exact first qs q
  (Hq : Forall seq_ok (first :: qs)) (He : no_edge first qs = true)
  (Hw : max_of first qs - 63 <= q <= max_of first qs) (Hqo : seq_ok q) :
  let t := trackAll (first :: qs) newTracker in
  track q t =
    if bool_decide (q ∈ first :: qs)
    then (1, mkTracker (st_highest t) true (u64 (st_duplicates t + 1)) (st_lost t) (st_late t)
               (u64 (st_received t + 1)) (st_seenWindow t) (st_seenMask t))
    else (0, mkTracker (st_highest t) true (st_duplicates t) (st_lost t) (u64 (st_late t + 1))
               (u64 (st_received t + 1)) (<[Z.to_nat (q mod 64) := q]> (st_seenWindow t))
               (Z.lor (st_seenMask t) (Z.shiftl 1 (q mod 64)))).
Proof.
  intros t. subst t.
  destruct (trackAll_window first qs Hq) as [[_ HS] HC]. specialize (HC He).
  destruct (trackAll_highest first qs Hq) as [Eh Hi].
  set (t := trackAll (first :: qs) newTracker) in *.
  destruct (track_cases q t Hqo) as [? Hi'|t' _ Hlt _ _|_ Hle Hlate|_ Hr Hh|t' _ Hr Hh Hm E];
    [congruence|lia|lia| |].
  - rewrite bool_decide_eq_true_2 by (by apply HS). done.
  - rewrite bool_decide_eq_false_2.
    + destruct Hm as [<- <-]. by rewrite <- E.
    + intros Hin. rewrite (HC q Hin) in Hh by lia. done.
Qed.

Lemma tracker_duplicate_exact_witness :
  fst (track 11 (trackAll [10; 11; 15] newTracker)) = 1.
Proof.
  rewrite (tracker_duplicate_exact 10 [11; 15] 11).
  - reflexivity.
  - by_decision.
  - reflexivity.
  - by_decision.
  - by_decision.
Defined.

(** The window spans 65 sequence numbers in 64 slots: a packet exactly 64
    behind the newest is accepted, evicts the newest from its slot, and a repeat
    of the newest is then counted as late instead of as a duplicate. *)
Theorem tracker_window_edge :
  let t := trackAll [64; 0] newTracker in
  st_highest t = 64 /\ fst (track 64 t) = 0 /\ st_duplicates (snd (track 64 t)) = 0 /\
  st_late (snd (track 64 t)) = 2.
Proof. by vm_compute. Qed.

(** The next packet in order returns 1, the code the interface reserves for
    duplicates, and counts no loss. *)
Theorem tracker_in_order first qs
  (Hq : Forall seq_ok (first :: qs)) (Hn : seq_ok (max_of first qs + 1)) :
  let t := trackAll (first :: qs) newTracker in
  fst (track (max_of first qs + 1) t) = 1 /\
  st_lost (snd (track (max_of first qs + 1) t)) = st_lost t /\
  st_duplicates (snd (track (max_of first qs + 1) t)) = st_duplicates t.
Proof.
  intros t. subst t. destruct (trackAll_highest first qs Hq) as [Eh Hi].
  set (t := trackAll (first :: qs) newTracker) in *. unfold track. rewrite Hi, Eh. cbn [negb].
  rewrite (proj2 (Z.ltb_lt _ _)) by lia.
  replace (max_of first qs + 1 - max_of first qs) with 1 by lia. done.
Qed.

Lemma tracker_in_order_witness : fst (track 6 (trackAll [4; 5] newTracker)) = 1.
Proof.
  refine (proj1 (tracker_in_order 4 [5] _ _)).
  - by_decision.
  - by_decision.
Defined.
