(* ===== verification/Reassembler.v ===== *)
(** networking/UdpProtocol.h and UdpProtocol.cpp, third part: frames made of
    fragments ([class FragmentReassembler]), and the fragmentation loop of
    [UdpTransport::sendFrame] that produces them.

    The C++ body of [feed] keeps a reference into [frames_] across an erase and
    copies with [memcpy]; both are undefined behaviour for some inputs, so the
    model returns an outcome that says so instead of inventing a result. *)

From S2P Require Import Prelude Packet UdpHeader.

(** * Data *)

Record AssembledFrame := mkAssembledFrame {
  af_type : UdpType; af_sessionId : Z; af_sequence : Z; af_timestampNs : Z;
  af_keyframe : bool; af_data : bytes }.

#[export] Instance AssembledFrame_eq_dec : EqDecision AssembledFrame.
Proof. solve_decision. Defined.

Record FrameBuf := mkFrameBuf {
  fb_data : bytes; fb_have : list bool; fb_received : Z; fb_fragmentCount : Z;
  fb_totalSize : Z; fb_timestampNs : Z; fb_keyframe : bool }.

Definition emptyFrameBuf : FrameBuf := mkFrameBuf [] [] 0 0 0 0 false.

Record FragmentReassembler := mkReassembler {
  ra_type : UdpType; ra_frames : gmap Z FrameBuf; ra_highestStarted : Z; ra_initialized : bool;
  ra_droppedIncomplete : Z; ra_completed : Z }.

Definition newReassembler (type : UdpType) : FragmentReassembler :=
  mkReassembler type ∅ 0 false 0 0.

Definition kMaxInFlight : Z := 96.

(** [frames_.begin()->first]: the lowest key of the ordered map. *)
Definition begin_key (m : gmap Z FrameBuf) : option Z :=
  map_fold (fun k _ acc => Some (match acc with None => k | Some a => Z.min a k end)) None m.

(** The outcome of a call: it returned (with the completed frame when it
    returned true), or it ran into undefined behaviour. *)
Inductive Undefined := UseAfterErase | BufferOverflow | PayloadOverread.

Inductive Fed :=
| FedOk (out : option AssembledFrame) (r : FragmentReassembler)
| FedUB (u : Undefined).

Definition keyframeFlag (h : UdpHeader) : bool := negb (Z.land (uh_flags h) FlagKeyframe =? 0).

(** * feed *)

(** The copy of one fragment into its buffer and the bookkeeping after it. *)
Definition absorbFragment (h : UdpHeader) (payload : bytes) (fb : FrameBuf) : FrameBuf :=
  let off := uh_fragmentIndex h * Z.of_nat kMaxUdpPayload in
  mkFrameBuf
    (mem_put (Z.to_nat off) (take (Z.to_nat (uh_payloadSize h)) payload) (fb_data fb))
    (<[Z.to_nat (uh_fragmentIndex h) := true]> (fb_have fb))
    (u16 (fb_received fb + 1)) (fb_fragmentCount fb)
    (if uh_fragmentIndex h + 1 =? uh_fragmentCount h
     then (uh_fragmentCount h - 1) * Z.of_nat kMaxUdpPayload + uh_payloadSize h
     else fb_totalSize fb)
    (fb_timestampNs fb) (fb_keyframe fb).

(** Writes through the reference [fb] into [frames_]. *)
Definition storeBuf (seqn : Z) (fb : FrameBuf) (r : FragmentReassembler) : FragmentReassembler :=
  mkReassembler (ra_type r) (<[seqn := fb]> (ra_frames r)) (ra_highestStarted r) (ra_initialized r)
    (ra_droppedIncomplete r) (ra_completed r).

(** Rest of [feed] once the buffer [fb] of the frame is in place: duplicate
    check, copy, completion. *)
Definition feedBuffer (h : UdpHeader) (payload : bytes) (fb : FrameBuf) (r : FragmentReassembler) : Fed :=
  if (fb_fragmentCount fb <=? uh_fragmentIndex h) ||
     nth (Z.to_nat (uh_fragmentIndex h)) (fb_have fb) false then
    FedOk None (storeBuf (uh_sequence h) fb r)
  else if zlen payload <? uh_payloadSize h then FedUB PayloadOverread
  else if zlen (fb_data fb) <? uh_fragmentIndex h * Z.of_nat kMaxUdpPayload + uh_payloadSize h then
    FedUB BufferOverflow
  else
    let fb := absorbFragment h payload fb in
    if fb_received fb =? fb_fragmentCount fb then
      let erased := delete (uh_sequence h) (ra_frames r) in
      if (fb_totalSize fb =? 0) || (zlen (fb_data fb) <? fb_totalSize fb) then
        FedOk None (mkReassembler (ra_type r) erased (ra_highestStarted r) (ra_initialized r)
                      (u64 (ra_droppedIncomplete r + 1)) (ra_completed r))
      else
        FedOk (Some (mkAssembledFrame (uh_type h) (uh_sessionId h) (uh_sequence h)
                       (fb_timestampNs fb) (fb_keyframe fb)
                       (take (Z.to_nat (fb_totalSize fb)) (fb_data fb))))
              (mkReassembler (ra_type r) erased (ra_highestStarted r) (ra_initialized r)
                 (ra_droppedIncomplete r) (u64 (ra_completed r + 1)))
    else FedOk None (storeBuf (uh_sequence h) fb r).

(** The buffer a first fragment creates. *)
Definition freshFrameBuf (h : UdpHeader) : FrameBuf :=
  mkFrameBuf (replicate (Z.to_nat (uh_fragmentCount h * Z.of_nat kMaxUdpPayload)) 0)
             (replicate (Z.to_nat (uh_fragmentCount h)) false) 0 (uh_fragmentCount h) 0
             (uh_timestampNs h) (keyframeFlag h).

Definition feed (h : UdpHeader) (payload : bytes) (r : FragmentReassembler) : Fed :=
  if uh_fragmentCount h =? 1 then
    if zlen payload <? uh_payloadSize h then FedUB PayloadOverread
    else
      FedOk (Some (mkAssembledFrame (uh_type h) (uh_sessionId h) (uh_sequence h) (uh_timestampNs h)
                     (keyframeFlag h) (take (Z.to_nat (uh_payloadSize h)) payload)))
            (mkReassembler (ra_type r) (ra_frames r) (ra_highestStarted r) (ra_initialized r)
               (ra_droppedIncomplete r) (u64 (ra_completed r + 1)))
  else
    let highest := if negb (ra_initialized r) || (ra_highestStarted r <? uh_sequence h)
                   then uh_sequence h else ra_highestStarted r in
    let fb := default emptyFrameBuf (ra_frames r !! uh_sequence h) in
    let frames := <[uh_sequence h := fb]> (ra_frames r) in
    if fb_fragmentCount fb =? 0 then
      if kMaxInFlight <? Z.of_nat (size frames) then
        match begin_key frames with
        | Some k =>
            if k =? uh_sequence h then FedUB UseAfterErase
            else feedBuffer h payload (freshFrameBuf h)
                   (mkReassembler (ra_type r) (delete k frames) highest true
                      (u64 (ra_droppedIncomplete r + 1)) (ra_completed r))
        | None => FedUB UseAfterErase
        end
      else feedBuffer h payload (freshFrameBuf h)
             (mkReassembler (ra_type r) frames highest true (ra_droppedIncomplete r) (ra_completed r))
    else if negb (fb_fragmentCount fb =? uh_fragmentCount h) then
      FedOk None (mkReassembler (ra_type r) frames highest true (ra_droppedIncomplete r) (ra_completed r))
    else feedBuffer h payload fb
           (mkReassembler (ra_type r) frames highest true (ra_droppedIncomplete r) (ra_completed r)).

(** [gc()]: the loop runs at most once per buffer. *)
Fixpoint gcLoop (fuel : nat) (r : FragmentReassembler) : FragmentReassembler :=
  match fuel with
  | O => r
  | S fuel =>
      match begin_key (ra_frames r) with
      | None => r
      | Some lowest =>
          if u64 (lowest + 64) <? ra_highestStarted r then
            gcLoop fuel (mkReassembler (ra_type r) (delete lowest (ra_frames r)) (ra_highestStarted r)
                           (ra_initialized r) (u64 (ra_droppedIncomplete r + 1)) (ra_completed r))
          else r
      end
  end.

Definition gc (r : FragmentReassembler) : FragmentReassembler := gcLoop (size (ra_frames r)) r.

Definition resetReassembler (r : FragmentReassembler) : FragmentReassembler :=
  mkReassembler (ra_type r) ∅ 0 false (ra_droppedIncomplete r) (ra_completed r).

Definition inFlight (r : FragmentReassembler) : nat := size (ra_frames r).

(** * Fragmentation: the loop body of [UdpTransport::sendFrame] *)

Definition fragmentHeader (type : UdpType) (keyframe : bool) (sessionId frameSeq timestampNs : Z)
    (frags fi : Z) (size : Z) : UdpHeader :=
  let off := fi * Z.of_nat kMaxUdpPayload in
  let payloadSize := u16 (if fi + 1 =? frags then u64 (size - off) else Z.of_nat kMaxUdpPayload) in
  let flags := Z.lor (if keyframe then FlagKeyframe else 0) (if 1 <? frags then FlagFragment else 0) in
  mkUdpHeader kUdpMagic kUdpVersion type flags sessionId frameSeq fi frags timestampNs payloadSize.

Definition fragmentPayload (data : bytes) (h : UdpHeader) : bytes :=
  take (Z.to_nat (uh_payloadSize h))
    (drop (Z.to_nat (uh_fragmentIndex h * Z.of_nat kMaxUdpPayload)) data).

Definition fragmentDatagram (data : bytes) (h : UdpHeader) : bytes :=
  let dg := replicate (kUdpHeaderSize + Z.to_nat (uh_payloadSize h)) 0 in
  mem_put kUdpHeaderSize (fragmentPayload data h) (encodeUdpHeader h dg).

(** The datagrams of a frame, in sending order. *)
Definition frameHeaders (type : UdpType) (keyframe : bool) (sessionId frameSeq timestampNs : Z)
    (size : Z) : list UdpHeader :=
  let frags := fragmentCountFor size in
  (fun fi : nat => fragmentHeader type keyframe sessionId frameSeq timestampNs frags (Z.of_nat fi) size)
    <$> seq 0 (Z.to_nat frags).

Definition frameDatagrams (type : UdpType) (keyframe : bool) (sessionId frameSeq timestampNs : Z)
    (data : bytes) : list bytes :=
  fragmentDatagram data <$> frameHeaders type keyframe sessionId frameSeq timestampNs (zlen data).

(** * The ordered map *)

Lemma begin_key_spec m :
  match begin_key m with
  | None => m = ∅
  | Some k => is_Some (m !! k) /\ forall k', is_Some (m !! k') -> k <= k'
  end.
Proof.
  unfold begin_key. apply (map_fold_weak_ind (fun acc (m : gmap Z FrameBuf) =>
    match acc with
    | None => m = ∅
    | Some k => is_Some (m !! k) /\ forall k', is_Some (m !! k') -> k <= k'
    end)); [done|].
  intros k x m' acc Hk IH. destruct acc as [a|].
  - destruct IH as [Ha Hmin]. split.
    + destruct (Z.min_spec a k) as [[_ ->]|[_ ->]].
      * rewrite lookup_insert_is_Some'. by right.
      * rewrite lookup_insert_eq. by eexists.
    + intros k' [->|Hk']%lookup_insert_is_Some'; [lia|]. specialize (Hmin k' Hk'). lia.
  - subst m'. split; [rewrite lookup_insert_eq; by eexists|].
    intros k' [->|Hk']%lookup_insert_is_Some'; [lia|]. rewrite lookup_empty in Hk'. by destruct Hk'.
Qed.

Lemma begin_key_insert k x m : exists k0, begin_key (<[k := x]> m) = Some k0.
Proof.
  pose proof (begin_key_spec (<[k := x]> m)) as H. destruct (begin_key _); [by eexists|].
  by apply insert_non_empty in H.
Qed.

(** * Copies *)

Lemma mem_put_lookup off bs buf k :
  (off + length bs <= length buf)%nat ->
  mem_put off bs buf !! k =
    if decide (off <= k < off + length bs)%nat then bs !! (k - off)%nat else buf !! k.
Proof.
  intros H. unfold mem_put. destruct (decide _) as [Hd|Hd].
  - rewrite lookup_app_r by (rewrite length_take; lia). rewrite length_take, Nat.min_l by lia.
    by rewrite lookup_app_l by lia.
  - destruct (decide (k < off)%nat).
    + rewrite lookup_app_l by (rewrite length_take; lia). by rewrite lookup_take_lt.
    + assert (~ (k < off + length bs)%nat) by lia.
      rewrite lookup_app_r by (rewrite length_take; lia). rewrite length_take, Nat.min_l by lia.
      rewrite lookup_app_r by lia. rewrite lookup_drop. f_equal. lia.
Qed.

(** * Buffer invariant *)

Fixpoint countTrue (l : list bool) : nat :=
  match l with
  | [] => 0
  | b :: l => (if b then 1 else 0) + countTrue l
  end.

Lemma countTrue_le l : (countTrue l <= length l)%nat.
Proof. induction l as [|[] l IH]; cbn [countTrue length]; lia. Qed.

Lemma countTrue_insert l i :
  l !! i = Some false -> countTrue (<[i := true]> l) = S (countTrue l).
Proof.
  revert i. induction l as [|b l IH]; intros i Hi; [done|]. destruct i as [|i].
  - injection Hi as ->. done.
  - change (countTrue (b :: <[i := true]> l) = S (countTrue (b :: l))).
    cbn [countTrue]. rewrite (IH i Hi). lia.
Qed.

Lemma countTrue_all l : countTrue l = length l -> forall i, (i < length l)%nat -> l !! i = Some true.
Proof.
  induction l as [|b l IH]; intros H i Hi; cbn [countTrue length] in *; [lia|].
  pose proof (countTrue_le l).
  destruct b; [|lia]. destruct i as [|i]; [done|]. apply IH; lia.
Qed.

Lemma countTrue_full l :
  (forall j, (j < length l)%nat -> l !! j = Some true) -> countTrue l = length l.
Proof.
  induction l as [|b l IH]; intros Hl; [done|]. cbn [countTrue length].
  assert (b = true) as -> by (specialize (Hl 0%nat ltac:(cbn; lia)); by injection Hl).
  rewrite IH; [done|]. intros j Hj. apply (Hl (S j)). cbn. lia.
Qed.

Lemma countTrue_lt l i : l !! i = Some false -> (countTrue l < length l)%nat.
Proof.
  intros H. pose proof (countTrue_insert l i H) as E. pose proof (countTrue_le (<[i := true]> l)) as L.
  rewrite length_insert in L. lia.
Qed.

Lemma countTrue_replicate n : countTrue (replicate n false) = 0%nat.
Proof. induction n as [|n IH]; [done|]. exact IH. Qed.

(** A buffer of an incomplete frame: one slot per fragment, 1100 bytes each. *)
Record buf_ok (fb : FrameBuf) : Prop := {
  bo_count : 2 <= fb_fragmentCount fb <= kMaxFragments;
  bo_have : zlen (fb_have fb) = fb_fragmentCount fb;
  bo_data : zlen (fb_data fb) = fb_fragmentCount fb * 1100;
  bo_received : fb_received fb = Z.of_nat (countTrue (fb_have fb));
  bo_incomplete : fb_received fb < fb_fragmentCount fb;
  bo_total : 0 <= fb_totalSize fb <= zlen (fb_data fb);
  bo_last : fb_have fb !! Z.to_nat (fb_fragmentCount fb - 1) = Some true -> 0 < fb_totalSize fb }.

(** A fragment as the transport hands it over. *)
Definition frag_ok (h : UdpHeader) (payload : bytes) : Prop :=
  1 <= uh_fragmentCount h <= kMaxFragments /\ 0 <= uh_fragmentIndex h < uh_fragmentCount h /\
  0 <= uh_payloadSize h <= 1100 /\ uh_payloadSize h <= zlen payload.

#[export] Instance frag_ok_dec h payload : Decision (frag_ok h payload).
Proof. unfold frag_ok. apply _. Defined.

Definition reassembler_ok (r : FragmentReassembler) : Prop :=
  map_Forall (fun _ fb => buf_ok fb) (ra_frames r) /\ Z.of_nat (size (ra_frames r)) <= kMaxInFlight.

Lemma fresh_buf_ok h : 2 <= uh_fragmentCount h <= kMaxFragments -> buf_ok (freshFrameBuf h).
Proof.
  intros H. unfold freshFrameBuf, kMaxUdpPayload.
  split; cbn [fb_fragmentCount fb_have fb_data fb_received fb_totalSize].
  - done.
  - rewrite length_replicate. lia.
  - rewrite length_replicate. change (Z.of_nat 1100) with 1100. lia.
  - by rewrite countTrue_replicate.
  - lia.
  - lia.
  - intros [? _]%lookup_replicate. done.
Qed.

(** What [feedBuffer] does with a well-formed fragment: a repeat is dropped, a
    new one is copied, and the last missing one completes the frame. *)
Inductive fed_case (h : UdpHeader) (p : bytes) (fb : FrameBuf) (r : FragmentReassembler) : Fed -> Prop :=
| fed_duplicate :
    fb_have fb !! Z.to_nat (uh_fragmentIndex h) = Some true ->
    fed_case h p fb r (FedOk None (storeBuf (uh_sequence h) fb r))
| fed_stored :
    fb_have fb !! Z.to_nat (uh_fragmentIndex h) = Some false ->
    buf_ok (absorbFragment h p fb) ->
    fed_case h p fb r (FedOk None (storeBuf (uh_sequence h) (absorbFragment h p fb) r))
| fed_completed :
    fb_have fb !! Z.to_nat (uh_fragmentIndex h) = Some false ->
    (forall i, (i < length (fb_have fb))%nat -> fb_have (absorbFragment h p fb) !! i = Some true) ->
    fed_case h p fb r
      (FedOk (Some (mkAssembledFrame (uh_type h) (uh_sessionId h) (uh_sequence h)
                      (fb_timestampNs fb) (fb_keyframe fb)
                      (take (Z.to_nat (fb_totalSize (absorbFragment h p fb)))
                            (fb_data (absorbFragment h p fb)))))
         (mkReassembler (ra_type r) (delete (uh_sequence h) (ra_frames r)) (ra_highestStarted r)
            (ra_initialized r) (ra_droppedIncomplete r) (u64 (ra_completed r + 1)))).

(** The fields of a buffer after a new fragment. *)
Lemma absorb_facts h p fb :
  frag_ok h p -> buf_ok fb -> fb_fragmentCount fb = uh_fragmentCount h ->
  fb_have fb !! Z.to_nat (uh_fragmentIndex h) = Some false ->
  let fb' := absorbFragment h p fb in
  fb_received fb' = Z.of_nat (countTrue (fb_have fb')) /\
  fb_received fb' <= fb_fragmentCount fb' /\
  length (fb_have fb') = length (fb_have fb) /\ length (fb_data fb') = length (fb_data fb) /\
  0 <= fb_totalSize fb' <= zlen (fb_data fb') /\
  (fb_have fb' !! Z.to_nat (fb_fragmentCount fb' - 1) = Some true -> 0 < fb_totalSize fb').
Proof.
  intros (Hc & Hi & Hp & Hl) [B1 B2 B3 B4 B5 B6 B7] Ec Hf fb'. subst fb'.
  unfold absorbFragment, kMaxUdpPayload, kMaxFragments in *.
  change (Z.of_nat 1100) with 1100 in *.
  cbn [fb_received fb_have fb_fragmentCount fb_data fb_totalSize].
  pose proof (countTrue_lt _ _ Hf) as Hlt.
  assert (Eu : u16 (fb_received fb + 1) = fb_received fb + 1) by (apply u16_id; widths; lia).
  rewrite Eu, countTrue_insert, length_insert, mem_put_length by
    (done || rewrite length_take; lia).
  split_and!; try lia.
  - bdestr; lia.
  - bdestr; lia.
  - destruct (Z.eqb_spec (uh_fragmentIndex h + 1) (uh_fragmentCount h)); [lia|].
    rewrite list_lookup_insert_ne by lia. exact B7.
Qed.

Lemma feedBuffer_cases h p fb r :
  frag_ok h p -> buf_ok fb -> fb_fragmentCount fb = uh_fragmentCount h ->
  fed_case h p fb r (feedBuffer h p fb r).
Proof.
  intros Hok Hb Ec. pose proof Hok as (Hc & Hi & Hp & Hl). pose proof Hb as [B1 B2 B3 B4 B5 B6 B7].
  unfold feedBuffer. rewrite (proj2 (Z.leb_gt _ _)) by lia. cbn [orb].
  destruct (lookup_lt_is_Some_2 (fb_have fb) (Z.to_nat (uh_fragmentIndex h)) ltac:(lia)) as [b Eb].
  rewrite (nth_lookup_Some _ _ _ _ Eb). destruct b; [by apply fed_duplicate|].
  rewrite (proj2 (Z.ltb_ge _ _)) by lia.
  rewrite (proj2 (Z.ltb_ge _ _)) by (rewrite kMaxUdpPayload_Z; lia).
  pose proof (absorb_facts h p fb Hok Hb Ec Eb) as (F1 & F2 & F3 & F4 & F5 & F6).
  assert (Ecnt : fb_fragmentCount (absorbFragment h p fb) = fb_fragmentCount fb) by done.
  destruct (Z.eqb_spec (fb_received (absorbFragment h p fb)) (fb_fragmentCount (absorbFragment h p fb)))
    as [Er|Er].
  - assert (Hall : forall i, (i < length (fb_have fb))%nat ->
                     fb_have (absorbFragment h p fb) !! i = Some true).
    { intros i Hi'. apply countTrue_all; [|by rewrite F3]. rewrite F3. lia. }
    assert (0 < fb_totalSize (absorbFragment h p fb)) by (apply F6, Hall; rewrite Ecnt; lia).
    rewrite (proj2 (Z.eqb_neq _ _)), (proj2 (Z.ltb_ge _ _)) by lia.
    exact (fed_completed h p fb r Eb Hall).
  - apply fed_stored; [done|]. split; rewrite ?F3, ?F4, ?Ecnt; try done; lia.
Qed.

(** [feed] is [feedBuffer] on the right buffer, or one of the early outcomes. *)
Inductive feed_case (h : UdpHeader) (p : bytes) (r : FragmentReassembler) : Fed -> Prop :=
| feed_single :
    uh_fragmentCount h = 1 ->
    feed_case h p r (FedOk (Some (mkAssembledFrame (uh_type h) (uh_sessionId h) (uh_sequence h)
        (uh_timestampNs h) (keyframeFlag h) (take (Z.to_nat (uh_payloadSize h)) p)))
      (mkReassembler (ra_type r) (ra_frames r) (ra_highestStarted r) (ra_initialized r)
         (ra_droppedIncomplete r) (u64 (ra_completed r + 1))))
| feed_existing fb r0 :
    ra_frames r !! uh_sequence h = Some fb -> fb_fragmentCount fb = uh_fragmentCount h ->
    ra_frames r0 = ra_frames r -> feed_case h p r (feedBuffer h p fb r0)
| feed_mismatch fb r0 :
    ra_frames r !! uh_sequence h = Some fb -> fb_fragmentCount fb <> uh_fragmentCount h ->
    ra_frames r0 = ra_frames r -> feed_case h p r (FedOk None r0)
| feed_new r0 :
    ra_frames r !! uh_sequence h = None -> Z.of_nat (size (ra_frames r)) < kMaxInFlight ->
    ra_frames r0 = <[uh_sequence h := emptyFrameBuf]> (ra_frames r) ->
    feed_case h p r (feedBuffer h p (freshFrameBuf h) r0)
| feed_evict k r0 :
    ra_frames r !! uh_sequence h = None -> Z.of_nat (size (ra_frames r)) = kMaxInFlight ->
    is_Some (ra_frames r !! k) -> k < uh_sequence h ->
    (forall k', is_Some (ra_frames r !! k') -> k <= k') ->
    ra_frames r0 = delete k (<[uh_sequence h := emptyFrameBuf]> (ra_frames r)) ->
    feed_case h p r (feedBuffer h p (freshFrameBuf h) r0)
| feed_dangling :
    ra_frames r !! uh_sequence h = None -> Z.of_nat (size (ra_frames r)) = kMaxInFlight ->
    (forall k', is_Some (ra_frames r !! k') -> uh_sequence h < k') ->
    feed_case h p r (FedUB UseAfterErase).

Lemma feed_cases h p r :
  frag_ok h p -> reassembler_ok r -> feed_case h p r (feed h p r).
Proof.
  intros (Hc & Hi & Hp & Hl) [Hm Hs]. unfold feed.
  destruct (Z.eqb_spec (uh_fragmentCount h) 1).
  { rewrite (proj2 (Z.ltb_ge _ _)) by lia. by apply feed_single. }
  destruct (ra_frames r !! uh_sequence h) as [fb|] eqn:El; cbn [default from_option id].
  - specialize (Hm _ _ El) as [B1 _ _ _ _ _ _]. rewrite insert_id by done.
    rewrite (proj2 (Z.eqb_neq _ _)) by lia.
    destruct (Z.eqb_spec (fb_fragmentCount fb) (uh_fragmentCount h)); cbn [negb].
    + by eapply feed_existing.
    + by eapply feed_mismatch.
  - cbn [fb_fragmentCount emptyFrameBuf]. rewrite Z.eqb_refl.
    rewrite map_size_insert_None by done.
    destruct (Z.ltb_spec kMaxInFlight (Z.of_nat (S (size (ra_frames r))))) as [Hfull|Hfree].
    2:{ eapply feed_new; [done|lia|done]. }
    pose proof (begin_key_spec (<[uh_sequence h := emptyFrameBuf]> (ra_frames r))) as Hk.
    destruct (begin_key _) as [k|]; [|by apply insert_non_empty in Hk].
    destruct Hk as [Hin Hmin].
    assert (Hmin' : forall k', is_Some (ra_frames r !! k') -> k <= k')
      by (intros k' H'; apply Hmin; rewrite lookup_insert_is_Some'; by right).
    destruct (Z.eqb_spec k (uh_sequence h)) as [->|Hne].
    + apply feed_dangling; [done|lia|]. intros k' H'. specialize (Hmin' k' H').
      destruct (Z.eq_dec (uh_sequence h) k') as [Eq|]; [|lia]. rewrite <- Eq, El in H'. by destruct H'.
    + apply lookup_insert_is_Some' in Hin as [?|Hin]; [congruence|].
      assert (Hle : k <= uh_sequence h) by (apply Hmin; rewrite lookup_insert_is_Some'; by left).
      eapply feed_evict; try done; lia.
Qed.

Lemma feedBuffer_inv h p fb r :
  frag_ok h p -> buf_ok fb -> fb_fragmentCount fb = uh_fragmentCount h ->
  map_Forall (fun _ fb => buf_ok fb) (delete (uh_sequence h) (ra_frames r)) ->
  is_Some (ra_frames r !! uh_sequence h) -> Z.of_nat (size (ra_frames r)) <= kMaxInFlight ->
  exists out r', feedBuffer h p fb r = FedOk out r' /\ reassembler_ok r'.
Proof.
  intros Hok Hb Ec Hm Hin Hs.
  assert (G : forall fb', buf_ok fb' -> reassembler_ok (storeBuf (uh_sequence h) fb' r)).
  { intros fb' Hb'. split; cbn.
    - rewrite <- insert_delete_eq. by apply map_Forall_insert_2.
    - by rewrite map_size_insert_Some. }
  destruct (feedBuffer_cases h p fb r Hok Hb Ec); eexists _, _; (split; [reflexivity|]);
    [by apply G|by apply G|].
  split; cbn; [done|]. rewrite map_size_delete_Some by done. lia.
Qed.

(** The state is well formed after any fragment, unless the call is undefined. *)
Lemma feed_inv h p r :
  frag_ok h p -> reassembler_ok r ->
  (exists out r', feed h p r = FedOk out r' /\ reassembler_ok r') \/
  (feed h p r = FedUB UseAfterErase /\ ra_frames r !! uh_sequence h = None /\
   Z.of_nat (size (ra_frames r)) = kMaxInFlight /\
   forall k, is_Some (ra_frames r !! k) -> uh_sequence h < k).
Proof.
  intros Hok Hr. pose proof Hr as [Hm Hs]. pose proof Hok as (Hc & _).
  assert (F : uh_fragmentCount h <> 1 -> buf_ok (freshFrameBuf h))
    by (intros; apply fresh_buf_ok; lia).
  pose proof (feed_cases h p r Hok Hr) as C.
  destruct (Z.eqb_spec (uh_fragmentCount h) 1) as [E1|E1].
  { left. unfold feed. rewrite E1. cbn. destruct Hok as (_ & _ & _ & Hl).
    rewrite (proj2 (Z.ltb_ge _ _)) by lia. eexists _, _. split; [done|]. by split. }
  destruct C as [E|fb r0 El Ec E0|fb r0 El Ec E0|r0 El Hfree E0|k r0 El Hfull Hk Hlt Hmin E0|El Hfull Hmin];
    [done|left..|by right].
  - apply feedBuffer_inv; rewrite ?E0; try done; [by apply (Hm _ _ El)|by apply map_Forall_delete].
  - eexists _, _. split; [done|]. by split; rewrite E0.
  - apply feedBuffer_inv; rewrite ?E0; try done.
    + by apply F.
    + rewrite delete_insert_eq. by apply map_Forall_delete.
    + rewrite lookup_insert_eq. by eexists.
    + rewrite map_size_insert_None by done. lia.
  - assert (Hne : k <> uh_sequence h) by lia.
    apply feedBuffer_inv; rewrite ?E0; try done.
    + by apply F.
    + rewrite delete_delete, delete_insert_eq. by do 2 apply map_Forall_delete.
    + rewrite lookup_delete_ne, lookup_insert_eq by done. by eexists.
    + rewrite map_size_delete_Some, map_size_insert_None by
        (done || (rewrite lookup_insert_ne by done; done)). lia.
Qed.

(** * Garbage collection *)

Definition fresh_enough (highest : Z) (kv : Z * FrameBuf) : Prop := highest <= fst kv + 64.

#[export] Instance fresh_enough_dec highest kv : Decision (fresh_enough highest kv).
Proof. unfold fresh_enough. apply _. Defined.

Definition key_ok (k : Z) : Prop := 0 <= k < 2 ^ 64 - 64.

Lemma gcLoop_spec n r :
  size (ra_frames r) = n -> fits 64 (ra_droppedIncomplete r) ->
  map_Forall (fun k _ => key_ok k) (ra_frames r) ->
  let kept := filter (fresh_enough (ra_highestStarted r)) (ra_frames r) in
  gcLoop n r = mkReassembler (ra_type r) kept (ra_highestStarted r) (ra_initialized r)
    (u64 (ra_droppedIncomplete r + (Z.of_nat n - Z.of_nat (size kept)))) (ra_completed r).
Proof.
  revert r. induction n as [|n IH]; intros [ty m hi ini dr co] Hs Hd Hk;
    cbn [ra_frames ra_type ra_highestStarted ra_initialized ra_droppedIncomplete ra_completed] in *.
  { apply map_size_empty_inv in Hs. subst m. cbn [gcLoop]. rewrite map_filter_empty, map_size_empty.
    cbn. by rewrite Z.add_0_r, u64_id. }
  cbn [gcLoop ra_frames]. pose proof (begin_key_spec m) as Hb.
  destruct (begin_key m) as [lo|]; [|by subst m; rewrite map_size_empty in Hs].
  destruct Hb as [[fb Hlo] Hmin]. specialize (Hk lo fb Hlo) as Hlo'. unfold key_ok in Hlo'.
  cbn [ra_type ra_highestStarted ra_initialized ra_droppedIncomplete ra_completed].
  rewrite (u64_id (lo + 64)) by (widths; lia).
  destruct (Z.ltb_spec (lo + 64) hi) as [Hst|Hfr].
  - rewrite IH; cbn [ra_frames ra_type ra_highestStarted ra_initialized ra_droppedIncomplete ra_completed].
    + assert (Ef : filter (fresh_enough hi) (delete lo m) = filter (fresh_enough hi) m).
      { rewrite map_filter_delete, delete_id; [done|].
        apply map_lookup_filter_None_2. right. intros x _ Hx. unfold fresh_enough in Hx. cbn in Hx. lia. }
      rewrite Ef. f_equal.
      pose proof (map_size_filter (fresh_enough hi) m).
      assert (size (filter (fresh_enough hi) m) <= size (delete lo m))%nat
        by (rewrite <- Ef; apply map_size_filter).
      rewrite map_size_delete_Some in * by eauto.
      unfold u64. rewrite Zplus_mod_idemp_l. f_equal. lia.
    + rewrite map_size_delete_Some by eauto. lia.
    + apply u64_fits.
    + by apply map_Forall_delete.
  - rewrite map_filter_id.
    + f_equal. rewrite Hs, Z.sub_diag, Z.add_0_r. by rewrite u64_id.
    + intros k x Hx. unfold fresh_enough. cbn. specialize (Hmin k (mk_is_Some _ _ Hx)). lia.
Qed.

(** * Frames in flight *)

(** Calls on a reassembler: a fragment, or the garbage collection that every poll
    of the transport makes. *)
Inductive ReOp :=
  | RoFeed (h : UdpHeader) (p : bytes)
  | RoGc.

Fixpoint reRun (ops : list ReOp) (r : FragmentReassembler) : option (list (option AssembledFrame) * FragmentReassembler) :=
  match ops with
  | [] => Some ([], r)
  | RoFeed h p :: ops =>
      match feed h p r with
      | FedUB _ => None
      | FedOk out r => '(outs, r) ← reRun ops r; Some (out :: outs, r)
      end
  | RoGc :: ops => reRun ops (gc r)
  end.

(** [highestStarted_] stays at most the largest sequence seen. *)
Lemma feedBuffer_highest h p fb r out r' : feedBuffer h p fb r = FedOk out r' -> ra_highestStarted r' = ra_highestStarted r.
Proof.
  unfold feedBuffer. destruct (_ || _); [by intros [= _ <-]|]. destruct (_ <? _); [done|]. destruct (_ <? _); [done|]. cbv zeta.
  destruct (_ =? _); [|by intros [= _ <-]]. destruct (_ || _); by intros [= _ <-].
Qed.

Lemma feed_highest h p r out r' n :
  feed h p r = FedOk out r' -> uh_sequence h <= n -> ra_highestStarted r <= n -> ra_highestStarted r' <= n.
Proof.
  intros E Hh Hr. unfold feed in E. destruct (_ =? 1).
  { destruct (_ <? _); [done|]. by injection E as _ <-. }
  set (hi := if negb (ra_initialized r) || _ then uh_sequence h else ra_highestStarted r) in E. assert (Hhi : hi <= n) by (subst hi; by destruct (_ || _)). clearbody hi.
  destruct (_ =? 0).
  - destruct (kMaxInFlight <? _); [|by apply feedBuffer_highest in E as ->].
    destruct (begin_key _); [|done]. destruct (_ =? _); [done|]. by apply feedBuffer_highest in E as ->.
  - destruct (negb _); [by injection E as _ <-|]. by apply feedBuffer_highest in E as ->.
Qed.

Lemma gcLoop_ok n r : reassembler_ok r -> reassembler_ok (gcLoop n r).
Proof.
  revert r. induction n as [|n IH]; intros r Hr; [done|]. cbn [gcLoop].
  pose proof (begin_key_spec (ra_frames r)) as Hk.
  destruct (begin_key _) as [k|]; [|done]. destruct Hk as [Hin _]. break_goal; [|done]. apply IH.
  destruct Hr as [Hm Hs]. split; cbn.
  - by apply map_Forall_delete.
  - rewrite map_size_delete_Some by done. lia.
Qed.

(** Garbage collection leaves a sequence alone that the newest one is not more than
    64 ahead of. *)
Lemma gcLoop_keeps n r seqn :
  0 <= seqn -> seqn + 64 < 2 ^ 64 -> ra_highestStarted r <= seqn + 64 ->
  ra_frames (gcLoop n r) !! seqn = ra_frames r !! seqn /\ ra_highestStarted (gcLoop n r) = ra_highestStarted r.
Proof.
  intros H0 Hs. revert r. induction n as [|n IH]; intros r Hr; [done|]. cbn [gcLoop].
  destruct (begin_key _) as [k|]; [|done]. destruct (Z.ltb_spec (u64 (k + 64)) (ra_highestStarted r)); [|done].
  destruct (IH (mkReassembler (ra_type r) (delete k (ra_frames r)) (ra_highestStarted r) (ra_initialized r)
    (u64 (ra_droppedIncomplete r + 1)) (ra_completed r)) Hr) as [-> ->]. split; [|done].
  cbn [ra_frames]. apply lookup_delete_ne. intros ->. rewrite u64_id in * by (widths; lia). lia.
Qed.

(** ** Datagrams *)

Lemma mem_put_header h bs (H : zlen bs = uh_payloadSize h) :
  mem_put kUdpHeaderSize bs
    (encodeUdpHeader h (replicate (kUdpHeaderSize + Z.to_nat (uh_payloadSize h)) 0)) =
  header_bytes h ++ bs.
Proof.
  rewrite encodeUdpHeader_bytes by (rewrite length_replicate; lia).
  rewrite (mem_put_app kUdpHeaderSize (header_bytes h)).
  - rewrite <- app_assoc, drop_ge, app_nil_r; [done|]. rewrite length_drop, length_replicate. lia.
  - apply header_bytes_length.
  - rewrite length_drop, length_replicate. lia.
Qed.

(** Consecutive chunks of a list concatenate to it. *)
Lemma chunks_concat {A} (c n : nat) (l : list A) :
  (length l <= c * n)%nat -> concat ((fun i => take c (drop (c * i) l)) <$> seq 0 n) = l.
Proof.
  revert l. induction n as [|n IH]; intros l Hl.
  { destruct l; cbn in *; [done|lia]. }
  rewrite <- cons_seq, fmap_cons, <- fmap_S_seq, <- list_fmap_compose. cbn [concat].
  rewrite Nat.mul_0_r, drop_0.
  transitivity (take c l ++ drop c l); [|apply take_drop]. f_equal.
  rewrite <- (IH (drop c l)) by (rewrite length_drop; lia). f_equal.
  apply list_fmap_ext. intros i x _. unfold compose. rewrite drop_drop. do 2 f_equal. lia.
Qed.

Section Genuine.
Context (type : UdpType) (keyframe : bool) (sessionId seqn ts : Z) (data : bytes).
Context (Hsize : 1100 < zlen data <= 1024 * 1100).

Definition nfrags : Z := fragmentCountFor (zlen data).

(** Fragment [i] of the frame, as the receiver decodes it. *)
Definition frag (i : nat) : UdpHeader * bytes :=
  let h := fragmentHeader type keyframe sessionId seqn ts nfrags (Z.of_nat i) (zlen data) in
  (h, fragmentPayload data h).

Definition theFrame : AssembledFrame :=
  mkAssembledFrame type sessionId seqn ts keyframe data.

Lemma nfrags_bounds :
  2 <= nfrags <= 1024 /\ (nfrags - 1) * 1100 < zlen data <= nfrags * 1100.
Proof.
  unfold nfrags. rewrite fragmentCountFor_ceil by lia. Z.div_mod_to_equations. lia.
Qed.

(** Number of bytes of fragment [i]. *)
Definition fragSize (i : nat) : Z :=
  if Z.of_nat i + 1 =? nfrags then zlen data - Z.of_nat i * 1100 else 1100.

Lemma frag_payloadSize i :
  Z.of_nat i < nfrags -> uh_payloadSize (fst (frag i)) = fragSize i /\ 1 <= fragSize i <= 1100 /\
  Z.of_nat i * 1100 + fragSize i <= zlen data.
Proof.
  intros Hi. pose proof nfrags_bounds. cbn [fst frag uh_payloadSize fragmentHeader].
  unfold fragSize. rewrite kMaxUdpPayload_Z. destruct (Z.eqb_spec (Z.of_nat i + 1) nfrags).
  - rewrite u64_id by (widths; lia). rewrite u16_id by (widths; lia). lia.
  - rewrite u16_id by (widths; lia). lia.
Qed.

Lemma frag_payload i :
  Z.of_nat i < nfrags ->
  snd (frag i) = take (Z.to_nat (fragSize i)) (drop (i * 1100) data) /\
  zlen (snd (frag i)) = fragSize i.
Proof.
  intros Hi. destruct (frag_payloadSize i Hi) as (E & ? & ?).
  assert (Es : snd (frag i) = take (Z.to_nat (fragSize i)) (drop (i * 1100) data)).
  { cbn [snd frag]. unfold fragmentPayload. cbn [fst frag] in E. rewrite E.
    cbn [uh_fragmentIndex fragmentHeader]. rewrite kMaxUdpPayload_Z. do 2 f_equal. lia. }
  split; [done|]. rewrite Es, length_take, length_drop. lia.
Qed.

Lemma frag_frag_ok i : Z.of_nat i < nfrags -> frag_ok (fst (frag i)) (snd (frag i)).
Proof.
  intros Hi. destruct (frag_payloadSize i Hi) as (E & ? & ?). destruct (frag_payload i Hi) as [_ L].
  pose proof nfrags_bounds. unfold frag_ok, kMaxFragments.
  rewrite E, L. cbn [fst frag uh_fragmentCount uh_fragmentIndex fragmentHeader]. lia.
Qed.

Lemma frag_keyframe i : keyframeFlag (fst (frag i)) = keyframe.
Proof.
  unfold keyframeFlag. cbn [fst frag uh_flags fragmentHeader].
  destruct keyframe, (1 <? nfrags); reflexivity.
Qed.

Lemma frag_header_ok i :
  0 <= type <= 8 -> fits 32 sessionId -> fits 64 seqn -> fits 64 ts -> Z.of_nat i < nfrags ->
  header_typed (fst (frag i)) /\ header_valid (fst (frag i)).
Proof.
  intros Ht Hsid Hsq Hts Hi. pose proof nfrags_bounds.
  destruct (frag_payloadSize i Hi) as (E & ? & ?).
  assert (Hf : fits 8 (uh_flags (fst (frag i))))
    by (cbn [fst frag uh_flags fragmentHeader]; destruct keyframe, (1 <? nfrags); by_decision).
  assert (Hp : fits 16 (uh_payloadSize (fst (frag i)))) by (rewrite E; widths; lia).
  unfold header_typed, header_valid. revert Hf Hp.
  cbn [fst frag uh_magic uh_version uh_type uh_flags uh_sessionId uh_sequence uh_fragmentIndex
       uh_fragmentCount uh_timestampNs uh_payloadSize fragmentHeader].
  intros Hf Hp. unfold kMaxFragments. split_and!; done || (widths; lia).
Qed.

Lemma fragment_datagram i :
  Z.of_nat i < nfrags ->
  fragmentDatagram data (fst (frag i)) = header_bytes (fst (frag i)) ++ snd (frag i).
Proof.
  intros Hi. destruct (frag_payload i Hi) as [_ L]. destruct (frag_payloadSize i Hi) as (E & _ & _).
  unfold fragmentDatagram. change (fragmentPayload data (fst (frag i))) with (snd (frag i)).
  apply mem_put_header. by rewrite L, E.
Qed.

Lemma frame_datagrams :
  frameDatagrams type keyframe sessionId seqn ts data =
  (fun i => header_bytes (fst (frag i)) ++ snd (frag i)) <$> seq 0 (Z.to_nat nfrags).
Proof.
  pose proof nfrags_bounds. unfold frameDatagrams, frameHeaders. rewrite <- list_fmap_compose.
  apply list_fmap_ext. intros k i Hi%lookup_seq. apply fragment_datagram. lia.
Qed.

(** The payloads are consecutive 1100-byte chunks of the frame. *)
Lemma frag_chunk i :
  Z.of_nat i < nfrags -> snd (frag i) = take 1100 (drop (1100 * i) data).
Proof.
  intros Hi. destruct (frag_payload i Hi) as [-> _]. rewrite (Nat.mul_comm 1100).
  destruct (frag_payloadSize i Hi) as (_ & ? & ?). pose proof nfrags_bounds. unfold fragSize in *.
  destruct (Z.eqb_spec (Z.of_nat i + 1) nfrags); [|f_equal; lia].
  rewrite !take_ge; [done|..]; rewrite length_drop; lia.
Qed.

(** The received part of a buffer agrees with the frame. *)
Record content (fb : FrameBuf) : Prop := {
  co_count : fb_fragmentCount fb = nfrags;
  co_ts : fb_timestampNs fb = ts;
  co_keyframe : fb_keyframe fb = keyframe;
  co_have : zlen (fb_have fb) = nfrags;
  co_len : zlen (fb_data fb) = nfrags * 1100;
  co_total : fb_have fb !! Z.to_nat (nfrags - 1) = Some true -> fb_totalSize fb = zlen data;
  co_data : forall k, (k < length data)%nat -> fb_have fb !! (k / 1100)%nat = Some true ->
              fb_data fb !! k = data !! k }.

Lemma content_fresh i : content (freshFrameBuf (fst (frag i))).
Proof.
  pose proof nfrags_bounds. unfold freshFrameBuf. rewrite kMaxUdpPayload_Z, frag_keyframe.
  split; cbn [fb_fragmentCount fb_timestampNs fb_keyframe fb_have fb_data fb_totalSize fst frag
              uh_fragmentCount uh_timestampNs fragmentHeader]; rewrite ?length_replicate; try done; try lia.
  - intros [? _]%lookup_replicate. done.
  - intros k _ [? _]%lookup_replicate. done.
Qed.

Lemma content_absorb i fb :
  Z.of_nat i < nfrags -> content fb ->
  content (absorbFragment (fst (frag i)) (snd (frag i)) fb).
Proof.
  intros Hi [C1 C2 C3 C4 C5 C6 C7]. pose proof nfrags_bounds.
  destruct (frag_payloadSize i Hi) as (E & ? & ?). destruct (frag_payload i Hi) as [Ep Lp].
  assert (Et : take (Z.to_nat (uh_payloadSize (fst (frag i)))) (snd (frag i)) = snd (frag i))
    by (apply take_ge; rewrite E; lia).
  unfold absorbFragment. rewrite Et, E, kMaxUdpPayload_Z.
  cbn [fst frag uh_fragmentIndex uh_fragmentCount fragmentHeader].
  assert (Eo : Z.to_nat (Z.of_nat i * 1100) = (i * 1100)%nat) by lia. rewrite Eo, Nat2Z.id.
  split; cbn [fb_fragmentCount fb_timestampNs fb_keyframe fb_have fb_data fb_totalSize];
    rewrite ?length_insert, ?mem_put_length by lia; try done.
  - unfold fragSize. destruct (Z.eqb_spec (Z.of_nat i + 1) nfrags).
    + lia.
    + rewrite list_lookup_insert_ne by lia. done.
  - intros k Hk Hh. rewrite mem_put_lookup by lia. rewrite Ep.
    assert (Hdiv : (k / 1100 * 1100 <= k < k / 1100 * 1100 + 1100)%nat)
      by (pose proof (Nat.div_mod_eq k 1100); pose proof (Nat.mod_upper_bound k 1100 ltac:(lia)); lia).
    rewrite length_take, length_drop. destruct (decide _) as [Hd|Hd].
    + rewrite lookup_take_lt by lia. rewrite lookup_drop. f_equal. lia.
    + destruct (decide (k / 1100 = i)%nat) as [Hki|Hki].
      * exfalso. unfold fragSize in *. destruct (Z.eqb_spec (Z.of_nat i + 1) nfrags); lia.
      * rewrite list_lookup_insert_ne in Hh by done. by apply C7.
Qed.

Lemma content_complete fb :
  content fb -> (forall i, (i < length (fb_have fb))%nat -> fb_have fb !! i = Some true) ->
  take (Z.to_nat (fb_totalSize fb)) (fb_data fb) = data.
Proof.
  intros [C1 C2 C3 C4 C5 C6 C7] Hall. pose proof nfrags_bounds.
  rewrite C6 by (apply Hall; lia). rewrite Nat2Z.id. apply list_eq. intros k.
  destruct (decide (k < length data)%nat) as [Hk|Hk].
  - rewrite lookup_take_lt by done. apply C7; [done|]. apply Hall.
    apply Nat.Div0.div_lt_upper_bound. lia.
  - rewrite lookup_take_ge by lia. symmetry. apply lookup_ge_None_2. lia.
Qed.

(** Indices [S] of the frame have arrived and it is not complete. *)
Definition tracked (S : list nat) (r : FragmentReassembler) : Prop :=
  reassembler_ok r /\
  match ra_frames r !! seqn with
  | None => S = []
  | Some fb => content fb /\ forall i, Z.of_nat i < nfrags -> (fb_have fb !! i = Some true <-> i ∈ S)
  end.

Definition allArrived (S : list nat) : Prop := forall j, Z.of_nat j < nfrags -> j ∈ S.

(** A fragment of the frame, fed to its buffer. *)
Lemma feedBuffer_own i S fb r :
  Z.of_nat i < nfrags -> buf_ok fb -> content fb ->
  (forall j, Z.of_nat j < nfrags -> (fb_have fb !! j = Some true <-> j ∈ S)) ->
  (exists r', feedBuffer (fst (frag i)) (snd (frag i)) fb r = FedOk (Some theFrame) r' /\
              allArrived (i :: S)) \/
  (exists fb', feedBuffer (fst (frag i)) (snd (frag i)) fb r = FedOk None (storeBuf seqn fb' r) /\
     content fb' /\ buf_ok fb' /\ ~ allArrived (i :: S) /\
     forall j, Z.of_nat j < nfrags -> (fb_have fb' !! j = Some true <-> j ∈ i :: S)).
Proof.
  intros Hi Hb Hc HS. pose proof nfrags_bounds. pose proof (content_absorb i fb Hi Hc) as Hc'.
  assert (Hins : forall j, Z.of_nat j < nfrags ->
            (fb_have (absorbFragment (fst (frag i)) (snd (frag i)) fb) !! j = Some true <-> j ∈ i :: S)).
  { intros j Hj. unfold absorbFragment. cbn [fb_have fst frag uh_fragmentIndex fragmentHeader].
    rewrite Nat2Z.id, elem_of_cons, <- HS by done. destruct (decide (i = j)) as [<-|Hne].
    - rewrite list_lookup_insert_eq by (destruct Hc; lia). intuition.
    - rewrite list_lookup_insert_ne by done. intuition congruence. }
  assert (Hinc : forall fb', buf_ok fb' -> content fb' -> ~ forall j, Z.of_nat j < nfrags -> fb_have fb' !! j = Some true).
  { intros fb' Hb' [C1 _ _ C4 _ _ _] Hall. destruct Hb' as [_ _ _ B4 B5 _ _].
    rewrite countTrue_full in B4; [lia|]. intros j Hj. apply Hall. lia. }
  destruct (feedBuffer_cases (fst (frag i)) (snd (frag i)) fb r (frag_frag_ok i Hi) Hb ltac:(by destruct Hc))
    as [Hd|Hn Hbs|Hn Hall]; cbn [fst frag uh_fragmentIndex fragmentHeader] in *; rewrite ?Nat2Z.id in *.
  - right. exists fb. split_and!; try done.
    + intros Hall. apply (Hinc fb Hb Hc). intros j Hj. apply HS; [done|].
      specialize (Hall j Hj). apply elem_of_cons in Hall as [->|]; [|done]. by apply HS.
    + intros j Hj. rewrite HS, elem_of_cons by done. split; [by right|].
      intros [->|]; [by apply HS|done].
  - right. eexists. split_and!; try done.
    intros Hall. apply (Hinc _ Hbs Hc'). intros j Hj. by apply Hins, Hall.
  - left. eexists. split.
    + f_equal. f_equal. unfold theFrame. f_equal; try (by destruct Hc).
      apply content_complete; [done|]. intros j Hj. apply Hall. destruct Hc, Hc'. lia.
    + intros j Hj. apply Hins; [done|]. apply Hall. destruct Hc. lia.
Qed.

(** What a fragment of the frame does: it completes the frame, or the frame
    stays tracked with one more index. *)
Definition own_outcome (i : nat) (S : list nat) (r : FragmentReassembler) (res : Fed) : Prop :=
  (exists r', res = FedOk (Some theFrame) r' /\ allArrived (i :: S)) \/
  (exists r', res = FedOk None r' /\ tracked (i :: S) r' /\
     ~ allArrived (i :: S) /\ dom (ra_frames r') ⊆ {[seqn]} ∪ dom (ra_frames r)).

Lemma feedBuffer_outcome i S fb r r0 :
  Z.of_nat i < nfrags -> reassembler_ok r ->
  ra_frames r0 = <[seqn := emptyFrameBuf]> (ra_frames r) \/ ra_frames r0 = ra_frames r ->
  feed (fst (frag i)) (snd (frag i)) r = feedBuffer (fst (frag i)) (snd (frag i)) fb r0 ->
  buf_ok fb -> content fb ->
  (forall j, Z.of_nat j < nfrags -> (fb_have fb !! j = Some true <-> j ∈ S)) ->
  own_outcome i S r (feed (fst (frag i)) (snd (frag i)) r).
Proof.
  intros Hi Hr E0 Ef Hb Hc Hj. pose proof (frag_frag_ok i Hi) as Hf.
  destruct (feedBuffer_own i S fb r0 Hi Hb Hc Hj) as [(r' & Er & Ha)|(fb' & Er & Hc' & Hb' & Hna & Hj')].
  - left. exists r'. by rewrite Ef.
  - right. eexists. rewrite Ef, Er. split_and!; try done.
    + split.
      * destruct (feed_inv _ _ r Hf Hr) as [(out & r' & E1 & Hr')|(E1 & _)]; rewrite Ef, Er in E1; [|done].
        by injection E1 as _ ->.
      * cbn. rewrite lookup_insert_eq. done.
    + cbn. rewrite dom_insert. destruct E0 as [-> | ->]; clear; set_solver.
Qed.

(** The same, through [feed]: there is room for the frame's buffer. *)
Lemma tracked_own i S r :
  Z.of_nat i < nfrags -> tracked S r ->
  (ra_frames r !! seqn = None -> Z.of_nat (size (ra_frames r)) < kMaxInFlight) ->
  own_outcome i S r (feed (fst (frag i)) (snd (frag i)) r).
Proof.
  intros Hi [Hr HS] Hroom. pose proof nfrags_bounds. pose proof (frag_frag_ok i Hi) as Hf.
  pose proof (feed_cases _ _ r Hf Hr) as C. pose proof Hr as [Hm Hs].
  inversion C as [E1 E2|fb r0 El Ec E0 E2|fb r0 El Ec E0 E2|r0 El Hfree E0 E2|k r0 El Hfull _ _ _ E0 E2|El Hfull _ E2];
    cbn [fst frag uh_fragmentCount uh_sequence fragmentHeader] in *; try lia.
  - rewrite El in HS. destruct HS as [Hc HS].
    eapply feedBuffer_outcome; [done|done|by right|symmetry; exact E2|by apply (Hm _ _ El)|done|done].
  - exfalso. rewrite El in HS. destruct HS as [[C1 _ _ _ _ _ _] _]. done.
  - rewrite El in HS. subst S.
    eapply feedBuffer_outcome; [done|done|by left|symmetry; exact E2| | |].
    + apply fresh_buf_ok. cbn [uh_fragmentCount fragmentHeader]. unfold kMaxFragments. lia.
    + apply (content_fresh i).
    + intros j Hj. split; [|by intros ?%not_elem_of_nil].
      intros [? _]%lookup_replicate. done.
  - specialize (Hroom El). lia.
  - specialize (Hroom El). lia.
Qed.

(** Fragments of other frames leave the buffer alone. *)
Lemma feedBuffer_other h p fb r k :
  k <> uh_sequence h -> frag_ok h p -> buf_ok fb -> fb_fragmentCount fb = uh_fragmentCount h ->
  exists out r', feedBuffer h p fb r = FedOk out r' /\ ra_frames r' !! k = ra_frames r !! k /\
    dom (ra_frames r') ⊆ {[uh_sequence h]} ∪ dom (ra_frames r) /\
    (forall f, out = Some f -> af_sequence f = uh_sequence h).
Proof.
  intros Hk Hok Hb Ec. destruct (feedBuffer_cases h p fb r Hok Hb Ec); eexists _, _;
    (split; [reflexivity|]); cbn; rewrite ?lookup_insert_ne, ?lookup_delete_ne, ?dom_insert, ?dom_delete by done;
    split_and!; try done; try (by intros ? [= <-]); clear; set_solver.
Qed.

Lemma tracked_other h p S r :
  seqn <> uh_sequence h -> frag_ok h p -> tracked S r ->
  (ra_frames r !! uh_sequence h = None -> Z.of_nat (size (ra_frames r)) < kMaxInFlight) ->
  exists out r', feed h p r = FedOk out r' /\ tracked S r' /\
    dom (ra_frames r') ⊆ {[uh_sequence h]} ∪ dom (ra_frames r) /\
    (forall f, out = Some f -> af_sequence f = uh_sequence h).
Proof.
  intros Hk Hok [Hr HS] Hroom. pose proof Hr as [Hm Hs]. pose proof Hok as (Hc & _).
  assert (G : exists out r', feed h p r = FedOk out r' /\ ra_frames r' !! seqn = ra_frames r !! seqn /\
    dom (ra_frames r') ⊆ {[uh_sequence h]} ∪ dom (ra_frames r) /\
    (forall f, out = Some f -> af_sequence f = uh_sequence h)).
  { destruct (Z.eqb_spec (uh_fragmentCount h) 1) as [E1|E1].
    - destruct Hok as (_ & _ & _ & Hl). unfold feed. rewrite E1, (proj2 (Z.ltb_ge _ _)) by lia.
      eexists _, _. split; [done|]. split_and!; try done; [clear; set_solver|by intros ? [= <-]].
    - destruct (feed_cases h p r Hok Hr) as
        [?|fb r0 El Ec E0|fb r0 El Ec E0|r0 El Hfree E0|k r0 El Hfull _ _ _ E0|El Hfull _]; [done|..].
      + rewrite <- E0. apply feedBuffer_other; eauto.
      + eexists _, _. split; [done|]. rewrite E0. split_and!; try done; clear; set_solver.
      + destruct (feedBuffer_other h p (freshFrameBuf h) r0 seqn) as (out & r' & -> & El' & Hd & Ho);
          [done|done|by apply fresh_buf_ok; lia|done|].
        eexists _, _. split; [done|]. rewrite El', E0, lookup_insert_ne by done.
        split_and!; try done. rewrite E0, dom_insert in Hd. clear -Hd. set_solver.
      + specialize (Hroom El). lia.
      + specialize (Hroom El). lia. }
  destruct G as (out & r' & E & El & Hd & Ho). exists out, r'. split_and!; try done.
  split; [|by rewrite El].
  destruct (feed_inv h p r Hok Hr) as [(out2 & r2 & E2 & Hr2)|(E2 & _)]; rewrite E in E2; [|done].
  by injection E2 as _ ->.
Qed.

(** What may come: a well-formed fragment of some frame, or fragment [i] of this
    one, not more than 64 sequences ahead; and garbage collection. *)
Definition op_ok (o : ReOp) : Prop :=
  match o with
  | RoFeed h p =>
      frag_ok h p /\ uh_sequence h <= seqn + 64 /\
      (uh_sequence h = seqn -> exists i, Z.of_nat i < nfrags /\ (h, p) = frag i)
  | RoGc => True
  end.

(** Indices of this frame among the arrivals. *)
Definition arrived (ops : list ReOp) : list nat :=
  omap (fun o => match o with
                 | RoFeed h _ => if uh_sequence h =? seqn then Some (Z.to_nat (uh_fragmentIndex h)) else None
                 | RoGc => None end) ops.

(** As long as some fragment is missing, and fewer than 96 buffers are in flight
    whenever a fragment comes, calls keep the frame tracked and deliver no frame
    with its sequence. *)
Lemma reRun_tracked ops S r :
  0 <= seqn -> seqn + 64 < 2 ^ 64 -> ra_highestStarted r <= seqn + 64 ->
  (forall k outs r', reRun (take k ops) r = Some (outs, r') -> Z.of_nat (inFlight r') < kMaxInFlight) ->
  Forall op_ok ops -> tracked S r -> ~ allArrived (arrived ops ++ S) ->
  exists outs r', reRun ops r = Some (outs, r') /\ ra_highestStarted r' <= seqn + 64 /\
    tracked (rev (arrived ops) ++ S) r' /\
    Forall (fun o => forall f, o = Some f -> af_sequence f <> seqn) outs.
Proof.
  intros H0 Hseq. revert S r. induction ops as [|o ops IH]; intros S r Hhi Hroom Hops Ht Hna.
  { eexists [], r. split_and!; done || by constructor. }
  apply Forall_cons_iff in Hops as [Ho Hops]. pose proof (Hroom O [] r eq_refl) as Hr.
  unfold arrived in *. destruct o as [h p|]; cbn [omap list_omap] in *.
  2: { cbn [reRun]. destruct (gcLoop_keeps (size (ra_frames r)) r seqn H0 Hseq Hhi) as [E1 E2]. apply IH; try done.
    - unfold gc. by rewrite E2.
    - intros k outs r' E. by apply (Hroom (Datatypes.S k) outs r').
    - destruct Ht as [Hok Ht]. split; [by apply gcLoop_ok|]. unfold gc. by rewrite E1. }
  destruct Ho as (Hok & Hle & Hown). cbn [reRun].
  assert (Hnext : forall out r1, feed h p r = FedOk out r1 ->
    forall k outs r', reRun (take k ops) r1 = Some (outs, r') -> Z.of_nat (inFlight r') < kMaxInFlight).
  { intros out r1 E1 k outs r' E. apply (Hroom (Datatypes.S k) (out :: outs) r'). cbn [take reRun]. by rewrite E1, E. }
  destruct (Z.eqb_spec (uh_sequence h) seqn) as [E|E].
  - destruct (Hown E) as (i & Hi & Ei). injection Ei as -> ->. cbn [uh_fragmentIndex fragmentHeader] in *. rewrite Nat2Z.id in *.
    destruct (tracked_own i S r Hi Ht (fun _ => Hr)) as [(r' & _ & Ha)|(r' & Ef & Ht' & _ & _)].
    { exfalso. apply Hna. intros j Hj. specialize (Ha j Hj). clear -Ha. set_solver. }
    cbn [fst snd frag] in Ef. rewrite Ef.
    destruct (IH (i :: S) r') as (outs & r2 & E2 & Hh2 & Ht2 & Hd); try done.
    { by eapply feed_highest. }
    { by eapply Hnext. }
    { intros Ha. apply Hna. intros j Hj. specialize (Ha j Hj). clear -Ha. set_solver. }
    rewrite E2. eexists _, _. split; [done|]. cbn [rev]. rewrite <- app_assoc. split_and!; try done. by constructor.
  - destruct (tracked_other h p S r) as (out & r' & Ef & Ht' & _ & Ho'); [done..|]. rewrite Ef.
    destruct (IH S r') as (outs & r2 & E2 & Hh2 & Ht2 & Hd); try done.
    { by eapply feed_highest. }
    { by eapply Hnext. }
    rewrite E2. eexists _, _. split_and!; try done. constructor; [|done]. intros f Hf. by rewrite (Ho' f Hf).
Qed.

End Genuine.

(** * Theorems *)

(** C8: reassembly in any order: in a reassembler that holds no buffer of the frame
    yet, let the fragments of a frame of 2 to 1024 fragments arrive in any order,
    with repeats, between well-formed fragments of other frames and garbage
    collections. As long as a fragment of the frame is missing nothing is delivered
    under its sequence and every call is defined, and the arrival that supplies the
    last missing fragment delivers exactly the frame that was sent; provided fewer
    than 96 buffers are in flight whenever a fragment arrives (a 97th evicts the
    oldest) and nothing started is more than 64 sequences ahead of the frame (the
    collection drops what is further behind). *)
Theorem reassembly_any_order type keyframe sessionId seqn ts data r0 pre h p
  (Hsize : 1100 < zlen data <= 1024 * 1100) (H0 : 0 <= seqn) (Hseq : seqn + 64 < 2 ^ 64)
  (Hr0 : reassembler_ok r0) (Hnew : ra_frames r0 !! seqn = None) (Hhi : ra_highestStarted r0 <= seqn + 64)
  (Hops : Forall (op_ok type keyframe sessionId seqn ts data) (pre ++ [RoFeed h p]))
  (Hroom : forall k outs r, reRun (take k pre) r0 = Some (outs, r) -> Z.of_nat (inFlight r) < kMaxInFlight)
  (Hmiss : ~ allArrived data (arrived seqn pre))
  (Hall : allArrived data (arrived seqn (pre ++ [RoFeed h p]))) :
  exists outs r r', reRun pre r0 = Some (outs, r) /\
    feed h p r = FedOk (Some (theFrame type keyframe sessionId seqn ts data)) r' /\
    Forall (fun o => forall f, o = Some f -> af_sequence f <> seqn) outs.
Proof.
  apply Forall_app in Hops as [Hpre [Hev _]%Forall_cons_iff].
  destruct (reRun_tracked type keyframe sessionId seqn ts data Hsize pre [] r0) as (outs & r & E & Hh & Ht & Ho); try done.
  { split; [done|by rewrite Hnew]. }
  { by rewrite app_nil_r. }
  rewrite app_nil_r in Ht. destruct Hev as (Hok & Hle & Hown).
  assert (Hs : uh_sequence h = seqn).
  { destruct (decide (uh_sequence h = seqn)) as [|Hne]; [done|]. exfalso. apply Hmiss.
    unfold arrived in *. rewrite omap_app in Hall. cbn [omap list_omap] in Hall.
    rewrite (proj2 (Z.eqb_neq _ _) Hne), app_nil_r in Hall. done. }
  destruct (Hown Hs) as (i & Hi & Ei). injection Ei as -> ->.
  assert (Hr : Z.of_nat (inFlight r) < kMaxInFlight) by (apply (Hroom (length pre) outs r); by rewrite take_ge).
  destruct (tracked_own type keyframe sessionId seqn ts data Hsize i _ r Hi Ht (fun _ => Hr))
    as [(r' & Er & _)|(r' & _ & _ & Hna & _)]; [by exists outs, r, r'|].
  exfalso. apply Hna. intros j Hj. specialize (Hall j Hj). revert Hall. unfold arrived.
  rewrite omap_app. cbn [omap list_omap fst frag uh_sequence uh_fragmentIndex fragmentHeader].
  rewrite Z.eqb_refl, Nat2Z.id, elem_of_app, list_elem_of_singleton, elem_of_cons.
  intros [Hj1| ->]; [right|by left].
  by rewrite list_elem_of_In, <- in_rev, <- list_elem_of_In.
Qed.

(** The last fragment, a fragment of another frame, a garbage collection, a repeat,
    then the first fragment. *)
Definition sample_data : bytes := replicate 1103 7.
Definition sample_other : UdpHeader := mkUdpHeader kUdpMagic kUdpVersion 0 1 9 40 0 2 78 1.
Definition sample_frag (i : nat) : ReOp := uncurry RoFeed (frag 0 true 9 5 77 sample_data i).
Definition sample_ops : list ReOp := [sample_frag 1; RoFeed sample_other [1]; RoGc; sample_frag 1].

Lemma reassembly_any_order_witness :
  exists outs r r', reRun sample_ops (newReassembler 0) = Some (outs, r) /\
    feed (fst (frag 0 true 9 5 77 sample_data 0)) (snd (frag 0 true 9 5 77 sample_data 0)) r
      = FedOk (Some (theFrame 0 true 9 5 77 sample_data)) r' /\
    Forall (fun o => forall f, o = Some f -> af_sequence f <> 5) outs.
Proof.
  assert (A : forall i, (i = 0 \/ i = 1)%nat -> op_ok 0 true 9 5 77 sample_data (sample_frag i)).
  { intros i Hi. split; [destruct Hi as [-> | ->]; by_decision|]. split; [destruct Hi as [-> | ->]; by_decision|].
    intros _. exists i. split; [|done]. destruct Hi as [-> | ->]; vm_compute; reflexivity. }
  apply (reassembly_any_order 0 true 9 5 77 sample_data (newReassembler 0) sample_ops).
  - by_decision.
  - lia.
  - lia.
  - split; [apply map_Forall_empty|by_decision].
  - reflexivity.
  - by_decision.
  - unfold sample_ops. cbn [app].
    apply Forall_cons_2; [apply A; by right|]. apply Forall_cons_2; [split; [by_decision|]; split; [by_decision|intros X; discriminate X]|].
    apply Forall_cons_2; [exact I|]. apply Forall_cons_2; [apply A; by right|]. apply Forall_cons_2; [apply A; by left|apply Forall_nil_2].
  - assert (B : forallb (fun k => match reRun (take k sample_ops) (newReassembler 0) with
                                  | Some (_, r) => Z.of_nat (inFlight r) <? kMaxInFlight | None => true end) (seq 0 5) = true)
      by (vm_compute; reflexivity).
    intros k outs r E. rewrite forallb_forall in B. assert (Et : take k sample_ops = take (Nat.min k 4) sample_ops).
    { destruct (Nat.le_gt_cases k 4); [by rewrite Nat.min_l|]. rewrite Nat.min_r, !take_ge by (cbn; lia). done. }
    specialize (B (Nat.min k 4)). rewrite <- Et, E in B. apply Z.ltb_lt, B, in_seq. lia.
  - intros H. specialize (H 0%nat ltac:(vm_compute; reflexivity)).
    revert H. change (~ (0%nat ∈ arrived 5 sample_ops)). by_decision.
  - intros j Hj. assert (Hj2 : (j < 2)%nat) by (change (Z.of_nat j < 2) in Hj; lia).
    destruct j as [|[|j]]; [by_decision|by_decision|lia].
Defined.

(** C36: memory safety of the reassembler: for a fragment of at most 1100 payload
    bytes that is not older than every buffer of a full table, feeding it and
    collecting garbage is defined, keeps at most 96 buffers, and keeps every
    buffer at 1100 bytes and one flag per fragment, with the number of received
    fragments counted exactly. *)
Theorem feed_memory_safe h p r
  (Hok : frag_ok h p) (Hr : reassembler_ok r)
  (Hroom : Z.of_nat (inFlight r) < kMaxInFlight \/
           exists k, is_Some (ra_frames r !! k) /\ k <= uh_sequence h) :
  exists out r', feed h p r = FedOk out r' /\ reassembler_ok r' /\ reassembler_ok (gc r').
Proof.
  destruct (feed_inv h p r Hok Hr) as [(out & r' & E & Hr')|(_ & Hn & Hf & Hlt)].
  - exists out, r'. split_and!; [done|done|]. by apply gcLoop_ok.
  - exfalso. unfold inFlight in Hroom. destruct Hroom as [|(k & Hk & Hle)]; [lia|].
    specialize (Hlt k Hk). lia.
Qed.

Definition sample_fragment : UdpHeader := mkUdpHeader kUdpMagic kUdpVersion 0 1 9 5 0 2 77 3.

Lemma feed_memory_safe_witness :
  exists out r', feed sample_fragment [1; 2; 3] (newReassembler 0) = FedOk out r' /\
    reassembler_ok r' /\ reassembler_ok (gc r').
Proof.
  apply (feed_memory_safe sample_fragment [1; 2; 3] (newReassembler 0)).
  - by_decision.
  - split; [apply map_Forall_empty|by_decision].
  - left. by_decision.
Defined.

(** The decoder bounds a fragment's payload only by the datagram, and the
    reassembler copies it into a buffer of 1100 bytes per fragment: a valid last
    fragment of 1101 bytes overflows the buffer. *)
Theorem feed_overflow :
  let h := mkUdpHeader kUdpMagic kUdpVersion 0 1 9 5 1 2 77 1101 in
  let payload := replicate 1101 0 in
  let datagram := header_bytes h ++ payload in
  decodeUdpHeader datagram (zlen datagram) defaultUdpHeader = (true, h) /\
  feed h payload (newReassembler 0) = FedUB BufferOverflow.
Proof. vm_compute. done. Qed.

(** When 96 frames are in flight and a fragment older than all of them
    arrives, the eviction erases the buffer just created for it, and the call
    goes on through the dangling reference. *)
Theorem feed_dangling_buffer :
  let h s := mkUdpHeader kUdpMagic kUdpVersion 0 1 9 s 0 2 77 1 in
  let pre := (fun s : nat => RoFeed (h (Z.of_nat s)) [0]) <$> seq 1 96 in
  (outs_r ← reRun pre (newReassembler 0); Some (inFlight (snd outs_r))) = Some 96%nat /\
  (outs_r ← reRun pre (newReassembler 0); Some (feed (h 0) [0] (snd outs_r)))
    = Some (FedUB UseAfterErase).
Proof. vm_compute. done. Qed.

(** Garbage collection removes exactly the buffers more than 64 sequences
    behind the newest started frame and counts each of them as dropped. *)
Theorem gc_spec r
  (Hd : fits 64 (ra_droppedIncomplete r)) (Hk : map_Forall (fun k _ => key_ok k) (ra_frames r)) :
  let kept := filter (fresh_enough (ra_highestStarted r)) (ra_frames r) in
  gc r = mkReassembler (ra_type r) kept (ra_highestStarted r) (ra_initialized r)
    (u64 (ra_droppedIncomplete r + (Z.of_nat (inFlight r) - Z.of_nat (size kept)))) (ra_completed r).
Proof. by apply gcLoop_spec. Qed.

Lemma gc_spec_witness :
  inFlight (gc (mkReassembler 0 {[ 3 := emptyFrameBuf; 90 := emptyFrameBuf ]} 100 true 0 0)) = 1%nat.
Proof.
  rewrite (gc_spec (mkReassembler 0 {[ 3 := emptyFrameBuf; 90 := emptyFrameBuf ]} 100 true 0 0)).
  - vm_compute. reflexivity.
  - by_decision.
  - apply map_Forall_insert_2; [|apply map_Forall_singleton]; unfold key_ok; lia.
Defined.

(** The datagrams of a frame: there is one per 1100 bytes, the receiver
    decodes each to the header the sender built, the payload behind the header is
    that fragment, and the fragments concatenate to the frame. *)
Theorem sendFrame_fragments type keyframe sessionId seqn ts data junk
  (Hsize : 1100 < zlen data <= 1024 * 1100)
  (Hty : 0 <= type <= 8) (Hsid : fits 32 sessionId) (Hseq : fits 64 seqn) (Hts : fits 64 ts) :
  let dgs := frameDatagrams type keyframe sessionId seqn ts data in
  zlen dgs = (zlen data + 1099) / 1100 /\
  (forall i dg, dgs !! i = Some dg ->
     decodeUdpHeader dg (zlen dg) junk = (true, fst (frag type keyframe sessionId seqn ts data i)) /\
     drop kUdpHeaderSize dg = snd (frag type keyframe sessionId seqn ts data i)) /\
  concat (drop kUdpHeaderSize <$> dgs) = data.
Proof.
  intros dgs. pose proof (nfrags_bounds data Hsize) as Hn.
  assert (Hdrop : forall h p, drop kUdpHeaderSize (header_bytes h ++ p) = p)
    by (intros; rewrite <- (header_bytes_length h); apply drop_app_length).
  subst dgs. rewrite frame_datagrams by done. split_and!.
  - rewrite length_fmap, length_seq. rewrite Z2Nat.id by lia. apply fragmentCountFor_ceil. lia.
  - intros i dg Hi. rewrite list_lookup_fmap in Hi.
    destruct (seq 0 (Z.to_nat (nfrags data)) !! i) as [j|] eqn:Ej; [|done].
    apply Some_inj in Hi. subst dg. apply lookup_seq in Ej as [-> Hi]. rewrite Nat.add_0_l, Hdrop. split; [|done].
    destruct (frag_header_ok type keyframe sessionId seqn ts data Hsize i) as [Ht Hv]; try done; [lia|].
    apply decode_header_bytes; [done|done|].
    destruct (frag_payload type keyframe sessionId seqn ts data Hsize i ltac:(lia)) as [_ ->].
    destruct (frag_payloadSize type keyframe sessionId seqn ts data Hsize i ltac:(lia)) as (-> & _). lia.
  - rewrite <- list_fmap_compose.
    etransitivity; [|apply (chunks_concat 1100 (Z.to_nat (nfrags data)) data); lia]. f_equal. apply list_fmap_ext. intros k i Hi%lookup_seq. unfold compose. rewrite Hdrop.
    apply frag_chunk; [done|lia].
Qed.

Lemma sendFrame_fragments_witness :
  concat (drop kUdpHeaderSize <$> frameDatagrams 0 true 9 5 77 sample_data) = sample_data.
Proof.
  refine (proj2 (proj2 (sendFrame_fragments 0 true 9 5 77 sample_data defaultUdpHeader _ _ _ _ _)));
    by_decision.
Defined.
