(* ===== verification/JitterBuffer.v ===== *)
(** networking/UdpProtocol.h and UdpProtocol.cpp, fourth part: the jitter buffer
    that orders completed frames and releases them after a delay
    ([class JitterBuffer]). The deque is a list; the insertion loop swaps by
    index as the code does. *)

From stdpp Require Import sorting.
From S2P Require Import Prelude Reassembler.

(** * Data *)

Record Entry := mkEntry { en_frame : AssembledFrame; en_arriveNs : Z }.

Definition en_seq (e : Entry) : Z := af_sequence (en_frame e).

Record JitterBuffer := mkJitter {
  jb_queue : list Entry; jb_targetMs : Z; jb_reordered : Z; jb_overflowDropped : Z;
  jb_lastPoppedSequence : Z; jb_initialized : bool }.

Definition kHighWatermark : Z := 8.

Definition newJitterBuffer (initialTargetMs : Z) : JitterBuffer :=
  mkJitter [] initialTargetMs 0 0 0 false.

Definition setTargetMs (ms : Z) (b : JitterBuffer) : JitterBuffer :=
  mkJitter (jb_queue b) ms (jb_reordered b) (jb_overflowDropped b) (jb_lastPoppedSequence b)
    (jb_initialized b).

Definition resetJitter (b : JitterBuffer) : JitterBuffer :=
  mkJitter [] (jb_targetMs b) 0 0 0 false.

(** * push *)

(** [while (queue_.size() >= kHighWatermark * 2) ...pop_front()]. *)
Fixpoint dropOldest (fuel : nat) (q : list Entry) (dropped : Z) : list Entry * Z :=
  match fuel with
  | O => (q, dropped)
  | S fuel =>
      if kHighWatermark * 2 <=? zlen q then dropOldest fuel (drop 1 q) (u64 (dropped + 1))
      else (q, dropped)
  end.

(** [for (i = size - 1; i > 0; --i)]: swap while out of order. *)
Fixpoint bubble (i : nat) (q : list Entry) : list Entry :=
  match i with
  | O => q
  | S j =>
      match q !! S j, q !! j with
      | Some a, Some b => if en_seq a <? en_seq b then bubble j (<[S j := b]> (<[j := a]> q)) else q
      | _, _ => q
      end
  end.

Definition push (frame : AssembledFrame) (nowNs : Z) (b : JitterBuffer) : JitterBuffer :=
  if jb_initialized b && (af_sequence frame <=? jb_lastPoppedSequence b) &&
     (0 <? jb_lastPoppedSequence b) then
    mkJitter (jb_queue b) (jb_targetMs b) (u64 (jb_reordered b + 1)) (jb_overflowDropped b)
      (jb_lastPoppedSequence b) (jb_initialized b)
  else
    let '(q, dropped) := dropOldest (length (jb_queue b)) (jb_queue b) (jb_overflowDropped b) in
    let q := q ++ [mkEntry frame nowNs] in
    mkJitter (bubble (length q - 1) q) (jb_targetMs b) (jb_reordered b) dropped
      (jb_lastPoppedSequence b) (jb_initialized b).

(** * pop *)

(** The condition under which the head leaves the queue. *)
Definition waitedNs (nowNs : Z) (e : Entry) : Z :=
  if en_arriveNs e <? nowNs then nowNs - en_arriveNs e else 0.

Definition headReady (nowNs : Z) (front : Entry) (b : JitterBuffer) : bool :=
  let waited := waitedNs nowNs front in
  let waitedEnough := u64 (jb_targetMs b * 1000000) <=? waited in
  let overflow := kHighWatermark <? zlen (jb_queue b) in
  let gapAhead := jb_initialized b && (u64 (jb_lastPoppedSequence b + 1) <? en_seq front) in
  waitedEnough || overflow || (gapAhead && (jb_targetMs b / 2 <=? waited)).

Fixpoint popLoop (fuel : nat) (nowNs : Z) (b : JitterBuffer) : list AssembledFrame * JitterBuffer :=
  match fuel, jb_queue b with
  | S fuel, front :: rest =>
      if headReady nowNs front b then
        let '(out, b') := popLoop fuel nowNs
          (mkJitter rest (jb_targetMs b) (jb_reordered b) (jb_overflowDropped b) (en_seq front) true) in
        (en_frame front :: out, b')
      else ([], b)
  | _, _ => ([], b)
  end.

Definition pop (nowNs : Z) (b : JitterBuffer) : list AssembledFrame * JitterBuffer :=
  popLoop (length (jb_queue b)) nowNs b.

(** * Order *)

Definition seq_le (x y : Entry) : Prop := en_seq x <= en_seq y.

#[export] Instance seq_le_trans : Transitive seq_le.
Proof. intros x y z. unfold seq_le. lia. Qed.

Definition queue_sorted (q : list Entry) : Prop := StronglySorted seq_le q.

(** The loop moves the new entry left past exactly the entries newer than it. *)
Lemma bubble_spec q e post :
  exists a b, q = a ++ b /\ bubble (length q) (q ++ e :: post) = a ++ e :: b ++ post /\
    Forall (fun x => en_seq e < en_seq x) b /\
    (forall a' x, a = a' ++ [x] -> en_seq x <= en_seq e).
Proof.
  revert post. induction q as [|x q IH] using rev_ind; intros post.
  { exists [], []. split_and!; try done. by intros [|? ?] ? ?. }
  rewrite length_app, Nat.add_1_r, <- app_assoc. cbn [app bubble].
  assert (Ex : (q ++ x :: e :: post) !! length q = Some x) by apply lookup_mid.
  assert (Ee : (q ++ x :: e :: post) !! S (length q) = Some e).
  { replace (q ++ x :: e :: post) with ((q ++ [x]) ++ e :: post) by (by rewrite <- app_assoc).
    replace (S (length q)) with (length (q ++ [x])) by (rewrite length_app; cbn; lia).
    apply lookup_mid. }
  rewrite Ex, Ee. destruct (Z.ltb_spec (en_seq e) (en_seq x)) as [Hlt|Hge].
  - assert (Esw : <[S (length q) := x]> (<[length q := e]> (q ++ x :: e :: post)) = q ++ e :: x :: post).
    { rewrite insert_app_r_alt, Nat.sub_diag by lia. cbn [insert list_insert].
      rewrite insert_app_r_alt by lia. by replace (S (length q) - length q)%nat with 1%nat by lia. }
    rewrite Esw. destruct (IH (x :: post)) as (a & b & -> & E & Hb & Ha).
    exists a, (b ++ [x]). rewrite E, <- !app_assoc. split_and!; try done.
    apply Forall_app. split; [done|]. by constructor.
  - exists (q ++ [x]), []. rewrite app_nil_r, <- app_assoc. split_and!; try done.
    intros a' y [_ [= ->]]%app_inj_tail_iff || (intros a' y E; apply app_inj_tail in E as [_ ->]). done.
Qed.

Lemma push_queue q e :
  let q' := q ++ [e] in
  exists a b, q = a ++ b /\ bubble (length q' - 1) q' = a ++ e :: b /\
    Forall (fun x => en_seq e < en_seq x) b /\
    (forall a' x, a = a' ++ [x] -> en_seq x <= en_seq e).
Proof.
  cbn zeta. rewrite length_app, Nat.add_sub. destruct (bubble_spec q e []) as (a & b & ? & E & ?).
  exists a, b. rewrite E, app_nil_r. done.
Qed.

(** ** Invariant *)

Record jitter_ok (b : JitterBuffer) : Prop := {
  jo_sorted : queue_sorted (jb_queue b);
  jo_length : (length (jb_queue b) <= 16)%nat;
  jo_last : 0 <= jb_lastPoppedSequence b;
  jo_ahead : jb_initialized b = true ->
    Forall (fun e => jb_lastPoppedSequence b <= en_seq e) (jb_queue b) }.

Lemma dropOldest_spec n q d :
  length q = n -> (n <= 16)%nat -> fits 64 d ->
  exists k, dropOldest n q d = (drop k q, u64 (d + Z.of_nat k)) /\
    (length (drop k q) <= 15)%nat /\ (k <= length q)%nat.
Proof.
  intros Hn Hle Hd. destruct n as [|n].
  { exists 0%nat. cbn [dropOldest]. rewrite Z.add_0_r, u64_id, drop_0 by done. split_and!; done || lia. }
  cbn [dropOldest]. unfold kHighWatermark. destruct (Z.leb_spec (8 * 2) (zlen q)).
  - exists 1%nat. rewrite length_drop. split_and!; [|lia|lia]. destruct n; [done|]. cbn [dropOldest].
    rewrite (proj2 (Z.leb_gt _ _)); [done|]. unfold kHighWatermark. rewrite length_drop. lia.
  - exists 0%nat. rewrite drop_0, Z.add_0_r, u64_id by done. split_and!; done || lia.
Qed.

Lemma sorted_insert a b e :
  queue_sorted (a ++ b) -> Forall (fun x => en_seq e < en_seq x) b ->
  (forall a' x, a = a' ++ [x] -> en_seq x <= en_seq e) -> queue_sorted (a ++ e :: b).
Proof.
  unfold queue_sorted. rewrite !StronglySorted_app, StronglySorted_cons, Forall_forall.
  intros (Hab & Ha & Hb) He Hl. split_and!; try done.
  - intros x y Hx [->|Hy]%elem_of_cons; [|by apply Hab].
    destruct a as [|z a' _] using rev_ind; [by apply not_elem_of_nil in Hx|].
    specialize (Hl a' z eq_refl). apply StronglySorted_app in Ha as (Hz & _ & _).
    apply elem_of_app in Hx as [Hx| ->%list_elem_of_singleton]; [|done].
    specialize (Hz x z Hx ltac:(set_solver)). unfold seq_le in *. lia.
  - rewrite Forall_forall. intros y Hy. specialize (He y Hy). unfold seq_le. lia.
Qed.

(** [push] in one equation: rejection, or removal of the oldest entries and a
    sorted insertion. *)
Lemma push_cases f now b :
  jitter_ok b -> fits 64 (jb_overflowDropped b) ->
  (jb_initialized b = true /\ af_sequence f <= jb_lastPoppedSequence b /\ 0 < jb_lastPoppedSequence b /\
   push f now b = mkJitter (jb_queue b) (jb_targetMs b) (u64 (jb_reordered b + 1)) (jb_overflowDropped b)
                    (jb_lastPoppedSequence b) (jb_initialized b)) \/
  ((jb_initialized b = true -> jb_lastPoppedSequence b < af_sequence f \/ jb_lastPoppedSequence b = 0) /\
   exists k q1 q2, drop k (jb_queue b) = q1 ++ q2 /\ (length (q1 ++ q2) <= 15)%nat /\
     (k <= length (jb_queue b))%nat /\ queue_sorted (q1 ++ mkEntry f now :: q2) /\
     push f now b = mkJitter (q1 ++ mkEntry f now :: q2) (jb_targetMs b) (jb_reordered b)
                      (u64 (jb_overflowDropped b + Z.of_nat k)) (jb_lastPoppedSequence b) (jb_initialized b)).
Proof.
  intros [Hs Hl Hlast _] Hd. unfold push.
  destruct (jb_initialized b && (af_sequence f <=? jb_lastPoppedSequence b) &&
            (0 <? jb_lastPoppedSequence b)) eqn:E.
  { left. b2p. done. }
  right. split.
  { intros Hi. rewrite Hi in E. cbn in E. b2p. destruct E; b2p; lia. }
  destruct (dropOldest_spec _ (jb_queue b) (jb_overflowDropped b) eq_refl Hl Hd) as (k & -> & Hk & Hk').
  destruct (push_queue (drop k (jb_queue b)) (mkEntry f now)) as (q1 & q2 & Eq & -> & H2 & H1).
  exists k, q1, q2. rewrite <- Eq. split_and!; try done.
  apply sorted_insert; [|done|done]. rewrite <- Eq. unfold queue_sorted in *.
  rewrite <- (take_drop k (jb_queue b)) in Hs. by apply StronglySorted_app_1_r in Hs.
Qed.

Lemma push_ok f now b :
  jitter_ok b -> fits 64 (jb_overflowDropped b) -> 0 <= af_sequence f -> jitter_ok (push f now b).
Proof.
  intros Hb Hd Hf. pose proof Hb as [Hs Hl Hlast Ha].
  destruct (push_cases f now b Hb Hd) as [(_ & _ & _ & ->)|(Hi & k & q1 & q2 & Eq & Hl' & Hk & Hs' & ->)];
    [by split|].
  split; cbn [jb_queue jb_lastPoppedSequence jb_initialized]; try done.
  - rewrite length_app in *. cbn [length]. lia.
  - intros Ei. specialize (Hi Ei). specialize (Ha Ei).
    assert (Hd' : Forall (fun e => jb_lastPoppedSequence b <= en_seq e) (q1 ++ q2))
      by (rewrite <- Eq; by apply Forall_drop).
    apply Forall_app in Hd' as [H1 H2]. apply Forall_app. split; [done|]. constructor; [|done].
    cbn. unfold en_seq. cbn. lia.
Qed.

(** What [popLoop] returns: a prefix of the queue. *)
Record popped (b : JitterBuffer) (out : list AssembledFrame) (b' : JitterBuffer) : Prop := {
  po_split : exists q, jb_queue b = q ++ jb_queue b' /\ out = en_frame <$> q;
  po_ok : jitter_ok b';
  po_target : jb_targetMs b' = jb_targetMs b;
  po_reordered : jb_reordered b' = jb_reordered b;
  po_overflow : jb_overflowDropped b' = jb_overflowDropped b;
  po_last : (out = [] /\ b' = b) \/
            (jb_initialized b' = true /\ exists o f, out = o ++ [f] /\ jb_lastPoppedSequence b' = af_sequence f) }.

Lemma popLoop_popped n now b :
  jitter_ok b -> Forall (fun e => 0 <= en_seq e) (jb_queue b) ->
  popped b (fst (popLoop n now b)) (snd (popLoop n now b)).
Proof.
  revert b. induction n as [|n IH]; intros b Hb Hpos.
  { split; try done; [by exists []|by left]. }
  cbn [popLoop]. destruct (jb_queue b) as [|front rest] eqn:Eq.
  { split; try done; [exists []; by rewrite Eq|by left]. }
  destruct (headReady now front b).
  2:{ split; try done; [exists []; by rewrite Eq|by left]. }
  destruct Hb as [Hs Hl _ _]. rewrite Eq in Hs, Hl.
  apply StronglySorted_cons in Hs as [Hf Hs]. apply Forall_cons_iff in Hpos as [Hf0 Hpos].
  set (b1 := mkJitter rest _ _ _ _ _). destruct (IH b1) as [(q & Eq1 & Eo) H2 H3 H4 H5 H6].
  { split; cbn; try done. cbn in Hl. lia. }
  { done. }
  destruct (popLoop n now b1) as [out b'] eqn:Ep. cbn [fst snd] in *. split; try done.
  - exists (front :: q). rewrite Eq. cbn in Eq1. rewrite Eq1, Eo. done.
  - right. destruct H6 as [[-> ->]|[Hi (o & f & -> & El)]].
    + split; [done|]. by exists [], (en_frame front).
    + split; [done|]. by exists (en_frame front :: o), f.
Qed.

Lemma popLoop_stops n now b :
  n = length (jb_queue b) ->
  let b' := snd (popLoop n now b) in
  match jb_queue b' with [] => True | front :: _ => headReady now front b' = false end.
Proof.
  revert b. induction n as [|n IH]; intros b Hn; cbn zeta; cbn [popLoop].
  { destruct (jb_queue b) eqn:E; [|discriminate Hn]. cbn [snd]. by rewrite E. }
  destruct (jb_queue b) as [|front rest] eqn:Eq; [discriminate Hn|].
  destruct (headReady now front b) eqn:Er; [|cbn [snd]; by rewrite Eq].
  set (b1 := mkJitter rest _ _ _ _ _). injection Hn as Hn. specialize (IH b1 Hn).
  by destruct (popLoop n now b1).
Qed.

(** ** Runs *)

(** What the transport does with its buffer: push a completed frame, poll. *)
Inductive JitterOp :=
| OpPush (f : AssembledFrame) (nowNs : Z)
| OpPop (nowNs : Z).

Definition jitterStep (op : JitterOp) (b : JitterBuffer) : list AssembledFrame * JitterBuffer :=
  match op with
  | OpPush f now => ([], push f now b)
  | OpPop now => pop now b
  end.

Fixpoint jitterRun (ops : list JitterOp) (b : JitterBuffer) : list AssembledFrame * JitterBuffer :=
  match ops with
  | [] => ([], b)
  | op :: ops =>
      let '(out, b) := jitterStep op b in
      let '(outs, b) := jitterRun ops b in (out ++ outs, b)
  end.

Definition op_typed (op : JitterOp) : Prop :=
  match op with OpPush f _ => fits 64 (af_sequence f) | OpPop _ => True end.

#[export] Instance op_typed_dec op : Decision (op_typed op).
Proof. destruct op; apply _. Defined.

Definition frame_le (f g : AssembledFrame) : Prop := af_sequence f <= af_sequence g.

#[export] Instance frame_le_dec f g : Decision (frame_le f g).
Proof. unfold frame_le. apply _. Defined.

Definition pushes (ops : list JitterOp) : nat :=
  length (List.filter (fun op => match op with OpPush _ _ => true | OpPop _ => false end) ops).

(** Sequences are non-negative and the drop counter has its width. *)
Definition jitter_typed (b : JitterBuffer) : Prop :=
  Forall (fun e => 0 <= en_seq e) (jb_queue b) /\ fits 64 (jb_overflowDropped b) /\
  fits 64 (jb_reordered b).

Lemma step_ok op b :
  jitter_ok b -> jitter_typed b -> op_typed op ->
  jitter_ok (snd (jitterStep op b)) /\ jitter_typed (snd (jitterStep op b)).
Proof.
  intros Hb (Hq & Ho & Hr) Hop. destruct op as [f now|now]; cbn [jitterStep snd op_typed] in *.
  - split; [apply push_ok; try done; apply Hop|].
    destruct (push_cases f now b Hb Ho) as [(_ & _ & _ & ->)|(_ & k & q1 & q2 & Eq & _ & _ & _ & ->)].
    { split_and!; cbn; auto using u64_fits. }
    assert (Hd : Forall (fun e => 0 <= en_seq e) (q1 ++ q2)) by (rewrite <- Eq; by apply Forall_drop).
    apply Forall_app in Hd as [H1 H2].
    split_and!; cbn [jb_queue jb_overflowDropped jb_reordered]; auto using u64_fits.
    apply Forall_app. split; [done|]. constructor; [|done]. apply Hop.
  - unfold pop. destruct (popLoop_popped (length (jb_queue b)) now b Hb Hq) as [(q & Eq & _) H2 _ H4 H5 _].
    split; [done|]. unfold jitter_typed. rewrite H4, H5. split_and!; try done.
    rewrite Eq in Hq. by apply Forall_app in Hq as [_ ?].
Qed.

Lemma last_popped_max (q q' : list Entry) f :
  queue_sorted (q ++ q') -> (exists o, en_frame <$> q = o ++ [f]) ->
  Forall (fun g => frame_le g f) (en_frame <$> q).
Proof.
  intros Hs (o & E). apply StronglySorted_app_1_l in Hs.
  destruct q as [|e q _] using rev_ind; [by destruct o|].
  rewrite fmap_app in *. cbn in E. apply app_inj_tail in E as [_ <-].
  apply StronglySorted_app in Hs as (Hz & _ & _). apply Forall_app. split; [|constructor; [unfold frame_le; lia|constructor]].
  apply Forall_fmap, list.Forall_forall. intros x Hx. apply (Hz x e); [done|apply list_elem_of_here].
Qed.

Lemma run_sorted ops b :
  jitter_ok b -> jitter_typed b -> Forall op_typed ops ->
  StronglySorted frame_le (fst (jitterRun ops b)) /\
  (jb_initialized b = true ->
   Forall (fun f => jb_lastPoppedSequence b <= af_sequence f) (fst (jitterRun ops b))).
Proof.
  revert b. induction ops as [|op ops IH]; intros b Hb Ht Hops.
  { split; [constructor|intros _; constructor]. }
  apply Forall_cons_iff in Hops as [Hop Hops].
  destruct (step_ok op b Hb Ht Hop) as [Hb' Ht'].
  specialize (IH (snd (jitterStep op b)) Hb' Ht' Hops). cbn [jitterRun].
  destruct (jitterStep op b) as [out b'] eqn:Es. cbn [snd] in *.
  destruct (jitterRun ops b') as [outs b2] eqn:Er. cbn [fst] in *. destruct IH as [IHs IHl].
  destruct op as [f now|now]; cbn [jitterStep] in Es.
  - injection Es as <- <-. split; [done|]. intros Hi. cbn [app].
    destruct (push_cases f now b Hb (proj1 (proj2 Ht))) as [(_ & _ & _ & E)|(_ & k & q1 & q2 & _ & _ & _ & _ & E)];
      rewrite E in IHl; by apply IHl.
  - unfold pop in Es. pose proof (popLoop_popped (length (jb_queue b)) now b Hb (proj1 Ht)) as P.
    rewrite Es in P. cbn [fst snd] in P. destruct P as [(q & Eq & ->) _ _ _ _ Hl].
    destruct Hb as [Hs _ _ Ha]. rewrite Eq in Hs, Ha.
    assert (Hql : jb_initialized b = true ->
                  Forall (fun f => jb_lastPoppedSequence b <= af_sequence f) (en_frame <$> q)).
    { intros Hi. specialize (Ha Hi). apply Forall_app in Ha as [Ha _]. by apply Forall_fmap. }
    assert (Hqs : StronglySorted frame_le (en_frame <$> q)).
    { apply StronglySorted_app_1_l in Hs. clear -Hs. induction Hs as [|x l _ IH Hx]; [constructor|].
      cbn. constructor; [done|]. by apply Forall_fmap. }
    destruct Hl as [[En ->]|[Hi (o & f & Eo & El)]].
    { rewrite En. by split. }
    specialize (IHl Hi). rewrite El in IHl.
    pose proof (last_popped_max q (jb_queue b') f Hs (ex_intro _ o Eo)) as Hmax.
    split.
    + apply StronglySorted_app. split_and!; try done. intros x y Hx Hy.
      rewrite list.Forall_forall in Hmax, IHl. specialize (Hmax x Hx). specialize (IHl y Hy).
      unfold frame_le in *. lia.
    + intros Hi0. specialize (Hql Hi0). apply Forall_app. split; [done|].
      eapply list.Forall_impl; [exact IHl|]. intros y Hy.
      assert (Hf : f ∈ en_frame <$> q) by (rewrite Eo; set_solver).
      rewrite list.Forall_forall in Hql. specialize (Hql f Hf). cbn beta in *. lia.
Qed.

Lemma run_ok ops b :
  jitter_ok b -> jitter_typed b -> Forall op_typed ops ->
  jitter_ok (snd (jitterRun ops b)) /\ jitter_typed (snd (jitterRun ops b)).
Proof.
  revert b. induction ops as [|op ops IH]; intros b Hb Ht Hops; [done|].
  apply Forall_cons_iff in Hops as [Hop Hops].
  destruct (step_ok op b Hb Ht Hop) as [Hb' Ht'].
  specialize (IH (snd (jitterStep op b)) Hb' Ht' Hops). cbn [jitterRun].
  destruct (jitterStep op b) as [out b']. cbn [snd] in *.
  by destruct (jitterRun ops b').
Qed.

(** Frames in the queue, delivered, rejected and dropped add up. *)
Definition accountedFrames (b : JitterBuffer) : Z :=
  zlen (jb_queue b) + jb_reordered b + jb_overflowDropped b.

Lemma step_accounted op b n :
  jitter_ok b -> jitter_typed b -> op_typed op -> accountedFrames b <= n -> n < 2 ^ 64 - 1 ->
  zlen (fst (jitterStep op b)) + accountedFrames (snd (jitterStep op b)) =
  accountedFrames b + (match op with OpPush _ _ => 1 | OpPop _ => 0 end).
Proof.
  intros Hb (Hq & Ho & Hr) Hop Hn Hn'. unfold accountedFrames in *.
  destruct op as [f now|now]; cbn [jitterStep fst snd length].
  - destruct (push_cases f now b Hb Ho) as [(_ & _ & _ & ->)|(_ & k & q1 & q2 & Eq & Hl & Hk & _ & ->)];
      cbn [jb_queue jb_reordered jb_overflowDropped].
    + rewrite u64_id by (widths; lia). lia.
    + apply (f_equal length) in Eq. rewrite length_drop, length_app in Eq.
      rewrite length_app in *. cbn [length]. rewrite u64_id by (widths; lia). lia.
  - unfold pop. destruct (popLoop_popped (length (jb_queue b)) now b Hb Hq) as [(q & Eq & ->) _ _ H4 H5 _].
    rewrite H4, H5, length_fmap. apply (f_equal length) in Eq. rewrite length_app in Eq. lia.
Qed.

Lemma run_accounted ops b :
  jitter_ok b -> jitter_typed b -> Forall op_typed ops ->
  accountedFrames b + zlen ops < 2 ^ 64 - 1 ->
  zlen (fst (jitterRun ops b)) + accountedFrames (snd (jitterRun ops b)) =
  accountedFrames b + Z.of_nat (pushes ops).
Proof.
  revert b. induction ops as [|op ops IH]; intros b Hb Ht Hops Hn.
  { cbn. lia. }
  apply Forall_cons_iff in Hops as [Hop Hops]. cbn [length] in Hn.
  destruct (step_ok op b Hb Ht Hop) as [Hb' Ht'].
  pose proof (step_accounted op b _ Hb Ht Hop (Z.le_refl _) ltac:(lia)) as Hs.
  specialize (IH (snd (jitterStep op b)) Hb' Ht' Hops). cbn [jitterRun].
  destruct (jitterStep op b) as [out b']. cbn [fst snd] in *.
  destruct (jitterRun ops b') as [outs b2]. cbn [fst snd] in *. rewrite length_app.
  unfold pushes in *. cbn [List.filter].
  destruct op; cbn [length]; rewrite ?Nat2Z.inj_add, ?Nat2Z.inj_succ; lia.
Qed.

Lemma new_ok ms : jitter_ok (newJitterBuffer ms) /\ jitter_typed (newJitterBuffer ms).
Proof.
  split; [|by split_and!]. split; try done; cbn; [constructor|lia].
Qed.

(** * Theorems *)

(** C34: the buffer never delivers out of order: over any sequence of pushes and
    polls, with any clock, the frames handed to the decoder have non-decreasing
    sequences, the queue stays ordered, and it never holds more than 16 frames. *)
Theorem jitter_delivers_in_order ops ms (Hops : Forall op_typed ops) :
  let '(outs, b) := jitterRun ops (newJitterBuffer ms) in
  StronglySorted frame_le outs /\ queue_sorted (jb_queue b) /\ (length (jb_queue b) <= 16)%nat.
Proof.
  destruct (new_ok ms) as [Hb Ht].
  pose proof (run_sorted ops _ Hb Ht Hops) as [Hs _]. pose proof (run_ok ops _ Hb Ht Hops) as [[H1 H2 _ _] _].
  by destruct (jitterRun ops _).
Qed.

Definition jframe (s : Z) : AssembledFrame := mkAssembledFrame 0 9 s 0 false [].

Lemma jitter_delivers_in_order_witness :
  let ops := [OpPush (jframe 3) 0; OpPush (jframe 1) 1; OpPush (jframe 2) 2; OpPop 40000000] in
  af_sequence <$> fst (jitterRun ops (newJitterBuffer 30)) = [1; 2; 3] /\
  StronglySorted frame_le (fst (jitterRun ops (newJitterBuffer 30))).
Proof.
  split; [reflexivity|].
  exact (proj1 (jitter_delivers_in_order
    [OpPush (jframe 3) 0; OpPush (jframe 1) 1; OpPush (jframe 2) 2; OpPop 40000000] 30
    ltac:(by_decision))).
Defined.

(** No frame disappears: over any run, every frame pushed is delivered, still
    queued, counted as reordered (it came after its slot was delivered) or counted
    as dropped by overflow. *)
Theorem jitter_conserves_frames ops ms (Hops : Forall op_typed ops) (Hn : zlen ops < 2 ^ 64 - 1) :
  let '(outs, b) := jitterRun ops (newJitterBuffer ms) in
  zlen outs + zlen (jb_queue b) + jb_reordered b + jb_overflowDropped b = Z.of_nat (pushes ops).
Proof.
  destruct (new_ok ms) as [Hb Ht]. pose proof (run_accounted ops _ Hb Ht Hops) as H.
  destruct (jitterRun ops (newJitterBuffer ms)) as [outs b]. unfold accountedFrames in H.
  cbn [fst snd newJitterBuffer jb_queue length jb_reordered jb_overflowDropped] in H. lia.
Qed.

Lemma jitter_conserves_frames_witness :
  let '(outs, b) := jitterRun [OpPush (jframe 3) 0; OpPop 40000000; OpPush (jframe 1) 50000000] (newJitterBuffer 30) in
  zlen outs + zlen (jb_queue b) + jb_reordered b + jb_overflowDropped b = 2.
Proof.
  apply (jitter_conserves_frames [OpPush (jframe 3) 0; OpPop 40000000; OpPush (jframe 1) 50000000] 30).
  - by_decision.
  - by_decision.
Defined.

(** After a poll at most 8 frames are left and the oldest of them has not
    waited for the target delay yet; what was delivered is the front of the queue,
    in queue order. *)
Theorem pop_leaves_young b now (Hb : jitter_ok b) (Hq : Forall (fun e => 0 <= en_seq e) (jb_queue b)) :
  let '(out, b') := pop now b in
  (exists q, jb_queue b = q ++ jb_queue b' /\ out = en_frame <$> q) /\
  (length (jb_queue b') <= 8)%nat /\
  (forall e rest, jb_queue b' = e :: rest -> waitedNs now e < u64 (jb_targetMs b * 1000000)).
Proof.
  unfold pop. pose proof (popLoop_popped (length (jb_queue b)) now b Hb Hq) as P.
  pose proof (popLoop_stops _ now b eq_refl) as S. cbn zeta in S.
  destruct (popLoop _ now b) as [out b']. cbn [fst snd] in *. destruct P as [H1 _ Ht _ _ _].
  split; [done|]. destruct (jb_queue b') as [|front rest] eqn:Eq; [split; [cbn; lia|done]|].
  unfold headReady in S. rewrite Eq, Ht in S. b2p. unfold kHighWatermark in *.
  split; [lia|]. intros e r [= <- <-]. done.
Qed.

Lemma pop_leaves_young_witness :
  let b := push (jframe 4) 10 (newJitterBuffer 30) in
  (length (jb_queue (snd (pop 1000 b))) <= 8)%nat.
Proof.
  refine (proj1 (proj2 (pop_leaves_young (push (jframe 4) 10 (newJitterBuffer 30)) 1000 _ _))).
  - split; cbn; try done; try lia. by repeat constructor.
  - by_decision.
Defined.

(** Once every queued frame has waited for the target delay, a poll delivers
    the whole queue. *)
Theorem pop_drains b now
  (Hall : Forall (fun e => u64 (jb_targetMs b * 1000000) <= waitedNs now e) (jb_queue b)) :
  fst (pop now b) = en_frame <$> jb_queue b /\ jb_queue (snd (pop now b)) = [].
Proof.
  unfold pop. remember (length (jb_queue b)) as n eqn:Hn. revert b Hn Hall.
  induction n as [|n IH]; intros b Hn Hall; cbn [popLoop]; destruct (jb_queue b) as [|e q] eqn:Eq;
    try discriminate Hn; [by split|].
  apply Forall_cons_iff in Hall as [He Hall]. unfold headReady.
  rewrite (proj2 (Z.leb_le _ _)) by done. cbn [orb]. injection Hn as Hn.
  set (b1 := mkJitter q _ _ _ _ _). destruct (IH b1 Hn Hall) as [E1 E2].
  destruct (popLoop n now b1) as [out b']. cbn [fst snd] in *. by rewrite E1, E2.
Qed.

Lemma pop_drains_witness :
  jb_queue (snd (pop 30000010 (push (jframe 4) 10 (newJitterBuffer 30)))) = [].
Proof.
  refine (proj2 (pop_drains (push (jframe 4) 10 (newJitterBuffer 30)) 30000010 _)). by_decision.
Defined.

(** The early release after a gap compares nanoseconds with half the target
    in milliseconds: with a target of 30 ms, a frame behind a gap is released 15
    nanoseconds after it arrived, so a frame that is merely reordered by more than
    that is rejected as too late. *)
Theorem gap_release_unit :
  let ops := [OpPush (jframe 1) 0; OpPop 30000000; OpPush (jframe 3) 30000000; OpPop 30000015;
              OpPush (jframe 2) 30000016; OpPop 90000000] in
  af_sequence <$> fst (jitterRun ops (newJitterBuffer 30)) = [1; 3] /\
  jb_reordered (snd (jitterRun ops (newJitterBuffer 30))) = 1.
Proof. by vm_compute. Qed.

(** [push] does not look for a frame of the same sequence in the queue, and a frame of
    one fragment completes with every copy of its datagram: a repeated datagram makes
    the frame come out twice. *)
Theorem repeated_frame_delivered_twice :
  af_sequence <$> fst (jitterRun [OpPush (jframe 5) 0; OpPush (jframe 5) 1; OpPop 40000000] (newJitterBuffer 30)) = [5; 5].
Proof. by vm_compute. Qed.
