(* ===== verification/SessionCodes.v ===== *)
(** security/SessionCodes.cpp: session codes.

    Strings are byte sequences. The system's random source is a stream of 32-bit
    words read in order; the state of a generator is the position in the stream. *)

From S2P Require Import Prelude.

(** * Alphabet *)

Definition kCodeAlphabet : bytes := str "ABCDEFGHJKLMNPQRSTUVWXYZ23456789".
Definition kCodeAlphabetSize : Z := 32.

Definition dash : Z := 45.
Definition space : Z := 32.

(** * Generation *)

(** The loop of [randomCodeChars]: every iteration appends one character, so
    [count] iterations suffice. [buf], [bits] are the loop's locals, [pos] the
    position in the random stream. *)
Fixpoint randomCodeLoop (rnd : nat -> Z) (fuel : nat) (pos : nat) (buf bits : Z) : bytes * nat :=
  match fuel with
  | O => ([], pos)
  | S fuel =>
      let '(buf, bits, pos) := if bits <? 8 then (rnd pos, 32, S pos) else (buf, bits, pos) in
      let byte := u8 (Z.land buf 0xFF) in
      let c := nth (Z.to_nat (Z.land byte (kCodeAlphabetSize - 1))) kCodeAlphabet 0 in
      let '(cs, pos) := randomCodeLoop rnd fuel pos (Z.shiftr buf 8) (bits - 8) in
      (c :: cs, pos)
  end.

Definition randomCodeChars (rnd : nat -> Z) (count : nat) (pos : nat) : bytes * nat :=
  randomCodeLoop rnd count pos 0 0.

(** [randomCodeChars(4) + "-" + randomCodeChars(4)]: the two calls may run in
    either order. *)
Definition generateSessionCode (leftFirst : bool) (rnd : nat -> Z) (pos : nat) : bytes * nat :=
  let '(cs1, pos) := randomCodeChars rnd 4 pos in
  let '(cs2, pos) := randomCodeChars rnd 4 pos in
  (if leftFirst then cs1 ++ [dash] ++ cs2 else cs2 ++ [dash] ++ cs1, pos).

(** * Normalisation and comparison *)

Definition upper (ch : Z) : Z := if (97 <=? ch) && (ch <=? 122) then ch - 97 + 65 else ch.

Fixpoint compact (input : bytes) : bytes :=
  match input with
  | [] => []
  | ch :: input =>
      if (ch =? dash) || (ch =? space) then compact input else upper ch :: compact input
  end.

Definition inAlphabet (ch : Z) : bool := existsb (fun c => c =? ch) kCodeAlphabet.

Definition normalizeSessionCode (input : bytes) : option bytes :=
  let c := compact input in
  if negb (zlen c =? 8) then None
  else if negb (forallb inAlphabet c) then None
  else Some (take 4 c ++ [dash] ++ take 4 (drop 4 c)).

(** [diff |= a[i] ^ b[i]] over all positions, whatever differs earlier. *)
Fixpoint diffBytes (a b : bytes) (diff : Z) : Z :=
  match a, b with
  | x :: a, y :: b => diffBytes a b (u8 (Z.lor diff (Z.lxor (u8 x) (u8 y))))
  | _, _ => diff
  end.

Definition constantTimeEqual (a b : bytes) : bool :=
  if negb (zlen a =? zlen b) then false else diffBytes a b 0 =? 0.

Definition verifySessionCode (presented actual : bytes) : bool :=
  match normalizeSessionCode presented, normalizeSessionCode actual with
  | Some p, Some a => constantTimeEqual p a
  | _, _ => false
  end.

(** * Lemmas *)

(** A canonical code: four alphabet characters, a dash, four more. *)
Definition canonical (code : bytes) : Prop :=
  exists l r, code = l ++ [dash] ++ r /\ length l = 4%nat /\ length r = 4%nat /\
    Forall (fun c => inAlphabet c = true) (l ++ r).

Lemma inAlphabet_spec ch : inAlphabet ch = true <-> ch ∈ kCodeAlphabet.
Proof.
  unfold inAlphabet. rewrite existsb_exists. split.
  - intros (x & Hx & E%Z.eqb_eq). subst. by apply list_elem_of_In.
  - intros H. exists ch. split; [by apply list_elem_of_In|apply Z.eqb_refl].
Qed.

Lemma alphabet_nth i : inAlphabet (nth (Z.to_nat (Z.land i 31)) kCodeAlphabet 0) = true.
Proof.
  apply inAlphabet_spec. apply list_elem_of_In, nth_In.
  change 31 with (Z.ones 5). rewrite Z.land_ones by lia.
  pose proof (Z.mod_pos_bound i (2 ^ 5) ltac:(lia)). change (2 ^ 5) with 32 in *.
  change (length kCodeAlphabet) with 32%nat. lia.
Qed.

(** Characters of the alphabet are neither separators nor lower case. *)
Lemma alphabet_plain ch :
  inAlphabet ch = true -> (ch =? dash) || (ch =? space) = false /\ upper ch = ch /\ byte_ok ch.
Proof.
  rewrite inAlphabet_spec. revert ch. apply list.Forall_forall. by_decision.
Qed.

Lemma compact_app a b : compact (a ++ b) = compact a ++ compact b.
Proof. induction a as [|x a IH]; [done|]. cbn [app compact]. break_goal; [done|]. by rewrite IH. Qed.

Lemma compact_plain cs : Forall (fun c => inAlphabet c = true) cs -> compact cs = cs.
Proof.
  induction 1 as [|c cs Hc _ IH]; [done|]. cbn [compact].
  destruct (alphabet_plain c Hc) as (-> & -> & _). by rewrite IH.
Qed.

Lemma canonical_compact l r :
  Forall (fun c => inAlphabet c = true) (l ++ r) -> compact (l ++ [dash] ++ r) = l ++ r.
Proof.
  intros [Hl Hr]%Forall_app. rewrite !compact_app, (compact_plain l), (compact_plain r) by done. done.
Qed.

Lemma normalize_canonical code : canonical code -> normalizeSessionCode code = Some code.
Proof.
  intros (l & r & -> & Hl & Hr & Ha). unfold normalizeSessionCode.
  rewrite canonical_compact by done. rewrite length_app, Hl, Hr. cbn [Nat.add negb Z.eqb].
  change (negb (Z.of_nat 8 =? 8)) with false. cbn iota.
  replace (forallb inAlphabet (l ++ r)) with true.
  2:{ symmetry. apply forallb_forall. intros x Hx. rewrite list.Forall_forall in Ha.
      by apply Ha, list_elem_of_In. }
  cbn [negb]. rewrite (take_app_length' l), (drop_app_length' l), take_ge by lia. done.
Qed.

Lemma normalize_sound input code : normalizeSessionCode input = Some code -> canonical code.
Proof.
  unfold normalizeSessionCode. intros H. repeat (break_hyp H; try discriminate). injection H as <-.
  b2p. exists (take 4 (compact input)), (take 4 (drop 4 (compact input))).
  assert (HL : length (compact input) = 8%nat) by lia.
  rewrite !length_take, length_drop, HL. split_and!; try done.
  assert (E : take 4 (compact input) ++ take 4 (drop 4 (compact input)) = compact input).
  { rewrite (take_ge (drop 4 _)) by (rewrite length_drop; lia). apply take_drop. }
  rewrite E. apply list.Forall_forall. intros x Hx%list_elem_of_In.
  match goal with HF : forallb _ _ = true |- _ => rewrite forallb_forall in HF; by apply HF end.
Qed.

Lemma canonical_ok code : canonical code -> bytes_ok code.
Proof.
  intros (l & r & -> & _ & _ & [Hl Hr]%Forall_app). unfold bytes_ok.
  assert (G : forall cs, Forall (fun c => inAlphabet c = true) cs -> Forall byte_ok cs)
    by (intros cs Hc; eapply list.Forall_impl; [exact Hc|]; intros c Hc'; by apply alphabet_plain).
  apply Forall_app. split; [by apply G|]. constructor; [by unfold byte_ok, dash|by apply G].
Qed.

Lemma randomCodeLoop_alphabet rnd n pos buf bits :
  length (fst (randomCodeLoop rnd n pos buf bits)) = n /\
  Forall (fun c => inAlphabet c = true) (fst (randomCodeLoop rnd n pos buf bits)).
Proof.
  revert pos buf bits. induction n as [|n IH]; intros pos buf bits; cbn [randomCodeLoop]; [done|].
  destruct (if bits <? 8 then _ else _) as [[buf' bits'] pos'].
  specialize (IH pos' (Z.shiftr buf' 8) (bits' - 8)).
  destruct (randomCodeLoop rnd n pos' (Z.shiftr buf' 8) (bits' - 8)) as [cs p]. cbn [fst] in *.
  destruct IH as [IH1 IH2]. split; [cbn [length]; by rewrite IH1|]. constructor; [|done].
  apply alphabet_nth.
Qed.

Lemma generate_canonical lf rnd pos : canonical (fst (generateSessionCode lf rnd pos)).
Proof.
  unfold generateSessionCode, randomCodeChars.
  pose proof (randomCodeLoop_alphabet rnd 4 pos 0 0) as [L1 F1].
  destruct (randomCodeLoop rnd 4 pos 0 0) as [cs1 pos1].
  pose proof (randomCodeLoop_alphabet rnd 4 pos1 0 0) as [L2 F2].
  destruct (randomCodeLoop rnd 4 pos1 0 0) as [cs2 pos2]. cbn [fst] in *.
  destruct lf; [exists cs1, cs2|exists cs2, cs1]; split_and!; try done; by apply Forall_app.
Qed.

Lemma u8_land z : u8 z = Z.land z 255.
Proof. change 255 with (Z.ones 8). by rewrite Z.land_ones. Qed.

Lemma land_255_id z : fits 8 z -> Z.land z 255 = z.
Proof. intros H. rewrite <- u8_land. by apply u8_id. Qed.

Lemma lor_lxor_zero d x y :
  fits 8 d -> byte_ok x -> byte_ok y -> (u8 (Z.lor d (Z.lxor (u8 x) (u8 y))) = 0 <-> d = 0 /\ x = y).
Proof.
  intros Hd Hx Hy. rewrite !(u8_id x), !(u8_id y) by done.
  assert (E : u8 (Z.lor d (Z.lxor x y)) = Z.lor d (Z.lxor x y)).
  { rewrite u8_land, Z.land_lor_distr_l, (land_255_id d) by done. f_equal.
    apply Z.bits_inj'. intros k Hk. rewrite Z.land_spec, Z.lxor_spec.
    rewrite <- (land_255_id x), <- (land_255_id y) by done. rewrite !Z.land_spec.
    by destruct (Z.testbit x k), (Z.testbit y k), (Z.testbit 255 k). }
  rewrite E, Z.lor_eq_0_iff, Z.lxor_eq_0_iff. done.
Qed.

Lemma diffBytes_zero a b d :
  length a = length b -> bytes_ok a -> bytes_ok b -> fits 8 d ->
  (diffBytes a b d = 0 <-> d = 0 /\ a = b).
Proof.
  revert b d. induction a as [|x a IH]; intros [|y b] d HL Ha Hb Hd; try discriminate HL.
  { cbn. naive_solver. }
  apply Forall_cons_iff in Ha as [Hx Ha]. apply Forall_cons_iff in Hb as [Hy Hb].
  cbn [diffBytes]. injection HL as HL. rewrite IH by (done || apply u8_fits).
  rewrite lor_lxor_zero by done. naive_solver.
Qed.

Lemma constantTimeEqual_iff a b :
  bytes_ok a -> bytes_ok b -> (constantTimeEqual a b = true <-> a = b).
Proof.
  intros Ha Hb. unfold constantTimeEqual. destruct (Z.eqb_spec (zlen a) (zlen b)) as [E|E]; cbn [negb].
  - rewrite Z.eqb_eq, diffBytes_zero by (done || lia). naive_solver.
  - split; [done|]. by intros ->.
Qed.

(** * Theorems *)

(** The constant-time comparison decides equality of byte strings. *)
Theorem constantTimeEqual_correct a b (Ha : bytes_ok a) (Hb : bytes_ok b) :
  constantTimeEqual a b = bool_decide (a = b).
Proof.
  destruct (constantTimeEqual a b) eqn:E; symmetry.
  - apply bool_decide_eq_true_2. by apply constantTimeEqual_iff.
  - apply bool_decide_eq_false_2. intros ->. by rewrite (proj2 (constantTimeEqual_iff b b Hb Hb)) in E.
Qed.

Lemma constantTimeEqual_correct_witness : constantTimeEqual (str "ABC") (str "ABD") = false.
Proof. rewrite (constantTimeEqual_correct (str "ABC") (str "ABD")); [reflexivity|by_decision|by_decision]. Defined.

(** A presented code is accepted exactly when both codes normalise and their
    normal forms agree. *)
Theorem verifySessionCode_spec presented actual :
  verifySessionCode presented actual = true <->
  exists code, normalizeSessionCode presented = Some code /\ normalizeSessionCode actual = Some code.
Proof.
  unfold verifySessionCode. destruct (normalizeSessionCode presented) as [p|] eqn:Ep.
  2:{ split; [done|]. by intros (? & ? & _). }
  destruct (normalizeSessionCode actual) as [a|] eqn:Ea.
  2:{ split; [done|]. by intros (? & _ & ?). }
  rewrite constantTimeEqual_iff by
    (apply canonical_ok; eapply normalize_sound; eassumption).
  naive_solver.
Qed.

(** What normalisation returns is canonical (4 alphabet characters, a dash, 4
    alphabet characters), normalising again changes nothing, and separators and
    letter case in the input do not matter. *)
Theorem normalizeSessionCode_canonical input code (H : normalizeSessionCode input = Some code) :
  canonical code /\ normalizeSessionCode code = Some code /\ length code = 9%nat /\
  forall other, compact other = compact input -> normalizeSessionCode other = Some code.
Proof.
  pose proof (normalize_sound _ _ H) as Hc. split_and!; [done|by apply normalize_canonical| |].
  - destruct Hc as (l & r & -> & Hl & Hr & _). rewrite !length_app, Hl, Hr. done.
  - intros other E. unfold normalizeSessionCode in *. by rewrite E.
Qed.

Lemma normalizeSessionCode_canonical_witness :
  normalizeSessionCode (str "abc7 K92P") = Some (str "ABC7-K92P") /\ canonical (str "ABC7-K92P").
Proof.
  split; [reflexivity|].
  exact (proj1 (normalizeSessionCode_canonical (str "abc7 K92P") (str "ABC7-K92P") eq_refl)).
Defined.

(** Every generated code, whatever the random source and the evaluation order
    of the two halves, is canonical and is accepted when presented as it is. *)
Theorem generateSessionCode_accepted leftFirst rnd pos :
  let code := fst (generateSessionCode leftFirst rnd pos) in
  canonical code /\ normalizeSessionCode code = Some code /\ verifySessionCode code code = true.
Proof.
  intros code. pose proof (generate_canonical leftFirst rnd pos) as Hc. fold code in Hc.
  pose proof (normalize_canonical code Hc) as En. split_and!; [done|done|].
  unfold verifySessionCode. rewrite En. apply constantTimeEqual_iff; [by apply canonical_ok..|done].
Qed.

(** Characters taken from one random word. *)
Definition wordChars (w : Z) (n : nat) : bytes :=
  (fun i : nat => nth (Z.to_nat (Z.land (Z.shiftr w (8 * Z.of_nat i)) 31)) kCodeAlphabet 0) <$> seq 0 n.

Lemma land_low5 b : Z.land (u8 (Z.land b 0xFF)) (kCodeAlphabetSize - 1) = Z.land b 31.
Proof. rewrite u8_land, <- !Z.land_assoc. done. Qed.

Lemma wordChars_succ w n : wordChars w (S n) = nth (Z.to_nat (Z.land w 31)) kCodeAlphabet 0 :: wordChars (Z.shiftr w 8) n.
Proof.
  unfold wordChars. rewrite <- cons_seq, fmap_cons. f_equal.
  rewrite <- fmap_S_seq, <- list_fmap_compose. apply list_fmap_ext. intros i x _. unfold compose.
  rewrite Z.shiftr_shiftr by lia. do 4 f_equal. lia.
Qed.

(** While the buffer holds enough bits no new word is drawn. *)
Lemma randomCodeLoop_buffered rnd n pos buf :
  randomCodeLoop rnd n pos buf (8 * Z.of_nat n) = (wordChars buf n, pos).
Proof.
  revert buf. induction n as [|n IH]; intros buf; [done|]. cbn [randomCodeLoop].
  rewrite (proj2 (Z.ltb_ge _ _)) by lia.
  replace (8 * Z.of_nat (S n) - 8) with (8 * Z.of_nat n) by lia.
  by rewrite IH, land_low5, wordChars_succ.
Qed.

Lemma randomCodeChars_word rnd pos : randomCodeChars rnd 4 pos = (wordChars (rnd pos) 4, S pos).
Proof. rewrite <- (randomCodeLoop_buffered rnd). done. Qed.

(** A code uses two random words, one per half: character [i] of a half is
    the alphabet entry of the low five bits of byte [i] of its word, and each of
    the 32 characters is the image of exactly 8 of the 256 byte values, so the
    mapping has no modulo bias. *)
Theorem generateSessionCode_unbiased rnd pos :
  generateSessionCode true rnd pos =
    (wordChars (rnd pos) 4 ++ [dash] ++ wordChars (rnd (S pos)) 4, S (S pos)) /\
  Forall (fun c => length (List.filter (fun b => existsb (fun d => d =? c) (wordChars (Z.of_nat b) 1))
                             (seq 0 256)) = 8%nat) kCodeAlphabet.
Proof.
  split.
  - unfold generateSessionCode. by rewrite !randomCodeChars_word.
  - by_decision.
Qed.
