(* ===== verification/Crypto.v ===== *)
(** security/Crypto.cpp: the primitives built on Windows CNG.

    The CNG calls are not part of the repository: they are the operations of the
    class [CNG], one per sequence of [BCrypt...] calls, each failing with [None]
    where a status is not a success. [CNGLaws] states what their documentation
    promises. The wrappers around them are the repository's code. *)

From S2P Require Import Prelude.

(** * The CNG interface *)

Class CNG := {
  (** BCryptCreateHash (with a key) / BCryptHashData / BCryptFinishHash. *)
  cng_hmac : bytes -> bytes -> option bytes;
  (** The same without a key. *)
  cng_sha256 : bytes -> option bytes;
  (** BCryptImportKeyPair of the private blob and of a public blob,
      BCryptSecretAgreement and BCryptDeriveKey (raw secret). *)
  cng_raw_secret : bytes -> bytes -> option bytes;
  (** BCryptEncrypt / BCryptDecrypt in GCM mode: key, nonce, text, associated
      data (and tag). *)
  cng_gcm_encrypt : bytes -> bytes -> bytes -> bytes -> option (bytes * bytes);
  cng_gcm_decrypt : bytes -> bytes -> bytes -> bytes -> bytes -> option bytes;
  (** The constant BCRYPT_ECDH_PUBLIC_P256_MAGIC. *)
  cng_ecdh_public_magic : Z }.

Class CNGLaws `{CNG} : Prop := {
  cng_hmac_length k d t : cng_hmac k d = Some t -> length t = 32%nat;
  cng_gcm_length k n p a c t :
    cng_gcm_encrypt k n p a = Some (c, t) -> length c = length p /\ length t = 16%nat;
  cng_gcm_correct k n p a c t :
    cng_gcm_encrypt k n p a = Some (c, t) -> cng_gcm_decrypt k n c a t = Some p;
  cng_gcm_authentic k n c a t p :
    cng_gcm_decrypt k n c a t = Some p -> cng_gcm_encrypt k n p a = Some (c, t) }.

(** Idealised authenticity: one ciphertext with its tag is produced under a key
    by a single nonce and a single associated data. *)
Class GcmBinding `{CNG} : Prop :=
  gcm_binding k n1 n2 p1 p2 a1 a2 c t :
    cng_gcm_encrypt k n1 p1 a1 = Some (c, t) -> cng_gcm_encrypt k n2 p2 a2 = Some (c, t) ->
    n1 = n2 /\ a1 = a2.

(** * Constants *)

Definition kAesKeyBytes : nat := 32.
Definition kGcmNonceBytes : nat := 12.
Definition kGcmTagBytes : nat := 16.
Definition kEcdhPubBytes : nat := 64.

Record EcdhKeyPair := mkEcdhKeyPair { kp_publicKey : bytes; kp_privateKey : bytes }.

Section Primitives.
Context `{CNG}.

(** [randomBytes(n)], given what BCryptGenRandom delivers. *)
Definition randomBytes (n : nat) (generated : option bytes) : bytes :=
  if (n =? 0)%nat then [] else default [] generated.

Definition sha256 (data : bytes) : bytes := default (replicate 32 0) (cng_sha256 data).

(** A failed hash leaves the zero-initialised output. *)
Definition hmacSha256 (key data : bytes) : bytes := default (replicate 32 0) (cng_hmac key data).

(** Expand loop of [hkdfSha256]; every iteration appends at least one byte. *)
Fixpoint hkdfExpand (fuel : nat) (prk info : bytes) (outLen : nat) (out t : bytes) (tLen : nat)
    (counter : Z) : bytes :=
  match fuel with
  | O => out
  | S fuel =>
      if (length out <? outLen)%nat then
        let input := take tLen t ++ info ++ [counter] in
        let t := hmacSha256 prk input in
        let n := Nat.min 32 (outLen - length out) in
        hkdfExpand fuel prk info outLen (out ++ take n t) t 32 (u8 (counter + 1))
      else out
  end.

Definition hkdfSha256 (ikm salt info : bytes) (outLen : nat) : bytes :=
  if (outLen =? 0)%nat || (255 * 32 <? Z.of_nat outLen) then []
  else
    let prk := hmacSha256 salt ikm in
    hkdfExpand outLen prk info outLen [] (replicate 32 0) 0 1.

(** [generateEcdhP256()], given the exported public and private blobs. *)
Definition generateEcdhP256 (exported : option (option bytes * option bytes)) : option EcdhKeyPair :=
  match exported with
  | None => None
  | Some (pub, priv) =>
      let publicKey :=
        match pub with
        | Some blob => if (length blob =? 8 + kEcdhPubBytes)%nat then drop 8 blob else []
        | None => []
        end in
      let privateKey :=
        match priv with
        | Some blob => if (0 <? length blob)%nat then blob else []
        | None => []
        end in
      if negb (length publicKey =? kEcdhPubBytes)%nat || (length privateKey =? 0)%nat then None
      else Some (mkEcdhKeyPair publicKey privateKey)
  end.

Definition ecdhP256 (ours : EcdhKeyPair) (peerPublic : bytes) : option bytes :=
  if negb (length peerPublic =? kEcdhPubBytes)%nat || (length (kp_privateKey ours) =? 0)%nat then None
  else
    let pubBlob := le_put 4 cng_ecdh_public_magic ++ le_put 4 (Z.of_nat (kEcdhPubBytes / 2)) ++ peerPublic in
    match cng_raw_secret (kp_privateKey ours) pubBlob with
    | Some out => if (length out =? 32)%nat then Some (reverse out) else None
    | None => None
    end.

Definition aesGcmEncrypt (key nonce plaintext aad : bytes) : option (bytes * bytes) :=
  cng_gcm_encrypt key nonce plaintext aad.

Definition aesGcmDecrypt (key nonce ciphertext aad tag : bytes) : option bytes :=
  cng_gcm_decrypt key nonce ciphertext aad tag.

(** [crypto::constantTimeEqual] over [n] bytes of two buffers. *)
Fixpoint constantTimeEqualN (a b : bytes) (n : nat) (diff : Z) : bool :=
  match n with
  | O => diff =? 0
  | S n => constantTimeEqualN (drop 1 a) (drop 1 b) n
             (u8 (Z.lor diff (u8 (Z.lxor (nth 0 a 0) (nth 0 b 0)))))
  end.

(** * HKDF against RFC 5869 *)

(** T(0) is empty, T(i) = HMAC(PRK, T(i-1) || info || i). *)
Fixpoint hkdf_T (prk info : bytes) (i : nat) : bytes :=
  match i with
  | O => []
  | S i' => hmacSha256 prk (hkdf_T prk info i' ++ info ++ [Z.of_nat i])
  end.

Definition hkdf_reference (ikm salt info : bytes) (outLen : nat) : bytes :=
  take outLen (concat (hkdf_T (hmacSha256 salt ikm) info <$> seq 1 ((outLen + 31) / 32))).

Context `{!CNGLaws}.

Lemma hmacSha256_length k d : length (hmacSha256 k d) = 32%nat.
Proof.
  unfold hmacSha256. destruct (cng_hmac k d) as [t|] eqn:E; [|done]. by apply cng_hmac_length in E.
Qed.

Lemma hkdf_T_length prk info i : length (hkdf_T prk info i) = if (i =? 0)%nat then 0%nat else 32%nat.
Proof. destruct i; [done|]. apply hmacSha256_length. Qed.

Lemma hkdf_blocks_length prk info i n :
  length (concat (hkdf_T prk info <$> seq (S i) n)) = (32 * n)%nat.
Proof.
  revert i. induction n as [|n IH]; intros i; [done|].
  cbn [seq]. rewrite fmap_cons. cbn [concat]. rewrite length_app, IH.
  rewrite hkdf_T_length. cbn [Nat.eqb]. lia.
Qed.

(** After [i] blocks the loop has the first [outLen] bytes of them, and it
    appends the rest. *)
Lemma hkdfExpand_spec prk info outLen n : forall i fuel,
  (32 * (i + n - 1) < outLen <= 32 * (i + n))%nat -> (i + n <= 255)%nat -> (n <= fuel)%nat ->
  hkdfExpand fuel prk info outLen (take outLen (concat (hkdf_T prk info <$> seq 1 i)))
    (if (i =? 0)%nat then replicate 32 0 else hkdf_T prk info i) (if (i =? 0)%nat then 0 else 32)%nat
    (u8 (Z.of_nat i + 1)) =
  take outLen (concat (hkdf_T prk info <$> seq 1 (i + n))).
Proof.
  induction n as [|n IH]; intros i fuel Hn Hi Hf.
  - rewrite Nat.add_0_r in *. destruct fuel as [|fuel]; [done|]. cbn [hkdfExpand].
    rewrite length_take, hkdf_blocks_length, (proj2 (Nat.ltb_ge _ _)); [done|lia].
  - destruct fuel as [|fuel]; [lia|]. cbn [hkdfExpand].
    rewrite length_take, hkdf_blocks_length, (proj2 (Nat.ltb_lt _ _)) by lia.
    rewrite (Nat.min_r outLen (32 * i)) by lia.
    assert (Et : take (if (i =? 0)%nat then 0 else 32)%nat
                   (if (i =? 0)%nat then replicate 32 0 else hkdf_T prk info i) = hkdf_T prk info i).
    { destruct i; [done|]. cbn [Nat.eqb]. apply take_ge. by rewrite hkdf_T_length. }
    assert (Ec : u8 (Z.of_nat i + 1) = Z.of_nat (S i)) by (rewrite u8_id by (widths; lia); lia).
    rewrite Et, Ec.
    change (hmacSha256 prk (hkdf_T prk info i ++ info ++ [Z.of_nat (S i)])) with (hkdf_T prk info (S i)).
    assert (Eo : take outLen (concat (hkdf_T prk info <$> seq 1 i)) ++
                 take (Nat.min 32 (outLen - 32 * i)) (hkdf_T prk info (S i)) =
                 take outLen (concat (hkdf_T prk info <$> seq 1 (S i)))).
    { rewrite seq_S, fmap_app, concat_app. cbn [fmap list_fmap concat]. rewrite app_nil_r.
      rewrite take_app, hkdf_blocks_length. f_equal. cbn [Nat.add].
      rewrite Nat.min_comm, <- take_take. f_equal. apply take_ge. by rewrite hkdf_T_length. }
    rewrite Eo. replace (i + S n)%nat with (S i + n)%nat in * by lia.
    specialize (IH (S i) fuel ltac:(lia) ltac:(lia) ltac:(lia)). cbn [Nat.eqb] in IH.
    rewrite <- IH. f_equal.
Qed.

Lemma hkdfSha256_reference ikm salt info L :
  (1 <= Z.of_nat L <= 255 * 32) ->
  hkdfSha256 ikm salt info L = hkdf_reference ikm salt info L /\ length (hkdf_reference ikm salt info L) = L.
Proof.
  intros HL. unfold hkdfSha256. rewrite (proj2 (Nat.eqb_neq _ _)), (proj2 (Z.ltb_ge _ _)) by lia.
  cbn [orb]. set (prk := hmacSha256 salt ikm).
  pose proof (Nat.div_mod_eq (L + 31) 32). pose proof (Nat.mod_upper_bound (L + 31) 32 ltac:(lia)).
  pose proof (hkdfExpand_spec prk info L ((L + 31) / 32) 0 L ltac:(lia) ltac:(lia) ltac:(lia)) as S.
  cbn [Nat.eqb seq fmap list_fmap concat Nat.add] in S. rewrite take_nil in S.
  split; [exact S|]. unfold hkdf_reference. rewrite length_take.
  rewrite (hkdf_blocks_length _ _ 0). lia.
Qed.

End Primitives.

(** * A concrete instance

    A toy implementation that satisfies the laws, so that witnesses compute:
    the hash is a polynomial of its input, the key agreement a product, the
    cipher a byte-wise XOR with the first key byte and a tag that encodes key, nonce, data and text. *)

Module Toy.

Definition polyHash (seed : Z) (data : bytes) : Z :=
  foldl (fun h b => (h * 257 + b + 1) mod (2 ^ 256)) seed data.

Definition hmac (k d : bytes) : bytes := le_put 32 (polyHash (polyHash 7 k) d).

Definition xorText (k text : bytes) : bytes := (fun b => Z.lxor b (nth 0 k 0)) <$> text.

Definition tag (k n a c : bytes) : bytes := replicate 15 0 ++ [Z.pos (encode (k, n, a, c))].

Definition encrypt (k n p a : bytes) : option (bytes * bytes) :=
  Some (xorText k p, tag k n a (xorText k p)).

Definition decrypt (k n c a t : bytes) : option bytes :=
  if bool_decide (t = tag k n a c) then Some (xorText k c) else None.

Definition secret (priv pubBlob : bytes) : option bytes :=
  Some (le_put 32 (le_get priv * le_get (drop 8 pubBlob))).

Definition keyPair (x : Z) : EcdhKeyPair := mkEcdhKeyPair (le_put 64 x) (le_put 64 x).

#[export] Instance cng : CNG := {|
  cng_hmac k d := Some (hmac k d);
  cng_sha256 d := Some (hmac [] d);
  cng_raw_secret := secret;
  cng_gcm_encrypt := encrypt;
  cng_gcm_decrypt := decrypt;
  cng_ecdh_public_magic := 0x314B4345 |}.

Lemma xorText_involutive k t : xorText k (xorText k t) = t.
Proof.
  unfold xorText. rewrite <- list_fmap_compose. induction t as [|b t IH]; [done|].
  rewrite fmap_cons, IH. f_equal. unfold compose. rewrite Z.lxor_assoc, Z.lxor_nilpotent. apply Z.lxor_0_r.
Qed.

#[export] Instance cng_laws : CNGLaws.
Proof.
  split; cbn [cng_hmac cng_gcm_encrypt cng_gcm_decrypt cng].
  - intros k d t E. apply Some_inj in E. subst t. apply le_put_length.
  - intros k n p a c t E. apply Some_inj in E. apply pair_eq in E as [<- <-]. unfold xorText. split; [apply length_fmap|done].
  - intros k n p a c t E. apply Some_inj in E. apply pair_eq in E as [<- <-]. unfold decrypt. rewrite bool_decide_eq_true_2 by done.
    by rewrite xorText_involutive.
  - intros k n c a t p H. unfold decrypt in H. break_hyp H; [|done]. apply Some_inj in H. subst p. b2p. subst t.
    unfold encrypt. by rewrite xorText_involutive.
Qed.

#[export] Instance cng_binding : GcmBinding.
Proof.
  intros k n1 n2 p1 p2 a1 a2 c t E1 E2. cbn [cng_gcm_encrypt cng] in *.
  apply Some_inj, pair_eq in E1 as [_ <-]. apply Some_inj, pair_eq in E2 as [_ E2].
  apply app_inj_tail in E2 as [_ E2]. apply Pos2Z.inj in E2. apply encode_inj in E2. naive_solver.
Qed.

End Toy.

(** * Theorems *)

(** C37: key derivation is RFC 5869: for every supported output length the expand
    loop returns exactly the first bytes of T(1) T(2) ... under the extracted key,
    and outside 1..8160 bytes it returns nothing. *)
Theorem hkdf_rfc5869 `{CNG, !CNGLaws} ikm salt info outLen :
  (1 <= outLen <= 255 * 32 ->
   hkdfSha256 ikm salt info (Z.to_nat outLen) = hkdf_reference ikm salt info (Z.to_nat outLen) /\
   zlen (hkdfSha256 ikm salt info (Z.to_nat outLen)) = outLen) /\
  (outLen <= 0 \/ 255 * 32 < outLen -> hkdfSha256 ikm salt info (Z.to_nat outLen) = []).
Proof.
  split.
  - intros HL. destruct (hkdfSha256_reference ikm salt info (Z.to_nat outLen)) as [-> L]; [lia|].
    split; [done|]. lia.
  - intros HL. unfold hkdfSha256. destruct HL.
    + rewrite (proj2 (Nat.eqb_eq _ _)) by lia. done.
    + rewrite (proj2 (Z.ltb_lt _ _)) by lia. by rewrite orb_true_r.
Qed.

Lemma hkdf_rfc5869_witness :
  zlen (@hkdfSha256 Toy.cng [1; 2] [3] [4] 68) = 68.
Proof. exact (proj2 (proj1 (@hkdf_rfc5869 Toy.cng Toy.cng_laws [1; 2] [3] [4] 68) ltac:(lia))). Defined.
