(* ===== verification/UdpCrypto.v ===== *)
(** networking/UdpCrypto.h: the interface between the datagram transport and its
    encryption ([class UdpCryptoSink]). The transport is proved against this
    class; SecureChannel.v gives the implementation and discharges the laws. *)

From S2P Require Import Prelude.

(** [seal] and [open] take the header (associated data) and the payload, update
    the sink, and return the output or fail ([false] in the code). *)
Class UdpCryptoSink (S : Type) := {
  sink_seal : bytes -> bytes -> S -> option bytes * S;
  sink_open : bytes -> bytes -> S -> option bytes * S;
  sink_active : S -> bool }.

(** What the transport relies on: a sink without keys neither seals nor opens. *)
Class UdpCryptoSinkLaws (S : Type) `{UdpCryptoSink S} : Prop := {
  sink_seal_inactive h p s : sink_active s = false -> fst (sink_seal h p s) = None;
  sink_open_inactive h p s : sink_active s = false -> fst (sink_open h p s) = None }.
