(* ===== verification/SecureChannel.v ===== *)
(** security/SecureChannel.cpp: the key schedule and the sealing of datagram
    payloads, on top of the primitives of Crypto.v. The output parameters become
    results; the counters are [uint64_t]. *)

From S2P Require Import Prelude Crypto UdpCrypto.

(** * State *)

Record SecureChannel := mkChannel {
  sc_active : bool; sc_sendKey : bytes; sc_recvKey : bytes; sc_nonceSalt : bytes;
  sc_sendCounter : Z; sc_recvHighest : Z; sc_recvInit : bool; sc_recvWindow : list Z;
  sc_sealed : Z; sc_opened : Z; sc_authFailures : Z; sc_replaysRejected : Z }.

Definition newChannel : SecureChannel :=
  mkChannel false (replicate 32 0) (replicate 32 0) (replicate 4 0) 1 0 false (replicate 64 0) 0 0 0 0.

Definition kOkmLen : nat := 68.

(** The number of header bytes bound as associated data. *)
Definition kAadLen : nat := 30.

(** Lexicographic [a <= b] on byte vectors. *)
Fixpoint lex_le (a b : bytes) : bool :=
  match a, b with
  | [], _ => true
  | _ :: _, [] => false
  | x :: a, y :: b => if x <? y then true else if y <? x then false else lex_le a b
  end.

Definition sessionInfo : bytes := str "RemotePlay session v1".

Section Channel.
Context `{CNG}.

(** * Key schedule *)

(** The derived key material: host key, client key, nonce salt. *)
Definition deriveKeys (shared ourSalt peerSalt sessionCode : bytes) : bytes :=
  let salt := sessionCode ++ (if lex_le ourSalt peerSalt then ourSalt ++ peerSalt else peerSalt ++ ourSalt) in
  hkdfSha256 shared salt sessionInfo kOkmLen.

Definition finish (ourKeyPair : EcdhKeyPair) (ourSalt peerPublicKey peerSalt sessionCode : bytes)
    (weAreHost : bool) (s : SecureChannel) : bool * SecureChannel :=
  let s := mkChannel false (sc_sendKey s) (sc_recvKey s) (sc_nonceSalt s) (sc_sendCounter s)
             (sc_recvHighest s) (sc_recvInit s) (sc_recvWindow s) (sc_sealed s) (sc_opened s)
             (sc_authFailures s) (sc_replaysRejected s) in
  if negb (length peerPublicKey =? kEcdhPubBytes)%nat || negb (length ourSalt =? 16)%nat ||
     negb (length peerSalt =? 16)%nat then (false, s)
  else
    match ecdhP256 ourKeyPair peerPublicKey with
    | None => (false, s)
    | Some shared =>
        if negb (length shared =? 32)%nat then (false, s)
        else
          let okm := deriveKeys shared ourSalt peerSalt sessionCode in
          if negb (length okm =? kOkmLen)%nat then (false, s)
          else
            let hostKey := take 32 okm in
            let clientKey := take 32 (drop 32 okm) in
            let nonceSalt := take 4 (drop 64 okm) in
            (true, mkChannel true (if weAreHost then hostKey else clientKey)
                     (if weAreHost then clientKey else hostKey) nonceSalt 1 0 false (replicate 64 0)
                     (sc_sealed s) (sc_opened s) (sc_authFailures s) (sc_replaysRejected s))
    end.

(** * Sealing *)

Definition nonceOf (salt : bytes) (counter : Z) : bytes := take 4 salt ++ le_put 8 counter.

Definition setSend (counter sealed : Z) (s : SecureChannel) : SecureChannel :=
  mkChannel (sc_active s) (sc_sendKey s) (sc_recvKey s) (sc_nonceSalt s) counter (sc_recvHighest s)
    (sc_recvInit s) (sc_recvWindow s) sealed (sc_opened s) (sc_authFailures s) (sc_replaysRejected s).

Definition seal (header payload : bytes) (s : SecureChannel) : option bytes * SecureChannel :=
  if negb (sc_active s) || (64 * 1024 <? zlen payload) then (None, s)
  else
    let counter := sc_sendCounter s in
    let s := setSend (u64 (counter + 1)) (sc_sealed s) s in
    if counter =? 0 then (None, s)
    else
      match aesGcmEncrypt (sc_sendKey s) (nonceOf (sc_nonceSalt s) counter)
              (le_put 8 counter ++ payload) (take kAadLen header) with
      | None => (None, s)
      | Some (ct, tag) => (Some (ct ++ tag), setSend (sc_sendCounter s) (u64 (sc_sealed s + 1)) s)
      end.

(** * Opening *)

Definition failAuth (s : SecureChannel) : SecureChannel :=
  mkChannel (sc_active s) (sc_sendKey s) (sc_recvKey s) (sc_nonceSalt s) (sc_sendCounter s)
    (sc_recvHighest s) (sc_recvInit s) (sc_recvWindow s) (sc_sealed s) (sc_opened s)
    (u64 (sc_authFailures s + 1)) (sc_replaysRejected s).

Definition rejectReplay (s : SecureChannel) : SecureChannel :=
  mkChannel (sc_active s) (sc_sendKey s) (sc_recvKey s) (sc_nonceSalt s) (sc_sendCounter s)
    (sc_recvHighest s) (sc_recvInit s) (sc_recvWindow s) (sc_sealed s) (sc_opened s)
    (sc_authFailures s) (u64 (sc_replaysRejected s + 1)).

(** The check before decryption: too old, or seen. *)
Definition isReplay (counter : Z) (s : SecureChannel) : bool :=
  sc_recvInit s && (counter <=? sc_recvHighest s) &&
  ((64 <=? sc_recvHighest s - counter) ||
   (nth (Z.to_nat (counter mod 64)) (sc_recvWindow s) 0 =? counter)).

Definition markSeen (counter : Z) (s : SecureChannel) : SecureChannel :=
  let highest := if negb (sc_recvInit s) then counter
                 else if sc_recvHighest s <? counter then counter else sc_recvHighest s in
  mkChannel (sc_active s) (sc_sendKey s) (sc_recvKey s) (sc_nonceSalt s) (sc_sendCounter s)
    highest true (<[Z.to_nat (counter mod 64) := counter]> (sc_recvWindow s)) (sc_sealed s)
    (u64 (sc_opened s + 1)) (sc_authFailures s) (sc_replaysRejected s).

(** The counter [open] works with: the first eight bytes of what it was given. *)
Definition wireCounter (sealed : bytes) : Z := le_get (take 8 sealed).

(** [open] is a member name of the code; the keyword is taken here. *)
Definition openSealed (header sealed : bytes) (s : SecureChannel) : option bytes * SecureChannel :=
  if negb (sc_active s) || (zlen sealed <? 8 + Z.of_nat kGcmTagBytes) then (None, failAuth s)
  else
    let ctLen := (length sealed - kGcmTagBytes)%nat in
    let counter := wireCounter sealed in
    let tag := take kGcmTagBytes (drop ctLen sealed) in
    if isReplay counter s then (None, rejectReplay s)
    else
      match aesGcmDecrypt (sc_recvKey s) (nonceOf (sc_nonceSalt s) counter) (take ctLen sealed)
              (take kAadLen header) tag with
      | None => (None, failAuth s)
      | Some pt =>
          if zlen pt <? 8 then (None, failAuth s)
          else if negb (le_get (take 8 pt) =? counter) then (None, failAuth s)
          else (Some (drop 8 pt), markSeen counter s)
      end.

#[export] Instance SecureChannel_sink : UdpCryptoSink SecureChannel := {|
  sink_seal := seal; sink_open := openSealed; sink_active := sc_active |}.

#[export] Instance SecureChannel_sink_laws : UdpCryptoSinkLaws SecureChannel.
Proof.
  split; cbn; intros h p s E.
  - unfold seal. by rewrite E.
  - unfold openSealed. by rewrite E.
Qed.

(** * Lemmas: key agreement *)

Lemma lex_le_total a b : lex_le a b = false -> lex_le b a = true.
Proof.
  revert b. induction a as [|x a IH]; intros [|y b]; cbn [lex_le]; try done.
  destruct (Z.ltb_spec x y), (Z.ltb_spec y x); try done; try lia. apply IH.
Qed.

Lemma lex_le_antisym a b : lex_le a b = true -> lex_le b a = true -> a = b.
Proof.
  revert b. induction a as [|x a IH]; intros [|y b]; cbn [lex_le]; try done.
  destruct (Z.ltb_spec x y), (Z.ltb_spec y x); try done; try lia.
  intros L1 L2. rewrite (IH b L1 L2). f_equal. lia.
Qed.

(** The salt does not depend on who is asking. *)
Lemma deriveKeys_sym shared a b code : deriveKeys shared a b code = deriveKeys shared b a code.
Proof.
  unfold deriveKeys. destruct (lex_le a b) eqn:E1, (lex_le b a) eqn:E2; try done.
  - by rewrite (lex_le_antisym a b E1 E2).
  - by rewrite (lex_le_total _ _ E1) in E2.
Qed.

(** * Lemmas: replay window *)

Definition counter_ok (c : Z) : Prop := fits 64 c.

(** Everything accepted so far is either too old or still in its slot. *)
Definition remembers (acc : list Z) (s : SecureChannel) : Prop :=
  length (sc_recvWindow s) = 64%nat /\
  (sc_recvInit s = false -> acc = []) /\
  forall c, c ∈ acc -> c <= sc_recvHighest s /\
    (64 <= sc_recvHighest s - c \/ nth (Z.to_nat (c mod 64)) (sc_recvWindow s) 0 = c).

Lemma remembered_is_replay acc s c :
  remembers acc s -> c ∈ acc -> isReplay c s = true.
Proof.
  intros (HL & Hi & HA) Hc. destruct (HA c Hc) as [Hle Hold]. unfold isReplay.
  destruct (sc_recvInit s); [|by rewrite (Hi eq_refl) in Hc; apply not_elem_of_nil in Hc].
  rewrite (proj2 (Z.leb_le _ _)) by done. cbn [andb]. apply orb_true_iff.
  destruct Hold; [left; by apply Z.leb_le|right; by apply Z.eqb_eq].
Qed.

Lemma markSeen_remembers acc s c :
  0 <= c -> remembers acc s -> isReplay c s = false -> remembers (c :: acc) (markSeen c s).
Proof.
  intros Hc0 (HL & Hi & HA) Hr. unfold markSeen, remembers.
  cbn [sc_recvWindow sc_recvInit sc_recvHighest].
  pose proof (Z.mod_pos_bound c 64 ltac:(lia)) as Hm.
  split_and!; [by rewrite length_insert|done|]. intros x Hx.
  assert (Hlook : forall y, nth (Z.to_nat (y mod 64)) (<[Z.to_nat (c mod 64) := c]> (sc_recvWindow s)) 0 =
    if decide (y mod 64 = c mod 64) then c else nth (Z.to_nat (y mod 64)) (sc_recvWindow s) 0).
  { intros y. pose proof (Z.mod_pos_bound y 64 ltac:(lia)). rewrite !nth_lookup.
    destruct (decide (y mod 64 = c mod 64)) as [->|Hne].
    - by rewrite list_lookup_insert_eq by lia.
    - by rewrite list_lookup_insert_ne by lia. }
  rewrite Hlook. apply elem_of_cons in Hx as [->|Hx].
  { rewrite decide_True by done. split; [|by right]. destruct (sc_recvInit s); cbn [negb]; [|lia].
    bdestr; lia. }
  destruct (sc_recvInit s) eqn:Ei; [|by rewrite (Hi eq_refl) in Hx; apply not_elem_of_nil in Hx].
  cbn [negb]. destruct (HA x Hx) as [Hle Hold]. unfold isReplay in Hr. rewrite Ei in Hr. cbn [andb] in Hr.
  destruct (decide (x mod 64 = c mod 64)) as [Hs|Hs].
  2:{ destruct (Z.ltb_spec (sc_recvHighest s) c); (split; [lia|]); destruct Hold; (by right) || (left; lia). }
  destruct (Z.eq_dec x c) as [->|Hne]; [split; [bdestr; lia|by right]|].
  assert (Hfar : x + 64 <= c \/ c + 64 <= x) by (Z.div_mod_to_equations; lia).
  destruct (Z.ltb_spec (sc_recvHighest s) c); (split; [lia|left]); [destruct Hold; lia|].
  rewrite (proj2 (Z.leb_le _ _)) in Hr by lia. cbn [andb] in Hr. b2p. destruct Hold; lia.
Qed.

(** What [openSealed] can do: accept and mark the counter, or fail and leave the
    receive state alone. *)
Definition sameReceiver (s s' : SecureChannel) : Prop :=
  sc_recvHighest s' = sc_recvHighest s /\ sc_recvInit s' = sc_recvInit s /\
  sc_recvWindow s' = sc_recvWindow s /\ sc_recvKey s' = sc_recvKey s /\
  sc_nonceSalt s' = sc_nonceSalt s /\ sc_active s' = sc_active s.

Lemma openSealed_cases h w s :
  (exists pt, openSealed h w s = (Some (drop 8 pt), markSeen (wireCounter w) s) /\
     sc_active s = true /\ isReplay (wireCounter w) s = false /\
     (8 + kGcmTagBytes <= length w)%nat /\ le_get (take 8 pt) = wireCounter w /\ (8 <= length pt)%nat /\
     aesGcmDecrypt (sc_recvKey s) (nonceOf (sc_nonceSalt s) (wireCounter w))
       (take (length w - kGcmTagBytes) w) (take kAadLen h) (drop (length w - kGcmTagBytes) w) = Some pt) \/
  (fst (openSealed h w s) = None /\ sameReceiver s (snd (openSealed h w s))).
Proof.
  unfold openSealed. destruct (sc_active s) eqn:Ea; cbn [negb orb]; [|by right].
  destruct (Z.ltb_spec (zlen w) (8 + Z.of_nat kGcmTagBytes)) as [|Hl]; [by right|].
  assert (Hl' : (8 + kGcmTagBytes <= length w)%nat) by lia.
  destruct (isReplay (wireCounter w) s) eqn:Er; [by right|].
  rewrite (take_ge (drop _ w)) by (rewrite length_drop; lia).
  destruct (aesGcmDecrypt _ _ _ _ _) as [pt|] eqn:Ed; [|by right].
  destruct (Z.ltb_spec (zlen pt) 8); [by right|].
  destruct (Z.eqb_spec (le_get (take 8 pt)) (wireCounter w)) as [Ec|]; cbn [negb]; [|by right].
  left. exists pt. split_and!; try done. lia.
Qed.

(** Datagrams opened one after the other; the accepted ones, newest first. *)
Fixpoint openAll (ws : list (bytes * bytes)) (acc : list Z) (s : SecureChannel) : list Z * SecureChannel :=
  match ws with
  | [] => (acc, s)
  | (h, w) :: ws =>
      let '(out, s) := openSealed h w s in
      openAll ws (match out with Some _ => wireCounter w :: acc | None => acc end) s
  end.

Lemma remembers_same acc s s' : sameReceiver s s' -> remembers acc s -> remembers acc s'.
Proof. intros (Eh & Ei & Ew & _). unfold remembers. by rewrite Eh, Ei, Ew. Qed.

Lemma openAll_nodup ws acc s :
  Forall (fun hw => 0 <= wireCounter (snd hw)) ws -> NoDup acc -> remembers acc s ->
  NoDup (fst (openAll ws acc s)).
Proof.
  revert acc s. induction ws as [|[h w] ws IH]; intros acc s Hw Hn Hr; [done|].
  apply Forall_cons_iff in Hw as [Hw Hws]. cbn [openAll snd] in *.
  destruct (openSealed_cases h w s) as [(pt & -> & _ & Hnr & _)|[En Hsame]].
  - apply IH; [done| |by apply markSeen_remembers].
    constructor; [|done]. intros Hin. by rewrite (remembered_is_replay _ _ _ Hr Hin) in Hnr.
  - destruct (openSealed h w s) as [out s']. cbn [fst snd] in *. subst out.
    apply IH; [done|done|]. by eapply remembers_same.
Qed.

(** ** Sealing *)

Lemma seal_cases h p s :
  (exists ct tag, fst (seal h p s) = Some (ct ++ tag) /\ sc_active s = true /\ sc_sendCounter s <> 0 /\
     aesGcmEncrypt (sc_sendKey s) (nonceOf (sc_nonceSalt s) (sc_sendCounter s))
       (le_put 8 (sc_sendCounter s) ++ p) (take kAadLen h) = Some (ct, tag) /\
     snd (seal h p s) = setSend (u64 (sc_sendCounter s + 1)) (u64 (sc_sealed s + 1)) s) \/
  (fst (seal h p s) = None /\
   (snd (seal h p s) = s \/ snd (seal h p s) = setSend (u64 (sc_sendCounter s + 1)) (sc_sealed s) s)).
Proof.
  unfold seal. destruct (sc_active s) eqn:Ea; cbn [negb orb]; [|right; by auto].
  destruct (64 * 1024 <? zlen p); [right; by auto|].
  destruct (Z.eqb_spec (sc_sendCounter s) 0); [right; by auto|].
  cbn [setSend sc_sendKey sc_nonceSalt].
  destruct (aesGcmEncrypt _ _ _ _) as [[ct tag]|] eqn:Ee; [|right; by auto].
  left. exists ct, tag. by split_and!.
Qed.

(** The requests that were sealed, each with what it became on the wire. *)
Fixpoint sealAll (ps : list (bytes * bytes)) (s : SecureChannel) : list (bytes * bytes * bytes) :=
  match ps with
  | [] => []
  | (h, p) :: ps =>
      let '(out, s) := seal h p s in
      match out with Some w => (h, p, w) :: sealAll ps s | None => sealAll ps s end
  end.

(** [w] is the GCM ciphertext of the request under [key], with the nonce of
    [salt] and [c]: the counter and the payload are the plaintext, the first 30
    header bytes the associated data. *)
Definition encryptedUnder (key salt : bytes) (hpw : bytes * bytes * bytes) (c : Z) : Prop :=
  let '(h, p, w) := hpw in
  exists ct tag, w = ct ++ tag /\
    aesGcmEncrypt key (nonceOf salt c) (le_put 8 c ++ p) (take kAadLen h) = Some (ct, tag).

Lemma nonceOf_inj salt c1 c2 : fits 64 c1 -> fits 64 c2 -> nonceOf salt c1 = nonceOf salt c2 -> c1 = c2.
Proof.
  intros F1 F2 E. unfold nonceOf in E. apply app_inv_head in E.
  rewrite <- (le_get_put_64 c1), <- (le_get_put_64 c2) by done. by rewrite E.
Qed.

(** The counters of a run of seals ascend from the channel's. *)
Lemma sealAll_counters ps s :
  0 <= sc_sendCounter s -> sc_sendCounter s + zlen ps < 2 ^ 64 ->
  exists cs, Forall2 (encryptedUnder (sc_sendKey s) (sc_nonceSalt s)) (sealAll ps s) cs /\ NoDup cs /\
    Forall (fun c => sc_sendCounter s <= c < 2 ^ 64) cs.
Proof.
  revert s. induction ps as [|[h p] ps IH]; intros s H0 Hb; cbn [sealAll length] in *.
  { exists []. by split_and!; constructor. }
  assert (Eu : u64 (sc_sendCounter s + 1) = sc_sendCounter s + 1) by (apply u64_id; widths; lia).
  assert (Step : forall k, exists cs, Forall2 (encryptedUnder (sc_sendKey s) (sc_nonceSalt s))
      (sealAll ps (setSend (u64 (sc_sendCounter s + 1)) k s)) cs /\ NoDup cs /\
      Forall (fun c => sc_sendCounter s + 1 <= c < 2 ^ 64) cs).
  { intros k. destruct (IH (setSend (u64 (sc_sendCounter s + 1)) k s)) as (cs & H2 & Hd & Hc);
      [cbn [setSend sc_sendCounter]; rewrite Eu; lia..|].
    exists cs. split_and!; [exact H2|done|]. cbn [setSend sc_sendCounter] in Hc. by rewrite Eu in Hc. }
  assert (Weaken : forall cs, Forall (fun c => sc_sendCounter s + 1 <= c < 2 ^ 64) cs ->
    Forall (fun c => sc_sendCounter s <= c < 2 ^ 64) cs) by (intros cs Hcs; eapply list.Forall_impl; [exact Hcs|cbv beta; lia]).
  destruct (seal_cases h p s) as [(ct & tg & E1 & _ & _ & Ee & E2)|[E1 [E2|E2]]];
    destruct (seal h p s) as [out s']; cbn [fst snd] in *; subst out s'.
  - destruct (Step (u64 (sc_sealed s + 1))) as (cs & H2 & Hd & Hc). exists (sc_sendCounter s :: cs). split_and!.
    + constructor; [|exact H2]. by exists ct, tg.
    + apply list.NoDup_cons. split; [|done]. intros Hin. rewrite list.Forall_forall in Hc. specialize (Hc _ Hin). lia.
    + apply list.Forall_cons. split; [lia|by apply Weaken].
  - apply IH; lia.
  - destruct (Step (sc_sealed s)) as (cs & H2 & Hd & Hc). exists cs. split_and!; [done|done|by apply Weaken].
Qed.

End Channel.

(** The key schedule succeeds on well-formed input, with 68 bytes of key material. *)
Lemma finish_value `{CNG, !CNGLaws} kp ourSalt peerPub peerSalt code host s shared :
  ecdhP256 kp peerPub = Some shared -> length shared = 32%nat -> length ourSalt = 16%nat -> length peerSalt = 16%nat ->
  length peerPub = kEcdhPubBytes ->
  let okm := deriveKeys shared ourSalt peerSalt code in
  length okm = kOkmLen /\
  finish kp ourSalt peerPub peerSalt code host s =
    (true, mkChannel true (if host then take 32 okm else take 32 (drop 32 okm)) (if host then take 32 (drop 32 okm) else take 32 okm)
             (take 4 (drop 64 okm)) 1 0 false (replicate 64 0) (sc_sealed s) (sc_opened s) (sc_authFailures s) (sc_replaysRejected s)).
Proof.
  intros He Hsh Hs1 Hs2 Hp okm.
  assert (Hl : length okm = kOkmLen).
  { unfold okm, deriveKeys. destruct (lex_le ourSalt peerSalt);
      (rewrite (proj1 (hkdfSha256_reference _ _ _ kOkmLen ltac:(by_decision)));
       apply hkdfSha256_reference; by_decision). }
  split; [done|]. unfold finish. rewrite He, Hsh, Hs1, Hs2, Hp. cbn [Nat.eqb negb orb]. rewrite !Nat.eqb_refl. cbn [negb orb].
  fold okm. rewrite Hl, Nat.eqb_refl. by cbn [negb sc_sealed sc_opened sc_authFailures sc_replaysRejected].
Qed.

(** * Theorems *)

(** Key agreement: when the host and the client complete the schedule with
    each other's public key and salt, the same session code, and a key agreement
    that is symmetric for their pairs, both succeed, each sends with the key the
    other receives with, and they share the nonce salt, whichever salt is
    smaller. *)
Theorem finish_agreement `{CNG, !CNGLaws} hostKp clientKp hostSalt clientSalt code sh sc shared
  (Hecdh : ecdhP256 hostKp (kp_publicKey clientKp) = Some shared)
  (Hsym : ecdhP256 clientKp (kp_publicKey hostKp) = ecdhP256 hostKp (kp_publicKey clientKp))
  (Hsh : length shared = 32%nat) (Hs1 : length hostSalt = 16%nat) (Hs2 : length clientSalt = 16%nat)
  (Hp1 : length (kp_publicKey hostKp) = kEcdhPubBytes) (Hp2 : length (kp_publicKey clientKp) = kEcdhPubBytes) :
  let '(ok1, h) := finish hostKp hostSalt (kp_publicKey clientKp) clientSalt code true sh in
  let '(ok2, c) := finish clientKp clientSalt (kp_publicKey hostKp) hostSalt code false sc in
  ok1 = true /\ ok2 = true /\ sc_active h = true /\ sc_active c = true /\
  sc_sendKey h = sc_recvKey c /\ sc_recvKey h = sc_sendKey c /\ sc_nonceSalt h = sc_nonceSalt c /\
  length (sc_sendKey h) = 32%nat /\ length (sc_sendKey c) = 32%nat /\ length (sc_nonceSalt h) = 4%nat /\
  sc_sendCounter h = 1 /\ sc_recvInit c = false.
Proof.
  destruct (finish_value hostKp hostSalt (kp_publicKey clientKp) clientSalt code true sh shared) as [Hl ->]; try done.
  destruct (finish_value clientKp clientSalt (kp_publicKey hostKp) hostSalt code false sc shared) as [_ ->]; try done; [by rewrite Hsym|].
  rewrite (deriveKeys_sym shared clientSalt hostSalt). cbn [sc_active sc_sendKey sc_recvKey sc_nonceSalt sc_sendCounter sc_recvInit].
  unfold kOkmLen in Hl. rewrite !length_take, !length_drop, Hl. split_and!; done.
Qed.

Lemma finish_agreement_witness :
  let '(ok1, h) := @finish Toy.cng (Toy.keyPair 5) (replicate 16 9) (kp_publicKey (Toy.keyPair 7))
                     (replicate 16 3) (str "ABCD-2345") true newChannel in
  let '(ok2, c) := @finish Toy.cng (Toy.keyPair 7) (replicate 16 3) (kp_publicKey (Toy.keyPair 5))
                     (replicate 16 9) (str "ABCD-2345") false newChannel in
  ok1 = true /\ ok2 = true /\ sc_active h = true /\ sc_active c = true /\
  sc_sendKey h = sc_recvKey c /\ sc_recvKey h = sc_sendKey c /\ sc_nonceSalt h = sc_nonceSalt c /\
  length (sc_sendKey h) = 32%nat /\ length (sc_sendKey c) = 32%nat /\ length (sc_nonceSalt h) = 4%nat /\
  sc_sendCounter h = 1 /\ sc_recvInit c = false.
Proof.
  apply (@finish_agreement Toy.cng Toy.cng_laws (Toy.keyPair 5) (Toy.keyPair 7) (replicate 16 9)
    (replicate 16 3) (str "ABCD-2345") newChannel newChannel (reverse (le_put 32 35)));
    vm_compute; reflexivity.
Defined.

(** C9: no replay is accepted: over any sequence of datagrams a fresh channel is
    asked to open, forged, reordered or repeated, no two accepted ones carry the
    same counter. *)
Theorem open_never_replays `{CNG} ws s
  (Hinit : sc_recvInit s = false) (Hw : length (sc_recvWindow s) = 64%nat)
  (Hb : Forall (fun hw => bytes_ok (take 8 (snd hw))) ws) :
  NoDup (fst (openAll ws [] s)).
Proof.
  apply openAll_nodup; [|constructor|].
  - eapply list.Forall_impl; [exact Hb|]. intros [h w] Hbw. cbn [snd] in *.
    by apply le_get_range.
  - split_and!; [done|done|]. intros c Hc. by apply not_elem_of_nil in Hc.
Qed.

(** Channels with a known key. Under the toy cipher a zero key leaves the text as
    it is, any other key hides it. *)
Definition sample_channel (k : Z) : SecureChannel :=
  mkChannel true (replicate 32 k) (replicate 32 k) [1; 2; 3; 4] 1 0 false (replicate 64 0) 0 0 0 0.

(** What a sample channel seals first. *)
Definition sample_sealed (k : Z) (header payload : bytes) : bytes :=
  default [] (fst (@seal Toy.cng header payload (sample_channel k))).

Lemma open_never_replays_witness :
  NoDup (fst (@openAll Toy.cng [([], sample_sealed 0 [] [7]); ([], sample_sealed 0 [] [7])] [] (sample_channel 0))).
Proof.
  apply (@open_never_replays Toy.cng [([], sample_sealed 0 [] [7]); ([], sample_sealed 0 [] [7])] (sample_channel 0)).
  - reflexivity.
  - reflexivity.
  - by_decision.
Defined.

(** C19: no nonce is used twice: over any sequence of fewer than 2^64 seals, with
    failed and oversized requests among them, every datagram that leaves is the
    GCM ciphertext of its request under the send key and a nonce of its own: the
    nonces the cipher was given are pairwise distinct. *)
Theorem seal_nonces_unique `{CNG} ps s
  (H0 : 0 <= sc_sendCounter s) (Hn : sc_sendCounter s + zlen ps < 2 ^ 64) :
  exists cs, Forall2 (encryptedUnder (sc_sendKey s) (sc_nonceSalt s)) (sealAll ps s) cs /\
    NoDup (nonceOf (sc_nonceSalt s) <$> cs).
Proof.
  destruct (sealAll_counters ps s H0 Hn) as (cs & H2 & Hd & Hc). exists cs. split; [done|]. clear H2.
  induction Hd as [|c cs Hin Hd IH]; cbn; [constructor|]. apply list.Forall_cons in Hc as [Hc Hcs].
  apply list.NoDup_cons. split; [|by apply IH]. intros (c' & E & Hin')%list_elem_of_fmap.
  rewrite list.Forall_forall in Hcs. specialize (Hcs _ Hin'). apply nonceOf_inj in E; [by subst|widths; lia..].
Qed.

Lemma seal_nonces_unique_witness :
  length (@sealAll Toy.cng [([], [1]); ([], [2]); ([], [3])] (sample_channel 0)) = 3%nat /\
  exists cs, Forall2 (@encryptedUnder Toy.cng (sc_sendKey (sample_channel 0)) (sc_nonceSalt (sample_channel 0)))
      (@sealAll Toy.cng [([], [1]); ([], [2]); ([], [3])] (sample_channel 0)) cs /\
    NoDup (nonceOf (sc_nonceSalt (sample_channel 0)) <$> cs).
Proof.
  split; [vm_compute; reflexivity|].
  apply (@seal_nonces_unique Toy.cng [([], [1]); ([], [2]); ([], [3])] (sample_channel 0)); by_decision.
Defined.

(** What is opened is authentic: an accepted datagram is a GCM ciphertext made
    under the receive key, with the nonce of its counter, the first 30 header
    bytes as associated data, and the counter followed by the delivered payload
    as plaintext; opening advances the window and nothing else is delivered. *)
Theorem open_authentic `{CNG, !CNGLaws} h w s out (Ho : fst (openSealed h w s) = Some out) :
  exists pt ct tag, w = ct ++ tag /\ length tag = kGcmTagBytes /\ out = drop 8 pt /\
    le_get (take 8 pt) = wireCounter w /\
    aesGcmEncrypt (sc_recvKey s) (nonceOf (sc_nonceSalt s) (wireCounter w)) pt (take kAadLen h) = Some (ct, tag) /\
    sc_active s = true /\ isReplay (wireCounter w) s = false /\ snd (openSealed h w s) = markSeen (wireCounter w) s.
Proof.
  destruct (openSealed_cases h w s) as [(pt & E & Ha & Hr & Hl & Hc & _ & Hd)|[En _]].
  - rewrite E in *. cbn [fst snd] in *. apply Some_inj in Ho. subst out.
    exists pt, (take (length w - kGcmTagBytes) w), (drop (length w - kGcmTagBytes) w).
    split_and!; try done.
    + by rewrite take_drop.
    + rewrite length_drop. lia.
    + by apply cng_gcm_authentic in Hd.
  - by rewrite En in Ho.
Qed.

Lemma open_authentic_witness :
  exists pt ct tag, sample_sealed 0 [] [7] = ct ++ tag /\ length tag = kGcmTagBytes /\ [7] = drop 8 pt /\
    le_get (take 8 pt) = wireCounter (sample_sealed 0 [] [7]) /\
    @aesGcmEncrypt Toy.cng (sc_recvKey (sample_channel 0))
      (nonceOf (sc_nonceSalt (sample_channel 0)) (wireCounter (sample_sealed 0 [] [7]))) pt (take kAadLen [])
      = Some (ct, tag) /\
    sc_active (sample_channel 0) = true /\ isReplay (wireCounter (sample_sealed 0 [] [7])) (sample_channel 0) = false /\
    snd (@openSealed Toy.cng [] (sample_sealed 0 [] [7]) (sample_channel 0))
      = markSeen (wireCounter (sample_sealed 0 [] [7])) (sample_channel 0).
Proof.
  apply (@open_authentic Toy.cng Toy.cng_laws [] (sample_sealed 0 [] [7]) (sample_channel 0) [7]).
  vm_compute. reflexivity.
Defined.

(** The channel fails closed: without keys nothing is sealed or opened, and a
    failed key exchange leaves the channel without keys. *)
Theorem channel_fails_closed `{CNG} :
  (forall h p s, sc_active s = false -> fst (seal h p s) = None /\ snd (seal h p s) = s) /\
  (forall h w s, sc_active s = false -> fst (openSealed h w s) = None) /\
  (forall kp salt pub psalt code host s,
     fst (finish kp salt pub psalt code host s) = false ->
     sc_active (snd (finish kp salt pub psalt code host s)) = false).
Proof.
  split_and!.
  - intros h p s E. unfold seal. by rewrite E.
  - intros h w s E. unfold openSealed. by rewrite E.
  - intros kp salt pub psalt code host s. unfold finish. repeat (break_goal; try done).
Qed.

(** The receiver reads the counter from the first eight ciphertext bytes, but
    the sender puts it inside the plaintext: a sealed datagram is opened by the
    peer exactly when its encrypted counter happens to look like the counter
    itself, and is dropped otherwise, however the channel is set up. *)
Theorem honest_datagram_needs_visible_counter `{CNG, !CNGLaws, !GcmBinding} h p s r w
  (Hs : fst (seal h p s) = Some w) (Hr : sc_active r = true)
  (Hk : sc_recvKey r = sc_sendKey s) (Hsalt : sc_nonceSalt r = sc_nonceSalt s)
  (Hc : fits 64 (sc_sendCounter s)) (Hw : bytes_ok (take 8 w))
  (Hnew : isReplay (sc_sendCounter s) r = false) :
  fst (openSealed h w r) = if wireCounter w =? sc_sendCounter s then Some p else None.
Proof.
  destruct (seal_cases h p s) as [(ct & tag & E & _ & _ & Henc & _)|[E _]]; [|by rewrite E in Hs].
  rewrite E in Hs. apply Some_inj in Hs. subst w.
  destruct (cng_gcm_length _ _ _ _ _ _ Henc) as [Lc Lt].
  rewrite length_app, le_put_length in Lc.
  assert (Hn : forall w', nonceOf (sc_nonceSalt s) w' = nonceOf (sc_nonceSalt s) (sc_sendCounter s) ->
                fits 64 w' -> w' = sc_sendCounter s) by (intros w' En Hf; by apply nonceOf_inj in En).
  destruct (Z.eqb_spec (wireCounter (ct ++ tag)) (sc_sendCounter s)) as [Ew|Hne].
  - unfold openSealed. rewrite Hr, Ew, Hnew. cbn [negb orb].
    rewrite (proj2 (Z.ltb_ge _ _)) by (rewrite length_app, Lc, Lt; unfold kGcmTagBytes; lia).
    replace (length (ct ++ tag) - kGcmTagBytes)%nat with (length ct)
      by (rewrite length_app, Lt; unfold kGcmTagBytes; lia).
    rewrite take_app_length, drop_app_length, (take_ge tag) by (unfold kGcmTagBytes; lia).
    rewrite Hk, Hsalt. apply cng_gcm_correct in Henc. unfold aesGcmDecrypt. rewrite Henc.
    rewrite (proj2 (Z.ltb_ge _ _)) by (rewrite length_app, le_put_length; lia).
    rewrite (take_app_length' (le_put 8 _)), le_get_put_64, Z.eqb_refl by (done || by rewrite le_put_length).
    cbn [negb fst]. by rewrite (drop_app_length' (le_put 8 _)) by (by rewrite le_put_length).
  - destruct (openSealed_cases h (ct ++ tag) r) as [(pt & _ & _ & _ & _ & _ & _ & Hd)|[-> _]]; [|done].
    exfalso. apply Hne. apply cng_gcm_authentic in Hd.
    replace (length (ct ++ tag) - kGcmTagBytes)%nat with (length ct) in Hd
      by (rewrite length_app, Lt; unfold kGcmTagBytes; lia).
    rewrite take_app_length, drop_app_length, Hk, Hsalt in Hd.
    destruct (gcm_binding _ _ _ _ _ _ _ _ _ Hd Henc) as [En _]. apply Hn; [done|].
    unfold wireCounter, fits. pose proof (le_get_range _ Hw) as R.
    assert (256 ^ zlen (take 8 (ct ++ tag)) <= 2 ^ 64).
    { change (2 ^ 64) with (256 ^ 8). apply Z.pow_le_mono_r; [lia|]. rewrite length_take. lia. }
    lia.
Qed.

Lemma honest_datagram_needs_visible_counter_witness :
  fst (@openSealed Toy.cng [] (sample_sealed 0x5A [] [7]) (sample_channel 0x5A)) = None.
Proof.
  rewrite (@honest_datagram_needs_visible_counter Toy.cng Toy.cng_laws Toy.cng_binding [] [7]
    (sample_channel 0x5A) (sample_channel 0x5A) (sample_sealed 0x5A [] [7])).
  - vm_compute. reflexivity.
  - vm_compute. reflexivity.
  - reflexivity.
  - reflexivity.
  - reflexivity.
  - by_decision.
  - by_decision.
  - vm_compute. reflexivity.
Defined.
