(* ===== verification/Double.v ===== *)
(** IEEE 754 binary64 arithmetic, for the parts of the program that compute with
    [double]: the Standard Library's specification of floating-point operations
    (round to nearest even) at 53 bits of precision. *)

From Stdlib Require Export SpecFloat.
From S2P Require Import Prelude.

Abbreviation double := spec_float.

Definition dprec : Z := 53.
Definition demax : Z := 1024.

Definition dadd : double -> double -> double := SFadd dprec demax.
Definition dsub : double -> double -> double := SFsub dprec demax.
Definition dmul : double -> double -> double := SFmul dprec demax.
Definition ddiv : double -> double -> double := SFdiv dprec demax.
Definition dltb : double -> double -> bool := SFltb.
Definition dleb : double -> double -> bool := SFleb.
Definition deqb : double -> double -> bool := SFeqb.

(** Conversion from an integer type. *)
Definition dofZ (z : Z) : double := binary_normalize dprec demax z 0 false.

(** A finite double from its mantissa and exponent. *)
Definition dlit (m e : Z) : double := binary_normalize dprec demax m e false.

Definition dzero : double := S754_zero false.

(** Conversion to an integer type: truncation toward zero; [None] where C++ leaves
    the result undefined (NaN, infinity; the caller checks the range). *)
Definition dtrunc (d : double) : option Z :=
  match d with
  | S754_zero _ => Some 0
  | S754_finite s m e =>
      let a := if 0 <=? e then Z.pos m * 2 ^ e else Z.pos m / 2 ^ (- e) in
      Some (if s then - a else a)
  | _ => None
  end.

(** The literals of the code, as the nearest doubles. *)
Definition d0_9 : double := dlit 8106479329266893 (-53).
Definition d0_1 : double := dlit 7205759403792794 (-56).
Definition d0_8 : double := dlit 7205759403792794 (-53).
Definition d0_2 : double := dlit 7205759403792794 (-55).
Definition d1e6 : double := dofZ 1000000.

(** ** Operations that stay finite

    [dsmall w d]: [d] is finite and of magnitude below 2^[w]. Conversions from
    integers and products of small finite doubles are finite and small, so
    [dtrunc] of them is defined and fits the integer type. *)

Definition dsmall (w : Z) (d : double) : Prop :=
  match d with
  | S754_zero _ => True
  | S754_finite _ m e => Z.pos (digits2_pos m) + e <= w
  | _ => False
  end.

Lemma digits2_log2 m : Z.pos (digits2_pos m) = Z.log2 (Z.pos m) + 1.
Proof.
  assert (Hs : digits2_pos m = Pos.size m) by (induction m; cbn; congruence). rewrite Hs.
  destruct m; cbn; lia.
Qed.

Lemma Zdigits2_log2 m : 0 < m -> Zdigits2 m = Z.log2 m + 1.
Proof. destruct m; [done| |lia]. intros _. apply digits2_log2. Qed.

Lemma iter_pos_iter {A} (f : A -> A) p x : SpecFloat.iter_pos f p x = Pos.iter f x p.
Proof.
  revert x. induction p as [p IH|p IH|]; intros x; cbn [SpecFloat.iter_pos Pos.iter]; [|by rewrite !IH|done].
  rewrite !IH. by rewrite <- !Pos.iter_swap.
Qed.

Lemma shr_1_half r : 0 <= shr_m r -> 0 <= shr_m (shr_1 r) /\ shr_m (shr_1 r) * 2 <= shr_m r.
Proof. destruct r as [[|[q|q|]|q] g st]; cbn [shr_1 shr_m]; lia. Qed.

Lemma shr_iter p r :
  0 <= shr_m r -> 0 <= shr_m (Pos.iter shr_1 r p) /\ shr_m (Pos.iter shr_1 r p) * 2 ^ Z.pos p <= shr_m r.
Proof.
  intros Hr. revert p. apply Pos.peano_ind; [by apply shr_1_half|]. intros p [IH1 IH2].
  rewrite Pos.iter_succ. apply shr_1_half in IH1 as [H1 H2]. split; [done|].
  rewrite Pos2Z.inj_succ, Z.pow_succ_r by lia. nia.
Qed.

(** A right shift divides the mantissa and keeps the scale. *)
Lemma shr_fexp_bound m e l r e' :
  0 <= m -> shr_fexp dprec demax m e l = (r, e') ->
  0 <= shr_m r /\ shr_m r * 2 ^ (e' - e) <= m /\ e' = Z.max e (fexp dprec demax (Zdigits2 m + e)) /\
  (e' = e -> shr_m r = m).
Proof.
  intros Hm. unfold shr_fexp, shr. assert (Hx : shr_m (shr_record_of_loc m l) = m) by (by destruct l as [|[]]).
  destruct (fexp _ _ _ - e) as [|p|p] eqn:E; intros [= <- <-]; rewrite ?Hx.
  1,3: rewrite Z.sub_diag; lia.
  rewrite iter_pos_iter. destruct (shr_iter p (shr_record_of_loc m l)) as [H1 H2]; [lia|].
  rewrite Hx in H2. replace (e + Z.pos p - e) with (Z.pos p) by lia. split_and!; [done|done|lia|lia].
Qed.

Lemma shr_digits m e l r e' :
  0 < m -> shr_fexp dprec demax m e l = (r, e') -> 0 < shr_m r -> Zdigits2 (shr_m r) + e' <= Zdigits2 m + e.
Proof.
  intros Hm E Hr. apply shr_fexp_bound in E as (_ & H & He & _); [|lia]. rewrite !Zdigits2_log2 by done.
  rewrite Z.mul_comm in H. pose proof (Z.log2_le_mono _ _ H) as Hl.
  rewrite Z.mul_comm, Z.log2_mul_pow2 in Hl; [lia|done|lia].
Qed.

Lemma round_digits m m2 : 0 < m -> 0 < m2 <= m + 1 -> Zdigits2 m2 <= Zdigits2 m + 1.
Proof.
  intros Hm H. rewrite !Zdigits2_log2 by lia. pose proof (Z.log2_le_mono m2 (Z.succ m)).
  pose proof (Z.log2_succ_le m). lia.
Qed.

(** Rounding at most doubles the bound. *)
Lemma binary_round_aux_small s m e w :
  0 < m -> Zdigits2 m + e <= w -> -1000 <= w <= 970 ->
  dsmall (w + 1) (binary_round_aux dprec demax s m e loc_Exact).
Proof.
  intros Hm Hw Hr. unfold binary_round_aux.
  destruct (shr_fexp dprec demax m e loc_Exact) as [r1 e1] eqn:E1.
  pose proof (shr_digits _ _ _ _ _ Hm E1) as Hd1. apply shr_fexp_bound in E1 as (H1 & _ & He1 & Hid); [|lia].
  unfold fexp, emin, dprec, demax in He1.
  set (m2 := round_nearest_even _ _). assert (Hm2 : 0 <= m2 <= shr_m r1 + 1).
  { unfold m2, round_nearest_even. destruct (loc_of_shr_record r1) as [|[]]; try lia. destruct (Z.even _); lia. }
  assert (Hw2 : 0 < m2 -> Zdigits2 m2 + e1 <= w + 1).
  { intros Hpos. destruct (decide (shr_m r1 = 0)) as [Hz|Hnz].
    - assert (m2 = 1) as -> by lia. cbn [Zdigits2 digits2_pos]. lia.
    - pose proof (round_digits (shr_m r1) m2). lia. }
  destruct (shr_fexp dprec demax m2 e1 loc_Exact) as [r2 e2] eqn:E2.
  pose proof E2 as E2'. apply shr_fexp_bound in E2' as (H2 & H2m & He2 & _); [|lia].
  destruct (shr_m r2) as [|q|q] eqn:Eq; cbn; [done| |lia].
  assert (Hm2p : 0 < m2) by nia. pose proof (shr_digits _ _ _ _ _ Hm2p E2) as Hd2. rewrite Eq in Hd2.
  cbn [Zdigits2] in Hd2. change (demax - dprec) with 971. destruct (Z.leb_spec e2 971); cbn [dsmall]; lia.
Qed.

Lemma iter_xO_digits m d : Z.pos (digits2_pos (Pos.iter xO m d)) = Z.pos (digits2_pos m) + Z.pos d.
Proof.
  revert d. apply Pos.peano_ind; [cbn; lia|]. intros d IH. rewrite Pos.iter_succ. cbn [digits2_pos]. lia.
Qed.

Lemma dofZ_small w z : Z.abs z < 2 ^ w -> 0 <= w <= 900 -> dsmall (w + 1) (dofZ z).
Proof.
  intros Hz Hw. assert (Hb : forall s p, Z.pos p < 2 ^ w -> dsmall (w + 1) (binary_round dprec demax s p 0)).
  { intros s p Hp. unfold binary_round, shl_align.
    assert (Hd : Z.pos (digits2_pos p) <= w).
    { rewrite digits2_log2. pose proof (Z.log2_lt_pow2 (Z.pos p) w). lia. }
    destruct (fexp _ _ _ - 0) as [|d|d] eqn:Ed; apply binary_round_aux_small; cbn [Zdigits2];
      rewrite ?iter_xO_digits; lia. }
  destruct z as [|p|p]; cbn; [done|by apply Hb|by apply Hb].
Qed.

Lemma dmul_small w1 w2 x y :
  dsmall w1 x -> dsmall w2 y -> -1000 <= w1 + w2 <= 970 -> dsmall (w1 + w2 + 1) (dmul x y).
Proof.
  intros Hx Hy Hle. destruct x as [s1|s1| |s1 m1 e1], y as [s2|s2| |s2 m2 e2]; try done.
  cbn [dsmall] in Hx, Hy. apply binary_round_aux_small; [done| |done].
  cbn [Zdigits2]. rewrite digits2_log2 in *. rewrite Pos2Z.inj_mul.
  pose proof (Z.log2_mul_above (Z.pos m1) (Z.pos m2)). lia.
Qed.

Lemma dtrunc_small w d : dsmall w d -> 0 <= w -> exists v, dtrunc d = Some v /\ Z.abs v < 2 ^ w.
Proof.
  destruct d as [s|s| |s m e]; cbn [dsmall dtrunc]; try done; intros H Hw.
  { exists 0. split; [done|]. cbn. lia. }
  eexists. split; [done|]. rewrite digits2_log2 in H. pose proof (Z.log2_spec (Z.pos m)) as [_ Hlt]; [lia|].
  set (a := if 0 <=? e then _ else _). assert (Ha : 0 <= a < 2 ^ w); [|destruct s; lia].
  unfold a. destruct (Z.leb_spec 0 e) as [He|He].
  - split; [pose proof (Z.pow_pos_nonneg 2 e); lia|].
    apply Z.lt_le_trans with (2 ^ (Z.succ (Z.log2 (Z.pos m)) + e)); [|apply Z.pow_le_mono_r; lia].
    rewrite Z.pow_add_r by (pose proof (Z.log2_nonneg (Z.pos m)); lia).
    apply Z.mul_lt_mono_pos_r; [apply Z.pow_pos_nonneg; lia|done].
  - split; [apply Z.div_pos; [lia|apply Z.pow_pos_nonneg; lia]|].
    apply Z.div_lt_upper_bound; [apply Z.pow_pos_nonneg; lia|].
    rewrite <- Z.pow_add_r by lia. eapply Z.lt_le_trans; [exact Hlt|]. apply Z.pow_le_mono_r; lia.
Qed.
