(* ===== verification/AdaptiveBitrate.v ===== *)
(** adapt/AdaptiveBitrate.h and AdaptiveBitrate.cpp: the adaptive bitrate
    controller, one sample per second in, a new target out when it changes.

    Samples and thresholds are binary64. The one conversion back to [int], the
    size of a step, is undefined in C++ when the truncated product is not an
    [int], and so are the sums of [int]s that leave the type: [step] and [plus]
    then have no value and neither has [update]. The theorems say that a change is
    justified by the samples before it and spaced from the previous one, and that
    under the default thresholds the controller is defined on every range below
    2^30 and follows a persistently bad (good) link to its floor (ceiling). *)

From S2P Require Import Prelude Double.

(** * Data *)

Record LinkSample := mkSample {
  ls_rttMs : double; ls_lossPercent : double; ls_jitterMs : double; ls_decodeQueueFrames : double;
  ls_fpsRatio : double }.

(** The public thresholds of the class. *)
Record Thresholds := mkThresholds {
  th_badRttMs : double; th_badLossPercent : double; th_badJitterMs : double; th_badQueueFrames : double;
  th_badFpsRatio : double; th_goodRttMs : double; th_goodLossPercent : double; th_goodJitterMs : double;
  th_goodFpsRatio : double; th_downStreakNeeded : Z; th_upStreakNeeded : Z; th_cooldownSamples : Z;
  th_downStepFraction : double; th_upStepFraction : double }.

Definition d0_15 : double := dlit 5404319552844595 (-55).
Definition d0_3 : double := dlit 5404319552844595 (-54).
Definition d0_95 : double := dlit 8556839292003942 (-53).

Definition defaultThresholds : Thresholds :=
  mkThresholds (dofZ 150) (dofZ 2) (dofZ 15) (dofZ 4) d0_8 (dofZ 80) d0_3 (dofZ 5) d0_95 3 10 2 d0_15 d0_1.

Record AdaptiveBitrate := mkAbr {
  ab_currentKbps : Z; ab_minKbps : Z; ab_maxKbps : Z; ab_downStreak : Z; ab_upStreak : Z; ab_cooldown : Z }.

(** [std::clamp]. *)
Definition clamp (v lo hi : Z) : Z := if v <? lo then lo else if hi <? v then hi else v.

Definition newAbr (initialKbps minKbps maxKbps : Z) : AdaptiveBitrate :=
  mkAbr (clamp initialKbps minKbps maxKbps) minKbps maxKbps 0 0 0.

Definition degraded (a : AdaptiveBitrate) : bool := 0 <? ab_downStreak a.

(** * The classification of a sample *)

Section Controller.
Context (th : Thresholds).

Definition isBad (s : LinkSample) : bool :=
  if dleb (th_badLossPercent th) (ls_lossPercent s) then true
  else if dleb (th_badRttMs th) (ls_rttMs s) then true
  else if dleb (th_badJitterMs th) (ls_jitterMs s) then true
  else if dleb (th_badQueueFrames th) (ls_decodeQueueFrames s) then true
  else if dltb dzero (ls_fpsRatio s) && dleb (ls_fpsRatio s) (th_badFpsRatio th) then true
  else false.

Definition isGood (s : LinkSample) : bool :=
  if dltb (th_goodLossPercent th) (ls_lossPercent s) then false
  else if dltb (th_badRttMs th) (ls_rttMs s) then false
  else if dltb (th_goodJitterMs th) (ls_jitterMs s) then false
  else if dleb (dofZ 2) (ls_decodeQueueFrames s) then false
  else if dltb dzero (ls_fpsRatio s) && dltb (ls_fpsRatio s) (th_goodFpsRatio th) then false
  else true.

(** * The update *)

(** [static_cast<int>] of a double. *)
Definition toInt (d : double) : option Z :=
  match dtrunc d with
  | Some v => if (- 2 ^ 31 <=? v) && (v <? 2 ^ 31) then Some v else None
  | None => None
  end.

(** [std::max(250, static_cast<int>(currentKbps_ * fraction))]. *)
Definition step (kbps : Z) (fraction : double) : option Z :=
  match toInt (dmul (dofZ kbps) fraction) with
  | Some v => Some (Z.max 250 v)
  | None => None
  end.

(** A sum of two [int]s, undefined when it overflows. *)
Definition plus (a b : Z) : option Z :=
  if (- 2 ^ 31 <=? a + b) && (a + b <? 2 ^ 31) then Some (a + b) else None.

(** [update]: what it returns and the new state. *)
Definition update (s : LinkSample) (a : AdaptiveBitrate) : option (option Z * AdaptiveBitrate) :=
  let cooldown := if 0 <? ab_cooldown a then ab_cooldown a - 1 else ab_cooldown a in
  let st (cur down up cool : Z) := mkAbr cur (ab_minKbps a) (ab_maxKbps a) down up cool in
  let cur := ab_currentKbps a in
  if isBad s then
    down ← plus (ab_downStreak a) 1;
    if (th_downStreakNeeded th <=? down) && (cooldown =? 0) then
      stp ← step cur (th_downStepFraction th);
      lower ← plus cur (- stp);
      let next := Z.max (ab_minKbps a) lower in
      if negb (next =? cur) then Some (Some next, st next 0 0 (th_cooldownSamples th))
      else Some (None, st cur 0 0 cooldown)
    else Some (None, st cur down 0 cooldown)
  else if isGood s then
    up ← plus (ab_upStreak a) 1;
    if (th_upStreakNeeded th <=? up) && (cooldown =? 0) && (cur <? ab_maxKbps a) then
      stp ← step cur (th_upStepFraction th);
      higher ← plus cur stp;
      let next := Z.min (ab_maxKbps a) higher in
      if negb (next =? cur) then Some (Some next, st next 0 0 (th_cooldownSamples th))
      else Some (None, st cur 0 0 cooldown)
    else Some (None, st cur 0 up cooldown)
  else Some (None, st cur 0 0 cooldown).

Definition setManual (kbps : Z) (a : AdaptiveBitrate) : AdaptiveBitrate :=
  mkAbr (clamp kbps (ab_minKbps a) (ab_maxKbps a)) (ab_minKbps a) (ab_maxKbps a) 0 0 (th_cooldownSamples th).

(** A run: the returned values, one per sample, and the final state. *)
Fixpoint updates (ss : list LinkSample) (a : AdaptiveBitrate) : option (list (option Z) * AdaptiveBitrate) :=
  match ss with
  | [] => Some ([], a)
  | s :: ss =>
      '(r, a) ← update s a;
      '(rs, a) ← updates ss a;
      Some (r :: rs, a)
  end.

(** * The range *)

Definition abr_ok (a : AdaptiveBitrate) : Prop :=
  ab_minKbps a <= ab_currentKbps a <= ab_maxKbps a /\ 0 <= ab_cooldown a <= th_cooldownSamples th /\
  0 <= ab_downStreak a /\ 0 <= ab_upStreak a.

Lemma step_ge kbps f v : step kbps f = Some v -> 250 <= v.
Proof. unfold step. destruct (toInt _); [|done]. intros [= <-]. lia. Qed.

Lemma plus_Some a b v : plus a b = Some v -> v = a + b.
Proof. unfold plus. destruct (_ && _); [|done]. by intros [= <-]. Qed.

Lemma plus_fits a b : - 2 ^ 31 <= a + b < 2 ^ 31 -> plus a b = Some (a + b).
Proof.
  intros H. unfold plus. destruct (Z.leb_spec (- 2 ^ 31) (a + b)); [|lia]. by destruct (Z.ltb_spec (a + b) (2 ^ 31)); [|lia].
Qed.

(** What one update does, by the class of the sample. *)
Lemma update_cases s a r a' :
  update s a = Some (r, a') ->
  ab_minKbps a' = ab_minKbps a /\ ab_maxKbps a' = ab_maxKbps a /\
  match r with
  | Some next =>
      ab_currentKbps a' = next /\ next <> ab_currentKbps a /\ ab_downStreak a' = 0 /\ ab_upStreak a' = 0 /\
      ab_cooldown a' = th_cooldownSamples th /\ ab_cooldown a <= 1 /\
      ((isBad s = true /\ th_downStreakNeeded th <= ab_downStreak a + 1 /\
        exists stp, step (ab_currentKbps a) (th_downStepFraction th) = Some stp /\
          next = Z.max (ab_minKbps a) (ab_currentKbps a - stp)) \/
       (isBad s = false /\ isGood s = true /\ th_upStreakNeeded th <= ab_upStreak a + 1 /\
        ab_currentKbps a < ab_maxKbps a /\
        exists stp, step (ab_currentKbps a) (th_upStepFraction th) = Some stp /\
          next = Z.min (ab_maxKbps a) (ab_currentKbps a + stp)))
  | None =>
      ab_currentKbps a' = ab_currentKbps a /\
      ab_cooldown a' = (if 0 <? ab_cooldown a then ab_cooldown a - 1 else ab_cooldown a) /\
      (ab_downStreak a' = 0 \/ (isBad s = true /\ ab_downStreak a' = ab_downStreak a + 1)) /\
      (ab_upStreak a' = 0 \/ (isBad s = false /\ isGood s = true /\ ab_upStreak a' = ab_upStreak a + 1))
  end.
Proof.
  unfold update. cbv zeta. set (cool := if 0 <? ab_cooldown a then _ else _).
  assert (Hcool : cool = 0 -> ab_cooldown a <= 1) by (unfold cool; destruct (Z.ltb_spec 0 (ab_cooldown a)); lia).
  destruct (isBad s) eqn:Eb; [|destruct (isGood s) eqn:Eg].
  - destruct (plus _ 1) as [down|] eqn:Ed; [|done]. apply plus_Some in Ed as ->. cbn [mbind option_bind].
    destruct ((_ <=? _) && _) eqn:Ec.
    + b2p. destruct (step _ _) as [stp|]; [|done]. cbn [mbind option_bind].
      destruct (plus _ (- stp)) as [low|] eqn:Ed; [|done]. apply plus_Some in Ed as ->. cbn [mbind option_bind].
      change (ab_currentKbps a + - stp) with (ab_currentKbps a - stp). set (next := Z.max _ _).
      destruct (Z.eqb_spec next (ab_currentKbps a)) as [|Hne]; cbn [negb]; intros Heq;
        apply Some_inj, pair_eq in Heq as [<- <-]; split_and!; try done; try (by left); try (by apply Hcool).
      left. split_and!; [done|done|]. by exists stp.
    + intros Heq; apply Some_inj, pair_eq in Heq as [<- <-]; split_and!; try done; [by right|by left].
  - destruct (plus _ 1) as [up|] eqn:Ed; [|done]. apply plus_Some in Ed as ->. cbn [mbind option_bind].
    destruct ((_ <=? _) && _ && _) eqn:Ec.
    + b2p. destruct (step _ _) as [stp|]; [|done]. cbn [mbind option_bind].
      destruct (plus _ stp) as [high|] eqn:Ed; [|done]. apply plus_Some in Ed as ->. cbn [mbind option_bind].
      set (next := Z.min _ _).
      destruct (Z.eqb_spec next (ab_currentKbps a)) as [|Hne]; cbn [negb]; intros Heq;
        apply Some_inj, pair_eq in Heq as [<- <-]; split_and!; try done; try (by left); try (by apply Hcool).
      right. split_and!; [done|done|done|done|]. by exists stp.
    + intros Heq; apply Some_inj, pair_eq in Heq as [<- <-]; split_and!; try done; [by left|by right].
  - intros Heq; apply Some_inj, pair_eq in Heq as [<- <-]; split_and!; try done; by left.
Qed.

Lemma newAbr_ok initialKbps minKbps maxKbps :
  0 <= th_cooldownSamples th -> minKbps <= maxKbps -> abr_ok (newAbr initialKbps minKbps maxKbps).
Proof.
  intros Hc Hr. unfold abr_ok, newAbr, clamp. cbn. destruct (Z.ltb_spec initialKbps minKbps); [lia|].
  destruct (Z.ltb_spec maxKbps initialKbps); lia.
Qed.

Lemma setManual_ok kbps a : 0 <= th_cooldownSamples th -> abr_ok a -> abr_ok (setManual kbps a).
Proof.
  intros Hc (Hr & _). unfold abr_ok, setManual, clamp. cbn. destruct (Z.ltb_spec kbps (ab_minKbps a)); [lia|].
  destruct (Z.ltb_spec (ab_maxKbps a) kbps); lia.
Qed.

Lemma update_ok s a r a' : abr_ok a -> update s a = Some (r, a') -> abr_ok a'.
Proof.
  intros (Hr & Hk & Hd & Hu) H. apply update_cases in H as (E1 & E2 & H). unfold abr_ok. rewrite E1, E2.
  destruct r as [next|].
  - destruct H as (-> & _ & -> & -> & -> & _ & [(_ & _ & stp & Es & ->)|(_ & _ & _ & _ & stp & Es & ->)]);
      apply step_ge in Es; lia.
  - destruct H as (-> & -> & Hd' & Hu'). destruct (Z.ltb_spec 0 (ab_cooldown a)); lia.
Qed.

Lemma updates_app xs ys a :
  updates (xs ++ ys) a = '(r1, a1) ← updates xs a; '(r2, a2) ← updates ys a1; Some (r1 ++ r2, a2).
Proof.
  revert a. induction xs as [|x xs IH]; intros a; cbn [app updates].
  - cbn. by destruct (updates ys a) as [[? ?]|].
  - destruct (update x a) as [[r a1]|]; cbn; [|done]. rewrite IH.
    destruct (updates xs a1) as [[r1 a2]|]; cbn; [|done]. by destruct (updates ys a2) as [[? ?]|].
Qed.

Lemma updates_ok ss a rs a' : abr_ok a -> updates ss a = Some (rs, a') -> abr_ok a'.
Proof.
  revert a rs. induction ss as [|s ss IH]; intros a rs Ha; cbn [updates].
  - by intros [= _ <-].
  - destruct (update s a) as [[r a1]|] eqn:E; cbn; [|done].
    destruct (updates ss a1) as [[rs1 a2]|] eqn:E2; cbn; [|done]. intros [= _ <-].
    eapply IH; [|exact E2]. by eapply update_ok.
Qed.

Lemma updates_range ss a rs a' :
  updates ss a = Some (rs, a') ->
  ab_minKbps a' = ab_minKbps a /\ ab_maxKbps a' = ab_maxKbps a /\ length rs = length ss.
Proof.
  revert a rs. induction ss as [|s ss IH]; intros a rs; cbn [updates].
  - by intros [= <- <-].
  - destruct (update s a) as [[r a1]|] eqn:E; cbn; [|done].
    destruct (updates ss a1) as [[rs1 a2]|] eqn:E2; cbn; [|done]. intros [= <- <-].
    apply update_cases in E as (H1 & H2 & _). apply IH in E2 as (H3 & H4 & H5). cbn [length]. split_and!; congruence.
Qed.

(** The step of a run at one position. *)
Lemma updates_at ss a rs a' k r :
  updates ss a = Some (rs, a') -> rs !! k = Some r ->
  exists s r1 a1 a2 r2, ss !! k = Some s /\ updates (take k ss) a = Some (r1, a1) /\ update s a1 = Some (r, a2) /\
    updates (drop (S k) ss) a2 = Some (r2, a') /\ drop (S k) rs = r2.
Proof.
  revert a rs k. induction ss as [|s ss IH]; intros a rs k; cbn [updates].
  - by intros [= <- <-].
  - destruct (update s a) as [[r0 a1]|] eqn:E; cbn [mbind option_bind]; [|done].
    destruct (updates ss a1) as [[rs1 a2]|] eqn:E2; cbn [mbind option_bind]; [|done]. intros [= <- <-] Hk.
    destruct k as [|k]; cbn [lookup] in Hk.
    + apply Some_inj in Hk as <-. exists s, [], a, a1, rs1. by split_and!.
    + destruct (IH a1 rs1 k E2 Hk) as (s' & r1 & b1 & b2 & r2 & H1 & H2 & H3 & H4 & H5).
      exists s', (r0 :: r1), b1, b2, r2. cbn [take drop lookup updates]. rewrite E. cbn [mbind option_bind].
      rewrite H2. by split_and!.
Qed.

(** A pending cooldown delays the next change. *)
Lemma cooldown_delays ss a rs a' j y :
  updates ss a = Some (rs, a') -> rs !! j = Some (Some y) -> ab_cooldown a <= Z.of_nat j + 1.
Proof.
  revert a rs j. induction ss as [|s ss IH]; intros a rs j; cbn [updates].
  - by intros [= <- <-].
  - destruct (update s a) as [[r0 a1]|] eqn:E; cbn [mbind option_bind]; [|done].
    destruct (updates ss a1) as [[rs1 a2]|] eqn:E2; cbn [mbind option_bind]; [|done]. intros [= <- <-] Hj.
    apply update_cases in E as (_ & _ & H). destruct r0 as [next|].
    + destruct H as (_ & _ & _ & _ & _ & H & _). lia.
    + destruct j as [|j]; [done|]. cbn [lookup] in Hj. destruct H as (_ & H & _).
      pose proof (IH a1 rs1 j E2 Hj). destruct (Z.ltb_spec 0 (ab_cooldown a)); lia.
Qed.

(** ** Streaks count trailing samples *)

(** The last [n] samples of [ss] all satisfy [P]. *)
Definition lastAll (P : LinkSample -> bool) (n : Z) (ss : list LinkSample) : Prop :=
  n <= zlen ss /\ forall i s, (length ss - Z.to_nat n <= i)%nat -> ss !! i = Some s -> P s = true.

Lemma lastAll_zero P ss : lastAll P 0 ss.
Proof.
  split; [lia|]. intros i s Hi Hs. apply lookup_lt_Some in Hs. cbn in Hi. lia.
Qed.

Lemma lastAll_snoc P n ss s : 0 <= n -> lastAll P n ss -> P s = true -> lastAll P (n + 1) (ss ++ [s]).
Proof.
  intros Hn [Hl Hall] Hs. split; [rewrite length_app; cbn; lia|]. intros i x Hi Hx.
  rewrite length_app in Hi. cbn [length] in Hi. destruct (decide (i < length ss)%nat) as [Hlt|Hge].
  - rewrite lookup_app_l in Hx by done. apply (Hall i); [lia|done].
  - rewrite lookup_app_r in Hx by lia. destruct (i - length ss)%nat; [|done]. by injection Hx as <-.
Qed.

Lemma lastAll_le P n m ss : 0 <= n <= m -> lastAll P m ss -> lastAll P n ss.
Proof. intros H [Hl Hall]. split; [lia|]. intros i s Hi. apply Hall. lia. Qed.

Definition isUp (s : LinkSample) : bool := negb (isBad s) && isGood s.

Lemma streaks ss a rs a' :
  ab_downStreak a = 0 -> ab_upStreak a = 0 -> updates ss a = Some (rs, a') ->
  (0 <= ab_downStreak a' /\ lastAll isBad (ab_downStreak a') ss) /\
  (0 <= ab_upStreak a' /\ lastAll isUp (ab_upStreak a') ss).
Proof.
  intros Hd Hu. revert rs a'. induction ss as [|s ss IH] using rev_ind; intros rs a'.
  - cbn. intros [= _ <-]. rewrite Hd, Hu. split; (split; [lia|apply lastAll_zero]).
  - rewrite updates_app. destruct (updates ss a) as [[r1 a1]|] eqn:E1; [|done]. cbn [mbind option_bind updates].
    destruct (update s a1) as [[r a2]|] eqn:E2; [|done]. cbn. intros [= _ <-].
    destruct (IH r1 a1 eq_refl) as [[Hd0 Hdl] [Hu0 Hul]]. apply update_cases in E2 as (_ & _ & H).
    destruct r as [next|].
    + destruct H as (_ & _ & -> & -> & _). split; (split; [lia|apply lastAll_zero]).
    + destruct H as (_ & _ & Hdown & Hup). split.
      * destruct Hdown as [->|[Hb ->]]; (split; [lia|]); [apply lastAll_zero|by apply lastAll_snoc].
      * destruct Hup as [->|(Hb & Hg & ->)]; (split; [lia|]); [apply lastAll_zero|].
        apply lastAll_snoc; [done|done|]. unfold isUp. by rewrite Hb, Hg.
Qed.

(** ** A persistent link condition moves the target *)

Lemma updates_snoc ss s a rs a' :
  updates (ss ++ [s]) a = Some (rs, a') <->
  exists r1 a1 r, updates ss a = Some (r1, a1) /\ update s a1 = Some (r, a') /\ rs = r1 ++ [r].
Proof.
  rewrite updates_app. split.
  - destruct (updates ss a) as [[r1 a1]|]; [|done]. cbn [mbind option_bind updates].
    destruct (update s a1) as [[r a2]|] eqn:E; [|done]. cbn. intros [= <- <-]. by exists r1, a1, r.
  - intros (r1 & a1 & r & -> & H & ->). cbn [mbind option_bind updates]. by rewrite H.
Qed.

(** A condition [P] on samples that drives the target toward one end of its
    range: [dist] is what is left, [streak] and [needed] are the counter of the
    condition and the length at which it acts. One sample never loses ground, and
    gains a step unless the streak is short or the cooldown pending. *)
Definition counted (dist streak : AdaptiveBitrate -> Z) (k : Z) (a a' : AdaptiveBitrate) : Prop :=
  dist a' = dist a /\ streak a' = streak a + k /\ ab_cooldown a' = Z.max 0 (ab_cooldown a - k).

(** The streaks, counted in [int]s, have room for [k] more samples. *)
Definition roomy (k : Z) (a : AdaptiveBitrate) : Prop :=
  ab_downStreak a + k < 2 ^ 31 /\ ab_upStreak a + k < 2 ^ 31.

Lemma roomy_le k k' a : k' <= k -> roomy k a -> roomy k' a.
Proof. unfold roomy. lia. Qed.

Lemma updates_roomy ss a rs a' k :
  abr_ok a -> 0 <= k -> roomy (zlen ss + k) a -> updates ss a = Some (rs, a') -> roomy k a'.
Proof.
  revert a rs. induction ss as [|s ss IH]; intros a rs Ha Hk Hr; cbn [updates length] in *.
  - by intros [= _ <-].
  - destruct (update s a) as [[r a1]|] eqn:E; cbn [mbind option_bind]; [|done].
    destruct (updates ss a1) as [[rs1 a2]|] eqn:E2; cbn [mbind option_bind]; [|done]. intros [= _ <-].
    eapply IH; [by eapply update_ok|done| |exact E2]. destruct Ha as (_ & _ & Hd & Hu). unfold roomy in *.
    apply update_cases in E as (_ & _ & H). destruct r; [|destruct H as (_ & _ & Hdn & Hup)]; lia.
Qed.

Definition drives (P : LinkSample -> bool) (dist streak : AdaptiveBitrate -> Z) (needed mn mx : Z) : Prop :=
  forall s a, P s = true -> abr_ok a -> roomy 1 a -> ab_minKbps a = mn -> ab_maxKbps a = mx ->
  exists r a', update s a = Some (r, a') /\ dist a' <= dist a /\
    (dist a' <= Z.max 0 (dist a - 250) \/
     (counted dist streak 1 a a' /\ (streak a + 1 < needed \/ 1 < ab_cooldown a))).

Definition aboveFloor (a : AdaptiveBitrate) : Z := ab_currentKbps a - ab_minKbps a.
Definition belowCeiling (a : AdaptiveBitrate) : Z := ab_maxKbps a - ab_currentKbps a.

(** From any target of the range, a step is an [int], and so are the targets it
    leads to. *)
Definition stepDefined (fraction : double) (mn mx : Z) : Prop :=
  forall c, mn <= c <= mx -> exists v, step c fraction = Some v /\ c + v < 2 ^ 31 /\ - 2 ^ 31 <= c - v.

Lemma bad_drives mn mx :
  stepDefined (th_downStepFraction th) mn mx -> drives isBad aboveFloor ab_downStreak (th_downStreakNeeded th) mn mx.
Proof.
  intros Hdef s a Hb (Hr & Hk & Hd & Hu) [Hrd Hru] <- <-. destruct (Hdef (ab_currentKbps a) Hr) as (stp & Hs & Hhi & Hlo).
  unfold update. rewrite Hb, plus_fits by lia. cbn [mbind option_bind]. cbv zeta. set (cool := if 0 <? ab_cooldown a then _ else _).
  assert (Hcool : cool = Z.max 0 (ab_cooldown a - 1)) by (unfold cool; destruct (Z.ltb_spec 0 (ab_cooldown a)); lia).
  unfold counted, aboveFloor. destruct ((_ <=? _) && _) eqn:Ec.
  - rewrite Hs. apply step_ge in Hs. cbn [mbind option_bind]. rewrite plus_fits by lia. cbn [mbind option_bind].
    set (next := Z.max _ _).
    destruct (Z.eqb_spec next (ab_currentKbps a)) as [He|Hne]; cbn [negb]; do 2 eexists; (split; [done|]);
      cbn [ab_currentKbps ab_minKbps]; split; try left; lia.
  - do 2 eexists. split; [done|]. cbn [ab_currentKbps ab_minKbps ab_downStreak ab_cooldown]. split; [lia|]. right.
    apply andb_false_iff in Ec. lia.
Qed.

Lemma up_drives mn mx :
  stepDefined (th_upStepFraction th) mn mx -> drives isUp belowCeiling ab_upStreak (th_upStreakNeeded th) mn mx.
Proof.
  intros Hdef s a Hb (Hr & Hk & Hd & Hu) [Hrd Hru] <- <-. destruct (Hdef (ab_currentKbps a) Hr) as (stp & Hs & Hhi & Hlo).
  unfold isUp in Hb. apply andb_prop in Hb as [Hb Hg]. apply negb_true_iff in Hb.
  unfold update. rewrite Hb, Hg, plus_fits by lia. cbn [mbind option_bind]. cbv zeta. set (cool := if 0 <? ab_cooldown a then _ else _).
  assert (Hcool : cool = Z.max 0 (ab_cooldown a - 1)) by (unfold cool; destruct (Z.ltb_spec 0 (ab_cooldown a)); lia).
  unfold counted, belowCeiling. destruct ((_ <=? _) && _ && _) eqn:Ec.
  - rewrite Hs. apply step_ge in Hs. cbn [mbind option_bind]. rewrite plus_fits by lia. cbn [mbind option_bind].
    set (next := Z.min _ _).
    destruct (Z.eqb_spec next (ab_currentKbps a)) as [He|Hne]; cbn [negb]; do 2 eexists; (split; [done|]);
      cbn [ab_currentKbps ab_maxKbps]; split; try left; lia.
  - do 2 eexists. split; [done|]. cbn [ab_currentKbps ab_maxKbps ab_upStreak ab_cooldown]. split; [lia|].
    rewrite !andb_false_iff in Ec. lia.
Qed.

Section Drift.
Context (P : LinkSample -> bool) (dist streak : AdaptiveBitrate -> Z) (needed mn mx : Z).
Context (Hdrive : drives P dist streak needed mn mx).

Lemma drift_run ss a :
  Forall (fun s => P s = true) ss -> abr_ok a -> roomy (zlen ss) a -> ab_minKbps a = mn -> ab_maxKbps a = mx ->
  exists rs a', updates ss a = Some (rs, a') /\ dist a' <= dist a /\
    (dist a' <= Z.max 0 (dist a - 250) \/
     (counted dist streak (zlen ss) a a' /\ (ss = [] \/ streak a + zlen ss < needed \/ zlen ss < ab_cooldown a))).
Proof.
  intros HP Ha Hroom Hmn Hmx. induction ss as [|s ss IH] using rev_ind.
  { exists [], a. split; [done|]. split; [done|]. right. unfold counted. cbn. destruct Ha as (_ & Hk & _).
    split; [lia|by left]. }
  apply Forall_app in HP as [HP Hs]. apply Forall_cons_iff in Hs as [Hs _].
  rewrite length_app in Hroom. cbn [length] in Hroom. rewrite Nat2Z.inj_add in Hroom.
  destruct (IH HP) as (rs & a1 & E1 & Hd1 & H1); [by eapply roomy_le; [|exact Hroom]; lia|].
  pose proof (updates_roomy ss a rs a1 1 Ha ltac:(lia) Hroom E1) as Hroom1.
  pose proof (updates_ok _ _ _ _ Ha E1) as Ha1. pose proof (updates_range _ _ _ _ E1) as (Hm1 & Hx1 & _).
  destruct (Hdrive s a1 Hs Ha1 Hroom1) as (r & a2 & E2 & Hd2 & H2); [congruence..|].
  exists (rs ++ [r]), a2. split; [apply updates_snoc; by exists rs, a1, r|]. split; [lia|].
  rewrite length_app. cbn [length].
  destruct H1 as [H1|[(Hc1 & Hc2 & Hc3) H1]]; [left; lia|]. destruct H2 as [H2|[(Hc4 & Hc5 & Hc6) H2]]; [left; lia|].
  right. unfold counted. split; [lia|]. right. lia.
Qed.

Lemma drift_rounds (n : nat) (W : Z) ss a :
  0 <= streak a -> (forall a, abr_ok a -> 0 <= streak a) -> 0 < W -> needed <= W -> th_cooldownSamples th <= W ->
  Z.of_nat n * W <= zlen ss ->
  Forall (fun s => P s = true) ss -> abr_ok a -> roomy (zlen ss) a -> ab_minKbps a = mn -> ab_maxKbps a = mx ->
  exists rs a', updates ss a = Some (rs, a') /\ dist a' <= Z.max 0 (dist a - 250 * Z.of_nat n).
Proof.
  intros Hst Hpos HW Hn Hc. revert ss a Hst. induction n as [|n IH]; intros ss a Hst Hlen HP Ha Hroom Hmn Hmx.
  { destruct (drift_run ss a HP Ha Hroom Hmn Hmx) as (rs & a' & E & Hd & _). exists rs, a'. split; [done|lia]. }
  assert (Hsplit : zlen ss = zlen (take (Z.to_nat W) ss) + zlen (drop (Z.to_nat W) ss))
    by (rewrite <- Nat2Z.inj_add, <- length_app, take_drop; done).
  rewrite Hsplit in Hroom. rewrite <- (take_drop (Z.to_nat W) ss) in HP |- *. apply Forall_app in HP as [HP1 HP2].
  destruct (drift_run _ a HP1 Ha ltac:(eapply roomy_le; [|exact Hroom]; lia) Hmn Hmx) as (rs & a1 & E1 & Hd1 & H1).
  assert (Hl1 : zlen (take (Z.to_nat W) ss) = W) by (rewrite length_take; nia).
  pose proof (updates_ok _ _ _ _ Ha E1) as Ha1. pose proof (updates_range _ _ _ _ E1) as (Hm1 & Hx1 & _).
  destruct (IH (drop (Z.to_nat W) ss) a1) as (rs2 & a2 & E2 & Hd2); try done;
    [by apply Hpos|rewrite length_drop; nia|by eapply updates_roomy; [exact Ha|lia|exact Hroom|exact E1]|congruence..|].
  exists (rs ++ rs2), a2. split; [by rewrite updates_app, E1; cbn [mbind option_bind]; rewrite E2|].
  destruct Ha as (_ & Hk & _). destruct H1 as [H1|[_ H1]]; [lia|]. rewrite Hl1 in H1.
  destruct H1 as [H1|H1]; [rewrite H1 in Hl1; cbn in Hl1|]; lia.
Qed.

End Drift.

Lemma updates_defined mn mx ss a :
  stepDefined (th_downStepFraction th) mn mx -> stepDefined (th_upStepFraction th) mn mx ->
  abr_ok a -> roomy (zlen ss) a -> ab_minKbps a = mn -> ab_maxKbps a = mx -> is_Some (updates ss a).
Proof.
  intros Hdn Hup. revert a. induction ss as [|s ss IH]; intros a Ha Hroom Hmn Hmx; cbn [updates length] in *; [by eexists|].
  assert (Hs : exists r a1, update s a = Some (r, a1)).
  { destruct Ha as (Hr & _ & Hd0 & Hu0), Hroom as [Hrd Hru]. rewrite Hmn, Hmx in Hr.
    destruct (Hdn _ Hr) as (d & Hd & _ & Hdl), (Hup _ Hr) as (u & Hu & Huh & _).
    pose proof (step_ge _ _ _ Hd). pose proof (step_ge _ _ _ Hu).
    unfold update. cbv zeta. rewrite Hd, Hu, !(plus_fits _ 1) by lia. cbn [mbind option_bind].
    rewrite (plus_fits _ (- d)), (plus_fits _ u) by lia. cbn [mbind option_bind]. repeat case_match; eauto. }
  destruct Hs as (r & a1 & E). rewrite E. cbn [mbind option_bind]. pose proof (update_ok _ _ _ _ Ha E) as Ha1.
  assert (Hroom1 : roomy (zlen ss) a1).
  { eapply (updates_roomy [s] a [r] a1); [exact Ha|lia|eapply roomy_le; [|exact Hroom]; cbn; lia|cbn; by rewrite E]. }
  apply update_cases in E as (Em & Ex & _).
  destruct (IH a1 Ha1 Hroom1) as [[rs a2] ->]; [congruence..|]. by eexists.
Qed.

End Controller.

(** * Properties *)

(** The controller is hysteretic. In any run of samples from a fresh
    controller, every change of the target stays within the range and is a real
    change; when it lowers the target, the last [downStreakNeeded] samples up to
    it were all bad; when it raises it, the last [upStreakNeeded] were all good
    (and not bad); and the next change is at least [cooldownSamples] samples
    later. *)
Theorem changes_are_justified th initialKbps minKbps maxKbps ss rs a k next :
  0 <= th_cooldownSamples th -> 0 <= th_downStreakNeeded th -> 0 <= th_upStreakNeeded th -> minKbps <= maxKbps ->
  updates th ss (newAbr initialKbps minKbps maxKbps) = Some (rs, a) -> rs !! k = Some (Some next) ->
  minKbps <= next <= maxKbps /\
  (exists r1 before, updates th (take k ss) (newAbr initialKbps minKbps maxKbps) = Some (r1, before) /\
    ((next < ab_currentKbps before /\ lastAll (isBad th) (th_downStreakNeeded th) (take (S k) ss)) \/
     (ab_currentKbps before < next /\ lastAll (isUp th) (th_upStreakNeeded th) (take (S k) ss)))) /\
  (forall j y, (k < j)%nat -> rs !! j = Some (Some y) -> th_cooldownSamples th <= Z.of_nat j - Z.of_nat k).
Proof.
  intros Hc Hdn Hup Hr Hrun Hk.
  pose proof (newAbr_ok th initialKbps minKbps maxKbps Hc Hr) as Hok.
  destruct (updates_at _ _ _ _ _ _ _ Hrun Hk) as (s & r1 & a1 & a2 & r2 & Hs & E1 & E2 & E3 & Hdrop).
  pose proof (updates_ok _ _ _ _ _ Hok E1) as Ha1. pose proof (update_ok _ _ _ _ _ Ha1 E2) as [Hr2 _].
  destruct (streaks th _ (newAbr initialKbps minKbps maxKbps) _ _ eq_refl eq_refl E1) as [[_ Hbad] [_ Hgood]].
  destruct (updates_range _ _ _ _ _ E1) as (Hmn & Hmx & _). cbn in Hmn, Hmx.
  apply update_cases in E2 as (Em & Ex & Hcur & Hne & _ & _ & Hcool & _ & Hcase).
  rewrite Em, Ex, Hmn, Hmx, Hcur in Hr2. split; [done|]. split.
  - exists r1, a1. split; [done|]. destruct Ha1 as (Hr1 & _ & Hd1 & Hu1). rewrite (take_S_r _ _ _ Hs).
    destruct Hcase as [(Hb & Hn & stp & Hst & ->)|(Hb & Hg & Hn & _ & stp & Hst & ->)]; apply step_ge in Hst.
    + left. split; [lia|]. apply (lastAll_le _ _ (ab_downStreak a1 + 1)); [lia|]. by apply lastAll_snoc.
    + right. split; [lia|]. apply (lastAll_le _ _ (ab_upStreak a1 + 1)); [lia|]. apply lastAll_snoc; [done|done|].
      unfold isUp. by rewrite Hb, Hg.
  - intros j y Hj Hy. rewrite <- Hcool.
    assert (Hy2 : r2 !! (j - S k)%nat = Some (Some y)).
    { rewrite <- Hdrop, lookup_drop. by replace (S k + (j - S k))%nat with j by lia. }
    pose proof (cooldown_delays _ _ _ _ _ _ _ E3 Hy2). lia.
Qed.

Definition badSample : LinkSample := mkSample (dofZ 200) dzero dzero dzero (dofZ 1).
Definition idleSample : LinkSample := mkSample (dofZ 20) dzero dzero dzero (dofZ 1).

Lemma changes_are_justified_witness :
  exists rs a, updates defaultThresholds (replicate 6 badSample) (newAbr 8000 2000 30000) = Some (rs, a) /\
    rs = [None; None; Some 6800; None; None; Some 5780] /\ 2 <= Z.of_nat 5 - Z.of_nat 2.
Proof.
  eexists _, _. split; [vm_compute; reflexivity|]. split; [reflexivity|].
  refine (proj2 (proj2 (changes_are_justified defaultThresholds 8000 2000 30000 (replicate 6 badSample) _ _ 2 6800
    _ _ _ _ _ _)) 5%nat 5780 _ _); [by vm_compute..|vm_compute; reflexivity|reflexivity|lia|reflexivity].
Defined.

(** A step and the targets it leads to fit an [int] for every target below 2^30. *)
Lemma default_step_defined mn mx fr :
  dsmall (-2) fr -> 0 <= mn -> mx < 2 ^ 30 -> stepDefined fr mn mx.
Proof.
  intros Hfr Hmn Hmx c Hc. unfold step, toInt.
  assert (Hs : dsmall 30 (dmul (dofZ c) fr)).
  { apply (dmul_small 31 (-2)); [|done|lia]. apply (dofZ_small 30); lia. }
  destruct (dtrunc_small _ _ Hs) as (v & -> & Hv); [lia|].
  destruct (Z.leb_spec (- 2 ^ 31) v); [|lia]. destruct (Z.ltb_spec v (2 ^ 31)); [|lia].
  eexists. split; [done|]. lia.
Qed.

(** C33: under the default thresholds the controller is defined on every run and
    follows the link. From any consistent state whose range lies between 0 and
    2^30 kbps (the program's is 2000 to 30000; near 2^31 the sum of the target and
    a step overflows), as long as its counters of samples are far enough from 2^31:
    no run reaches an undefined conversion or an overflowing sum; a run of bad
    samples lowers the target by at least 250 kbps every 3 samples until it is
    the minimum, and stays there; a run of good samples raises it by at least
    250 kbps every 10 samples until it is the maximum, and stays there. *)
Theorem target_follows_the_link a ss :
  abr_ok defaultThresholds a -> roomy (zlen ss) a -> 0 <= ab_minKbps a -> ab_maxKbps a < 2 ^ 30 ->
  exists rs a', updates defaultThresholds ss a = Some (rs, a') /\
    (Forall (fun s => isBad defaultThresholds s = true) ss ->
     ab_minKbps a <= ab_currentKbps a' <= Z.max (ab_minKbps a) (ab_currentKbps a - 250 * (zlen ss / 3))) /\
    (Forall (fun s => isUp defaultThresholds s = true) ss ->
     Z.min (ab_maxKbps a) (ab_currentKbps a + 250 * (zlen ss / 10)) <= ab_currentKbps a' <= ab_maxKbps a).
Proof.
  intros Ha Hroom Hmn Hmx.
  pose proof (default_step_defined _ _ d0_15 ltac:(by vm_compute) Hmn Hmx) as Hdn.
  pose proof (default_step_defined _ _ d0_1 ltac:(by vm_compute) Hmn Hmx) as Hup.
  destruct (updates_defined defaultThresholds _ _ ss a Hdn Hup Ha Hroom eq_refl eq_refl) as [[rs a'] E].
  exists rs, a'. split; [done|]. pose proof (updates_ok _ _ _ _ _ Ha E) as [Hr _].
  pose proof (updates_range _ _ _ _ _ E) as (Em & Ex & _). rewrite Em, Ex in Hr.
  pose proof (Z.mul_div_le (zlen ss) 3 eq_refl). pose proof (Z.mul_div_le (zlen ss) 10 eq_refl).
  pose proof (Z.div_pos (zlen ss) 3 (Nat2Z.is_nonneg _) eq_refl).
  pose proof (Z.div_pos (zlen ss) 10 (Nat2Z.is_nonneg _) eq_refl). split; intros HP.
  - destruct (drift_rounds defaultThresholds _ _ _ _ _ _ (bad_drives defaultThresholds _ _ Hdn)
      (Z.to_nat (zlen ss / 3)) 3 ss a) as (rs2 & a2 & E2 & Hd); try done; try (by apply Ha); try lia.
    + by intros b (_ & _ & Hb & _).
    + rewrite E in E2. apply Some_inj, pair_eq in E2 as [_ <-]. unfold aboveFloor in Hd. lia.
  - destruct (drift_rounds defaultThresholds _ _ _ _ _ _ (up_drives defaultThresholds _ _ Hup)
      (Z.to_nat (zlen ss / 10)) 10 ss a) as (rs2 & a2 & E2 & Hd); try done; try (by apply Ha); try lia.
    + by intros b (_ & _ & _ & Hb).
    + rewrite E in E2. apply Some_inj, pair_eq in E2 as [_ <-]. unfold belowCeiling in Hd. lia.
Qed.

Lemma target_follows_the_link_witness :
  exists rs a', updates defaultThresholds (replicate 30 badSample) (newAbr 4000 2000 30000) = Some (rs, a') /\
    2000 <= ab_currentKbps a' <= 2000.
Proof.
  assert (Hok : abr_ok defaultThresholds (newAbr 4000 2000 30000)) by (by apply newAbr_ok).
  destruct (target_follows_the_link (newAbr 4000 2000 30000) (replicate 30 badSample) Hok) as (rs & a' & E & H & _);
    [done|done|done|]. exists rs, a'. split; [exact E|]. apply H. apply list.Forall_replicate. vm_compute. reflexivity.
Defined.

(** Near 2^31 a good link overflows the target. *)
Theorem huge_targets_overflow :
  updates defaultThresholds (replicate 10 idleSample) (newAbr 2000000000 2000 (2 ^ 31 - 1)) = None.
Proof. by vm_compute. Qed.

(** [goodRttMs] is declared (80 ms) but [isGood] compares with [badRttMs] (150 ms):
    a sample at 149 ms counts as good. *)
Theorem goodRttMs_is_not_used :
  dltb (th_goodRttMs defaultThresholds) (dofZ 149) = true /\
  isGood defaultThresholds (mkSample (dofZ 149) dzero dzero dzero (dofZ 1)) = true.
Proof. by vm_compute. Qed.
