(* ===== verification/ScreenCapture.v ===== *)
(** capture/ScreenCapture.h and ScreenCapture.cpp: outputs, capture windows, the
    duplication of an output and the crop of a window.

    DXGI and the window functions are not part of the source: what they return is
    an argument. [*err] is written without a test in [duplicateOutput]; with a null
    pointer that is [InitNullErr]. *)

From S2P Require Import Prelude Types Double.

Open Scope Z_scope.

(** * Outputs *)

Record OutputDesc := mkOd { od_name : bytes; od_left : Z; od_top : Z; od_right : Z; od_bottom : Z; od_attached : bool }.

(** The outputs of an adapter; [None] when [GetDesc] fails. *)
Abbreviation Adapter := (list (option OutputDesc)).

Record OutputInfo := mkOi { oi_index : Z; oi_name : bytes; oi_width : Z; oi_height : Z; oi_attachedToDesktop : bool }.

Definition usableOutput (o : option OutputDesc) : bool := match o with Some d => od_attached d | None => false end.

Definition outputInfo (index : Z) (d : OutputDesc) : OutputInfo :=
  mkOi index (od_name d) (i32 (od_right d - od_left d)) (i32 (od_bottom d - od_top d)) true.

Fixpoint enumAdapter (outputs : list OutputInfo) (a : Adapter) : list OutputInfo :=
  match a with
  | [] => outputs
  | Some d :: a => enumAdapter (if od_attached d then outputs ++ [outputInfo (zlen outputs) d] else outputs) a
  | None :: a => enumAdapter outputs a
  end.

Definition enumerateOutputs (adapters : list Adapter) : list OutputInfo :=
  foldl enumAdapter [] adapters.

(** [findOutput]: the adapter and the output. The running count is [global]. *)
Fixpoint findInAdapter (outputIndex global : Z) (a : Adapter) : OutputDesc + Z :=
  match a with
  | [] => inr global
  | Some d :: a =>
      if od_attached d then if global =? outputIndex then inl d else findInAdapter outputIndex (global + 1) a
      else findInAdapter outputIndex global a
  | None :: a => findInAdapter outputIndex global a
  end.

Fixpoint findOutput (outputIndex global adapterIndex : Z) (adapters : list Adapter) : option (Z * OutputDesc) :=
  match adapters with
  | [] => None
  | a :: adapters =>
      match findInAdapter outputIndex global a with
      | inl d => Some (adapterIndex, d)
      | inr global => findOutput outputIndex global (adapterIndex + 1) adapters
      end
  end.

(** * Windows *)

(** What the window functions say of a top-level window. *)
Record RawWindow := mkRw {
  rw_hwnd : Z; rw_visible : bool; rw_iconic : bool; rw_toolWindow : bool; rw_cloaked : bool; rw_title : bytes;
  rw_client : option (Z * Z); rw_origin : Z * Z; rw_exe : option bytes }.

Record WindowInfo := mkWi {
  wi_hwnd : Z; wi_title : bytes; wi_processExe : bytes; wi_x : Z; wi_y : Z; wi_w : Z; wi_h : Z }.

(** The part of a path behind its last backslash. *)
Fixpoint baseName (path : bytes) : bytes :=
  match path with
  | [] => []
  | c :: rest => if existsb (Z.eqb 92) rest then baseName rest else if c =? 92 then rest else path
  end.

Definition enumProc (out : list WindowInfo) (w : RawWindow) : list WindowInfo :=
  if negb (rw_visible w) || rw_iconic w then out
  else if rw_toolWindow w then out
  else if rw_cloaked w then out
  else
    match rw_title w, rw_client w with
    | [], _ => out
    | _, None => out
    | title, Some (cw, ch) =>
        if (cw <? 32) || (ch <? 32) then out
        else
          out ++ [mkWi (rw_hwnd w) title (match rw_exe w with Some p => baseName p | None => [] end)
                    (fst (rw_origin w)) (snd (rw_origin w)) cw ch]
    end.

Definition listCaptureWindows (ws : list RawWindow) : list WindowInfo := foldl enumProc [] ws.

(** * The capture object *)

Record CaptureFrame := mkCf { cf_offset : Z; cf_width : Z; cf_height : Z; cf_stride : Z; cf_timestampUs : Z; cf_frameId : Z }.

Record Crop := mkCrop { cr_x : Z; cr_y : Z; cr_w : Z; cr_h : Z; cr_has : bool }.

Record DisplayCapture := mkDc {
  dc_duplication : bool; dc_staging : bool; dc_mapped : bool; dc_outputIndex : Z; dc_adapterIndex : Z;
  dc_monWidth : Z; dc_monHeight : Z; dc_monLeft : Z; dc_monTop : Z; dc_crop : Crop; dc_frameCounter : Z;
  dc_accessLost : Z; dc_lastMs : double; dc_avgMs : double }.

Definition newCapture : DisplayCapture :=
  mkDc false false false 0 0 0 0 0 0 (mkCrop 0 0 0 0 false) 0 0 dzero dzero.

Definition releaseAll (c : DisplayCapture) : DisplayCapture :=
  mkDc false false false (dc_outputIndex c) (dc_adapterIndex c) (dc_monWidth c) (dc_monHeight c) (dc_monLeft c)
    (dc_monTop c) (dc_crop c) (dc_frameCounter c) (dc_accessLost c) (dc_lastMs c) (dc_avgMs c).

(** ** Initialisation *)

Inductive DupOutcome := DupNoInterface | DupNotAvailable | DupDenied | DupFailed (hr : Z) | DupOk.

Record InitIo := mkInitIo {
  ii_factory : option (list Adapter); ii_adapter : bool; ii_device : option Z; ii_desc : bool; ii_dup : DupOutcome;
  ii_staging : bool }.

Inductive InitResult := InitDone | InitFailed (err : bytes) | InitNullErr.

(** [std::to_string] of a [uint32_t] and of an [int]. *)
Definition decString (n : Z) : bytes := print_dec (u32 n).
Definition intString (n : Z) : bytes := if n <? 0 then str "-" ++ print_dec (- n) else print_dec n.

Definition dupMessage (d : DupOutcome) : bytes :=
  match d with
  | DupNoInterface => str "IDXGIOutput1 unavailable (pre-Win8.1?)"
  | DupNotAvailable => str "DuplicateOutput: max duplication sessions reached (another capture app running?)"
  | DupDenied => str "DuplicateOutput: access denied (secure desktop / UAC prompt up)"
  | DupFailed hr => str "DuplicateOutput failed hr=0x" ++ decString hr
  | DupOk => []
  end.

(** [duplicateOutput]; [hasErr] tells whether [err] points to a string. *)
Definition duplicateOutput (hasErr : bool) (d : DupOutcome) : InitResult :=
  match d with
  | DupOk => InitDone
  | DupNoInterface => InitFailed (dupMessage d)
  | _ => if hasErr then InitFailed (dupMessage d) else InitNullErr
  end.

Definition setMonitor (adapterIndex : Z) (d : OutputDesc) (c : DisplayCapture) : DisplayCapture :=
  mkDc (dc_duplication c) (dc_staging c) (dc_mapped c) (dc_outputIndex c) adapterIndex
    (i32 (od_right d - od_left d)) (i32 (od_bottom d - od_top d)) (od_left d) (od_top d) (dc_crop c)
    (dc_frameCounter c) (dc_accessLost c) (dc_lastMs c) (dc_avgMs c).

Definition setAdapter (adapterIndex : Z) (c : DisplayCapture) : DisplayCapture :=
  mkDc (dc_duplication c) (dc_staging c) (dc_mapped c) (dc_outputIndex c) adapterIndex (dc_monWidth c) (dc_monHeight c)
    (dc_monLeft c) (dc_monTop c) (dc_crop c) (dc_frameCounter c) (dc_accessLost c) (dc_lastMs c) (dc_avgMs c).

Definition setDuplication (dup staging : bool) (c : DisplayCapture) : DisplayCapture :=
  mkDc dup staging (dc_mapped c) (dc_outputIndex c) (dc_adapterIndex c) (dc_monWidth c) (dc_monHeight c) (dc_monLeft c)
    (dc_monTop c) (dc_crop c) (dc_frameCounter c) (dc_accessLost c) (dc_lastMs c) (dc_avgMs c).

Definition setCropAndCounter (cr : Crop) (n : Z) (c : DisplayCapture) : DisplayCapture :=
  mkDc (dc_duplication c) (dc_staging c) (dc_mapped c) (dc_outputIndex c) (dc_adapterIndex c) (dc_monWidth c)
    (dc_monHeight c) (dc_monLeft c) (dc_monTop c) cr n (dc_accessLost c) (dc_lastMs c) (dc_avgMs c).

Definition setOutputIndex (i : Z) (c : DisplayCapture) : DisplayCapture :=
  mkDc (dc_duplication c) (dc_staging c) (dc_mapped c) i (dc_adapterIndex c) (dc_monWidth c) (dc_monHeight c)
    (dc_monLeft c) (dc_monTop c) (dc_crop c) (dc_frameCounter c) (dc_accessLost c) (dc_lastMs c) (dc_avgMs c).

Definition fullCrop (c : DisplayCapture) : Crop := mkCrop 0 0 (dc_monWidth c) (dc_monHeight c) false.

Definition init (hasErr : bool) (outputIndex : Z) (io : InitIo) (c : DisplayCapture) : InitResult * DisplayCapture :=
  let c := setOutputIndex outputIndex (releaseAll c) in
  match ii_factory io with
  | None => (InitFailed (str "CreateDXGIFactory1 failed"), c)
  | Some adapters =>
      match findOutput outputIndex 0 0 adapters with
      | None => (InitFailed (str "output index " ++ intString outputIndex ++ str " out of range"), c)
      | Some (a, d) =>
          let c := setAdapter a c in
          if negb (ii_adapter io) then (InitFailed (str "EnumAdapters1 failed"), c)
          else
            match ii_device io with
            | Some hr => (InitFailed (str "D3D11CreateDevice failed hr=0x" ++ decString hr), c)
            | None =>
                if negb (ii_desc io) then (InitFailed (str "GetDesc(output) failed"), c)
                else
                  let c := setMonitor a d c in
                  match duplicateOutput hasErr (ii_dup io) with
                  | InitDone =>
                      if negb (ii_staging io) then
                        (InitFailed (str "CreateTexture2D(staging) failed"), setDuplication true false c)
                      else
                        let c := setDuplication true true c in (InitDone, setCropAndCounter (fullCrop c) 0 c)
                  | r => (r, c)
                  end
            end
      end
  end.

(** ** Capturing *)

Inductive Acquire := AcqOk | AcqTimeout | AcqLost | AcqFailed (hr : Z).

Definition hresult (a : Acquire) : Z :=
  match a with AcqOk => 0 | AcqTimeout => 0x887A0027 | AcqLost => 0x887A0026 | AcqFailed hr => hr end.

(** What the calls of one [capture] return. *)
Record CaptureIo := mkCaptureIo {
  ca_first : Acquire; ca_retry : nat -> InitIo * Acquire; ca_texture : bool; ca_map : option Z; ca_nowUs : Z; ca_ms : double }.

Inductive CaptureResult :=
  | CapFrame (f : CaptureFrame)
  | CapTimedOut
  | CapError (err : bytes)
  | CapNullErr        (** [*err] written through a null pointer *)
  | CapNullStaging.   (** a staging texture that does not exist is mapped *)

Definition countLost (c : DisplayCapture) : DisplayCapture :=
  mkDc (dc_duplication c) (dc_staging c) (dc_mapped c) (dc_outputIndex c) (dc_adapterIndex c) (dc_monWidth c)
    (dc_monHeight c) (dc_monLeft c) (dc_monTop c) (dc_crop c) (dc_frameCounter c) (u32 (dc_accessLost c + 1))
    (dc_lastMs c) (dc_avgMs c).

Inductive Reacquired := ReOk (c : DisplayCapture) | ReFailed (hr : Acquire) (c : DisplayCapture) | ReLost (c : DisplayCapture) | ReNullErr.

(** The three attempts after the access was lost. *)
Fixpoint reacquire (attempts : nat) (hasErr : bool) (retry : nat -> InitIo * Acquire) (c : DisplayCapture) : Reacquired :=
  match attempts with
  | O => ReLost c
  | S attempts =>
      let '(io, acq) := retry attempts in
      match init hasErr (dc_outputIndex c) io c with
      | (InitNullErr, _) => ReNullErr
      | (InitFailed _, c) => reacquire attempts hasErr retry c
      | (InitDone, c) =>
          match acq with
          | AcqOk => ReOk c
          | AcqLost => reacquire attempts hasErr retry (countLost c)
          | _ => ReFailed acq c
          end
      end
  end.

Definition acquireFailed (a : Acquire) : bytes := str "AcquireNextFrame failed hr=0x" ++ decString (hresult a).

(** The part behind a successful acquisition. *)
Definition mapFrame (io : CaptureIo) (c : DisplayCapture) : CaptureResult * DisplayCapture :=
  let timed mapped (n : Z) c :=
    mkDc (dc_duplication c) (dc_staging c) mapped (dc_outputIndex c) (dc_adapterIndex c) (dc_monWidth c) (dc_monHeight c)
      (dc_monLeft c) (dc_monTop c) (dc_crop c) n (dc_accessLost c) (ca_ms io)
      (if deqb (dc_avgMs c) dzero then ca_ms io else dadd (dmul (dc_avgMs c) d0_9) (dmul (ca_ms io) d0_1)) in
  if negb (ca_texture io) then
    (CapError (str "AcquireNextFrame returned a non-texture resource"), timed (dc_mapped c) (dc_frameCounter c) c)
  else if negb (dc_staging c) then (CapNullStaging, c)
  else
    match ca_map io with
    | None => (CapError (str "Map(staging) failed"), timed false (dc_frameCounter c) c)
    | Some pitch =>
        let cr := dc_crop c in
        let n := u32 (dc_frameCounter c + 1) in
        (CapFrame (mkCf (cr_y cr * pitch + cr_x cr * 4) (cr_w cr) (cr_h cr) (i32 pitch) (ca_nowUs io) n), timed true n c)
    end.

Definition capture (hasErr : bool) (io : CaptureIo) (c : DisplayCapture) : CaptureResult * DisplayCapture :=
  if negb (dc_duplication c) then (CapError (str "capture: not initialized"), c)
  else
    match ca_first io with
    | AcqOk => mapFrame io c
    | AcqTimeout => (CapTimedOut, c)
    | AcqFailed hr => (CapError (acquireFailed (AcqFailed hr)), c)
    | AcqLost =>
        match reacquire 3 hasErr (ca_retry io) (countLost c) with
        | ReOk c => mapFrame io c
        | ReFailed a c => (CapError (acquireFailed a), c)
        | ReLost c => (CapError (str "capture: could not re-duplicate output after access lost"), c)
        | ReNullErr => (CapNullErr, c)
        end
    end.

(** ** The crop *)

(** A capture window: its client area in screen coordinates, when it is a window
    that is not minimised and whose functions succeed. *)
Definition ClientArea : Type := option (Z * Z * Z * Z).

Definition setCropRect (x y w h : Z) (c : DisplayCapture) : DisplayCapture :=
  setCropAndCounter (mkCrop x y w h true) (dc_frameCounter c) c.

Definition updateWindowCrop (area : ClientArea) (c : DisplayCapture) : bool * DisplayCapture :=
  match area with
  | None => (false, c)
  | Some (lft, tp, w, h) =>
      let x := lft - dc_monLeft c in
      let y := tp - dc_monTop c in
      let '(w, x) := if x <? 0 then (w + x, 0) else (w, x) in
      let '(h, y) := if y <? 0 then (h + y, 0) else (h, y) in
      let w := if dc_monWidth c <? x + w then dc_monWidth c - x else w in
      let h := if dc_monHeight c <? y + h then dc_monHeight c - y else h in
      if (w <? 16) || (h <? 16) then (false, c) else (true, setCropRect x y w h c)
  end.

Definition clearCrop (c : DisplayCapture) : DisplayCapture := setCropAndCounter (fullCrop c) (dc_frameCounter c) c.

(** * The numbering of the outputs *)

Lemma enumAdapter_extends outs a : exists more, enumAdapter outs a = outs ++ more.
Proof.
  induction a as [|[d|] a IH] in outs |- *; cbn [enumAdapter]; [exists []; by rewrite app_nil_r| |apply IH].
  destruct (od_attached d); [|apply IH]. destruct (IH (outs ++ [outputInfo (zlen outs) d])) as [more ->].
  eexists. by rewrite <- app_assoc.
Qed.

Lemma enumerate_extends adapters : forall outs, exists more, foldl enumAdapter outs adapters = outs ++ more.
Proof.
  induction adapters as [|a adapters IH]; intros outs; cbn [foldl]; [exists []; by rewrite app_nil_r|].
  destruct (enumAdapter_extends outs a) as [m1 ->]. destruct (IH (outs ++ m1)) as [m2 ->]. eexists. by rewrite <- app_assoc.
Qed.

Lemma findInAdapter_agrees i a : forall outs,
  zlen outs <= i ->
  match findInAdapter i (zlen outs) a with
  | inl d => enumAdapter outs a !! Z.to_nat i = Some (outputInfo i d)
  | inr g => g = zlen (enumAdapter outs a) /\ g <= i
  end.
Proof.
  induction a as [|[d|] a IH]; intros outs Hi; cbn [findInAdapter enumAdapter]; [done| |by apply IH].
  destruct (od_attached d); [|by apply IH]. destruct (Z.eqb_spec (zlen outs) i) as [He|Hne].
  - destruct (enumAdapter_extends (outs ++ [outputInfo (zlen outs) d]) a) as [more ->]. subst i. rewrite Nat2Z.id.
    rewrite lookup_app_l by (rewrite length_app; cbn; lia). by rewrite lookup_app_r, Nat.sub_diag by done.
  - specialize (IH (outs ++ [outputInfo (zlen outs) d])). rewrite length_app in IH. cbn [length] in IH.
    replace (Z.of_nat (length outs + 1)) with (zlen outs + 1) in IH by lia. apply IH. lia.
Qed.

Lemma findOutput_agrees i adapters : forall outs k,
  zlen outs <= i ->
  (fun ad : Z * OutputDesc => outputInfo i (snd ad)) <$> findOutput i (zlen outs) k adapters =
    foldl enumAdapter outs adapters !! Z.to_nat i.
Proof.
  induction adapters as [|a adapters IH]; intros outs k Hi; cbn [findOutput foldl].
  - symmetry. apply lookup_ge_None_2. lia.
  - pose proof (findInAdapter_agrees i a outs Hi) as Ha. destruct (findInAdapter i (zlen outs) a) as [d|g].
    + cbn. destruct (enumerate_extends adapters (enumAdapter outs a)) as [more ->]. symmetry. by apply lookup_app_l_Some.
    + destruct Ha as [-> Hle]. by apply IH.
Qed.

(** The index a user picks in the list of outputs is the output that is captured: [findOutput] finds the output
    at that place of [enumerateOutputs], and fails exactly when the list is shorter. *)
Theorem output_index_agrees i adapters :
  0 <= i ->
  (fun ad : Z * OutputDesc => outputInfo i (snd ad)) <$> findOutput i 0 0 adapters = enumerateOutputs adapters !! Z.to_nat i.
Proof. intros Hi. by apply (findOutput_agrees i adapters [] 0). Qed.

Definition sampleAdapters : list Adapter :=
  [[Some (mkOd (str "A") 0 0 1920 1080 true); None]; [Some (mkOd (str "B") 0 0 100 100 false); Some (mkOd (str "C") 1920 0 3840 1080 true)]].

Lemma output_index_agrees_witness :
  enumerateOutputs sampleAdapters !! 1%nat = Some (mkOi 1 (str "C") 1920 1080 true).
Proof.
  assert (H1 : 0 <= 1) by lia. refine (eq_trans (eq_sym (output_index_agrees 1 sampleAdapters H1)) _). vm_compute. reflexivity.
Defined.

(** * The crop stays on the desktop *)

Inductive CaptureCall :=
  | CallInit (hasErr : bool) (outputIndex : Z) (io : InitIo)
  | CallCapture (hasErr : bool) (io : CaptureIo)
  | CallUpdateCrop (area : ClientArea)
  | CallClearCrop.

Definition captureStep (k : CaptureCall) (c : DisplayCapture) : DisplayCapture :=
  match k with
  | CallInit e i io => snd (init e i io c)
  | CallCapture e io => snd (capture e io c)
  | CallUpdateCrop area => snd (updateWindowCrop area c)
  | CallClearCrop => clearCrop c
  end.

Definition captureRun (ks : list CaptureCall) (c : DisplayCapture) : DisplayCapture := foldl (fun c k => captureStep k c) c ks.

(** Outputs have sizes. *)
Definition desc_ok (d : OutputDesc) : Prop := 0 <= od_right d - od_left d < 2 ^ 31 /\ 0 <= od_bottom d - od_top d < 2 ^ 31.
Definition init_ok (io : InitIo) : Prop :=
  forall adapters i a d, ii_factory io = Some adapters -> findOutput i 0 0 adapters = Some (a, d) -> desc_ok d.
Definition capture_call_ok (k : CaptureCall) : Prop :=
  match k with
  | CallInit _ _ io => init_ok io
  | CallCapture _ io => forall n, init_ok (fst (ca_retry io n))
  | _ => True
  end.

Definition inside (c : DisplayCapture) : Prop :=
  let cr := dc_crop c in
  0 <= cr_x cr /\ 0 <= cr_y cr /\ 0 <= cr_w cr /\ 0 <= cr_h cr /\
  cr_x cr + cr_w cr <= dc_monWidth c /\ cr_y cr + cr_h cr <= dc_monHeight c.

Definition capture_ok (c : DisplayCapture) : Prop := dc_staging c = true -> dc_duplication c = true -> inside c.

Lemma init_full hasErr i io c r c' :
  init hasErr i io c = (r, c') -> init_ok io ->
  match r with
  | InitDone => dc_duplication c' = true /\ dc_staging c' = true /\ dc_crop c' = fullCrop c' /\ 0 <= dc_monWidth c' /\ 0 <= dc_monHeight c'
  | _ => dc_staging c' = false
  end.
Proof.
  unfold init. intros H Hok. destruct (ii_factory io) as [adapters|] eqn:Ef; [|by injection H as <- <-].
  destruct (findOutput i 0 0 adapters) as [[a d]|] eqn:Eo; [|by injection H as <- <-].
  destruct (ii_adapter io); [|by injection H as <- <-]. cbn [negb] in H.
  destruct (ii_device io); [by injection H as <- <-|].
  destruct (ii_desc io); [|by injection H as <- <-]. cbn [negb] in H.
  destruct (Hok adapters i a d Ef Eo) as [Hw Hh].
  destruct (duplicateOutput hasErr (ii_dup io)); [|by injection H as <- <-..].
  destruct (ii_staging io); injection H as <- <-; [|done].
  repeat split; cbn [dc_monWidth dc_monHeight setCropAndCounter setDuplication setMonitor]; rewrite i32_small; lia.
Qed.

Lemma init_capture_ok hasErr i io c : init_ok io -> capture_ok (snd (init hasErr i io c)).
Proof.
  intros Hok. destruct (init hasErr i io c) as [r c'] eqn:E. pose proof (init_full _ _ _ _ _ _ E Hok) as H. cbn [snd].
  intros Hs Hd. destruct r; try congruence. destruct H as (_ & _ & Hc & Hw & Hh). unfold inside. rewrite Hc. cbn. lia.
Qed.

Lemma reacquire_ok n hasErr retry c :
  (forall k, init_ok (fst (retry k))) -> capture_ok c ->
  match reacquire n hasErr retry c with
  | ReOk c' => capture_ok c' /\ dc_crop c' = fullCrop c' /\ dc_staging c' = true
  | ReFailed _ c' | ReLost c' => capture_ok c'
  | ReNullErr => True
  end.
Proof.
  intros Hr. induction n as [|n IH] in c |- *; intros Hc; [done|]. cbn [reacquire].
  specialize (Hr n). destruct (retry n) as [io acq]. cbn [fst] in Hr.
  pose proof (init_capture_ok hasErr (dc_outputIndex c) io c Hr) as Hc1.
  destruct (init hasErr (dc_outputIndex c) io c) as [r c1] eqn:Ei. pose proof (init_full _ _ _ _ _ _ Ei Hr) as Hf.
  cbn [snd] in Hc1. destruct r; [|by apply IH|done]. destruct Hf as (_ & Hs & Hcrop & _).
  destruct acq; [done|done|by apply IH|done].
Qed.

Lemma mapFrame_ok io c : capture_ok c -> capture_ok (snd (mapFrame io c)).
Proof. unfold mapFrame. intros H. destruct (negb (ca_texture io)), (negb (dc_staging c)), (ca_map io); exact H. Qed.

Lemma capture_keeps hasErr io c : (forall n, init_ok (fst (ca_retry io n))) -> capture_ok c -> capture_ok (snd (capture hasErr io c)).
Proof.
  intros Hr Hc. unfold capture. destruct (negb _); [done|]. destruct (ca_first io); [by apply mapFrame_ok|done| |done].
  pose proof (reacquire_ok 3 hasErr (ca_retry io) (countLost c) Hr Hc) as H.
  destruct (reacquire _ _ _ _); [apply mapFrame_ok, H|done|done|done].
Qed.

Lemma updateWindowCrop_inside area c ok c' :
  updateWindowCrop area c = (ok, c') -> ok = true -> inside c' /\ 16 <= cr_w (dc_crop c') /\ 16 <= cr_h (dc_crop c').
Proof.
  unfold updateWindowCrop, inside. destruct area as [[[[lft tp] w] h]|]; [|by intros [= <- <-]].
  intros H ->. revert H. cbv zeta.
  destruct (Z.ltb_spec (lft - dc_monLeft c) 0), (Z.ltb_spec (tp - dc_monTop c) 0);
    repeat match goal with |- context [?a <? ?b] => destruct (Z.ltb_spec a b) end; cbn [orb];
    intros H'; apply pair_equal_spec in H' as [Hok <-]; try done; cbn; lia.
Qed.

Lemma captureStep_keeps k c : capture_call_ok k -> capture_ok c -> capture_ok (captureStep k c).
Proof.
  destruct k as [e i io|e io|area|]; cbn [capture_call_ok captureStep]; intros Hk Hc.
  - by apply init_capture_ok.
  - by apply capture_keeps.
  - destruct (updateWindowCrop area c) as [ok c'] eqn:E. cbn [snd]. destruct ok.
    + destruct (updateWindowCrop_inside _ _ _ _ E eq_refl) as [Hi _]. by intros _ _.
    + revert E. unfold updateWindowCrop. destruct area as [[[[lft tp] w] h]|]; [|by intros [= <-]].
      cbv zeta. repeat case_match; by intros [= <-].
  - intros Hs Hd. destruct (Hc Hs Hd) as (H1 & H2 & H3 & H4 & H5 & H6). unfold inside. cbn. lia.
Qed.

Lemma captureRun_keeps ks c : capture_ok c -> Forall capture_call_ok ks -> capture_ok (captureRun ks c).
Proof.
  intros Hc Hk. induction Hk as [|k ks Hk _ IH] in c, Hc |- *; [done|]. cbn. by apply IH, captureStep_keeps.
Qed.

(** A frame is read from the rows of the desktop image: [pitch] bytes a row. *)
Definition frame_inside (pitch : Z) (c : DisplayCapture) (f : CaptureFrame) : Prop :=
  0 <= cf_offset f /\ 0 <= cf_width f /\ 0 <= cf_height f /\
  forall y, 0 <= y < cf_height f -> cf_offset f + y * pitch + 4 * cf_width f <= (cr_y (dc_crop c) + y + 1) * pitch /\
    cr_y (dc_crop c) + y < dc_monHeight c.

Lemma mapFrame_inside io c f c' pitch :
  capture_ok c -> dc_duplication c = true -> ca_map io = Some pitch -> 4 * dc_monWidth c <= pitch ->
  mapFrame io c = (CapFrame f, c') -> frame_inside pitch c' f.
Proof.
  intros Hc Hd Hm Hp. unfold mapFrame. destruct (ca_texture io); [|done]. cbn [negb].
  destruct (dc_staging c) eqn:Hs; [|done]. cbn [negb]. rewrite Hm. intros [= <- <-].
  destruct (Hc Hs Hd) as (H1 & H2 & H3 & H4 & H5 & H6).
  unfold frame_inside. cbn [cf_offset cf_width cf_height dc_crop dc_monHeight]. assert (0 <= pitch) by lia.
  split_and!; [nia|done|done|]. intros y Hy. split; [|lia].
  replace (4 * cr_w (dc_crop c)) with (4 * (cr_x (dc_crop c) + cr_w (dc_crop c)) - cr_x (dc_crop c) * 4) by lia.
  rewrite !Z.mul_add_distr_r. lia.
Qed.

(** C39: whatever calls went before, a captured frame lies inside the mapped image of the desktop: each of its rows is
    inside a row of the image, for any pitch that holds a row of the monitor. *)
Theorem frames_inside_the_desktop ks hasErr io f c' pitch :
  Forall capture_call_ok ks -> capture_call_ok (CallCapture hasErr io) -> ca_map io = Some pitch ->
  capture hasErr io (captureRun ks newCapture) = (CapFrame f, c') -> 4 * dc_monWidth c' <= pitch -> frame_inside pitch c' f.
Proof.
  intros Hks Hio Hm. set (c := captureRun ks newCapture). assert (Hc : capture_ok c) by (by apply captureRun_keeps).
  unfold capture. destruct (dc_duplication c) eqn:Hd; [|done]. cbn [negb].
  assert (Hmon : forall c1, mapFrame io c1 = (CapFrame f, c') -> dc_monWidth c' = dc_monWidth c1).
  { intros c1. unfold mapFrame. destruct (negb _); [done|]. destruct (negb _); [done|]. rewrite Hm. by intros [= _ <-]. }
  destruct (ca_first io); try done.
  - intros H Hp. rewrite (Hmon _ H) in Hp. by eapply mapFrame_inside.
  - pose proof (reacquire_ok 3 hasErr (ca_retry io) (countLost c) Hio Hc) as Hr.
    assert (Hdup : forall n c1 c2, reacquire n hasErr (ca_retry io) c1 = ReOk c2 -> dc_duplication c2 = true).
    { intros n. induction n as [|n IH]; intros c1 c2; cbn [reacquire]; [done|]. specialize (Hio n).
      destruct (ca_retry io n) as [io1 acq]. cbn [fst] in Hio.
      destruct (init hasErr (dc_outputIndex c1) io1 c1) as [r c3] eqn:Ei.
      pose proof (init_full _ _ _ _ _ _ Ei Hio) as Hf. destruct r; [|apply IH|done].
      destruct acq; [intros [= <-]; apply Hf|done|apply IH|done]. }
    destruct (reacquire 3 hasErr (ca_retry io) (countLost c)) as [c2| | |] eqn:Er; try done.
    intros H Hp. rewrite (Hmon _ H) in Hp. eapply (mapFrame_inside io c2); [apply Hr|by eapply Hdup|done..].
Qed.

Definition sampleInit : InitIo := mkInitIo (Some sampleAdapters) true None true DupOk true.
Definition sampleCapture : CaptureIo := mkCaptureIo AcqOk (fun _ => (sampleInit, AcqOk)) true (Some 7680) 5 dzero.

Lemma sampleInit_ok : init_ok sampleInit.
Proof.
  intros adapters i a d [= <-]. unfold sampleAdapters. cbn [findOutput findInAdapter od_attached].
  destruct (0 =? i); [intros [= _ <-]; unfold desc_ok; cbn; lia|].
  destruct (0 + 1 =? i); [intros [= _ <-]; unfold desc_ok; cbn; lia|]. done.
Defined.

Lemma frames_inside_the_desktop_witness :
  let ks := [CallInit true 1 sampleInit; CallUpdateCrop (Some (1900, 30, 600, 400))] in
  let f := mkCf (30 * 7680) 580 400 7680 5 1 in
  exists c', capture true sampleCapture (captureRun ks newCapture) = (CapFrame f, c') /\ frame_inside 7680 c' f.
Proof.
  intros ks f. eexists. split; [vm_compute; reflexivity|].
  refine (frames_inside_the_desktop ks true sampleCapture f _ 7680 _ _ _ _ _).
  - apply List.Forall_cons; [exact sampleInit_ok|]. apply List.Forall_cons; [exact I|apply List.Forall_nil].
  - intros n. exact sampleInit_ok.
  - reflexivity.
  - vm_compute. reflexivity.
  - cbn. lia.
Defined.

(** * What the capture misses *)

(** A frame taken after the access was lost shows the whole monitor, whatever window was being captured: [init]
    clears the crop and the frame is taken before the crop is computed again. *)
Theorem frame_after_access_loss_is_uncropped hasErr io c f c' :
  ca_first io = AcqLost -> (forall n, init_ok (fst (ca_retry io n))) -> capture_ok c ->
  capture hasErr io c = (CapFrame f, c') ->
  cf_offset f = 0 /\ cf_width f = dc_monWidth c' /\ cf_height f = dc_monHeight c'.
Proof.
  intros Hl Hio Hc. unfold capture. destruct (negb _); [done|]. rewrite Hl.
  pose proof (reacquire_ok 3 hasErr (ca_retry io) (countLost c) Hio Hc) as Hr.
  destruct (reacquire _ _ _ _) as [c2| | |]; try done. destruct Hr as (_ & Hcrop & _).
  unfold mapFrame. destruct (negb _); [done|]. destruct (negb _); [done|]. destruct (ca_map io) as [pitch|]; [|done].
  intros [= <- <-]. cbn. rewrite Hcrop. done.
Qed.

(** When the duplication cannot be renewed, an initialisation without an error string writes through a null
    pointer. *)
Theorem failed_duplication_needs_an_error_string outputIndex adapters a d dup c :
  findOutput outputIndex 0 0 adapters = Some (a, d) -> dup = DupNotAvailable \/ dup = DupDenied \/ (exists hr, dup = DupFailed hr) ->
  fst (init false outputIndex (mkInitIo (Some adapters) true None true dup true) c) = InitNullErr.
Proof. intros Hf Hd. unfold init. cbn [ii_factory]. rewrite Hf. cbn. by destruct Hd as [->|[->|[hr ->]]]. Qed.
