(* ===== verification/VideoEncoder.v ===== *)
(** encoding/VideoEncoder.h and VideoEncoder.cpp: encoder selection, letterboxing,
    keyframe requests, packets and the bitrate.

    FFmpeg is not part of the source: what its calls return is an argument
    ([OpenOutcome], [EncodeIo]), and the layout of a tightly packed YUV420P image
    is an interface, [ImageLayout]. What the encoder does to memory is a list of
    row copies. *)

From S2P Require Import Prelude Types Double.

Open Scope Z_scope.

(** * Data *)

Record EncodedPacket := mkEp { ep_data : bytes; ep_ptsUs : Z; ep_keyframe : bool }.

Record VideoEncoderParams := mkVep {
  vp_codec : VideoCodec; vp_width : Z; vp_height : Z; vp_fps : Z; vp_bitrateKbps : Z; vp_gop : Z;
  vp_preferredEncoder : bytes }.

Definition defaultParams : VideoEncoderParams := mkVep H264 1920 1080 60 8000 120 [].

(** A scaler, by the sizes it was made for. *)
Record SwsContext := mkSws { sw_srcW : Z; sw_srcH : Z; sw_dstW : Z; sw_dstH : Z }.

(** The FFmpeg objects the encoder owns. *)
Record Handles := mkHandles {
  h_ctx : bool; h_frame : bool; h_packet : bool; h_sws : option SwsContext; h_scaleBuffer : bool;
  h_scaleBufSize : Z; h_lastFitW : Z; h_lastFitH : Z }.

Record EncoderStats := mkEstats {
  es_framesEncoded : Z; es_bytesEncoded : Z; es_lastEncodeMs : double; es_avgEncodeMs : double }.

Record VideoEncoder := mkEnc {
  ve_p : VideoEncoderParams; ve_h : Handles; ve_stats : EncoderStats; ve_bitrateDirty : bool;
  ve_encoderName : bytes; ve_frameCounter : Z; ve_keyframeRequested : bool }.

Definition noStats : EncoderStats := mkEstats 0 0 dzero dzero.

Definition newEncoder : VideoEncoder :=
  mkEnc defaultParams (mkHandles false false false None false 0 0 0) noStats false [] 0 true.

Definition setHandles (h : Handles) (e : VideoEncoder) : VideoEncoder :=
  mkEnc (ve_p e) h (ve_stats e) (ve_bitrateDirty e) (ve_encoderName e) (ve_frameCounter e) (ve_keyframeRequested e).

(** * Strings *)

Definition hasPrefix (p s : bytes) : bool := bool_decide (take (length p) s = p).

(** [s.find(sub) != npos]. *)
Fixpoint containsSub (sub s : bytes) : bool :=
  hasPrefix sub s || match s with [] => false | _ :: s => containsSub sub s end.

(** * Opening *)

Definition encoderCandidates (codec : VideoCodec) : list bytes :=
  if codec =? Hevc then [str "hevc_nvenc"; str "hevc_amf"; str "hevc_qsv"; str "libx265"]
  else if codec =? Av1 then [str "av1_nvenc"; str "av1_amf"; str "av1_qsv"; str "libsvtav1"]
  else [str "h264_nvenc"; str "h264_amf"; str "h264_qsv"; str "libx264"].


Definition availableEncoders (found : bytes -> bool) (codec : VideoCodec) : list bytes :=
  List.filter found (encoderCandidates codec).

(** [close()]. *)
Definition closeHandles (h : Handles) : Handles :=
  mkHandles false false false None false (if h_scaleBuffer h then 0 else h_scaleBufSize h) (h_lastFitW h) (h_lastFitH h).

Definition close (e : VideoEncoder) : VideoEncoder := setHandles (closeHandles (ve_h e)) e.

(** The fields of the codec context and the options of the encoder. *)
Record CodecSettings := mkCs {
  cs_width : Z; cs_height : Z; cs_fps : Z; cs_bitRate : Z; cs_rcMaxRate : Z; cs_rcBufferSize : Z; cs_gopSize : Z;
  cs_maxBFrames : Z; cs_threadCount : Z; cs_options : list (bytes * bytes) }.

Definition encoderOptions (name : bytes) : list (bytes * bytes) :=
  if containsSub (str "nvenc") name then
    [(str "preset", str "p1"); (str "tune", str "ull"); (str "rc", str "cbr"); (str "delay", str "0");
     (str "zerolatency", str "1")]
  else if containsSub (str "amf") name then [(str "usage", str "ultralowlatency"); (str "rc", str "cbr")]
  else if containsSub (str "qsv") name then [(str "preset", str "veryfast"); (str "low_power", str "1")]
  else if bool_decide (name = str "libx264") then [(str "preset", str "ultrafast"); (str "tune", str "zerolatency")]
  else if bool_decide (name = str "libx265") then
    [(str "preset", str "ultrafast"); (str "tune", str "zerolatency");
     (str "x265-params", str "bframes=0:repeat-headers=1")]
  else [].

(** The division is by a frame rate that is not zero. *)
Definition codecSettings (name : bytes) (p : VideoEncoderParams) : CodecSettings :=
  let bitRate := vp_bitrateKbps p * 1000 in
  mkCs (vp_width p) (vp_height p) (vp_fps p) bitRate bitRate
    (i32 (Z.quot (Z.quot bitRate (vp_fps p) * 3) 2)) (vp_gop p) 0 (if hasPrefix (str "libx2") name then 0 else 1)
    (encoderOptions name).

(** What FFmpeg makes of an encoder name and its settings. *)
Inductive OpenOutcome := OpNotFound | OpNoContext | OpOpenFailed (message : bytes) | OpNoFrame | OpNoPacket | OpOpened.

Definition openError (name : bytes) (o : OpenOutcome) : bytes :=
  match o with
  | OpNotFound => str "encoder not found in this FFmpeg build"
  | OpNoContext => str "avcodec_alloc_context3 failed"
  | OpOpenFailed message => str "avcodec_open2(" ++ name ++ str ") failed: " ++ message
  | OpNoFrame => str "frame alloc failed"
  | OpNoPacket => str "packet alloc failed"
  | OpOpened => []
  end.

Definition Library : Type := bytes -> CodecSettings -> OpenOutcome.

(** Every failing path leaves the encoder closed; [openEncoder] starts closed. *)
Definition openEncoder (lib : Library) (name : bytes) (e : VideoEncoder) : bool * bytes * VideoEncoder :=
  let o := lib name (codecSettings name (ve_p e)) in
  let h := ve_h e in
  match o with
  | OpOpened =>
      (true, [], setHandles (mkHandles true true true None (h_scaleBuffer h) (h_scaleBufSize h) (h_lastFitW h) (h_lastFitH h)) e)
  | OpNotFound => (false, openError name o, e)
  | OpNoContext | OpOpenFailed _ =>
      (false, openError name o, setHandles (mkHandles false (h_frame h) (h_packet h) (h_sws h) (h_scaleBuffer h)
                                  (h_scaleBufSize h) (h_lastFitW h) (h_lastFitH h)) e)
  | OpNoFrame | OpNoPacket => (false, openError name o, close e)
  end.

Definition candidatesOf (p : VideoEncoderParams) : list bytes :=
  (match vp_preferredEncoder p with [] => [] | n => [n] end) ++
  List.filter (fun c => negb (bool_decide (c = vp_preferredEncoder p))) (encoderCandidates (vp_codec p)).

Definition setName (name : bytes) (e : VideoEncoder) : VideoEncoder :=
  mkEnc (ve_p e) (ve_h e) (ve_stats e) (ve_bitrateDirty e) name (ve_frameCounter e) (ve_keyframeRequested e).

Fixpoint tryCandidates (lib : Library) (names : list bytes) (lastErr : bytes) (e : VideoEncoder) : bool * bytes * VideoEncoder :=
  match names with
  | [] => (false, str "no usable encoder (" ++ lastErr ++ str ")", e)
  | name :: names =>
      let '(ok, err, e) := openEncoder lib name e in
      if ok then (true, [], setName name e) else tryCandidates lib names err e
  end.

Definition init (lib : Library) (p : VideoEncoderParams) (e : VideoEncoder) : bool * bytes * VideoEncoder :=
  let e := close e in
  let e := mkEnc p (ve_h e) noStats (ve_bitrateDirty e) (ve_encoderName e) 0 true in
  tryCandidates lib (candidatesOf p) [] e.

(** * Letterboxing *)

Record FitRect := mkFit { fr_w : Z; fr_h : Z; fr_x : Z; fr_y : Z }.

(** [n &= ~1]. *)
Definition even (n : Z) : Z := Z.land n (-2).

Definition fitSize (tw th srcW srcH : Z) : Z * Z :=
  if srcH * tw <=? srcW * th then
    let fitH := i32 (Z.quot (tw * srcH + srcW - 1) srcW) in
    let fitH := if th <? fitH then th else fitH in
    (tw, if fitH <? 1 then 1 else fitH)
  else
    let fitW := i32 (Z.quot (th * srcW + srcH - 1) srcH) in
    let fitW := if tw <? fitW then tw else fitW in
    (if fitW <? 1 then 1 else fitW, th).

Definition fitRect (tw th srcW srcH : Z) : FitRect :=
  let '(w, h) := fitSize tw th srcW srcH in
  let w := even w in
  let h := even h in
  mkFit w h (even (Z.quot (tw - w) 2)) (even (Z.quot (th - h) 2)).

(** Where a tightly packed image has its planes. *)
Record ImageLayout := mkLayout {
  img_size : Z -> Z -> Z;
  img_plane : Z -> Z -> nat -> Z;   (** offset of a plane *)
  img_stride : Z -> nat -> Z }.

(** [memcpy] of [rc_len] bytes into a plane of the frame, from the letterbox
    buffer; [memset] of [fl_len] bytes of a plane. *)
Record RowCopy := mkRow { rc_plane : nat; rc_dst : Z; rc_src : Z; rc_len : Z }.
Record Fill := mkFill { fl_plane : nat; fl_dst : Z; fl_len : Z; fl_value : Z }.

Definition rows (n : Z) : list Z := Z.of_nat <$> seq 0 (Z.to_nat n).

Definition fills (linesize : nat -> Z) (tw th : Z) : list Fill :=
  mkFill 0 0 (linesize 0%nat * th) 16 ::
  concat ((fun y : Z => [mkFill 1 (y * linesize 1%nat) (Z.quot tw 2) 128; mkFill 2 (y * linesize 2%nat) (Z.quot tw 2) 128])
            <$> rows (Z.quot th 2)).

Definition blits (img : ImageLayout) (linesize : nat -> Z) (r : FitRect) : list RowCopy :=
  let src p y := img_plane img (fr_w r) (fr_h r) p + y * img_stride img (fr_w r) p in
  ((fun y : Z => mkRow 0 ((fr_y r + y) * linesize 0%nat + fr_x r) (src 0%nat y) (fr_w r)) <$> rows (fr_h r)) ++
  concat ((fun y : Z =>
     [mkRow 1 ((Z.quot (fr_y r) 2 + y) * linesize 1%nat + Z.quot (fr_x r) 2) (src 1%nat y) (Z.quot (fr_w r) 2);
      mkRow 2 ((Z.quot (fr_y r) 2 + y) * linesize 2%nat + Z.quot (fr_x r) 2) (src 2%nat y) (Z.quot (fr_w r) 2)])
     <$> rows (Z.quot (fr_h r) 2)).

(** * Encoding *)

(** What the calls of one [encode] return: the allocation, the scaler, the frame,
    the sending of the frame, the packets received, whether the last receive was
    the end of the packets or an error, and the time it took. *)
Record EncodeIo := mkEio {
  ei_malloc : bool; ei_getContext : bool; ei_writable : bool; ei_send : bool;
  ei_packets : list (bytes * Z * bool); ei_drained : bool; ei_ms : double }.

(** What was drawn: the scaler used, the source given to it, the rectangle, the
    time stamp of the frame and whether a keyframe was asked for. *)
Record Drawing := mkDrawing {
  dr_sws : SwsContext; dr_srcW : Z; dr_srcH : Z; dr_srcStride : Z; dr_rect : FitRect; dr_pts : Z; dr_intra : bool }.

Record EncodeResult := mkEr {
  er_ok : bool; er_err : bytes; er_out : list EncodedPacket; er_draw : option Drawing; er_enc : VideoEncoder }.

(** The scaler and the letterbox buffer for a fitted size. *)
Definition prepareScaler (img : ImageLayout) (srcW srcH : Z) (r : FitRect) (io : EncodeIo) (h : Handles) : bool * Handles :=
  let reuse := match h_sws h with
               | Some _ => (h_lastFitW h =? fr_w r) && (h_lastFitH h =? fr_h r)
               | None => false
               end in
  if reuse then (true, h)
  else
    let yuvSize := img_size img (fr_w r) (fr_h r) in
    let grow := h_scaleBufSize h <? i32 yuvSize in
    let buffer := if grow then ei_malloc io else h_scaleBuffer h in
    let size := if grow then i32 yuvSize else h_scaleBufSize h in
    if ei_getContext io then
      (true, mkHandles (h_ctx h) (h_frame h) (h_packet h) (Some (mkSws srcW srcH (fr_w r) (fr_h r))) buffer size (fr_w r) (fr_h r))
    else (false, mkHandles (h_ctx h) (h_frame h) (h_packet h) None buffer size (h_lastFitW h) (h_lastFitH h)).

Definition packetPts (dts frameCounter fps : Z) : Z :=
  if 0 <=? dts then Z.quot (u64 (u64 dts * 1000000)) (u64 fps) else Z.quot (u64 (u64 frameCounter * 1000000)) (u64 fps).

Definition toPacket (frameCounter fps : Z) (p : bytes * Z * bool) : EncodedPacket :=
  let '(data, dts, key) := p in mkEp data (packetPts dts frameCounter fps) key.

Definition countPackets (ps : list (bytes * Z * bool)) (ms : double) (s : EncoderStats) : EncoderStats :=
  let s := foldl (fun (s : EncoderStats) (p : bytes * Z * bool) =>
             mkEstats (u32 (es_framesEncoded s + 1)) (u64 (es_bytesEncoded s + zlen (fst (fst p)))) (es_lastEncodeMs s)
               (es_avgEncodeMs s)) s ps in
  mkEstats (es_framesEncoded s) (es_bytesEncoded s) ms
    (if deqb (es_avgEncodeMs s) dzero then ms else dadd (dmul (es_avgEncodeMs s) d0_9) (dmul ms d0_1)).

(** [encode]; [out] is the caller's vector. *)
Definition encode (img : ImageLayout) (srcW srcH srcStride : Z) (io : EncodeIo) (out : list EncodedPacket)
    (e : VideoEncoder) : EncodeResult :=
  if negb (h_ctx (ve_h e)) || negb (h_frame (ve_h e)) then mkEr false (str "encoder not initialized") out None e
  else
    let p := ve_p e in
    let r := fitRect (vp_width p) (vp_height p) srcW srcH in
    let '(scaled, h) := prepareScaler img srcW srcH r io (ve_h e) in
    let e := setHandles h e in
    if negb scaled then mkEr false (str "sws_getContext failed") [] None e
    else if negb (h_scaleBuffer h) then mkEr false (str "letterbox buffer missing") [] None e
    else if negb (ei_writable io) then mkEr false (str "frame not writable") [] None e
    else
      match h_sws h with
      | None => mkEr false (str "sws_getContext failed") [] None e
      | Some sws =>
          let draw := Some (mkDrawing sws srcW srcH srcStride r (ve_frameCounter e) (ve_keyframeRequested e)) in
          let counter := ve_frameCounter e + 1 in
          let e := mkEnc p (ve_h e) (ve_stats e) (ve_bitrateDirty e) (ve_encoderName e) counter false in
          if negb (ei_send io) then mkEr false (str "avcodec_send_frame failed") [] draw e
          else
            let out := toPacket counter (vp_fps p) <$> ei_packets io in
            let st := countPackets (ei_packets io) (ei_ms io) (ve_stats e) in
            let e := mkEnc p (ve_h e) st (ve_bitrateDirty e) (ve_encoderName e) counter false in
            if ei_drained io then mkEr true [] out draw e
            else mkEr false (str "avcodec_receive_packet failed") out draw e
      end.

(** [flush]: the packets still inside. *)
Definition flush (packets : list (bytes * Z * bool)) (out : list EncodedPacket) (e : VideoEncoder) : bool * list EncodedPacket :=
  if negb (h_ctx (ve_h e)) then (false, out)
  else (true, out ++ ((fun p : bytes * Z * bool =>
                 mkEp (fst (fst p)) (Z.quot (u64 (u64 (snd (fst p)) * 1000000)) (u64 (vp_fps (ve_p e)))) (snd p)) <$> packets)).

(** * Requests *)

Definition requestKeyframe (e : VideoEncoder) : VideoEncoder :=
  mkEnc (ve_p e) (ve_h e) (ve_stats e) (ve_bitrateDirty e) (ve_encoderName e) (ve_frameCounter e) true.

Definition clampKbps (kbps : Z) : Z := if kbps <? 2000 then 2000 else if 50000 <? kbps then 50000 else kbps.

Definition setBitrate (kbps : Z) (e : VideoEncoder) : VideoEncoder :=
  let kbps := clampKbps kbps in
  let p := ve_p e in
  if kbps =? vp_bitrateKbps p then e
  else mkEnc (mkVep (vp_codec p) (vp_width p) (vp_height p) (vp_fps p) kbps (vp_gop p) (vp_preferredEncoder p))
         (ve_h e) (ve_stats e) true (ve_encoderName e) (ve_frameCounter e) (ve_keyframeRequested e).

Definition applyBitrateIfDirty (lib : Library) (e : VideoEncoder) : bool * VideoEncoder :=
  if negb (ve_bitrateDirty e) || negb (h_ctx (ve_h e)) then (false, e)
  else
    let '(ok, _, e) := init lib (ve_p e) e in
    if ok then (true, mkEnc (ve_p e) (ve_h e) (ve_stats e) false (ve_encoderName e) (ve_frameCounter e) (ve_keyframeRequested e))
    else (false, e).

(** * Letterbox geometry *)

Lemma even_spec n : even n = 2 * (n / 2).
Proof.
  unfold even. change (-2) with (Z.lnot (Z.ones 1)). rewrite <- Z.ldiff_land, Z.ldiff_ones_r by lia.
  rewrite Z.shiftl_mul_pow2, Z.shiftr_div_pow2 by lia. change (2 ^ 1) with 2. lia.
Qed.

Lemma even_bounds n : n - 1 <= even n <= n /\ even n mod 2 = 0.
Proof. rewrite even_spec. split; [|rewrite Z.mul_comm; apply Z.mod_mul; lia]. Z.div_mod_to_equations. lia. Qed.

Lemma ceil_div a b : 0 < a -> 0 < b -> Z.quot (a + b - 1) b * b < a + b /\ a <= Z.quot (a + b - 1) b * b.
Proof. intros Ha Hb. rewrite Z.quot_div_nonneg by lia. Z.div_mod_to_equations. nia. Qed.

(** The fitted size before rounding: inside the target, touching it on one side,
    and in the proportion of the source up to a pixel. *)
Definition fits_target (tw th srcW srcH w h : Z) : Prop :=
  1 <= w <= tw /\ 1 <= h <= th /\
  ((w = tw /\ 0 <= h * srcW - tw * srcH < srcW) \/ (h = th /\ 0 <= w * srcH - th * srcW < srcH)).

Lemma fitSize_spec tw th srcW srcH :
  0 < tw < 2 ^ 31 -> 0 < th < 2 ^ 31 -> 0 < srcW -> 0 < srcH ->
  fits_target tw th srcW srcH (fst (fitSize tw th srcW srcH)) (snd (fitSize tw th srcW srcH)).
Proof.
  intros Ht1 Ht2 Hw Hh. unfold fitSize, fits_target.
  assert (Hq : forall a b c, 0 < a -> 0 < b -> 0 < c < 2 ^ 31 -> a <= b * c ->
            let q := i32 (Z.quot (a + b - 1) b) in
            (if c <? q then c else q) = q /\ 1 <= q <= c /\ 0 <= q * b - a < b).
  { intros a b c Ha Hb Hc Hle. destruct (ceil_div a b Ha Hb) as [Hu Hl]. cbv zeta.
    assert (1 <= Z.quot (a + b - 1) b <= c) by nia. rewrite i32_small by lia.
    destruct (Z.ltb_spec c (Z.quot (a + b - 1) b)); nia. }
  destruct (Z.leb_spec (srcH * tw) (srcW * th)) as [Hle|Hlt]; cbn [fst snd].
  - destruct (Hq (tw * srcH) srcW th) as (-> & Hb & Hc); [nia..|].
    destruct (Z.ltb_spec (i32 (Z.quot (tw * srcH + srcW - 1) srcW)) 1); lia.
  - destruct (Hq (th * srcW) srcH tw) as (-> & Hb & Hc); [nia..|].
    destruct (Z.ltb_spec (i32 (Z.quot (th * srcW + srcH - 1) srcH)) 1); lia.
Qed.

(** The rectangle is even, inside the target and centred. *)
Lemma fitRect_inside tw th srcW srcH (r := fitRect tw th srcW srcH) :
  0 < tw < 2 ^ 31 -> 0 < th < 2 ^ 31 -> 0 < srcW -> 0 < srcH ->
  0 <= fr_w r /\ 0 <= fr_h r /\ 0 <= fr_x r /\ 0 <= fr_y r /\
  fr_w r mod 2 = 0 /\ fr_h r mod 2 = 0 /\ fr_x r mod 2 = 0 /\ fr_y r mod 2 = 0 /\
  0 <= tw - fr_w r - 2 * fr_x r <= 3 /\ 0 <= th - fr_h r - 2 * fr_y r <= 3.
Proof.
  intros Ht1 Ht2 Hw Hh. destruct (fitSize_spec tw th srcW srcH Ht1 Ht2 Hw Hh) as (Hbw & Hbh & _).
  subst r. unfold fitRect. destruct (fitSize tw th srcW srcH) as [w h]. cbn [fst snd fr_w fr_h fr_x fr_y] in *.
  destruct (even_bounds w), (even_bounds h). rewrite !Z.quot_div_nonneg by lia.
  destruct (even_bounds ((tw - even w) / 2)), (even_bounds ((th - even h) / 2)).
  split_and!; try done; Z.div_mod_to_equations; lia.
Qed.

(** The picture keeps the proportions of the source: it fills the target in one direction, in the other it is
    within a pixel and the rounding to an even number of the exact size, and the bars on its two sides differ by at
    most three pixels. *)
Theorem letterbox_keeps_aspect tw th srcW srcH :
  0 < tw < 2 ^ 31 -> 0 < th < 2 ^ 31 -> 0 < srcW -> 0 < srcH ->
  let r := fitRect tw th srcW srcH in
  ((fr_w r = even tw /\ - srcW <= fr_h r * srcW - tw * srcH < srcW) \/
   (fr_h r = even th /\ - srcH <= fr_w r * srcH - th * srcW < srcH)) /\
  (0 <= tw - fr_w r - 2 * fr_x r <= 3 /\ 0 <= th - fr_h r - 2 * fr_y r <= 3).
Proof.
  intros Ht1 Ht2 Hw Hh r. pose proof (fitRect_inside tw th srcW srcH Ht1 Ht2 Hw Hh) as Hin.
  split; [|apply Hin]. clear Hin. subst r. destruct (fitSize_spec tw th srcW srcH Ht1 Ht2 Hw Hh) as (_ & _ & Hor).
  unfold fitRect. destruct (fitSize tw th srcW srcH) as [w h]. cbn [fst snd fr_w fr_h] in *.
  destruct (even_bounds w), (even_bounds h).
  destruct Hor as [[-> Hr]|[-> Hr]]; [left|right]; (split; [done|nia]).
Qed.

Lemma letterbox_keeps_aspect_witness :
  let r := fitRect 1920 1080 1000 700 in
  (fr_w r = 1542 /\ fr_h r = 1080 /\ fr_x r = 188) /\ (0 <= 1920 - fr_w r - 2 * fr_x r <= 3).
Proof.
  split; [vm_compute; repeat split|]. refine (proj1 (proj2 (letterbox_keeps_aspect 1920 1080 1000 700 _ _ _ _))); lia.
Defined.

(** * Memory *)

Class ImageLaws (img : ImageLayout) : Prop := {
  img_stride_even w : 0 <= w -> w mod 2 = 0 ->
    img_stride img w 0%nat = w /\ img_stride img w 1%nat = w / 2 /\ img_stride img w 2%nat = w / 2;
  img_plane_even w h : 0 <= w -> 0 <= h -> w mod 2 = 0 -> h mod 2 = 0 ->
    img_plane img w h 0%nat = 0 /\ img_plane img w h 1%nat = w * h /\
    img_plane img w h 2%nat = w * h + w / 2 * (h / 2) /\ img_size img w h = w * h + 2 * (w / 2 * (h / 2)) }.

(** The documented layout of AV_PIX_FMT_YUV420P with alignment 1. *)
Definition tightYuv420 : ImageLayout :=
  mkLayout (fun w h => w * h + 2 * ((w + 1) / 2 * ((h + 1) / 2)))
    (fun w h p => match p with O => 0 | S O => w * h | _ => w * h + (w + 1) / 2 * ((h + 1) / 2) end)
    (fun w p => match p with O => w | _ => (w + 1) / 2 end).

#[export] Instance tightYuv420_laws : ImageLaws tightYuv420.
Proof.
  assert (Hc : forall n, n mod 2 = 0 -> (n + 1) / 2 = n / 2) by (intros; Z.div_mod_to_equations; lia).
  split; intros; cbn [img_stride img_plane img_size tightYuv420]; rewrite ?Hc by done; auto.
Qed.

(** A copy stays inside a frame of [th] rows and inside a buffer of [size] bytes. *)
Definition planeBytes (linesize : nat -> Z) (th : Z) (p : nat) : Z :=
  linesize p * match p with O => th | _ => (th + 1) / 2 end.

Definition copyInside (linesize : nat -> Z) (th size : Z) (c : RowCopy) : Prop :=
  0 <= rc_len c /\ 0 <= rc_dst c /\ rc_dst c + rc_len c <= planeBytes linesize th (rc_plane c) /\
  0 <= rc_src c /\ rc_src c + rc_len c <= size.

Definition fillInside (linesize : nat -> Z) (th : Z) (f : Fill) : Prop :=
  0 <= fl_len f /\ 0 <= fl_dst f /\ fl_dst f + fl_len f <= planeBytes linesize th (fl_plane f).

(** The rows of the frame are wide enough for the target. *)
Definition wideEnough (linesize : nat -> Z) (tw : Z) : Prop :=
  tw <= linesize 0%nat /\ (tw + 1) / 2 <= linesize 1%nat /\ (tw + 1) / 2 <= linesize 2%nat.

Lemma elem_rows n y : In y (rows n) -> 0 <= y < n.
Proof. unfold rows. rewrite <- list_elem_of_In, list_elem_of_fmap. intros (k & -> & Hk%elem_of_seq). lia. Qed.

Lemma Forall_rows {A} (P : A -> Prop) (f : Z -> A) n : (forall y, 0 <= y < n -> P (f y)) -> Forall P (f <$> rows n).
Proof. intros H. apply Forall_fmap, List.Forall_forall. intros y Hy. apply H, elem_rows, Hy. Qed.

Lemma Forall_concat_rows {A} (P : A -> Prop) (f : Z -> list A) n :
  (forall y, 0 <= y < n -> Forall P (f y)) -> Forall P (concat (f <$> rows n)).
Proof. intros H. apply Forall_concat, Forall_rows, H. Qed.

Lemma Forall_two {A} (P : A -> Prop) a b : P a -> P b -> Forall P [a; b].
Proof. intros Ha Hb. by repeat apply List.Forall_cons; [| |apply List.Forall_nil]. Qed.

(** A row of [len] at row [y], column [x] of a plane. *)
Lemma row_inside x y len w h stride :
  0 <= x -> 0 <= y < h -> 0 <= len -> x + len <= w -> w <= stride -> 0 <= y * stride + x /\ y * stride + x + len <= stride * h.
Proof. nia. Qed.

Lemma fills_inside linesize tw th :
  0 < tw -> 0 < th -> wideEnough linesize tw -> Forall (fillInside linesize th) (fills linesize tw th).
Proof.
  intros Hw Hh (H0 & H1 & H2). unfold fills. constructor.
  - unfold fillInside, planeBytes. cbn [fl_len fl_dst fl_plane]. nia.
  - apply Forall_concat_rows. intros y Hy. rewrite Z.quot_div_nonneg in Hy by lia.
    assert (0 <= tw / 2 <= (tw + 1) / 2) by (Z.div_mod_to_equations; lia).
    assert (0 <= y < (th + 1) / 2) by (Z.div_mod_to_equations; lia).
    apply Forall_two; unfold fillInside, planeBytes; cbn [fl_len fl_dst fl_plane]; rewrite Z.quot_div_nonneg by lia.
    + pose proof (row_inside 0 y (tw / 2) (tw / 2) ((th + 1) / 2) (linesize 1%nat)). lia.
    + pose proof (row_inside 0 y (tw / 2) (tw / 2) ((th + 1) / 2) (linesize 2%nat)). lia.
Qed.

Lemma blits_inside img linesize tw th srcW srcH (r := fitRect tw th srcW srcH) `{!ImageLaws img} :
  0 < tw < 2 ^ 31 -> 0 < th < 2 ^ 31 -> 0 < srcW -> 0 < srcH -> wideEnough linesize tw ->
  Forall (copyInside linesize th (img_size img (fr_w r) (fr_h r))) (blits img linesize r).
Proof.
  intros Ht1 Ht2 Hw Hh (H0 & H1 & H2).
  destruct (fitRect_inside tw th srcW srcH Ht1 Ht2 Hw Hh) as (Pw & Ph & Px & Py & Ew & Eh & Ex & Ey & Cx & Cy).
  fold r in Pw, Ph, Px, Py, Ew, Eh, Ex, Ey, Cx, Cy.
  destruct (img_stride_even (fr_w r) Pw Ew) as (S0 & S1 & S2).
  destruct (img_plane_even (fr_w r) (fr_h r) Pw Ph Ew Eh) as (P0 & P1 & P2 & ->).
  unfold blits. rewrite S0, S1, S2, P0, P1, P2, !(Z.quot_div_nonneg _ 2) by lia.
  assert (Hx : fr_x r / 2 + fr_w r / 2 <= (tw + 1) / 2) by (Z.div_mod_to_equations; lia).
  assert (Hy : fr_y r / 2 + fr_h r / 2 <= (th + 1) / 2) by (Z.div_mod_to_equations; lia).
  assert (0 <= fr_x r / 2 /\ 0 <= fr_y r / 2 /\ 0 <= fr_w r / 2 /\ 0 <= fr_h r / 2)
    by (split_and!; apply Z.div_pos; lia).
  apply Forall_app. split.
  - apply Forall_rows. intros y Hy'. unfold copyInside, planeBytes. cbn [rc_len rc_dst rc_src rc_plane].
    pose proof (row_inside (fr_x r) (fr_y r + y) (fr_w r) tw th (linesize 0%nat)).
    pose proof (row_inside 0 y (fr_w r) (fr_w r) (fr_h r) (fr_w r)). nia.
  - apply Forall_concat_rows. intros y Hy'.
    pose proof (row_inside 0 y (fr_w r / 2) (fr_w r / 2) (fr_h r / 2) (fr_w r / 2)).
    apply Forall_two; unfold copyInside, planeBytes; cbn [rc_len rc_dst rc_src rc_plane].
    + pose proof (row_inside (fr_x r / 2) (fr_y r / 2 + y) (fr_w r / 2) ((tw + 1) / 2) ((th + 1) / 2) (linesize 1%nat)). nia.
    + pose proof (row_inside (fr_x r / 2) (fr_y r / 2 + y) (fr_w r / 2) ((tw + 1) / 2) ((th + 1) / 2) (linesize 2%nat)). nia.
Qed.

(** * The encoder over a sequence of calls *)

Inductive EncoderCall :=
  | CallInit (lib : Library) (p : VideoEncoderParams)
  | CallEncode (srcW srcH srcStride : Z) (io : EncodeIo)
  | CallRequestKeyframe
  | CallSetBitrate (kbps : Z)
  | CallApplyBitrate (lib : Library).

Definition encoderStep (img : ImageLayout) (c : EncoderCall) (e : VideoEncoder) : VideoEncoder :=
  match c with
  | CallInit lib p => snd (init lib p e)
  | CallEncode w h s io => er_enc (encode img w h s io [] e)
  | CallRequestKeyframe => requestKeyframe e
  | CallSetBitrate kbps => setBitrate kbps e
  | CallApplyBitrate lib => snd (applyBitrateIfDirty lib e)
  end.

Definition encoderRun (img : ImageLayout) (cs : list EncoderCall) (e : VideoEncoder) : VideoEncoder :=
  foldl (fun e c => encoderStep img c e) e cs.

(** The sizes the configuration allows. *)
Definition sizes_ok (p : VideoEncoderParams) : Prop := 0 < vp_width p <= 8192 /\ 0 < vp_height p <= 8192.

Definition call_ok (c : EncoderCall) : Prop :=
  match c with
  | CallInit _ p => sizes_ok p
  | CallEncode w h _ _ => 0 < w /\ 0 < h
  | _ => True
  end.

Section Memory.
Context (img : ImageLayout) `{!ImageLaws img}.

(** The letterbox buffer holds an image of the current fitted size. *)
Definition buffer_ok (h : Handles) : Prop :=
  match h_sws h with
  | None => True
  | Some _ => h_scaleBuffer h = true -> img_size img (h_lastFitW h) (h_lastFitH h) <= h_scaleBufSize h
  end.

Definition enc_ok (e : VideoEncoder) : Prop := sizes_ok (ve_p e) /\ buffer_ok (ve_h e).

Lemma img_size_small p srcW srcH (r := fitRect (vp_width p) (vp_height p) srcW srcH) :
  sizes_ok p -> 0 < srcW -> 0 < srcH -> 0 <= img_size img (fr_w r) (fr_h r) < 2 ^ 31.
Proof.
  intros [Hw Hh] H1 H2. destruct (fitRect_inside (vp_width p) (vp_height p) srcW srcH) as (Pw & Ph & Px & Py & Ew & Eh & _ & _ & Cx & Cy); [lia..|].
  fold r in Pw, Ph, Px, Py, Ew, Eh, Cx, Cy. destruct (img_plane_even (fr_w r) (fr_h r) Pw Ph Ew Eh) as (_ & _ & _ & ->).
  assert (0 <= fr_w r / 2 <= 4096 /\ 0 <= fr_h r / 2 <= 4096) by (Z.div_mod_to_equations; lia).
  nia.
Qed.

Lemma prepareScaler_ok srcW srcH p io h ok h' (r := fitRect (vp_width p) (vp_height p) srcW srcH) :
  sizes_ok p -> 0 < srcW -> 0 < srcH -> buffer_ok h -> prepareScaler img srcW srcH r io h = (ok, h') ->
  buffer_ok h' /\ (ok = true -> h_lastFitW h' = fr_w r /\ h_lastFitH h' = fr_h r /\ is_Some (h_sws h')).
Proof.
  intros Hs H1 H2 Hb. pose proof (img_size_small p srcW srcH Hs H1 H2) as Hsz. fold r in Hsz.
  unfold prepareScaler. rewrite i32_small by done.
  destruct (match h_sws h with Some _ => _ | None => false end) eqn:Er.
  - intros [= <- <-]. split; [done|]. intros _. destruct (h_sws h) eqn:Es; [|done].
    apply andb_true_iff in Er as [->%Z.eqb_eq ->%Z.eqb_eq]. by eauto.
  - destruct (ei_getContext io).
    + intros [= <- <-]. split; [|by eauto]. unfold buffer_ok. cbn. intros _.
      destruct (Z.ltb_spec (h_scaleBufSize h) (img_size img (fr_w r) (fr_h r))); lia.
    + intros [= <- <-]. by split.
Qed.

Lemma encode_keeps srcW srcH stride io out e res :
  encode img srcW srcH stride io out e = res -> enc_ok e -> 0 < srcW -> 0 < srcH ->
  enc_ok (er_enc res) /\
  match er_draw res with
  | Some d =>
      let r := fitRect (vp_width (ve_p e)) (vp_height (ve_p e)) srcW srcH in
      dr_rect d = r /\ img_size img (fr_w r) (fr_h r) <= h_scaleBufSize (ve_h (er_enc res))
  | None => True
  end.
Proof.
  intros <- [Hs Hb] H1 H2. unfold encode. destruct (negb _ || negb _); [done|].
  destruct (prepareScaler _ _ _ _ _ _) as [ok h'] eqn:Ep.
  destruct (prepareScaler_ok _ _ _ _ _ _ _ Hs H1 H2 Hb Ep) as [Hb' Hok]. cbv zeta.
  destruct ok; [|done]. destruct Hok as (HW & HH & [sw Hsw]); [done|].
  cbn [negb setHandles ve_h]. destruct (h_scaleBuffer h') eqn:Ebuf; [|done].
  destruct (ei_writable io); [|done]. cbn [negb]. rewrite Hsw.
  assert (Hsize : img_size img (h_lastFitW h') (h_lastFitH h') <= h_scaleBufSize h').
  { unfold buffer_ok in Hb'. rewrite Hsw in Hb'. by apply Hb'. }
  rewrite HW, HH in Hsize.
  destruct (ei_send io); [|done]. destruct (ei_drained io); done.
Qed.

Lemma openEncoder_keeps lib name e ok err e' :
  openEncoder lib name e = (ok, err, e') -> h_sws (ve_h e) = None -> ve_p e' = ve_p e /\ h_sws (ve_h e') = None.
Proof. unfold openEncoder. intros H Hn. by destruct (lib _ _); injection H as <- <- <-. Qed.

Lemma tryCandidates_keeps lib names : forall lastErr e ok err e',
  tryCandidates lib names lastErr e = (ok, err, e') -> h_sws (ve_h e) = None ->
  ve_p e' = ve_p e /\ h_sws (ve_h e') = None.
Proof.
  induction names as [|name names IH]; intros lastErr e ok err e' H Hn; cbn [tryCandidates] in H.
  - by injection H as <- <- <-.
  - destruct (openEncoder lib name e) as [[o er] e1] eqn:Eo. destruct (openEncoder_keeps _ _ _ _ _ _ Eo Hn) as [Hp Hn1].
    destruct o; [by injection H as <- <- <-|]. rewrite <- Hp. by eapply IH.
Qed.

Lemma init_keeps lib p e ok err e' : init lib p e = (ok, err, e') -> ve_p e' = p /\ h_sws (ve_h e') = None.
Proof. unfold init. cbv zeta. intros H. by apply tryCandidates_keeps in H. Qed.

Lemma encoderStep_keeps c e : enc_ok e -> call_ok c -> enc_ok (encoderStep img c e).
Proof.
  intros He Hc. destruct c as [lib p|w h s io| |kbps|lib]; cbn [encoderStep call_ok] in *.
  - destruct (init lib p e) as [[ok err] e'] eqn:Ei. apply init_keeps in Ei as [Hp Hn]. cbn [snd].
    split; [by rewrite Hp|]. unfold buffer_ok. by rewrite Hn.
  - destruct Hc. by destruct (encode_keeps w h s io [] e _ eq_refl He).
  - done.
  - unfold setBitrate. cbv zeta. destruct (clampKbps kbps =? _); [done|]. by destruct He.
  - unfold applyBitrateIfDirty. destruct (negb _ || negb _); [done|].
    destruct (init lib (ve_p e) e) as [[ok err] e'] eqn:Ei. apply init_keeps in Ei as [Hp Hn].
    destruct ok; cbn [snd]; (split; [cbn; rewrite Hp; apply He|unfold buffer_ok; cbn; by rewrite Hn]).
Qed.

Lemma encoderRun_keeps cs e : enc_ok e -> Forall call_ok cs -> enc_ok (encoderRun img cs e).
Proof.
  intros He Hc. induction Hc as [|c cs Hc _ IH] in e, He |- *; [done|]. cbn. by apply IH, encoderStep_keeps.
Qed.

End Memory.

Lemma newEncoder_ok img : enc_ok img newEncoder.
Proof. by split. Qed.

(** C23: whatever calls an encoder has gone through, with targets of up to 8192 x 8192 pixels (the sizes that the
    configuration admits) and sources of any positive size, the rows that [encode] clears and copies lie inside the
    planes of the frame, provided its lines hold the target's width, and inside the letterbox buffer as it was
    allocated. Larger targets are not covered: their size products do not fit an [int]. *)
Theorem encoder_stays_in_its_buffers img linesize cs srcW srcH stride io `{!ImageLaws img} :
  Forall call_ok cs -> 0 < srcW -> 0 < srcH ->
  let e := encoderRun img cs newEncoder in
  let res := encode img srcW srcH stride io [] e in
  wideEnough linesize (vp_width (ve_p e)) ->
  match er_draw res with
  | None => True
  | Some d =>
      Forall (fillInside linesize (vp_height (ve_p e))) (fills linesize (vp_width (ve_p e)) (vp_height (ve_p e))) /\
      Forall (copyInside linesize (vp_height (ve_p e)) (h_scaleBufSize (ve_h (er_enc res)))) (blits img linesize (dr_rect d))
  end.
Proof.
  intros Hc H1 H2 e res Hl. pose proof (encoderRun_keeps img cs newEncoder (newEncoder_ok img) Hc) as He. fold e in He.
  destruct (encode_keeps img srcW srcH stride io [] e res eq_refl He H1 H2) as [_ Hd].
  destruct (er_draw res) as [d|]; [|done]. destruct Hd as [-> Hsz]. destruct He as [[Hw Hh] _].
  split; [apply fills_inside; [lia..|done]|]. eapply List.Forall_impl; [|apply (blits_inside img linesize _ _ srcW srcH); [lia..|done]].
  intros c (? & ? & ? & ? & ?). repeat split; try done. lia.
Qed.

Definition sampleIo : EncodeIo := mkEio true true true true [([1; 2; 3], 0, true)] true dzero.

Definition openAll : Library := fun _ _ => OpOpened.

Lemma encoder_stays_in_its_buffers_witness :
  let e := encoderRun tightYuv420 [CallInit openAll (mkVep H264 8 6 60 8000 120 [])] newEncoder in
  let res := encode tightYuv420 10 4 40 sampleIo [] e in
  er_draw res = Some (mkDrawing (mkSws 10 4 8 4) 10 4 40 (mkFit 8 4 0 0) 0 true) /\
  Forall (copyInside (fun p => match p with O => 32 | _ => 16 end) 6 48)
    (blits tightYuv420 (fun p => match p with O => 32 | _ => 16 end) (mkFit 8 4 0 0)).
Proof.
  intros e res. split; [reflexivity|].
  pose proof (encoder_stays_in_its_buffers tightYuv420 (fun p => match p with O => 32 | _ => 16 end)
                [CallInit openAll (mkVep H264 8 6 60 8000 120 [])] 10 4 40 sampleIo) as H.
  refine (proj2 (H _ _ _ _)).
  - apply List.Forall_cons; [unfold call_ok, sizes_ok; cbn; lia|apply List.Forall_nil].
  - lia.
  - lia.
  - split; [|split]; apply Z.leb_le; vm_compute; reflexivity.
Defined.

(** * Selection *)

(** The encoder opened is the first usable one in the order: the preferred one, then the hardware encoders, then
    the software one. When none opens, the encoder is left closed, and the error is that of the last. *)
Definition usable (lib : Library) (p : VideoEncoderParams) (name : bytes) : Prop := lib name (codecSettings name p) = OpOpened.

Lemma openEncoder_spec lib name e :
  h_ctx (ve_h e) = false ->
  (usable lib (ve_p e) name -> exists e', openEncoder lib name e = (true, [], e') /\ ve_p e' = ve_p e /\
     h_ctx (ve_h e') = true /\ h_frame (ve_h e') = true /\ ve_keyframeRequested e' = ve_keyframeRequested e /\
     ve_frameCounter e' = ve_frameCounter e) /\
  (~ usable lib (ve_p e) name -> exists e', openEncoder lib name e =
     (false, openError name (lib name (codecSettings name (ve_p e))), e') /\ ve_p e' = ve_p e /\ h_ctx (ve_h e') = false /\
     ve_keyframeRequested e' = ve_keyframeRequested e /\ ve_frameCounter e' = ve_frameCounter e).
Proof.
  intros Hc. unfold openEncoder, usable. split.
  - intros ->. eexists. split; [done|]. by cbn.
  - destruct (lib _ _) eqn:El; try done; intros _; eexists; (split; [done|]); by cbn.
Qed.

Lemma tryCandidates_spec lib p names : forall lastErr e,
  ve_p e = p -> h_ctx (ve_h e) = false ->
  match tryCandidates lib names lastErr e with
  | (true, _, e') =>
      exists pre n post, names = pre ++ n :: post /\ Forall (fun c => ~ usable lib p c) pre /\ usable lib p n /\
        ve_encoderName e' = n /\ h_ctx (ve_h e') = true /\ h_frame (ve_h e') = true /\ ve_p e' = p /\
        ve_keyframeRequested e' = ve_keyframeRequested e /\ ve_frameCounter e' = ve_frameCounter e
  | (false, err, e') =>
      Forall (fun c => ~ usable lib p c) names /\ h_ctx (ve_h e') = false /\
      err = str "no usable encoder (" ++ foldl (fun _ n => openError n (lib n (codecSettings n p))) lastErr names ++ str ")"
  end.
Proof.
  induction names as [|n names IH]; intros lastErr e Hp Hc; cbn [tryCandidates foldl].
  - split; [apply List.Forall_nil|by split].
  - destruct (openEncoder_spec lib n e Hc) as [Hu Hn]. rewrite Hp in Hu, Hn.
    assert (Hdec : usable lib p n \/ ~ usable lib p n) by (unfold usable; destruct (lib _ _); auto).
    destruct Hdec as [Hy|Hno].
    + destruct (Hu Hy) as (e' & -> & H1 & H2 & H3 & H4 & H5). exists [], n, names. by cbn.
    + destruct (Hn Hno) as (e' & -> & H1 & H2 & H4 & H5). specialize (IH (openError n (lib n (codecSettings n p))) e' H1 H2).
      destruct (tryCandidates lib names _ e') as [[[] err] e2].
      * destruct IH as (pre & m & post & -> & Hpre & Hm & I1 & I2 & I3 & I4 & I5 & I6).
        exists (n :: pre), m, post. split; [done|]. split; [by apply List.Forall_cons|]. rewrite <- H4, <- H5. done.
      * destruct IH as (Hall & I2 & ->). split; [by apply List.Forall_cons|done].
Qed.

(** [init] opens the first usable encoder of its list (the preferred one, then NVENC, AMF and QSV, then the
    software encoder), ready to encode with a keyframe first; it fails only when none of the list is usable, and then
    the encoder is closed. *)
Theorem init_opens_first_usable lib p e :
  match init lib p e with
  | (true, _, e') =>
      exists pre n post, candidatesOf p = pre ++ n :: post /\ Forall (fun c => ~ usable lib p c) pre /\ usable lib p n /\
        ve_encoderName e' = n /\ ve_p e' = p /\ h_ctx (ve_h e') = true /\ h_frame (ve_h e') = true /\
        ve_keyframeRequested e' = true /\ ve_frameCounter e' = 0
  | (false, _, e') => Forall (fun c => ~ usable lib p c) (candidatesOf p) /\ h_ctx (ve_h e') = false
  end.
Proof.
  unfold init. cbv zeta.
  pose proof (tryCandidates_spec lib p (candidatesOf p) [] (mkEnc p (ve_h (close e)) noStats (ve_bitrateDirty (close e))
                (ve_encoderName (close e)) 0 true) eq_refl eq_refl) as H.
  destruct (tryCandidates _ _ _ _) as [[[] err] e'].
  - destruct H as (pre & n & post & H1 & H2 & H3 & H4 & H5 & H6 & H7 & H8 & H9). exists pre, n, post. done.
  - by destruct H as (H1 & H2 & _).
Qed.

(** No candidate is tried twice. *)
Lemma candidates_distinct p : NoDup (candidatesOf p).
Proof.
  assert (Hb : NoDup (encoderCandidates (vp_codec p))).
  { unfold encoderCandidates. repeat case_match; by_decision. }
  unfold candidatesOf. apply list.NoDup_app. split_and!.
  - destruct (vp_preferredEncoder p); [apply NoDup_nil_2|apply NoDup_singleton].
  - intros x Hx Hf. apply list_elem_of_In, List.filter_In in Hf as [_ Hf].
    destruct (vp_preferredEncoder p) as [|b n] eqn:En; [by apply not_elem_of_nil in Hx|].
    apply list_elem_of_singleton in Hx. subst x. by rewrite bool_decide_eq_true_2 in Hf.
  - apply NoDup_ListNoDup, List.NoDup_filter, NoDup_ListNoDup, Hb.
Qed.

(** * What the letterboxing misses *)

(** The scaler is kept as long as the fitted size is the same, whatever the source has become: a source of the same
    proportions but another size is read with the rows and columns of the old one. *)
Theorem resized_source_keeps_old_scaler :
  let e := encoderRun tightYuv420 [CallInit openAll defaultParams; CallEncode 1920 1080 7680 sampleIo] newEncoder in
  exists d, er_draw (encode tightYuv420 1280 720 5120 sampleIo [] e) = Some d /\
    dr_sws d = mkSws 1920 1080 1920 1080 /\ dr_srcW d = 1280 /\ dr_srcH d = 720.
Proof. eexists. split; [vm_compute; reflexivity|]. by split. Qed.

(** The lower bound of one pixel is undone by the rounding: a very flat source gives a rectangle of no height. *)
Theorem flat_source_has_no_height : fitRect 1920 1080 4000 1 = mkFit 1920 0 0 540.
Proof. by vm_compute. Qed.

(** The rate-control buffer holds a frame and a half and does not overflow within the documented bounds. *)
Lemma rc_buffer_in_range name p :
  2000 <= vp_bitrateKbps p <= 50000 -> 1 <= vp_fps p <= 1000 ->
  0 <= cs_rcBufferSize (codecSettings name p) /\
  2 * vp_fps p * cs_rcBufferSize (codecSettings name p) <= 3 * cs_bitRate (codecSettings name p).
Proof.
  intros Hb Hf. cbn [cs_rcBufferSize cs_bitRate codecSettings]. set (b := vp_bitrateKbps p * 1000).
  assert (Hb' : 2000000 <= b <= 50000000) by lia.
  assert (Hq : 0 <= Z.quot b (vp_fps p) /\ Z.quot b (vp_fps p) * vp_fps p <= b).
  { rewrite Z.quot_div_nonneg by lia. split; [apply Z.div_pos; lia|]. Z.div_mod_to_equations. nia. }
  assert (Z.quot b (vp_fps p) <= b) by nia.
  rewrite (Z.quot_div_nonneg _ 2) by lia.
  assert (0 <= Z.quot b (vp_fps p) * 3 / 2 /\ 2 * (Z.quot b (vp_fps p) * 3 / 2) <= Z.quot b (vp_fps p) * 3)
    by (Z.div_mod_to_equations; lia).
  rewrite i32_small by lia. nia.
Qed.
