(* ===== verification/VideoDecoder.v ===== *)
(** decoding/VideoDecoder.h and VideoDecoder.cpp: packets to BGRA frames.

    The codec context is FFmpeg's: the class [AvDecoder], with the documented
    behaviour of an empty packet as [AvDecoderLaws]. The results of the scaler's
    allocation are an argument. *)

From S2P Require Import Prelude Types Double.

Open Scope Z_scope.

(** * The codec context *)

Record AvFrame := mkAvf { avf_width : Z; avf_height : Z; avf_format : Z; avf_pts : Z; avf_key : bool }.

(** [avcodec_send_packet] with a packet or the empty one, and the frames of
    successive [avcodec_receive_frame] calls, up to the first without a frame,
    which is the end of the frames or an error. *)
Class AvDecoder (C : Type) := {
  av_send : option (bytes * Z * bool) -> C -> bool * C;
  av_receive : C -> list AvFrame * bool * C }.

(** An empty packet starts draining; from then on, until the context is flushed,
    every packet is refused. *)
Class AvDecoderLaws (C : Type) `{AvDecoder C} := {
  draining : C -> Prop;
  av_send_empty c : draining (snd (av_send None c));
  av_send_draining p c : draining c -> fst (av_send p c) = false /\ draining (snd (av_send p c));
  av_receive_draining c : draining c -> draining (snd (av_receive c)) }.

(** * Data *)

(** A tightly packed frame, by the size of its memory. *)
Record DecodedFrame := mkDf { df_bgraSize : Z; df_width : Z; df_height : Z; df_ptsUs : Z; df_keyframe : bool }.

Section Decoder.
Context {C : Type} `{AvDecoder C}.

Record Scaler := mkScaler { sl_width : Z; sl_height : Z; sl_format : Z }.

Record VideoDecoder := mkVd {
  vd_ctx : option C; vd_sws : option Scaler; vd_codec : VideoCodec; vd_width : Z; vd_height : Z; vd_last : Scaler;
  vd_decoderName : bytes; vd_framesDecoded : Z; vd_bytesDecoded : Z; vd_lastMs : double; vd_avgMs : double }.

Definition newDecoder : VideoDecoder := mkVd None None H264 0 0 (mkScaler 0 0 (-1)) [] 0 0 dzero dzero.

Definition close (d : VideoDecoder) : VideoDecoder :=
  mkVd None None (vd_codec d) 0 0 (vd_last d) (vd_decoderName d) (vd_framesDecoded d) (vd_bytesDecoded d) (vd_lastMs d) (vd_avgMs d).

(** The codec identifier asked for. *)
Inductive CodecId := IdHevc | IdAv1 | IdH264.
Definition codecId (c : VideoCodec) : CodecId := if c =? Hevc then IdHevc else if c =? Av1 then IdAv1 else IdH264.

Definition supportedCodecs (found : CodecId -> bool) : list VideoCodec :=
  List.filter (fun c => found (codecId c)) [H264; Hevc; Av1].

Inductive OpenOutcome := DoNotFound | DoNoContext | DoOpenFailed | DoNoMemory | DoOpened (name : bytes) (ctx : C).

Definition init (lib : CodecId -> OpenOutcome) (codec : VideoCodec) (d : VideoDecoder) : bool * bytes * VideoDecoder :=
  let d := close d in
  let d := mkVd None None codec 0 0 (vd_last d) (vd_decoderName d) (vd_framesDecoded d) (vd_bytesDecoded d) (vd_lastMs d) (vd_avgMs d) in
  match lib (codecId codec) with
  | DoNotFound => (false, str "decoder not found in this FFmpeg build", d)
  | DoNoContext => (false, str "avcodec_alloc_context3 failed", d)
  | DoOpenFailed => (false, str "avcodec_open2(decoder) failed", d)
  | DoNoMemory => (false, str "alloc failed", d)
  | DoOpened name ctx =>
      (true, [], mkVd (Some ctx) None codec 0 0 (vd_last d) name (vd_framesDecoded d) (vd_bytesDecoded d) (vd_lastMs d) (vd_avgMs d))
  end.

Definition reset (lib : CodecId -> OpenOutcome) (d : VideoDecoder) : VideoDecoder := snd (init lib (vd_codec d) d).

(** * Decoding *)

Definition setScaler (s : option Scaler) (w h : Z) (l : Scaler) (d : VideoDecoder) : VideoDecoder :=
  mkVd (vd_ctx d) s (vd_codec d) w h l (vd_decoderName d) (vd_framesDecoded d) (vd_bytesDecoded d) (vd_lastMs d) (vd_avgMs d).

Definition setCtx (c : C) (d : VideoDecoder) : VideoDecoder :=
  mkVd (Some c) (vd_sws d) (vd_codec d) (vd_width d) (vd_height d) (vd_last d) (vd_decoderName d) (vd_framesDecoded d)
    (vd_bytesDecoded d) (vd_lastMs d) (vd_avgMs d).

Definition countFrame (d : VideoDecoder) : VideoDecoder :=
  mkVd (vd_ctx d) (vd_sws d) (vd_codec d) (vd_width d) (vd_height d) (vd_last d) (vd_decoderName d) (u64 (vd_framesDecoded d + 1))
    (vd_bytesDecoded d) (vd_lastMs d) (vd_avgMs d).

Definition countBytes (n : Z) (d : VideoDecoder) : VideoDecoder :=
  mkVd (vd_ctx d) (vd_sws d) (vd_codec d) (vd_width d) (vd_height d) (vd_last d) (vd_decoderName d) (vd_framesDecoded d)
    (u64 (vd_bytesDecoded d + n)) (vd_lastMs d) (vd_avgMs d).

Definition recordTime (ms : double) (d : VideoDecoder) : VideoDecoder :=
  mkVd (vd_ctx d) (vd_sws d) (vd_codec d) (vd_width d) (vd_height d) (vd_last d) (vd_decoderName d) (vd_framesDecoded d)
    (vd_bytesDecoded d) ms (if deqb (vd_avgMs d) dzero then ms else dadd (dmul (vd_avgMs d) d0_9) (dmul ms d0_1)).

(** The scaler for a frame is made again when the source changes. [scaler] tells
    whether it can be made. *)
Definition emitFrame (scaler : Scaler -> bool) (f : AvFrame) (d : VideoDecoder) : option DecodedFrame * VideoDecoder :=
  let d := setScaler (vd_sws d) (avf_width f) (avf_height f) (vd_last d) d in
  if (vd_width d <=? 0) || (vd_height d <=? 0) then (None, d)
  else
    let want := mkScaler (vd_width d) (vd_height d) (avf_format f) in
    let stale := match vd_sws d with
                 | None => true
                 | Some _ => negb ((sl_width (vd_last d) =? vd_width d) && (sl_height (vd_last d) =? vd_height d) &&
                                   (sl_format (vd_last d) =? avf_format f))
                 end in
    let d := if stale then setScaler (if scaler want then Some want else None) (vd_width d) (vd_height d) want d else d in
    if stale && negb (scaler want) then (None, d)
    else
      (Some (mkDf (vd_width d * vd_height d * 4) (vd_width d) (vd_height d)
               (if 0 <=? avf_pts f then u64 (avf_pts f) else 0) (avf_key f)), countFrame d).

Fixpoint emitFrames (scaler : Scaler -> bool) (fs : list AvFrame) (d : VideoDecoder) : bool * list DecodedFrame * VideoDecoder :=
  match fs with
  | [] => (true, [], d)
  | f :: fs =>
      let '(o, d) := emitFrame scaler f d in
      let '(ok, out, d) := emitFrames scaler fs d in
      (match o with Some _ => ok | None => false end, match o with Some x => x :: out | None => out end, d)
  end.

(** [decode]: the frames it appends. *)
Definition decode (scaler : Scaler -> bool) (data : bytes) (ptsUs : Z) (keyframe : bool) (ms : double) (d : VideoDecoder)
    : bool * bytes * list DecodedFrame * VideoDecoder :=
  match vd_ctx d with
  | None => (false, str "decoder not initialized", [], d)
  | Some c =>
      let '(ok, c) := av_send (Some (data, i64 ptsUs, keyframe)) c in
      if negb ok then
        let '(_, c) := av_send None c in (false, str "avcodec_send_packet rejected packet", [], setCtx c d)
      else
        let d := countBytes (zlen data) (setCtx c d) in
        let '(frames, drained, c) := av_receive c in
        let '(emitted, out, d) := emitFrames scaler frames (setCtx c d) in
        (emitted && drained, (if drained then [] else str "avcodec_receive_frame failed"), out, recordTime ms d)
  end.

Definition flush (scaler : Scaler -> bool) (d : VideoDecoder) : bool * list DecodedFrame * VideoDecoder :=
  match vd_ctx d with
  | None => (false, [], d)
  | Some c =>
      let '(_, c) := av_send None c in
      let '(frames, _, c) := av_receive c in
      let '(_, out, d) := emitFrames scaler frames (setCtx c d) in (true, out, d)
  end.

End Decoder.
Arguments VideoDecoder C : clear implicits.
Arguments OpenOutcome C : clear implicits.

(** * The scaler fits the frame *)

Section Spec.
Context {C : Type} `{AvDecoder C}.
Implicit Types d : VideoDecoder C.

(** The scaler is the one that was last made. *)
Definition scaler_ok d : Prop := match vd_sws d with Some s => s = vd_last d | None => True end.

Lemma emitFrame_scaler scaler f d o d' :
  emitFrame scaler f d = (o, d') -> scaler_ok d ->
  scaler_ok d' /\ vd_ctx d' = vd_ctx d /\
  match o with
  | Some x => vd_sws d' = Some (mkScaler (avf_width f) (avf_height f) (avf_format f)) /\
      df_width x = avf_width f /\ df_height x = avf_height f /\ 0 < df_width x /\ 0 < df_height x /\
      df_bgraSize x = df_width x * df_height x * 4
  | None => True
  end.
Proof.
  unfold emitFrame, scaler_ok. intros He Hok. revert He. cbn [vd_width vd_height vd_sws vd_last setScaler].
  destruct (Z.leb_spec (avf_width f) 0), (Z.leb_spec (avf_height f) 0); cbn [orb]; try by intros [= <- <-].
  destruct (vd_sws d) as [s|] eqn:Es.
  - destruct (negb _) eqn:Hn.
    + cbn [andb]. destruct (scaler _) eqn:Esc; cbn [negb]; intros [= <- <-]; cbn; by split_and!.
    + cbn [andb]. intros [= <- <-]. cbn. apply negb_false_iff, andb_true_iff in Hn as [[E1%Z.eqb_eq E2%Z.eqb_eq]%andb_true_iff E3%Z.eqb_eq].
      split_and!; try done. f_equal. rewrite Hok. destruct (vd_last d); cbn in *. congruence.
  - cbn [andb]. destruct (scaler _) eqn:Esc; cbn [negb]; intros [= <- <-]; cbn; by split_and!.
Qed.

(** Frames are scaled by a scaler of their own size and format, into memory of exactly their size: in contrast to the
    encoder, a change of size is seen. *)
Theorem frames_scaled_as_they_are scaler fs d ok out d' :
  emitFrames scaler fs d = (ok, out, d') -> scaler_ok d ->
  scaler_ok d' /\ vd_ctx d' = vd_ctx d /\
  Forall (fun x => 0 < df_width x /\ 0 < df_height x /\ df_bgraSize x = df_width x * df_height x * 4) out /\
  (ok = true -> (fun x => (df_width x, df_height x)) <$> out = (fun f => (avf_width f, avf_height f)) <$> fs).
Proof.
  revert d ok out d'. induction fs as [|f fs IH]; intros d ok out d' He Hok; cbn [emitFrames] in He.
  - injection He as <- <- <-. by split_and!.
  - destruct (emitFrame scaler f d) as [o d1] eqn:E1. destruct (emitFrame_scaler _ _ _ _ _ E1 Hok) as (Hok1 & Hc1 & Ho).
    destruct (emitFrames scaler fs d1) as [[ok2 out2] d2] eqn:E2. destruct (IH _ _ _ _ E2 Hok1) as (Hok2 & Hc2 & Hall & Heq).
    injection He as <- <- <-. destruct o as [x|]; split_and!; try congruence; try done.
    + apply List.Forall_cons; [|done]. by destruct Ho as (_ & -> & -> & ? & ? & ->).
    + intros Hok'. rewrite !fmap_cons, (Heq Hok'). by destruct Ho as (_ & -> & -> & _).
Qed.

(** * A rejected packet *)

Context {laws : AvDecoderLaws C}.

(** The decoder sends an empty packet when one is rejected, which does not reset the codec but ends its stream: from
    then on every packet is refused, keyframes included, until [reset], which nothing calls. *)
Theorem rejected_packet_ends_decoding scaler data ptsUs key ms d c :
  vd_ctx d = Some c -> fst (av_send (Some (data, i64 ptsUs, key)) c) = false ->
  exists d', decode scaler data ptsUs key ms d = (false, str "avcodec_send_packet rejected packet", [], d') /\
    forall packets, 
      let run := foldl (fun r p => let '(outs, d) := r in
                   let '(ok, _, out, d) := decode scaler (fst (fst p)) (snd (fst p)) (snd p) ms d in (outs ++ out, d)) ([], d') packets in
      fst run = [].
Proof.
  intros Hc Hs. unfold decode at 1. rewrite Hc. destruct (av_send (Some (data, i64 ptsUs, key)) c) as [ok c1].
  cbn [fst] in Hs. subst ok. cbn [negb]. pose proof (av_send_empty c1) as Hd. destruct (av_send None c1) as [b c2]. cbn [snd] in Hd.
  eexists. split; [done|]. intros packets.
  assert (Hgen : forall packets d1 c3, vd_ctx d1 = Some c3 -> draining c3 ->
     fst (foldl (fun r (p : bytes * Z * bool) => let '(outs, d) := r in
            let '(ok, _, out, d) := decode scaler (fst (fst p)) (snd (fst p)) (snd p) ms d in (outs ++ out, d)) ([], d1) packets) = []).
  { clear. intros packets. induction packets as [|[[dt pt] k] packets IH]; intros d1 c3 Hc Hdr; [done|]. cbn [foldl fst snd].
    unfold decode at 2. rewrite Hc. destruct (av_send_draining (Some (dt, i64 pt, k)) c3 Hdr) as [Hf Hd2].
    destruct (av_send (Some (dt, i64 pt, k)) c3) as [ok c4]. cbn [fst snd] in Hf, Hd2. subst ok. cbn [negb].
    pose proof (av_send_empty c4) as Hd3. destruct (av_send None c4) as [b c5]. cbn [snd] in Hd3. cbn [app]. by apply (IH _ c5). }
  by apply (Hgen packets _ c2).
Qed.

End Spec.

(** * A decoder *)

(** A context that counts the packets it took; it refuses an empty one-byte packet. *)
Record ToyDecoder := mkTd { td_draining : bool; td_frames : list AvFrame }.

#[export] Instance toyDecoder : AvDecoder ToyDecoder := {
  av_send p c :=
    match p with
    | None => (negb (td_draining c), mkTd true [])
    | Some (data, pts, key) =>
        if td_draining c || (length data =? 0)%nat then (false, c)
        else (true, mkTd false [mkAvf (zlen data) 2 0 pts key])
    end;
  av_receive c := (td_frames c, true, mkTd (td_draining c) []) }.

#[export] Instance toyDecoder_laws : AvDecoderLaws ToyDecoder.
Proof.
  refine {| draining c := td_draining c = true |}; try done.
  intros [[[dt pts] k]|] c Hd; cbn; [|by rewrite Hd]. by rewrite Hd.
Defined.

Definition sampleDecoder : VideoDecoder ToyDecoder := mkVd (Some (mkTd false [])) None H264 0 0 (mkScaler 0 0 (-1)) [] 0 0 dzero dzero.

Lemma rejected_packet_ends_decoding_witness :
  exists d', decode (fun _ => true) [] 5 true dzero sampleDecoder = (false, str "avcodec_send_packet rejected packet", [], d').
Proof.
  assert (Hs : fst (av_send (Some ([], i64 5, true)) (mkTd false [])) = false) by (vm_compute; reflexivity).
  destruct (rejected_packet_ends_decoding (fun _ => true) [] 5 true dzero sampleDecoder (mkTd false []) eq_refl Hs) as (d' & H1 & _).
  exists d'. exact H1.
Defined.
