(* ===== verification/AudioCodec.v ===== *)
(** encoding/AudioCodec.h and AudioCodec.cpp: the Opus encoder and decoder.

    FFmpeg is not part of the source. Its byte queue is the class [AvFifo] with the
    documented behaviour as [AvFifoLaws]; what its codec calls return is an
    argument of the operation ([FrameIo]). *)

From S2P Require Import Prelude Double.

Open Scope Z_scope.

(** * The queue *)

(** [av_fifo_alloc2(elems, 1, 0)], [av_fifo_can_read], [av_fifo_write] and
    [av_fifo_read] on elements of one byte. *)
Class AvFifo (F : Type) := {
  fifo_alloc : Z -> F;
  fifo_can_read : F -> Z;
  fifo_write : bytes -> F -> option F;
  fifo_read : nat -> F -> bytes * F }.

(** Without AV_FIFO_FLAG_AUTO_GROW a queue keeps its size, and a write that does
    not fit fails. *)
Class AvFifoLaws (F : Type) `{AvFifo F} := {
  fifo_contents : F -> bytes;
  fifo_size : F -> Z;
  fifo_alloc_contents n : fifo_contents (fifo_alloc n) = [];
  fifo_alloc_size n : fifo_size (fifo_alloc n) = n;
  fifo_can_read_length f : fifo_can_read f = zlen (fifo_contents f);
  fifo_write_full bs f : fifo_size f < zlen (fifo_contents f) + zlen bs -> fifo_write bs f = None;
  fifo_write_fits bs f : zlen (fifo_contents f) + zlen bs <= fifo_size f ->
    exists f', fifo_write bs f = Some f' /\ fifo_contents f' = fifo_contents f ++ bs /\ fifo_size f' = fifo_size f;
  fifo_read_front n f : (n <= length (fifo_contents f))%nat ->
    fst (fifo_read n f) = take n (fifo_contents f) /\
    fifo_contents (snd (fifo_read n f)) = drop n (fifo_contents f) /\
    fifo_size (snd (fifo_read n f)) = fifo_size f }.

(** * Data *)

Record AudioPacket := mkAp { ap_data : bytes; ap_ptsUs : Z }.

Definition kOpusFrameSize : Z := 960.

Section Encoder.
Context {F : Type} `{AvFifo F}.

(** [ae_data] is the memory of the frame: [ae_nb] stereo samples of 16 bits. *)
Record AudioEncoderOpus := mkAe {
  ae_ctx : bool; ae_nb : Z; ae_data : bytes; ae_fifo : F; ae_nextPts : Z; ae_packets : Z; ae_avgEncodeMs : double }.

(** Which step of [init] fails. *)
Inductive InitOutcome := NoEncoder | NoContext | OpenFailed (message : bytes) | NoFrameBuffer | InitOk.

(** [init]: the frame size the codec chose, and its memory as allocated. *)
Definition init (o : InitOutcome) (ctxFrameSize : Z) (memory : bytes) : bytes + AudioEncoderOpus :=
  match o with
  | NoEncoder => inl (str "libopus encoder missing from this FFmpeg build")
  | NoContext => inl (str "alloc failed")
  | OpenFailed message => inl (str "avcodec_open2(opus) failed: " ++ message)
  | NoFrameBuffer => inl (str "frame alloc failed")
  | InitOk =>
      inr (mkAe true (if 0 <? ctxFrameSize then ctxFrameSize else kOpusFrameSize) memory
             (fifo_alloc (kOpusFrameSize * 2 * 2 * 4)) 0 0 dzero)
  end.

Definition bufferedFrames (e : AudioEncoderOpus) : Z := Z.quot (fifo_can_read (ae_fifo e)) (2 * 2).

(** * Encoding *)

(** The bytes of the samples in memory: little-endian 16-bit. *)
Definition sampleBytes (samples : list Z) : bytes := concat ((fun s : Z => le_put 2 s) <$> samples).

(** The results of the codec for one frame: writable, accepted, the packets, and
    whether the receiving ended without an error. *)
Record FrameIo := mkFio { fi_writable : bool; fi_send : bool; fi_packets : list (bytes * Z); fi_drained : bool }.

Definition ioFine : FrameIo := mkFio true true [] true.

Inductive EncodeOutcome :=
  | EncodeOk (packets : list AudioPacket) (frames : list (Z * bytes)) (e : AudioEncoderOpus)
  | EncodeError (message : bytes) (packets : list AudioPacket) (frames : list (Z * bytes)) (e : AudioEncoderOpus).

Definition toAudioPacket (p : bytes * Z) : AudioPacket := mkAp (fst p) (Z.quot (u64 (u64 (snd p) * 1000000)) 48000).

(** One iteration of the outer loop, given its codec results. The frame handed to
    the codec is its time stamp and its memory. *)
Definition encodeFrame (io : FrameIo) (e : AudioEncoderOpus) : EncodeOutcome :=
  let need := Z.to_nat (ae_nb e * 2) in
  if negb (fi_writable io) then EncodeError (str "frame not writable") [] [] e
  else
    let '(bs, fifo) := fifo_read need (ae_fifo e) in
    let data := bs ++ drop (length bs) (ae_data e) in
    let pts := ae_nextPts e in
    let e := mkAe (ae_ctx e) (ae_nb e) data fifo (pts + ae_nb e) (ae_packets e) (ae_avgEncodeMs e) in
    if negb (fi_send io) then EncodeError (str "send_frame failed") [] [] e
    else
      let e := mkAe (ae_ctx e) (ae_nb e) data fifo (ae_nextPts e) (u64 (ae_packets e + zlen (fi_packets io))) (ae_avgEncodeMs e) in
      let out := toAudioPacket <$> fi_packets io in
      if fi_drained io then EncodeOk out [(pts, data)] e
      else EncodeError (str "receive_packet failed") out [(pts, data)] e.

(** The outer loop; each iteration takes [need] bytes from the queue. *)
Fixpoint encodeLoop (fuel : nat) (ios : list FrameIo) (e : AudioEncoderOpus) : EncodeOutcome :=
  match fuel with
  | O => EncodeOk [] [] e
  | S fuel =>
      if fifo_can_read (ae_fifo e) <? ae_nb e * 2 then EncodeOk [] [] e
      else
        match encodeFrame (match ios with [] => ioFine | io :: _ => io end) e with
        | EncodeError m ps fs e => EncodeError m ps fs e
        | EncodeOk ps fs e =>
            match encodeLoop fuel (tail ios) e with
            | EncodeOk ps' fs' e => EncodeOk (ps ++ ps') (fs ++ fs') e
            | EncodeError m ps' fs' e => EncodeError m (ps ++ ps') (fs ++ fs') e
            end
        end
  end.

Definition d0_95 : double := dlit 8556839292003942 (-53).
Definition d0_05 : double := dlit 7205759403792794 (-57).

Definition average (avg dt : double) : double := if deqb avg dzero then dt else dadd (dmul avg d0_95) (dmul dt d0_05).

(** [encode(samples, frameCount, …)]: [av_fifo_write(fifo_, samples, frameCount * 2)]
    takes that many elements, which are bytes. No samples is a null pointer. *)
Definition encode (samples : option (list Z)) (frameCount : nat) (ios : list FrameIo) (ms : double)
    (e : AudioEncoderOpus) : EncodeOutcome :=
  if negb (ae_ctx e) then EncodeError (str "not initialized") [] [] e
  else
    let written :=
      match samples with
      | Some s => if (0 <? frameCount)%nat then fifo_write (take (frameCount * 2) (sampleBytes s)) (ae_fifo e) else Some (ae_fifo e)
      | None => Some (ae_fifo e)
      end in
    match written with
    | None => EncodeError (str "fifo write failed") [] [] e
    | Some f =>
        let e := mkAe (ae_ctx e) (ae_nb e) (ae_data e) f (ae_nextPts e) (ae_packets e) (ae_avgEncodeMs e) in
        match encodeLoop (Z.to_nat (fifo_can_read f)) ios e with
        | EncodeOk ps fs e =>
            EncodeOk ps fs (mkAe (ae_ctx e) (ae_nb e) (ae_data e) (ae_fifo e) (ae_nextPts e) (ae_packets e) (average (ae_avgEncodeMs e) ms))
        | r => r
        end
    end.

End Encoder.
Arguments AudioEncoderOpus F : clear implicits.
Arguments EncodeOutcome F : clear implicits.

(** * Decoding *)

Record AudioDecoderOpus := mkAd { ad_ctx : bool; ad_packets : Z; ad_avgDecodeMs : double }.

Inductive DecoderOutcome := DecNoDecoder | DecNoContext | DecOpenFailed | DecNoMemory | DecOk.

Definition decoderInit (o : DecoderOutcome) (d : AudioDecoderOpus) : bool * bytes * AudioDecoderOpus :=
  let closed := mkAd false (ad_packets d) (ad_avgDecodeMs d) in
  match o with
  | DecNoDecoder => (false, str "libopus decoder missing from this FFmpeg build", closed)
  | DecNoContext => (false, str "alloc failed", closed)
  | DecOpenFailed => (false, str "avcodec_open2(opus dec) failed", closed)
  | DecNoMemory => (false, str "alloc failed", closed)
  | DecOk => (true, [], mkAd true (ad_packets d) (ad_avgDecodeMs d))
  end.

(** A decoded frame: its channels, its number of samples per channel, its memory as
    16-bit samples. *)
Record PcmFrame := mkPcm { pf_channels : Z; pf_nbSamples : Z; pf_samples : list Z }.

Definition frameSamples (f : PcmFrame) : list Z :=
  let ch := if pf_channels f =? 0 then 2 else pf_channels f in
  take (Z.to_nat (pf_nbSamples f * ch)) (pf_samples f).

(** [decode]: whether the packet was accepted, the frames, and whether the
    receiving ended without an error. The samples are appended to [out]. *)
Definition decode (accepted : bool) (frames : list PcmFrame) (drained : bool) (ms : double) (out : list Z)
    (d : AudioDecoderOpus) : bool * bytes * list Z * AudioDecoderOpus :=
  if negb (ad_ctx d) then (false, str "not initialized", out, d)
  else if negb accepted then (false, str "send_packet rejected", out, d)
  else
    (true, (if drained then [] else str "receive_frame failed"), out ++ concat (frameSamples <$> frames),
     mkAd (ad_ctx d) (u64 (ad_packets d + 1)) (average (ad_avgDecodeMs d) ms)).

Definition reset (o : DecoderOutcome) (d : AudioDecoderOpus) : AudioDecoderOpus := snd (decoderInit o d).

(** * What reaches the codec *)

Section Spec.
Context {F : Type} `{HF : AvFifo F} {laws : AvFifoLaws F}.

(** The memory of a frame holds [ae_nb] stereo samples; half of it is read from the
    queue at a time. *)
Definition needed (e : AudioEncoderOpus F) : nat := Z.to_nat (ae_nb e * 2).

Definition encoder_ok (e : AudioEncoderOpus F) : Prop :=
  ae_ctx e = true /\ 0 < ae_nb e /\ zlen (ae_data e) = ae_nb e * 4.

(** The frames handed to the codec and the bytes left, in terms of the bytes that
    were queued; the second half of every frame is what the memory held before. *)
Definition accounts (e : AudioEncoderOpus F) (queued : bytes) (frames : list (Z * bytes)) (e' : AudioEncoderOpus F) : Prop :=
  concat ((fun f => take (needed e) (snd f)) <$> frames) ++ fifo_contents (ae_fifo e') = queued /\
  Forall (fun f : Z * bytes => length (snd f) = length (ae_data e) /\ drop (needed e) (snd f) = drop (needed e) (ae_data e)) frames /\
  drop (needed e) (ae_data e') = drop (needed e) (ae_data e) /\ length (ae_data e') = length (ae_data e) /\
  ae_nb e' = ae_nb e /\ ae_ctx e' = ae_ctx e /\ fifo_size (ae_fifo e') = fifo_size (ae_fifo e).

Lemma needed_half e : encoder_ok e -> (0 < needed e <= length (ae_data e))%nat.
Proof. intros (_ & Hn & Hd). unfold needed. lia. Qed.

Lemma encodeFrame_accounts io e ps fs e' :
  encoder_ok e -> (needed e <= length (fifo_contents (ae_fifo e)))%nat -> encodeFrame io e = EncodeOk ps fs e' ->
  accounts e (fifo_contents (ae_fifo e)) fs e' /\
  fifo_contents (ae_fifo e') = drop (needed e) (fifo_contents (ae_fifo e)) /\
  (exists data, fs = [(ae_nextPts e, data)]) /\ ae_nextPts e' = ae_nextPts e + ae_nb e.
Proof.
  intros Hok Hle. pose proof (needed_half e Hok) as [Hn1 Hn2]. unfold encodeFrame.
  destruct (fi_writable io); [|done]. cbn [negb].
  destruct (fifo_read_front (needed e) (ae_fifo e) Hle) as (R1 & R2 & R3). fold (needed e).
  destruct (fifo_read (needed e) (ae_fifo e)) as [bs f']. cbn [fst snd] in *.
  destruct (fi_send io); [|done]. cbn [negb]. destruct (fi_drained io); [|done].
  intros [= <- <- <-]. subst bs. cbn [ae_fifo ae_data ae_nb ae_ctx ae_nextPts].
  assert (Hlen : length (take (needed e) (fifo_contents (ae_fifo e))) = needed e) by (rewrite length_take; lia).
  rewrite !Hlen. split; [|split; [done|split; [by eexists|done]]].
  assert (Hd : drop (needed e) (take (needed e) (fifo_contents (ae_fifo e)) ++ drop (needed e) (ae_data e)) = drop (needed e) (ae_data e)).
  { rewrite drop_app_length' by done. done. }
  assert (Hl : length (take (needed e) (fifo_contents (ae_fifo e)) ++ drop (needed e) (ae_data e)) = length (ae_data e)).
  { rewrite length_app, length_drop, Hlen. lia. }
  unfold accounts. cbn [fmap list_fmap concat snd ae_fifo ae_data ae_nb ae_ctx]. split_and!; try done.
  - rewrite app_nil_r, take_app_length' by done. rewrite R2. apply take_drop.
  - by apply list.Forall_singleton.
Qed.

Lemma encodeLoop_accounts fuel : forall ios e ps fs e',
  encoder_ok e -> (length (fifo_contents (ae_fifo e)) <= fuel)%nat -> encodeLoop fuel ios e = EncodeOk ps fs e' ->
  accounts e (fifo_contents (ae_fifo e)) fs e' /\ (length (fifo_contents (ae_fifo e')) < needed e)%nat /\
  fst <$> fs = (fun k : nat => ae_nextPts e + Z.of_nat k * ae_nb e) <$> seq 0 (length fs).
Proof.
  induction fuel as [|fuel IH]; intros ios e ps fs e' Hok Hf.
  - cbn [encodeLoop]. intros [= <- <- <-]. pose proof (needed_half e Hok). split; [|split; [lia|done]]. unfold accounts. by cbn.
  - cbn [encodeLoop]. rewrite fifo_can_read_length. destruct (Z.ltb_spec (zlen (fifo_contents (ae_fifo e))) (ae_nb e * 2)) as [Hlt|Hge].
    + intros [= <- <- <-]. split; [unfold accounts; by cbn|]. split; [unfold needed; lia|done].
    + destruct (encodeFrame _ e) as [ps1 fs1 e1|] eqn:E1; [|done].
      destruct (encodeLoop fuel (tail ios) e1) as [ps2 fs2 e2|] eqn:E2; [|done]. intros [= <- <- <-].
      assert (Hle : (needed e <= length (fifo_contents (ae_fifo e)))%nat) by (unfold needed; lia).
      destruct (encodeFrame_accounts _ _ _ _ _ Hok Hle E1) as (A1 & Hc & (data & ->) & Hpts).
      destruct A1 as (Q1 & F1 & D1 & L1 & N1 & C1 & S1). pose proof (needed_half e Hok) as [Hn _].
      assert (Hneed : needed e1 = needed e) by (unfold needed; by rewrite N1).
      destruct (IH _ _ _ _ _ ltac:(unfold encoder_ok in *; rewrite C1, N1, L1; done) ltac:(rewrite Hc, length_drop; lia) E2)
        as ((Q2 & F2 & D2 & L2 & N2 & C2 & S2) & Hlast & Hp2).
      rewrite Hneed in *. split; [|split; [done|]].
      * unfold accounts. split_and!; try congruence.
        -- cbn [app fmap list_fmap concat] in Q1 |- *. rewrite <- Q1. rewrite <- !app_assoc. f_equal. exact Q2.
        -- apply Forall_app. split; [done|]. eapply List.Forall_impl; [|exact F2]. cbn. intros f [-> ->]. by split.
      * cbn [app fmap list_fmap length seq fst]. f_equal; [lia|]. fold (fmap (M := list) fst fs2). rewrite Hp2, Hpts, N1.
        rewrite <- seq_shift, <- list_fmap_compose. apply list_fmap_ext. intros k x _. cbn. lia.
Qed.

(** [encode] hands the codec exactly the bytes it queued, in order and without loss, one frame per [ae_nb] stereo
    samples on a gapless clock, and keeps less than a frame back. But of a block of [n] stereo samples it queues only
    the first half of the memory, and of every frame it fills only the first half: the second is the memory as
    allocated. *)
Theorem opus_input_is_half_of_the_sound samples n ios ms e ps fs e' :
  encoder_ok e -> (0 < n)%nat -> length samples = (2 * n)%nat -> encode (Some samples) n ios ms e = EncodeOk ps fs e' ->
  accounts e (fifo_contents (ae_fifo e) ++ sampleBytes (take n samples)) fs e' /\
  (length (fifo_contents (ae_fifo e')) < needed e)%nat /\
  fst <$> fs = (fun k : nat => ae_nextPts e + Z.of_nat k * ae_nb e) <$> seq 0 (length fs).
Proof.
  intros Hok Hn Hlen. unfold encode. destruct Hok as (Hctx & Hnb & Hdata). rewrite Hctx. cbn [negb].
  destruct (Nat.ltb_spec 0 n) as [_|]; [|lia].
  assert (Htake : forall k (l : list Z), take (k * 2) (sampleBytes l) = sampleBytes (take k l)).
  { induction k as [|k IH]; intros [|s l]; try done. unfold sampleBytes in *. cbn [fmap list_fmap concat take].
    rewrite <- IH. destruct (le_put_2 s) as (b0 & b1 & -> & _). done. }
  rewrite Htake.
  destruct (decide (zlen (fifo_contents (ae_fifo e)) + zlen (sampleBytes (take n samples)) <= fifo_size (ae_fifo e))) as [Hfit|Hfull].
  2:{ rewrite fifo_write_full by lia. done. }
  destruct (fifo_write_fits _ _ Hfit) as (f' & -> & Hc & Hs).
  destruct (encodeLoop _ _ _) as [ps1 fs1 e1|] eqn:El; [|done]. intros [= <- <- <-].
  apply encodeLoop_accounts in El as ((Q & Fr & D & L & N & C & S) & Hlast & Hp); [|done|].
  2:{ cbn [ae_fifo]. rewrite fifo_can_read_length. lia. }
  cbn [ae_fifo ae_data ae_nb ae_ctx ae_nextPts needed] in *.
  split; [|done]. unfold accounts, needed in *. cbn [ae_fifo ae_data ae_nb ae_ctx] in *. rewrite <- Hc. split_and!; try done; congruence.
Qed.

(** The queue does not grow: a block that does not fit is refused. *)
Theorem queue_does_not_grow samples n ios ms e :
  encoder_ok e -> (0 < n)%nat ->
  fifo_size (ae_fifo e) < zlen (fifo_contents (ae_fifo e)) + zlen (take (n * 2) (sampleBytes samples)) ->
  encode (Some samples) n ios ms e = EncodeError (str "fifo write failed") [] [] e.
Proof.
  intros (Hctx & _) Hn Hfull. unfold encode. rewrite Hctx. cbn [negb]. destruct (Nat.ltb_spec 0 n); [|lia].
  by rewrite fifo_write_full.
Qed.

(** The encoder as initialised is well formed. *)
Lemma init_ok ctxFrameSize memory (nb := if 0 <? ctxFrameSize then ctxFrameSize else kOpusFrameSize) :
  zlen memory = nb * 4 ->
  exists e : AudioEncoderOpus F, init InitOk ctxFrameSize memory = inr e /\ encoder_ok e /\ fifo_contents (ae_fifo e) = [] /\
    fifo_size (ae_fifo e) = 15360.
Proof.
  intros Hm. eexists. split; [done|]. unfold encoder_ok. cbn [ae_ctx ae_nb ae_data ae_fifo].
  rewrite fifo_alloc_contents, fifo_alloc_size. fold nb. split_and!; try done.
  subst nb. destruct (Z.ltb_spec 0 ctxFrameSize); [done|unfold kOpusFrameSize; lia].
Qed.

End Spec.

(** * A queue *)

Record ListFifo := mkLf { lf_size : Z; lf_bytes : bytes }.

#[export] Instance listFifo : AvFifo ListFifo := {
  fifo_alloc n := mkLf n [];
  fifo_can_read f := zlen (lf_bytes f);
  fifo_write bs f := if lf_size f <? zlen (lf_bytes f) + zlen bs then None else Some (mkLf (lf_size f) (lf_bytes f ++ bs));
  fifo_read n f := (take n (lf_bytes f), mkLf (lf_size f) (drop n (lf_bytes f))) }.

#[export] Instance listFifo_laws : AvFifoLaws ListFifo.
Proof.
  refine {| fifo_contents := lf_bytes; fifo_size := lf_size |}; try done.
  - intros bs f Hlt. cbn. by rewrite (proj2 (Z.ltb_lt _ _) Hlt).
  - intros bs f Hle. cbn. rewrite (proj2 (Z.ltb_ge _ _)) by lia. eexists. by split.
Defined.

Definition sampleEncoder : AudioEncoderOpus ListFifo := mkAe true 2 [9; 9; 9; 9; 9; 9; 9; 9] (fifo_alloc 64) 0 0 dzero.

Lemma opus_input_is_half_of_the_sound_witness :
  let block := [257; 258; 259; 260; 261; 262; 263; 264] in
  exists e', encode (Some block) 4 [] dzero sampleEncoder =
      EncodeOk [] [(0, [1; 1; 2; 1; 9; 9; 9; 9]); (2, [3; 1; 4; 1; 9; 9; 9; 9])] e' /\
    accounts sampleEncoder (sampleBytes [257; 258; 259; 260])
      [(0, [1; 1; 2; 1; 9; 9; 9; 9]); (2, [3; 1; 4; 1; 9; 9; 9; 9])] e'.
Proof.
  intros block. eexists. split; [vm_compute; reflexivity|].
  refine (proj1 (opus_input_is_half_of_the_sound block 4 [] dzero sampleEncoder [] _ _ _ _ _ _)).
  - unfold encoder_ok. cbn. lia.
  - lia.
  - reflexivity.
  - vm_compute. reflexivity.
Defined.
