(* ===== verification/WasapiPlayer.v ===== *)
(** audio/WasapiPlayer.h and WasapiPlayer.cpp: the playback queue and its thread.

    What the audio client returns is an argument. Starting a player is a step up to
    the end of its device initialisation, and then what [start] does. *)

From S2P Require Import Prelude Double.

Open Scope Z_scope.

(** * Data *)

(** 400 ms at 48 kHz. *)
Definition kMaxQueueFrames : Z := 48000 / 1000 * 400.

Record WasapiPlayer := mkWp {
  wp_running : bool; wp_joinable : bool; wp_client : bool; wp_render : bool; wp_bufferFrames : Z; wp_channels : Z;
  wp_isS16 : bool; wp_queue : list Z; wp_underruns : Z }.

Definition newPlayer : WasapiPlayer := mkWp false false false false 0 0 false [] 0.

(** What the device says of 16-bit stereo at 48 kHz: it takes it, it takes a close
    format (tag, bits, channels), or its own format has to be used. *)
Inductive FormatAnswer := FmtExact | FmtClosest (pcm : bool) (bits channels : Z) | FmtMix (channels : Z).

Definition chosenFormat (a : FormatAnswer) : Z * bool :=
  match a with
  | FmtExact => (2, true)
  | FmtClosest pcm bits ch => (ch, pcm && (bits =? 16))
  | FmtMix ch => (ch, false)
  end.

(** Where [initDevices] ends. *)
Inductive InitOutcome :=
  | PiNoEnumerator | PiNoDevice | PiNoClient                (** no audio client yet *)
  | PiNoFormat | PiInitializeFailed | PiNoService           (** no render client yet *)
  | PiStartFailed (bufferFrames : Z) (f : FormatAnswer)
  | PiOk (bufferFrames : Z) (f : FormatAnswer).

Definition initError (o : InitOutcome) : bytes :=
  match o with
  | PiNoEnumerator => str "CoCreateInstance(MMDeviceEnumerator) failed"
  | PiNoDevice => str "no default render device"
  | PiNoClient => str "device Activate(IAudioClient) failed"
  | PiNoFormat => str "no usable render format"
  | PiInitializeFailed => str "IAudioClient::Initialize(render) failed"
  | PiNoService => str "GetService(IAudioRenderClient) failed"
  | PiStartFailed _ _ => str "IAudioClient::Start failed"
  | PiOk _ _ => []
  end.

Definition initDevices (o : InitOutcome) (p : WasapiPlayer) : WasapiPlayer :=
  let set client render frames f p :=
    mkWp (wp_running p) (wp_joinable p) client render frames (fst f) (snd f) (wp_queue p) (wp_underruns p) in
  match o with
  | PiNoEnumerator | PiNoDevice | PiNoClient => set false false (wp_bufferFrames p) (0, false) p
  | PiNoFormat | PiInitializeFailed | PiNoService => set true false 0 (0, false) p
  | PiStartFailed n f | PiOk n f => set true true n (chosenFormat f) p
  end.

(** ** The render thread *)

(** What the client returns in one turn: the padding, and whether it gives a
    buffer. *)
Record RenderIo := mkRio { ri_padding : option Z; ri_buffer : bool }.

(** The samples put into the device's buffer; in the 32-bit float format each stands
    for its value over 32768. *)
Inductive RenderResult :=
  | RenderNothing
  | RenderWrote (samples : list Z)
  | RenderNull            (** a null client is called *)
  | RenderEnds.           (** the loop condition fails: the thread releases the device and ends *)

Definition setQueue (q : list Z) (u : Z) (p : WasapiPlayer) : WasapiPlayer :=
  mkWp (wp_running p) (wp_joinable p) (wp_client p) (wp_render p) (wp_bufferFrames p) (wp_channels p) (wp_isS16 p) q u.

(** What the thread releases after its loop: the clients and the format. *)
Definition threadEnds (p : WasapiPlayer) : WasapiPlayer :=
  mkWp (wp_running p) (wp_joinable p) false false (wp_bufferFrames p) 0 (wp_isS16 p) (wp_queue p) (wp_underruns p).

Definition renderTurn (io : RenderIo) (p : WasapiPlayer) : RenderResult * WasapiPlayer :=
  if negb (wp_running p) then (RenderEnds, threadEnds p)
  else if negb (wp_client p) then (RenderNull, p)
  else
    match ri_padding io with
    | None => (RenderNothing, p)
    | Some padding =>
        let framesToWrite := u32 (wp_bufferFrames p - padding) in
        if framesToWrite =? 0 then (RenderNothing, p)
        else if negb (wp_render p) then (RenderNull, p)
        else if negb (ri_buffer io) then (RenderNothing, p)
        else
          let need := Z.to_nat (framesToWrite * wp_channels p) in
          let n := Nat.min need (length (wp_queue p)) in
          (RenderWrote (take n (wp_queue p) ++ replicate (need - n) 0),
           setQueue (drop n (wp_queue p)) (if (n <? need)%nat then u64 (wp_underruns p + 1) else wp_underruns p) p)
    end.

(** ** Start, push, stop *)

(** How a call of [start] ends: it returns; its thread calls a null client, which
    ends the program; or it waits for a thread that is in its loop. *)
Inductive StartResult := StartReturns (ok : bool) (err : bytes) | StartCrashes | StartWaits (err : bytes) | StartTerminates.

Definition setRunning (b : bool) (p : WasapiPlayer) : WasapiPlayer :=
  mkWp b (wp_joinable p) (wp_client p) (wp_render p) (wp_bufferFrames p) (wp_channels p) (wp_isS16 p) (wp_queue p) (wp_underruns p).
Definition setJoinable (b : bool) (p : WasapiPlayer) : WasapiPlayer :=
  mkWp (wp_running p) b (wp_client p) (wp_render p) (wp_bufferFrames p) (wp_channels p) (wp_isS16 p) (wp_queue p) (wp_underruns p).

Definition start (o : InitOutcome) (io : RenderIo) (p : WasapiPlayer) : StartResult * WasapiPlayer :=
  if wp_running p then (StartReturns false [], setRunning false p)
  else if wp_joinable p then (StartTerminates, p)
  else
    let p := initDevices o (setJoinable true (setRunning true p)) in
    match initError o with
    | [] => (StartReturns true [], p)
    | err =>
        (** the thread goes on to its loop, and [start] joins it *)
        match renderTurn io p with
        | (RenderNull, p) => (StartCrashes, p)
        | (RenderEnds, p) => (StartReturns false err, setRunning false (setJoinable false p))
        | (_, p) => (StartWaits err, p)
        end
    end.

(** [queue_.erase(begin, begin + excess)]: the oldest samples go. *)
Definition push (samples : list Z) (frameCount : nat) (p : WasapiPlayer) : WasapiPlayer :=
  let q := wp_queue p ++ take (frameCount * 2) samples in
  let cap := kMaxQueueFrames * 2 in
  setQueue (if cap <? zlen q then drop (Z.to_nat (zlen q - cap)) q else q) (wp_underruns p) p.

Definition d48 : double := dofZ 48.
Definition bufferedMs (p : WasapiPlayer) : double := ddiv (dofZ (Z.quot (zlen (wp_queue p)) 2)) d48.

Definition stop (p : WasapiPlayer) : WasapiPlayer :=
  if negb (wp_running p) then p
  else setQueue [] (wp_underruns p) (setJoinable false (threadEnds (setRunning false p))).

(** ** What is played *)

Inductive PlayerOp := OpPush (samples : list Z) (frames : nat) | OpRender (io : RenderIo).

Definition playerStep (op : PlayerOp) (p : WasapiPlayer) : list Z * WasapiPlayer :=
  match op with
  | OpPush s n => ([], push s n p)
  | OpRender io => match renderTurn io p with (RenderWrote s, p) => (s, p) | (_, p) => ([], p) end
  end.

Definition pushed (op : PlayerOp) : list Z := match op with OpPush s n => take (n * 2) s | OpRender _ => [] end.

(** The samples taken off the queue by a turn. *)
Definition taken (op : PlayerOp) (p : WasapiPlayer) : list Z :=
  match op with
  | OpPush _ _ => []
  | OpRender _ => take (length (wp_queue p) - length (wp_queue (snd (playerStep op p)))) (wp_queue p)
  end.

Fixpoint playerRun (ops : list PlayerOp) (p : WasapiPlayer) : list Z * list Z * WasapiPlayer :=
  match ops with
  | [] => ([], [], p)
  | op :: ops =>
      let '(written, p') := playerStep op p in
      let '(w, t, p'') := playerRun ops p' in (written ++ w, taken op p ++ t, p'')
  end.

Lemma renderTurn_queue io p r p' :
  renderTurn io p = (r, p') ->
  exists n, wp_queue p' = drop n (wp_queue p) /\ (n <= length (wp_queue p))%nat /\
    match r with
    | RenderWrote s => exists k, s = take n (wp_queue p) ++ replicate k 0 /\ (0 < k -> n = length (wp_queue p))%nat
    | _ => n = 0%nat
    end.
Proof.
  unfold renderTurn. intros Hr.
  assert (Hsame : (exists n, wp_queue p = drop n (wp_queue p) /\ (n <= length (wp_queue p))%nat /\ n = 0%nat)).
  { exists 0%nat. split_and!; try done. lia. }
  destruct (negb (wp_running p)); [by injection Hr as <- <-|]. destruct (negb (wp_client p)); [by injection Hr as <- <-|].
  destruct (ri_padding io) as [pad|]; [|by injection Hr as <- <-]. destruct (_ =? 0); [by injection Hr as <- <-|].
  destruct (negb (wp_render p)); [by injection Hr as <- <-|]. destruct (negb (ri_buffer io)); [by injection Hr as <- <-|].
  cbv zeta in Hr. set (need := Z.to_nat _) in Hr. injection Hr as <- <-. exists (Nat.min need (length (wp_queue p))).
  split_and!; [done|lia|]. eexists. split; [done|]. lia.
Qed.

Lemma push_bound s n p : zlen (wp_queue (push s n p)) <= kMaxQueueFrames * 2.
Proof.
  unfold push. cbn [wp_queue setQueue]. set (q := wp_queue p ++ _). assert (0 <= kMaxQueueFrames) by done.
  destruct (Z.ltb_spec (kMaxQueueFrames * 2) (zlen q)); [rewrite length_drop|]; lia.
Qed.

(** Sound is played in the order it was pushed, each sample once: what the render thread takes is the front of what
    was pushed and the rest is still queued, as long as the queue does not go over its bound; and the queue never
    holds more than 400 ms. *)
Theorem sound_is_played_in_order ops : forall p,
  zlen (wp_queue p) <= kMaxQueueFrames * 2 ->
  let '(w, t, p') := playerRun ops p in
  zlen (wp_queue p') <= kMaxQueueFrames * 2 /\
  (zlen (wp_queue p ++ concat (pushed <$> ops)) <= kMaxQueueFrames * 2 ->
   t ++ wp_queue p' = wp_queue p ++ concat (pushed <$> ops)).
Proof.
  induction ops as [|op ops IH]; intros p Hp; cbn [playerRun fmap list_fmap concat].
  - split; [done|]. intros _. by rewrite app_nil_r.
  - destruct (playerStep op p) as [written p1] eqn:E1.
    assert (H1 : zlen (wp_queue p1) <= kMaxQueueFrames * 2 /\
      (Z.of_nat (length (wp_queue p ++ pushed op)) <= kMaxQueueFrames * 2 -> taken op p ++ wp_queue p1 = wp_queue p ++ pushed op)).
    { destruct op as [s n|io]; cbn [playerStep pushed] in *.
      - injection E1 as <- <-. split; [apply push_bound|]. intros Hle. unfold push. cbn [wp_queue setQueue taken app].
        destruct (Z.ltb_spec (kMaxQueueFrames * 2) (zlen (wp_queue p ++ take (n * 2) s))); [lia|done].
      - unfold taken, playerStep. destruct (renderTurn io p) as [r p2] eqn:Er. destruct (renderTurn_queue _ _ _ _ Er) as (k & Hq & Hk & _).
        assert (p1 = p2) as -> by (destruct r; by injection E1). rewrite app_nil_r.
        assert (Hs : snd (match r with RenderWrote s => (s, p2) | _ => ([], p2) end) = p2) by (by destruct r). rewrite Hs, Hq.
        rewrite length_drop. split; [lia|]. intros _. replace (length (wp_queue p) - (length (wp_queue p) - k))%nat with k by lia.
        apply take_drop. }
    destruct H1 as [Hb Hq]. specialize (IH p1 Hb). destruct (playerRun ops p1) as [[w t] p']. destruct IH as [Hb' IH].
    split; [done|]. intros Hle. rewrite <- app_assoc, IH.
    + rewrite app_assoc, Hq, <- app_assoc; [done|]. rewrite !length_app in *. lia.
    + assert (Hle1 : Z.of_nat (length (wp_queue p ++ pushed op)) <= kMaxQueueFrames * 2) by (rewrite !length_app in *; lia).
      specialize (Hq Hle1). apply (f_equal length) in Hq. rewrite !length_app in *. lia.
Qed.

Lemma sound_is_played_in_order_witness :
  let p := mkWp true true true true 4 2 true [] 0 in
  let '(w, t, p') := playerRun [OpPush [1; 2; 3; 4; 5; 6] 3; OpRender (mkRio (Some 2) true); OpRender (mkRio (Some 2) true)] p in
  w = [1; 2; 3; 4; 5; 6; 0; 0] /\ t ++ wp_queue p' = [1; 2; 3; 4; 5; 6].
Proof.
  pose proof (sound_is_played_in_order [OpPush [1; 2; 3; 4; 5; 6] 3; OpRender (mkRio (Some 2) true); OpRender (mkRio (Some 2) true)]
    (mkWp true true true true 4 2 true [] 0)) as H.
  vm_compute in H |- *. split; [reflexivity|]. apply H; discriminate.
Defined.

(** A player whose device cannot be initialised never reports it: its thread goes on to the render loop with
    [running_] set, where it calls a client that does not exist, or turns until somebody else clears [running_],
    while [start] waits for its end. *)
Theorem failed_start_never_returns o io p :
  wp_running p = false -> wp_joinable p = false -> initError o <> [] ->
  fst (start o io p) = StartCrashes \/
  exists p', start o io p = (StartWaits (initError o), p') /\
    forall ios, wp_running (foldl (fun p io => snd (renderTurn io p)) p' ios) = true.
Proof.
  intros Hr Hj He. unfold start. rewrite Hr, Hj. set (p1 := initDevices o _).
  assert (H1 : wp_running p1 = true) by (by destruct o).
  assert (Hkeep : forall io q, wp_running q = true -> wp_running (snd (renderTurn io q)) = true).
  { intros i q Hq. unfold renderTurn. rewrite Hq. cbn [negb]. by repeat case_match. }
  assert (Hloop : forall ios q, wp_running q = true -> wp_running (foldl (fun p io => snd (renderTurn io p)) q ios) = true).
  { intros ios. induction ios as [|i ios IH]; intros q Hq; [done|]. cbn. by apply IH, Hkeep. }
  destruct (initError o) as [|b err]; [done|]. pose proof (Hkeep io p1 H1) as H2.
  destruct (renderTurn io p1) as [r p2] eqn:Er. cbn [snd] in H2.
  assert (Hne : r <> RenderEnds).
  { intros ->. revert Er. unfold renderTurn. rewrite H1. cbn [negb]. repeat case_match; congruence. }
  destruct r; [right|right|by left|done]; (eexists; split; [done|]; intros ios; by apply Hloop).
Qed.

Lemma failed_start_never_returns_witness :
  fst (start PiNoDevice (mkRio None false) newPlayer) = StartCrashes.
Proof.
  assert (Hn : initError PiNoDevice <> []) by discriminate.
  destruct (failed_start_never_returns PiNoDevice (mkRio None false) newPlayer eq_refl eq_refl Hn) as [H|(p' & H & _)];
    [exact H|discriminate H].
Defined.
