(* ===== verification/WasapiCapture.v ===== *)
(** audio/WasapiCapture.h and WasapiCapture.cpp: the loopback capture.

    What the audio client returns is an argument; FFmpeg's resampler is the class
    [Swr] with the documented behaviour as [SwrLaws]. *)

From S2P Require Import Prelude Double.

Open Scope Z_scope.

(** * The resampler *)

Inductive SampleFormat := AV_SAMPLE_FMT_FLT | AV_SAMPLE_FMT_S16.

(** [swr_alloc_set_opts2] to 48 kHz stereo s16 from channels, format and rate;
    [swr_convert] with the room and the number of frames, which returns the
    number of frames written. *)
Class Swr (S : Type) := {
  swr_alloc : Z -> SampleFormat -> Z -> option S;
  swr_is_initialized : S -> bool;
  swr_convert : Z -> Z -> S -> Z * S }.

(** A context is not initialised before [swr_init], and refuses to convert until
    then; a conversion writes no more than there is room for. *)
Class SwrLaws (S : Type) `{Swr S} : Prop := {
  swr_alloc_fresh ch fmt rate s : swr_alloc ch fmt rate = Some s -> swr_is_initialized s = false;
  swr_convert_refused room n s : swr_is_initialized s = false ->
    fst (swr_convert room n s) < 0 /\ swr_is_initialized (snd (swr_convert room n s)) = false;
  swr_convert_fits room n s : 0 <= room -> fst (swr_convert room n s) <= room }.

(** * Data *)

(** The format tag, an extensible one with the first part of its sub-format. *)
Inductive FormatTag := TagExtensible (subData1 : Z) | TagIeeeFloat | TagOther.

Record WaveFormat := mkWf { wf_rate : Z; wf_channels : Z; wf_tag : FormatTag }.

(** The objects [initDevices] obtains, in this order. *)
Inductive ComObject := Enumerator | Device | AudioClient | MixFormat | CaptureClient.

(** Which call of [initDevices] fails. *)
Inductive InitOutcome :=
  | CiNoEnumerator | CiNoDevice | CiNoClient | CiNoMixFormat
  | CiInitializeFailed (f : WaveFormat) | CiNoService (f : WaveFormat) | CiStartFailed (f : WaveFormat)
  | CiOk (f : WaveFormat).

(** One reading of the endpoint: nothing there, a failure, or a packet; [t0], [t1]
    and [t2] are the clock before the reading, at the callback and after it. *)
Inductive Block :=
  | BkEmpty
  | BkFailed
  | BkData (frames : Z) (silent : bool) (t0 t1 t2 : double).

(** A block given to the callback, with the size of the buffer it lies in; a packet
    given back; a pause in milliseconds. *)
Inductive CaptureEvent :=
  | CvBlock (frames room tsUs : Z)
  | CvRelease (frames : Z)
  | CvSleep (ms : Z).

Definition d0_95 : double := dlit 8556839292003942 (-53).
Definition d0_05 : double := dlit 7205759403792794 (-57).
Definition d1000 : double := dofZ 1000.

Section Capture.
Context {S : Type} `{Swr S}.

Record WasapiCapture := mkWc {
  wc_onBlock : bool; wc_running : bool; wc_joinable : bool; wc_held : list ComObject;
  wc_srcRate : Z; wc_srcChannels : Z; wc_srcIsFloat : bool; wc_swr : option S;
  wc_blocks : Z; wc_avgBlockMs : double }.

Definition newCapture : WasapiCapture := mkWc false false false [] 0 0 false None 0 dzero.

Definition setThread (onBlock running joinable : bool) (c : WasapiCapture) : WasapiCapture :=
  mkWc onBlock running joinable (wc_held c) (wc_srcRate c) (wc_srcChannels c) (wc_srcIsFloat c) (wc_swr c) (wc_blocks c)
    (wc_avgBlockMs c).
Definition setHeld (held : list ComObject) (swr : option S) (c : WasapiCapture) : WasapiCapture :=
  mkWc (wc_onBlock c) (wc_running c) (wc_joinable c) held (wc_srcRate c) (wc_srcChannels c) (wc_srcIsFloat c) swr
    (wc_blocks c) (wc_avgBlockMs c).
Definition setSource (rate channels : Z) (isFloat : bool) (c : WasapiCapture) : WasapiCapture :=
  mkWc (wc_onBlock c) (wc_running c) (wc_joinable c) (wc_held c) rate channels isFloat (wc_swr c) (wc_blocks c)
    (wc_avgBlockMs c).
Definition setCounts (blocks : Z) (avg : double) (c : WasapiCapture) : WasapiCapture :=
  mkWc (wc_onBlock c) (wc_running c) (wc_joinable c) (wc_held c) (wc_srcRate c) (wc_srcChannels c) (wc_srcIsFloat c)
    (wc_swr c) blocks avg.

(** * Devices *)

Definition initError (o : InitOutcome) : bytes :=
  match o with
  | CiNoEnumerator => str "CoCreateInstance(MMDeviceEnumerator) failed"
  | CiNoDevice => str "no default render device"
  | CiNoClient => str "device Activate(IAudioClient) failed"
  | CiNoMixFormat => str "GetMixFormat failed"
  | CiInitializeFailed _ => str "IAudioClient::Initialize(loopback) failed"
  | CiNoService _ => str "GetService(IAudioCaptureClient) failed"
  | CiStartFailed _ => str "IAudioClient::Start failed"
  | CiOk _ => []
  end.

(** What has been obtained when [initDevices] returns. *)
Definition obtained (o : InitOutcome) : list ComObject :=
  match o with
  | CiNoEnumerator => []
  | CiNoDevice => [Enumerator]
  | CiNoClient => [Enumerator; Device]
  | CiNoMixFormat => [Enumerator; Device; AudioClient]
  | CiInitializeFailed _ | CiNoService _ => [Enumerator; Device; AudioClient; MixFormat]
  | CiStartFailed _ | CiOk _ => [Enumerator; Device; AudioClient; MixFormat; CaptureClient]
  end.

Definition isFloat (t : FormatTag) : bool :=
  match t with TagExtensible sub => sub =? 3 | TagIeeeFloat => true | TagOther => false end.

(** The error, empty on success. *)
Definition initDevices (o : InitOutcome) (c : WasapiCapture) : bytes * WasapiCapture :=
  let c := setHeld (obtained o) (wc_swr c) c in
  (initError o,
   match o with
   | CiInitializeFailed f | CiNoService f | CiStartFailed f | CiOk f =>
       setSource (wf_rate f) (wf_channels f) (isFloat (wf_tag f)) c
   | _ => c
   end).

(** The end of the thread: the resampler is freed, every object released. *)
Definition threadEnds (c : WasapiCapture) : WasapiCapture := setHeld [] None c.

(** [None]: a joinable thread is assigned to, which ends the program. When the
    devices fail, the thread clears [running_] before its loop, and is joined. *)
Definition start (onBlock : bool) (o : InitOutcome) (c : WasapiCapture) : option (bool * bytes * WasapiCapture) :=
  if wc_running c then Some (false, [], setThread (wc_onBlock c) false (wc_joinable c) c)
  else if wc_joinable c then None
  else
    let '(err, c) := initDevices o (setThread onBlock true true c) in
    if bool_decide (err = []) then Some (true, [], c)
    else Some (false, err, setThread (wc_onBlock c) false false (threadEnds c)).

Definition stop (c : WasapiCapture) : WasapiCapture :=
  if wc_running c then setThread (wc_onBlock c) false false (threadEnds c) else c.

(** The destructor. [None]: the thread is still joinable, which ends the program. *)
Definition destroy (c : WasapiCapture) : option WasapiCapture :=
  let c := stop c in if wc_joinable c then None else Some c.

(** * The thread *)

(** Room for the converted packet, in frames. *)
Definition maxOut (frames rate : Z) : Z := i32 (Z.quot (frames * 48000) rate + 16).

Definition srcFmt (c : WasapiCapture) : SampleFormat := if wc_srcIsFloat c then AV_SAMPLE_FMT_FLT else AV_SAMPLE_FMT_S16.

Definition ensureSwr (c : WasapiCapture) : WasapiCapture :=
  match wc_swr c with
  | Some _ => c
  | None => setHeld (wc_held c) (swr_alloc (wc_srcChannels c) (srcFmt c) (wc_srcRate c)) c
  end.

(** The conversion and the callback. [None]: a division by zero, a buffer of
    negative size, or a time that is no 64-bit number. *)
Definition convert (s : S) (frames : Z) (t0 t1 t2 : double) (c : WasapiCapture) : option (list CaptureEvent * WasapiCapture) :=
  if wc_srcRate c =? 0 then None
  else
    let room := maxOut frames (wc_srcRate c) in
    if room <? 0 then None
    else
      let '(outFrames, s) := swr_convert room (i32 frames) s in
      let c := setHeld (wc_held c) (Some s) c in
      if (0 <? outFrames) && wc_onBlock c then
        ts ← dtrunc (dmul t1 d1000);
        let dt := dsub t2 t0 in
        Some ([CvBlock outFrames (room * 2) (u64 ts)],
              setCounts (u64 (wc_blocks c + 1))
                (if deqb (wc_avgBlockMs c) dzero then dt else dadd (dmul (wc_avgBlockMs c) d0_95) (dmul dt d0_05)) c)
      else Some ([], c).

(** One turn of the loop. *)
Definition captureTurn (b : Block) (c : WasapiCapture) : option (list CaptureEvent * WasapiCapture) :=
  match b with
  | BkEmpty => Some ([CvSleep 5], c)
  | BkFailed => Some ([CvSleep 20], c)
  | BkData frames silent t0 t1 t2 =>
      '(es, c) ← (if (0 <? frames) && negb silent then
          let c := ensureSwr c in
          match wc_swr c with Some s => convert s frames t0 t1 t2 c | None => Some ([], c) end
        else Some ([], c));
      Some (es ++ [CvRelease frames; CvSleep 2], c)
  end.

(** * Runs *)

Inductive CaptureOp := CoStart (onBlock : bool) (o : InitOutcome) | CoStop | CoTurn (b : Block).

(** The thread turns while [running_] is set. *)
Definition captureStep (op : CaptureOp) (c : WasapiCapture) : option (list CaptureEvent * WasapiCapture) :=
  match op with
  | CoStart onBlock o => '(_, c) ← start onBlock o c; Some ([], c)
  | CoStop => Some ([], stop c)
  | CoTurn b => if wc_running c then captureTurn b c else Some ([], c)
  end.

Fixpoint captureRun (ops : list CaptureOp) (c : WasapiCapture) : option (list CaptureEvent * WasapiCapture) :=
  match ops with
  | [] => Some ([], c)
  | op :: ops =>
      '(e1, c) ← captureStep op c;
      '(e2, c) ← captureRun ops c;
      Some (e1 ++ e2, c)
  end.

(** The packets given back. *)
Definition releases (es : list CaptureEvent) : list Z := omap (fun e => match e with CvRelease n => Some n | _ => None end) es.

(** * Lemmas *)

(** The buffer holds a packet at the new rate, rounded up. *)
Lemma maxOut_enough frames rate :
  0 <= frames < 2 ^ 20 -> 8000 <= rate -> frames * 48000 < maxOut frames rate * rate.
Proof.
  intros Hf Hrate. unfold maxOut. rewrite Z.quot_div_nonneg by lia.
  assert (0 <= frames * 48000 / rate <= frames * 6) by (split; [apply Z.div_pos; lia|apply Z.div_le_upper_bound; nia]).
  rewrite i32_small by lia. Z.div_mod_to_equations. nia.
Qed.

(** A thread that is gone has left nothing. *)
Definition capture_ok (c : WasapiCapture) : Prop :=
  (wc_joinable c = false -> wc_running c = false /\ wc_held c = [] /\ wc_swr c = None).

Lemma convert_shape s frames t0 t1 t2 c es c' :
  convert s frames t0 t1 t2 c = Some (es, c') ->
  releases es = [] /\ wc_joinable c' = wc_joinable c /\
  (forall n room ts, CvBlock n room ts ∈ es -> 0 < n /\ n = fst (swr_convert (maxOut frames (wc_srcRate c)) (i32 frames) s) /\
     room = maxOut frames (wc_srcRate c) * 2 /\ 0 <= maxOut frames (wc_srcRate c)) /\
  wc_swr c' = Some (snd (swr_convert (maxOut frames (wc_srcRate c)) (i32 frames) s)).
Proof.
  unfold convert. destruct (wc_srcRate c =? 0); [done|]. destruct (Z.ltb_spec (maxOut frames (wc_srcRate c)) 0); [done|].
  destruct (swr_convert _ _ s) as [k s1]. cbn [fst snd]. destruct (_ && _) eqn:E.
  - destruct (dtrunc _) as [ts|]; [|done]. cbn [mbind option_bind]. intros [= <- <-]. split_and!; try done.
    intros n room ts' Hin. apply list_elem_of_singleton in Hin. injection Hin as -> -> _. b2p. lia.
  - intros [= <- <-]. split_and!; try done. intros n room ts Hin. by apply not_elem_of_nil in Hin.
Qed.

Lemma ensureSwr_thread c :
  wc_joinable (ensureSwr c) = wc_joinable c /\ wc_running (ensureSwr c) = wc_running c /\ wc_srcRate (ensureSwr c) = wc_srcRate c.
Proof. unfold ensureSwr. by destruct (wc_swr c). Qed.

Lemma captureTurn_shape b c es c' :
  captureTurn b c = Some (es, c') ->
  wc_joinable c' = wc_joinable c /\
  releases es = match b with BkData frames _ _ _ _ => [frames] | _ => [] end /\
  (forall n room ts, CvBlock n room ts ∈ es ->
     exists frames silent t0 t1 t2 s, b = BkData frames silent t0 t1 t2 /\ wc_swr (ensureSwr c) = Some s /\
       0 < n /\ n = fst (swr_convert (maxOut frames (wc_srcRate c)) (i32 frames) s) /\
       room = maxOut frames (wc_srcRate c) * 2 /\ 0 <= maxOut frames (wc_srcRate c)) /\
  (wc_swr c' = wc_swr c \/ wc_swr c' = wc_swr (ensureSwr c) \/
   exists s room n, wc_swr (ensureSwr c) = Some s /\ wc_swr c' = Some (snd (swr_convert room n s))).
Proof.
  assert (Hs : forall n room ts ms, CvBlock n room ts ∈ [CvSleep ms] -> False)
    by (intros n room ts ms Hin; by apply list_elem_of_singleton in Hin).
  destruct b as [| |frames silent t0 t1 t2]; cbn [captureTurn].
  1,2: intros [= <- <-]; split_and!; try done; [|by left]; intros n room ts Hin; by apply Hs in Hin.
  assert (Hr : forall n room ts, CvBlock n room ts ∈ [CvRelease frames; CvSleep 2] -> False)
    by (intros n room ts Hin%list_elem_of_In; destruct Hin as [?|[?|[]]]; done).
  destruct (_ && _); [|intros [= <- <-]; split_and!; try done; [|by left]; intros n room ts Hin; by apply Hr in Hin].
  destruct (ensureSwr_thread c) as (E1 & E2 & E3). cbv zeta.
  destruct (wc_swr (ensureSwr c)) as [s|] eqn:Es; [|intros [= <- <-]; split_and!; try done; [intros n room ts Hin; by apply Hr in Hin|right; left; done]].
  destruct (convert s frames t0 t1 t2 (ensureSwr c)) as [[e1 c1]|] eqn:Ec; [|done]. cbn [mbind option_bind].
  intros [= <- <-]. destruct (convert_shape _ _ _ _ _ _ _ _ Ec) as (H1 & H2 & H3 & H4). rewrite E3 in H3, H4.
  split_and!.
  - by rewrite H2.
  - unfold releases in *. by rewrite omap_app, H1.
  - intros n room ts [Hin|Hin]%elem_of_app; [|by apply Hr in Hin]. eexists frames, silent, t0, t1, t2, s.
    destruct (H3 _ _ _ Hin) as (? & ? & ? & ?). by split_and!.
  - right. right. by eexists _, _, _.
Qed.

(** A run keeps what every turn and call keeps. *)
Lemma loopbackRun_keeps (P : WasapiCapture -> Prop) (Q : CaptureEvent -> Prop) :
  (forall op c es c', P c -> captureStep op c = Some (es, c') -> P c' /\ Forall Q es) ->
  forall ops c es c', P c -> captureRun ops c = Some (es, c') -> P c' /\ Forall Q es.
Proof.
  intros Hstep. induction ops as [|op ops IH]; intros c es c' Hc; cbn [captureRun].
  - intros [= <- <-]. by split.
  - destruct (captureStep op c) as [[e1 c1]|] eqn:E1; [|done]. cbn [mbind option_bind].
    destruct (captureRun ops c1) as [[e2 c2]|] eqn:E2; [|done]. cbn [mbind option_bind]. intros [= <- <-].
    destruct (Hstep _ _ _ _ Hc E1) as [H1 Hq]. destruct (IH _ _ _ H1 E2) as [H2 Hq']. split; [done|by apply Forall_app].
Qed.

(** No context is ever initialised. *)
Definition raw_swr (c : WasapiCapture) : Prop := forall s, wc_swr c = Some s -> swr_is_initialized s = false.

Lemma captureStep_raw `{!SwrLaws S} op c es c' :
  raw_swr c -> captureStep op c = Some (es, c') ->
  raw_swr c' /\ Forall (fun e => match e with CvBlock _ _ _ => False | _ => True end) es.
Proof.
  intros Hc. destruct op as [onBlock o| |b]; cbn [captureStep].
  - unfold start, initDevices, threadEnds. destruct (wc_running c); [by intros [= <- <-]|]. destruct (wc_joinable c); [done|].
    destruct (bool_decide _); intros [= <- <-]; (split; [|done]); [|by intros s].
    destruct o; done.
  - intros [= <- <-]. split; [|done]. unfold stop. destruct (wc_running c); [by intros s|done].
  - destruct (wc_running c); [|by intros [= <- <-]]. intros Ht. destruct (captureTurn_shape _ _ _ _ Ht) as (_ & _ & Hb & Hsw).
    assert (He : raw_swr (ensureSwr c)).
    { unfold ensureSwr. destruct (wc_swr c) eqn:E; [done|]. intros s Hs. exact (swr_alloc_fresh _ _ _ _ Hs). }
    split.
    + intros s Hs. destruct Hsw as [E|[E|(s0 & room & n & E0 & E)]]; rewrite E in Hs; [by apply Hc|by apply He|].
      injection Hs as <-. by apply swr_convert_refused, He.
    + apply list.Forall_forall. intros [n room ts| |] Hin; try done.
      destruct (Hb _ _ _ Hin) as (fr & si & t0 & t1 & t2 & s & _ & Es & Hn & Hk & _).
      pose proof (swr_convert_refused (maxOut fr (wc_srcRate c)) (i32 fr) s (He s Es)) as [Hneg _]. lia.
Qed.

Lemma captureStep_ok op c es c' : capture_ok c -> captureStep op c = Some (es, c') -> capture_ok c' /\ Forall (fun _ => True) es.
Proof.
  intros Hc. unfold capture_ok in *. destruct op as [onBlock o| |b]; cbn [captureStep].
  - unfold start. destruct (wc_running c) eqn:Er.
    + intros [= <- <-]. split; [|done]. cbn. intros Hj. by destruct (Hc Hj) as (? & _).
    + destruct (wc_joinable c) eqn:Ej; [done|]. unfold initDevices, threadEnds. destruct (bool_decide _); intros [= <- <-]; (split; [|done]).
      * destruct o; done.
      * by destruct o.
  - intros [= <- <-]. split; [|done]. unfold stop. destruct (wc_running c) eqn:Er; [done|]. intros Hj. destruct (Hc Hj) as (? & ? & ?). by split_and!.
  - destruct (wc_running c) eqn:Er; [|intros [= <- <-]; split; [intros Hj; destruct (Hc Hj) as (? & ? & ?); by split_and!|done]]. intros Ht.
    destruct (captureTurn_shape _ _ _ _ Ht) as (Hj & _). rewrite Hj. split; [|by apply list.Forall_forall].
    intros Hn. destruct (Hc Hn) as [? _]. congruence.
Qed.

(** * Properties *)

(** A packet of the endpoint is given back exactly once, whether or not it was
    converted, and a reading without a packet gives nothing back. *)
Theorem packets_are_given_back b c es c' :
  captureTurn b c = Some (es, c') -> releases es = match b with BkData frames _ _ _ _ => [frames] | _ => [] end.
Proof. intros H1. by destruct (captureTurn_shape _ _ _ _ H1) as (_ & ? & _). Qed.

(** What the callback gets lies inside the buffer it is given: a block has at least
    one frame and its stereo samples are no more than the buffer's. *)
Theorem blocks_fit_their_buffer `{!SwrLaws S} b c es c' n room ts :
  captureTurn b c = Some (es, c') -> CvBlock n room ts ∈ es -> 0 < n /\ n * 2 <= room.
Proof.
  intros H1 Hin. destruct (captureTurn_shape _ _ _ _ H1) as (_ & _ & Hb & _).
  destruct (Hb _ _ _ Hin) as (fr & si & t0 & t1 & t2 & s & _ & _ & Hn & -> & -> & Hr).
  pose proof (swr_convert_fits (maxOut fr (wc_srcRate c)) (i32 fr) s Hr). lia.
Qed.

(** No sound is ever captured: the resampler is allocated but [swr_init] is never
    called, so that every conversion is refused and the callback is not called, in
    any run. *)
Theorem no_sound_is_captured `{!SwrLaws S} ops es c :
  captureRun ops newCapture = Some (es, c) -> forall n room ts, CvBlock n room ts ∉ es.
Proof.
  intros H1 n room ts Hin. destruct (loopbackRun_keeps raw_swr _ captureStep_raw ops newCapture es c) as [_ Hq]; [by intros s|done|].
  rewrite list.Forall_forall in Hq. by specialize (Hq _ Hin).
Qed.

(** A failed start says which call failed, and leaves nothing: it can be tried again. *)
Theorem failed_capture_start_is_clean onBlock o c :
  wc_running c = false -> wc_joinable c = false -> initError o <> [] ->
  exists c', start onBlock o c = Some (false, initError o, c') /\ wc_running c' = false /\ wc_joinable c' = false /\
    wc_held c' = [] /\ wc_swr c' = None.
Proof.
  intros Hr Hj He. unfold start, initDevices. rewrite Hr, Hj, bool_decide_eq_false_2 by done.
  eexists. split; [done|]. by destruct o.
Qed.

(** A capture that can be destroyed has released every object it obtained. *)
Theorem destroyed_capture_holds_nothing ops es c c' :
  captureRun ops newCapture = Some (es, c) -> destroy c = Some c' -> wc_held c' = [] /\ wc_swr c' = None.
Proof.
  intros H1. destruct (loopbackRun_keeps capture_ok _ captureStep_ok ops newCapture es c) as [Hc _]; [by intros _|done|].
  unfold destroy, stop. destruct (wc_running c) eqn:Er; [by intros [= <-]|].
  destruct (wc_joinable c) eqn:Ej; [done|]. intros [= <-]. by destruct (Hc Ej) as (_ & ? & ?).
Qed.

End Capture.

(** * Runs with a small resampler *)

(** Initialised or not; a conversion gives as many frames as it gets. *)
#[local] Instance toySwr : Swr bool := {|
  swr_alloc _ _ _ := Some false; swr_is_initialized s := s;
  swr_convert room n s := (if s then Z.min room n else -22, s) |}.

#[local] Instance toySwr_laws : SwrLaws bool.
Proof. split; cbn; [congruence|by intros room n [|]|intros room n [|] Hr; lia]. Qed.

Local Abbreviation stereo := (mkWf 44100 2 TagIeeeFloat).
Local Abbreviation packet := (BkData 441 false (dofZ 5) (dofZ 6) (dofZ 7)).

Lemma no_sound_is_captured_witness :
  exists c, captureRun [CoStart true (CiOk stereo); CoTurn packet; CoStop] (newCapture (S := bool)) = Some ([CvRelease 441; CvSleep 2], c) /\
    forall n room ts, CvBlock n room ts ∉ [CvRelease 441; CvSleep 2].
Proof.
  eexists. assert (Hrun : captureRun [CoStart true (CiOk stereo); CoTurn packet; CoStop] (newCapture (S := bool)) =
    Some ([CvRelease 441; CvSleep 2], setThread true false false (setSource 44100 2 true newCapture))) by (vm_compute; reflexivity).
  split; [exact Hrun|]. by apply (no_sound_is_captured _ _ _ Hrun).
Defined.

(** With an initialised context the packet arrives, in a buffer of 992 samples. *)
Example initialised_context_captures :
  option_map fst (captureTurn packet (setThread true true true (setSource 44100 2 true (setHeld [] (Some true) newCapture)))) =
  Some [CvBlock 441 992 6000; CvRelease 441; CvSleep 2].
Proof. vm_compute. reflexivity. Qed.

(** A second start while the capture runs clears [running_]; after that neither
    [stop] nor the destructor joins the thread. *)
Theorem second_capture_start_is_fatal onBlock o onBlock' o' f :
  o = CiOk f ->
  exists c c', start (S := bool) onBlock o newCapture = Some (true, [], c) /\
    start onBlock' o' c = Some (false, [], c') /\ destroy c' = None.
Proof. intros ->. by eexists _, _. Qed.
