(* ===== verification/UdpTransport.v ===== *)
(** networking/UdpTransport.cpp and UdpTransport.h: the datagram transport.

    One transport is one state value. Work posted to the io thread is an explicit
    queue of tasks, run one at a time by [runTask]; what leaves the component
    (datagrams handed to the socket, callbacks) is a list of events. Clock
    readings, resolver results and socket results are arguments. A call into the
    reassembler can be undefined, and so can the handler that makes it. *)

From S2P Require Import Prelude Packet UdpHeader SequenceTracker Reassembler JitterBuffer UdpCrypto Double.

(** * State *)

Section Transport.
Context {Endpoint : Type} `{EqDecision Endpoint} {Sink : Type} `{UdpCryptoSink Sink}.

Record PeerState := mkPeers {
  pe_havePeer : bool; pe_peer : Endpoint; pe_lockedRemote : option Endpoint;
  pe_relayFallback : option Endpoint }.

Record MediaState := mkMedia {
  md_videoReassembly : FragmentReassembler; md_audioReassembly : FragmentReassembler;
  md_inputReassembly : FragmentReassembler; md_videoSeq : SequenceTracker;
  md_audioSeq : SequenceTracker; md_videoJitter : JitterBuffer; md_audioJitter : JitterBuffer;
  md_jitterEWMA : double; md_lastArrivalNs : Z; md_lastKeyframeReqNs : Z }.

Record UdpCounters := mkCounters {
  ct_sentDatagrams : Z; ct_sentBytes : Z; ct_sendErrors : Z; ct_sentFrames : Z;
  ct_recvDatagrams : Z; ct_recvBytes : Z; ct_malformed : Z; ct_wrongSession : Z;
  ct_authDrops : Z; ct_lastRttMs : double; ct_avgRttMs : double }.

Record UdpConfig := mkConfig {
  cf_sessionId : Z; cf_dropUnknownRemote : bool; cf_autoKeyframeRequest : bool;
  cf_videoJitterTargetMs : Z; cf_audioJitterTargetMs : Z; cf_inputCb : bool; cf_controlCb : bool }.

(** Closures posted to the io_context. *)
Inductive Task :=
| TaskDatagram (dg : bytes)
| TaskRelayBind (target : Endpoint) (pkt : bytes)
| TaskPunch (to : Endpoint) (dg : bytes)
| TaskRequestKeyframe.

Record UdpTransport := mkTransport {
  tr_running : bool; tr_socket : bool; tr_localPort : Z; tr_peers : PeerState;
  tr_media : MediaState; tr_counters : UdpCounters; tr_config : UdpConfig;
  tr_secure : option Sink; tr_seqCounter : list Z; tr_pingSeq : Z; tr_pingIntervalMs : Z;
  tr_lastRxAbsNs : Z; tr_tasks : list Task }.

Inductive Event :=
| EvSend (to : Endpoint) (dg : bytes)
| EvInput (f : AssembledFrame)
| EvControl (type : UdpType) (data : bytes)
| EvArmPingTimer (ms : Z).

(** A handler's result: the new state and what it emitted, or undefined behaviour
    inside the reassembler. *)
Inductive Handled :=
| Handles (evs : list Event) (t : UdpTransport)
| HandleUB (u : Undefined).

Definition newMedia : MediaState :=
  mkMedia (newReassembler UdpVideo) (newReassembler UdpAudio) (newReassembler UdpInput) newTracker
    newTracker (newJitterBuffer 30) (newJitterBuffer 30) dzero 0 0.

Definition newCounters : UdpCounters := mkCounters 0 0 0 0 0 0 0 0 0 dzero dzero.

Definition defaultConfig : UdpConfig := mkConfig 0 true true 30 30 false false.

Definition newTransport (noEndpoint : Endpoint) : UdpTransport :=
  mkTransport false false 0 (mkPeers false noEndpoint None None) newMedia newCounters defaultConfig None
    (replicate 9 0) 0 0 0 [].

(** ** Field updates *)

Definition withPeers (p : PeerState) (t : UdpTransport) : UdpTransport :=
  mkTransport (tr_running t) (tr_socket t) (tr_localPort t) p (tr_media t) (tr_counters t) (tr_config t)
    (tr_secure t) (tr_seqCounter t) (tr_pingSeq t) (tr_pingIntervalMs t) (tr_lastRxAbsNs t) (tr_tasks t).

Definition withMedia (m : MediaState) (t : UdpTransport) : UdpTransport :=
  mkTransport (tr_running t) (tr_socket t) (tr_localPort t) (tr_peers t) m (tr_counters t) (tr_config t)
    (tr_secure t) (tr_seqCounter t) (tr_pingSeq t) (tr_pingIntervalMs t) (tr_lastRxAbsNs t) (tr_tasks t).

Definition withCounters (c : UdpCounters) (t : UdpTransport) : UdpTransport :=
  mkTransport (tr_running t) (tr_socket t) (tr_localPort t) (tr_peers t) (tr_media t) c (tr_config t)
    (tr_secure t) (tr_seqCounter t) (tr_pingSeq t) (tr_pingIntervalMs t) (tr_lastRxAbsNs t) (tr_tasks t).

Definition withConfig (c : UdpConfig) (t : UdpTransport) : UdpTransport :=
  mkTransport (tr_running t) (tr_socket t) (tr_localPort t) (tr_peers t) (tr_media t) (tr_counters t) c
    (tr_secure t) (tr_seqCounter t) (tr_pingSeq t) (tr_pingIntervalMs t) (tr_lastRxAbsNs t) (tr_tasks t).

Definition withSecure (s : option Sink) (t : UdpTransport) : UdpTransport :=
  mkTransport (tr_running t) (tr_socket t) (tr_localPort t) (tr_peers t) (tr_media t) (tr_counters t)
    (tr_config t) s (tr_seqCounter t) (tr_pingSeq t) (tr_pingIntervalMs t) (tr_lastRxAbsNs t) (tr_tasks t).

Definition withTasks (ts : list Task) (t : UdpTransport) : UdpTransport :=
  mkTransport (tr_running t) (tr_socket t) (tr_localPort t) (tr_peers t) (tr_media t) (tr_counters t)
    (tr_config t) (tr_secure t) (tr_seqCounter t) (tr_pingSeq t) (tr_pingIntervalMs t) (tr_lastRxAbsNs t) ts.

Definition withSeq (seqs : list Z) (t : UdpTransport) : UdpTransport :=
  mkTransport (tr_running t) (tr_socket t) (tr_localPort t) (tr_peers t) (tr_media t) (tr_counters t)
    (tr_config t) (tr_secure t) seqs (tr_pingSeq t) (tr_pingIntervalMs t) (tr_lastRxAbsNs t) (tr_tasks t).

Definition withPing (pingSeq intervalMs : Z) (t : UdpTransport) : UdpTransport :=
  mkTransport (tr_running t) (tr_socket t) (tr_localPort t) (tr_peers t) (tr_media t) (tr_counters t)
    (tr_config t) (tr_secure t) (tr_seqCounter t) pingSeq intervalMs (tr_lastRxAbsNs t) (tr_tasks t).

Definition withLastRx (ns : Z) (t : UdpTransport) : UdpTransport :=
  mkTransport (tr_running t) (tr_socket t) (tr_localPort t) (tr_peers t) (tr_media t) (tr_counters t)
    (tr_config t) (tr_secure t) (tr_seqCounter t) (tr_pingSeq t) (tr_pingIntervalMs t) ns (tr_tasks t).

Definition withSocket (running socket : bool) (port : Z) (t : UdpTransport) : UdpTransport :=
  mkTransport running socket port (tr_peers t) (tr_media t) (tr_counters t) (tr_config t) (tr_secure t)
    (tr_seqCounter t) (tr_pingSeq t) (tr_pingIntervalMs t) (tr_lastRxAbsNs t) (tr_tasks t).

(** [asio::post] on the transport's io_context. *)
Definition post (task : Task) (t : UdpTransport) : UdpTransport := withTasks (tr_tasks t ++ [task]) t.

(** ** Counter updates *)

Definition countReceived (size : Z) (c : UdpCounters) : UdpCounters :=
  mkCounters (ct_sentDatagrams c) (ct_sentBytes c) (ct_sendErrors c) (ct_sentFrames c)
    (u64 (ct_recvDatagrams c + 1)) (u64 (ct_recvBytes c + size)) (ct_malformed c) (ct_wrongSession c)
    (ct_authDrops c) (ct_lastRttMs c) (ct_avgRttMs c).

Definition countMalformed (c : UdpCounters) : UdpCounters :=
  mkCounters (ct_sentDatagrams c) (ct_sentBytes c) (ct_sendErrors c) (ct_sentFrames c)
    (ct_recvDatagrams c) (ct_recvBytes c) (u64 (ct_malformed c + 1)) (ct_wrongSession c)
    (ct_authDrops c) (ct_lastRttMs c) (ct_avgRttMs c).

Definition countWrongSession (c : UdpCounters) : UdpCounters :=
  mkCounters (ct_sentDatagrams c) (ct_sentBytes c) (ct_sendErrors c) (ct_sentFrames c)
    (ct_recvDatagrams c) (ct_recvBytes c) (ct_malformed c) (u64 (ct_wrongSession c + 1))
    (ct_authDrops c) (ct_lastRttMs c) (ct_avgRttMs c).

Definition countAuthDrop (c : UdpCounters) : UdpCounters :=
  mkCounters (ct_sentDatagrams c) (ct_sentBytes c) (ct_sendErrors c) (ct_sentFrames c)
    (ct_recvDatagrams c) (ct_recvBytes c) (ct_malformed c) (ct_wrongSession c)
    (u64 (ct_authDrops c + 1)) (ct_lastRttMs c) (ct_avgRttMs c).

Definition countSent (ok : bool) (size : Z) (c : UdpCounters) : UdpCounters :=
  mkCounters (if ok then u64 (ct_sentDatagrams c + 1) else ct_sentDatagrams c)
    (if ok then u64 (ct_sentBytes c + size) else ct_sentBytes c)
    (if ok then ct_sendErrors c else u64 (ct_sendErrors c + 1)) (ct_sentFrames c)
    (ct_recvDatagrams c) (ct_recvBytes c) (ct_malformed c) (ct_wrongSession c) (ct_authDrops c)
    (ct_lastRttMs c) (ct_avgRttMs c).

Definition countFrame (c : UdpCounters) : UdpCounters :=
  mkCounters (ct_sentDatagrams c) (ct_sentBytes c) (ct_sendErrors c) (u64 (ct_sentFrames c + 1))
    (ct_recvDatagrams c) (ct_recvBytes c) (ct_malformed c) (ct_wrongSession c) (ct_authDrops c)
    (ct_lastRttMs c) (ct_avgRttMs c).

Definition recordRtt (rttMs : double) (c : UdpCounters) : UdpCounters :=
  let avg := ct_avgRttMs c in
  let avg := if deqb avg dzero then rttMs else dadd (dmul avg d0_8) (dmul rttMs d0_2) in
  mkCounters (ct_sentDatagrams c) (ct_sentBytes c) (ct_sendErrors c) (ct_sentFrames c)
    (ct_recvDatagrams c) (ct_recvBytes c) (ct_malformed c) (ct_wrongSession c) (ct_authDrops c)
    rttMs avg.
(** * Peers *)

Definition setPeer (ep : Endpoint) (t : UdpTransport) : UdpTransport :=
  withPeers (mkPeers true ep (pe_lockedRemote (tr_peers t)) (pe_relayFallback (tr_peers t))) t.

(** [setPeer(host, port)], given what the resolver returned. *)
Definition setPeerByName (resolved : option Endpoint) (t : UdpTransport) : bool * UdpTransport :=
  match resolved with
  | Some ep => (true, setPeer ep t)
  | None => (false, t)
  end.

Definition lockToRemote (ep : Endpoint) (t : UdpTransport) : UdpTransport :=
  withPeers (mkPeers (pe_havePeer (tr_peers t)) (pe_peer (tr_peers t)) (Some ep)
               (pe_relayFallback (tr_peers t))) t.

Definition setRelayFallback (ep : Endpoint) (t : UdpTransport) : UdpTransport :=
  withPeers (mkPeers (pe_havePeer (tr_peers t)) (pe_peer (tr_peers t)) (pe_lockedRemote (tr_peers t))
               (Some ep)) t.

Definition setCryptoSink (s : option Sink) (t : UdpTransport) : UdpTransport := withSecure s t.

Definition secureActive (t : UdpTransport) : bool :=
  match tr_secure t with Some s => sink_active s | None => false end.

(** * Sending *)

(** [postDatagram]: the closure seals and sends when it runs. *)
Definition postDatagram (dg : bytes) (t : UdpTransport) : UdpTransport := post (TaskDatagram dg) t.

(** [seqCounter_[type].fetch_add(1)]. *)
Definition nextSequence (type : UdpType) (t : UdpTransport) : Z * UdpTransport :=
  let i := Z.to_nat type in
  let s := nth i (tr_seqCounter t) 0 in
  (s, withSeq (<[i := u64 (s + 1)]> (tr_seqCounter t)) t).

Definition canSend (t : UdpTransport) : bool :=
  tr_running t && tr_socket t && pe_havePeer (tr_peers t).

Definition sendFrame (type : UdpType) (keyframe : bool) (data : bytes) (timestampNs : Z)
    (t : UdpTransport) : UdpTransport :=
  if negb (canSend t) then t
  else if fragmentCountFor (zlen data) <? 1 then t
  else
    let t := withCounters (countFrame (tr_counters t)) t in
    let '(frameSeq, t) := nextSequence type t in
    foldl (fun t dg => postDatagram dg t) t
      (frameDatagrams type keyframe (cf_sessionId (tr_config t)) frameSeq timestampNs data).

(** Header of an unfragmented datagram. *)
Definition smallHeader (type : UdpType) (flags sessionId sequence timestampNs size : Z) : UdpHeader :=
  mkUdpHeader kUdpMagic kUdpVersion type flags sessionId sequence 0 1 timestampNs (u16 size).

Definition smallDatagram (h : UdpHeader) (data : bytes) : bytes :=
  mem_put kUdpHeaderSize data (encodeUdpHeader h (replicate (kUdpHeaderSize + length data) 0)).

Definition sendSmall (type : UdpType) (data : bytes) (nowNs : Z) (t : UdpTransport) : UdpTransport :=
  if negb (canSend t) then t
  else
    let data := take kMaxUdpPayload data in
    let '(sequence, t) := nextSequence type t in
    let h := smallHeader type 0 (cf_sessionId (tr_config t)) sequence nowNs (zlen data) in
    postDatagram (smallDatagram h data) t.

Definition requestKeyframe (nowNs : Z) (t : UdpTransport) : UdpTransport :=
  sendSmall UdpKeyframeRequest [0] nowNs t.
Definition sendStreamStart (nowNs : Z) (t : UdpTransport) : UdpTransport :=
  sendSmall UdpStreamStart [0] nowNs t.
Definition sendStreamStop (nowNs : Z) (t : UdpTransport) : UdpTransport :=
  sendSmall UdpStreamStop [0] nowNs t.

(** "RPBIND" and up to 32 token characters in a zeroed 38-byte packet. *)
Definition sendRelayBind (token32hex : bytes) (t : UdpTransport) : UdpTransport :=
  if negb (canSend t) then t
  else
    let pkt := mem_put 6 (take 32 token32hex) (mem_put 0 (str "RPBIND") (replicate 38 0)) in
    post (TaskRelayBind (pe_peer (tr_peers t)) pkt) t.

Definition kPunch : Z := 0x50494d50.

Definition sendPunch (to : Endpoint) (t : UdpTransport) : UdpTransport :=
  if negb (tr_running t && tr_socket t) then t
  else
    let h := smallHeader UdpControl FlagFragment (cf_sessionId (tr_config t)) 0 0 4 in
    post (TaskPunch to (smallDatagram h (le_put 4 kPunch))) t.

(** The sealed form of a datagram: the payload is replaced by the sink's output
    and the header is rewritten for it. *)
Definition sealedDatagram (dg out : bytes) : bytes :=
  let h := snd (decodeUdpHeader dg (zlen dg) defaultUdpHeader) in
  let h := mkUdpHeader (uh_magic h) (uh_version h) (uh_type h) (u8 (Z.lor (uh_flags h) FlagEncrypted))
             (uh_sessionId h) (uh_sequence h) (uh_fragmentIndex h) (uh_fragmentCount h)
             (uh_timestampNs h) (u16 (zlen out)) in
  smallDatagram h out.

Definition socketSend (to : Endpoint) (dg : bytes) (ok : bool) (t : UdpTransport) : list Event * UdpTransport :=
  (if ok then [EvSend to dg] else [], withCounters (countSent ok (zlen dg) (tr_counters t)) t).

(** A failed relay-bind packet is counted, a successful one is not. *)
Definition relayBindSend (to : Endpoint) (pkt : bytes) (ok : bool) (t : UdpTransport) : list Event * UdpTransport :=
  if ok then ([EvSend to pkt], t)
  else ([], withCounters (countSent false 0 (tr_counters t)) t).

(** A closure on the io thread; [ok] is the outcome of [send_to]. *)
Definition runTask (task : Task) (ok : bool) (nowNs : Z) (t : UdpTransport) : list Event * UdpTransport :=
  match task with
  | TaskDatagram dg =>
      if negb (tr_socket t && pe_havePeer (tr_peers t)) then ([], t)
      else
        match tr_secure t with
        | Some s =>
            let '(out, s) := sink_seal dg (drop kUdpHeaderSize dg) s in
            let t := withSecure (Some s) t in
            match out with
            | None => ([], t)
            | Some out => socketSend (pe_peer (tr_peers t)) (sealedDatagram dg out) ok t
            end
        | None => socketSend (pe_peer (tr_peers t)) dg ok t
        end
  | TaskRelayBind target pkt => if negb (tr_socket t) then ([], t) else relayBindSend target pkt ok t
  | TaskPunch to dg => socketSend to dg ok t
  | TaskRequestKeyframe => ([], requestKeyframe nowNs t)
  end.

(** The io thread takes the oldest closure. *)
Definition runNext (ok : bool) (nowNs : Z) (t : UdpTransport) : list Event * UdpTransport :=
  match tr_tasks t with
  | [] => ([], t)
  | task :: rest => runTask task ok nowNs (withTasks rest t)
  end.

(** * Receiving *)

(** Clock readings of one handler call, in the order of the calls to
    [steadyNowNs()] that use them. *)
Record Clock := mkClock {
  ck_rx : Z; ck_arrival : Z; ck_send : Z; ck_rtt : Z; ck_check : Z; ck_keyframe : Z; ck_push : Z }.

(** A payload after the decryption step: dropped, or the header with the
    effective payload size and the payload. *)
Inductive Payload :=
| PayloadDropped (t : UdpTransport)
| PayloadClear (h : UdpHeader) (payload : bytes) (t : UdpTransport).

Definition isEncrypted (h : UdpHeader) : bool := negb (Z.land (uh_flags h) FlagEncrypted =? 0).

Definition withPayloadSize (h : UdpHeader) (size : Z) : UdpHeader :=
  mkUdpHeader (uh_magic h) (uh_version h) (uh_type h) (uh_flags h) (uh_sessionId h) (uh_sequence h)
    (uh_fragmentIndex h) (uh_fragmentCount h) (uh_timestampNs h) size.

Definition authDrop (t : UdpTransport) : UdpTransport := withCounters (countAuthDrop (tr_counters t)) t.

Definition decryptPayload (buf : bytes) (h : UdpHeader) (t : UdpTransport) : Payload :=
  if isEncrypted h then
    match tr_secure t with
    | None => PayloadDropped (authDrop t)
    | Some s =>
        let '(clear, s) := sink_open buf (take (Z.to_nat (uh_payloadSize h)) (drop kUdpHeaderSize buf)) s in
        let t := withSecure (Some s) t in
        match clear with
        | None => PayloadDropped (authDrop t)
        | Some clear => PayloadClear (withPayloadSize h (u16 (zlen clear))) clear t
        end
    end
  else if secureActive t then PayloadDropped (authDrop t)
  else PayloadClear h (drop kUdpHeaderSize buf) t.

(** Peer learning, and the switch to a direct path on an authenticated datagram. *)
Definition learnPeer (h : UdpHeader) (from : Endpoint) (t : UdpTransport) : UdpTransport :=
  let p := tr_peers t in
  if negb (pe_havePeer p) then setPeer from t
  else if secureActive t && isEncrypted h then
    if negb (bool_decide (pe_peer p = from)) &&
       (match pe_lockedRemote p with None => true | Some l => bool_decide (l = pe_peer p) end)
    then withPeers (mkPeers (pe_havePeer p) from (pe_lockedRemote p) (pe_relayFallback p)) t
    else t
  else t.

Definition unknownRemote (from : Endpoint) (t : UdpTransport) : bool :=
  cf_dropUnknownRemote (tr_config t) &&
  (match pe_lockedRemote (tr_peers t) with None => false | Some l => negb (bool_decide (l = from)) end).

(** EWMA of the arrival interval. *)
Definition updateArrival (now : Z) (m : MediaState) : MediaState :=
  let ewma :=
    if negb (md_lastArrivalNs m =? 0) && (md_lastArrivalNs m <? now) then
      let dev := dofZ (now - md_lastArrivalNs m) in
      if deqb (md_jitterEWMA m) dzero then dev
      else dadd (dmul (md_jitterEWMA m) d0_9) (dmul dev d0_1)
    else md_jitterEWMA m in
  mkMedia (md_videoReassembly m) (md_audioReassembly m) (md_inputReassembly m) (md_videoSeq m)
    (md_audioSeq m) (md_videoJitter m) (md_audioJitter m) ewma now (md_lastKeyframeReqNs m).

(** PONG: the round-trip time of the echoed clock reading. *)
Definition handlePong (h : UdpHeader) (payload : bytes) (ck : Clock) (t : UdpTransport) : UdpTransport :=
  if 12 <=? uh_payloadSize h then
    let sentNs := mem_get 0 8 payload in
    let rttMs := ddiv (dofZ (u64 (ck_rtt ck - sentNs))) d1e6 in
    if sentNs <=? ck_check ck then withCounters (recordRtt rttMs (tr_counters t)) t else t
  else t.

(** The video branch of the media path; the task asks for a keyframe. *)
Definition feedVideo (h : UdpHeader) (payload : bytes) (ck : Clock) (t : UdpTransport)
    : option AssembledFrame * UdpTransport + Undefined :=
  let m := tr_media t in
  let '(gap, vseq) := track (uh_sequence h) (md_videoSeq m) in
  match feed h payload (md_videoReassembly m) with
  | FedUB u => inr u
  | FedOk out r =>
      let wanted := (1 <? gap) && cf_autoKeyframeRequest (tr_config t) &&
                    (500000000 <? u64 (ck_keyframe ck - md_lastKeyframeReqNs m)) in
      let m := mkMedia (gc r) (md_audioReassembly m) (md_inputReassembly m) vseq (md_audioSeq m)
                 (md_videoJitter m) (md_audioJitter m) (md_jitterEWMA m) (md_lastArrivalNs m)
                 (if wanted then ck_keyframe ck else md_lastKeyframeReqNs m) in
      let t := withMedia m t in
      inl (out, if wanted then post TaskRequestKeyframe t else t)
  end.

Definition feedAudio (h : UdpHeader) (payload : bytes) (t : UdpTransport)
    : option AssembledFrame * UdpTransport + Undefined :=
  let m := tr_media t in
  let '(_, aseq) := track (uh_sequence h) (md_audioSeq m) in
  match feed h payload (md_audioReassembly m) with
  | FedUB u => inr u
  | FedOk out r =>
      inl (out, withMedia (mkMedia (md_videoReassembly m) (gc r) (md_inputReassembly m) (md_videoSeq m)
                 aseq (md_videoJitter m) (md_audioJitter m) (md_jitterEWMA m) (md_lastArrivalNs m)
                 (md_lastKeyframeReqNs m)) t)
  end.

Definition feedInput (h : UdpHeader) (payload : bytes) (t : UdpTransport)
    : option AssembledFrame * UdpTransport + Undefined :=
  let m := tr_media t in
  match feed h payload (md_inputReassembly m) with
  | FedUB u => inr u
  | FedOk out r =>
      inl (out, withMedia (mkMedia (md_videoReassembly m) (md_audioReassembly m) r (md_videoSeq m)
                 (md_audioSeq m) (md_videoJitter m) (md_audioJitter m) (md_jitterEWMA m)
                 (md_lastArrivalNs m) (md_lastKeyframeReqNs m)) t)
  end.

Definition handleMediaComplete (frame : AssembledFrame) (now : Z) (t : UdpTransport) : list Event * UdpTransport :=
  let m := tr_media t in
  if af_type frame =? UdpInput then
    ((if cf_inputCb (tr_config t) then [EvInput frame] else []), t)
  else if af_type frame =? UdpVideo then
    ([], withMedia (mkMedia (md_videoReassembly m) (md_audioReassembly m) (md_inputReassembly m)
           (md_videoSeq m) (md_audioSeq m)
           (push frame now (setTargetMs (cf_videoJitterTargetMs (tr_config t)) (md_videoJitter m)))
           (md_audioJitter m) (md_jitterEWMA m) (md_lastArrivalNs m) (md_lastKeyframeReqNs m)) t)
  else if af_type frame =? UdpAudio then
    ([], withMedia (mkMedia (md_videoReassembly m) (md_audioReassembly m) (md_inputReassembly m)
           (md_videoSeq m) (md_audioSeq m) (md_videoJitter m)
           (push frame now (setTargetMs (cf_audioJitterTargetMs (tr_config t)) (md_audioJitter m)))
           (md_jitterEWMA m) (md_lastArrivalNs m) (md_lastKeyframeReqNs m)) t)
  else ([], t).

(** The switch on the type, once the datagram is accepted. *)
Definition dispatch (h : UdpHeader) (payload : bytes) (ck : Clock) (t : UdpTransport) : Handled :=
  let type := uh_type h in
  let data := take (Z.to_nat (uh_payloadSize h)) payload in
  if type =? UdpPing then Handles [] (sendSmall UdpPong data (ck_send ck) t)
  else if type =? UdpPong then Handles [] (handlePong h payload ck t)
  else if (type =? UdpControl) || (type =? UdpKeyframeRequest) || (type =? UdpStreamStart) ||
          (type =? UdpStreamStop) then
    Handles (if cf_controlCb (tr_config t) then [EvControl type data] else []) t
  else
    let fed :=
      if type =? UdpVideo then feedVideo h payload ck t
      else if type =? UdpAudio then feedAudio h payload t
      else if type =? UdpInput then feedInput h payload t
      else inl (None, t) in
    match fed with
    | inr u => HandleUB u
    | inl (None, t) => Handles [] t
    | inl (Some frame, t) =>
        let '(evs, t) := handleMediaComplete frame (ck_push ck) t in Handles evs t
    end.

Definition handleDatagram (buf : bytes) (from : Endpoint) (ck : Clock) (t : UdpTransport) : Handled :=
  let t := withCounters (countReceived (zlen buf) (tr_counters t)) t in
  let '(valid, h) := decodeUdpHeader buf (zlen buf) defaultUdpHeader in
  if negb valid then Handles [] (withCounters (countMalformed (tr_counters t)) t)
  else if negb (cf_sessionId (tr_config t) =? 0) && negb (uh_sessionId h =? cf_sessionId (tr_config t)) then
    Handles [] (withCounters (countWrongSession (tr_counters t)) t)
  else
    match decryptPayload buf h (withLastRx (ck_rx ck) t) with
    | PayloadDropped t => Handles [] t
    | PayloadClear h payload t =>
        let t := learnPeer h from t in
        if unknownRemote from t then Handles [] t
        else dispatch h payload ck (withMedia (updateArrival (ck_arrival ck) (tr_media t)) t)
    end.

(** * Polling, pings, statistics, life cycle *)

Definition pollVideo (nowNs : Z) (t : UdpTransport) : list AssembledFrame * UdpTransport :=
  let m := tr_media t in
  let '(out, j) := pop nowNs (md_videoJitter m) in
  (out, withMedia (mkMedia (md_videoReassembly m) (md_audioReassembly m) (md_inputReassembly m)
          (md_videoSeq m) (md_audioSeq m) j (md_audioJitter m) (md_jitterEWMA m) (md_lastArrivalNs m)
          (md_lastKeyframeReqNs m)) t).

Definition pollAudio (nowNs : Z) (t : UdpTransport) : list AssembledFrame * UdpTransport :=
  let m := tr_media t in
  let '(out, j) := pop nowNs (md_audioJitter m) in
  (out, withMedia (mkMedia (md_videoReassembly m) (md_audioReassembly m) (md_inputReassembly m)
          (md_videoSeq m) (md_audioSeq m) (md_videoJitter m) j (md_jitterEWMA m) (md_lastArrivalNs m)
          (md_lastKeyframeReqNs m)) t).

(** The direct path has been silent for more than five seconds. *)
Definition fallBack (now : Z) (t : UdpTransport) : UdpTransport :=
  let p := tr_peers t in
  match pe_relayFallback p with
  | Some relay =>
      if pe_havePeer p && negb (bool_decide (pe_peer p = relay)) &&
         negb (tr_lastRxAbsNs t =? 0) && (5000000000 <? u64 (now - tr_lastRxAbsNs t))
      then withPeers (mkPeers (pe_havePeer p) relay (pe_lockedRemote p) (pe_relayFallback p)) t
      else t
  | None => t
  end.

Definition pingPayload (now seqn : Z) : bytes := le_put 8 now ++ le_put 4 seqn.

Definition sendPingOnce (nowCheck now nowSend : Z) (t : UdpTransport) : list Event * UdpTransport :=
  if negb (tr_running t) then ([], t)
  else
    let t := fallBack nowCheck t in
    let seqn := tr_pingSeq t in
    let t := withPing (u32 (seqn + 1)) (tr_pingIntervalMs t) t in
    let t := sendSmall UdpPing (pingPayload now seqn) nowSend t in
    ([EvArmPingTimer (tr_pingIntervalMs t)], t).

Definition startPings (intervalMs nowCheck now nowSend : Z) (t : UdpTransport) : list Event * UdpTransport :=
  if negb (tr_socket t && tr_running t) then ([], t)
  else sendPingOnce nowCheck now nowSend (withPing (tr_pingSeq t) intervalMs t).

(** The timer's handler. *)
Definition pingTimerFired (ec : bool) (nowCheck now nowSend : Z) (t : UdpTransport) : list Event * UdpTransport :=
  if ec || negb (tr_running t) || (tr_pingIntervalMs t =? 0) then ([], t)
  else sendPingOnce nowCheck now nowSend t.

Definition stopPings (t : UdpTransport) : UdpTransport := withPing (tr_pingSeq t) 0 t.

Record UdpStatsSnapshot := mkSnapshot {
  ss_counters : UdpCounters; ss_assembledFrames : Z; ss_droppedIncomplete : Z; ss_lostFrames : Z;
  ss_duplicates : Z; ss_lateFrames : Z; ss_reorderedFrames : Z; ss_jitterMs : double;
  ss_jitterTargetMs : Z; ss_jitterQueue : Z }.

Definition stats (t : UdpTransport) : UdpStatsSnapshot :=
  let m := tr_media t in
  mkSnapshot (tr_counters t)
    (u64 (ra_completed (md_videoReassembly m) + ra_completed (md_audioReassembly m)))
    (u64 (ra_droppedIncomplete (md_videoReassembly m) + ra_droppedIncomplete (md_audioReassembly m)))
    (u64 (st_lost (md_videoSeq m) + st_lost (md_audioSeq m)))
    (u64 (st_duplicates (md_videoSeq m) + st_duplicates (md_audioSeq m)))
    (u64 (st_late (md_videoSeq m) + st_late (md_audioSeq m)))
    (u64 (jb_reordered (md_videoJitter m) + jb_reordered (md_audioJitter m)))
    (ddiv (md_jitterEWMA m) d1e6) (cf_videoJitterTargetMs (tr_config t)) (zlen (jb_queue (md_videoJitter m))).

(** Counters of authentication drops, round-trip times and reassembly stay. *)
Definition resetStats (t : UdpTransport) : UdpTransport :=
  let c := tr_counters t in let m := tr_media t in
  withCounters (mkCounters 0 0 0 0 0 0 0 0 (ct_authDrops c) (ct_lastRttMs c) (ct_avgRttMs c))
    (withMedia (mkMedia (md_videoReassembly m) (md_audioReassembly m) (md_inputReassembly m)
       (resetTracker (md_videoSeq m)) (resetTracker (md_audioSeq m)) (resetJitter (md_videoJitter m))
       (resetJitter (md_audioJitter m)) dzero (md_lastArrivalNs m) (md_lastKeyframeReqNs m)) t).

(** Closures still queued run before the io thread ends. *)
Fixpoint drainTasks (fuel : nat) (oks : list bool) (nowNs : Z) (t : UdpTransport) : list Event * UdpTransport :=
  match fuel with
  | O => ([], t)
  | S fuel =>
      match tr_tasks t with
      | [] => ([], t)
      | _ =>
          let '(evs, t) := runNext (default false (head oks)) nowNs t in
          let '(evs', t) := drainTasks fuel (tail oks) nowNs t in (evs ++ evs', t)
      end
  end.

(** [stop()] on the io thread closes the socket and returns; anywhere else it
    waits for the io thread and releases the socket. *)
Definition stop (onIoThread : bool) (oks : list bool) (nowNs : Z) (t : UdpTransport) : list Event * UdpTransport :=
  if onIoThread then ([], withSocket false (tr_socket t) (tr_localPort t) t)
  else
    let t := withSocket false (tr_socket t) (tr_localPort t) t in
    let '(evs, t) := drainTasks (length (tr_tasks t)) oks nowNs t in
    (evs, withTasks [] (withSocket false false 0 t)).

(** [bind], given the port the system assigned, or its failure. *)
Definition bind (assigned : option Z) (oks : list bool) (nowNs : Z) (t : UdpTransport)
    : bool * (list Event * UdpTransport) :=
  let '(evs, t) := stop false oks nowNs t in
  match assigned with
  | Some port => (true, (evs, withSocket true true port t))
  | None => (false, (evs, withSocket false false (tr_localPort t) t))
  end.

End Transport.
