(* ===== verification/UdpTransportSpec.v ===== *)
(** What the datagram transport guarantees: theorems about UdpTransport.v, with
    the encryption interface of UdpCrypto.v and its implementation in
    SecureChannel.v. *)

From S2P Require Import Prelude Packet UdpHeader SequenceTracker Reassembler JitterBuffer.
From S2P Require Import Crypto UdpCrypto SecureChannel Double UdpTransport.

(** * Receiving *)

Section Receive.
Context {Endpoint : Type} `{EqDecision Endpoint} {Sink : Type} `{UdpCryptoSink Sink}.
Implicit Types t : UdpTransport (Endpoint := Endpoint) (Sink := Sink).

(** Everything but counters, clock and sink is as before. *)
Definition untouched t t' : Prop :=
  tr_peers t' = tr_peers t /\ tr_media t' = tr_media t /\ tr_tasks t' = tr_tasks t /\
  tr_config t' = tr_config t /\ tr_seqCounter t' = tr_seqCounter t /\ tr_running t' = tr_running t /\
  tr_socket t' = tr_socket t.

Lemma untouched_refl t : untouched t t.
Proof. by split_and!. Qed.

(** The wire payload a header announces. *)
Definition wirePayload (buf : bytes) (h : UdpHeader) : bytes :=
  take (Z.to_nat (uh_payloadSize h)) (drop kUdpHeaderSize buf).

(** The datagram was opened by the sink of the transport. *)
Definition opened (buf : bytes) (h : UdpHeader) t (clear : bytes) : Prop :=
  isEncrypted h = true /\
  exists s, tr_secure t = Some s /\ fst (sink_open buf (wirePayload buf h) s) = Some clear.

Inductive decrypt_case (buf : bytes) (h : UdpHeader) t : Payload -> Prop :=
| decrypt_dropped t' : untouched t t' -> decrypt_case buf h t (PayloadDropped t')
| decrypt_opened clear s' :
    opened buf h t clear ->
    decrypt_case buf h t (PayloadClear (withPayloadSize h (u16 (zlen clear))) clear (withSecure (Some s') t))
| decrypt_plain :
    isEncrypted h = false -> secureActive t = false ->
    decrypt_case buf h t (PayloadClear h (drop kUdpHeaderSize buf) t).

Lemma decrypt_cases buf h t : decrypt_case buf h t (decryptPayload buf h t).
Proof.
  unfold decryptPayload. destruct (isEncrypted h) eqn:Ee.
  - destruct (tr_secure t) as [s|] eqn:Es; [|by apply decrypt_dropped].
    destruct (sink_open buf _ s) as [[clear|] s'] eqn:Eo; [|by apply decrypt_dropped].
    apply decrypt_opened. split; [done|]. exists s. split; [done|]. unfold wirePayload. by rewrite Eo.
  - destruct (secureActive t) eqn:Ea; [by apply decrypt_dropped|by apply decrypt_plain].
Qed.

(** State after counting a datagram and noting its arrival. *)
Definition counted (buf : bytes) (ck : Clock) t : UdpTransport :=
  withLastRx (ck_rx ck) (withCounters (countReceived (zlen buf) (tr_counters t)) t).

Lemma untouched_counted buf ck t : untouched t (counted buf ck t).
Proof. by split_and!. Qed.

(** The stages of [handleDatagram]: rejection by format or session, rejection by
    the decryption step, rejection by source, or dispatch. *)
Inductive handle_case (buf : bytes) (from : Endpoint) (ck : Clock) t : Handled -> Prop :=
| handle_rejected t' : untouched t t' -> tr_secure t' = tr_secure t -> handle_case buf from ck t (Handles [] t')
| handle_undecrypted t' : untouched t t' -> handle_case buf from ck t (Handles [] t')
| handle_cleared h h' payload t1 :
    decodeUdpHeader buf (zlen buf) defaultUdpHeader = (true, h) ->
    cf_sessionId (tr_config t) = 0 \/ uh_sessionId h = cf_sessionId (tr_config t) ->
    decryptPayload buf h (counted buf ck t) = PayloadClear h' payload t1 ->
    let t2 := learnPeer h' from t1 in
    handle_case buf from ck t
      (if unknownRemote from t2 then Handles [] t2
       else dispatch h' payload ck (withMedia (updateArrival (ck_arrival ck) (tr_media t2)) t2)).

Lemma handle_cases buf from ck t : handle_case buf from ck t (handleDatagram buf from ck t).
Proof.
  unfold handleDatagram.
  destruct (decodeUdpHeader buf (zlen buf) defaultUdpHeader) as [[] h] eqn:Ed; cbn [negb];
    [|by apply handle_rejected].
  destruct (negb (cf_sessionId (tr_config _) =? 0) && _) eqn:Es; [by apply handle_rejected|].
  fold (counted buf ck t). pose proof (decrypt_cases buf h (counted buf ck t)) as C.
  destruct (decryptPayload buf h (counted buf ck t)) as [t'|h' payload t1] eqn:Ep.
  - apply handle_undecrypted. inversion C as [? U| |]; subst. exact U.
  - eapply (handle_cleared _ _ _ _ h h' payload t1); [done| |done].
    cbn [withCounters tr_config] in Es. b2p. destruct Es; b2p; tauto.
Qed.

(** ** What dispatch leaves alone *)

(** Peers, configuration, sink, and the socket. *)
Definition sameFrame t t' : Prop :=
  tr_peers t' = tr_peers t /\ tr_config t' = tr_config t /\ tr_secure t' = tr_secure t /\
  tr_running t' = tr_running t /\ tr_socket t' = tr_socket t.

Lemma sendSmall_frame type data now t : sameFrame t (sendSmall type data now t).
Proof. unfold sendSmall. by destruct (negb (canSend t)). Qed.

Lemma dispatch_frame h payload ck t evs t' :
  dispatch h payload ck t = Handles evs t' -> sameFrame t t'.
Proof.
  unfold dispatch. intros E.
  destruct (uh_type h =? UdpPing).
  { injection E as <- <-. apply sendSmall_frame. }
  destruct (uh_type h =? UdpPong).
  { injection E as <- <-. unfold handlePong. by repeat break_goal. }
  destruct (_ || _ || _ || _); [by injection E as <- <-|].
  assert (G : forall o t1, (if uh_type h =? UdpVideo then feedVideo h payload ck t
      else if uh_type h =? UdpAudio then feedAudio h payload t
      else if uh_type h =? UdpInput then feedInput h payload t else inl (None, t)) = inl (o, t1) ->
      sameFrame t t1).
  { intros o t1 Ef. unfold feedVideo, feedAudio, feedInput in Ef.
    repeat (break_hyp Ef; try discriminate Ef); apply (inj inl) in Ef; apply pair_eq in Ef as [_ <-];
      by try break_goal. }
  destruct (if uh_type h =? UdpVideo then _ else _) as [[[frame|] t1]|u] eqn:Ef; [| |discriminate E].
  - specialize (G _ _ eq_refl). unfold handleMediaComplete in E.
    repeat (break_hyp E; try discriminate E); by injection E as <- <-.
  - injection E as <- <-. by apply (G _ _ eq_refl).
Qed.

(** [learnPeer] changes the peer only. *)
Lemma learnPeer_same h from t :
  tr_config (learnPeer h from t) = tr_config t /\ tr_secure (learnPeer h from t) = tr_secure t /\
  tr_media (learnPeer h from t) = tr_media t /\ tr_tasks (learnPeer h from t) = tr_tasks t /\
  pe_lockedRemote (tr_peers (learnPeer h from t)) = pe_lockedRemote (tr_peers t).
Proof. unfold learnPeer. by repeat break_goal. Qed.

Lemma learnPeer_peer h from t :
  pe_havePeer (tr_peers t) = true -> pe_peer (tr_peers (learnPeer h from t)) <> pe_peer (tr_peers t) ->
  pe_peer (tr_peers (learnPeer h from t)) = from /\ secureActive t = true /\ isEncrypted h = true /\
  (pe_lockedRemote (tr_peers t) = None \/ pe_lockedRemote (tr_peers t) = Some (pe_peer (tr_peers t))).
Proof.
  unfold learnPeer. intros -> Hne. cbn [negb] in *.
  destruct (secureActive t && isEncrypted h) eqn:E1; [|done]. b2p.
  destruct (negb (bool_decide _) && _) eqn:E2; [|done]. b2p. split_and!; try done.
  destruct (pe_lockedRemote (tr_peers t)) as [l|]; [|by left]. b2p. subst l. by right.
Qed.

End Receive.

(** ** A concrete transport for the witnesses *)

Abbreviation ZTransport := (UdpTransport (Endpoint := Z) (Sink := SecureChannel)).

(** Used where no other primitives are in scope. *)
#[export] Instance toySink : UdpCryptoSink SecureChannel | 100 := @SecureChannel_sink Toy.cng.

Definition sample_transport (secure : option SecureChannel) : ZTransport :=
  withConfig (mkConfig 9 true true 30 30 true true)
    (withSecure secure (setPeer 77 (withSocket true true 5000 (newTransport 0)))).

Definition sample_clock : Clock := mkClock 100 100 100 100 100 100 100.

(** An INPUT datagram of session 9. *)
Definition sample_datagram : bytes :=
  smallDatagram (smallHeader UdpInput 0 9 3 55 2) [21; 22].

(** C12: the receive path fails closed: once the session keys are active, whatever
    datagram arrives from wherever, either nothing happens beyond counting it (no
    callback, no reply, no media, peer or queue change), or it was flagged as
    encrypted, belongs to the session, and was opened by the channel. *)
Theorem receive_fails_closed {Endpoint : Type} `{EqDecision Endpoint} {Sink : Type} `{UdpCryptoSink Sink}
  buf from ck (t : UdpTransport (Endpoint := Endpoint) (Sink := Sink))
  (Hs : secureActive t = true) :
  (exists t', handleDatagram buf from ck t = Handles [] t' /\ untouched t t') \/
  (exists h clear, decodeUdpHeader buf (zlen buf) defaultUdpHeader = (true, h) /\
     (cf_sessionId (tr_config t) = 0 \/ uh_sessionId h = cf_sessionId (tr_config t)) /\
     opened buf h t clear).
Proof.
  destruct (handle_cases buf from ck t) as [t' U _|t' U|h h' payload t1 Ed Hsid Ep t2].
  - left. by exists t'.
  - left. by exists t'.
  - right. exists h. pose proof (decrypt_cases buf h (counted buf ck t)) as C. rewrite Ep in C.
    inversion C as [|clear s' Ho|Hn Ha]; subst.
    + exists payload. by split_and!.
    + unfold secureActive in *. cbn in Ha. by rewrite Hs in Ha.
Qed.

Lemma receive_fails_closed_witness :
  exists t', handleDatagram sample_datagram 77 sample_clock (sample_transport (Some (sample_channel 1)))
    = Handles [] t' /\ untouched (sample_transport (Some (sample_channel 1))) t'.
Proof.
  destruct (receive_fails_closed sample_datagram 77 sample_clock
    (sample_transport (Some (sample_channel 1)))) as [H|(h & clear & Ed & _ & He & _)].
  - reflexivity.
  - exact H.
  - exfalso. revert Ed. vm_compute. intros Ed. injection Ed as <-. discriminate He.
Defined.

(** A locked transport listens to its remote only: with the source check on, a
    datagram from any other endpoint triggers no callback and no reply and leaves
    the media state and the send queue alone, even when it decrypts. *)
Theorem locked_remote_filters {Endpoint : Type} `{EqDecision Endpoint} {Sink : Type} `{UdpCryptoSink Sink}
  buf from ck (t : UdpTransport (Endpoint := Endpoint) (Sink := Sink)) remote
  (Hd : cf_dropUnknownRemote (tr_config t) = true)
  (Hl : pe_lockedRemote (tr_peers t) = Some remote) (Hf : from <> remote) :
  exists t', handleDatagram buf from ck t = Handles [] t' /\
    tr_media t' = tr_media t /\ tr_tasks t' = tr_tasks t /\
    pe_lockedRemote (tr_peers t') = Some remote.
Proof.
  destruct (handle_cases buf from ck t) as [t' U _|t' U|h h' payload t1 Ed Hsid Ep t2].
  - exists t'. destruct U as (-> & -> & -> & _). done.
  - exists t'. destruct U as (-> & -> & -> & _). done.
  - assert (U : untouched (counted buf ck t) t1).
    { pose proof (decrypt_cases buf h (counted buf ck t)) as C. rewrite Ep in C.
      inversion C; subst; by split_and!. }
    destruct U as (Up & Um & Ut & Uc & _). destruct (learnPeer_same h' from t1) as (Lc & _ & Lm & Lt & Ll).
    exists t2. subst t2. unfold unknownRemote. rewrite Lc, Ll, Uc, Up. cbn [counted withLastRx withCounters tr_config tr_peers].
    rewrite Hd, Hl, (bool_decide_eq_false_2 (remote = from)) by congruence. cbn [negb andb].
    rewrite Lm, Lt, Um, Ut. done.
Qed.

Lemma locked_remote_filters_witness :
  exists t', handleDatagram sample_datagram 5 sample_clock (lockToRemote 77 (sample_transport None))
    = Handles [] t' /\ tr_media t' = newMedia /\ tr_tasks t' = [] /\
    pe_lockedRemote (tr_peers t') = Some 77.
Proof.
  apply (locked_remote_filters sample_datagram 5 sample_clock (lockToRemote 77 (sample_transport None)) 77).
  - reflexivity.
  - reflexivity.
  - discriminate.
Defined.

(** C35: once a peer is known, a datagram redirects the outgoing traffic only if it
    was opened by the channel, and then to its own source; a transport locked to
    another endpoint than its peer never redirects. *)
Theorem peer_redirect_authenticated {Endpoint : Type} `{EqDecision Endpoint} {Sink : Type} `{UdpCryptoSink Sink}
  buf from ck (t : UdpTransport (Endpoint := Endpoint) (Sink := Sink)) evs t'
  (Hp : pe_havePeer (tr_peers t) = true) (Hh : handleDatagram buf from ck t = Handles evs t')
  (Hne : pe_peer (tr_peers t') <> pe_peer (tr_peers t)) :
  pe_peer (tr_peers t') = from /\
  (pe_lockedRemote (tr_peers t) = None \/ pe_lockedRemote (tr_peers t) = Some (pe_peer (tr_peers t))) /\
  exists h clear, decodeUdpHeader buf (zlen buf) defaultUdpHeader = (true, h) /\ opened buf h t clear.
Proof.
  destruct (handle_cases buf from ck t) as [t1 U _|t1 U|h h' payload t1 Ed Hsid Ep t2].
  1, 2: injection Hh as <- <-; destruct U as (Eq & _); congruence.
  pose proof (decrypt_cases buf h (counted buf ck t)) as C. rewrite Ep in C.
  assert (Ht' : tr_peers t' = tr_peers t2).
  { destruct (unknownRemote from t2); [by injection Hh as <- <-|].
    apply dispatch_frame in Hh as (-> & _). done. }
  rewrite Ht' in Hne. subst t2.
  assert (Hp1 : tr_peers t1 = tr_peers t) by (by inversion C).
  rewrite <- Hp1 in Hp, Hne.
  destruct (learnPeer_peer h' from t1 Hp Hne) as (Ef & Ha & He & Hl). rewrite Hp1 in *.
  rewrite Ht'. split_and!; [done|done|]. exists h.
  inversion C as [|clear s' Ho|Hn Ha']; subst; [by exists payload|congruence].
Qed.

(** A datagram sealed for the header it travels with, as the peer would have to
    send it to be heard (zero key: see [sample_channel]). *)
Definition sealed_header : UdpHeader := mkUdpHeader kUdpMagic kUdpVersion UdpInput FlagEncrypted 9 3 0 1 55 25.
Definition sealed_datagram : bytes :=
  header_bytes sealed_header ++ sample_sealed 0 (header_bytes sealed_header) [7].

Lemma peer_redirect_authenticated_witness :
  exists t', handleDatagram sealed_datagram 5 sample_clock (sample_transport (Some (sample_channel 0)))
    = Handles [EvInput (mkAssembledFrame UdpInput 9 3 55 false [7])] t' /\ pe_peer (tr_peers t') = 5.
Proof.
  eexists. split; [vm_compute; reflexivity|].
  refine (proj1 (peer_redirect_authenticated sealed_datagram 5 sample_clock
    (sample_transport (Some (sample_channel 0))) [EvInput (mkAssembledFrame UdpInput 9 3 55 false [7])] _ _ _ _)).
  - reflexivity.
  - vm_compute. reflexivity.
  - vm_compute. discriminate.
Defined.

(** * Sending *)

Lemma smallDatagram_bytes h data : smallDatagram h data = header_bytes h ++ data.
Proof.
  unfold smallDatagram. rewrite encodeUdpHeader_bytes by (rewrite length_replicate; lia).
  rewrite (mem_put_app kUdpHeaderSize (header_bytes h)).
  - rewrite <- app_assoc, drop_ge, app_nil_r; [done|]. rewrite length_drop, length_replicate. lia.
  - apply header_bytes_length.
  - rewrite length_drop, length_replicate. lia.
Qed.

Lemma drop_header h data : drop kUdpHeaderSize (header_bytes h ++ data) = data.
Proof. rewrite <- (header_bytes_length h). apply drop_app_length. Qed.

(** The send path fails closed: while a sink is installed, every media or
    control datagram that reaches the socket is the sealed form of the queued one
    and goes to the current peer; a sink without keys lets nothing out. *)
Theorem send_fails_closed {Endpoint : Type} `{EqDecision Endpoint} {Sink : Type} `{UdpCryptoSinkLaws Sink}
  dg ok now (t : UdpTransport (Endpoint := Endpoint) (Sink := Sink)) s (Hs : tr_secure t = Some s) :
  let evs := fst (runTask (TaskDatagram dg) ok now t) in
  (sink_active s = false -> evs = []) /\
  (forall ev, ev ∈ evs -> exists out, fst (sink_seal dg (drop kUdpHeaderSize dg) s) = Some out /\
     ev = EvSend (pe_peer (tr_peers t)) (sealedDatagram dg out)).
Proof.
  intros evs. subst evs. cbn [runTask]. rewrite Hs.
  destruct (negb (tr_socket t && pe_havePeer (tr_peers t))).
  { split; [done|]. by intros ev ?%not_elem_of_nil. }
  pose proof (sink_seal_inactive dg (drop kUdpHeaderSize dg) s) as L.
  destruct (sink_seal dg (drop kUdpHeaderSize dg) s) as [[out|] s'] eqn:E; cbn [fst] in *.
  - split; [by intros Ha; specialize (L Ha)|]. intros ev Hev. exists out. split; [done|].
    unfold socketSend in Hev. cbn [withSecure tr_peers fst] in Hev. destruct ok; cbn [fst] in Hev.
    + by apply list_elem_of_singleton in Hev.
    + by apply not_elem_of_nil in Hev.
  - split; [done|]. by intros ev ?%not_elem_of_nil.
Qed.

Lemma send_fails_closed_witness :
  fst (runTask (TaskDatagram sample_datagram) true 0 (sample_transport (Some newChannel))) = [].
Proof.
  refine (proj1 (@send_fails_closed Z _ SecureChannel toySink (@SecureChannel_sink_laws Toy.cng)
    sample_datagram true 0 (sample_transport (Some newChannel)) newChannel _) _); reflexivity.
Defined.

(** The header of the sealed form. *)
Definition sealedHeader (h : UdpHeader) (out : bytes) : UdpHeader :=
  mkUdpHeader (uh_magic h) (uh_version h) (uh_type h) (u8 (Z.lor (uh_flags h) FlagEncrypted))
    (uh_sessionId h) (uh_sequence h) (uh_fragmentIndex h) (uh_fragmentCount h) (uh_timestampNs h)
    (u16 (zlen out)).

Lemma sealedDatagram_bytes h p out :
  header_typed h -> header_valid h -> uh_payloadSize h = zlen p ->
  sealedDatagram (header_bytes h ++ p) out = header_bytes (sealedHeader h out) ++ out.
Proof.
  intros Ht Hv Hp. unfold sealedDatagram. rewrite decode_header_bytes by (done || lia).
  apply smallDatagram_bytes.
Qed.

Lemma sealedHeader_ok h out :
  header_typed h -> header_valid h -> header_typed (sealedHeader h out) /\ header_valid (sealedHeader h out).
Proof.
  intros (?&?&?&?&?&?&?&?&?&?) (?&?&?&?&?).
  split; unfold header_typed, header_valid; cbn [uh_magic uh_version uh_type uh_flags uh_sessionId uh_sequence
    uh_fragmentIndex uh_fragmentCount uh_timestampNs uh_payloadSize sealedHeader]; split_and!;
    auto using u8_fits, u16_fits; lia.
Qed.

Lemma sealedHeader_encrypted h out : isEncrypted (sealedHeader h out) = true.
Proof.
  unfold isEncrypted. apply negb_true_iff, Z.eqb_neq. cbn [sealedHeader uh_flags].
  unfold u8, FlagEncrypted. rewrite <- Z.land_ones, <- Z.land_assoc by lia.
  change (Z.land (Z.ones 8) 4) with 4. rewrite Z.land_lor_distr_l, Z.land_diag.
  intros E. apply Z.lor_eq_0_iff in E as [_ E]. discriminate E.
Qed.

(** Marking a header as encrypted changes the associated data. *)
Lemma sealedHeader_aad h p p' out :
  header_typed h -> header_valid h -> isEncrypted h = false ->
  take kAadLen (header_bytes h ++ p) <> take kAadLen (header_bytes (sealedHeader h out) ++ p').
Proof.
  intros Ht Hv He E. destruct (sealedHeader_ok h out Ht Hv) as [Ht' _].
  pose proof (header_fields h p Ht) as F. pose proof (header_fields (sealedHeader h out) p' Ht') as F'.
  cbn zeta in F, F'. destruct F as (_ & _ & _ & F & _). destruct F' as (_ & _ & _ & F' & _).
  assert (N : forall l : bytes, byte_at (take kAadLen l) 4 = byte_at l 4).
  { intros l. unfold byte_at. rewrite !nth_lookup, lookup_take_lt; [done|unfold kAadLen; lia]. }
  assert (Ef : uh_flags h = uh_flags (sealedHeader h out)) by (rewrite <- F, <- F', <- N, E, N; done).
  pose proof (sealedHeader_encrypted h out) as Henc. unfold isEncrypted in *. congruence.
Qed.

(** No encrypted datagram is ever accepted: the sender authenticates the
    header as it is before the payload is sealed, then sets the encrypted flag and
    the payload size in it; the receiver authenticates the header it got. With an
    authenticated cipher the two never match, so every datagram sent with session
    keys is dropped by the peer that holds the same keys. *)
Theorem sealed_datagram_dropped `{CNG, !CNGLaws, !GcmBinding} {Endpoint : Type} `{EqDecision Endpoint}
  h p ok now (a b : UdpTransport (Endpoint := Endpoint) (Sink := SecureChannel)) s r to dg from ck
  (Ht : header_typed h) (Hv : header_valid h) (Hp : uh_payloadSize h = zlen p) (Hlen : zlen p <= 1100)
  (Hplain : isEncrypted h = false)
  (Hs : tr_secure a = Some s) (Hr : tr_secure b = Some r) (Hk : sc_recvKey r = sc_sendKey s)
  (Hsend : EvSend to dg ∈ fst (runTask (TaskDatagram (header_bytes h ++ p)) ok now a)) :
  exists b', handleDatagram dg from ck b = Handles [] b' /\ untouched b b'.
Proof.
  cbn [runTask] in Hsend. rewrite Hs in Hsend.
  destruct (negb (tr_socket a && pe_havePeer (tr_peers a))); [by apply not_elem_of_nil in Hsend|].
  rewrite drop_header in Hsend. cbn [sink_seal SecureChannel_sink] in Hsend.
  destruct (seal_cases (header_bytes h ++ p) p s) as [(ct & tag & E & _ & _ & Henc & _)|[E _]];
    destruct (seal (header_bytes h ++ p) p s) as [out s']; cbn [fst] in E; subst out;
    [|by apply not_elem_of_nil in Hsend].
  assert (dg = sealedDatagram (header_bytes h ++ p) (ct ++ tag)) as ->.
  { unfold socketSend in Hsend. destruct ok; cbn [fst] in Hsend.
    - apply list_elem_of_singleton in Hsend. by injection Hsend as _ ->.
    - by apply not_elem_of_nil in Hsend. }
  clear Hsend. rewrite sealedDatagram_bytes by done. set (w := ct ++ tag) in *.
  destruct (cng_gcm_length _ _ _ _ _ _ Henc) as [Lc Lt]. rewrite length_app, le_put_length in Lc.
  assert (Lw : length w = (24 + length p)%nat) by (subst w; rewrite length_app, Lc, Lt; lia).
  destruct (sealedHeader_ok h w Ht Hv) as [Ht' Hv'].
  assert (Hps : uh_payloadSize (sealedHeader h w) = zlen w) by (cbn; apply u16_id; widths; lia).
  destruct (handle_cases (header_bytes (sealedHeader h w) ++ w) from ck b) as [t' U _|t' U|h0 h' pl t1 Ed _ Ep t2];
    [by exists t'|by exists t'|exfalso].
  rewrite decode_header_bytes in Ed by (done || lia). apply pair_eq in Ed as [_ <-].
  pose proof (decrypt_cases (header_bytes (sealedHeader h w) ++ w) (sealedHeader h w)
    (counted (header_bytes (sealedHeader h w) ++ w) ck b)) as C. rewrite Ep in C.
  inversion C as [|clear s'' (_ & s0 & Es0 & Ho)|Hn Ha]; subst.
  - cbn [counted withLastRx withCounters tr_secure] in Es0. rewrite Hr in Es0. injection Es0 as <-.
    unfold wirePayload in Ho. rewrite drop_header, Hps, Nat2Z.id, take_ge in Ho by lia.
    cbn [sink_open SecureChannel_sink] in Ho.
    destruct (openSealed_cases (header_bytes (sealedHeader h w) ++ w) w r)
      as [(pt & _ & _ & _ & _ & _ & _ & Hd)|[En _]]; [|by rewrite En in Ho].
    apply cng_gcm_authentic in Hd.
    replace (length w - kGcmTagBytes)%nat with (length ct) in Hd
      by (subst w; rewrite length_app, Lt; unfold kGcmTagBytes; lia).
    subst w. rewrite take_app_length, drop_app_length, Hk in Hd.
    destruct (gcm_binding _ _ _ _ _ _ _ _ _ Hd Henc) as [_ Ea].
    by apply (sealedHeader_aad h p (ct ++ tag) (ct ++ tag) Ht Hv Hplain).
  - by rewrite sealedHeader_encrypted in Hn.
Qed.

Definition plain_header : UdpHeader := smallHeader UdpInput 0 9 3 55 1.

Lemma sealed_datagram_dropped_witness :
  exists b', handleDatagram (sealedDatagram (header_bytes plain_header ++ [7])
                               (sample_sealed 0x5A (header_bytes plain_header ++ [7]) [7]))
               5 sample_clock (sample_transport (Some (sample_channel 0x5A))) = Handles [] b' /\
    untouched (sample_transport (Some (sample_channel 0x5A))) b'.
Proof.
  apply (@sealed_datagram_dropped Toy.cng Toy.cng_laws Toy.cng_binding Z _ plain_header [7] true 0
    (sample_transport (Some (sample_channel 0x5A))) (sample_transport (Some (sample_channel 0x5A)))
    (sample_channel 0x5A) (sample_channel 0x5A) 77).
  - by_decision.
  - by_decision.
  - reflexivity.
  - by_decision.
  - reflexivity.
  - reflexivity.
  - reflexivity.
  - reflexivity.
  - apply list_elem_of_singleton. vm_compute. reflexivity.
Defined.

(** * End to end *)

Section Loopback.
Context {Endpoint : Type} `{EqDecision Endpoint} {Sink : Type} `{UdpCryptoSink Sink}.
Implicit Types t : UdpTransport (Endpoint := Endpoint) (Sink := Sink).

(** Datagrams from one source, handled in turn. *)
Fixpoint handleAll (dgs : list bytes) (from : Endpoint) (ck : Clock) t : option (list Event * UdpTransport) :=
  match dgs with
  | [] => Some ([], t)
  | dg :: dgs =>
      match handleDatagram dg from ck t with
      | HandleUB _ => None
      | Handles evs t => '(evs', t) ← handleAll dgs from ck t; Some (evs ++ evs', t)
      end
  end.

(** A receiver without encryption that accepts what [from] sends in session [sid]. *)
Definition hears (sid : Z) (from : Endpoint) t : Prop :=
  tr_secure t = None /\
  (cf_sessionId (tr_config t) = 0 \/ cf_sessionId (tr_config t) = sid) /\
  (cf_dropUnknownRemote (tr_config t) = false \/ pe_lockedRemote (tr_peers t) = None \/
   pe_lockedRemote (tr_peers t) = Some from).

Lemma hears_media sid from m t : hears sid from t -> hears sid from (withMedia m t).
Proof. done. Qed.

(** It also has an input callback. *)
Definition listening (sid : Z) (from : Endpoint) t : Prop :=
  hears sid from t /\ cf_inputCb (tr_config t) = true.

Definition inputReassembly t : FragmentReassembler := md_inputReassembly (tr_media t).

(** What sending depends on is the same, once there is a peer. *)
Definition sameSender t t' : Prop :=
  tr_tasks t' = tr_tasks t /\ tr_seqCounter t' = tr_seqCounter t /\ tr_config t' = tr_config t /\ tr_secure t' = tr_secure t /\
  (canSend t = true -> canSend t' = true /\ tr_peers t' = tr_peers t).

Lemma learnPeer_sender h from t : secureActive t = false -> sameSender t (learnPeer h from t).
Proof.
  intros Hs. unfold sameSender, learnPeer. rewrite Hs. cbn [andb].
  destruct (pe_havePeer (tr_peers t)) eqn:Hp; cbn [negb]; [by split_and!|]. split_and!; try done.
  unfold canSend. by rewrite Hp, andb_false_r.
Qed.

(** A valid datagram in the clear is exactly one dispatch of its header and payload. *)
Lemma handle_clear h p from ck t :
  header_typed h -> header_valid h -> isEncrypted h = false -> uh_payloadSize h = zlen p ->
  hears (uh_sessionId h) from t ->
  exists t', handleDatagram (header_bytes h ++ p) from ck t = dispatch h p ck t' /\
    hears (uh_sessionId h) from t' /\ tr_config t' = tr_config t /\
    tr_media t' = updateArrival (ck_arrival ck) (tr_media t) /\ sameSender t t'.
Proof.
  intros Ht Hv He Hp (L1 & L3 & L4). unfold handleDatagram.
  rewrite decode_header_bytes by (done || lia). cbn [negb withCounters tr_config].
  replace (negb (cf_sessionId (tr_config t) =? 0) && negb (uh_sessionId h =? cf_sessionId (tr_config t)))
    with false.
  2:{ symmetry. destruct L3 as [-> | ->]; [done|]. by rewrite Z.eqb_refl, andb_false_r. }
  unfold decryptPayload. rewrite He. unfold secureActive.
  cbn [withLastRx withCounters tr_secure]. rewrite L1, drop_header.
  set (t1 := withLastRx _ _). destruct (learnPeer_same h from t1) as (Lc & Ls & Lm & _ & Ll).
  set (t2 := learnPeer h from t1) in *.
  assert (Hu : unknownRemote from t2 = false).
  { unfold unknownRemote. rewrite Lc, Ll. subst t1. cbn [withLastRx withCounters tr_config tr_peers].
    destruct L4 as [-> |[-> | ->]]; [done|by rewrite andb_false_r|].
    by rewrite bool_decide_eq_true_2, andb_false_r. }
  rewrite Hu. assert (Hs : sameSender t1 t2) by (apply learnPeer_sender; unfold secureActive; subst t1; cbn; by rewrite L1).
  eexists. split; [done|]. unfold hears. cbn [withMedia tr_secure tr_config tr_peers tr_media].
  rewrite Ls, Lc, Lm, Ll. split_and!; try done.
Qed.

(** An INPUT datagram in the clear is exactly one step of the reassembler. *)
Lemma handle_input h p from ck t out r :
  header_typed h -> header_valid h -> uh_type h = UdpInput -> isEncrypted h = false ->
  uh_payloadSize h = zlen p -> listening (uh_sessionId h) from t ->
  feed h p (inputReassembly t) = FedOk out r -> (forall f, out = Some f -> af_type f = UdpInput) ->
  exists t', handleDatagram (header_bytes h ++ p) from ck t =
      Handles (match out with Some f => [EvInput f] | None => [] end) t' /\
    listening (uh_sessionId h) from t' /\ inputReassembly t' = r.
Proof.
  intros Ht Hv Hty He Hp [L1 L2] Hf Ho.
  destruct (handle_clear h p from ck t Ht Hv He Hp L1) as (t1 & -> & L1' & Lc & Lm & _).
  unfold dispatch. rewrite Hty. cbn [Z.eqb UdpInput UdpPing UdpPong UdpControl UdpKeyframeRequest
    UdpStreamStart UdpStreamStop UdpVideo UdpAudio orb Pos.eqb].
  unfold feedInput. rewrite Lm. cbn [updateArrival md_inputReassembly]. fold (inputReassembly t). rewrite Hf.
  assert (Hl : forall m, listening (uh_sessionId h) from (withMedia m t1)).
  { intros m. split; [by apply hears_media|]. cbn [withMedia tr_config]. by rewrite Lc. }
  destruct out as [f|].
  - unfold handleMediaComplete. rewrite (Ho f eq_refl). cbn [Z.eqb UdpInput Pos.eqb withMedia tr_config].
    rewrite Lc, L2. eexists. split; [done|]. split; [apply Hl|done].
  - eexists. split; [done|]. split; [apply Hl|done].
Qed.

(** The remaining fragments of a tracked frame, each once, in any order. *)
Lemma handleAll_frame kf sid seqn ts data from ck ord : forall t S,
  1100 < zlen data <= 1024 * 1100 -> fits 32 sid -> fits 64 seqn -> fits 64 ts ->
  listening sid from t -> tracked kf seqn ts data S (inputReassembly t) ->
  dom (ra_frames (inputReassembly t)) ⊆ {[seqn]} ->
  NoDup ord -> (forall i, i ∈ ord -> Z.of_nat i < nfrags data /\ i ∉ S) -> ord <> [] ->
  allArrived data (ord ++ S) ->
  exists t', handleAll ((fun i => header_bytes (fst (frag UdpInput kf sid seqn ts data i)) ++
                                  snd (frag UdpInput kf sid seqn ts data i)) <$> ord) from ck t
    = Some ([EvInput (theFrame UdpInput kf sid seqn ts data)], t').
Proof.
  induction ord as [|i ord IH]; intros t S Hsize Hsid Hsq Hts Hl Ht Hd Hnd Hin Hne Hall; [done|].
  apply list.NoDup_cons in Hnd as [Hi Hnd]. rewrite fmap_cons. cbn [handleAll].
  destruct (Hin i ltac:(apply list_elem_of_here)) as [Hib HiS].
  destruct (frag_header_ok UdpInput kf sid seqn ts data Hsize i) as [Hty Hva]; try done.
  destruct (frag_payload UdpInput kf sid seqn ts data Hsize i Hib) as [_ Lp].
  destruct (frag_payloadSize UdpInput kf sid seqn ts data Hsize i Hib) as (Eps & _ & _).
  assert (Hplain : isEncrypted (fst (frag UdpInput kf sid seqn ts data i)) = false)
    by (unfold isEncrypted; cbn [fst frag uh_flags fragmentHeader]; destruct kf, (1 <? nfrags data); done).
  assert (Step : forall out r, feed (fst (frag UdpInput kf sid seqn ts data i)) (snd (frag UdpInput kf sid seqn ts data i))
      (inputReassembly t) = FedOk out r -> (forall f, out = Some f -> af_type f = UdpInput) ->
      exists t', handleDatagram (header_bytes (fst (frag UdpInput kf sid seqn ts data i)) ++
                                 snd (frag UdpInput kf sid seqn ts data i)) from ck t =
        Handles (match out with Some f => [EvInput f] | None => [] end) t' /\
        listening sid from t' /\ inputReassembly t' = r)
    by (intros out r Ef Ho; apply handle_input; done || (by rewrite Eps, Lp)).
  destruct (tracked_own UdpInput kf sid seqn ts data Hsize i S (inputReassembly t) Hib Ht)
    as [(r & Ef & Ha)|(r & Ef & Ht' & Hna & Hd')].
  { intros Hn. apply not_elem_of_dom in Hn.
    assert (Hsub : dom (ra_frames (inputReassembly t)) ⊆ ∅) by (clear -Hd Hn; set_solver).
    apply subseteq_size in Hsub. rewrite size_empty, size_dom in Hsub. unfold kMaxInFlight. lia. }
  - destruct (Step _ _ Ef ltac:(by intros f [= <-])) as (t' & -> & _ & _).
    assert (ord = []) as ->.
    { destruct ord as [|j ord]; [done|].
      destruct (Hin j ltac:(apply list_elem_of_further, list_elem_of_here)) as [Hj HjS].
      specialize (Ha j Hj). apply elem_of_cons in Ha as [->|]; [|done].
      exfalso. apply Hi, list_elem_of_here. }
    by exists t'.
  - destruct (Step _ _ Ef ltac:(done)) as (t' & -> & Hl' & Er).
    destruct (IH t' (i :: S)) as (t2 & E2); try done.
    + by rewrite Er.
    + rewrite Er. clear -Hd Hd'. cbn in Hd'. set_solver.
    + intros j Hj. destruct (Hin j ltac:(by apply list_elem_of_further)) as [Hjb HjS]. split; [done|].
      intros [->|]%elem_of_cons; done.
    + intros ->. by apply Hna.
    + intros j Hj. specialize (Hall j Hj). clear -Hall. set_solver.
    + rewrite E2. by exists t2.
Qed.

(** End to end without encryption: the datagrams [sendFrame] makes of an input
    frame, delivered in any order by the peer a listening transport accepts, invoke
    the input callback exactly once, with exactly the frame that was sent. *)
Theorem input_frame_delivered kf sid seqn ts data from ck t dgs
  (Hsize : 1100 < zlen data <= 1024 * 1100)
  (Hsid : fits 32 sid) (Hsq : fits 64 seqn) (Hts : fits 64 ts)
  (Hl : listening sid from t) (Hfresh : inputReassembly t = newReassembler UdpInput)
  (Hperm : dgs ≡ₚ frameDatagrams UdpInput kf sid seqn ts data) :
  exists t', handleAll dgs from ck t = Some ([EvInput (theFrame UdpInput kf sid seqn ts data)], t').
Proof.
  rewrite (frame_datagrams UdpInput kf sid seqn ts data Hsize) in Hperm.
  pose proof (nfrags_bounds data Hsize) as Hn.
  apply Permutation_map_inv in Hperm as (ord & -> & Hord).
  assert (Hmem : forall i, i ∈ ord <-> (i < Z.to_nat (nfrags data))%nat).
  { intros i. rewrite <- Hord, elem_of_seq. lia. }
  apply (handleAll_frame kf sid seqn ts data from ck ord t []); try done.
  - rewrite Hfresh. split; [by split|]. cbn [ra_frames newReassembler]. done.
  - rewrite Hfresh. cbn [ra_frames newReassembler]. clear. set_solver.
  - rewrite <- Hord. apply NoDup_seq.
  - intros i Hi%Hmem. split; [lia|apply not_elem_of_nil].
  - intros ->. specialize (proj2 (Hmem 0%nat) ltac:(lia)). apply not_elem_of_nil.
  - intros j Hj. rewrite app_nil_r. apply Hmem. lia.
Qed.

End Loopback.

Lemma input_frame_delivered_witness :
  exists t', handleAll (reverse (frameDatagrams UdpInput false 9 5 77 sample_data)) 77 sample_clock
      (sample_transport None) = Some ([EvInput (theFrame UdpInput false 9 5 77 sample_data)], t').
Proof.
  apply (input_frame_delivered false 9 5 77 sample_data 77 sample_clock (sample_transport None)
    (reverse (frameDatagrams UdpInput false 9 5 77 sample_data))).
  - by_decision.
  - by_decision.
  - by_decision.
  - by_decision.
  - split; [|done]. split_and!; [done|by right|right; by left].
  - reflexivity.
  - apply reverse_Permutation.
Defined.
