(* ===== verification/MediaPath.v ===== *)
(** The video path across two transports: what [UdpTransport::sendFrame] of one
    hands to [UdpTransport::pollVideo] of the other when the network loses some of
    a frame's datagrams and reorders the others. Sending, fragmentation, the receive
    path, reassembly with its garbage collection, and the jitter buffer are composed
    as the code composes them; nothing is modelled here. *)

From S2P Require Import Prelude Packet UdpHeader SequenceTracker Reassembler JitterBuffer.
From S2P Require Import UdpCrypto Crypto SecureChannel Double UdpTransport UdpTransportSpec.

(** * Reassembly of frames sent in order *)

(** Buffers of frames up to sequence [n], with the ones garbage collection takes
    away gone. *)
Record in_order (n : Z) (r : FragmentReassembler) : Prop := {
  io_ok : reassembler_ok r;
  io_highest : 0 <= ra_highestStarted r <= n;
  io_dropped : fits 64 (ra_droppedIncomplete r);
  io_keys : forall k, is_Some (ra_frames r !! k) ->
    0 <= k <= ra_highestStarted r /\ ra_highestStarted r <= k + 64 }.

(** At most 65 frames are in flight, so a new one finds room. *)
Lemma window_room r :
  (forall k, is_Some (ra_frames r !! k) -> k <= ra_highestStarted r /\ ra_highestStarted r <= k + 64) ->
  Z.of_nat (size (ra_frames r)) < kMaxInFlight.
Proof.
  intros Hk. set (ks := list_to_set (seqZ (ra_highestStarted r - 64) 65) : gset Z).
  assert (Hsub : dom (ra_frames r) ⊆ ks).
  { intros k Hd%elem_of_dom. specialize (Hk k Hd). apply elem_of_list_to_set, elem_of_seqZ. lia. }
  apply subseteq_size in Hsub. rewrite size_dom in Hsub.
  assert (size ks <= 65)%nat.
  { unfold ks. rewrite size_list_to_set by apply NoDup_seqZ. by rewrite length_seqZ. }
  unfold kMaxInFlight. lia.
Qed.

Lemma in_order_room n r : in_order n r -> Z.of_nat (size (ra_frames r)) < kMaxInFlight.
Proof. intros [_ _ _ Hk]. apply window_room. intros k Hs. specialize (Hk k Hs). lia. Qed.

Lemma in_order_later n m r : n <= m -> in_order n r -> in_order m r.
Proof. intros Hle [H1 H2 H3 H4]. split; done || lia. Qed.

(** What a call of [feed] changes besides the buffer contents. *)
Lemma feed_shape h p r out r' :
  feed h p r = FedOk out r' -> fits 64 (ra_droppedIncomplete r) ->
  fits 64 (ra_droppedIncomplete r') /\
  ((uh_fragmentCount h = 1 /\ ra_frames r' = ra_frames r /\ ra_highestStarted r' = ra_highestStarted r /\
    ra_initialized r' = ra_initialized r) \/
   (ra_highestStarted r' = (if negb (ra_initialized r) || (ra_highestStarted r <? uh_sequence h)
                            then uh_sequence h else ra_highestStarted r) /\
    ra_initialized r' = true /\
    (forall k, is_Some (ra_frames r' !! k) -> k = uh_sequence h \/ is_Some (ra_frames r !! k)) /\
    (is_Some out -> ra_frames r' !! uh_sequence h = None))).
Proof.
  intros Hf Hd. pose proof (u64_fits (ra_droppedIncomplete r + 1)) as Hd1. unfold feed in Hf.
  destruct (Z.eqb_spec (uh_fragmentCount h) 1).
  { case_match; [done|]. injection Hf as _ <-. split; [done|]. by left. }
  set (hi := if negb (ra_initialized r) || _ then _ else _) in *. clearbody hi.
  assert (B : forall fb r0, feedBuffer h p fb r0 = FedOk out r' -> fits 64 (ra_droppedIncomplete r0) ->
    ra_highestStarted r0 = hi -> ra_initialized r0 = true ->
    (forall k, is_Some (ra_frames r0 !! k) -> k = uh_sequence h \/ is_Some (ra_frames r !! k)) ->
    fits 64 (ra_droppedIncomplete r') /\ ra_highestStarted r' = hi /\ ra_initialized r' = true /\
    (forall k, is_Some (ra_frames r' !! k) -> k = uh_sequence h \/ is_Some (ra_frames r !! k)) /\
    (is_Some out -> ra_frames r' !! uh_sequence h = None)).
  { clear -h. intros fb r0 Hb Hd Hh Hi Hk. pose proof (u64_fits (ra_droppedIncomplete r0 + 1)). unfold feedBuffer in Hb.
    repeat (case_match; try discriminate Hb); injection Hb as <- <-;
      cbn [storeBuf ra_droppedIncomplete ra_highestStarted ra_initialized ra_frames]; (split_and!; [done|done|done| |]);
      try (by intros [? ?]); try (intros _; apply lookup_delete_eq);
      intros k; rewrite ?lookup_insert_is_Some', ?lookup_delete_is_Some; naive_solver. }
  assert (I : forall k, is_Some (<[uh_sequence h := default emptyFrameBuf (ra_frames r !! uh_sequence h)]> (ra_frames r) !! k) ->
    k = uh_sequence h \/ is_Some (ra_frames r !! k)) by (intros k; rewrite lookup_insert_is_Some'; naive_solver).
  enough (G : fits 64 (ra_droppedIncomplete r') /\ ra_highestStarted r' = hi /\ ra_initialized r' = true /\
    (forall k, is_Some (ra_frames r' !! k) -> k = uh_sequence h \/ is_Some (ra_frames r !! k)) /\
    (is_Some out -> ra_frames r' !! uh_sequence h = None)) by tauto.
  repeat (case_match; try discriminate Hf);
    try (eapply B; [exact Hf|..]; cbn [ra_frames ra_highestStarted ra_initialized ra_droppedIncomplete]; try done;
         intros k; rewrite ?lookup_delete_is_Some; naive_solver).
  injection Hf as <- <-. cbn [ra_frames ra_highestStarted ra_initialized ra_droppedIncomplete]. by split_and!.
Qed.

(** A fragment of the frame being received keeps the state in order, and garbage
    collection does not touch its frame. *)
Lemma feed_in_order n h p r :
  in_order n r -> frag_ok h p -> uh_sequence h = n -> key_ok n ->
  exists out r', feed h p r = FedOk out r' /\ reassembler_ok r' /\ in_order n (gc r') /\
    ra_frames (gc r') !! n = ra_frames r' !! n.
Proof.
  intros Ho Hf En Hn. pose proof (in_order_room n r Ho) as Hroom. destruct Ho as [H1 H2 H3 H4].
  destruct (feed_inv h p r Hf H1) as [(out & r' & E & Hr')|(_ & _ & Hs & _)]; [|lia].
  exists out, r'. split_and!; [done|done|..].
  all: destruct (feed_shape h p r out r' E H3) as (Hd & Hsh).
  all: assert (Ehi : (if negb (ra_initialized r) || (ra_highestStarted r <? uh_sequence h)
                      then uh_sequence h else ra_highestStarted r) = uh_sequence h) by
    (destruct (negb _); [done|]; cbn [orb]; destruct (Z.ltb_spec (ra_highestStarted r) (uh_sequence h)); lia).
  all: rewrite Ehi in Hsh; clear Ehi.
  all: assert (Hk : forall k, is_Some (ra_frames r' !! k) -> 0 <= k <= ra_highestStarted r' /\ k <= n) by
    (intros k Hk; unfold key_ok in Hn; destruct Hsh as [(_ & Ef & Eh & _)|(Eh & _ & Hks & _)];
       [rewrite Ef in Hk; specialize (H4 k Hk); lia
       |destruct (Hks k Hk) as [->|Hk']; [lia|specialize (H4 k Hk'); lia]]).
  all: assert (Hhi : 0 <= ra_highestStarted r' <= n) by
    (unfold key_ok in Hn; destruct Hsh as [(_ & _ & Eh & _)|(Eh & _)]; lia).
  all: assert (Hkey : map_Forall (fun k _ => key_ok k) (ra_frames r')) by
    (intros k x Hx; specialize (Hk k (mk_is_Some _ _ Hx)); unfold key_ok in *; lia).
  all: pose proof (gcLoop_spec _ r' eq_refl Hd Hkey) as Eg; fold (gc r') in Eg; cbn zeta in Eg.
  - split; rewrite ?Eg; cbn [ra_highestStarted ra_droppedIncomplete ra_frames].
    + rewrite <- Eg. by apply gcLoop_ok.
    + done.
    + apply u64_fits.
    + intros k [x [Hx Hfr]%map_lookup_filter_Some]. specialize (Hk k (mk_is_Some _ _ Hx)).
      unfold fresh_enough in Hfr. cbn [fst] in Hfr. lia.
  - rewrite Eg. cbn [ra_frames]. destruct (ra_frames r' !! n) as [fb|] eqn:El.
    + apply map_lookup_filter_Some. split; [done|]. unfold fresh_enough. cbn [fst]. lia.
    + apply map_lookup_filter_None. by left.
Qed.

(** The frame after [n] has no buffer yet. *)
Lemma in_order_next n r : in_order n r -> ra_frames r !! (n + 1) = None.
Proof.
  intros [_ H2 _ H4]. destruct (ra_frames r !! (n + 1)) as [fb|] eqn:E; [|done].
  specialize (H4 (n + 1) (mk_is_Some _ _ E)). lia.
Qed.

(** * Fragments on the wire *)

Section Wire.
Context (kf : bool) (sid seqn ts : Z) (data : bytes).
Context (Hsid : fits 32 sid) (Hsq : key_ok seqn) (Hts : fits 64 ts).

Abbreviation frag := (frag UdpVideo kf sid seqn ts data).
Abbreviation theFrame := (theFrame UdpVideo kf sid seqn ts data).

(** Fragment [i] as a datagram. *)
Definition videoDatagram (i : nat) : bytes := header_bytes (fst (frag i)) ++ snd (frag i).

Lemma seqn_fits : fits 64 seqn.
Proof using Hsq. unfold key_ok in Hsq. widths. lia. Qed.

Lemma small_count : 0 < zlen data <= 1100 -> nfrags data = 1.
Proof using. intros H. unfold nfrags. rewrite fragmentCountFor_ceil by lia. Z.div_mod_to_equations. lia. Qed.

Lemma small_fragment : 0 < zlen data <= 1100 -> frag 0 =
  (mkUdpHeader kUdpMagic kUdpVersion UdpVideo (if kf then FlagKeyframe else 0) sid seqn 0 1 ts (zlen data), data).
Proof using.
  intros H. unfold Reassembler.frag. rewrite small_count by done. unfold fragmentPayload, fragmentHeader.
  cbn [uh_payloadSize uh_fragmentIndex].
  change (Z.of_nat 0 + 1 =? 1) with true. change (1 <? 1) with false. change (Z.of_nat 0) with 0. cbv iota.
  rewrite Z.mul_0_l, Z.sub_0_r, u64_id, u16_id by (widths; lia). rewrite Z.lor_0_r, Nat2Z.id, drop_0, firstn_all. done.
Qed.

(** What the receiver gets of one fragment. *)
Lemma wire_fragment i : 0 < zlen data <= 1024 * 1100 -> Z.of_nat i < nfrags data ->
  header_typed (fst (frag i)) /\ header_valid (fst (frag i)) /\ isEncrypted (fst (frag i)) = false /\
  uh_payloadSize (fst (frag i)) = zlen (snd (frag i)) /\ frag_ok (fst (frag i)) (snd (frag i)).
Proof using Hsid Hsq Hts.
  intros Hsize Hi. pose proof seqn_fits as Hs64.
  assert (He : isEncrypted (fst (frag i)) = false)
    by (unfold isEncrypted; cbn [fst Reassembler.frag uh_flags fragmentHeader]; destruct kf, (1 <? nfrags data); done).
  destruct (decide (zlen data <= 1100)) as [Hsm|Hbig].
  - rewrite small_count in Hi by lia. assert (i = 0%nat) as -> by lia. rewrite small_fragment in * by lia.
    cbn [fst snd] in *. unfold header_typed, header_valid, frag_ok, kMaxFragments.
    cbn [uh_magic uh_version uh_type uh_flags uh_sessionId uh_sequence uh_fragmentIndex uh_fragmentCount uh_timestampNs uh_payloadSize].
    split_and!; try done; try (widths; lia); destruct kf; by_decision.
  - assert (Hb : 1100 < zlen data <= 1024 * 1100) by lia.
    destruct (frag_header_ok UdpVideo kf sid seqn ts data Hb i) as [? ?]; try done.
    destruct (frag_payload UdpVideo kf sid seqn ts data Hb i Hi) as [_ ->].
    destruct (frag_payloadSize UdpVideo kf sid seqn ts data Hb i Hi) as (-> & _).
    split_and!; try done. by apply frag_frag_ok.
Qed.

Lemma video_datagrams : 0 < zlen data <= 1024 * 1100 ->
  frameDatagrams UdpVideo kf sid seqn ts data = videoDatagram <$> seq 0 (Z.to_nat (nfrags data)).
Proof using.
  intros Hsize. destruct (decide (zlen data <= 1100)) as [Hsm|Hbig]; [|apply frame_datagrams; lia].
  unfold frameDatagrams, frameHeaders. fold (nfrags data). rewrite small_count by lia.
  change (seq 0 (Z.to_nat 1)) with [0%nat]. cbn [fmap list_fmap]. f_equal. unfold videoDatagram.
  assert (E : fragmentHeader UdpVideo kf sid seqn ts 1 (Z.of_nat 0) (zlen data) = fst (frag 0))
    by (unfold Reassembler.frag; by rewrite small_count by lia).
  rewrite E. rewrite small_fragment by lia. cbn [fst snd]. unfold fragmentDatagram.
  rewrite mem_put_header; unfold fragmentPayload; cbn [uh_payloadSize uh_fragmentIndex]; rewrite Z.mul_0_l;
    rewrite Nat2Z.id, drop_0, firstn_all; done.
Qed.

(** Two or more fragments: [tracked_own] and [feed_in_order] together. *)
Lemma video_fragment_fed i S r :
  1100 < zlen data <= 1024 * 1100 -> Z.of_nat i < nfrags data -> in_order seqn r ->
  tracked kf seqn ts data S r ->
  exists out r', feed (fst (frag i)) (snd (frag i)) r = FedOk out r' /\ in_order seqn (gc r') /\
    ((out = Some theFrame /\ allArrived data (i :: S)) \/
     (out = None /\ ~ allArrived data (i :: S) /\ tracked kf seqn ts data (i :: S) (gc r'))).
Proof using Hsid Hsq Hts.
  intros Hsize Hi Ho Ht. pose proof (frag_frag_ok UdpVideo kf sid seqn ts data Hsize i Hi) as Hf.
  destruct (feed_in_order seqn _ _ r Ho Hf eq_refl Hsq) as (out & r' & E & Hr & Ho' & El).
  exists out, r'. split_and!; [done|done|].
  destruct (tracked_own UdpVideo kf sid seqn ts data Hsize i S r Hi Ht (fun _ => in_order_room _ _ Ho))
    as [(r2 & E2 & Ha)|(r2 & E2 & Ht' & Hna & _)]; rewrite E in E2; injection E2 as -> ->; [by left|right].
  split_and!; [done|done|]. destruct Ht' as [_ Ht']. split; [apply Ho'|]. by rewrite El.
Qed.

End Wire.

(** * One frame *)

Section Stream.
Context {Endpoint : Type} `{EqDecision Endpoint} {Sink : Type} `{UdpCryptoSink Sink}.
Implicit Types a b t : UdpTransport (Endpoint := Endpoint) (Sink := Sink).

Definition videoReassembly t : FragmentReassembler := md_videoReassembly (tr_media t).
Definition videoJitter t : JitterBuffer := md_videoJitter (tr_media t).
Definition audioJitter t : JitterBuffer := md_audioJitter (tr_media t).
Definition videoTarget t : Z := cf_videoJitterTargetMs (tr_config t).

(** Datagrams from one source, each with the clock readings of its handler; what the
    handlers emit is not looked at. *)
Fixpoint receiveAll (dgs : list (Clock * bytes)) (from : Endpoint) t : option UdpTransport :=
  match dgs with
  | [] => Some t
  | (ck, dg) :: dgs =>
      match handleDatagram dg from ck t with
      | HandleUB _ => None
      | Handles _ t => receiveAll dgs from t
      end
  end.

(** A completed frame is pushed with the target of the configuration. *)
Definition pushed (out : option AssembledFrame) (ck : Clock) t : JitterBuffer :=
  match out with
  | Some f => push f (ck_push ck) (setTargetMs (videoTarget t) (videoJitter t))
  | None => videoJitter t
  end.

(** A VIDEO datagram in the clear is one step of the reassembler, garbage collection,
    and the push of what completed. *)
Lemma handle_video h p from ck t out r :
  header_typed h -> header_valid h -> uh_type h = UdpVideo -> isEncrypted h = false ->
  uh_payloadSize h = zlen p -> hears (uh_sessionId h) from t ->
  feed h p (videoReassembly t) = FedOk out r -> (forall f, out = Some f -> af_type f = UdpVideo) ->
  exists t', handleDatagram (header_bytes h ++ p) from ck t = Handles [] t' /\
    hears (uh_sessionId h) from t' /\ videoReassembly t' = gc r /\ videoJitter t' = pushed out ck t /\
    audioJitter t' = audioJitter t /\ videoTarget t' = videoTarget t.
Proof.
  intros Ht Hv Hty He Hp L Hf Ho.
  destruct (handle_clear h p from ck t Ht Hv He Hp L) as (t1 & -> & L' & Lc & Lm & _).
  unfold dispatch. rewrite Hty. cbn [Z.eqb UdpInput UdpPing UdpPong UdpControl UdpKeyframeRequest
    UdpStreamStart UdpStreamStop UdpVideo UdpAudio orb Pos.eqb].
  unfold feedVideo. rewrite Lm. cbn [updateArrival md_videoReassembly md_videoSeq].
  fold (videoReassembly t). destruct (track _ _) as [gap vseq]. rewrite Hf. unfold pushed, videoTarget, videoJitter, audioJitter.
  destruct out as [f|].
  - unfold handleMediaComplete. rewrite (Ho f eq_refl).
    destruct (_ && _ && _); cbn [Z.eqb UdpInput UdpVideo]; (eexists; split; [done|]); cbn; rewrite ?Lc, ?Lm; by split_and!.
  - destruct (_ && _ && _); (eexists; split; [done|]); cbn; rewrite ?Lc, ?Lm; by split_and!.
Qed.

(** What is said of a receiver while frame [n] is on its way. *)
Record receiving (n sid : Z) (from : Endpoint) (jitter audio : JitterBuffer) (target : Z) t : Prop := {
  rv_hears : hears sid from t;
  rv_order : in_order n (videoReassembly t);
  rv_jitter : videoJitter t = jitter;
  rv_audio : audioJitter t = audio;
  rv_target : videoTarget t = target }.

Lemma handle_video_fragment kf n sid ts data i out r from ck jitter audio target t :
  0 < zlen data <= 1024 * 1100 -> fits 32 sid -> key_ok n -> fits 64 ts -> Z.of_nat i < nfrags data ->
  receiving n sid from jitter audio target t ->
  feed (fst (frag UdpVideo kf sid n ts data i)) (snd (frag UdpVideo kf sid n ts data i)) (videoReassembly t) = FedOk out r ->
  in_order n (gc r) -> (forall f, out = Some f -> f = theFrame UdpVideo kf sid n ts data) ->
  exists t', handleDatagram (videoDatagram kf sid n ts data i) from ck t = Handles [] t' /\
    videoReassembly t' = gc r /\
    receiving n sid from
      (match out with Some f => push f (ck_push ck) (setTargetMs target jitter) | None => jitter end) audio target t'.
Proof.
  intros Hsize Hsid Hn Hts Hi [L1 L2 L3 L4 L5] Hf Ho Hout.
  destruct (wire_fragment kf sid n ts data Hsid Hn Hts i Hsize Hi) as (W1 & W2 & W3 & W4 & _).
  destruct (handle_video _ _ from ck t out r W1 W2 eq_refl W3 W4 L1 Hf) as (t' & E & E1 & E2 & E3 & E4 & E5).
  { intros f Ef. by rewrite (Hout f Ef). }
  exists t'. split_and!; [done|done|]. split; [done|by rewrite E2|..].
  - rewrite E3. unfold pushed. by rewrite L3, L5.
  - by rewrite E4.
  - by rewrite E5.
Qed.

(** The fragments of the frame that are still to come, each once. *)
Lemma receive_fragments kf n sid ts data from jitter audio target arr : forall t S,
  1100 < zlen data <= 1024 * 1100 -> fits 32 sid -> key_ok n -> fits 64 ts ->
  receiving n sid from jitter audio target t -> tracked kf n ts data S (videoReassembly t) ->
  ~ allArrived data S ->
  NoDup arr.*2 -> (forall i, i ∈ arr.*2 -> Z.of_nat i < nfrags data /\ i ∉ S) ->
  exists t', receiveAll (prod_map id (videoDatagram kf sid n ts data) <$> arr) from t = Some t' /\
    ((~ allArrived data (arr.*2 ++ S) /\ receiving n sid from jitter audio target t') \/
     (allArrived data (arr.*2 ++ S) /\ exists ck, ck ∈ arr.*1 /\
        receiving n sid from (push (theFrame UdpVideo kf sid n ts data) (ck_push ck) (setTargetMs target jitter)) audio target t')).
Proof.
  induction arr as [|[ck i] arr IH]; intros t S Hsize Hsid Hn Hts Hl Ht Hna Hnd Hin.
  { exists t. split; [done|]. by left. }
  rewrite !fmap_cons in *. cbn [receiveAll fst snd prod_map id] in *.
  apply list.NoDup_cons in Hnd as [Hi Hnd].
  destruct (Hin i ltac:(apply list_elem_of_here)) as [Hib HiS].
  destruct (video_fragment_fed kf sid n ts data Hsid Hn Hts i S _ Hsize Hib (rv_order _ _ _ _ _ _ _ Hl) Ht)
    as (out & r & Ef & Ho & C).
  destruct (handle_video_fragment kf n sid ts data i out r from ck jitter audio target t) as (t1 & -> & Er & Hl1); try done; try lia.
  { intros f ->. destruct C as [[C _]|[C _]]; [by injection C|done]. }
  destruct C as [[-> Ha]|(-> & Hna' & Ht')].
  - assert (arr = []) as ->.
    { destruct arr as [|[ck' j] arr]; [done|].
      destruct (Hin j ltac:(apply list_elem_of_further, list_elem_of_here)) as [Hj HjS].
      specialize (Ha j Hj). apply elem_of_cons in Ha as [->|]; [|done].
      exfalso. apply Hi, list_elem_of_here. }
    exists t1. split; [done|]. right. split; [done|]. exists ck. split; [apply list_elem_of_here|done].
  - destruct (IH t1 (i :: S)) as (t2 & E2 & Hres); try done.
    + by rewrite Er.
    + intros j Hj. destruct (Hin j ltac:(by apply list_elem_of_further)) as [Hjb HjS]. split; [done|].
      intros [->|]%elem_of_cons; done.
    + exists t2. split; [done|].
      assert (Hiff : allArrived data (arr.*2 ++ i :: S) <-> allArrived data ((i :: arr.*2) ++ S))
        by (unfold allArrived; split; intros Hj j Hlt; specialize (Hj j Hlt); clear -Hj; set_solver).
      destruct Hres as [[Hx Hr]|(Hx & ck' & Hck & Hr)]; [left|right]; (split; [by rewrite <- Hiff|]); [done|].
      exists ck'. split; [by apply list_elem_of_further|done].
Qed.

(** The arrivals of a frame are complete when there are as many as fragments. *)
Lemma all_arrived data order :
  NoDup order -> (forall i, i ∈ order -> Z.of_nat i < nfrags data) ->
  allArrived data order <-> (Z.to_nat (nfrags data) <= length order)%nat.
Proof.
  intros Hnd Hb. set (all := seq 0 (Z.to_nat (nfrags data))).
  assert (Hall : forall i, i ∈ all <-> Z.of_nat i < nfrags data) by (intros i; unfold all; rewrite elem_of_seq; lia).
  split.
  - intros Ha. rewrite <- (length_seq (Z.to_nat (nfrags data)) 0). apply NoDup_incl_length.
    + apply NoDup_ListNoDup, NoDup_seq.
    + intros i Hi. apply list_elem_of_In, Ha, Hall, list_elem_of_In, Hi.
  - intros Hlen j Hj. apply list_elem_of_In.
    assert (Hincl : incl all order); [|apply Hincl, list_elem_of_In, Hall, Hj].
    apply NoDup_length_incl.
    + by apply NoDup_ListNoDup.
    + unfold all. by rewrite length_seq.
    + intros i Hi. apply list_elem_of_In, Hall, Hb, list_elem_of_In, Hi.
Qed.

(** A frame of one fragment: its datagram arrives or it does not. *)
Lemma receive_single kf n sid ts data from jitter audio target arr t :
  0 < zlen data <= 1100 -> fits 32 sid -> key_ok n -> fits 64 ts ->
  receiving n sid from jitter audio target t -> NoDup arr.*2 -> (forall i, i ∈ arr.*2 -> Z.of_nat i < nfrags data) ->
  exists t', receiveAll (prod_map id (videoDatagram kf sid n ts data) <$> arr) from t = Some t' /\
    ((arr = [] /\ receiving n sid from jitter audio target t') \/
     exists ck, arr = [(ck, 0%nat)] /\
       receiving n sid from (push (theFrame UdpVideo kf sid n ts data) (ck_push ck) (setTargetMs target jitter)) audio target t').
Proof.
  intros Hsize Hsid Hn Hts Hl Hnd Hb. pose proof (small_count data Hsize) as Hone. rewrite Hone in Hb.
  destruct arr as [|[ck i] arr]; [exists t; split; [done|by left]|].
  assert (i = 0%nat) as -> by (specialize (Hb i ltac:(apply list_elem_of_here)); lia).
  assert (arr = []) as ->.
  { destruct arr as [|[ck' j] arr]; [done|]. exfalso.
    specialize (Hb j ltac:(apply list_elem_of_further, list_elem_of_here)). assert (j = 0%nat) as -> by lia.
    apply list.NoDup_cons in Hnd as [Hnd _]. apply Hnd, list_elem_of_here. }
  destruct (wire_fragment kf sid n ts data Hsid Hn Hts 0 ltac:(lia) ltac:(lia)) as (_ & _ & _ & _ & Hf).
  destruct (feed_in_order n _ _ _ (rv_order _ _ _ _ _ _ _ Hl) Hf eq_refl Hn) as (out & r & Ef & _ & Ho & _).
  assert (Hout : out = Some (theFrame UdpVideo kf sid n ts data)).
  { rewrite (small_fragment kf sid n ts data Hsize) in Ef. unfold feed in Ef.
    cbn [fst snd uh_fragmentCount uh_payloadSize Z.eqb Pos.eqb] in Ef. rewrite Z.ltb_irrefl in Ef. injection Ef as <- _.
    unfold theFrame. rewrite Nat2Z.id, firstn_all. by destruct kf. }
  subst out. cbn [fmap list_fmap receiveAll prod_map fst snd id].
  destruct (handle_video_fragment kf n sid ts data 0 (Some (theFrame UdpVideo kf sid n ts data)) r from ck jitter audio target t) as (t1 & -> & Er & Hl1); try done; try lia.
  { by intros f [= <-]. }
  exists t1. split; [done|]. right. by exists ck.
Qed.

(** Every frame, whatever part of it arrives and in whatever order. *)
Lemma receive_frame kf n sid ts data from jitter audio target arr t :
  0 < zlen data <= 1024 * 1100 -> fits 32 sid -> key_ok n -> fits 64 ts ->
  receiving n sid from jitter audio target t -> ra_frames (videoReassembly t) !! n = None ->
  NoDup arr.*2 -> (forall i, i ∈ arr.*2 -> Z.of_nat i < nfrags data) ->
  exists t', receiveAll (prod_map id (videoDatagram kf sid n ts data) <$> arr) from t = Some t' /\
    ((zlen arr < nfrags data /\ receiving n sid from jitter audio target t') \/
     (nfrags data <= zlen arr /\ exists ck, ck ∈ arr.*1 /\
        receiving n sid from (push (theFrame UdpVideo kf sid n ts data) (ck_push ck) (setTargetMs target jitter)) audio target t')).
Proof.
  intros Hsize Hsid Hn Hts Hl Hnew Hnd Hb. destruct (decide (zlen data <= 1100)) as [Hsm|Hbig].
  - destruct (receive_single kf n sid ts data from jitter audio target arr t) as (t' & E & C); try done; try lia.
    exists t'. split; [done|]. rewrite small_count by lia. destruct C as [[-> C]|(ck & -> & C)]; [by left|].
    right. split; [done|]. exists ck. split; [apply list_elem_of_here|done].
  - destruct (receive_fragments kf n sid ts data from jitter audio target arr t []) as (t' & E & C); try done; try lia.
    + split; [apply (rv_order _ _ _ _ _ _ _ Hl)|]. by rewrite Hnew.
    + intros Ha. pose proof (nfrags_bounds data ltac:(lia)). specialize (Ha 0%nat ltac:(lia)). by apply not_elem_of_nil in Ha.
    + intros i Hi. split; [by apply Hb|apply not_elem_of_nil].
    + exists t'. split; [done|]. rewrite app_nil_r, (all_arrived data arr.*2 Hnd Hb), length_fmap in C.
      destruct C as [[C Hr]|[C Hr]]; [left|right]; (split; [lia|done]).
Qed.

(** ** Polling *)

Definition poppedUpTo (n : Z) (j : JitterBuffer) : Prop :=
  jb_queue j = [] /\ (jb_initialized j = true -> jb_lastPoppedSequence j < n).

Lemma pop_pushed f ck now target j :
  poppedUpTo (af_sequence f) j -> 0 <= target -> fits 64 (target * 1000000) -> ck + target * 1000000 <= now ->
  exists j', pop now (push f ck (setTargetMs target j)) = ([f], j') /\ poppedUpTo (af_sequence f + 1) j'.
Proof.
  intros [Hq Hl] Ht Hf Hnow. unfold push.
  cbn [setTargetMs jb_initialized jb_lastPoppedSequence jb_queue jb_overflowDropped jb_targetMs jb_reordered].
  rewrite Hq. replace (jb_initialized j && (af_sequence f <=? jb_lastPoppedSequence j) && (0 <? jb_lastPoppedSequence j)) with false.
  2:{ destruct (jb_initialized j); [|done]. cbn [andb]. rewrite (proj2 (Z.leb_gt _ _)); [done|]. by apply Hl. }
  cbn [length dropOldest app Nat.sub bubble]. unfold pop. cbn [jb_queue length popLoop].
  unfold headReady, waitedNs. cbn [jb_targetMs en_arriveNs]. rewrite u64_id by done.
  replace (target * 1000000 <=? (if ck <? now then now - ck else 0)) with true.
  2:{ symmetry. apply Z.leb_le. destruct (Z.ltb_spec ck now); lia. }
  cbn [orb]. eexists. split; [done|]. split; [done|]. cbn. unfold en_seq. cbn. lia.
Qed.

Lemma pop_empty n now j : poppedUpTo n j -> pop now j = ([], j).
Proof. intros [Hq _]. unfold pop. by rewrite Hq. Qed.

Lemma receiving_poll n m sid from jitter audio target j' out now t :
  receiving n sid from jitter audio target t -> n <= m -> pop now jitter = (out, j') ->
  exists t', pollVideo now t = (out, t') /\ receiving m sid from j' audio target t' /\ videoReassembly t' = videoReassembly t.
Proof.
  intros [H1 H2 H3 H4 H5] Hle Hp. unfold pollVideo. unfold videoJitter in H3. rewrite H3, Hp. eexists. split; [done|].
  split; [|done]. split; try done. by apply (in_order_later n).
Qed.

(** ** Sending *)

(** A sender with a peer, no encryption and nothing queued, about to send frame [n]. *)
Record sending (n sid : Z) t : Prop := {
  sd_canSend : canSend t = true;
  sd_secure : tr_secure t = None;
  sd_tasks : tr_tasks t = [];
  sd_session : cf_sessionId (tr_config t) = sid;
  sd_sequence : tr_seqCounter t !! 0%nat = Some n }.

Lemma post_all dgs t :
  foldl (fun t dg => postDatagram dg t) t dgs = withTasks (tr_tasks t ++ (TaskDatagram <$> dgs)) t.
Proof.
  revert t. induction dgs as [|dg dgs IH]; intros t; cbn [foldl fmap list_fmap].
  - rewrite app_nil_r. by destruct t.
  - rewrite IH. unfold postDatagram, post. cbn [withTasks tr_tasks]. by rewrite <- app_assoc.
Qed.

(** The io thread sends what was queued, in order, to the peer. *)
Lemma drain_sends dgs now t :
  tr_socket t = true -> pe_havePeer (tr_peers t) = true -> tr_secure t = None ->
  tr_tasks t = TaskDatagram <$> dgs ->
  exists c, drainTasks (length dgs) (replicate (length dgs) true) now t =
    (EvSend (pe_peer (tr_peers t)) <$> dgs, withTasks [] (withCounters c t)).
Proof.
  revert t. induction dgs as [|dg dgs IH]; intros t Hs Hp Hc Ht.
  - exists (tr_counters t). cbn [length replicate drainTasks fmap list_fmap]. f_equal. destruct t. cbn in Ht. by subst.
  - cbn [length replicate drainTasks head default from_option id tail]. rewrite Ht. cbn [fmap list_fmap].
    unfold runNext. rewrite Ht. cbn [fmap list_fmap runTask]. cbn [withTasks tr_socket tr_peers tr_secure].
    rewrite Hs, Hp, Hc. cbn [andb negb socketSend].
    destruct (IH (withCounters (countSent true (zlen dg) (tr_counters t)) (withTasks (TaskDatagram <$> dgs) t)))
      as [c E]; try done.
    exists c. cbn [withTasks tr_counters] in *. rewrite E. done.
Qed.

(** The datagrams handed to the socket. *)
Definition wire (evs : list (Event (Endpoint := Endpoint))) : list bytes :=
  omap (fun ev => match ev with EvSend _ dg => Some dg | _ => None end) evs.

Lemma wire_sends to dgs : wire (EvSend to <$> dgs) = dgs.
Proof. unfold wire. induction dgs as [|dg dgs IH]; [done|]. cbn. by rewrite IH. Qed.

(** The io thread runs until its queue is empty. *)
Definition drained (nowNs : Z) t : list bytes * UdpTransport :=
  let '(evs, t) := drainTasks (length (tr_tasks t)) (replicate (length (tr_tasks t)) true) nowNs t in (wire evs, t).

(** A sender with [dgs] in its queue. *)
Record queued (n sid : Z) (dgs : list bytes) t : Prop := {
  qu_canSend : canSend t = true;
  qu_secure : tr_secure t = None;
  qu_tasks : tr_tasks t = TaskDatagram <$> dgs;
  qu_session : cf_sessionId (tr_config t) = sid;
  qu_sequence : tr_seqCounter t !! 0%nat = Some n }.

Lemma sendFrame_queues n sid dgs kf data ts t :
  queued n sid dgs t -> 0 < zlen data <= 1024 * 1100 -> fits 64 (n + 1) ->
  queued (n + 1) sid (dgs ++ frameDatagrams UdpVideo kf sid n ts data) (sendFrame UdpVideo kf data ts t).
Proof.
  intros [H1 H2 H3 H4 H5] Hsize Hn. unfold sendFrame. rewrite H1. cbn [negb].
  assert (1 <= fragmentCountFor (zlen data)) by (rewrite fragmentCountFor_ceil by lia; Z.div_mod_to_equations; lia).
  rewrite (proj2 (Z.ltb_ge _ _)) by done. unfold nextSequence. change (Z.to_nat UdpVideo) with 0%nat.
  cbn [withSeq withCounters tr_config tr_seqCounter]. rewrite (nth_lookup_Some _ _ _ _ H5), H4.
  rewrite post_all. cbn [withSeq withCounters tr_tasks]. rewrite H3, <- fmap_app. split; try done.
  cbn. rewrite u64_id by done. destruct (tr_seqCounter t); done.
Qed.

Lemma drained_sends n sid dgs now t : queued n sid dgs t -> exists t', drained now t = (dgs, t') /\ sending n sid t'.
Proof.
  intros [H1 H2 H3 H4 H5]. assert (Hcan := H1). unfold canSend in Hcan. b2p. unfold drained. rewrite H3, length_fmap.
  match goal with |- context [drainTasks _ _ _ ?t1] => destruct (drain_sends dgs now t1) as [c ->]; try done end.
  rewrite wire_sends. eexists. by split.
Qed.

(** [sendFrame], and the io thread after it. *)
Definition sendVideo (keyframe : bool) (data : bytes) (timestampNs nowNs : Z) t : list bytes * UdpTransport :=
  drained nowNs (sendFrame UdpVideo keyframe data timestampNs t).

Lemma sendVideo_sends n sid kf data ts now t :
  sending n sid t -> 0 < zlen data <= 1024 * 1100 -> fits 64 (n + 1) ->
  exists t', sendVideo kf data ts now t = (frameDatagrams UdpVideo kf sid n ts data, t') /\ sending (n + 1) sid t'.
Proof.
  intros [H1 H2 H3 H4 H5] Hsize Hn. apply drained_sends.
  apply (sendFrame_queues n sid []); [|done|done]. by split.
Qed.

(** * A stream *)

(** A frame, the order in which its fragments arrive with the clocks of their
    handlers (a fragment that is not listed is lost), and the poll after it. *)
Record VideoRound := mkRound {
  vr_keyframe : bool; vr_data : bytes; vr_timestampNs : Z; vr_sendNs : Z;
  vr_arrivals : list (Clock * nat); vr_pollNs : Z }.

Definition network (arrivals : list (Clock * nat)) (dgs : list bytes) : list (Clock * bytes) :=
  omap (fun x => dg ← dgs !! x.2; Some (x.1, dg)) arrivals.

Definition videoRound (from : Endpoint) (x : VideoRound) a b : option (list AssembledFrame * UdpTransport * UdpTransport) :=
  let '(dgs, a) := sendVideo (vr_keyframe x) (vr_data x) (vr_timestampNs x) (vr_sendNs x) a in
  b ← receiveAll (network (vr_arrivals x) dgs) from b;
  let '(out, b) := pollVideo (vr_pollNs x) b in Some (out, a, b).

Fixpoint videoStream (from : Endpoint) (xs : list VideoRound) a b : option (list AssembledFrame * UdpTransport * UdpTransport) :=
  match xs with
  | [] => Some ([], a, b)
  | x :: xs =>
      '(out, a, b) ← videoRound from x a b;
      '(outs, a, b) ← videoStream from xs a b; Some (out ++ outs, a, b)
  end.

(** Fragments arrive at most once, and the poll comes when the last of them has
    waited for the target delay. *)
Definition round_ok (target : Z) (x : VideoRound) : Prop :=
  0 < zlen (vr_data x) <= 1024 * 1100 /\ fits 64 (vr_timestampNs x) /\
  NoDup (vr_arrivals x).*2 /\ Forall (fun i => Z.of_nat i < nfrags (vr_data x)) (vr_arrivals x).*2 /\
  Forall (fun ck => ck_push ck + target * 1000000 <= vr_pollNs x) (vr_arrivals x).*1.

(** Every fragment arrives. *)
Definition arrives (x : VideoRound) : bool := nfrags (vr_data x) <=? zlen (vr_arrivals x).

Definition roundFrame (sid n : Z) (x : VideoRound) : AssembledFrame :=
  theFrame UdpVideo (vr_keyframe x) sid n (vr_timestampNs x) (vr_data x).

(** The frames that arrive, numbered as the sender numbers all of them. *)
Fixpoint arrivedFrames (sid n : Z) (xs : list VideoRound) : list AssembledFrame :=
  match xs with
  | [] => []
  | x :: xs => (if arrives x then [roundFrame sid n x] else []) ++ arrivedFrames sid (n + 1) xs
  end.

(** A receiver that has seen every frame before [n]. *)
Definition awaiting (n sid : Z) (from : Endpoint) (target : Z) t : Prop :=
  receiving n sid from (videoJitter t) (audioJitter t) target t /\ poppedUpTo n (videoJitter t) /\
  ra_frames (videoReassembly t) !! n = None.

Lemma network_datagrams kf sid n ts data arr :
  0 < zlen data <= 1024 * 1100 -> Forall (fun i => Z.of_nat i < nfrags data) arr.*2 ->
  network arr (frameDatagrams UdpVideo kf sid n ts data) = prod_map id (videoDatagram kf sid n ts data) <$> arr.
Proof.
  intros Hsize Hb. rewrite video_datagrams by done. unfold network.
  induction arr as [|[ck i] arr IH]; [done|]. cbn [fmap list_fmap omap list_omap fst snd] in *.
  apply Forall_cons_iff in Hb as [Hi Hb]. cbn [snd] in Hi. rewrite list_lookup_fmap, lookup_seq_lt by lia.
  cbn. f_equal. by apply IH.
Qed.

(** The datagrams of a frame and the poll after them. *)
Lemma receive_poll kf n sid ts data from target arr now b :
  awaiting n sid from target b -> fits 32 sid -> key_ok n -> fits 64 ts ->
  0 <= target -> fits 64 (target * 1000000) -> 0 < zlen data <= 1024 * 1100 ->
  NoDup arr.*2 -> Forall (fun i => Z.of_nat i < nfrags data) arr.*2 ->
  Forall (fun ck => ck_push ck + target * 1000000 <= now) arr.*1 ->
  exists b1 b2, receiveAll (network arr (frameDatagrams UdpVideo kf sid n ts data)) from b = Some b1 /\
    pollVideo now b1 = (if nfrags data <=? zlen arr then [theFrame UdpVideo kf sid n ts data] else [], b2) /\
    awaiting (n + 1) sid from target b2 /\ audioJitter b2 = audioJitter b.
Proof.
  intros (Hr & Hp & Hnew) Hsid Hn Hts Ht0 Ht Hsize Hnd Hb Hpoll. rewrite network_datagrams by done.
  destruct (receive_frame kf n sid ts data from (videoJitter b) (audioJitter b) target arr b) as (b1 & -> & C); try done.
  { intros i Hi. rewrite list.Forall_forall in Hb. by apply Hb. }
  assert (G : exists out j', (if nfrags data <=? zlen arr then [theFrame UdpVideo kf sid n ts data] else []) = out /\
    poppedUpTo (n + 1) j' /\ exists j, receiving n sid from j (audioJitter b) target b1 /\ pop now j = (out, j')).
  { destruct C as [[C Hr1]|[C (ck & Hck & Hr1)]].
    - exists [], (videoJitter b). rewrite (proj2 (Z.leb_gt _ _)) by done. split_and!; [done| |].
      + destruct Hp as [Hq Hl]. split; [done|]. intros Hi. specialize (Hl Hi). lia.
      + eexists. split; [exact Hr1|]. by eapply pop_empty.
    - rewrite list.Forall_forall in Hpoll. specialize (Hpoll ck Hck).
      destruct (pop_pushed (theFrame UdpVideo kf sid n ts data) (ck_push ck) now target (videoJitter b)) as (j' & Ej & Hj); try done.
      eexists _, j'. rewrite (proj2 (Z.leb_le _ _)) by done. split_and!; [done|done|].
      eexists. split; [exact Hr1|exact Ej]. }
  destruct G as (out & j' & -> & Hj & j & Hr1 & Ej).
  destruct (receiving_poll n (n + 1) sid from j (audioJitter b) target j' out now b1 Hr1 ltac:(lia) Ej)
    as (b2 & E2 & Hr2 & Er).
  exists b1, b2. split_and!; [done|done| |by apply (rv_audio _ _ _ _ _ _ _ Hr2)].
  unfold awaiting. rewrite Er, (rv_jitter _ _ _ _ _ _ _ Hr2), (rv_audio _ _ _ _ _ _ _ Hr2). split_and!; [done|done|].
  eapply in_order_next, (rv_order _ _ _ _ _ _ _ Hr1).
Qed.

Lemma awaiting_round n sid from target x a b :
  sending n sid a -> awaiting n sid from target b -> fits 32 sid -> key_ok n ->
  0 <= target -> fits 64 (target * 1000000) -> round_ok target x ->
  exists a' b', videoRound from x a b = Some (if arrives x then [roundFrame sid n x] else [], a', b') /\
    sending (n + 1) sid a' /\ awaiting (n + 1) sid from target b'.
Proof.
  intros Ha Hb Hsid Hn Ht0 Ht (Hsize & Hts & Hnd & Har & Hpoll). unfold videoRound.
  destruct (sendVideo_sends n sid (vr_keyframe x) (vr_data x) (vr_timestampNs x) (vr_sendNs x) a Ha Hsize)
    as (a' & -> & Ha'); [unfold key_ok in Hn; widths; lia|].
  destruct (receive_poll (vr_keyframe x) n sid (vr_timestampNs x) (vr_data x) from target (vr_arrivals x) (vr_pollNs x) b)
    as (b1 & b2 & -> & Ep & Hb2 & _); try done.
  cbn [mbind option_bind]. rewrite Ep. by exists a', b2.
Qed.

(** End to end without encryption, frame by frame: the frames [sendFrame] is given are
    cut into datagrams, of which the network may lose some and may reorder those of one
    frame, delivering them before the next frame's; the poll after them comes when the
    last has waited for the target delay. They come out of the peer's [pollVideo]
    exactly when all their fragments arrive: each of those once, in the order they were
    sent, with their bytes, numbers, time stamps and keyframe marks; and a lost frame
    never keeps a later one from being shown, however many are lost. (Network.v has what
    holds of any network.) *)
Theorem video_stream_plays xs n sid from target a b
  (Ha : sending n sid a) (Hb : awaiting n sid from target b)
  (Hsid : fits 32 sid) (Hn : n + zlen xs <= 2 ^ 64 - 64)
  (Ht : 0 <= target /\ fits 64 (target * 1000000)) (Hxs : Forall (round_ok target) xs) :
  exists a' b', videoStream from xs a b = Some (arrivedFrames sid n xs, a', b').
Proof.
  assert (Hn0 : 0 <= n) by (destruct Hb as ([_ [_ ? _ _] _ _] & _); lia).
  revert n a b Ha Hb Hn Hn0. induction Hxs as [|x xs Hx Hxs IH]; intros n a b Ha Hb Hn Hn0.
  { by exists a, b. }
  cbn [videoStream arrivedFrames length] in *.
  assert (Hk : key_ok n) by (unfold key_ok; lia).
  destruct (awaiting_round n sid from target x a b) as (a1 & b1 & -> & Ha1 & Hb1); try done; try apply Ht.
  cbn [mbind option_bind]. destruct (IH (n + 1) a1 b1 Ha1 Hb1) as (a2 & b2 & ->); [lia|lia|]. by exists a2, b2.
Qed.

End Stream.

(** Three frames: one in two fragments, the last first; one whose first fragment is
    lost; and one in a single datagram. *)
Definition sample_rounds : list VideoRound :=
  [mkRound true sample_data 11 0 [(sample_clock, 1%nat); (sample_clock, 0%nat)] 30000100;
   mkRound false sample_data 12 0 [(sample_clock, 1%nat)] 30000100;
   mkRound false [5; 6] 13 0 [(sample_clock, 0%nat)] 30000100].

Lemma video_stream_plays_witness :
  exists a b : ZTransport, videoStream 77 sample_rounds (sample_transport None) (sample_transport None) =
    Some ([mkAssembledFrame UdpVideo 9 0 11 true sample_data; mkAssembledFrame UdpVideo 9 2 13 false [5; 6]], a, b).
Proof.
  apply (video_stream_plays sample_rounds 0 9 77 30 (sample_transport None) (sample_transport None)).
  - by split.
  - split_and!; [|by split|done]. split; [|split|done|done|done].
    + split_and!; [done|by right|right; by left].
    + split; [apply map_Forall_empty|by_decision].
    + by_decision.
    + by_decision.
    + intros k [x Hx]. discriminate Hx.
  - by_decision.
  - vm_compute. discriminate.
  - by_decision.
  - repeat constructor; try by_decision.
Defined.
