(* ===== verification/Network.v ===== *)
(** A receiving transport behind any network: the datagrams of a stream of VIDEO frames
    reach it in any order and at any time, some of them never and some more than once,
    and [pollVideo] is called at any time. What it hands out are frames that were sent,
    in the order they were sent. *)

From stdpp Require Import sorting.
From S2P Require Import Prelude Packet UdpHeader SequenceTracker Reassembler JitterBuffer.
From S2P Require Import UdpCrypto Crypto SecureChannel Double UdpTransport UdpTransportSpec MediaPath.

Open Scope Z_scope.

(** * The window of the reassembler *)

(** Between two datagrams every buffer is at most 64 sequences behind the newest: the
    garbage collection after each datagram removes the others. *)
Record windowed (r : FragmentReassembler) : Prop := {
  wi_ok : reassembler_ok r;
  wi_dropped : fits 64 (ra_droppedIncomplete r);
  wi_highest : key_ok (ra_highestStarted r);
  wi_fresh : ra_initialized r = false -> ra_frames r = ∅;
  wi_keys : forall k, is_Some (ra_frames r !! k) ->
    0 <= k <= ra_highestStarted r /\ ra_highestStarted r <= k + 64 }.

Lemma windowed_room r : windowed r -> Z.of_nat (size (ra_frames r)) < kMaxInFlight.
Proof. intros [_ _ _ _ Hk]. apply window_room. intros k Hs. specialize (Hk k Hs). lia. Qed.

(** Any fragment, also of a frame that was given up long ago. *)
Lemma feed_windowed h p r :
  windowed r -> frag_ok h p -> key_ok (uh_sequence h) ->
  exists out r', feed h p r = FedOk out r' /\ reassembler_ok r' /\ windowed (gc r') /\
    (forall k fb, ra_frames (gc r') !! k = Some fb -> ra_frames r' !! k = Some fb) /\
    (uh_fragmentCount h <> 1 -> is_Some out -> ra_frames r' !! uh_sequence h = None).
Proof.
  intros Hw Hf Hn. pose proof (windowed_room r Hw) as Hroom. destruct Hw as [H1 H2 H3 H4 H5].
  destruct (feed_inv h p r Hf H1) as [(out & r' & E & Hr')|(_ & _ & Hs & _)]; [|lia].
  destruct (feed_shape h p r out r' E H2) as (Hd & Hsh).
  assert (Hshape : key_ok (ra_highestStarted r') /\ (ra_initialized r' = false -> ra_frames r' = ∅) /\
    (forall k, is_Some (ra_frames r' !! k) -> 0 <= k <= ra_highestStarted r') /\
    (uh_fragmentCount h <> 1 -> is_Some out -> ra_frames r' !! uh_sequence h = None)).
  { unfold key_ok in *. destruct Hsh as [(Ec & Ef & Eh & Ei)|(Eh & Ei & Hk & Ho)].
    - rewrite Ef, Eh, Ei. split_and!; try done; try lia. intros k Hs. by apply H5.
    - rewrite Eh, Ei. destruct (ra_initialized r) eqn:Er; cbn [negb orb].
      + destruct (Z.ltb_spec (ra_highestStarted r) (uh_sequence h)); (split_and!; try done; try lia);
          intros k [->|Hs]%Hk; try lia; specialize (H5 k Hs); lia.
      + rewrite H4 in Hk by done. split_and!; try done; try lia.
        intros k [->|[? Hs]]%Hk; [lia|]. by rewrite lookup_empty in Hs. }
  destruct Hshape as (K1 & K2 & K3 & K4).
  assert (Hkey : map_Forall (fun k _ => key_ok k) (ra_frames r')).
  { intros k x Hx. specialize (K3 k (mk_is_Some _ _ Hx)). unfold key_ok in *. lia. }
  pose proof (gcLoop_spec _ r' eq_refl Hd Hkey) as Eg. fold (gc r') in Eg. cbn zeta in Eg.
  assert (Hsub : forall k fb, ra_frames (gc r') !! k = Some fb -> ra_frames r' !! k = Some fb /\ ra_highestStarted r' <= k + 64).
  { intros k fb. rewrite Eg. cbn [ra_frames]. intros [Hx Hfr]%map_lookup_filter_Some. done. }
  exists out, r'. split_and!; try done; [|intros k fb Hx; by apply (Hsub k fb)].
  split.
  - by apply gcLoop_ok.
  - rewrite Eg. apply u64_fits.
  - by rewrite Eg.
  - rewrite Eg. cbn [ra_initialized ra_frames]. intros Hi. rewrite (K2 Hi). apply map_filter_empty.
  - intros k [x Hx]. destruct (Hsub k x Hx) as [Hx' Hfr]. specialize (K3 k (mk_is_Some _ _ Hx')).
    rewrite Eg. cbn [ra_highestStarted]. lia.
Qed.

(** * The jitter buffer *)

(** After some pushes and polls: what was given out is in order, not ahead of what
    waits, and with what waits it was pushed, no more often than that. *)
Record given (pushed outs : list AssembledFrame) (b : JitterBuffer) : Prop := {
  gv_ok : jitter_ok b;
  gv_typed : jitter_typed b;
  gv_sorted : StronglySorted frame_le outs;
  gv_last : Forall (fun f => jb_initialized b = true /\ af_sequence f <= jb_lastPoppedSequence b) outs;
  gv_from : outs ++ (en_frame <$> jb_queue b) ⊆+ pushed }.

Lemma given_target pushed outs b ms : given pushed outs b -> given pushed outs (setTargetMs ms b).
Proof. intros [[] ? ? ? ?]. by split. Qed.

Lemma given_push pushed outs b f now :
  given pushed outs b -> fits 64 (af_sequence f) -> given (f :: pushed) outs (push f now b).
Proof.
  intros [H1 H2 H3 H4 H5] Hf.
  destruct (step_ok (OpPush f now) b H1 H2 Hf) as [Hok Ht]. cbn [jitterStep snd] in Hok, Ht.
  split; try done.
  all: destruct (push_cases f now b H1 (proj1 (proj2 H2))) as [(_ & _ & _ & ->)|(_ & k & q1 & q2 & Eq & _ & _ & _ & ->)];
    cbn [jb_initialized jb_lastPoppedSequence jb_queue]; try done.
  - by constructor.
  - rewrite fmap_app, fmap_cons. cbn [en_frame]. rewrite <- Permutation_middle, <- Permutation_middle.
    apply submseteq_skip. etransitivity; [|exact H5]. apply submseteq_app; [done|].
    rewrite <- fmap_app, <- Eq, fmap_drop. apply sublist_submseteq, sublist_drop.
Qed.

Lemma given_pop pushed outs b now out b' :
  given pushed outs b -> pop now b = (out, b') -> given pushed (outs ++ out) b'.
Proof.
  intros [H1 H2 H3 H4 H5] Hp. pose proof (step_ok (OpPop now) b H1 H2 I) as [Hok Ht]. cbn [jitterStep snd] in Hok, Ht.
  rewrite Hp in Hok, Ht. unfold pop in Hp. pose proof (popLoop_popped (length (jb_queue b)) now b H1 (proj1 H2)) as P.
  rewrite Hp in P. destruct P as [(q & Eq & Eo) _ _ _ _ Hl]. cbn [fst snd] in *.
  destruct Hl as [[-> ->]|[Hi (o & f & Ef & El)]]; [rewrite app_nil_r; by split|].
  destruct H1 as [Hs _ _ Ha]. rewrite Eq in Hs, Ha. rewrite Eo in Ef.
  pose proof (last_popped_max q (jb_queue b') f Hs (ex_intro _ o Ef)) as Hmax. rewrite <- Eo in Hmax.
  assert (Hlow : forall g, jb_initialized b = true -> g ∈ out -> jb_lastPoppedSequence b <= af_sequence g).
  { intros g Hb Hg. specialize (Ha Hb). apply Forall_app in Ha as [Ha _]. rewrite Eo in Hg.
    apply list_elem_of_fmap in Hg as (e & -> & He). rewrite list.Forall_forall in Ha. by apply Ha. }
  assert (Hf : f ∈ out) by (rewrite Eo, Ef; set_solver).
  rewrite list.Forall_forall in H4, Hmax. split; try done.
  - apply StronglySorted_app. split_and!; [|done|].
    + intros x y Hx Hy. destruct (H4 x Hx) as [Hb Hx']. specialize (Hlow y Hb Hy). unfold frame_le. lia.
    + rewrite Eo. apply StronglySorted_app_1_l in Hs. clear -Hs. induction Hs as [|x l _ IH Hx]; [constructor|].
      cbn. constructor; [done|]. by apply Forall_fmap.
  - rewrite list.Forall_forall, El. intros g [Hg|Hg]%elem_of_app; (split; [done|]).
    + destruct (H4 g Hg) as [Hb Hg']. specialize (Hlow f Hb Hf). lia.
    + by apply Hmax.
  - rewrite <- app_assoc, Eo, <- fmap_app, <- Eq. done.
Qed.

(** * The frames of a stream *)

(** A frame given to [sendFrame]. *)
Record SentFrame := mkSent { sf_keyframe : bool; sf_timestampNs : Z; sf_data : bytes }.

Definition sent_ok (x : SentFrame) : Prop :=
  0 < zlen (sf_data x) <= 1024 * 1100 /\ fits 64 (sf_timestampNs x).

#[export] Instance sent_ok_dec x : Decision (sent_ok x).
Proof. unfold sent_ok. apply _. Defined.

(** Buffers that go away take their pieces with them. *)
Lemma tracked_sub kf seqn ts data S r r' :
  tracked kf seqn ts data S r -> reassembler_ok r' ->
  (forall k fb, ra_frames r' !! k = Some fb -> ra_frames r !! k = Some fb) ->
  exists S', S' ⊆ S /\ tracked kf seqn ts data S' r'.
Proof.
  intros [_ HS] Hr Hsub. destruct (ra_frames r' !! seqn) as [fb|] eqn:E.
  - exists S. rewrite (Hsub _ _ E) in HS. split; [done|]. split; [done|]. by rewrite E.
  - exists []. split; [set_solver|]. split; [done|]. by rewrite E.
Qed.

(** The fragments of frames from number [k] on, in sending order, as frame and index. *)
Fixpoint positions (k : nat) (xs : list SentFrame) : list (nat * nat) :=
  match xs with
  | [] => []
  | x :: xs => (pair k <$> seq 0 (Z.to_nat (nfrags (sf_data x)))) ++ positions (S k) xs
  end.

Lemma positions_app k xs ys : positions k (xs ++ ys) = positions k xs ++ positions (k + length xs) ys.
Proof.
  revert k. induction xs as [|x xs IH]; intros k; cbn [positions app length]; [by rewrite Nat.add_0_r|].
  by rewrite IH, <- app_assoc, Nat.add_succ_r.
Qed.

Lemma positions_in k xs ki :
  ki ∈ positions k xs -> exists j x, fst ki = (k + j)%nat /\ xs !! j = Some x /\ Z.of_nat (snd ki) < nfrags (sf_data x).
Proof.
  revert k. induction xs as [|x xs IH]; intros k; cbn [positions]; [by intros ?%not_elem_of_nil|].
  intros [(i & -> & Hi%elem_of_seq)%list_elem_of_fmap|Hin]%elem_of_app.
  - exists 0%nat, x. cbn. split_and!; [lia|done|lia].
  - destruct (IH (S k) Hin) as (j & y & -> & Hy & Hi). exists (S j), y. split_and!; [lia|done|done].
Qed.

Lemma positions_NoDup k xs : NoDup (positions k xs).
Proof.
  revert k. induction xs as [|x xs IH]; intros k; cbn [positions]; [constructor|]. apply list.NoDup_app. split_and!; [| |apply IH].
  - apply NoDup_fmap_2; [by intros ? ? [=]|apply NoDup_seq].
  - intros ki (i & -> & _)%list_elem_of_fmap (j & y & E & _)%positions_in. cbn in E. lia.
Qed.

(** Their datagrams. *)
Fixpoint wireOf (n0 sid : Z) (k : nat) (xs : list SentFrame) : list bytes :=
  match xs with
  | [] => []
  | x :: xs => frameDatagrams UdpVideo (sf_keyframe x) sid (n0 + Z.of_nat k) (sf_timestampNs x) (sf_data x) ++ wireOf n0 sid (S k) xs
  end.

Lemma wireOf_app n0 sid k xs ys : wireOf n0 sid k (xs ++ ys) = wireOf n0 sid k xs ++ wireOf n0 sid (k + length xs) ys.
Proof.
  revert k. induction xs as [|x xs IH]; intros k; cbn [wireOf app length]; [by rewrite Nat.add_0_r|].
  by rewrite IH, <- app_assoc, Nat.add_succ_r.
Qed.

(** The arrivals of a network that have been sent, with what they are. *)
Definition located {A} (ps : list A) (arrivals : list (Clock * nat)) : list (Clock * A) :=
  omap (fun x => p ← ps !! snd x; Some (fst x, p)) arrivals.

Lemma located_network (ps : list (nat * nat)) g arrivals :
  network arrivals (g <$> ps) = prod_map id g <$> located ps arrivals.
Proof.
  unfold network, located. induction arrivals as [|[ck j] l IH]; [done|]. cbn [omap list_omap fst snd].
  rewrite list_lookup_fmap. destruct (ps !! j); cbn [fmap option_fmap option_map mbind option_bind]; [|done]. cbn. by rewrite IH.
Qed.

(** Indices of [js] name the elements [hist] of [ps]. *)
Definition names {A} (ps : list A) (js : list nat) (hist : list A) : Prop := Forall2 (fun j p => ps !! j = Some p) js hist.

Lemma names_NoDup {A} (ps : list A) js hist : names ps js hist -> NoDup ps -> NoDup js -> NoDup hist.
Proof.
  intros Hf Hps. induction Hf as [|j p js hist Hj Hf IH]; [constructor|].
  intros [Hnew Hnd]%list.NoDup_cons. apply list.NoDup_cons. split; [|by apply IH].
  intros (i & Hi)%list_elem_of_lookup. apply Hnew.
  destruct (Forall2_lookup_r _ _ _ _ _ Hf Hi) as (j' & Hj' & E). cbn in E.
  assert (j' = j) as <- by (apply (list.NoDup_lookup ps _ _ p Hps); done). by eapply list_elem_of_lookup_2.
Qed.

Lemma located_names {A} (ps all : list A) arrivals :
  ps `prefix_of` all -> exists js, js ⊆+ arrivals.*2 /\ names all js (located ps arrivals).*2.
Proof.
  intros [rest ->]. unfold located. induction arrivals as [|[ck j] l (js & Hs & Hn)]; [by exists []; split; [|constructor]|].
  cbn [omap list_omap fst snd fmap list_fmap]. destruct (ps !! j) as [p|] eqn:E; cbn [mbind option_bind].
  - exists (j :: js). split; [by apply submseteq_skip|]. cbn. constructor; [|done]. by apply lookup_app_l_Some.
  - exists js. split; [by apply submseteq_cons|done].
Qed.

Lemma names_rev {A} (ps : list A) js hist : names ps js hist -> names ps (rev js) (rev hist).
Proof.
  intros Hf. induction Hf as [|j p js hist Hj Hf IH]; [constructor|]. cbn [rev].
  apply Forall2_app; [done|]. by constructor.
Qed.

Section Sent.
Context (n0 sid : Z) (sent : list SentFrame).

(** Frame [k] as it is put together again, and its fragment [i]. *)
Definition frameOf (k : nat) (x : SentFrame) : AssembledFrame :=
  theFrame UdpVideo (sf_keyframe x) sid (n0 + Z.of_nat k) (sf_timestampNs x) (sf_data x).

Definition fragmentOf (k : nat) (x : SentFrame) (i : nat) : UdpHeader * bytes :=
  frag UdpVideo (sf_keyframe x) sid (n0 + Z.of_nat k) (sf_timestampNs x) (sf_data x) i.

(** What the buffers hold has arrived: [hist] lists the fragments that reached the
    receiver, as frame and index. *)
Definition pieces (hist : list (nat * nat)) (r : FragmentReassembler) : Prop :=
  forall k x, sent !! k = Some x -> 1100 < zlen (sf_data x) ->
    exists S, (forall i, i ∈ S -> (k, i) ∈ hist) /\
      tracked (sf_keyframe x) (n0 + Z.of_nat k) (sf_timestampNs x) (sf_data x) S r.

Definition complete (hist : list (nat * nat)) (k : nat) (x : SentFrame) : Prop :=
  forall j, Z.of_nat j < nfrags (sf_data x) -> (k, j) ∈ hist.

Context (Hsid : fits 32 sid) (Hn0 : 0 <= n0) (Hn : n0 + zlen sent <= 2 ^ 64 - 64) (Hsent : Forall sent_ok sent).

Lemma sent_key k x : sent !! k = Some x -> key_ok (n0 + Z.of_nat k) /\ sent_ok x.
Proof using Hn0 Hn Hsent.
  intros Hk. pose proof (lookup_lt_Some _ _ _ Hk). rewrite list.Forall_lookup in Hsent. unfold key_ok. split; [lia|by eapply Hsent].
Qed.

(** A fragment of the stream: the window and the pieces stay, and what completes is
    the frame that was sent, all of whose fragments have arrived. *)
Lemma feed_pieces hist k i x r :
  sent !! k = Some x -> Z.of_nat i < nfrags (sf_data x) -> windowed r -> pieces hist r ->
  exists out r', feed (fst (fragmentOf k x i)) (snd (fragmentOf k x i)) r = FedOk out r' /\
    windowed (gc r') /\ pieces ((k, i) :: hist) (gc r') /\
    (out = None \/ (out = Some (frameOf k x) /\ complete ((k, i) :: hist) k x)).
Proof using Hsid Hn0 Hn Hsent.
  intros Hk Hi Hw Hp. destruct (sent_key k x Hk) as [Hkey [Hsize Hts]].
  destruct (wire_fragment (sf_keyframe x) sid (n0 + Z.of_nat k) (sf_timestampNs x) (sf_data x) Hsid Hkey Hts i Hsize Hi)
    as (_ & _ & _ & _ & Hf). fold (fragmentOf k x i) in Hf.
  assert (Es : uh_sequence (fst (fragmentOf k x i)) = n0 + Z.of_nat k) by done.
  destruct (feed_windowed _ _ r Hw Hf ltac:(by rewrite Es)) as (out & r' & E & Hr & Hw' & Hsub & Hgone). rewrite Es in Hgone.
  exists out, r'. split_and!; [done|done|..].
  - intros k' x' Hk' Hbig. destruct (Hp k' x' Hk' Hbig) as (S & HS & Ht).
    assert (G : exists S', (forall j, j ∈ S' -> (k', j) ∈ (k, i) :: hist) /\
              tracked (sf_keyframe x') (n0 + Z.of_nat k') (sf_timestampNs x') (sf_data x') S' r').
    { destruct (sent_key k' x' Hk') as [_ [Hsize' _]]. destruct (decide (k' = k)) as [-> |Hne].
      - rewrite Hk in Hk'. injection Hk' as <-.
        destruct (tracked_own UdpVideo (sf_keyframe x) sid (n0 + Z.of_nat k) (sf_timestampNs x) (sf_data x)
          ltac:(lia) i S r Hi Ht (fun _ => windowed_room _ Hw)) as [(r2 & E2 & _)|(r2 & E2 & Ht' & _)];
          fold (fragmentOf k x i) in E2; rewrite E in E2; injection E2 as -> ->.
        + exists []. split; [by intros ? ?%not_elem_of_nil|]. split; [done|]. rewrite Hgone; [done| |by eexists].
          pose proof (nfrags_bounds (sf_data x) ltac:(lia)) as Hnf. cbn. lia.
        + exists (i :: S). split; [|done]. intros j [->|Hj]%elem_of_cons; [by left|right; by apply HS].
      - destruct (tracked_other (sf_keyframe x') (n0 + Z.of_nat k') (sf_timestampNs x') (sf_data x')
          _ _ S r ltac:(rewrite Es; lia) Hf Ht (fun _ => windowed_room _ Hw)) as (o2 & r2 & E2 & Ht' & _).
        rewrite E in E2. injection E2 as <- <-. exists S. split; [|done]. intros j Hj. right. by apply HS. }
    destruct G as (S' & HS' & Ht'). destruct (tracked_sub _ _ _ _ S' r' (gc r') Ht' (wi_ok _ Hw') Hsub) as (S2 & HS2 & Ht2).
    exists S2. split; [|done]. intros j Hj. apply HS', HS2, Hj.
  - destruct (decide (zlen (sf_data x) <= 1100)) as [Hsm|Hbig].
    + right. assert (i = 0%nat) as -> by (rewrite small_count in Hi by lia; lia).
      pose proof E as E0. unfold fragmentOf in E0. rewrite small_fragment in E0 by lia. unfold feed in E0.
      cbn [fst snd uh_fragmentCount uh_payloadSize Z.eqb Pos.eqb] in E0. rewrite Z.ltb_irrefl in E0. injection E0 as <- _.
      split; [unfold frameOf, theFrame; rewrite Nat2Z.id, firstn_all; by destruct (sf_keyframe x)|].
      intros j Hj. rewrite small_count in Hj by lia. assert (j = 0%nat) as -> by lia. by left.
    + destruct (Hp k x Hk ltac:(lia)) as (S & HS & Ht).
      destruct (tracked_own UdpVideo (sf_keyframe x) sid (n0 + Z.of_nat k) (sf_timestampNs x) (sf_data x)
        ltac:(lia) i S r Hi Ht (fun _ => windowed_room _ Hw)) as [(r2 & E2 & Ha)|(r2 & E2 & _)];
        fold (fragmentOf k x i) in E2; rewrite E in E2; injection E2 as -> ->; [right|by left].
      split; [done|]. intros j Hj. specialize (Ha j Hj). apply elem_of_cons in Ha as [->|Ha]; [by left|right; by apply HS].
Qed.

(** * The transport *)

Context {Endpoint : Type} `{EqDecision Endpoint} {Sink : Type} `{UdpCryptoSink Sink}.
Implicit Types t : UdpTransport (Endpoint := Endpoint) (Sink := Sink).

(** Which frame of the stream a frame is, by its sequence. *)
Definition indexOf (f : AssembledFrame) : nat := Z.to_nat (af_sequence f - n0).

Definition ofStream (f : AssembledFrame) : Prop :=
  n0 <= af_sequence f /\ exists x, sent !! indexOf f = Some x /\ f = frameOf (indexOf f) x.

(** A receiver that the fragments [hist] have reached, in which the frames [pushed] were
    completed, and that has handed out [outs]. *)
Record heard (hist : list (nat * nat)) (pushed outs : list AssembledFrame) (from : Endpoint) t : Prop := {
  he_hears : hears sid from t;
  he_window : windowed (videoReassembly t);
  he_pieces : pieces hist (videoReassembly t);
  he_jitter : given pushed outs (videoJitter t);
  he_audio : jb_queue (audioJitter t) = [];
  he_stream : Forall ofStream pushed;
  he_complete : forall f x, f ∈ pushed -> sent !! indexOf f = Some x -> complete hist (indexOf f) x;
  he_once : NoDup hist -> NoDup (indexOf <$> pushed) }.

Lemma frameOf_stream k x : sent !! k = Some x -> indexOf (frameOf k x) = k /\ ofStream (frameOf k x).
Proof using.
  intros Hk. assert (E : indexOf (frameOf k x) = k) by (unfold indexOf; cbn [frameOf theFrame af_sequence]; lia).
  split; [done|]. split; [cbn [frameOf theFrame af_sequence]; lia|]. rewrite E. by exists x.
Qed.

Definition datagramOf (k i : nat) : bytes :=
  match sent !! k with
  | Some x => videoDatagram (sf_keyframe x) sid (n0 + Z.of_nat k) (sf_timestampNs x) (sf_data x) i
  | None => []
  end.

(** A fragment of the stream that can reach the receiver. *)
Definition genuine (ki : nat * nat) : Prop := exists x, sent !! fst ki = Some x /\ Z.of_nat (snd ki) < nfrags (sf_data x).

Lemma hear_one hist pushed outs from k i ck t :
  heard hist pushed outs from t -> genuine (k, i) ->
  exists pushed' t', handleDatagram (datagramOf k i) from ck t = Handles [] t' /\ heard ((k, i) :: hist) pushed' outs from t'.
Proof using Hsid Hn0 Hn Hsent.
  intros [L1 L2 L3 L4 L5 L6 L7 L8] (x & Hk & Hi). cbn [fst snd] in *.
  destruct (sent_key k x Hk) as [Hkey [Hsize Hts]]. destruct (frameOf_stream k x Hk) as [Ei Hof].
  destruct (feed_pieces hist k i x _ Hk Hi L2 L3) as (out & r & Ef & Hw & Hp & Ho).
  destruct (wire_fragment (sf_keyframe x) sid (n0 + Z.of_nat k) (sf_timestampNs x) (sf_data x) Hsid Hkey Hts i Hsize Hi)
    as (W1 & W2 & W3 & W4 & _). fold (fragmentOf k x i) in W1, W2, W3, W4.
  destruct (handle_video (fst (fragmentOf k x i)) (snd (fragmentOf k x i)) from ck t out r W1 W2 eq_refl W3 W4 L1 Ef)
    as (t' & E & E1 & E2 & E3 & E4 & _).
  { intros f ->. by destruct Ho as [|[[= ->] _]]. }
  exists (match out with Some f => f :: pushed | None => pushed end), t'. unfold datagramOf. rewrite Hk. split; [exact E|].
  assert (Hmore : forall f x', f ∈ pushed -> sent !! indexOf f = Some x' -> complete ((k, i) :: hist) (indexOf f) x').
  { intros f x' Hf Hx j Hj. right. by apply (L7 f x'). }
  destruct Ho as [-> |[-> Hc]]; split; rewrite ?E2, ?E3, ?E4; try done.
  - intros [_ Hnd]%list.NoDup_cons. by apply L8.
  - apply given_push; [by apply given_target|]. unfold key_ok in Hkey. cbn [frameOf theFrame af_sequence]. widths. lia.
  - by constructor.
  - intros f x' [->|Hf]%elem_of_cons Hx; [|by apply Hmore]. rewrite Ei in *. rewrite Hk in Hx. by injection Hx as <-.
  - intros [Hnew Hnd]%list.NoDup_cons. rewrite fmap_cons, Ei. apply list.NoDup_cons. split; [|by apply L8].
    intros (f & Ek & Hf)%list_elem_of_fmap. apply Hnew. rewrite Ek. apply (L7 f x Hf); [by rewrite <- Ek|done].
Qed.

Lemma hear_all hist pushed outs from arr t :
  heard hist pushed outs from t -> Forall genuine arr.*2 ->
  exists pushed' t', receiveAll (prod_map id (uncurry datagramOf) <$> arr) from t = Some t' /\
    heard (rev arr.*2 ++ hist) pushed' outs from t'.
Proof using Hsid Hn0 Hn Hsent.
  revert hist pushed t. induction arr as [|[ck [k i]] arr IH]; intros hist pushed t Ht Hg; [by exists pushed, t|].
  apply Forall_cons_iff in Hg as [Hg1 Hg]. destruct (hear_one _ _ _ from k i ck t Ht Hg1) as (p1 & t1 & E & Ht1).
  destruct (IH _ _ t1 Ht1 Hg) as (p2 & t2 & E2 & Ht2). exists p2, t2.
  cbn [fmap list_fmap receiveAll prod_map fst snd id uncurry rev]. rewrite E. split; [done|]. by rewrite <- app_assoc.
Qed.

Lemma hear_poll hist pushed outs from now t :
  heard hist pushed outs from t -> exists out t', pollVideo now t = (out, t') /\ heard hist pushed (outs ++ out) from t'.
Proof using.
  intros [L1 L2 L3 L4 L5 L6 L7 L8]. unfold pollVideo.
  destruct (pop now (md_videoJitter (tr_media t))) as [out j] eqn:E. pose proof (given_pop _ _ _ _ _ _ L4 E) as Hj.
  eexists _, _. split; [done|]. by split.
Qed.

(** What was handed out, as indices of the stream. *)
Lemma heard_order hist pushed outs from t :
  heard hist pushed outs from t ->
  Forall (fun f => exists x, sent !! indexOf f = Some x /\ f = frameOf (indexOf f) x) outs /\
  StronglySorted le (indexOf <$> outs) /\ (NoDup hist -> NoDup (indexOf <$> outs)).
Proof using.
  clear Hsid Hn0 Hn Hsent.
  intros [_ _ _ [_ _ Hs _ Hfrom] _ Hst _ Honce].
  assert (Hin : forall f, f ∈ outs -> ofStream f).
  { intros f Hf. rewrite list.Forall_forall in Hst. apply Hst. eapply elem_of_submseteq; [|exact Hfrom]. set_solver. }
  split_and!.
  - apply list.Forall_forall. intros f Hf. by apply Hin.
  - clear -Hs Hin. induction Hs as [|f l _ IH Hf]; [constructor|]. rewrite fmap_cons. constructor.
    + apply IH. intros g Hg. apply Hin. by right.
    + apply Forall_fmap, list.Forall_forall. intros g Hg. rewrite list.Forall_forall in Hf. specialize (Hf g Hg).
      unfold frame_le in Hf. cbn. unfold indexOf. lia.
  - intros Hnd. specialize (Honce Hnd). apply submseteq_Permutation in Hfrom as [k Ek].
    rewrite Ek, <- app_assoc, fmap_app in Honce. by apply list.NoDup_app in Honce as [? _].
Qed.

(** The wire, fragment by fragment. *)
Lemma wireOf_positions pre xs post :
  sent = pre ++ xs ++ post -> wireOf n0 sid (length pre) xs = uncurry datagramOf <$> positions (length pre) xs.
Proof using Hsent.
  revert pre. induction xs as [|x xs IH]; intros pre E; cbn [wireOf positions]; [done|].
  assert (Hx : sent !! length pre = Some x) by (rewrite E; apply lookup_mid).
  assert (Hok : sent_ok x) by (rewrite list.Forall_lookup in Hsent; by eapply Hsent).
  rewrite video_datagrams by apply Hok. rewrite fmap_app, <- list_fmap_compose. f_equal.
  - apply list_fmap_ext. intros ? i _. unfold compose. cbn [uncurry]. unfold datagramOf. by rewrite Hx.
  - specialize (IH (pre ++ [x])). rewrite length_app, Nat.add_1_r in IH. apply IH. by rewrite <- app_assoc.
Qed.

Lemma positions_genuine : Forall genuine (positions 0 sent).
Proof using.
  clear Hsid Hn0 Hn Hsent.
  apply list.Forall_forall. intros ki (j & x & Ej & Hx & Hi)%positions_in. exists x. by rewrite Ej.
Qed.

End Sent.
