(* ===== verification/TcpTransport.v ===== *)
(** networking/TcpTransport.cpp: the control channel over TCP.

    A connection is a state; closures posted to its executor are a queue of
    tasks. An [async_read] of [n] bytes is the state that still needs [n] bytes,
    fed byte by byte as the stream delivers them; an [async_write] is a write
    event followed, later, by its completion. Callbacks are events. *)

From S2P Require Import Prelude Types Packet.

(** * TcpConnection *)

(** The error codes the code distinguishes. *)
Inductive Err := ErrNone | ErrEof | ErrAborted | ErrInvalidArgument | ErrTimedOut | ErrRefused | ErrOther (code : Z).

#[export] Instance Err_eq_dec : EqDecision Err.
Proof. solve_decision. Defined.

Definition isErr (ec : Err) : bool := negb (bool_decide (ec = ErrNone)).

(** The outstanding [async_read], with the bytes it has so far. *)
Inductive ReadState :=
| RdNone
| RdHeader
| RdBody (type flags size : Z).

#[export] Instance ReadState_eq_dec : EqDecision ReadState.
Proof. solve_decision. Defined.

(** Closures posted by the thread-safe methods. *)
Inductive ConnTask :=
| CtStart
| CtSend (frame : bytes)
| CtSendAndClose (frame : bytes)
| CtClose.

Record TcpConnection := mkConn {
  tc_closed : bool; tc_writing : bool; tc_closeAfterWrite : bool; tc_outbox : list bytes;
  tc_read : ReadState; tc_partial : bytes; tc_tasks : list ConnTask }.

Inductive ConnEvent :=
| CvFrame (type flags : Z) (payload : bytes)
| CvClosed (ec : Err)
| CvWrite (data : bytes).

#[export] Instance ConnEvent_eq_dec : EqDecision ConnEvent.
Proof. solve_decision. Defined.

Definition makeConn : TcpConnection := mkConn false false false [] RdNone [] [].

Definition postConn (task : ConnTask) (c : TcpConnection) : TcpConnection :=
  mkConn (tc_closed c) (tc_writing c) (tc_closeAfterWrite c) (tc_outbox c) (tc_read c) (tc_partial c)
    (tc_tasks c ++ [task]).

Definition setRead (r : ReadState) (partial : bytes) (c : TcpConnection) : TcpConnection :=
  mkConn (tc_closed c) (tc_writing c) (tc_closeAfterWrite c) (tc_outbox c) r partial (tc_tasks c).

Definition setWrite (writing closeAfter : bool) (outbox : list bytes) (c : TcpConnection) : TcpConnection :=
  mkConn (tc_closed c) writing closeAfter outbox (tc_read c) (tc_partial c) (tc_tasks c).

(** ** Public methods: post *)

Definition start (c : TcpConnection) : TcpConnection := postConn CtStart c.
Definition send4 (type flags : Z) (payload : option bytes) (payloadSize : Z) (c : TcpConnection) : TcpConnection :=
  postConn (CtSend (makeFrame4 type flags payload payloadSize)) c.
Definition send (type : Z) (payload : bytes) (c : TcpConnection) : TcpConnection :=
  send4 type 0 (if bool_decide (payload = []) then None else Some payload) (u32 (zlen payload)) c.
Definition sendAndClose (type : Z) (payload : bytes) (c : TcpConnection) : TcpConnection :=
  postConn (CtSendAndClose (makeFrame type payload)) c.
Definition close (c : TcpConnection) : TcpConnection := postConn CtClose c.
Definition isOpen (c : TcpConnection) : bool := negb (tc_closed c).

(** The address and port of the peer, when the socket has one. *)
Definition endpointToString (remote : option (bytes * Z)) : bytes :=
  match remote with Some (address, port) => address ++ str ":" ++ print_dec port | None => str "unknown" end.
Definition remoteAddress (remote : option (bytes * Z)) : bytes := endpointToString remote.

(** ** The io thread *)

Definition shutdown (ec : Err) (c : TcpConnection) : list ConnEvent * TcpConnection :=
  if tc_closed c then ([], c)
  else ([CvClosed ec],
        mkConn true (tc_writing c) (tc_closeAfterWrite c) [] (tc_read c) (tc_partial c) (tc_tasks c)).

Definition pumpWrite (c : TcpConnection) : list ConnEvent * TcpConnection :=
  match tc_outbox c with
  | frame :: _ =>
      if tc_writing c || tc_closed c then ([], c)
      else ([CvWrite frame], setWrite true (tc_closeAfterWrite c) (tc_outbox c) c)
  | [] => ([], c)
  end.

(** Completion handler of the [async_write]. *)
Definition writeDone (ec : Err) (c : TcpConnection) : list ConnEvent * TcpConnection :=
  let c := setWrite false (tc_closeAfterWrite c) (tc_outbox c) c in
  if isErr ec then shutdown ec c
  else
    let c := setWrite false (tc_closeAfterWrite c) (drop 1 (tc_outbox c)) c in
    if tc_closeAfterWrite c && bool_decide (tc_outbox c = []) then shutdown ErrNone c
    else pumpWrite c.

Definition readHeader (c : TcpConnection) : TcpConnection := setRead RdHeader [] c.

Definition readBody (type flags payloadSize : Z) (c : TcpConnection) : list ConnEvent * TcpConnection :=
  if payloadSize =? 0 then
    ([CvFrame type flags []], if negb (tc_closed c) then readHeader c else setRead RdNone [] c)
  else ([], setRead (RdBody type flags payloadSize) [] c).

(** Completion handlers of the two reads. *)
Definition headerDone (ec : Err) (headerBuf : bytes) (c : TcpConnection) : list ConnEvent * TcpConnection :=
  let c := setRead RdNone [] c in
  if isErr ec then shutdown ec c
  else
    match parseFrameHeader headerBuf with
    | None => shutdown ErrInvalidArgument c
    | Some h => readBody (fh_type h) (fh_flags h) (fh_payloadSize h) c
    end.

Definition bodyDone (ec : Err) (type flags : Z) (bodyBuf : bytes) (c : TcpConnection) : list ConnEvent * TcpConnection :=
  let c := setRead RdNone [] c in
  if isErr ec then shutdown ec c
  else ([CvFrame type flags bodyBuf], if negb (tc_closed c) then readHeader c else c).

(** How many bytes the outstanding read needs in all. *)
Definition needed (r : ReadState) : option nat :=
  match r with
  | RdNone => None
  | RdHeader => Some kFrameHeaderSize
  | RdBody _ _ size => Some (Z.to_nat size)
  end.

Definition readDone (ec : Err) (buf : bytes) (c : TcpConnection) : list ConnEvent * TcpConnection :=
  match tc_read c with
  | RdNone => ([], c)
  | RdHeader => headerDone ec buf c
  | RdBody type flags _ => bodyDone ec type flags buf c
  end.

(** One byte of the stream reaches an open connection's outstanding read. *)
Definition onByte (b : Z) (c : TcpConnection) : list ConnEvent * TcpConnection :=
  if tc_closed c then ([], c)
  else
    match needed (tc_read c) with
    | None => ([], c)
    | Some n =>
        let p := tc_partial c ++ [b] in
        if (n <=? length p)%nat then readDone ErrNone p c
        else ([], setRead (tc_read c) p c)
    end.

Fixpoint deliver (bs : bytes) (c : TcpConnection) : list ConnEvent * TcpConnection :=
  match bs with
  | [] => ([], c)
  | b :: bs =>
      let '(e1, c) := onByte b c in
      let '(e2, c) := deliver bs c in (e1 ++ e2, c)
  end.

Definition runConnTask (task : ConnTask) (c : TcpConnection) : list ConnEvent * TcpConnection :=
  match task with
  | CtStart => ([], if negb (tc_closed c) then readHeader c else c)
  | CtSend frame =>
      if tc_closed c then ([], c)
      else pumpWrite (setWrite (tc_writing c) (tc_closeAfterWrite c) (tc_outbox c ++ [frame]) c)
  | CtSendAndClose frame =>
      if tc_closed c then ([], c)
      else pumpWrite (setWrite (tc_writing c) true (tc_outbox c ++ [frame]) c)
  | CtClose => shutdown ErrNone c
  end.

Definition runNextConn (c : TcpConnection) : list ConnEvent * TcpConnection :=
  match tc_tasks c with
  | [] => ([], c)
  | task :: rest =>
      runConnTask task (mkConn (tc_closed c) (tc_writing c) (tc_closeAfterWrite c) (tc_outbox c) (tc_read c)
                          (tc_partial c) rest)
  end.

(** * TcpServer *)

Record TcpServer := mkServer { sv_stopped : bool; sv_acceptorOpen : bool; sv_accepting : bool }.

Inductive ServerEvent := SvConnection.

Definition acceptNext (s : TcpServer) : TcpServer :=
  if sv_stopped s then s else mkServer (sv_stopped s) (sv_acceptorOpen s) true.

Definition setConnectionHandler (s : TcpServer) : TcpServer := acceptNext s.

(** [port()], given the acceptor's local endpoint. *)
Definition serverPort (localPort : option Z) : Z := match localPort with Some p => p | None => 0 end.

(** [stop()] posts the close of the acceptor; [stopPosted] runs it. *)
Definition stopServer (s : TcpServer) : TcpServer := mkServer true (sv_acceptorOpen s) (sv_accepting s).
Definition stopPosted (s : TcpServer) : TcpServer := mkServer (sv_stopped s) false (sv_accepting s).

(** Completion of [async_accept]. *)
Definition onAccept (ec : Err) (s : TcpServer) : list ServerEvent * TcpServer :=
  let s := mkServer (sv_stopped s) (sv_acceptorOpen s) false in
  if sv_stopped s then ([], s)
  else if bool_decide (ec = ErrAborted) then ([], s)
  else if isErr ec then ([], acceptNext s)
  else ([SvConnection], acceptNext s).

(** * Connect attempts

    [ConnectAttempt] and [RelayConnectAttempt]: the same life cycle, the second
    with a line-based handshake between connecting and success. *)

Inductive Phase := PhResolving | PhConnecting | PhHandshake | PhReply | PhDone.

#[export] Instance Phase_eq_dec : EqDecision Phase.
Proof. solve_decision. Defined.

Record Attempt := mkAttempt {
  at_relay : bool; at_token : bytes; at_role : bytes; at_phase : Phase; at_finished : bool; at_replyBuf : bytes }.

Inductive AttemptEvent :=
| AvResult (ec : Err) (connected : bool)
| AvSendLine (line : bytes).

#[export] Instance AttemptEvent_eq_dec : EqDecision AttemptEvent.
Proof. solve_decision. Defined.

Inductive AttemptInput :=
| AiTimer (ec : Err)
| AiResolved (ec : Err)
| AiConnected (ec : Err)
| AiWritten (ec : Err)
| AiReply (ec : Err) (received : bytes)
| AiCancel.

Definition newAttempt (relay : bool) (token role : bytes) : Attempt :=
  mkAttempt relay token role PhResolving false [].

Definition setPhase (p : Phase) (a : Attempt) : Attempt :=
  mkAttempt (at_relay a) (at_token a) (at_role a) p (at_finished a) (at_replyBuf a).

Definition setReplyBuf (b : bytes) (a : Attempt) : Attempt :=
  mkAttempt (at_relay a) (at_token a) (at_role a) (at_phase a) (at_finished a) b.

(** [finish]: the result callback fires here and nowhere else. *)
Definition finish (ec : Err) (connected : bool) (a : Attempt) : list AttemptEvent * Attempt :=
  if at_finished a then ([], a)
  else ([AvResult ec connected],
        mkAttempt (at_relay a) (at_token a) (at_role a) PhDone true (at_replyBuf a)).

Definition cancel (a : Attempt) : Attempt :=
  if at_finished a then a
  else mkAttempt (at_relay a) (at_token a) (at_role a) (at_phase a) true (at_replyBuf a).

Definition quote : Z := 34.
Definition newline : Z := 10.

(** The pairing request sent to the relay. *)
Definition relayLine (token role : bytes) : bytes :=
  let q := [quote] in
  str "{" ++ q ++ str "type" ++ q ++ str ":" ++ q ++ str "relay" ++ q ++ str "," ++ q ++ str "token" ++ q ++
  str ":" ++ q ++ token ++ q ++ str "," ++ q ++ str "role" ++ q ++ str ":" ++ q ++ role ++ q ++ str "}" ++
  [newline].

(** [line.find(s) != npos]. *)
Fixpoint contains (line s : bytes) : bool :=
  bool_decide (take (length s) line = s) ||
  match line with
  | [] => false
  | _ :: line => contains line s
  end.

(** Splits at the first newline, which is removed. *)
Fixpoint splitLine (buf : bytes) : option (bytes * bytes) :=
  match buf with
  | [] => None
  | b :: buf =>
      if b =? newline then Some ([], buf)
      else match splitLine buf with Some (l, r) => Some (b :: l, r) | None => None end
  end.

(** [readReply]: every complete line in the buffer, until one decides. Each
    iteration removes a line. *)
Fixpoint readReply (fuel : nat) (a : Attempt) : list AttemptEvent * Attempt :=
  match fuel with
  | O => ([], a)
  | S fuel =>
      match splitLine (at_replyBuf a) with
      | None => ([], a)
      | Some (line, rest) =>
          let a := setReplyBuf rest a in
          if contains line (str "relay_rejected") then finish ErrRefused false a
          else if contains line (str "relay_paired") then finish ErrNone true a
          else readReply fuel a
      end
  end.

Definition attemptStep (i : AttemptInput) (a : Attempt) : list AttemptEvent * Attempt :=
  match i with
  | AiCancel => ([], cancel a)
  | AiTimer ec =>
      if bool_decide (ec = ErrAborted) then ([], a)
      else if at_finished a then ([], a)
      else finish ErrTimedOut false a
  | AiResolved ec =>
      if at_finished a then ([], a)
      else if isErr ec then finish ec false a
      else ([], setPhase PhConnecting a)
  | AiConnected ec =>
      if at_finished a then ([], a)
      else if isErr ec then finish ec false a
      else if at_relay a then ([AvSendLine (relayLine (at_token a) (at_role a))], setPhase PhHandshake a)
      else finish ErrNone true a
  | AiWritten ec =>
      if at_finished a then ([], a)
      else if isErr ec then finish ec false a
      else ([], setPhase PhReply a)
  | AiReply ec received =>
      if at_finished a then ([], a)
      else if isErr ec then finish ec false a
      else
        let buf := at_replyBuf a ++ received in
        readReply (S (length buf)) (setReplyBuf buf a)
  end.

Fixpoint attemptRun (inputs : list AttemptInput) (a : Attempt) : list AttemptEvent * Attempt :=
  match inputs with
  | [] => ([], a)
  | i :: inputs =>
      let '(e1, a) := attemptStep i a in
      let '(e2, a) := attemptRun inputs a in (e1 ++ e2, a)
  end.

(** * Clients

    [TcpClient]: the attempts it made, each of which keeps itself alive, and the one
    it remembers. *)

Module TcpClient.

Record TcpClient := mkClient { tl_attempts : list Attempt; tl_attempt : option nat }.

Definition newClient : TcpClient := mkClient [] None.

Definition addAttempt (a : Attempt) (c : TcpClient) : TcpClient :=
  mkClient (tl_attempts c ++ [a]) (Some (length (tl_attempts c))).

Definition connect (c : TcpClient) : TcpClient := addAttempt (newAttempt false [] []) c.
Definition connectRelay (token role : bytes) (c : TcpClient) : TcpClient := addAttempt (newAttempt true token role) c.

(** [None]: the pointer is cast to [ConnectAttempt], which it does not point to. *)
Definition cancel (c : TcpClient) : option TcpClient :=
  match tl_attempt c with
  | None => Some c
  | Some i =>
      a ← tl_attempts c !! i;
      if at_relay a then None else Some (mkClient (<[i := cancel a]> (tl_attempts c)) None)
  end.

Inductive ClientOp :=
  | TlConnect
  | TlConnectRelay (token role : bytes)
  | TlCancel
  | TlAttempt (i : nat) (input : AttemptInput).

(** What happens at the attempts, each event with its attempt. *)
Definition clientStep (op : ClientOp) (c : TcpClient) : option (list (nat * AttemptEvent) * TcpClient) :=
  match op with
  | TlConnect => Some ([], connect c)
  | TlConnectRelay token role => Some ([], connectRelay token role c)
  | TlCancel => c ← cancel c; Some ([], c)
  | TlAttempt i input =>
      match tl_attempts c !! i with
      | Some a =>
          let '(evs, a) := attemptStep input a in
          Some ((fun e => (i, e)) <$> evs, mkClient (<[i := a]> (tl_attempts c)) (tl_attempt c))
      | None => Some ([], c)
      end
  end.

Fixpoint clientRun (ops : list ClientOp) (c : TcpClient) : option (list (nat * AttemptEvent) * TcpClient) :=
  match ops with
  | [] => Some ([], c)
  | op :: ops =>
      '(e1, c) ← clientStep op c;
      '(e2, c) ← clientRun ops c;
      Some (e1 ++ e2, c)
  end.

(** The events of one attempt. *)
Definition eventsOf (i : nat) (evs : list (nat * AttemptEvent)) : list AttemptEvent :=
  omap (fun p => if decide (fst p = i) then Some (snd p) else None) evs.

End TcpClient.

(** * Reading *)

Lemma deliver_app a b c :
  deliver (a ++ b) c = let '(e1, c1) := deliver a c in let '(e2, c2) := deliver b c1 in (e1 ++ e2, c2).
Proof.
  revert c. induction a as [|x a IH]; intros c; cbn [app deliver].
  { by destruct (deliver b c). }
  destruct (onByte x c) as [e0 c0]. rewrite IH. destruct (deliver a c0) as [e1 c1].
  destruct (deliver b c1) as [e2 c2]. by rewrite app_assoc.
Qed.

(** Any way of cutting the stream into chunks gives the same events. *)
Definition deliverChunks (chunks : list bytes) (c : TcpConnection) : list ConnEvent * TcpConnection :=
  foldl (fun ec chunk => let '(e1, c1) := deliver chunk (snd ec) in (fst ec ++ e1, c1)) ([], c) chunks.

Lemma deliverChunks_concat chunks c : deliverChunks chunks c = deliver (concat chunks) c.
Proof.
  induction chunks as [|chunk chunks IH] using rev_ind; [done|].
  unfold deliverChunks in *. rewrite foldl_app. cbn [foldl]. rewrite IH.
  rewrite concat_app, deliver_app. cbn [concat]. rewrite app_nil_r.
  destruct (deliver (concat chunks) c) as [e1 c1]. cbn [fst snd]. by destruct (deliver chunk c1).
Qed.

(** An open connection waiting for a header, nothing read of it yet. *)
Definition atHeader (c : TcpConnection) : Prop :=
  tc_closed c = false /\ tc_read c = RdHeader /\ tc_partial c = [].

Lemma setRead_id c : setRead (tc_read c) (tc_partial c) c = c.
Proof. by destruct c. Qed.

(** Fewer bytes than the read needs only accumulate; the last one completes it. *)
Lemma deliver_partial bs c n :
  tc_closed c = false -> needed (tc_read c) = Some n -> (length (tc_partial c) + length bs < n)%nat ->
  deliver bs c = ([], setRead (tc_read c) (tc_partial c ++ bs) c).
Proof.
  revert c. induction bs as [|b bs IH]; intros c Hc Hn Hl; cbn [deliver].
  { by rewrite app_nil_r, setRead_id. }
  cbn [length] in Hl. unfold onByte. rewrite Hc, Hn, length_app. cbn [length].
  rewrite (proj2 (Nat.leb_gt _ _)) by lia. rewrite IH; cbn [setRead tc_closed tc_read tc_partial]; try done.
  - by rewrite <- app_assoc.
  - rewrite length_app. cbn [length]. lia.
Qed.

Lemma deliver_exact bs c n :
  tc_closed c = false -> needed (tc_read c) = Some n -> tc_partial c = [] -> length bs = n -> (0 < n)%nat ->
  deliver bs c = readDone ErrNone bs (setRead (tc_read c) (removelast bs) c).
Proof.
  intros Hc Hn Hp Hl Hpos. destruct bs as [|b bs _] using rev_ind; [cbn in Hl; lia|].
  rewrite length_app in Hl. cbn [length] in Hl. rewrite deliver_app.
  rewrite (deliver_partial bs c n) by (done || (rewrite Hp; cbn [length]; lia)).
  cbn [deliver]. unfold onByte. cbn [setRead tc_closed tc_read tc_partial]. rewrite Hc, Hn, Hp.
  rewrite app_nil_l, length_app. cbn [length]. rewrite (proj2 (Nat.leb_le _ _)) by lia.
  rewrite removelast_last. destruct (readDone _ _ _) as [e c']. by rewrite app_nil_r.
Qed.

(** One frame produces one event and leaves the connection where it was. *)
Lemma deliver_frame type payload c :
  fits 16 type -> zlen payload <= kMaxControlPayload -> atHeader c ->
  deliver (makeFrame type payload) c = ([CvFrame type 0 payload], c).
Proof.
  intros Ht Hp (Hc & Hr & Hb).
  assert (Hsz : zlen payload < 2 ^ 32) by (unfold kMaxControlPayload in Hp; widths; lia).
  rewrite makeFrame_eq, deliver_app by done.
  rewrite (deliver_exact _ c kFrameHeaderSize) by
    (rewrite ?Hr; done || apply frame_header_bytes_length || (unfold kFrameHeaderSize; lia)).
  rewrite Hr. cbn [readDone setRead tc_read]. unfold headerDone.
  cbn [isErr bool_decide negb]. change (isErr ErrNone) with false. cbn iota.
  rewrite <- (app_nil_r (frame_header_bytes _ _ _)), parse_frame_header_bytes by (done || lia).
  cbn [fh_type fh_flags fh_payloadSize]. unfold readBody. destruct (Z.eqb_spec (zlen payload) 0) as [E|E].
  - destruct payload; [|cbn in E; lia]. cbn [deliver app setRead tc_closed]. rewrite Hc. cbn [negb].
    unfold readHeader, setRead. cbn. rewrite <- Hr, <- Hb at 1. by destruct c; cbn in *; subst.
  - cbv beta iota.
    match goal with |- context [deliver payload ?c0] => set (c1 := c0) end.
    rewrite (deliver_exact payload c1 (length payload)) by
      (subst c1; cbn [needed tc_read tc_closed tc_partial setRead]; rewrite ?Nat2Z.id; done || lia).
    subst c1. cbn [readDone setRead tc_read]. unfold bodyDone. change (isErr ErrNone) with false. cbn iota.
    cbn [setRead tc_closed]. rewrite Hc. cbn [negb app]. unfold readHeader, setRead. cbn.
    by destruct c; cbn in *; subst.
Qed.

(** C10: framing is faithful: whatever frames the peer writes and however the
    network cuts the stream, the frame callback sees exactly those frames, in
    order, each with its whole payload, and the connection stays open. *)
Theorem deframing fs chunks c
  (Hf : Forall (fun f => fits 16 (fst f) /\ zlen (snd f) <= kMaxControlPayload) fs)
  (Hc : atHeader c) (Hs : concat chunks = concat ((fun f => makeFrame (fst f) (snd f)) <$> fs)) :
  deliverChunks chunks c = ((fun f => CvFrame (fst f) 0 (snd f)) <$> fs, c).
Proof.
  rewrite deliverChunks_concat, Hs. clear Hs. induction Hf as [|[type p] fs [Ht Hp] Hf IH]; [done|].
  rewrite !fmap_cons. cbn [concat fst snd]. rewrite deliver_app, (deliver_frame type p c Ht Hp Hc).
  rewrite IH. done.
Qed.

Definition sample_conn : TcpConnection := readHeader makeConn.

Lemma deframing_witness :
  deliverChunks [take 12 (makeFrame 7 [1; 2; 3]); drop 12 (makeFrame 7 [1; 2; 3]) ++ makeFrame 8 []] sample_conn
  = ([CvFrame 7 0 [1; 2; 3]; CvFrame 8 0 []], sample_conn).
Proof.
  apply (deframing [(7, [1; 2; 3]); (8, [])]
    [take 12 (makeFrame 7 [1; 2; 3]); drop 12 (makeFrame 7 [1; 2; 3]) ++ makeFrame 8 []] sample_conn).
  - repeat constructor; by_decision.
  - by split_and!.
  - vm_compute. reflexivity.
Defined.

(** A protocol violation ends the stream: ten bytes that are not a valid
    header (wrong magic or version, or more than 64 KiB announced) close the
    connection with one close event, and nothing that follows is looked at. *)
Theorem invalid_header_closes header rest c
  (Hl : length header = kFrameHeaderSize) (Hp : parseFrameHeader header = None) (Hc : atHeader c) :
  fst (deliver (header ++ rest) c) = [CvClosed ErrInvalidArgument] /\
  tc_closed (snd (deliver (header ++ rest) c)) = true.
Proof.
  destruct Hc as (Hc & Hr & Hb). rewrite deliver_app.
  rewrite (deliver_exact header c kFrameHeaderSize) by
    (rewrite ?Hr; done || (unfold kFrameHeaderSize; lia)).
  rewrite Hr. cbn [readDone setRead tc_read]. unfold headerDone. change (isErr ErrNone) with false. cbn iota.
  rewrite Hp. unfold shutdown. cbn [setRead tc_closed]. rewrite Hc.
  assert (G : forall c', tc_closed c' = true -> deliver rest c' = ([], c')).
  { intros c' Hc'. induction rest as [|b rest IH]; [done|]. cbn [deliver]. unfold onByte.
    by rewrite Hc', IH. }
  by rewrite G.
Qed.

Lemma invalid_header_closes_witness :
  fst (deliver (replicate 10 0 ++ makeFrame 7 [1]) sample_conn) = [CvClosed ErrInvalidArgument].
Proof.
  refine (proj1 (invalid_header_closes (replicate 10 0) (makeFrame 7 [1]) sample_conn _ _ _)).
  - reflexivity.
  - reflexivity.
  - by split_and!.
Defined.

(** * Writing *)

(** What can happen to the write side: a posted closure runs, or the outstanding
    write completes (there is a completion only while a write is outstanding). *)
Inductive ConnOp :=
| OpTask (task : ConnTask)
| OpWriteDone (ec : Err).

Definition connStep (op : ConnOp) (c : TcpConnection) : list ConnEvent * TcpConnection :=
  match op with
  | OpTask task => runConnTask task c
  | OpWriteDone ec => if tc_writing c then writeDone ec c else ([], c)
  end.

(** The frame an operation adds to the outbox. *)
Definition queuedBy (op : ConnOp) (c : TcpConnection) : list bytes :=
  match op with
  | OpTask (CtSend f) | OpTask (CtSendAndClose f) => if tc_closed c then [] else [f]
  | _ => []
  end.

(** A run, with the frames queued along the way. *)
Fixpoint connRun (ops : list ConnOp) (c : TcpConnection) : list ConnEvent * list bytes * TcpConnection :=
  match ops with
  | [] => ([], [], c)
  | op :: ops =>
      let q := queuedBy op c in
      let '(e1, c) := connStep op c in
      let '(e2, qs, c) := connRun ops c in (e1 ++ e2, q ++ qs, c)
  end.

Definition writesOf (evs : list ConnEvent) : list bytes :=
  omap (fun e => match e with CvWrite d => Some d | _ => None end) evs.

Definition closesOf (evs : list ConnEvent) : nat :=
  length (List.filter (fun e => match e with CvClosed _ => true | _ => false end) evs).

(** Frames still to be written: the outbox without the frame being written. *)
Definition unwritten (c : TcpConnection) : list bytes :=
  if tc_writing c then drop 1 (tc_outbox c) else tc_outbox c.

(** An open connection always has its oldest frame in flight. *)
Definition write_ok (c : TcpConnection) : Prop :=
  if tc_closed c then tc_outbox c = []
  else (tc_writing c = true <-> tc_outbox c <> []).

(** One step: the events account for the change of the outbox. *)
Lemma connStep_spec op c :
  write_ok c ->
  let '(evs, c') := connStep op c in
  write_ok c' /\
  (tc_closed c' = false -> tc_closed c = false /\
     unwritten c ++ queuedBy op c = writesOf evs ++ unwritten c' /\ closesOf evs = 0%nat) /\
  (tc_closed c' = true ->
     closesOf evs = (if tc_closed c then 0 else 1)%nat /\ writesOf evs = [] /\
     (tc_closed c = false -> op <> OpTask CtClose -> (forall ec, op = OpWriteDone ec -> ec = ErrNone) ->
        unwritten c ++ queuedBy op c = [])).
Proof.
  destruct c as [closed writing ca outbox rd p tasks]. unfold write_ok, unwritten, closesOf.
  cbn [tc_closed tc_writing tc_outbox]. intros Hw. destruct op as [task|ec].
  - destruct task as [|f|f|]; cbn [connStep runConnTask queuedBy].
    + destruct closed; cbn; rewrite ?app_nil_r; by split_and!.
    + destruct closed; cbn [tc_closed]; [by split_and!|].
      unfold pumpWrite. cbn [setWrite tc_outbox tc_writing tc_closed tc_closeAfterWrite].
      destruct outbox as [|g outbox]; cbn [app].
      * destruct writing; [by destruct (proj1 Hw eq_refl)|]. cbn. by split_and!.
      * destruct writing; [|by specialize (proj2 Hw ltac:(done))]. cbn. by split_and!.
    + destruct closed; cbn [tc_closed]; [by split_and!|].
      unfold pumpWrite. cbn [setWrite tc_outbox tc_writing tc_closed tc_closeAfterWrite].
      destruct outbox as [|g outbox]; cbn [app].
      * destruct writing; [by destruct (proj1 Hw eq_refl)|]. cbn. by split_and!.
      * destruct writing; [|by specialize (proj2 Hw ltac:(done))]. cbn. by split_and!.
    + unfold shutdown. destruct closed; cbn; by split_and!.
  - cbn [connStep queuedBy tc_writing]. destruct writing.
    2:{ destruct closed; cbn; rewrite ?app_nil_r; by split_and!. }
    unfold writeDone. cbn [setWrite tc_outbox tc_writing tc_closed tc_closeAfterWrite].
    destruct (isErr ec) eqn:Ee.
    + unfold shutdown. destruct closed; cbn; [by split_and!|]. split_and!; try done.
      intros _. split_and!; try done. intros _ _ Hec. rewrite (Hec ec eq_refl) in Ee. discriminate Ee.
    + destruct closed.
      * subst outbox. cbn. destruct (ca && _); cbn; by split_and!.
      * destruct outbox as [|g outbox]; [by destruct (proj1 Hw eq_refl)|]. cbn [drop].
        destruct ca, outbox as [|g2 outbox]; cbn; rewrite ?app_nil_r; by split_and!.
Qed.

Lemma queuedBy_closed op c : tc_closed c = true -> queuedBy op c = [].
Proof. intros H. destruct op as [[]|]; cbn [queuedBy]; by rewrite ?H. Qed.

Lemma writesOf_app a b : writesOf (a ++ b) = writesOf a ++ writesOf b.
Proof. apply omap_app. Qed.

Lemma closesOf_app a b : closesOf (a ++ b) = (closesOf a + closesOf b)%nat.
Proof. unfold closesOf. by rewrite list.filter_app || rewrite filter_app; rewrite length_app. Qed.

Lemma makeConn_ok : write_ok makeConn.
Proof. unfold write_ok. cbn. split; [done|]. by intros []. Qed.

(** No operation of the run asks for an immediate close or reports an error. *)
Definition graceful (ops : list ConnOp) : Prop :=
  Forall (fun op => op <> OpTask CtClose /\ forall ec, op = OpWriteDone ec -> ec = ErrNone) ops.

Lemma connRun_spec ops c :
  write_ok c ->
  let '(evs, qs, c') := connRun ops c in
  write_ok c' /\
  closesOf evs = (if tc_closed c then 0 else if tc_closed c' then 1 else 0)%nat /\
  (tc_closed c = true -> tc_closed c' = true /\ writesOf evs = [] /\ qs = []) /\
  (tc_closed c' = false -> unwritten c ++ qs = writesOf evs ++ unwritten c') /\
  (tc_closed c = false -> exists rest, unwritten c ++ qs = writesOf evs ++ rest) /\
  (tc_closed c = false -> graceful ops -> tc_closed c' = true -> unwritten c ++ qs = writesOf evs).
Proof.
  revert c. induction ops as [|op ops IH]; intros c Hw; cbn [connRun].
  { split_and!; try done.
    - by destruct (tc_closed c).
    - intros _. by rewrite app_nil_r.
    - intros _. exists (unwritten c). by rewrite app_nil_r.
    - congruence. }
  pose proof (connStep_spec op c Hw) as Hs. pose proof (queuedBy_closed op c) as Hq.
  destruct (connStep op c) as [e1 c1]. destruct Hs as (Hw1 & Hopen & Hclosed).
  specialize (IH c1 Hw1). destruct (connRun ops c1) as [[e2 qs] c2].
  destruct IH as (Hw2 & Hc2 & Hcl & Hop & Hpre & Hgr).
  rewrite writesOf_app, closesOf_app, Hc2. destruct (tc_closed c1) eqn:E1.
  - destruct (Hcl eq_refl) as (E2 & Ew & ->). destruct (Hclosed eq_refl) as (Hn & Hw0 & Hdone).
    rewrite E2, Ew, Hw0, Hn. split_and!; try done.
    + intros Hc. by rewrite (Hq Hc).
    + intros _. exists (unwritten c ++ queuedBy op c). by rewrite app_nil_r.
    + intros Hc [[Hg1 Hg2] _]%Forall_cons_iff _. rewrite app_nil_r. by apply Hdone.
  - destruct (Hopen eq_refl) as (Hc & He & Hn). rewrite Hc, Hn. split_and!; try done.
    + intros H2. rewrite app_assoc, He, <- !app_assoc. by rewrite (Hop H2).
    + intros _. destruct (Hpre eq_refl) as (rest & Hr). exists rest.
      by rewrite app_assoc, He, <- !app_assoc, Hr.
    + intros _ [_ Hg]%Forall_cons_iff H2. rewrite app_assoc, He, <- !app_assoc. by rewrite (Hgr eq_refl Hg H2).
Qed.

(** C27: the write side is a queue: over any run of sends, closes and write
    completions, the frames handed to the socket are a prefix of the frames queued
    while the connection was open, in that order; when nothing is pending they are
    all of them; the close callback fires exactly once if the connection closed
    and not at all otherwise. *)
Theorem writes_in_order ops :
  let '(evs, qs, c) := connRun ops makeConn in
  (exists rest, qs = writesOf evs ++ rest) /\
  (tc_closed c = false -> tc_writing c = false -> writesOf evs = qs) /\
  closesOf evs = (if tc_closed c then 1 else 0)%nat.
Proof.
  pose proof (connRun_spec ops makeConn) as H. destruct (connRun ops makeConn) as [[evs qs] c].
  destruct H as (Hw & Hc & _ & Hop & Hpre & _); [apply makeConn_ok|].
  split_and!; [by apply Hpre| |done].
  intros Ho Hn. specialize (Hop Ho). unfold write_ok in Hw. rewrite Ho, Hn in Hw.
  unfold unwritten in Hop. rewrite Hn in Hop. cbn in Hop. rewrite Hop.
  destruct (tc_outbox c); [by rewrite app_nil_r|]. by specialize (proj2 Hw ltac:(done)).
Qed.

(** [sendAndClose] flushes first: if nobody closes the connection directly and
    every write succeeds, the connection closes only after every queued frame was
    written. *)
Theorem sendAndClose_flushes ops (Hg : graceful ops) :
  let '(evs, qs, c) := connRun ops makeConn in
  tc_closed c = true -> writesOf evs = qs.
Proof.
  pose proof (connRun_spec ops makeConn) as H. destruct (connRun ops makeConn) as [[evs qs] c].
  destruct H as (_ & _ & _ & _ & _ & Hgr); [apply makeConn_ok|].
  intros Hc. by rewrite <- (Hgr eq_refl Hg Hc).
Qed.

Lemma sendAndClose_flushes_witness :
  let '(evs, qs, c) := connRun [OpTask (CtSend [1]); OpTask (CtSendAndClose [2]); OpTask (CtSend [3]);
                                OpWriteDone ErrNone; OpWriteDone ErrNone; OpWriteDone ErrNone] makeConn in
  tc_closed c = true -> writesOf evs = qs.
Proof.
  apply (sendAndClose_flushes [OpTask (CtSend [1]); OpTask (CtSendAndClose [2]); OpTask (CtSend [3]);
                               OpWriteDone ErrNone; OpWriteDone ErrNone; OpWriteDone ErrNone]).
  repeat (apply Forall_cons_2 || apply Forall_nil_2); (split; [discriminate|congruence]).
Defined.

(** Closing while a write is outstanding clears the outbox, so the buffer lent
    to [async_write] is destroyed before its completion handler has run. *)
Theorem close_frees_buffer_in_flight frame rest
  : let '(evs, _, c) := connRun [OpTask (CtSend (frame :: rest)); OpTask CtClose] makeConn in
    evs = [CvWrite (frame :: rest); CvClosed ErrNone] /\ tc_writing c = true /\ tc_outbox c = [].
Proof. done. Qed.

(** * Connect attempts *)

Definition resultsOf (evs : list AttemptEvent) : nat :=
  length (List.filter (fun e => match e with AvResult _ _ => true | AvSendLine _ => false end) evs).

Lemma resultsOf_app a b : resultsOf (a ++ b) = (resultsOf a + resultsOf b)%nat.
Proof. unfold resultsOf. by rewrite filter_app, length_app. Qed.

Lemma finish_results ec k a :
  (resultsOf (fst (finish ec k a)) + (if at_finished a then 1 else 0) <= if at_finished (snd (finish ec k a)) then 1 else 0)%nat.
Proof. unfold finish. by destruct (at_finished a) eqn:E; cbn; rewrite ?E. Qed.

Lemma readReply_results n a :
  (resultsOf (fst (readReply n a)) + (if at_finished a then 1 else 0) <=
   if at_finished (snd (readReply n a)) then 1 else 0)%nat.
Proof.
  revert a. induction n as [|n IH]; intros a; cbn [readReply]; [done|].
  destruct (splitLine (at_replyBuf a)) as [[line rest]|]; [|done].
  destruct (contains line _); [apply (finish_results _ _ (setReplyBuf rest a))|].
  destruct (contains line _); [apply (finish_results _ _ (setReplyBuf rest a))|].
  apply (IH (setReplyBuf rest a)).
Qed.

Lemma attemptStep_results i a :
  (resultsOf (fst (attemptStep i a)) + (if at_finished a then 1 else 0) <=
   if at_finished (snd (attemptStep i a)) then 1 else 0)%nat.
Proof.
  assert (Hz : forall b, (resultsOf [] + (if at_finished b then 1 else 0) <= if at_finished b then 1 else 0)%nat)
    by (intros b; cbn; lia).
  destruct i as [ec|ec|ec|ec|ec received|]; cbn [attemptStep].
  1: destruct (bool_decide (ec = ErrAborted)); [apply Hz|].
  1-5: destruct (at_finished a) eqn:Ef; [cbn [fst snd]; rewrite Ef; cbn; lia|].
  - pose proof (finish_results ErrTimedOut false a) as H. by rewrite Ef in H.
  - pose proof (finish_results ec false a) as H. rewrite Ef in H. by destruct (isErr ec); [|cbn; lia].
  - pose proof (finish_results ec false a) as H. pose proof (finish_results ErrNone true a) as H2.
    rewrite Ef in H, H2. destruct (isErr ec); [done|]. destruct (at_relay a); [cbn; lia|done].
  - pose proof (finish_results ec false a) as H. rewrite Ef in H. by destruct (isErr ec); [|cbn; lia].
  - pose proof (finish_results ec false a) as H. rewrite Ef in H. destruct (isErr ec); [done|].
    pose proof (readReply_results (S (length (at_replyBuf a ++ received)))
      (setReplyBuf (at_replyBuf a ++ received) a)) as H2.
    cbn [setReplyBuf at_finished] in H2. by rewrite Ef in H2.
  - unfold cancel. destruct (at_finished a) eqn:Ef; cbn [fst snd at_finished]; rewrite ?Ef; cbn; lia.
Qed.

Lemma finish_relay ec k a : at_relay (snd (finish ec k a)) = at_relay a.
Proof. unfold finish. by destruct (at_finished a). Qed.

Lemma readReply_relay n a : at_relay (snd (readReply n a)) = at_relay a.
Proof.
  revert a. induction n as [|n IH]; intros a; cbn [readReply]; [done|].
  destruct (splitLine (at_replyBuf a)) as [[line rest]|]; [|done].
  destruct (contains line _); [by rewrite finish_relay|]. destruct (contains line _); [by rewrite finish_relay|]. by rewrite IH.
Qed.

(** An attempt stays of its kind. *)
Lemma attemptStep_relay i a : at_relay (snd (attemptStep i a)) = at_relay a.
Proof.
  destruct i; cbn [attemptStep]; unfold cancel;
    repeat match goal with |- context [if ?b then _ else _] => destruct b eqn:? end;
    rewrite ?finish_relay, ?readReply_relay; done.
Qed.

Lemma attemptRun_results inputs a :
  (resultsOf (fst (attemptRun inputs a)) + (if at_finished a then 1 else 0) <=
   if at_finished (snd (attemptRun inputs a)) then 1 else 0)%nat.
Proof.
  revert a. induction inputs as [|i inputs IH]; intros a; cbn [attemptRun]; [cbn; lia|].
  pose proof (attemptStep_results i a) as H1. destruct (attemptStep i a) as [e1 a1].
  specialize (IH a1). destruct (attemptRun inputs a1) as [e2 a2]. cbn [fst snd] in *.
  rewrite resultsOf_app. lia.
Qed.

(** The result of a connect attempt, direct or through the relay, is reported
    at most once whatever completions, timeouts and cancellations happen in
    whatever order, and never again after a cancellation. *)
Theorem attempt_result_once relay token role before after :
  (resultsOf (fst (attemptRun before (newAttempt relay token role))) <= 1)%nat /\
  resultsOf (fst (attemptRun after (cancel (snd (attemptRun before (newAttempt relay token role)))))) = 0%nat.
Proof.
  pose proof (attemptRun_results before (newAttempt relay token role)) as H1. split.
  - destruct (at_finished (snd _)); cbn in H1; lia.
  - set (a := cancel _). pose proof (attemptRun_results after a) as H2.
    assert (at_finished a = true) as E by (subst a; unfold cancel; by destruct (at_finished (snd _)) eqn:?).
    rewrite E in H2. destruct (at_finished (snd (attemptRun after a))); lia.
Qed.

(** A cancelled attempt reports nothing at all, not even the abort its
    interface announces. *)
Theorem cancelled_attempt_is_silent relay token role inputs :
  fst (attemptRun (AiCancel :: inputs) (newAttempt relay token role)) = [].
Proof.
  cbn [attemptRun attemptStep]. unfold cancel. cbn [newAttempt at_finished].
  set (a := mkAttempt _ _ _ _ true _).
  assert (G : forall js b, at_finished b = true -> fst (attemptRun js b) = []).
  { induction js as [|i js IH]; intros b Hb; [done|]. cbn [attemptRun].
    assert (E : attemptStep i b = ([], b)).
    { destruct i; cbn [attemptStep]; unfold cancel; rewrite ?Hb; try done. by destruct (bool_decide _). }
    rewrite E. specialize (IH b Hb). by destruct (attemptRun js b). }
  specialize (G inputs a eq_refl). by destruct (attemptRun inputs a).
Qed.

(** Bytes that arrive with the relay's pairing line are lost: the connection
    is handed over while a frame of the peer that came in the same read stays in
    the attempt's reply buffer, which nobody reads again. *)
Theorem relay_early_bytes_lost frame :
  let line := str "relay_paired" ++ [newline] in
  let '(evs, a) := attemptRun [AiResolved ErrNone; AiConnected ErrNone; AiWritten ErrNone;
                               AiReply ErrNone (line ++ frame)] (newAttempt true [] []) in
  evs = [AvSendLine (relayLine [] []); AvResult ErrNone true] /\ at_replyBuf a = frame /\ at_phase a = PhDone.
Proof. done. Qed.

(** * Clients *)

Module TcpClientFacts.
Import TcpClient.

Definition finishedAt (c : TcpClient) (i : nat) : nat :=
  match tl_attempts c !! i with Some a => if at_finished a then 1 else 0 | None => 0 end.

Lemma eventsOf_tagged i j evs : eventsOf i ((fun e => (j, e)) <$> evs) = if decide (j = i) then evs else [].
Proof.
  unfold eventsOf. induction evs as [|e evs IH]; [by destruct (decide (j = i))|]. rewrite fmap_cons. cbn [omap list_omap fst snd].
  fold (omap (M := list) (fun p : nat * AttemptEvent => if decide (fst p = i) then Some (snd p) else None)).
  destruct (decide (j = i)) as [->|Hne]; rewrite IH; [by destruct (decide (i = i))|]. done.
Qed.

Lemma finishedAt_insert c i j a o :
  tl_attempts c !! i = Some a -> forall a',
  finishedAt (mkClient (<[i := a']> (tl_attempts c)) o) j =
  if decide (i = j) then (if at_finished a' then 1 else 0)%nat else finishedAt c j.
Proof.
  intros Ha a'. unfold finishedAt. cbn [tl_attempts]. destruct (decide (i = j)) as [<-|Hne].
  - rewrite list_lookup_insert_eq; [done|]. by eapply lookup_lt_Some.
  - by rewrite list_lookup_insert_ne.
Qed.

Lemma addAttempt_finished a c i : at_finished a = false -> finishedAt (addAttempt a c) i = finishedAt c i.
Proof.
  intros Ha. unfold finishedAt, addAttempt. cbn [tl_attempts]. destruct (tl_attempts c !! i) as [b|] eqn:E.
  - by rewrite (lookup_app_l_Some _ _ _ _ E).
  - rewrite lookup_app_r by by apply lookup_ge_None. destruct (_ - _)%nat; cbn; by rewrite ?Ha.
Qed.

Lemma clientStep_results op c evs c' i :
  clientStep op c = Some (evs, c') -> (resultsOf (eventsOf i evs) + finishedAt c i <= finishedAt c' i)%nat.
Proof.
  destruct op as [|token role| |j input]; cbn [clientStep].
  - intros [= <- <-]. unfold connect. by rewrite addAttempt_finished.
  - intros [= <- <-]. unfold connectRelay. by rewrite addAttempt_finished.
  - unfold cancel. destruct (tl_attempt c) as [k|]; [|by intros [= <- <-]].
    destruct (tl_attempts c !! k) as [a|] eqn:Ea; [|done]. cbn [mbind option_bind]. destruct (at_relay a); [done|].
    cbn [mbind option_bind]. intros [= <- <-]. rewrite (finishedAt_insert _ _ _ _ _ Ea).
    destruct (decide (k = i)) as [<-|]; [|done]. unfold finishedAt. rewrite Ea. unfold TcpTransport.cancel. destruct (at_finished a) eqn:E; cbn; rewrite ?E; lia.
  - destruct (tl_attempts c !! j) as [a|] eqn:Ea; [|by intros [= <- <-]]. pose proof (attemptStep_results input a) as H.
    destruct (attemptStep input a) as [es a']. intros [= <- <-]. rewrite eventsOf_tagged, (finishedAt_insert _ _ _ _ _ Ea).
    destruct (decide (j = i)) as [<-|]; [|done]. unfold finishedAt. rewrite Ea. exact H.
Qed.

(** Every attempt of a client, direct or through the relay, reports at most one
    result, however calls, cancellations and completions interleave, also when a
    second attempt is made while the first is in flight. *)
Theorem client_attempts_report_once ops evs c i :
  clientRun ops newClient = Some (evs, c) -> (resultsOf (eventsOf i evs) <= 1)%nat.
Proof.
  assert (G : forall ops c0 evs c, clientRun ops c0 = Some (evs, c) ->
    (resultsOf (eventsOf i evs) + finishedAt c0 i <= finishedAt c i)%nat).
  { clear. induction ops as [|op ops IH]; intros c0 evs c; cbn [clientRun]; [by intros [= <- <-]|].
    destruct (clientStep op c0) as [[e1 c1]|] eqn:E1; [|done]. cbn [mbind option_bind].
    destruct (clientRun ops c1) as [[e2 c2]|] eqn:E2; [|done]. cbn [mbind option_bind]. intros [= <- <-].
    pose proof (clientStep_results _ _ _ _ i E1). pose proof (IH _ _ _ E2).
    unfold eventsOf in *. rewrite omap_app, resultsOf_app. lia. }
  intros Hr. pose proof (G _ _ _ _ Hr) as H. unfold finishedAt in H.
  destruct (tl_attempts c !! i) as [a|]; [|lia]. destruct (at_finished a); lia.
Qed.

Lemma client_attempts_report_once_witness :
  exists c, clientRun [TlConnect; TlAttempt 0 (AiResolved ErrNone); TlConnectRelay [] []; TlAttempt 0 (AiConnected ErrNone);
      TlAttempt 0 (AiTimer ErrNone); TlAttempt 1 (AiResolved ErrEof)] newClient =
    Some ([(0%nat, AvResult ErrNone true); (1%nat, AvResult ErrEof false)], c) /\
    (resultsOf (eventsOf 1 [(0%nat, AvResult ErrNone true); (1%nat, AvResult ErrEof false)]) <= 1)%nat.
Proof.
  eexists. split; [vm_compute; reflexivity|].
  apply (client_attempts_report_once [TlConnect; TlAttempt 0 (AiResolved ErrNone); TlConnectRelay [] []; TlAttempt 0 (AiConnected ErrNone);
      TlAttempt 0 (AiTimer ErrNone); TlAttempt 1 (AiResolved ErrEof)] _
    (mkClient [mkAttempt false [] [] PhDone true []; mkAttempt true [] [] PhDone true []] (Some 1%nat)) 1).
  vm_compute. reflexivity.
Defined.

(** Cancelling a connection through the relay is undefined, in every state of the
    attempt, finished or not. *)
Theorem relay_cancel_is_undefined token role inputs c :
  exists evs c', clientRun (TlAttempt (length (tl_attempts c)) <$> inputs) (connectRelay token role c) = Some (evs, c') /\
    cancel c' = None.
Proof.
  assert (G : forall inputs c' i a, tl_attempt c' = Some i -> tl_attempts c' !! i = Some a -> at_relay a = true ->
    exists evs c'', clientRun (TlAttempt i <$> inputs) c' = Some (evs, c'') /\ cancel c'' = None).
  { clear. induction inputs as [|input inputs IH]; intros c i a Hi Ha Hr.
    - eexists _, _. split; [done|]. unfold cancel. rewrite Hi, Ha. cbn. by rewrite Hr.
    - rewrite fmap_cons. cbn [clientRun clientStep]. rewrite Ha. pose proof (attemptStep_relay input a) as Hk.
      destruct (attemptStep input a) as [es a']. cbn [mbind option_bind snd] in *.
      destruct (IH (mkClient (<[i := a']> (tl_attempts c)) (tl_attempt c)) i a' Hi) as (e2 & c2 & -> & Hc); [|by rewrite Hk|by eexists _, _].
      cbn [tl_attempts]. apply list_lookup_insert_eq. by eapply lookup_lt_Some. }
  apply (G inputs _ _ (newAttempt true token role)); [done| |done]. cbn. by apply list_lookup_middle.
Qed.

End TcpClientFacts.
