(* ===== verification/OrderedMap.v ===== *)
(** [std::map] with integer keys as an association list in key order, and the
    small state-and-output monad in which the session components are written. *)

From stdpp Require Import sorting.
From S2P Require Import Prelude.

(** * Ordered maps *)

Section OMap.
Context {V : Type}.
Implicit Types m : list (Z * V).

Fixpoint om_lookup (k : Z) m : option V :=
  match m with
  | [] => None
  | (k', v) :: m => if k =? k' then Some v else om_lookup k m
  end.

Fixpoint om_insert (k : Z) (v : V) m : list (Z * V) :=
  match m with
  | [] => [(k, v)]
  | (k', v') :: m =>
      if k <? k' then (k, v) :: (k', v') :: m
      else if k =? k' then (k, v) :: m
      else (k', v') :: om_insert k v m
  end.

Definition om_erase (k : Z) m : list (Z * V) := List.filter (fun kv => negb (fst kv =? k)) m.

(** Keys strictly increase. *)
Definition om_sorted m : Prop := StronglySorted Z.lt (fst <$> m).

Lemma om_lookup_insert_eq k v m : om_lookup k (om_insert k v m) = Some v.
Proof.
  induction m as [|[k' v'] m IH]; cbn [om_insert om_lookup]; [by rewrite Z.eqb_refl|].
  destruct (Z.ltb_spec k k'); [cbn; by rewrite Z.eqb_refl|].
  destruct (Z.eqb_spec k k'); cbn [om_lookup]; [by rewrite Z.eqb_refl|].
  by rewrite (proj2 (Z.eqb_neq _ _)).
Qed.

Lemma om_lookup_insert_ne k k' v m : k <> k' -> om_lookup k (om_insert k' v m) = om_lookup k m.
Proof.
  intros Hne. induction m as [|[k2 v2] m IH]; cbn [om_insert om_lookup].
  { by rewrite (proj2 (Z.eqb_neq _ _)). }
  destruct (Z.ltb_spec k' k2); cbn [om_lookup].
  { by rewrite (proj2 (Z.eqb_neq k k')). }
  destruct (Z.eqb_spec k' k2) as [->|]; cbn [om_lookup].
  { by rewrite !(proj2 (Z.eqb_neq k k2)). }
  by rewrite IH.
Qed.

Lemma om_lookup_erase_eq k m : om_lookup k (om_erase k m) = None.
Proof.
  induction m as [|[k' v] m IH]; [done|]. unfold om_erase in *. cbn [List.filter fst].
  destruct (Z.eqb_spec k' k) as [->|]; cbn [negb]; [done|]. cbn [om_lookup].
  by rewrite (proj2 (Z.eqb_neq k k')).
Qed.

Lemma om_lookup_erase_ne k k' m : k <> k' -> om_lookup k (om_erase k' m) = om_lookup k m.
Proof.
  intros Hne. induction m as [|[k2 v] m IH]; [done|]. unfold om_erase in *. cbn [List.filter fst om_lookup].
  destruct (Z.eqb_spec k2 k') as [->|]; cbn [negb om_lookup]; rewrite IH; [|done].
  by rewrite (proj2 (Z.eqb_neq k k')).
Qed.

Lemma om_insert_keys k v m x : x ∈ (fst <$> om_insert k v m) <-> x = k \/ x ∈ (fst <$> m).
Proof.
  induction m as [|[k' v'] m IH]; cbn [om_insert].
  { cbn. rewrite list_elem_of_singleton. set_solver. }
  destruct (Z.ltb_spec k k'); [cbn; rewrite !elem_of_cons; tauto|].
  destruct (Z.eqb_spec k k') as [->|]; cbn; rewrite !elem_of_cons; [tauto|].
  change (list_fmap _ _ _ ?l) with (fst <$> l) in *. rewrite IH. tauto.
Qed.

Lemma om_insert_sorted k v m : om_sorted m -> om_sorted (om_insert k v m).
Proof.
  unfold om_sorted. induction m as [|[k' v'] m IH]; cbn [om_insert]; intros Hs.
  { cbn. repeat constructor. }
  rewrite fmap_cons, StronglySorted_cons in Hs. destruct Hs as [Hf Hs]. cbn [fst] in *.
  destruct (Z.ltb_spec k k').
  { rewrite !fmap_cons, !StronglySorted_cons. cbn [fst]. split_and!; try done. constructor; [done|].
    eapply list.Forall_impl; [exact Hf|]. intros; lia. }
  destruct (Z.eqb_spec k k') as [->|]; rewrite fmap_cons, StronglySorted_cons; cbn [fst]; [done|].
  split; [|by apply IH]. apply list.Forall_forall. intros x [->|Hx]%om_insert_keys; [lia|].
  rewrite list.Forall_forall in Hf. by apply Hf.
Qed.

Lemma om_erase_keys k m x : x ∈ (fst <$> om_erase k m) -> x ∈ (fst <$> m).
Proof.
  unfold om_erase. intros Hx. apply list_elem_of_fmap in Hx as (kv & -> & Hkv).
  apply list_elem_of_In, filter_In in Hkv as [Hkv _]. apply list_elem_of_fmap.
  exists kv. split; [done|]. by apply list_elem_of_In.
Qed.

Lemma om_erase_sorted k m : om_sorted m -> om_sorted (om_erase k m).
Proof.
  unfold om_sorted. induction m as [|[k' v] m IH]; [done|]. rewrite fmap_cons, StronglySorted_cons.
  intros [Hf Hs]. unfold om_erase. cbn [List.filter fst]. destruct (negb (k' =? k)); [|by apply IH].
  rewrite fmap_cons, StronglySorted_cons. cbn [fst] in *. split; [|by apply IH].
  apply list.Forall_forall. intros x Hx. rewrite list.Forall_forall in Hf.
  apply Hf. by apply (om_erase_keys k).
Qed.

Lemma om_lookup_elem k v m : om_lookup k m = Some v -> (k, v) ∈ m.
Proof.
  induction m as [|[k' v'] m IH]; [done|]. cbn [om_lookup]. destruct (Z.eqb_spec k k') as [->|].
  - intros E. apply Some_inj in E. subst. apply list_elem_of_here.
  - intros E. by apply list_elem_of_further, IH.
Qed.

Lemma om_elem_lookup k v m : om_sorted m -> (k, v) ∈ m -> om_lookup k m = Some v.
Proof.
  unfold om_sorted. induction m as [|[k' v'] m IH]; [by intros _ ?%not_elem_of_nil|].
  rewrite fmap_cons, StronglySorted_cons. intros [Hf Hs] [E|Hin]%elem_of_cons; cbn [om_lookup].
  - injection E as -> ->. by rewrite Z.eqb_refl.
  - rewrite list.Forall_forall in Hf. assert (Hk : k ∈ (fst <$> m)) by (apply list_elem_of_fmap; by exists (k, v)).
    specialize (Hf k Hk). cbn [fst] in Hf. rewrite (proj2 (Z.eqb_neq _ _)) by lia. by apply IH.
Qed.

Lemma om_insert_length k v m :
  length (om_insert k v m) = match om_lookup k m with Some _ => length m | None => S (length m) end \/
  length (om_insert k v m) = S (length m).
Proof.
  induction m as [|[k' v'] m IH]; cbn [om_insert om_lookup]; [by left|].
  destruct (Z.ltb_spec k k'); [by right|]. destruct (Z.eqb_spec k k'); [by left|].
  cbn [length]. destruct IH as [-> | ->]; [left; by destruct (om_lookup k m)|by right].
Qed.

End OMap.

Arguments om_sorted : simpl never.
Arguments om_erase : simpl never.

(** * Actions

    A handler updates the state of its component and emits outputs in order. *)

Definition act (St Out : Type) : Type := St -> list Out * St.

Declare Scope act_scope.
Delimit Scope act_scope with act.

Section Act.
Context {St Out : Type}.

Definition skip : act St Out := fun s => ([], s).
Definition emit (os : list Out) : act St Out := fun s => (os, s).
Definition modify (f : St -> St) : act St Out := fun s => ([], f s).
Definition seqA (a b : act St Out) : act St Out := fun s =>
  let '(o1, s) := a s in let '(o2, s) := b s in (o1 ++ o2, s).
(** The rest of a handler may look at the state. *)
Definition readA (k : St -> act St Out) : act St Out := fun s => k s s.

Fixpoint forA {A} (xs : list A) (body : A -> act St Out) : act St Out :=
  match xs with
  | [] => skip
  | x :: xs => seqA (body x) (forA xs body)
  end.

Lemma fin_seq (a b : act St Out) s : snd (seqA a b s) = snd (b (snd (a s))).
Proof. unfold seqA. destruct (a s) as [o1 s1]. cbn [snd]. by destruct (b s1). Qed.
Lemma out_seq (a b : act St Out) s : fst (seqA a b s) = fst (a s) ++ fst (b (snd (a s))).
Proof. unfold seqA. destruct (a s) as [o1 s1]. cbn [fst snd]. by destruct (b s1). Qed.
Lemma fin_read k s : snd (readA k s) = snd (k s s).
Proof. done. Qed.
Lemma out_read k s : fst (readA k s) = fst (k s s).
Proof. done. Qed.
Lemma fin_skip s : snd (skip s) = s.
Proof. done. Qed.
Lemma out_skip s : fst (skip s) = [].
Proof. done. Qed.
Lemma fin_emit os s : snd (emit os s) = s.
Proof. done. Qed.
Lemma out_emit os s : fst (emit os s) = os.
Proof. done. Qed.
Lemma fin_modify f s : snd (modify f s) = f s.
Proof. done. Qed.
Lemma out_modify f s : fst (modify f s) = [].
Proof. done. Qed.
Lemma fin_if (b : bool) (x y : act St Out) s : snd ((if b then x else y) s) = if b then snd (x s) else snd (y s).
Proof. by destruct b. Qed.
Lemma out_if (b : bool) (x y : act St Out) s : fst ((if b then x else y) s) = if b then fst (x s) else fst (y s).
Proof. by destruct b. Qed.

(** Running a list of actions in two parts. *)
Lemma forA_app {A} (xs ys : list A) body s :
  forA (xs ++ ys) body s = seqA (forA xs body) (forA ys body) s.
Proof.
  revert s. induction xs as [|x xs IH]; intros s; cbn [app forA].
  - unfold seqA, skip. by destruct (forA ys body s).
  - unfold seqA in *. destruct (body x s) as [o1 s1]. rewrite IH. destruct (forA xs body s1) as [o2 s2].
    destruct (forA ys body s2) as [o3 s3]. by rewrite app_assoc.
Qed.

(** [a] keeps [P]. *)
Definition keeps (P : St -> Prop) (a : act St Out) : Prop := forall s, P s -> P (snd (a s)).

Lemma keeps_skip P : keeps P skip.
Proof. by intros s. Qed.
Lemma keeps_emit P os : keeps P (emit os).
Proof. by intros s. Qed.
Lemma keeps_modify P f : (forall s, P s -> P (f s)) -> keeps P (modify f).
Proof. intros H s Hs. by apply H. Qed.
Lemma keeps_seq P a b : keeps P a -> keeps P b -> keeps P (seqA a b).
Proof.
  intros Ha Hb s Hs. unfold seqA. specialize (Ha s Hs). destruct (a s) as [o1 s1]. cbn [snd] in Ha.
  specialize (Hb s1 Ha). by destruct (b s1).
Qed.
Lemma keeps_read P k : (forall s, P s -> P (snd (k s s))) -> keeps P (readA k).
Proof. intros H s Hs. by apply H. Qed.
Lemma keeps_for {A} P (xs : list A) body : (forall x, keeps P (body x)) -> keeps P (forA xs body).
Proof. intros H. induction xs; [apply keeps_skip|by apply keeps_seq]. Qed.

(** Every output of [a] satisfies [R]. *)
Definition emits (R : Out -> Prop) (a : act St Out) : Prop := forall s, Forall R (fst (a s)).

Lemma emits_skip R : emits R skip.
Proof. intros s. by apply Forall_nil_2. Qed.
Lemma emits_emit R os : Forall R os -> emits R (emit os).
Proof. by intros H s. Qed.
Lemma emits_modify R f : emits R (modify f).
Proof. intros s. by apply Forall_nil_2. Qed.
Lemma emits_seq R a b : emits R a -> emits R b -> emits R (seqA a b).
Proof. intros Ha Hb s. rewrite out_seq. apply Forall_app. by split; [apply Ha|apply Hb]. Qed.
Lemma emits_read R k : (forall s, emits R (k s)) -> emits R (readA k).
Proof. intros H s. by apply (H s). Qed.
Lemma emits_for {A} R (xs : list A) body : (forall x, emits R (body x)) -> emits R (forA xs body).
Proof. intros H. induction xs; [apply emits_skip|by apply emits_seq]. Qed.

End Act.

Notation "a ;+ b" := (seqA a b) (at level 62, right associativity) : act_scope.

Create HintDb act discriminated.
#[export] Hint Resolve keeps_skip keeps_emit keeps_seq keeps_for : act.
#[export] Hint Resolve emits_skip emits_modify emits_seq emits_for : act.

Create Rewrite HintDb fin.
#[export] Hint Rewrite @fin_seq @out_seq @fin_read @out_read @fin_skip @out_skip @fin_emit @out_emit
  @fin_modify @out_modify @fin_if @out_if : fin.

Section OMapCount.
Context {V : Type}.
Implicit Types m : list (Z * V).

Lemma om_erase_insert k v m : om_erase k (om_insert k v m) = om_erase k m.
Proof.
  unfold om_erase. induction m as [|[k' v'] m IH]; cbn [om_insert List.filter fst].
  { by rewrite Z.eqb_refl. }
  destruct (Z.ltb_spec k k'); [cbn [List.filter fst]; by rewrite Z.eqb_refl|].
  destruct (Z.eqb_spec k k') as [->|]; cbn [List.filter fst]; [by rewrite Z.eqb_refl|].
  by rewrite IH.
Qed.

Lemma om_insert_insert k v w m : om_insert k v (om_insert k w m) = om_insert k v m.
Proof.
  induction m as [|[k' v'] m IH]; cbn [om_insert].
  { by rewrite Z.ltb_irrefl, Z.eqb_refl. }
  destruct (Z.ltb_spec k k'); [cbn [om_insert]; by rewrite Z.ltb_irrefl, Z.eqb_refl|].
  destruct (Z.eqb_spec k k') as [->|]; cbn [om_insert]; [by rewrite Z.ltb_irrefl, Z.eqb_refl|].
  rewrite (proj2 (Z.ltb_ge _ _)), (proj2 (Z.eqb_neq _ _)), IH by lia. done.
Qed.

(** How many values satisfy [P]. *)
Definition om_count (P : V -> bool) m : nat := length (List.filter (fun kv => P (snd kv)) m).

Lemma om_count_length P m : (om_count P m <= length m)%nat.
Proof. apply List.filter_length_le. Qed.

Lemma om_count_cons P k v m : om_count P ((k, v) :: m) = ((if P v then 1 else 0) + om_count P m)%nat.
Proof. unfold om_count. cbn [List.filter snd]. by destruct (P v). Qed.

Lemma om_count_erase P k m : (om_count P (om_erase k m) <= om_count P m)%nat.
Proof.
  induction m as [|[k' v] m IH]; [done|]. unfold om_erase in *. cbn [List.filter fst].
  destruct (negb (k' =? k)); rewrite !om_count_cons; lia.
Qed.

Lemma om_count_insert P k v m :
  om_sorted m -> (P v = true -> exists w, om_lookup k m = Some w /\ P w = true) ->
  (om_count P (om_insert k v m) <= om_count P m)%nat.
Proof.
  unfold om_sorted. induction m as [|[k' v'] m IH]; cbn [om_insert om_lookup]; intros Hs HP.
  { rewrite om_count_cons. destruct (P v); [|done]. destruct (HP eq_refl) as (w & ? & _). discriminate. }
  rewrite fmap_cons, StronglySorted_cons in Hs. destruct Hs as [Hf Hs]. cbn [fst] in Hf.
  destruct (Z.ltb_spec k k').
  { rewrite !om_count_cons. destruct (P v); [|lia]. destruct (HP eq_refl) as (w & Hw & _).
    rewrite (proj2 (Z.eqb_neq _ _)) in Hw by lia. apply om_lookup_elem in Hw.
    rewrite list.Forall_forall in Hf. assert (k' < k); [|lia].
    apply Hf, list_elem_of_fmap. by exists (k, w). }
  destruct (Z.eqb_spec k k') as [->|].
  - rewrite !om_count_cons. destruct (P v); [|lia]. destruct (HP eq_refl) as (w & Hw & Pw).
    apply Some_inj in Hw. subst. rewrite Pw. lia.
  - rewrite !om_count_cons. specialize (IH Hs HP). lia.
Qed.

(** Two maps agreeing under [f] agree under [f] after inserting values that
    agree. *)
Lemma om_insert_fmap {W} (f : Z * V -> W) k v w m :
  om_sorted m -> om_lookup k m = Some w -> f (k, v) = f (k, w) ->
  f <$> om_insert k v m = f <$> m.
Proof.
  unfold om_sorted. induction m as [|[k' v'] m IH]; cbn [om_insert om_lookup]; [done|]. intros Hs Hl Hf.
  rewrite fmap_cons, StronglySorted_cons in Hs. destruct Hs as [Hlt Hs]. cbn [fst] in Hlt.
  destruct (Z.ltb_spec k k').
  { rewrite (proj2 (Z.eqb_neq _ _)) in Hl by lia. apply om_lookup_elem in Hl.
    rewrite list.Forall_forall in Hlt. assert (k' < k); [|lia].
    apply Hlt, list_elem_of_fmap. by exists (k, w). }
  destruct (Z.eqb_spec k k') as [->|].
  - apply Some_inj in Hl. subst. by rewrite !fmap_cons, Hf.
  - rewrite !fmap_cons. f_equal. by apply IH.
Qed.

End OMapCount.
