(* ===== verification/InputProtocol.v ===== *)
(** input/InputProtocol.h: the input wire format. Controller states, keyboard and
    mouse events and rumble commands are packed structs copied as they are; a
    struct is the list of its fields under a layout (the width of each field), and
    the copy of a packed struct of that layout is [pod_bytes]. *)

From S2P Require Import Prelude.

(** * Packed structs *)

(** The object representation of a packed little-endian struct: the fields in
    order, each in its width, without padding. *)
Fixpoint pod_bytes (layout : list nat) (fields : list Z) : bytes :=
  match layout, fields with
  | n :: layout, v :: fields => le_put n v ++ pod_bytes layout fields
  | _, _ => []
  end.

Fixpoint pod_fields (layout : list nat) (bs : bytes) : list Z :=
  match layout with
  | [] => []
  | n :: layout => le_get (take n bs) :: pod_fields layout (drop n bs)
  end.

Definition pod_size (layout : list nat) : nat := sum_list layout.

(** * Data *)

(** [enum GamepadButton]. *)
Definition BtnA : Z := Z.shiftl 1 0.
Definition BtnB : Z := Z.shiftl 1 1.
Definition BtnX : Z := Z.shiftl 1 2.
Definition BtnY : Z := Z.shiftl 1 3.
Definition BtnLB : Z := Z.shiftl 1 4.
Definition BtnRB : Z := Z.shiftl 1 5.
Definition BtnBack : Z := Z.shiftl 1 6.
Definition BtnStart : Z := Z.shiftl 1 7.
Definition BtnGuide : Z := Z.shiftl 1 8.
Definition BtnLS : Z := Z.shiftl 1 9.
Definition BtnRS : Z := Z.shiftl 1 10.
Definition DUp : Z := Z.shiftl 1 11.
Definition DDown : Z := Z.shiftl 1 12.
Definition DLeft : Z := Z.shiftl 1 13.
Definition DRight : Z := Z.shiftl 1 14.

Record GameControllerState := mkGcs {
  gc_version : Z; gc_connected : Z; gc_buttons : Z; gc_leftTrigger : Z; gc_rightTrigger : Z;
  gc_thumbLX : Z; gc_thumbLY : Z; gc_thumbRX : Z; gc_thumbRY : Z; gc_timestampNs : Z }.

Definition defaultGcs : GameControllerState := mkGcs 1 0 0 0 0 0 0 0 0 0.

#[export] Instance GameControllerState_eq_dec : EqDecision GameControllerState.
Proof. solve_decision. Defined.

Inductive InputEventType := KeyDown | KeyUp | MouseMove | MouseButtonDown | MouseButtonUp | MouseWheel.

Definition inputEventTypeCode (t : InputEventType) : Z :=
  match t with
  | KeyDown => 1 | KeyUp => 2 | MouseMove => 3 | MouseButtonDown => 4 | MouseButtonUp => 5 | MouseWheel => 6
  end.

Record InputEvent := mkIev {
  ie_type : Z; ie_code : Z; ie_x : Z; ie_y : Z; ie_delta : Z; ie_pad0 : Z; ie_flags : Z; ie_timestampNs : Z }.

Definition defaultIev : InputEvent := mkIev 0 0 0 0 0 0 0 0.

#[export] Instance InputEvent_eq_dec : EqDecision InputEvent.
Proof. solve_decision. Defined.

Record RumbleCommand := mkRumble { rc_tag : Z; rc_leftMotor : Z; rc_rightMotor : Z; rc_playerIndex : Z }.

(** * Layouts *)

Definition gcsLayout : list nat := [1; 1; 2; 1; 1; 2; 2; 2; 2; 8]%nat.
Definition ievLayout : list nat := [1; 1; 2; 2; 2; 1; 1; 8]%nat.
Definition rumbleLayout : list nat := [1; 1; 1; 1]%nat.

(** The unsigned representation of each field, and back. *)
Definition gcsFields (s : GameControllerState) : list Z :=
  [gc_version s; gc_connected s; gc_buttons s; gc_leftTrigger s; gc_rightTrigger s; u16 (gc_thumbLX s);
   u16 (gc_thumbLY s); u16 (gc_thumbRX s); u16 (gc_thumbRY s); gc_timestampNs s].

Definition gcsOfFields (l : list Z) : GameControllerState :=
  match l with
  | [v; c; b; lt; rt; lx; ly; rx; ry; ts] => mkGcs v c b lt rt (i16 lx) (i16 ly) (i16 rx) (i16 ry) ts
  | _ => defaultGcs
  end.

Definition ievFields (e : InputEvent) : list Z :=
  [ie_type e; ie_code e; ie_x e; ie_y e; u16 (ie_delta e); ie_pad0 e; ie_flags e; ie_timestampNs e].

Definition ievOfFields (l : list Z) : InputEvent :=
  match l with
  | [t; c; x; y; d; p; f; ts] => mkIev t c x y (i16 d) p f ts
  | _ => defaultIev
  end.

Definition rumbleFields (r : RumbleCommand) : list Z :=
  [rc_tag r; rc_leftMotor r; rc_rightMotor r; rc_playerIndex r].

Definition rumbleOfFields (l : list Z) : RumbleCommand :=
  match l with
  | [t; lm; rm; p] => mkRumble t lm rm p
  | _ => mkRumble 0 0 0 0
  end.

(** * Operations *)

Definition packControllerState (s : GameControllerState) : bytes := 0 :: pod_bytes gcsLayout (gcsFields s).

Definition packInputEvent (e : InputEvent) : bytes := 1 :: pod_bytes ievLayout (ievFields e).

Definition packRumble (r : RumbleCommand) : bytes := pod_bytes rumbleLayout (rumbleFields r).

(** The out-parameter [unpackInput] fills, chosen by [data[0]]. *)
Inductive InputPayload := PState (s : GameControllerState) | PEvent (e : InputEvent).

Definition unpackInput (data : bytes) : option InputPayload :=
  match data with
  | [] => None
  | kind :: rest =>
      if (kind =? 0) && (length data =? 1 + pod_size gcsLayout)%nat then
        Some (PState (gcsOfFields (pod_fields gcsLayout rest)))
      else if (kind =? 1) && (length data =? 1 + pod_size ievLayout)%nat then
        Some (PEvent (ievOfFields (pod_fields ievLayout rest)))
      else None
  end.

(** [memcpy(&rc, payload.data(), sizeof(rc))]. *)
Definition readRumble (payload : bytes) : RumbleCommand :=
  rumbleOfFields (pod_fields rumbleLayout (take (pod_size rumbleLayout) payload)).

(** * Well-formed values: every field has its C++ width *)

Definition sfits16 (x : Z) : Prop := - 2 ^ 15 <= x < 2 ^ 15.

#[export] Instance sfits16_dec x : Decision (sfits16 x).
Proof. unfold sfits16. apply _. Defined.

Definition gcs_typed (s : GameControllerState) : Prop :=
  fits 8 (gc_version s) /\ fits 8 (gc_connected s) /\ fits 16 (gc_buttons s) /\ fits 8 (gc_leftTrigger s) /\
  fits 8 (gc_rightTrigger s) /\ sfits16 (gc_thumbLX s) /\ sfits16 (gc_thumbLY s) /\ sfits16 (gc_thumbRX s) /\
  sfits16 (gc_thumbRY s) /\ fits 64 (gc_timestampNs s).

Definition iev_typed (e : InputEvent) : Prop :=
  fits 8 (ie_type e) /\ fits 8 (ie_code e) /\ fits 16 (ie_x e) /\ fits 16 (ie_y e) /\ sfits16 (ie_delta e) /\
  fits 8 (ie_pad0 e) /\ fits 8 (ie_flags e) /\ fits 64 (ie_timestampNs e).

#[export] Instance gcs_typed_dec s : Decision (gcs_typed s).
Proof. unfold gcs_typed. apply _. Defined.
#[export] Instance iev_typed_dec e : Decision (iev_typed e).
Proof. unfold iev_typed. apply _. Defined.

Definition payload_typed (p : InputPayload) : Prop :=
  match p with PState s => gcs_typed s | PEvent e => iev_typed e end.

Definition packInput (p : InputPayload) : bytes :=
  match p with PState s => packControllerState s | PEvent e => packInputEvent e end.

(** * The layout codec is exact *)

Definition field_fits (n : nat) (v : Z) : Prop := 0 <= v < 256 ^ Z.of_nat n.

Lemma pod_bytes_length layout fields :
  length fields = length layout -> length (pod_bytes layout fields) = pod_size layout.
Proof.
  revert fields. induction layout as [|n layout IH]; intros [|v fields] H; try done.
  cbn [pod_bytes]. rewrite length_app, le_put_length, IH by (cbn in H; lia). done.
Qed.

Lemma pod_bytes_ok layout fields : bytes_ok (pod_bytes layout fields).
Proof.
  revert fields. induction layout as [|n layout IH]; intros [|v fields]; try (by constructor).
  cbn [pod_bytes]. apply Forall_app. split; [apply le_put_ok|apply IH].
Qed.

Lemma pod_fields_bytes layout fields :
  Forall2 field_fits layout fields -> pod_fields layout (pod_bytes layout fields) = fields.
Proof.
  induction 1 as [|n v layout fields Hv _ IH]; [done|]. cbn [pod_bytes pod_fields].
  rewrite take_app_length', drop_app_length' by (by rewrite le_put_length). by rewrite le_get_put_id, IH.
Qed.

Lemma pod_bytes_fields layout bs :
  bytes_ok bs -> length bs = pod_size layout -> pod_bytes layout (pod_fields layout bs) = bs.
Proof.
  revert bs. induction layout as [|n layout IH]; intros bs Hok Hl.
  - by destruct bs.
  - cbn [pod_bytes pod_fields]. change (pod_size (n :: layout)) with (n + pod_size layout)%nat in Hl.
    assert (Ht : length (take n bs) = n) by (rewrite length_take; lia).
    rewrite <- Ht at 1. rewrite le_put_get by (by apply Forall_take).
    rewrite IH; [apply take_drop|by apply Forall_drop|rewrite length_drop; lia].
Qed.

Lemma pod_fields_fits layout bs :
  bytes_ok bs -> length bs = pod_size layout -> Forall2 field_fits layout (pod_fields layout bs).
Proof.
  revert bs. induction layout as [|n layout IH]; intros bs Hok Hl; [constructor|].
  cbn [pod_fields]. change (pod_size (n :: layout)) with (n + pod_size layout)%nat in Hl. constructor.
  - unfold field_fits. pose proof (le_get_range (take n bs) (Forall_take _ _ _ Hok)) as R.
    by rewrite length_take, Nat.min_l in R by lia.
  - apply IH; [by apply Forall_drop|rewrite length_drop; lia].
Qed.

(** * Conversions of signed fields *)

Lemma i16_u16 x : sfits16 x -> i16 (u16 x) = x.
Proof.
  unfold sfits16, i16, to_signed, u16. intros H. cbv zeta. rewrite Z.mod_mod by lia.
  destruct (Z.ltb_spec (x mod 2 ^ 16) (2 ^ (16 - 1))); Z.div_mod_to_equations; lia.
Qed.

Lemma u16_i16 x : fits 16 x -> u16 (i16 x) = x.
Proof.
  unfold fits, i16, to_signed, u16. intros H. cbv zeta. rewrite (Z.mod_small x) by lia.
  destruct (Z.ltb_spec x (2 ^ (16 - 1))); [by apply Z.mod_small|]. Z.div_mod_to_equations; lia.
Qed.

Lemma i16_sfits x : sfits16 (i16 x).
Proof.
  unfold sfits16, i16, to_signed. cbv zeta. pose proof (Z.mod_pos_bound x (2 ^ 16) eq_refl).
  destruct (Z.ltb_spec (x mod 2 ^ 16) (2 ^ (16 - 1))); lia.
Qed.

Lemma gcsFields_fit s : gcs_typed s -> Forall2 field_fits gcsLayout (gcsFields s).
Proof.
  intros (H1 & H2 & H3 & H4 & H5 & _ & _ & _ & _ & H10). unfold gcsLayout, gcsFields.
  repeat (constructor; [first [by apply u16_fits|assumption]|]). constructor.
Qed.

Lemma ievFields_fit e : iev_typed e -> Forall2 field_fits ievLayout (ievFields e).
Proof.
  intros (H1 & H2 & H3 & H4 & _ & H6 & H7 & H8). unfold ievLayout, ievFields.
  repeat (constructor; [first [by apply u16_fits|assumption]|]). constructor.
Qed.

Lemma gcsOfFields_fields s : gcs_typed s -> gcsOfFields (gcsFields s) = s.
Proof.
  intros (_ & _ & _ & _ & _ & H6 & H7 & H8 & H9 & _). unfold gcsFields, gcsOfFields.
  rewrite !i16_u16 by done. by destruct s.
Qed.

Lemma ievOfFields_fields e : iev_typed e -> ievOfFields (ievFields e) = e.
Proof.
  intros (_ & _ & _ & _ & H5 & _). unfold ievFields, ievOfFields. rewrite i16_u16 by done. by destruct e.
Qed.

Ltac invert_fits :=
  repeat match goal with
  | H : Forall2 field_fits (_ :: _) _ |- _ =>
      let v := fresh "v" in let l := fresh "l" in let Hv := fresh "Hv" in let Hl := fresh "Hl" in
      let E := fresh "E" in apply Forall2_cons_inv_l in H as (v & l & Hv & Hl & E); subst
  | H : Forall2 field_fits [] _ |- _ => apply Forall2_nil_inv_l in H; subst
  end.

Lemma gcsOfFields_inv l :
  Forall2 field_fits gcsLayout l -> gcs_typed (gcsOfFields l) /\ gcsFields (gcsOfFields l) = l.
Proof.
  unfold gcsLayout. intros H. invert_fits. cbn [gcsOfFields]. unfold gcsFields, gcs_typed.
  cbn [gc_version gc_connected gc_buttons gc_leftTrigger gc_rightTrigger gc_thumbLX gc_thumbLY gc_thumbRX
    gc_thumbRY gc_timestampNs]. rewrite !u16_i16 by assumption. split; [|done].
  split_and!; first [assumption|apply i16_sfits].
Qed.

Lemma ievOfFields_inv l :
  Forall2 field_fits ievLayout l -> iev_typed (ievOfFields l) /\ ievFields (ievOfFields l) = l.
Proof.
  unfold ievLayout. intros H. invert_fits. cbn [ievOfFields]. unfold ievFields, iev_typed.
  cbn [ie_type ie_code ie_x ie_y ie_delta ie_pad0 ie_flags ie_timestampNs]. rewrite u16_i16 by assumption.
  split; [|done]. split_and!; first [assumption|apply i16_sfits].
Qed.

Lemma unpackInput_typed data p : bytes_ok data -> unpackInput data = Some p -> payload_typed p /\ packInput p = data.
Proof.
  intros Hok. destruct data as [|kind rest]; [done|]. cbn [unpackInput]. apply Forall_cons_iff in Hok as [_ Hok].
  destruct ((kind =? 0) && _) eqn:E0; [|destruct ((kind =? 1) && _) eqn:E1; [|done]]; intros H;
    apply Some_inj in H as <-; b2p; subst kind.
  + assert (Hl : length rest = pod_size gcsLayout) by (select ((_ =? _)%nat = true) (fun H => by apply Nat.eqb_eq in H; injection H)).
    destruct (gcsOfFields_inv _ (pod_fields_fits _ _ Hok Hl)) as [Ht Hf]. split; [exact Ht|].
    cbn [packInput]. unfold packControllerState. by rewrite Hf, pod_bytes_fields.
  + assert (Hl : length rest = pod_size ievLayout) by (select ((_ =? _)%nat = true) (fun H => by apply Nat.eqb_eq in H; injection H)).
    destruct (ievOfFields_inv _ (pod_fields_fits _ _ Hok Hl)) as [Ht Hf]. split; [exact Ht|].
    cbn [packInput]. unfold packInputEvent. by rewrite Hf, pod_bytes_fields.
Qed.

Lemma unpackInput_pack p : payload_typed p -> unpackInput (packInput p) = Some p.
Proof.
  intros Ht. destruct p as [s|e]; cbn [packInput payload_typed] in *.
  + unfold packControllerState, unpackInput. cbn [length]. rewrite pod_bytes_length by done.
    rewrite pod_fields_bytes by by apply gcsFields_fit. by rewrite gcsOfFields_fields.
  + unfold packInputEvent, unpackInput. cbn [length]. rewrite pod_bytes_length by done.
    rewrite pod_fields_bytes by by apply ievFields_fit. by rewrite ievOfFields_fields.
Qed.

(** * Properties *)

(** Packing and unpacking are inverse on both sides: a datagram payload
    unpacks to a value exactly when it is the packing of that value, whose fields
    then all have their C++ widths. So every typed controller state and input
    event round-trips, the two kinds cannot be confused, and nothing but a packed
    value is accepted. *)
Theorem unpackInput_exact data p :
  bytes_ok data -> (unpackInput data = Some p <-> payload_typed p /\ packInput p = data).
Proof. intros Hok. split; [by apply unpackInput_typed|]. intros [Ht <-]. by apply unpackInput_pack. Qed.

Lemma unpackInput_exact_witness :
  unpackInput (packInput (PEvent (mkIev 6 0 0 0 (-3) 0 0 77))) = Some (PEvent (mkIev 6 0 0 0 (-3) 0 0 77)).
Proof.
  apply unpackInput_exact; [by_decision|]. split; [|reflexivity]. cbn [payload_typed]. by_decision.
Defined.
