(* ===== verification/VirtualGamepad.v ===== *)
(** input/VirtualGamepad.h and VirtualGamepad.cpp: virtual pads on the ViGEm bus.

    The client library is loaded at run time; which of its functions were found is
    a record of flags ([Exports]), a handle it returns is an integer (0 is the null
    pointer), and a call to it is an event of the result, in order. The results of
    its calls are arguments. The theorem says that the bus holds exactly the pads
    of the list. *)

From stdpp Require Import gmultiset.
From S2P Require Import Prelude Types InputProtocol.

(** * Data *)

Record XUsbReport := mkReport {
  xr_wButtons : Z; xr_bLeftTrigger : Z; xr_bRightTrigger : Z;
  xr_sThumbLX : Z; xr_sThumbLY : Z; xr_sThumbRX : Z; xr_sThumbRY : Z }.

(** The function table: whether each pointer is non-null. *)
Record Exports := mkExports {
  x_alloc : bool; x_connect : bool; x_disconnect : bool; x_free : bool; x_target_x360_alloc : bool;
  x_target_free : bool; x_target_add : bool; x_target_remove : bool; x_target_x360_update : bool;
  x_register_notification : bool; x_unregister_notification : bool }.

Definition noExports : Exports :=
  mkExports false false false false false false false false false false false.
Definition allExports : Exports := mkExports true true true true true true true true true true true.

Record Pad := mkPad { pad_playerIndex : Z; pad_target : Z }.

Record VirtualGamepad := mkVg {
  vg_dll : bool; vg_client : Z; vg_exports : Exports; vg_pads : list Pad; vg_onVibration : bool; vg_status : bytes }.

Definition newVirtualGamepad : VirtualGamepad := mkVg false 0 noExports [] false [].

(** Calls into the library. *)
Inductive VgCall :=
  | VTargetAdd (client target rc : Z)
  | VRegister (client target : Z)
  | VUnregister (target : Z)
  | VTargetRemove (client target : Z)
  | VTargetFree (target : Z)
  | VUpdate (client target : Z) (r : XUsbReport)
  | VDisconnect (client : Z)
  | VFree (client : Z)
  | VFreeLibrary.

Definition setPads (ps : list Pad) (v : VirtualGamepad) : VirtualGamepad :=
  mkVg (vg_dll v) (vg_client v) (vg_exports v) ps (vg_onVibration v) (vg_status v).
Definition setStatus (s : bytes) (v : VirtualGamepad) : VirtualGamepad :=
  mkVg (vg_dll v) (vg_client v) (vg_exports v) (vg_pads v) (vg_onVibration v) s.
Definition setClient (c : Z) (v : VirtualGamepad) : VirtualGamepad :=
  mkVg (vg_dll v) c (vg_exports v) (vg_pads v) (vg_onVibration v) (vg_status v).
Definition setLibrary (d : bool) (x : Exports) (v : VirtualGamepad) : VirtualGamepad :=
  mkVg d (vg_client v) x (vg_pads v) (vg_onVibration v) (vg_status v).

Definition available (v : VirtualGamepad) : bool := negb (vg_client v =? 0).

(** [std::to_string(long)]. *)
Definition print_long (z : Z) : bytes := if z <? 0 then str "-" ++ print_dec (- z) else print_dec z.

(** * Initialisation and shutdown *)

(** [LoadLibraryA] gives the exports or fails; [vigem_alloc] gives a client and
    [vigem_connect] a code. *)
Definition init (dll : option Exports) (allocated connectRc : Z) (v : VirtualGamepad)
    : bool * VirtualGamepad * list VgCall :=
  match dll with
  | None => (false, setStatus (str "vigemClient.dll not found (install ViGEmBus driver)") v, [])
  | Some x =>
      let v := setLibrary true x v in
      if negb (x_alloc x) || negb (x_connect x) || negb (x_target_x360_alloc x) || negb (x_target_add x) ||
         negb (x_target_x360_update x) || negb (x_target_remove x) || negb (x_free x) then
        (false, setStatus (str "vigemClient.dll found but exports missing (wrong version?)") v, [])
      else
        let v := setClient allocated v in
        if allocated =? 0 then (false, setStatus (str "vigem_alloc failed") v, [])
        else if negb (connectRc =? 0) then
          let v := setStatus (str "vigem_connect failed (ViGEmBus driver not installed?) error=" ++
                              print_long connectRc) v in
          (false, setClient 0 v, if x_free x then [VFree allocated] else [])
        else (true, setStatus (str "ViGEm ready") v, [])
  end.

(** Releasing one pad's target, in [shutdown] and in [removePlayer]. *)
Definition releaseTarget (v : VirtualGamepad) (p : Pad) : list VgCall :=
  if pad_target p =? 0 then []
  else
    (if x_unregister_notification (vg_exports v) then [VUnregister (pad_target p)] else []) ++
    (if x_target_remove (vg_exports v) && available v then [VTargetRemove (vg_client v) (pad_target p)] else []) ++
    (if x_target_free (vg_exports v) then [VTargetFree (pad_target p)] else []).

Definition shutdown (v : VirtualGamepad) : VirtualGamepad * list VgCall :=
  let calls := mjoin (releaseTarget v <$> vg_pads v) in
  let v := setPads [] v in
  let calls := calls ++
    (if available v then
       (if x_disconnect (vg_exports v) then [VDisconnect (vg_client v)] else []) ++
       (if x_free (vg_exports v) then [VFree (vg_client v)] else [])
     else []) in
  let v := setClient 0 v in
  (setLibrary false (vg_exports v) v, calls ++ (if vg_dll v then [VFreeLibrary] else [])).

(** * Players *)

Definition hasPlayer (p : Z) (v : VirtualGamepad) : bool :=
  existsb (fun q => pad_playerIndex q =? p) (vg_pads v).

(** [vigem_target_x360_alloc] gives [target], [vigem_target_add] the code [addRc]. *)
Definition addPlayer (target addRc : Z) (p : Z) (v : VirtualGamepad) : bool * VirtualGamepad * list VgCall :=
  if negb (available v) then (false, v, [])
  else if hasPlayer p v then (true, v, [])
  else if (4 <=? length (vg_pads v))%nat then (false, v, [])
  else if target =? 0 then (false, v, [])
  else if negb (addRc =? 0) then
    (false, v, VTargetAdd (vg_client v) target addRc ::
      (if x_target_free (vg_exports v) then [VTargetFree target] else []))
  else
    (true, setPads (vg_pads v ++ [mkPad p target]) v,
     VTargetAdd (vg_client v) target addRc ::
     (if x_register_notification (vg_exports v) then [VRegister (vg_client v) target] else [])).

(** The first pad of the player is released and erased. *)
Fixpoint erasePad (p : Z) (ps : list Pad) : option Pad * list Pad :=
  match ps with
  | [] => (None, [])
  | q :: ps =>
      if pad_playerIndex q =? p then (Some q, ps)
      else let '(r, ps) := erasePad p ps in (r, q :: ps)
  end.

Definition removePlayer (p : Z) (v : VirtualGamepad) : VirtualGamepad * list VgCall :=
  match erasePad p (vg_pads v) with
  | (None, _) => (v, [])
  | (Some q, ps) => (setPads ps v, releaseTarget v q)
  end.

Definition findPad (p : Z) (v : VirtualGamepad) : option Pad :=
  snd <$> list_find (fun q => pad_playerIndex q = p) (vg_pads v).

Definition reportOf (s : GameControllerState) : XUsbReport :=
  mkReport (gc_buttons s) (gc_leftTrigger s) (gc_rightTrigger s) (gc_thumbLX s) (gc_thumbLY s) (gc_thumbRX s)
    (gc_thumbRY s).

(** [vigem_target_x360_update] returns [rc]. *)
Definition update (rc : Z) (p : Z) (s : GameControllerState) (v : VirtualGamepad) : bool * list VgCall :=
  let target := match findPad p v with Some q => pad_target q | None => 0 end in
  if (target =? 0) || negb (available v) then (false, [])
  else (rc =? 0, [VUpdate (vg_client v) target (reportOf s)]).

Definition setVibrationCallback (v : VirtualGamepad) : VirtualGamepad :=
  mkVg (vg_dll v) (vg_client v) (vg_exports v) (vg_pads v) true (vg_status v).

(** The player a vibration of [target] is reported for. *)
Definition handleVibration (target : Z) (v : VirtualGamepad) : option Z :=
  match snd <$> list_find (fun q => pad_target q = target) (vg_pads v) with
  | Some q => if vg_onVibration v then Some (pad_playerIndex q) else None
  | None => None
  end.

Definition statusText (v : VirtualGamepad) : bytes := vg_status v.

(** * Runs after initialisation *)

Inductive VgOp :=
  | VoAddPlayer (target addRc p : Z)
  | VoRemovePlayer (p : Z)
  | VoUpdate (rc p : Z) (s : GameControllerState)
  | VoShutdown.

Definition vgStep (o : VgOp) (v : VirtualGamepad) : VirtualGamepad * list VgCall :=
  match o with
  | VoAddPlayer target addRc p => let '(_, v, cs) := addPlayer target addRc p v in (v, cs)
  | VoRemovePlayer p => removePlayer p v
  | VoUpdate rc p s => (v, snd (update rc p s v))
  | VoShutdown => shutdown v
  end.

Fixpoint vgRun (os : list VgOp) (v : VirtualGamepad) : VirtualGamepad * list VgCall :=
  match os with
  | [] => (v, [])
  | o :: os => let '(v, c1) := vgStep o v in let '(v, c2) := vgRun os v in (v, c1 ++ c2)
  end.

(** The targets plugged into the bus after some calls: an added target whose
    addition succeeded, until it is removed. *)
Definition busStep (bus : gmultiset Z) (c : VgCall) : gmultiset Z :=
  match c with
  | VTargetAdd _ t rc => if rc =? 0 then bus ⊎ {[+ t +]} else bus
  | VTargetRemove _ t => bus ∖ {[+ t +]}
  | _ => bus
  end.

Definition onBus (calls : list VgCall) (bus : gmultiset Z) : gmultiset Z := foldl busStep bus calls.

Definition padTargets (ps : list Pad) : gmultiset Z := list_to_set_disj (pad_target <$> ps).

(** Live pads have a target, need the client and the removal function, belong to
    different players and are at most four. *)
Definition vg_ok (v : VirtualGamepad) : Prop :=
  Forall (fun q => pad_target q <> 0) (vg_pads v) /\ NoDup (pad_playerIndex <$> vg_pads v) /\
  (length (vg_pads v) <= 4)%nat /\ x_target_remove (vg_exports v) = true /\
  (vg_pads v <> [] -> available v = true).

Lemma onBus_app c1 c2 bus : onBus (c1 ++ c2) bus = onBus c2 (onBus c1 bus).
Proof. apply foldl_app. Qed.

Lemma onBus_release v q bus :
  pad_target q <> 0 -> x_target_remove (vg_exports v) = true -> available v = true ->
  onBus (releaseTarget v q) bus = bus ∖ {[+ pad_target q +]}.
Proof.
  intros Ht Hx Ha. unfold releaseTarget. destruct (Z.eqb_spec (pad_target q) 0); [done|].
  rewrite Hx, Ha, !onBus_app. by destruct (x_unregister_notification _), (x_target_free _).
Qed.

Lemma erasePad_spec p ps r ps' :
  erasePad p ps = (r, ps') ->
  match r with
  | None => ps' = ps
  | Some q => pad_playerIndex q = p /\ ps ≡ₚ q :: ps' /\ sublist ps' ps
  end.
Proof.
  revert r ps'. induction ps as [|q ps IH]; intros r ps'; cbn [erasePad]; [by intros [= <- <-]|].
  destruct (Z.eqb_spec (pad_playerIndex q) p) as [Heq|Hne].
  - intros [= <- <-]. split_and!; [done|done|by constructor].
  - destruct (erasePad p ps) as [r1 ps1] eqn:E. intros [= <- <-]. specialize (IH _ _ eq_refl).
    destruct r1 as [q1|]; [|by subst]. destruct IH as (H1 & H2 & H3). split_and!; [done| |by constructor].
    rewrite H2. constructor.
Qed.

Lemma padTargets_perm ps ps' : ps ≡ₚ ps' -> padTargets ps = padTargets ps'.
Proof. intros H. unfold padTargets. by rewrite H. Qed.

Lemma padTargets_cons q ps : padTargets (q :: ps) ∖ {[+ pad_target q +]} = padTargets ps.
Proof. unfold padTargets. cbn [fmap list_fmap list_to_set_disj]. multiset_solver. Qed.

Lemma shutdown_bus v :
  vg_ok v -> onBus (snd (shutdown v)) (padTargets (vg_pads v)) = ∅.
Proof.
  intros (Ht & _ & _ & Hx & Hav). unfold shutdown. cbv zeta. cbn [snd]. rewrite !onBus_app.
  assert (Hrel : onBus (mjoin (releaseTarget v <$> vg_pads v)) (padTargets (vg_pads v)) = ∅).
  { destruct (decide (vg_pads v = [])) as [->|Hne]; [done|]. specialize (Hav Hne). clear Hne.
    induction Ht as [|q ps Hq _ IH]; [done|]. cbn [fmap list_fmap mjoin list_join]. rewrite onBus_app.
    rewrite onBus_release by done.
    by rewrite padTargets_cons. }
  rewrite Hrel. cbn [vg_dll setLibrary setClient setPads].
  repeat match goal with |- context [if ?b then _ else _] => destruct b end; done.
Qed.

Lemma hasPlayer_false p v : hasPlayer p v = false -> p ∉ (pad_playerIndex <$> vg_pads v).
Proof.
  intros H Hin. apply list_elem_of_fmap in Hin as (q & -> & Hq). unfold hasPlayer in H.
  assert (Ht : existsb (fun r => pad_playerIndex r =? pad_playerIndex q) (vg_pads v) = true).
  { apply existsb_exists. exists q. split; [by apply list_elem_of_In|apply Z.eqb_refl]. }
  congruence.
Qed.

Lemma addPlayer_step t rc p v b v' cs :
  vg_ok v -> addPlayer t rc p v = (b, v', cs) ->
  vg_ok v' /\ onBus cs (padTargets (vg_pads v)) = padTargets (vg_pads v').
Proof.
  intros Hok. unfold addPlayer. destruct (available v) eqn:Ha; cbn [negb]; [|by intros [= _ <- <-]].
  destruct (hasPlayer p v) eqn:Eh; [by intros [= _ <- <-]|].
  destruct (Nat.leb_spec 4 (length (vg_pads v))) as [|Hl]; [by intros [= _ <- <-]|].
  destruct (Z.eqb_spec t 0) as [|Ht]; [by intros [= _ <- <-]|].
  destruct (Z.eqb_spec rc 0) as [->|Hrc]; cbn [negb]; intros [= _ <- <-].
  - destruct Hok as (H1 & H2 & H3 & H4 & _). split.
    + unfold vg_ok. cbn [setPads vg_pads vg_exports]. split_and!; [|rewrite fmap_app|rewrite length_app; cbn; lia|done|done].
      * apply Forall_app. split; [done|]. by repeat constructor.
      * apply list.NoDup_app. split_and!; [done| |by apply NoDup_singleton].
        intros x Hx. cbn. rewrite list_elem_of_singleton. intros ->. by apply (hasPlayer_false p v Eh).
    + cbn [setPads vg_pads]. unfold padTargets. rewrite fmap_app, list_to_set_disj_app.
      assert (Hb : forall bus : gmultiset Z, bus ⊎ {[+ t +]} = bus ⊎ ({[+ t +]} ⊎ ∅)) by (clear; multiset_solver).
      destruct (x_register_notification _); apply Hb.
  - split; [done|]. destruct (x_target_free _); cbn; by destruct (Z.eqb_spec rc 0).
Qed.

Lemma removePlayer_step p v v' cs :
  vg_ok v -> removePlayer p v = (v', cs) ->
  vg_ok v' /\ onBus cs (padTargets (vg_pads v)) = padTargets (vg_pads v').
Proof.
  intros (H1 & H2 & H3 & H4 & H5). unfold removePlayer.
  destruct (erasePad p (vg_pads v)) as [[q|] ps] eqn:E; apply erasePad_spec in E; [|by intros [= <- <-]].
  destruct E as (_ & Hp & Hsub). intros [= <- <-]. rewrite Hp in H1. apply Forall_cons_iff in H1 as [Hq H1].
  assert (Hav : available v = true) by (apply H5; intros E; by rewrite E in Hp; apply Permutation_nil_cons in Hp).
  cbn [setPads vg_pads]. split.
  - unfold vg_ok. cbn [setPads vg_pads vg_exports]. split_and!; [done| | |done|done].
    + rewrite Hp in H2. cbn in H2. by apply list.NoDup_cons in H2 as [_ H2].
    + apply sublist_length in Hsub. lia.
  - rewrite onBus_release by done. rewrite (padTargets_perm _ _ Hp). apply padTargets_cons.
Qed.

Lemma vgStep_ok o v v' cs :
  vg_ok v -> vgStep o v = (v', cs) ->
  vg_ok v' /\ onBus cs (padTargets (vg_pads v)) = padTargets (vg_pads v').
Proof.
  intros Hok. destruct o as [t rc p|p|rc p s|]; cbn [vgStep].
  - destruct (addPlayer t rc p v) as [[b v1] c1] eqn:E. intros [= <- <-]. by eapply addPlayer_step.
  - intros E. by eapply removePlayer_step.
  - intros [= <- <-]. split; [done|]. unfold update. destruct (_ || _); [done|]. by cbn.
  - intros E. pose proof (shutdown_bus v Hok) as Hb. rewrite E in Hb. cbn [snd] in Hb.
    unfold shutdown in E. injection E as <- _. split; [|exact Hb].
    destruct Hok as (_ & _ & _ & H4 & _). unfold vg_ok. cbn. split_and!; [constructor|constructor|lia|done|done].
Qed.

(** C31: after a successful initialisation, whatever pads are added, removed and
    updated, with whatever results of the driver, and after a shutdown, the
    targets plugged into the bus are exactly those of the pad list: no pad
    outlives its player, a failed addition leaves none behind, a player has at
    most one and there are never more than four. *)
Theorem bus_mirrors_pads x client os v v' calls :
  init (Some x) client 0 newVirtualGamepad = (true, v, []) -> vgRun os v = (v', calls) ->
  onBus calls ∅ = padTargets (vg_pads v') /\ NoDup (pad_playerIndex <$> vg_pads v') /\
  (length (vg_pads v') <= 4)%nat.
Proof.
  intros Hinit Hrun.
  assert (Hv : vg_ok v /\ vg_pads v = []).
  { unfold init in Hinit. cbv zeta in Hinit. destruct (x_target_remove x) eqn:Ex; cycle 1.
    { by rewrite !orb_true_r in Hinit. }
    destruct (_ || _); [done|]. destruct (client =? 0); [done|]. injection Hinit as <-.
    unfold vg_ok. cbn. split_and!; [constructor|constructor|lia|done|done|done]. }
  destruct Hv as [Hok Hnil]. assert (H0 : ∅ = padTargets (vg_pads v)) by (by rewrite Hnil). rewrite H0.
  clear Hinit Hnil H0. assert (Hgoal : vg_ok v' /\ onBus calls (padTargets (vg_pads v)) = padTargets (vg_pads v')).
  { revert v calls Hok Hrun. induction os as [|o os IH]; intros v calls Hok; cbn [vgRun]; [by intros [= <- <-]|].
    destruct (vgStep o v) as [v1 c1] eqn:E1. destruct (vgRun os v1) as [v2 c2] eqn:E2. intros [= <- <-].
    destruct (vgStep_ok _ _ _ _ Hok E1) as [Hok1 Hb1]. destruct (IH _ _ Hok1 E2) as [Hok2 Hb2].
    split; [done|]. by rewrite onBus_app, Hb1. }
  destruct Hgoal as [(_ & H2 & H3 & _) Hb]. by split_and!.
Qed.

Lemma bus_mirrors_pads_witness :
  exists v v' calls, init (Some allExports) 5 0 newVirtualGamepad = (true, v, []) /\
    vgRun [VoAddPlayer 11 0 0; VoAddPlayer 12 7 1; VoAddPlayer 13 0 2; VoRemovePlayer 0] v = (v', calls) /\
    vg_pads v' = [mkPad 2 13] /\ onBus calls ∅ = padTargets [mkPad 2 13].
Proof.
  do 3 eexists. split; [reflexivity|]. split; [reflexivity|]. split; [reflexivity|].
  exact (proj1 (bus_mirrors_pads allExports 5
    [VoAddPlayer 11 0 0; VoAddPlayer 12 7 1; VoAddPlayer 13 0 2; VoRemovePlayer 0] _ _ _ eq_refl eq_refl)).
Defined.
