(* ===== verification/InputInjector.v ===== *)
(** input/InputInjector.h and InputInjector.cpp: the host applies the input of its
    clients, under live permissions, and releases what a client holds.

    [SendInput] is an event of the result. Where the code looks at what it
    returned, the event carries that result; where it does not, the event carries
    [None]. [MapVirtualKeyW] is a parameter. Every operation holds the mutex from
    start to end and is one step. *)

From S2P Require Import Prelude Types Protocol OrderedMap InputProtocol VirtualGamepad.

Open Scope act_scope.
Open Scope Z_scope.

(** * Synthesised input *)

(** The flags of [KEYBDINPUT] and [MOUSEINPUT] the code uses, by name. *)
Inductive Flag :=
  | KEYEVENTF_KEYUP | KEYEVENTF_EXTENDEDKEY
  | MOUSEEVENTF_MOVE | MOUSEEVENTF_ABSOLUTE | MOUSEEVENTF_LEFTDOWN | MOUSEEVENTF_LEFTUP
  | MOUSEEVENTF_RIGHTDOWN | MOUSEEVENTF_RIGHTUP | MOUSEEVENTF_MIDDLEDOWN | MOUSEEVENTF_MIDDLEUP
  | MOUSEEVENTF_XDOWN | MOUSEEVENTF_XUP | MOUSEEVENTF_WHEEL.

#[export] Instance Flag_eq_dec : EqDecision Flag.
Proof. solve_decision. Defined.

Inductive MouseData := NoData | XBUTTON1 | XBUTTON2 | WheelData (d : Z).

(** [INPUT]: a keyboard or a mouse input. *)
Inductive INPUT :=
  | InKeyboard (wVk wScan : Z) (dwFlags : list Flag)
  | InMouse (dx dy : Z) (mouseData : MouseData) (dwFlags : list Flag).

Definition WHEEL_DELTA : Z := 120.

Definition makeMouseMoveInput (absX absY : Z) : INPUT :=
  InMouse absX absY NoData [MOUSEEVENTF_MOVE; MOUSEEVENTF_ABSOLUTE].

Definition makeMouseButtonInput (button : Z) (down : bool) : INPUT :=
  if button =? 0 then InMouse 0 0 NoData [if down then MOUSEEVENTF_LEFTDOWN else MOUSEEVENTF_LEFTUP]
  else if button =? 1 then InMouse 0 0 NoData [if down then MOUSEEVENTF_RIGHTDOWN else MOUSEEVENTF_RIGHTUP]
  else if button =? 2 then InMouse 0 0 NoData [if down then MOUSEEVENTF_MIDDLEDOWN else MOUSEEVENTF_MIDDLEUP]
  else if button =? 3 then InMouse 0 0 XBUTTON1 [if down then MOUSEEVENTF_XDOWN else MOUSEEVENTF_XUP]
  else if button =? 4 then InMouse 0 0 XBUTTON2 [if down then MOUSEEVENTF_XDOWN else MOUSEEVENTF_XUP]
  else InMouse 0 0 NoData [].

(** [mi.mouseData = static_cast<DWORD>(e.delta) * WHEEL_DELTA]. *)
Definition makeWheelInput (delta : Z) : INPUT :=
  InMouse 0 0 (WheelData (u32 (u32 delta * WHEEL_DELTA))) [MOUSEEVENTF_WHEEL].

(** * State *)

Record PerClient := mkPc {
  pc_playerIndex : Z; pc_controller : bool; pc_keyboard : bool; pc_mouse : bool; pc_vibration : bool;
  pc_keysDown : list bool; pc_mouseButtons : list bool }.

Definition newPerClient (p : Z) : PerClient :=
  mkPc p true false false true (replicate 256 false) (replicate 5 false).

Record InputInjector := mkInj {
  inj_pads : VirtualGamepad; inj_rumbleSender : bool; inj_clients : list PerClient;
  inj_injectedEvents : Z; inj_rejectedEvents : Z }.

Definition newInjector : InputInjector := mkInj newVirtualGamepad false [] 0 0.

Inductive InjEvent :=
  | EvSend (i : INPUT) (result : option bool)
  | EvPad (c : VgCall)
  | EvRumble (playerIndex lm rm : Z).

Abbreviation InjOut := (list InjEvent * InputInjector)%type.

Definition setClients (cs : list PerClient) (s : InputInjector) : InputInjector :=
  mkInj (inj_pads s) (inj_rumbleSender s) cs (inj_injectedEvents s) (inj_rejectedEvents s).
Definition setInjPads (v : VirtualGamepad) (s : InputInjector) : InputInjector :=
  mkInj v (inj_rumbleSender s) (inj_clients s) (inj_injectedEvents s) (inj_rejectedEvents s).
Definition countInjected (s : InputInjector) : InputInjector :=
  mkInj (inj_pads s) (inj_rumbleSender s) (inj_clients s) (u64 (inj_injectedEvents s + 1)) (inj_rejectedEvents s).
Definition countRejected (s : InputInjector) : InputInjector :=
  mkInj (inj_pads s) (inj_rumbleSender s) (inj_clients s) (inj_injectedEvents s) (u64 (inj_rejectedEvents s + 1)).
Definition setRumbleSender (s : InputInjector) : InputInjector :=
  mkInj (inj_pads s) true (inj_clients s) (inj_injectedEvents s) (inj_rejectedEvents s).

Definition setKey (vk : Z) (down : bool) (c : PerClient) : PerClient :=
  mkPc (pc_playerIndex c) (pc_controller c) (pc_keyboard c) (pc_mouse c) (pc_vibration c)
    (<[Z.to_nat vk := down]> (pc_keysDown c)) (pc_mouseButtons c).
Definition setButton (b : Z) (down : bool) (c : PerClient) : PerClient :=
  mkPc (pc_playerIndex c) (pc_controller c) (pc_keyboard c) (pc_mouse c) (pc_vibration c)
    (pc_keysDown c) (<[Z.to_nat b := down]> (pc_mouseButtons c)).
Definition setPerms (perms : InputPermission) (c : PerClient) : PerClient :=
  mkPc (pc_playerIndex c) (ip_controller perms) (ip_keyboard perms) (ip_mouse perms) (ip_vibration perms)
    (pc_keysDown c) (pc_mouseButtons c).

(** * The client list *)

Fixpoint findClient (p : Z) (cs : list PerClient) : option PerClient :=
  match cs with
  | [] => None
  | c :: cs => if pc_playerIndex c =? p then Some c else findClient p cs
  end.

(** The reference [ensureClient] returns, read. *)
Definition theClient (p : Z) (cs : list PerClient) : PerClient :=
  match findClient p cs with Some c => c | None => newPerClient p end.

(** The same reference, written: the entry is created when missing. *)
Fixpoint updClient (p : Z) (f : PerClient -> PerClient) (cs : list PerClient) : list PerClient :=
  match cs with
  | [] => [f (newPerClient p)]
  | c :: cs => if pc_playerIndex c =? p then f c :: cs else c :: updClient p f cs
  end.

Definition ensureClient (p : Z) (s : InputInjector) : InputInjector :=
  setClients (updClient p id (inj_clients s)) s.

Fixpoint eraseClient (p : Z) (cs : list PerClient) : list PerClient :=
  match cs with
  | [] => []
  | c :: cs => if pc_playerIndex c =? p then cs else c :: eraseClient p cs
  end.

(** * Operations *)

Section Injector.
Context (mapVirtualKey : Z -> Z).

Definition makeKeyInput (vk : Z) (down extended : bool) : INPUT :=
  InKeyboard vk (u16 (mapVirtualKey vk))
    ((if down then [] else [KEYEVENTF_KEYUP]) ++ (if extended then [KEYEVENTF_EXTENDEDKEY] else [])).

(** The two loops of [releaseAllKeys] over one client. *)
Fixpoint releaseKeys (vks : list Z) (c : PerClient) : list InjEvent * PerClient :=
  match vks with
  | [] => ([], c)
  | vk :: vks =>
      if nth (Z.to_nat vk) (pc_keysDown c) false then
        let '(es, c) := releaseKeys vks (setKey vk false c) in
        (EvSend (makeKeyInput vk false false) None :: es, c)
      else releaseKeys vks c
  end.

Fixpoint releaseButtons (bs : list Z) (c : PerClient) : list InjEvent * PerClient :=
  match bs with
  | [] => ([], c)
  | b :: bs =>
      if nth (Z.to_nat b) (pc_mouseButtons c) false then
        let '(es, c) := releaseButtons bs (setButton b false c) in
        (EvSend (makeMouseButtonInput b false) None :: es, c)
      else releaseButtons bs c
  end.

Definition releaseClient (c : PerClient) : list InjEvent * PerClient :=
  let '(e1, c) := releaseKeys (seqZ 1 255) c in
  let '(e2, c) := releaseButtons (seqZ 0 5) c in
  (e1 ++ e2, c).

Definition releaseAllKeys (p : Z) : act InputInjector InjEvent := fun s =>
  let '(es, c) := releaseClient (theClient p (inj_clients s)) in
  (es, setClients (updClient p (fun _ => c) (inj_clients s)) s).

Definition padAction (f : VirtualGamepad -> VirtualGamepad * list VgCall) : act InputInjector InjEvent := fun s =>
  let '(v, cs) := f (inj_pads s) in (EvPad <$> cs, setInjPads v s).

(** [init]: always true; a failure to load ViGEm is logged. *)
Definition init (dll : option Exports) (allocated connectRc : Z) : act InputInjector InjEvent :=
  padAction (fun v => let '(_, v, cs) := VirtualGamepad.init dll allocated connectRc v in (v, cs)) ;+
  padAction (fun v => (setVibrationCallback v, [])).

(** The vibration callback installed by [init], for the motors of one target. *)
Definition onVibration (target lm rm : Z) (s : InputInjector) : list InjEvent :=
  match handleVibration target (inj_pads s) with
  | None => []
  | Some player =>
      match list_find (fun c => pc_playerIndex c = player /\ pc_vibration c = true) (inj_clients s) with
      | Some _ => if inj_rumbleSender s then [EvRumble player lm rm] else []
      | None => []
      end
  end.

Definition shutdown : act InputInjector InjEvent :=
  readA (fun s => forA (inj_clients s) (fun c : PerClient =>
    releaseAllKeys (pc_playerIndex c) ;+ padAction (removePlayer (pc_playerIndex c)))) ;+
  modify (setClients []) ;+
  padAction VirtualGamepad.shutdown.

Definition setPermissions (target addRc : Z) (p : Z) (perms : InputPermission) : act InputInjector InjEvent :=
  readA (fun s =>
    let controllerWas := pc_controller (theClient p (inj_clients s)) in
    modify (fun s => setClients (updClient p (setPerms perms) (inj_clients s)) s) ;+
    (if ip_controller perms && negb controllerWas then
       padAction (fun v => let '(_, v, cs) := addPlayer target addRc p v in (v, cs))
     else if negb (ip_controller perms) && controllerWas then padAction (removePlayer p)
     else skip) ;+
    (if negb (ip_keyboard perms) then releaseAllKeys p else skip)).

Definition applyController (updateRc : Z) (p : Z) (g : GameControllerState) (s : InputInjector) : bool * InjOut :=
  if negb (gc_version g =? 1) then (false, ([], countRejected s))
  else if gc_connected g =? 0 then (true, ([], s))
  else
    let '(ok, cs) := update updateRc p g (inj_pads s) in
    (ok, (EvPad <$> cs, if ok then countInjected s else countRejected s)).

(** The call of [SendInput] at the end of [applyEvent]. *)
Definition sendChecked (sent : bool) (i : INPUT) (s : InputInjector) : bool * InjOut :=
  if sent then (true, ([EvSend i (Some true)], countInjected s))
  else (false, ([EvSend i (Some false)], countRejected s)).

Definition applyEvent (sent : bool) (p : Z) (e : InputEvent) (s : InputInjector) : bool * InjOut :=
  let s := ensureClient p s in
  let upd f := setClients (updClient p f (inj_clients s)) s in
  let isType t := ie_type e =? inputEventTypeCode t in
  if isType KeyDown || isType KeyUp then
    if (ie_code e =? 0) || (256 <=? ie_code e) then (false, ([], countRejected s))
    else
      let down := isType KeyDown in
      sendChecked sent (makeKeyInput (ie_code e) down (negb (Z.land (ie_flags e) 1 =? 0)))
        (upd (setKey (ie_code e) down))
  else if isType MouseMove then sendChecked sent (makeMouseMoveInput (ie_x e) (ie_y e)) s
  else if isType MouseButtonDown || isType MouseButtonUp then
    if 5 <=? ie_code e then (false, ([], countRejected s))
    else
      let down := isType MouseButtonDown in
      sendChecked sent (makeMouseButtonInput (ie_code e) down) (upd (setButton (ie_code e) down))
  else if isType MouseWheel then sendChecked sent (makeWheelInput (ie_delta e)) s
  else (false, ([], countRejected s)).

Definition isKeyboardEvent (e : InputEvent) : bool :=
  (ie_type e =? inputEventTypeCode KeyDown) || (ie_type e =? inputEventTypeCode KeyUp).

Definition applyInput (sent : bool) (updateRc : Z) (p : Z) (data : bytes) (s : InputInjector) : bool * InjOut :=
  match unpackInput data with
  | None => (false, ([], countRejected s))
  | Some payload =>
      let s := ensureClient p s in
      let c := theClient p (inj_clients s) in
      match payload with
      | PState g => if negb (pc_controller c) then (false, ([], countRejected s)) else applyController updateRc p g s
      | PEvent e =>
          if isKeyboardEvent e && negb (pc_keyboard c) then (false, ([], countRejected s))
          else if negb (isKeyboardEvent e) && negb (pc_mouse c) then (false, ([], countRejected s))
          else applyEvent sent p e s
      end
  end.

Definition clientDisconnected (p : Z) : act InputInjector InjEvent :=
  releaseAllKeys p ;+
  padAction (removePlayer p) ;+
  modify (fun s => setClients (eraseClient p (inj_clients s)) s).

(** * Runs *)

Inductive InjOp :=
  | IoInit (dll : option Exports) (allocated connectRc : Z)
  | IoSetRumbleSender
  | IoSetPermissions (target addRc : Z) (p : Z) (perms : InputPermission)
  | IoApply (sent : bool) (updateRc : Z) (p : Z) (data : bytes)
  | IoVibration (target lm rm : Z)
  | IoDisconnected (p : Z)
  | IoShutdown.

Definition injStep (o : InjOp) : act InputInjector InjEvent :=
  match o with
  | IoInit dll allocated connectRc => init dll allocated connectRc
  | IoSetRumbleSender => modify setRumbleSender
  | IoSetPermissions target addRc p perms => setPermissions target addRc p perms
  | IoApply sent updateRc p data => fun s => snd (applyInput sent updateRc p data s)
  | IoVibration target lm rm => fun s => (onVibration target lm rm s, s)
  | IoDisconnected p => clientDisconnected p
  | IoShutdown => shutdown
  end.

Definition injRun (os : list InjOp) : act InputInjector InjEvent := forA os injStep.

End Injector.
