(* ===== verification/InputInjectorSpec.v ===== *)
(** What the input injector guarantees over any run: the permissions it enforces
    are the ones last granted, and it forgets no key or button it holds down. *)

From S2P Require Import Prelude Types Protocol OrderedMap InputProtocol VirtualGamepad InputInjector.

Open Scope act_scope.
Open Scope Z_scope.

(** * The client list as a total map *)

Lemma findClient_player p cs c : findClient p cs = Some c -> pc_playerIndex c = p.
Proof. induction cs as [|d cs IH]; cbn; [done|]. destruct (Z.eqb_spec (pc_playerIndex d) p); [by intros [= <-]|done]. Qed.

Lemma theClient_player p cs : pc_playerIndex (theClient p cs) = p.
Proof. unfold theClient. destruct (findClient p cs) as [c|] eqn:E; [by apply (findClient_player _ cs)|done]. Qed.

Lemma theClient_upd p f cs q :
  pc_playerIndex (f (theClient p cs)) = p ->
  theClient q (updClient p f cs) = if decide (q = p) then f (theClient p cs) else theClient q cs.
Proof.
  unfold theClient. induction cs as [|c cs IH]; cbn [updClient findClient].
  - cbn [findClient]. intros ->. destruct (Z.eqb_spec p q), (decide (q = p)); by subst.
  - destruct (Z.eqb_spec (pc_playerIndex c) p) as [Hc|Hc]; cbn [findClient].
    + intros Hf. rewrite Hf. destruct (Z.eqb_spec p q), (decide (q = p)), (Z.eqb_spec (pc_playerIndex c) q); by subst.
    + intros Hf. specialize (IH Hf). destruct (Z.eqb_spec (pc_playerIndex c) q) as [Hq|Hq]; [|done].
      destruct (decide (q = p)); [congruence|done].
Qed.

Definition players (cs : list PerClient) : list Z := pc_playerIndex <$> cs.

Lemma players_upd p f cs :
  pc_playerIndex (f (theClient p cs)) = p ->
  players (updClient p f cs) = players cs \/ (p ∉ players cs /\ players (updClient p f cs) = players cs ++ [p]).
Proof.
  unfold theClient. induction cs as [|c cs IH]; cbn [updClient findClient players fmap list_fmap].
  - cbn. intros ->. right. split; [by apply not_elem_of_nil|done].
  - destruct (Z.eqb_spec (pc_playerIndex c) p) as [Hc|Hc]; intros Hf; cbn [fmap list_fmap].
    + left. by rewrite Hf, Hc.
    + destruct (IH Hf) as [E|[Hn E]]; [left|right]; unfold players in *; rewrite E; [done|].
      split; [|done]. rewrite not_elem_of_cons. split; [congruence|done].
Qed.

Lemma nodup_upd p f cs :
  pc_playerIndex (f (theClient p cs)) = p -> NoDup (players cs) -> NoDup (players (updClient p f cs)).
Proof.
  intros Hf Hn. destruct (players_upd p f cs Hf) as [->|[Hp ->]]; [done|]. apply list.NoDup_app. split_and!; [done| |].
  - intros x Hx. rewrite list_elem_of_singleton. by intros ->.
  - by apply NoDup_singleton.
Qed.

Lemma theClient_erase p cs q :
  NoDup (players cs) -> theClient q (eraseClient p cs) = if decide (q = p) then newPerClient p else theClient q cs.
Proof.
  unfold theClient. induction cs as [|c cs IH]; cbn [eraseClient findClient players fmap list_fmap].
  - intros _. destruct (decide (q = p)); [by subst|done].
  - intros Hn. apply list.NoDup_cons in Hn as [Hc Hn]. destruct (Z.eqb_spec (pc_playerIndex c) p) as [Hp|Hp].
    + destruct (decide (q = p)) as [->|Hq]; [|by destruct (Z.eqb_spec (pc_playerIndex c) q); [congruence|]].
      destruct (findClient p cs) as [d|] eqn:E; [|done]. exfalso. apply Hc. rewrite Hp.
      rewrite <- (findClient_player _ _ _ E). apply list_elem_of_fmap. exists d. split; [done|].
      clear -E. induction cs as [|x cs IH]; [done|]. cbn in E. destruct (_ =? _); [injection E as ->; by left|].
      right. by apply IH.
    + cbn [findClient]. destruct (Z.eqb_spec (pc_playerIndex c) q); [|by apply IH].
      destruct (decide (q = p)); [congruence|done].
Qed.

Lemma nodup_erase p cs : NoDup (players cs) -> NoDup (players (eraseClient p cs)).
Proof.
  assert (Hsub : sublist (players (eraseClient p cs)) (players cs)).
  { induction cs as [|c cs IH]; cbn [eraseClient players fmap list_fmap]; [done|].
    destruct (pc_playerIndex c =? p); [by constructor|]. by constructor. }
  intros H. by eapply sublist_NoDup.
Qed.

(** The client a state keeps for a player: its entry, or the one [ensureClient]
    would create. *)
Definition view (s : InputInjector) (p : Z) : PerClient := theClient p (inj_clients s).

Lemma view_upd p f s q :
  pc_playerIndex (f (view s p)) = p ->
  view (setClients (updClient p f (inj_clients s)) s) q = if decide (q = p) then f (view s p) else view s q.
Proof. apply theClient_upd. Qed.

Lemma view_ensure p s q : view (ensureClient p s) q = view s q.
Proof.
  unfold ensureClient. rewrite view_upd by apply theClient_player. destruct (decide (q = p)) as [->|]; done.
Qed.

(** * What is held down *)

(** A key: the extended ones are other keys than the plain ones of the same
    virtual-key code. *)
Definition keyPos (vk : Z) (extended : bool) : Z := if extended then 512 + vk else vk.

(** The key or button (256 and its number) an input acts on, and whether it presses
    it. *)
Definition inputEffect (i : INPUT) : option (Z * bool) :=
  match i with
  | InKeyboard vk _ fl => Some (keyPos vk (bool_decide (KEYEVENTF_EXTENDEDKEY ∈ fl)), negb (bool_decide (KEYEVENTF_KEYUP ∈ fl)))
  | InMouse _ _ data [fl] =>
      match fl, data with
      | MOUSEEVENTF_LEFTDOWN, _ => Some (256, true) | MOUSEEVENTF_LEFTUP, _ => Some (256, false)
      | MOUSEEVENTF_RIGHTDOWN, _ => Some (257, true) | MOUSEEVENTF_RIGHTUP, _ => Some (257, false)
      | MOUSEEVENTF_MIDDLEDOWN, _ => Some (258, true) | MOUSEEVENTF_MIDDLEUP, _ => Some (258, false)
      | MOUSEEVENTF_XDOWN, XBUTTON1 => Some (259, true) | MOUSEEVENTF_XUP, XBUTTON1 => Some (259, false)
      | MOUSEEVENTF_XDOWN, XBUTTON2 => Some (260, true) | MOUSEEVENTF_XUP, XBUTTON2 => Some (260, false)
      | _, _ => None
      end
  | InMouse _ _ _ _ => None
  end.

(** Keys and buttons that are down after an event: a call that reported failure
    has no effect, one whose result is not looked at succeeds. *)
Definition heldStep (h : gset Z) (e : InjEvent) : gset Z :=
  match e with
  | EvSend _ (Some false) => h
  | EvSend i _ => match inputEffect i with Some (k, true) => {[k]} ∪ h | Some (k, false) => h ∖ {[k]} | None => h end
  | _ => h
  end.

Definition held (es : list InjEvent) (h : gset Z) : gset Z := foldl heldStep h es.

Lemma held_app e1 e2 h : held (e1 ++ e2) h = held e2 (held e1 h).
Proof. apply foldl_app. Qed.

Lemma held_pads cs h : held (EvPad <$> cs) h = h.
Proof. induction cs; [done|]. by cbn. Qed.

(** What a client's entry says it holds. *)
Definition holds (c : PerClient) (k : Z) : bool :=
  if k <? 0 then false
  else if k <? 256 then nth (Z.to_nat k) (pc_keysDown c) false
  else nth (Z.to_nat (k - 256)) (pc_mouseButtons c) false.

(** An entry has its arrays and never holds key 0. *)
Definition client_ok (c : PerClient) : Prop :=
  length (pc_keysDown c) = 256%nat /\ length (pc_mouseButtons c) = 5%nat /\ nth 0 (pc_keysDown c) false = false.

Lemma holds_new p k : holds (newPerClient p) k = false.
Proof.
  unfold holds, newPerClient. cbn [pc_keysDown pc_mouseButtons].
  destruct (k <? 0); [done|]. destruct (k <? 256); rewrite nth_lookup;
    (destruct (replicate _ _ !! _) as [b|] eqn:E; [by apply lookup_replicate in E as [-> _]|done]).
Qed.

Lemma client_ok_new p : client_ok (newPerClient p).
Proof. done. Qed.

(** * Releasing *)

Lemma nth_insert (l : list bool) i j b :
  (i < length l)%nat -> nth j (<[i := b]> l) false = if decide (j = i) then b else nth j l false.
Proof.
  intros Hi. rewrite !nth_lookup. destruct (decide (j = i)) as [->|Hne].
  - by rewrite list_lookup_insert_eq.
  - by rewrite list_lookup_insert_ne.
Qed.

Definition flags (c : PerClient) : InputPermission :=
  mkInputPermission (pc_controller c) (pc_keyboard c) (pc_mouse c) (pc_vibration c).

(** Two entries of one player with the same permissions and array sizes. *)
Definition same_entry (c c' : PerClient) : Prop :=
  pc_playerIndex c' = pc_playerIndex c /\ flags c' = flags c /\
  length (pc_keysDown c') = length (pc_keysDown c) /\ length (pc_mouseButtons c') = length (pc_mouseButtons c).

Lemma same_entry_refl c : same_entry c c.
Proof. done. Qed.
Lemma same_entry_trans c1 c2 c3 : same_entry c1 c2 -> same_entry c2 c3 -> same_entry c1 c3.
Proof. unfold same_entry. intros (-> & -> & -> & ->) (-> & -> & -> & ->). done. Qed.

Lemma setKey_same vk b c : same_entry c (setKey vk b c).
Proof. unfold same_entry. cbn. by rewrite length_insert. Qed.
Lemma setButton_same n b c : same_entry c (setButton n b c).
Proof. unfold same_entry. cbn. by rewrite length_insert. Qed.

Lemma holds_setKey vk b c k :
  length (pc_keysDown c) = 256%nat -> 0 <= vk < 256 ->
  holds (setKey vk b c) k = if decide (k = vk) then b else holds c k.
Proof.
  intros Hl Hvk. unfold holds. destruct (Z.ltb_spec k 0); [rewrite decide_False by lia; done|]. cbn [setKey pc_keysDown pc_mouseButtons].
  destruct (Z.ltb_spec k 256), (decide (k = vk)) as [->|Hne]; try lia; try done.
  - rewrite nth_insert by lia. by rewrite decide_True.
  - rewrite nth_insert by lia. rewrite decide_False by lia. done.
Qed.

Lemma holds_setButton n b c k :
  length (pc_mouseButtons c) = 5%nat -> 0 <= n < 5 ->
  holds (setButton n b c) k = if decide (k = 256 + n) then b else holds c k.
Proof.
  intros Hl Hn. unfold holds. destruct (Z.ltb_spec k 0); [rewrite decide_False by lia; done|]. cbn [setButton pc_keysDown pc_mouseButtons].
  destruct (Z.ltb_spec k 256), (decide (k = 256 + n)) as [->|Hne]; try lia; try done.
  - rewrite nth_insert by lia. by rewrite decide_True by lia.
  - rewrite nth_insert by lia. rewrite decide_False by lia. done.
Qed.

Lemma heldStep_button n b r h :
  0 <= n < 5 -> r <> Some false ->
  heldStep h (EvSend (makeMouseButtonInput n b) r) = if b then {[256 + n]} ∪ h else h ∖ {[256 + n]}.
Proof.
  intros Hn Hr. assert (Hcases : n = 0 \/ n = 1 \/ n = 2 \/ n = 3 \/ n = 4) by lia.
  destruct r as [[]|]; [|done|]; destruct Hcases as [->|[->|[->|[->| ->]]]]; by destruct b.
Qed.

Section Release.
Context (mvk : Z -> Z).

Lemma heldStep_key vk b x r h :
  r <> Some false -> heldStep h (EvSend (makeKeyInput mvk vk b x) r) = if b then {[keyPos vk x]} ∪ h else h ∖ {[keyPos vk x]}.
Proof. intros Hr. destruct r as [[]|]; [|done|]; by destruct b, x. Qed.

(** A release of some positions: the entry holds none of them any more, the held
    set loses exactly those the entry held. *)
Definition releases (pos : Z -> Prop) (c : PerClient) (es : list InjEvent) (c' : PerClient) : Prop :=
  same_entry c c' /\
  (forall k, holds c' k = true <-> (holds c k = true /\ ~ pos k)) /\
  (forall h k, k ∈ held es h <-> k ∈ h /\ ~ (pos k /\ holds c k = true)).

Lemma releases_nil (pos : Z -> Prop) c : (forall k, ~ pos k) -> releases pos c [] c.
Proof. intros H. split_and!; [done|naive_solver|cbn; naive_solver]. Qed.

Lemma releases_seq pos1 pos2 c1 c2 c3 e1 e2 :
  releases pos1 c1 e1 c2 -> releases pos2 c2 e2 c3 -> releases (fun k => pos1 k \/ pos2 k) c1 (e1 ++ e2) c3.
Proof.
  intros (S1 & H1 & L1) (S2 & H2 & L2). split_and!; [by eapply same_entry_trans| |].
  - intros k. rewrite H2, H1. naive_solver.
  - intros h k. rewrite held_app, L2, L1, H1. destruct (holds c1 k); naive_solver.
Qed.

Lemma releases_ext pos1 pos2 c1 c2 e : (forall k, pos1 k <-> pos2 k) -> releases pos1 c1 e c2 -> releases pos2 c1 e c2.
Proof.
  intros Hp (S1 & H1 & L1). split_and!; [done| |].
  - intros k. by rewrite H1, Hp.
  - intros h k. by rewrite L1, Hp.
Qed.

Lemma releases_key vk c :
  length (pc_keysDown c) = 256%nat -> 0 <= vk < 256 -> holds c vk = true ->
  releases (eq vk) c [EvSend (makeKeyInput mvk vk false false) None] (setKey vk false c).
Proof.
  intros Hl Hvk Hh. split_and!; [apply setKey_same| |].
  - intros k. rewrite holds_setKey by done. destruct (decide (k = vk)); naive_solver.
  - intros h k. cbn [held foldl]. rewrite heldStep_key by done. set_solver.
Qed.

Lemma releases_button n c :
  length (pc_mouseButtons c) = 5%nat -> 0 <= n < 5 -> holds c (256 + n) = true ->
  releases (eq (256 + n)) c [EvSend (makeMouseButtonInput n false) None] (setButton n false c).
Proof.
  intros Hl Hn Hh. split_and!; [apply setButton_same| |].
  - intros k. rewrite holds_setButton by done. destruct (decide (k = 256 + n)); naive_solver.
  - intros h k. cbn [held foldl]. rewrite heldStep_button by done. set_solver.
Qed.

(** A position that is not held needs no event. *)
Lemma releases_none n c : holds c n = false -> releases (eq n) c [] c.
Proof.
  intros Hn. split_and!; [done| |].
  - intros k. split; [|naive_solver]. intros Hk. split; [done|]. intros ->. congruence.
  - intros h k. cbn. split; [|naive_solver]. intros Hk. split; [done|]. intros [-> H]. congruence.
Qed.

Lemma releaseKeys_spec vks c es c' :
  Forall (fun vk => 0 <= vk < 256) vks -> length (pc_keysDown c) = 256%nat ->
  releaseKeys mvk vks c = (es, c') -> releases (fun k => k ∈ vks) c es c'.
Proof.
  intros Hr. revert c es. induction Hr as [|vk vks Hvk _ IH]; intros c es Hl; cbn [releaseKeys].
  - intros [= <- <-]. apply releases_nil. intros k. by apply not_elem_of_nil.
  - assert (Hh : nth (Z.to_nat vk) (pc_keysDown c) false = holds c vk).
    { unfold holds. destruct (Z.ltb_spec vk 0), (Z.ltb_spec vk 256); try lia; done. }
    rewrite Hh. destruct (holds c vk) eqn:E.
    + destruct (releaseKeys mvk vks (setKey vk false c)) as [es1 c1] eqn:E1. intros [= <- <-].
      apply IH in E1; [|cbn; by rewrite length_insert].
      pose proof (releases_seq _ _ _ _ _ _ _ (releases_key vk c Hl Hvk E) E1) as H. cbn [app] in H.
      eapply releases_ext; [|exact H]. intros k. rewrite elem_of_cons. naive_solver.
    + intros E1. apply IH in E1; [|done].
      pose proof (releases_seq _ _ _ _ _ _ _ (releases_none vk c E) E1) as H. cbn [app] in H.
      eapply releases_ext; [|exact H]. intros k. rewrite elem_of_cons. naive_solver.
Qed.

Lemma releaseButtons_spec bs c es c' :
  Forall (fun b => 0 <= b < 5) bs -> length (pc_mouseButtons c) = 5%nat ->
  releaseButtons bs c = (es, c') -> releases (fun k => k - 256 ∈ bs) c es c'.
Proof.
  intros Hr. revert c es. induction Hr as [|b bs Hb _ IH]; intros c es Hl; cbn [releaseButtons].
  - intros [= <- <-]. apply releases_nil. intros k. by apply not_elem_of_nil.
  - assert (Hh : nth (Z.to_nat b) (pc_mouseButtons c) false = holds c (256 + b)).
    { unfold holds. destruct (Z.ltb_spec (256 + b) 0), (Z.ltb_spec (256 + b) 256); try lia. by replace (256 + b - 256) with b by lia. }
    rewrite Hh. destruct (holds c (256 + b)) eqn:E.
    + destruct (releaseButtons bs (setButton b false c)) as [es1 c1] eqn:E1. intros [= <- <-].
      apply IH in E1; [|cbn; by rewrite length_insert].
      pose proof (releases_seq _ _ _ _ _ _ _ (releases_button b c Hl Hb E) E1) as H. cbn [app] in H.
      eapply releases_ext; [|exact H]. intros k. rewrite elem_of_cons. split; intros [?|?]; [left; lia|by right|left; lia|by right].
    + intros E1. apply IH in E1; [|done].
      pose proof (releases_seq _ _ _ _ _ _ _ (releases_none (256 + b) c E) E1) as H. cbn [app] in H.
      eapply releases_ext; [|exact H]. intros k. rewrite elem_of_cons. split; intros [?|?]; [left; lia|by right|left; lia|by right].
Qed.

(** Releasing a well-formed entry releases everything it holds. *)
Lemma releaseClient_spec c es c' :
  client_ok c -> releaseClient mvk c = (es, c') ->
  same_entry c c' /\ (forall k, holds c' k = false) /\
  (forall h k, k ∈ held es h <-> k ∈ h /\ holds c k = false).
Proof.
  intros (Hk & Hb & H0). unfold releaseClient.
  destruct (releaseKeys mvk (seqZ 1 255) c) as [e1 c1] eqn:E1. destruct (releaseButtons (seqZ 0 5) c1) as [e2 c2] eqn:E2.
  intros [= <- <-].
  apply releaseKeys_spec in E1; [|apply list.Forall_forall; intros k Hin%elem_of_seqZ; lia|done].
  destruct E1 as (S1 & R1). pose proof S1 as (_ & _ & _ & Hb1).
  apply releaseButtons_spec in E2; [|apply list.Forall_forall; intros k Hin%elem_of_seqZ; lia|congruence].
  destruct (releases_seq _ _ _ _ _ _ _ (conj S1 R1) E2) as (S & R & L).
  assert (Hpos : forall k, holds c k = true -> k ∈ seqZ 1 255 \/ k - 256 ∈ seqZ 0 5).
  { intros k. unfold holds. destruct (Z.ltb_spec k 0); [done|]. destruct (Z.ltb_spec k 256) as [Hlt|Hge].
    - intros Hh. left. apply elem_of_seqZ. destruct (decide (k = 0)) as [->|]; [|lia]. change (nth 0 (pc_keysDown c) false = true) in Hh. congruence.
    - intros Hh. right. apply elem_of_seqZ. destruct (decide (k - 256 < 5)); [lia|].
      rewrite nth_overflow in Hh by lia. done. }
  split_and!; [done| |].
  - intros k. apply not_true_iff_false. rewrite R. intros [Hh Hn]. by apply Hn, Hpos.
  - intros h k. rewrite L. destruct (holds c k) eqn:Eh; [|naive_solver].
    split; [|naive_solver]. intros [_ Hn]. destruct Hn. split; [by apply Hpos|done].
Qed.

(** * The invariant *)

(** The virtual keys that some packet marks as extended. *)
Context (marked : Z -> Prop).

Definition inj_ok (s : InputInjector) : Prop :=
  NoDup (players (inj_clients s)) /\ forall p, client_ok (view s p).

(** A button, or a key whose code no packet marks as extended. *)
Definition plain (k : Z) : Prop := k < 512 /\ ~ marked k.

(** Everything down that is plain is recorded by some entry. *)
Definition covers (s : InputInjector) (h : gset Z) : Prop :=
  forall k, k ∈ h -> plain k -> exists p, holds (view s p) k = true.

Definition idle (c : PerClient) : Prop := forall k, holds c k = false.

(** An action keeps the invariant. *)
Definition step_ok (a : act InputInjector InjEvent) : Prop :=
  forall s h, inj_ok s -> covers s h -> inj_ok (snd (a s)) /\ covers (snd (a s)) (held (fst (a s)) h).

Lemma step_inj a s : step_ok a -> inj_ok s -> inj_ok (snd (a s)).
Proof. intros Ha Hs. destruct (Ha s ∅ Hs) as [H _]; [|done]. intros k Hk. set_solver. Qed.

Lemma step_skip : step_ok skip.
Proof. by intros s h H1 H2. Qed.

Lemma step_seq a b : step_ok a -> step_ok b -> step_ok (seqA a b).
Proof.
  intros Ha Hb s h H1 H2. rewrite fin_seq, out_seq, held_app. destruct (Ha s h H1 H2) as [H3 H4]. by apply Hb.
Qed.

Lemma step_for {A} (xs : list A) body : (forall x, step_ok (body x)) -> step_ok (forA xs body).
Proof. intros H. induction xs; [apply step_skip|by apply step_seq]. Qed.

Lemma pad_view f s q : view (snd (padAction f s)) q = view s q.
Proof. unfold padAction. by destruct (f (inj_pads s)). Qed.
Lemma pad_clients f s : inj_clients (snd (padAction f s)) = inj_clients s.
Proof. unfold padAction. by destruct (f (inj_pads s)). Qed.
Lemma pad_held f s h : held (fst (padAction f s)) h = h.
Proof. unfold padAction. destruct (f (inj_pads s)) as [v cs]. apply held_pads. Qed.

(** An action that changes no entry and only calls the pad library. *)
Lemma step_pad f : step_ok (padAction f).
Proof.
  intros s h [H1 H2] H3. rewrite pad_held. split.
  - split; [by rewrite pad_clients|]. intros p. by rewrite pad_view.
  - intros k Hk Hpl. destruct (H3 k Hk Hpl) as [p Hp]. exists p. by rewrite pad_view.
Qed.

Lemma release_view p s q :
  inj_ok s ->
  view (snd (releaseAllKeys mvk p s)) q = if decide (q = p) then snd (releaseClient mvk (view s p)) else view s q.
Proof.
  intros [_ H2]. unfold releaseAllKeys. fold (view s p). destruct (releaseClient mvk (view s p)) as [es c] eqn:E.
  cbn [snd]. rewrite view_upd; [done|]. destruct (releaseClient_spec _ _ _ (H2 p) E) as [(Hp & _) _].
  rewrite Hp. apply theClient_player.
Qed.

Lemma release_idle p s : inj_ok s -> idle (view (snd (releaseAllKeys mvk p s)) p).
Proof.
  intros H. rewrite release_view by done. rewrite decide_True by done. destruct H as [_ H2].
  destruct (releaseClient mvk (view s p)) as [es c] eqn:E. by destruct (releaseClient_spec _ _ _ (H2 p) E) as (_ & Hi & _).
Qed.

Lemma release_flags p s q : inj_ok s -> flags (view (snd (releaseAllKeys mvk p s)) q) = flags (view s q).
Proof.
  intros H. rewrite release_view by done. destruct (decide (q = p)) as [->|]; [|done]. destruct H as [_ H2].
  destruct (releaseClient mvk (view s p)) as [es c] eqn:E. by destruct (releaseClient_spec _ _ _ (H2 p) E) as ((_ & Hf & _) & _).
Qed.

Lemma idle_client_ok c c' : client_ok c -> same_entry c c' -> idle c' -> client_ok c'.
Proof.
  intros (H1 & H2 & _) (_ & _ & H3 & H4) Hi. split_and!; [congruence|congruence|]. exact (Hi 0).
Qed.

Lemma step_release p : step_ok (releaseAllKeys mvk p).
Proof.
  intros s h Hok Hcov. pose proof (fun q => release_view p s q Hok) as Hview. destruct Hok as [H1 H2].
  destruct (releaseClient mvk (view s p)) as [es c] eqn:E. cbn [snd] in Hview.
  destruct (releaseClient_spec _ _ _ (H2 p) E) as (Hs & Hi & Hh).
  assert (Hes : fst (releaseAllKeys mvk p s) = es) by (unfold releaseAllKeys; fold (view s p); by rewrite E).
  rewrite Hes. split.
  - split.
    + unfold releaseAllKeys. fold (view s p). rewrite E. cbn [snd setClients inj_clients]. apply nodup_upd; [|done].
      destruct Hs as (-> & _). apply theClient_player.
    + intros q. rewrite Hview. destruct (decide (q = p)) as [->|]; [|by apply H2]. by eapply idle_client_ok.
  - intros k Hk Hpl. apply Hh in Hk as [Hk Hn]. destruct (Hcov k Hk Hpl) as [q Hq]. exists q. rewrite Hview.
    destruct (decide (q = p)) as [->|]; [congruence|done].
Qed.

Lemma step_read k : (forall s, step_ok (k s)) -> step_ok (readA k).
Proof. intros H s h. apply H. Qed.

Lemma step_if (b : bool) x y : step_ok x -> step_ok y -> step_ok (if b then x else y).
Proof. by destruct b. Qed.

(** Writing an entry without touching what it holds. *)
Lemma step_upd p f :
  (forall c, pc_playerIndex (f c) = pc_playerIndex c) -> (forall c, client_ok c -> client_ok (f c)) ->
  (forall c k, holds (f c) k = holds c k) ->
  step_ok (modify (fun s => setClients (updClient p f (inj_clients s)) s)).
Proof.
  intros Hp Hf Hh s h [H1 H2] H3. rewrite fin_modify, out_modify. cbn [held foldl].
  assert (Hpp : pc_playerIndex (f (view s p)) = p) by (rewrite Hp; apply theClient_player). split.
  - split; [by apply nodup_upd|]. intros q. rewrite view_upd by done. destruct (decide (q = p)); by auto.
  - intros k Hk Hpl. destruct (H3 k Hk Hpl) as [q Hq]. exists q. rewrite view_upd by done.
    destruct (decide (q = p)) as [->|]; [by rewrite Hh|done].
Qed.

Lemma step_setPermissions target addRc p perms : step_ok (setPermissions mvk target addRc p perms).
Proof.
  apply step_read. intros s. cbv zeta. apply step_seq; [by apply step_upd|].
  apply step_seq; [|apply step_if; [apply step_release|apply step_skip]].
  repeat apply step_if; first [apply step_pad|apply step_skip].
Qed.

(** Forgetting an idle entry. *)
Lemma step_erase p s h :
  inj_ok s -> covers s h -> idle (view s p) ->
  let s' := setClients (eraseClient p (inj_clients s)) s in inj_ok s' /\ covers s' h.
Proof.
  intros [H1 H2] H3 Hi s'.
  assert (Hv : forall q, view s' q = if decide (q = p) then newPerClient p else view s q) by (intros q; by apply theClient_erase).
  split.
  - split; [by apply nodup_erase|]. intros q. rewrite Hv. destruct (decide (q = p)); [apply client_ok_new|done].
  - intros k Hk Hpl. destruct (H3 k Hk Hpl) as [q Hq]. exists q. rewrite Hv. destruct (decide (q = p)) as [->|]; [|done].
    by rewrite Hi in Hq.
Qed.

Lemma step_disconnected p : step_ok (clientDisconnected mvk p).
Proof.
  intros s h Hok Hcov. unfold clientDisconnected. rewrite !fin_seq, !out_seq, fin_modify, out_modify, app_nil_r, held_app.
  destruct (step_release p s h Hok Hcov) as [Hok1 Hcov1]. pose proof (release_idle p s Hok) as Hi.
  destruct (step_pad (removePlayer p) _ _ Hok1 Hcov1) as [Hok2 Hcov2]. apply step_erase; [done|done|].
  intros k. rewrite pad_view. apply Hi.
Qed.

(** The loop of [shutdown] leaves every listed player idle. *)
Lemma release_stays_idle p s q : inj_ok s -> idle (view s q) -> idle (view (snd (releaseAllKeys mvk p s)) q).
Proof.
  intros Hok Hi. destruct (decide (q = p)) as [->|Hne]; [by apply release_idle|].
  rewrite release_view by done. by rewrite decide_False.
Qed.

Abbreviation shutdownOne := (fun c : PerClient =>
  releaseAllKeys mvk (pc_playerIndex c) ;+ padAction (removePlayer (pc_playerIndex c))).

Lemma step_shutdownOne c : step_ok (shutdownOne c).
Proof. apply step_seq; [apply step_release|apply step_pad]. Qed.

Lemma shutdown_loop_idle cs s q :
  inj_ok s -> (idle (view s q) \/ q ∈ players cs) -> idle (view (snd (forA cs shutdownOne s)) q).
Proof.
  revert s. induction cs as [|c cs IH]; intros s Hok Hq; cbn [forA].
  - destruct Hq as [Hq|Hq]; [done|by apply not_elem_of_nil in Hq].
  - rewrite fin_seq. assert (Hok1 : inj_ok (snd (shutdownOne c s))) by (apply step_inj; [apply step_shutdownOne|done]).
    apply IH; [done|]. rewrite fin_seq.
    destruct Hq as [Hq|Hq]; [left; intros k; rewrite pad_view; by apply release_stays_idle|].
    apply elem_of_cons in Hq as [->|Hq]; [|by right]. left. intros k. rewrite pad_view. by apply release_idle.
Qed.

Lemma not_listed_idle s p : p ∉ players (inj_clients s) -> idle (view s p).
Proof.
  intros Hp. unfold view, theClient. destruct (findClient p (inj_clients s)) as [c|] eqn:E; [|intros k; apply holds_new].
  destruct Hp. rewrite <- (findClient_player _ _ _ E). unfold players. apply list_elem_of_fmap. exists c. split; [done|].
  revert E. induction (inj_clients s) as [|x cs IH]; cbn; [done|].
  destruct (_ =? _); [intros [= ->]; by left|]. intros E. right. by apply IH.
Qed.

Lemma step_shutdown : step_ok (shutdown mvk).
Proof.
  intros s h Hok Hcov. unfold shutdown. rewrite !fin_seq, !out_seq, fin_read, out_read, fin_modify, out_modify.
  rewrite app_nil_l, held_app. set (s1 := snd (forA (inj_clients s) shutdownOne s)).
  destruct (step_for (inj_clients s) shutdownOne step_shutdownOne s h Hok Hcov) as [Hok1 Hcov1]. fold s1 in Hok1, Hcov1.
  assert (Hidle : forall q, idle (view s1 q)).
  { intros q. apply shutdown_loop_idle; [done|]. destruct (decide (q ∈ players (inj_clients s))); [by right|].
    left. by apply not_listed_idle. }
  apply step_pad.
  - split; [by constructor|]. intros q. apply client_ok_new.
  - intros k Hk Hp. destruct (Hcov1 k Hk Hp) as [q Hq]. by rewrite Hidle in Hq.
Qed.

(** * Applying input *)

Lemma ensure_ok p s : inj_ok s -> inj_ok (ensureClient p s).
Proof.
  intros [H1 H2]. split; [apply nodup_upd; [apply theClient_player|done]|]. intros q. by rewrite view_ensure.
Qed.

Lemma ensure_covers p s h : covers s h -> covers (ensureClient p s) h.
Proof. intros H k Hk Hp. destruct (H k Hk Hp) as [q Hq]. exists q. by rewrite view_ensure. Qed.

(** A press or release that is recorded and sent, of the key recorded, or of the
    extended key of its code. *)
Lemma record_ok p f k k2 b i s h :
  k2 = k \/ (512 <= k2 /\ marked k) ->
  inj_ok s -> covers s h ->
  (forall c, same_entry c (f c)) -> (forall c, client_ok c -> client_ok (f c)) ->
  (forall c k', client_ok c -> holds (f c) k' = if decide (k' = k) then b else holds c k') ->
  heldStep h (EvSend i (Some true)) = (if b then {[k2]} ∪ h else h ∖ {[k2]}) ->
  let r := snd (sendChecked true i (setClients (updClient p f (inj_clients s)) s)) in
  inj_ok (snd r) /\ covers (snd r) (held (fst r) h).
Proof.
  intros Hk2 [H1 H2] H3 Hsame Hok Hholds Hheld r.
  assert (Hpp : pc_playerIndex (f (view s p)) = p) by (destruct (Hsame (view s p)) as (-> & _); apply theClient_player).
  assert (Hv : forall q, view (snd r) q = if decide (q = p) then f (view s p) else view s q) by (intros q; by apply view_upd).
  split.
  - split; [by apply nodup_upd|]. intros q. rewrite Hv. destruct (decide (q = p)); by auto.
  - change (held (fst r) h) with (heldStep h (EvSend i (Some true))). rewrite Hheld. intros k' Hk' [Hlt Hm].
    destruct (decide (k' = k)) as [->|Hne].
    + destruct Hk2 as [->|[_ ?]]; [|done]. destruct b; [|set_solver]. exists p. rewrite Hv, decide_True by done.
      rewrite Hholds by done. by rewrite decide_True.
    + assert (Hin : k' ∈ h).
      { assert (k' <> k2) by (destruct Hk2 as [->|[? _]]; [done|lia]). destruct b; set_solver. }
      destruct (H3 k' Hin (conj Hlt Hm)) as [q Hq]. exists q. rewrite Hv.
      destruct (decide (q = p)) as [->|]; [|done]. rewrite Hholds by done. by rewrite decide_False.
Qed.

Lemma setKey_ok vk b c : 0 < vk < 256 -> client_ok c -> client_ok (setKey vk b c).
Proof.
  intros Hvk (H1 & H2 & H3). split_and!; [by rewrite (proj1 (proj2 (proj2 (setKey_same vk b c))))|done|].
  cbn [setKey pc_keysDown]. rewrite nth_insert by lia. rewrite decide_False by lia. done.
Qed.

Lemma setButton_ok n b c : client_ok c -> client_ok (setButton n b c).
Proof. intros (H1 & H2 & H3). split_and!; [done|cbn; by rewrite length_insert|done]. Qed.

(** Input that holds nothing down, or nothing at all. *)
Lemma neutral_ok (s s' : InputInjector) es h :
  inj_ok s -> covers s h -> inj_clients s' = inj_clients s -> held es h = h -> inj_ok s' /\ covers s' (held es h).
Proof. intros [H1 H2] H3 E ->. unfold inj_ok, covers, view. rewrite E. by split. Qed.

(** What an event marks. *)
Definition marks (e : InputEvent) (vk : Z) : Prop := isKeyboardEvent e = true /\ ie_code e = vk /\ Z.land (ie_flags e) 1 <> 0.

Lemma applyEvent_ok p e s h :
  iev_typed e -> (forall vk, marks e vk -> marked vk) -> inj_ok s -> covers s h ->
  let r := snd (applyEvent mvk true p e s) in inj_ok (snd r) /\ covers (snd r) (held (fst r) h).
Proof.
  intros Ht Hm Hok Hcov. apply (ensure_ok p) in Hok. apply (ensure_covers p) in Hcov.
  assert (Hcode : fits 8 (ie_code e)) by apply Ht. unfold fits in Hcode.
  unfold applyEvent. cbv zeta. set (s1 := ensureClient p s) in *.
  destruct ((_ =? _) || _) eqn:Ekey.
  { destruct (Z.eqb_spec (ie_code e) 0) as [|Hnz]; cbn [orb]; [by apply (neutral_ok s1)|].
    destruct (Z.leb_spec 256 (ie_code e)); [by apply (neutral_ok s1)|].
    apply (record_ok p _ (ie_code e) (keyPos (ie_code e) (negb (Z.land (ie_flags e) 1 =? 0))) (ie_type e =? inputEventTypeCode KeyDown));
      [|done|done| | | |].
    - unfold keyPos. destruct (Z.eqb_spec (Z.land (ie_flags e) 1) 0) as [|Hx]; cbn [negb]; [by left|right]. split; [lia|].
      apply Hm. by split_and!.
    - intros c. apply setKey_same.
    - intros c Hc. apply setKey_ok; [lia|done].
    - intros c k (Hl & _). apply holds_setKey; [done|lia].
    - by apply heldStep_key. }
  clear Ekey. destruct (_ =? _); [by apply (neutral_ok s1)|]. destruct ((_ =? _) || _).
  { destruct (Z.leb_spec 5 (ie_code e)); [by apply (neutral_ok s1)|].
    apply (record_ok p _ (256 + ie_code e) (256 + ie_code e) (ie_type e =? inputEventTypeCode MouseButtonDown));
      [by left|done|done| | | |].
    - intros c. apply setButton_same.
    - intros c Hc. by apply setButton_ok.
    - intros c k (_ & Hl & _). apply holds_setButton; [done|lia].
    - apply heldStep_button; [lia|done]. }
  destruct (_ =? _); by apply (neutral_ok s1).
Qed.

Lemma applyController_clients rc p g s : inj_clients (snd (snd (applyController rc p g s))) = inj_clients s.
Proof.
  unfold applyController. destruct (negb _); [done|]. destruct (_ =? 0); [done|].
  destruct (update _ _ _ _) as [ok cs]. by destruct ok.
Qed.

Lemma applyController_held rc p g s h : held (fst (snd (applyController rc p g s))) h = h.
Proof.
  unfold applyController. destruct (negb _); [done|]. destruct (_ =? 0); [done|].
  destruct (update _ _ _ _) as [ok cs]. apply held_pads.
Qed.

(** What a packet marks. *)
Definition marksIn (data : bytes) (vk : Z) : Prop := exists e, unpackInput data = Some (PEvent e) /\ marks e vk.

Lemma step_apply rc p data : bytes_ok data -> (forall vk, marksIn data vk -> marked vk) -> step_ok (fun s => snd (applyInput mvk true rc p data s)).
Proof.
  intros Hb Hm s h Hok Hcov. unfold applyInput. destruct (unpackInput data) as [payload|] eqn:E; [|by apply (neutral_ok s)].
  pose proof E as E0. apply unpackInput_typed in E as [Ht _]; [|done].
  apply (ensure_ok p) in Hok. apply (ensure_covers p) in Hcov. set (s1 := ensureClient p s) in *. destruct payload as [g|e].
  - destruct (negb _); [by apply (neutral_ok s1)|].
    apply (neutral_ok s1); [done|done|apply applyController_clients|apply applyController_held].
  - destruct (_ && _); [by apply (neutral_ok s1)|]. destruct (_ && _); [by apply (neutral_ok s1)|].
    apply applyEvent_ok; [done| |done|done]. intros vk Hv. apply Hm. by exists e.
Qed.

(** * Runs *)

(** Every call of [SendInput] whose result the code looks at succeeds. *)
Definition sends_ok (o : InjOp) : Prop :=
  match o with IoApply sent _ _ data => sent = true /\ bytes_ok data | _ => True end.

Definition marksOp (vk : Z) (o : InjOp) : Prop := match o with IoApply _ _ _ data => marksIn data vk | _ => False end.

Lemma step_op o : sends_ok o -> (forall vk, marksOp vk o -> marked vk) -> step_ok (injStep mvk o).
Proof.
  intros H Hm. destruct o; cbn [injStep].
  - apply step_seq; apply step_pad.
  - intros s h H1 H2. by apply (neutral_ok s).
  - apply step_setPermissions.
  - destruct H as [-> Hb]. by apply step_apply.
  - intros s h H1 H2. apply (neutral_ok s); [done|done|done|]. cbn [fst]. unfold onVibration.
    destruct (handleVibration _ _); [|done]. destruct (list_find _ _) as [[]|]; [|done]. by destruct (inj_rumbleSender s).
  - apply step_disconnected.
  - apply step_shutdown.
Qed.

Lemma injector_run_ok os : Forall sends_ok os -> (forall vk, Exists (marksOp vk) os -> marked vk) -> step_ok (injRun mvk os).
Proof.
  intros H. unfold injRun. induction H as [|o os Ho _ IH]; intros Hm; [apply step_skip|].
  apply step_seq; [apply step_op; [done|]|apply IH]; intros vk Hv; apply Hm; by constructor.
Qed.

Lemma injector_new_ok : inj_ok newInjector /\ covers newInjector ∅.
Proof. split; [split; [by constructor|intros p; apply client_ok_new]|]. intros k Hk. set_solver. Qed.

End Release.

(** C28: nothing stays pressed for a client that is gone, the extended keys apart.
    In any run in which the calls of [SendInput] succeed, whatever the clients send
    and in whatever order permissions, input, disconnections and shutdowns come,
    every mouse button that is down at the end, and every key whose code no packet
    of the run marked as extended, is recorded as held in the entry of a client that
    is still present. So once every client has left, and after a shutdown, whatever
    is still down is a key whose code some packet marked as extended (its release
    goes out as that of the plain key, [extended_key_released_as_plain]). *)
Theorem no_stuck_keys mvk os :
  Forall sends_ok os ->
  let marked vk := Exists (marksOp vk) os in
  let r := injRun mvk os newInjector in
  (forall k, k ∈ held (fst r) ∅ -> plain marked k -> exists c, c ∈ inj_clients (snd r) /\ holds c k = true) /\
  (inj_clients (snd r) = [] -> forall k, k ∈ held (fst r) ∅ -> ~ plain marked k) /\
  (forall k, k ∈ held (fst (injRun mvk (os ++ [IoShutdown]) newInjector)) ∅ -> ~ plain marked k).
Proof.
  intros Hos marked r.
  assert (H : forall os', Forall sends_ok os' -> (forall vk, Exists (marksOp vk) os' -> marked vk) ->
    forall k, k ∈ held (fst (injRun mvk os' newInjector)) ∅ -> plain marked k ->
    exists c, c ∈ inj_clients (snd (injRun mvk os' newInjector)) /\ holds c k = true).
  { intros os' Hos' Hm k Hk Hp. destruct (injector_new_ok marked) as [H1 H2].
    destruct (injector_run_ok mvk marked os' Hos' Hm _ _ H1 H2) as [_ Hc].
    destruct (Hc k Hk Hp) as [p Hq]. exists (view (snd (injRun mvk os' newInjector)) p). split; [|done].
    unfold view, theClient in *. destruct (findClient _ _) as [c|] eqn:E; [|by rewrite holds_new in Hq].
    clear -E. induction (inj_clients _) as [|x cs IH]; cbn in E; [done|].
    destruct (_ =? _); [injection E as ->; by left|]. right. by apply IH. }
  assert (Hnil : forall os', Forall sends_ok os' -> (forall vk, Exists (marksOp vk) os' -> marked vk) ->
    inj_clients (snd (injRun mvk os' newInjector)) = [] -> forall k, k ∈ held (fst (injRun mvk os' newInjector)) ∅ -> ~ plain marked k).
  { intros os' Hos' Hm E k Hk Hp. destruct (H os' Hos' Hm k Hk Hp) as (c & Hc & _).
    rewrite E in Hc. by apply not_elem_of_nil in Hc. }
  split_and!; [by apply H|by apply Hnil|]. apply Hnil; [apply Forall_app; split; [done|by repeat constructor]| |].
  - intros vk [Hv|Hv]%Exists_app; [done|]. by apply Exists_cons in Hv as [[]|Hv%Exists_nil].
  - unfold injRun. rewrite forA_app, fin_seq. cbn [forA]. rewrite fin_seq, fin_skip. cbn [injStep].
    unfold shutdown. by rewrite !fin_seq, pad_clients, fin_modify.
Qed.

Definition marksB (vk : Z) (o : InjOp) : bool :=
  match o with
  | IoApply _ _ _ data =>
      match unpackInput data with
      | Some (PEvent e) => isKeyboardEvent e && (ie_code e =? vk) && negb (Z.land (ie_flags e) 1 =? 0)
      | _ => false
      end
  | _ => false
  end.

Lemma marked_existsb vk os : Exists (marksOp vk) os -> existsb (marksB vk) os = true.
Proof.
  intros H. induction H as [o os Ho|o os _ IH]; cbn [existsb]; [|by rewrite IH, orb_true_r].
  destruct o; try done. destruct Ho as (e & Ee & Hk & Hc & Hf). cbn [marksB]. rewrite Ee, Hk, (proj2 (Z.eqb_eq _ _) Hc).
  by rewrite (proj2 (Z.eqb_neq _ _) Hf).
Qed.

(** A player holds the letter A, the right button and an extended key; after the
    shutdown only the extended key can be down, and is. *)
Lemma no_stuck_keys_witness :
  let down := packInputEvent (mkIev 1 65 0 0 0 0 0 0) in
  let click := packInputEvent (mkIev 4 1 0 0 0 0 0 0) in
  let arrow := packInputEvent (mkIev 1 37 0 0 0 0 1 0) in
  let os := [IoSetPermissions 1 0 0 (mkInputPermission true true true true); IoApply true 0 0 down; IoApply true 0 0 click;
             IoApply true 0 0 arrow] in
  held (fst (injRun id os newInjector)) ∅ = {[65; 257; 549]} /\
  65 ∉ held (fst (injRun id (os ++ [IoShutdown]) newInjector)) ∅ /\
  held (fst (injRun id (os ++ [IoShutdown]) newInjector)) ∅ = {[549]}.
Proof.
  intros down click arrow os. split; [by vm_compute|]. split; [|by vm_compute].
  intros Hin. destruct (no_stuck_keys id os) as (_ & _ & T).
  - apply Forall_cons_2; [done|]. do 3 (apply Forall_cons_2; [split; [done|by_decision]|]). constructor.
  - apply (T 65 Hin). split; [lia|]. intros Hm%marked_existsb. vm_compute in Hm. discriminate Hm.
Defined.

(** * Permissions *)

Definition defaultFlags : InputPermission := mkInputPermission true false false true.

(** The permissions last granted to each player, since it last left: what the
    injector promises to enforce. *)
Definition grantStep (g : Z -> InputPermission) (o : InjOp) : Z -> InputPermission :=
  match o with
  | IoSetPermissions _ _ p perms => fun q => if decide (q = p) then perms else g q
  | IoDisconnected p => fun q => if decide (q = p) then defaultFlags else g q
  | IoShutdown => fun _ => defaultFlags
  | _ => g
  end.

Definition granted (os : list InjOp) : Z -> InputPermission := foldl grantStep (fun _ => defaultFlags) os.

(** Whether a payload may be applied. *)
Definition permits (perms : InputPermission) (payload : InputPayload) : bool :=
  match payload with
  | PState _ => ip_controller perms
  | PEvent e => if isKeyboardEvent e then ip_keyboard perms else ip_mouse perms
  end.

(** The injected input is of the class of its payload: a report to the player's
    own pad, a key, or a mouse input. *)
Definition injects (v : VirtualGamepad) (p : Z) (payload : InputPayload) (e : InjEvent) : Prop :=
  match payload with
  | PState g => exists q, findPad p v = Some q /\ e = EvPad (VUpdate (vg_client v) (pad_target q) (reportOf g))
  | PEvent ev =>
      exists i r, e = EvSend i (Some r) /\
        isKeyboardEvent ev = match i with InKeyboard _ _ _ => true | InMouse _ _ _ _ => false end
  end.

Section Permissions.
Context (mvk : Z -> Z).

Lemma flags_pad f s q : flags (view (snd (padAction f s)) q) = flags (view s q).
Proof. by rewrite pad_view. Qed.

Lemma applyInput_flags sent rc p data s q : flags (view (snd (snd (applyInput mvk sent rc p data s))) q) = flags (view s q).
Proof.
  assert (Hs : forall s1 s2 : InputInjector, inj_clients s2 = inj_clients s1 -> flags (view s2 q) = flags (view s1 q))
    by (intros s1 s2 E; unfold view; by rewrite E).
  assert (Hset : forall f, (forall c, same_entry c (f c)) -> forall i s1,
    flags (view (snd (snd (sendChecked sent i (setClients (updClient p f (inj_clients s1)) s1)))) q) = flags (view s1 q)).
  { intros f Hf i s1. transitivity (flags (view (setClients (updClient p f (inj_clients s1)) s1) q)).
    { apply Hs. unfold sendChecked. by destruct sent. }
    rewrite view_upd by (rewrite (proj1 (Hf _)); apply theClient_player).
    destruct (decide (q = p)) as [->|]; [by rewrite (proj1 (proj2 (Hf _)))|done]. }
  unfold applyInput. destruct (unpackInput data) as [[g|e]|]; [| |by apply Hs].
  - rewrite <- (view_ensure p s q). destruct (negb _); [by apply Hs|]. apply Hs, applyController_clients.
  - rewrite <- (view_ensure p s q). destruct (_ && _); [by apply Hs|]. destruct (_ && _); [by apply Hs|].
    unfold applyEvent. cbv zeta. set (s1 := ensureClient p s).
    assert (He : flags (view (ensureClient p s1) q) = flags (view s1 q)) by by rewrite view_ensure. rewrite <- He.
    destruct (_ || _). { destruct (_ || _); [by apply Hs|]. apply Hset. intros c. apply setKey_same. }
    destruct (_ =? _). { apply Hs. unfold sendChecked. by destruct sent. }
    destruct (_ || _). { destruct (_ <=? _); [by apply Hs|]. apply Hset. intros c. apply setButton_same. }
    destruct (_ =? _); [apply Hs; unfold sendChecked; by destruct sent|by apply Hs].
Qed.

Lemma setPermissions_flags target addRc p perms s q :
  inj_ok s ->
  flags (view (snd (setPermissions mvk target addRc p perms s)) q) = if decide (q = p) then perms else flags (view s q).
Proof.
  intros Hok. unfold setPermissions. rewrite fin_read, fin_seq, fin_modify, fin_seq.
  set (s1 := setClients _ s). set (a := if _ && _ then _ else _).
  assert (Hok1 : inj_ok s1).
  { destruct Hok as [H1 H2]. pose proof (theClient_player p (inj_clients s)) as Hp.
    split; [by apply nodup_upd|]. intros r. unfold s1. rewrite view_upd by done. destruct (decide (r = p)); [exact (H2 p)|exact (H2 r)]. }
  assert (Ha : inj_ok (snd (a s1)) /\ flags (view (snd (a s1)) q) = flags (view s1 q)).
  { unfold a. destruct (_ && _); [|destruct (_ && _)];
      [split; [by apply (step_inj (fun _ => True)), Hok1; apply step_pad|apply flags_pad]..|done]. }
  destruct Ha as [Hoka Hfa]. rewrite fin_if, fin_skip.
  transitivity (flags (view (snd (a s1)) q)); [destruct (negb (ip_keyboard perms)); [by apply release_flags|done]|].
  rewrite Hfa. unfold s1. rewrite view_upd by apply theClient_player. destruct (decide (q = p)); [by destruct perms|done].
Qed.

Lemma disconnected_flags p s q :
  inj_ok s -> flags (view (snd (clientDisconnected mvk p s)) q) = if decide (q = p) then defaultFlags else flags (view s q).
Proof.
  intros Hok. unfold clientDisconnected. rewrite !fin_seq, fin_modify. set (s2 := snd (padAction _ _)).
  assert (Hok2 : inj_ok s2) by (apply (step_inj (fun _ => True)); [apply step_pad|by apply (step_inj (fun _ => True)), Hok; apply step_release]).
  unfold view at 1. cbn [setClients inj_clients]. rewrite theClient_erase by apply Hok2.
  destruct (decide (q = p)); [done|]. fold (view s2 q). unfold s2. rewrite flags_pad. by apply release_flags.
Qed.

Lemma step_flags o s q :
  inj_ok s -> flags (view (snd (injStep mvk o s)) q) = grantStep (fun q => flags (view s q)) o q.
Proof.
  intros Hok. destruct o; cbn [injStep grantStep].
  - unfold init. by rewrite fin_seq, !flags_pad.
  - done.
  - by apply setPermissions_flags.
  - apply applyInput_flags.
  - done.
  - by apply disconnected_flags.
  - unfold shutdown. rewrite !fin_seq, flags_pad. done.
Qed.

(** A client's entries stay well formed whatever [SendInput] returns. *)
Lemma applyInput_inj_ok sent rc p data s : bytes_ok data -> inj_ok s -> inj_ok (snd (snd (applyInput mvk sent rc p data s))).
Proof.
  intros Hb Hok. assert (E : inj_clients (snd (snd (applyInput mvk sent rc p data s))) =
    inj_clients (snd (snd (applyInput mvk true rc p data s)))).
  { unfold applyInput. destruct (unpackInput data) as [[g|e]|]; [done| |done].
    do 2 (destruct (_ && _); [done|]). unfold applyEvent. cbv zeta.
    destruct (_ || _). { destruct (_ || _); [done|]. by destruct sent. }
    destruct (_ =? _); [by destruct sent|]. destruct (_ || _). { destruct (_ <=? _); [done|]. by destruct sent. }
    destruct (_ =? _); [by destruct sent|done]. }
  unfold inj_ok, view. rewrite E. apply (step_inj (fun _ => True) _ _ (step_apply mvk _ rc p data Hb (fun _ _ => I)) Hok).
Qed.

Definition data_ok (o : InjOp) : Prop := match o with IoApply _ _ _ data => bytes_ok data | _ => True end.

Lemma step_inj_ok o s : data_ok o -> inj_ok s -> inj_ok (snd (injStep mvk o s)).
Proof.
  intros Hd Hok. destruct o as [| | |sent rc p data| | |]; try (by apply (step_inj (fun _ => True)), Hok; apply step_op).
  by apply applyInput_inj_ok.
Qed.

Lemma run_flags os q :
  Forall data_ok os ->
  inj_ok (snd (injRun mvk os newInjector)) /\ flags (view (snd (injRun mvk os newInjector)) q) = granted os q.
Proof.
  revert q. induction os as [|o os IH] using rev_ind; intros q H; [split; [apply (injector_new_ok (fun _ => True))|done]|].
  apply Forall_app in H as [H Ho]. apply Forall_cons_iff in Ho as [Ho _].
  unfold injRun, granted in *. rewrite forA_app, fin_seq, foldl_app. cbn [forA foldl]. rewrite fin_seq, fin_skip.
  destruct (IH q H) as [Hok _]. split; [by apply step_inj_ok|]. rewrite step_flags by done.
  destruct o; cbn [grantStep]; rewrite ?(proj2 (IH q H)); done.
Qed.

Lemma applyController_injects rc p g s e :
  e ∈ fst (snd (applyController rc p g s)) -> injects (inj_pads s) p (PState g) e.
Proof.
  unfold applyController. destruct (negb _); [by intros ?%not_elem_of_nil|].
  destruct (_ =? 0); [by intros ?%not_elem_of_nil|].
  unfold update. destruct (findPad p (inj_pads s)) as [q|] eqn:Eq; [|by intros ?%not_elem_of_nil].
  destruct (_ || _); [by intros ?%not_elem_of_nil|]. cbn. rewrite list_elem_of_singleton. intros ->. by exists q.
Qed.

Lemma applyEvent_injects sent p ev v s e :
  e ∈ fst (snd (applyEvent mvk sent p ev s)) -> injects v p (PEvent ev) e.
Proof.
  assert (Hsend : forall i s1, e ∈ fst (snd (sendChecked sent i s1)) -> e = EvSend i (Some sent)).
  { intros i s1. unfold sendChecked. destruct sent; cbn; by rewrite list_elem_of_singleton. }
  assert (Hbtn : forall n b, match makeMouseButtonInput n b with InKeyboard _ _ _ => true | InMouse _ _ _ _ => false end = false).
  { intros n b. unfold makeMouseButtonInput. by repeat destruct (_ =? _). }
  unfold applyEvent. cbv zeta. cbn [injects]. destruct ((_ =? _) || _) eqn:Ek.
  { fold (isKeyboardEvent ev) in Ek. destruct (_ || _); [by intros ?%not_elem_of_nil|].
    intros ->%Hsend. rewrite Ek. by do 2 eexists. }
  fold (isKeyboardEvent ev) in Ek. rewrite Ek.
  destruct (_ =? _). { intros ->%Hsend. by do 2 eexists. }
  destruct (_ || _). { destruct (_ <=? _); [by intros ?%not_elem_of_nil|]. intros ->%Hsend. do 2 eexists. by rewrite Hbtn. }
  destruct (_ =? _); [|by intros ?%not_elem_of_nil]. intros ->%Hsend. by do 2 eexists.
Qed.

(** C29: the permissions are enforced on every packet. After any run, input from
    player [p] is applied only when its payload parses and the permission last
    granted to [p] since it last left (controller only, by default) covers its
    class; it then drives only [p]'s own pad, or a key, or the mouse, according to
    that class. Anything else is rejected without any input and is counted. *)
Theorem live_permissions_enforced os sent rc p data :
  Forall data_ok os ->
  let s := snd (injRun mvk os newInjector) in
  let '(ok, (es, s')) := applyInput mvk sent rc p data s in
  match unpackInput data with
  | Some payload =>
      if permits (granted os p) payload then Forall (injects (inj_pads s) p payload) es
      else ok = false /\ es = [] /\ inj_rejectedEvents s' = u64 (inj_rejectedEvents s + 1)
  | None => ok = false /\ es = [] /\ inj_rejectedEvents s' = u64 (inj_rejectedEvents s + 1)
  end.
Proof.
  intros Hos s. destruct (run_flags os p Hos) as [_ Hf]. fold s in Hf. rewrite <- Hf.
  unfold applyInput. destruct (unpackInput data) as [payload|]; [|done].
  fold (view (ensureClient p s) p). rewrite view_ensure. destruct payload as [g|e]; cbn [permits flags ip_controller ip_keyboard ip_mouse].
  - destruct (pc_controller (view s p)); cbn [negb]; [|done].
    destruct (applyController rc p g (ensureClient p s)) as [ok [es s']] eqn:E. apply list.Forall_forall. intros ev Hev.
    apply (applyController_injects rc p g (ensureClient p s)). by rewrite E.
  - assert (Hinj : forall r, applyEvent mvk sent p e (ensureClient p s) = r ->
      Forall (injects (inj_pads s) p (PEvent e)) (fst (snd r))).
    { intros r <-. apply list.Forall_forall. intros ev. apply applyEvent_injects. }
    destruct (isKeyboardEvent e); cbn [andb negb].
    + destruct (pc_keyboard (view s p)); cbn [negb]; [|done].
      destruct (applyEvent _ _ _ _ _) as [ok [es s']]. by apply (Hinj _ eq_refl).
    + destruct (pc_mouse (view s p)); cbn [negb]; [|done].
      destruct (applyEvent _ _ _ _ _) as [ok [es s']]. by apply (Hinj _ eq_refl).
Qed.

(** ** Whose pads exist *)

Definition noPad (p : Z) (s : InputInjector) : Prop := p ∉ (pad_playerIndex <$> vg_pads (inj_pads s)).

Lemma noPad_action p f s :
  (forall v, p ∉ (pad_playerIndex <$> vg_pads v) -> p ∉ (pad_playerIndex <$> vg_pads (fst (f v)))) ->
  noPad p s -> noPad p (snd (padAction f s)).
Proof. unfold noPad, padAction. intros Hf H. specialize (Hf _ H). by destruct (f (inj_pads s)). Qed.

Lemma noPad_init p dll c rc v :
  p ∉ (pad_playerIndex <$> vg_pads v) ->
  p ∉ (pad_playerIndex <$> vg_pads (snd (fst (VirtualGamepad.init dll c rc v)))).
Proof.
  intros H. unfold VirtualGamepad.init. destruct dll as [x|]; [|done]. cbv zeta. destruct (_ || _); [done|].
  destruct (c =? 0); [done|]. by destruct (negb _).
Qed.

Lemma noPad_add p q t rc v :
  q <> p -> p ∉ (pad_playerIndex <$> vg_pads v) ->
  p ∉ (pad_playerIndex <$> vg_pads (snd (fst (addPlayer t rc q v)))).
Proof.
  intros Hq H. unfold addPlayer. repeat (case_match; [done|]). cbn [fst snd setPads vg_pads]. rewrite fmap_app.
  apply not_elem_of_app. split; [done|]. cbn. rewrite list_elem_of_singleton. congruence.
Qed.

Lemma noPad_remove p q v :
  p ∉ (pad_playerIndex <$> vg_pads v) -> p ∉ (pad_playerIndex <$> vg_pads (fst (removePlayer q v))).
Proof.
  intros H. unfold removePlayer. destruct (erasePad q (vg_pads v)) as [[r|] ps] eqn:E; [|done].
  apply erasePad_spec in E as (_ & Hp & _). rewrite Hp in H. cbn in H. by apply not_elem_of_cons in H as [_ H].
Qed.

Lemma pads_release q s : inj_pads (snd (releaseAllKeys mvk q s)) = inj_pads s.
Proof. unfold releaseAllKeys. by destruct (releaseClient _ _). Qed.

Lemma pads_apply sent rc q data s : inj_pads (snd (snd (applyInput mvk sent rc q data s))) = inj_pads s.
Proof.
  unfold applyInput. destruct (unpackInput data) as [[g|e]|]; [| |done].
  - destruct (negb _); [done|]. unfold applyController. destruct (negb _); [done|]. destruct (_ =? 0); [done|].
    destruct (update _ _ _ _) as [ok cs]. by destruct ok.
  - do 2 (destruct (_ && _); [done|]). unfold applyEvent. cbv zeta.
    destruct (_ || _). { destruct (_ || _); [done|]. by destruct sent. }
    destruct (_ =? _); [by destruct sent|]. destruct (_ || _). { destruct (_ <=? _); [done|]. by destruct sent. }
    destruct (_ =? _); [by destruct sent|done].
Qed.

Lemma keeps_noPad_remove p q : keeps (noPad p) (padAction (removePlayer q)).
Proof. intros s. apply noPad_action. intros v. apply noPad_remove. Qed.
Lemma keeps_noPad_release p q : keeps (noPad p) (releaseAllKeys mvk q).
Proof. intros s. unfold noPad. by rewrite pads_release. Qed.

(** The controller permission of [p] is never withdrawn. *)
Definition keepsController (p : Z) (o : InjOp) : Prop :=
  match o with IoSetPermissions _ _ q perms => q = p -> ip_controller perms = true | _ => True end.

Lemma granted_controller p os : Forall (keepsController p) os -> ip_controller (granted os p) = true.
Proof.
  unfold granted. induction os as [|o os IH] using rev_ind; [done|]. intros [H Ho]%Forall_app. specialize (IH H).
  apply Forall_cons_iff in Ho as [Ho _]. rewrite foldl_app. cbn [foldl].
  destruct o; cbn [grantStep]; try done; case_decide; try done. subst. by apply Ho.
Qed.

Lemma step_noPad p o s :
  keepsController p o -> pc_controller (view s p) = true -> noPad p s -> noPad p (snd (injStep mvk o s)).
Proof.
  intros Hk Hc. destruct o as [dll c rc| |t rc q perms|sent rc q data| |q|]; cbn [injStep].
  - intros H. unfold init. rewrite fin_seq. apply noPad_action; [done|]. apply noPad_action; [|done].
    intros v Hv. pose proof (noPad_init p dll c rc v Hv) as Hi. by destruct (VirtualGamepad.init dll c rc v) as [[b v'] cs].
  - done.
  - intros H. unfold setPermissions. rewrite fin_read, !fin_seq, fin_modify. rewrite fin_if, fin_skip.
    assert (H1 : noPad p (setClients (updClient q (setPerms perms) (inj_clients s)) s)) by exact H.
    fold (view s q). set (s1 := setClients _ s) in *. set (a := if _ && _ then _ else _).
    assert (Ha : noPad p (snd (a s1))).
    { unfold a. destruct (ip_controller perms && negb (pc_controller (view s q))) eqn:E.
      - destruct (decide (q = p)) as [->|Hq]; [by rewrite Hc, andb_false_r in E|]. apply noPad_action; [|done].
        intros v Hv. pose proof (noPad_add p q t rc v Hq Hv) as Hp. by destruct (addPlayer t rc q v) as [[b v'] cs].
      - destruct (negb (ip_controller perms) && pc_controller (view s q)); [by apply keeps_noPad_remove|done]. }
    destruct (negb (ip_keyboard perms)); [by apply keeps_noPad_release|done].
  - unfold noPad. by rewrite pads_apply.
  - done.
  - intros H. unfold clientDisconnected. rewrite !fin_seq, fin_modify.
    by apply keeps_noPad_remove, keeps_noPad_release.
  - intros _. unfold shutdown, noPad. rewrite !fin_seq. unfold padAction, VirtualGamepad.shutdown. cbn.
    apply not_elem_of_nil.
Qed.

(** The pad of a player is created only when the controller permission goes
    from withdrawn to granted, and a new entry starts with it granted. So as long
    as the permission of [p] is never withdrawn, whatever else happens, [p] has no
    virtual pad, and every report of a connected controller it sends is
    rejected. *)
Theorem first_grant_adds_no_pad os sent rc p g :
  Forall data_ok os -> Forall (keepsController p) os -> gcs_typed g -> gc_connected g <> 0 ->
  let s := snd (injRun mvk os newInjector) in
  hasPlayer p (inj_pads s) = false /\
  fst (applyInput mvk sent rc p (packControllerState g) s) = false /\
  fst (snd (applyInput mvk sent rc p (packControllerState g) s)) = [].
Proof.
  intros Hd Hk Hg Hconn s. assert (Hno : noPad p s).
  { unfold s. clear s. induction os as [|o os IH] using rev_ind; [by apply not_elem_of_nil|].
    apply Forall_app in Hd as [Hd _]. apply Forall_app in Hk as [Hk Ho]. apply Forall_cons_iff in Ho as [Ho _].
    unfold injRun in *. rewrite forA_app, fin_seq. cbn [forA]. rewrite fin_seq, fin_skip.
    apply step_noPad; [done| |by apply IH]. destruct (run_flags os p Hd) as [_ Hf]. unfold injRun in Hf.
    pose proof (granted_controller p os Hk) as Hc. by rewrite <- Hf in Hc. }
  assert (Hfind : findPad p (inj_pads s) = None).
  { unfold findPad. destruct (list_find _ _) as [[i q]|] eqn:E; [|done]. apply list_find_Some in E as (Hi & Hq & _).
    destruct Hno. apply list_elem_of_fmap. exists q. split; [done|]. by eapply list_elem_of_lookup_2. }
  assert (Hun : unpackInput (packControllerState g) = Some (PState g)).
  { by apply (unpackInput_pack (PState g)). }
  split.
  - unfold hasPlayer. apply not_true_is_false. intros (q & Hq & Heq)%existsb_exists. apply list_elem_of_In in Hq.
    apply Z.eqb_eq in Heq. destruct Hno. apply list_elem_of_fmap. by exists q.
  - unfold applyInput. rewrite Hun. destruct (negb _); [done|]. unfold applyController. destruct (negb _); [done|].
    destruct (Z.eqb_spec (gc_connected g) 0); [done|]. unfold update.
    change (inj_pads (ensureClient p s)) with (inj_pads s). by rewrite Hfind.
Qed.

End Permissions.

Lemma live_permissions_enforced_witness :
  let os := [IoSetPermissions 1 0 0 (mkInputPermission true true false true);
             IoSetPermissions 1 0 0 (mkInputPermission true false false true)] in
  let key := packInputEvent (mkIev 1 65 0 0 0 0 0 0) in
  let '(ok, (es, s')) := applyInput id true 0 0 key (snd (injRun id os newInjector)) in
  ok = false /\ es = [] /\ inj_rejectedEvents s' = 1.
Proof.
  intros os key. assert (Hos : Forall data_ok os) by (by repeat apply Forall_cons_2).
  exact (live_permissions_enforced id os true 0 0 key Hos).
Defined.

Lemma first_grant_adds_no_pad_witness :
  let os := [IoInit (Some allExports) 5 0; IoSetPermissions 11 0 0 (mkInputPermission true false false true)] in
  fst (applyInput id true 0 0 (packControllerState (mkGcs 1 1 4096 0 0 0 0 0 0 9))
        (snd (injRun id os newInjector))) = false.
Proof.
  intros os. refine (proj1 (proj2 (first_grant_adds_no_pad id os true 0 0 (mkGcs 1 1 4096 0 0 0 0 0 0 9) _ _ _ _))).
  - by repeat apply Forall_cons_2.
  - by repeat apply Forall_cons_2.
  - by_decision.
  - done.
Defined.

(** Withdrawing the mouse permission alone releases no button: the left button
    stays down, and the client can no longer release it. *)
Theorem revoked_mouse_button_stays_down :
  let press := packInputEvent (mkIev 4 0 0 0 0 0 0 0) in
  let release := packInputEvent (mkIev 5 0 0 0 0 0 0 0) in
  let os := [IoSetPermissions 1 0 0 (mkInputPermission true true true true); IoApply true 0 0 press;
             IoSetPermissions 1 0 0 (mkInputPermission true true false true); IoApply true 0 0 release] in
  held (fst (injRun id os newInjector)) ∅ = {[256]}.
Proof. by vm_compute. Qed.

(** A key whose release [SendInput] refused is recorded as up: the disconnection
    does not release it. *)
Theorem refused_release_is_forgotten :
  let down := packInputEvent (mkIev 1 65 0 0 0 0 0 0) in
  let up := packInputEvent (mkIev 2 65 0 0 0 0 0 0) in
  let os := [IoSetPermissions 1 0 0 (mkInputPermission true true true true); IoApply true 0 0 down;
             IoApply false 0 0 up; IoDisconnected 0] in
  held (fst (injRun id os newInjector)) ∅ = {[65]} /\ inj_clients (snd (injRun id os newInjector)) = [].
Proof. by vm_compute. Qed.

(** The release of an extended key (right control here) is sent without the
    extended flag its press had. *)
Theorem extended_key_released_as_plain :
  let down := packInputEvent (mkIev 1 163 0 0 0 0 1 0) in
  let os := [IoSetPermissions 1 0 0 (mkInputPermission true true true true); IoApply true 0 0 down; IoDisconnected 0] in
  fst (injRun id os newInjector) =
    [EvSend (InKeyboard 163 163 [KEYEVENTF_EXTENDEDKEY]) (Some true); EvSend (InKeyboard 163 163 [KEYEVENTF_KEYUP]) None].
Proof. by vm_compute. Qed.
