(* ===== verification/ControllerReader.v ===== *)
(** input/ControllerReader.h and ControllerReader.cpp: local controllers, read
    through XInput and DirectInput.

    The two libraries are loaded at run time. What their calls return (whether a
    library or function is there, the state of a slot, the result of [Poll] and
    [GetDeviceState]) is an argument; setting a motor is an event of the result. *)

From S2P Require Import Prelude Types Packet UdpHeader InputProtocol.

(** * Data *)

Record DeviceInfo := mkDi { di_slot : Z; di_name : bytes; di_isXInput : bool }.

(** The members of [DIJOYSTATE2] the code reads. *)
Record JoyState := mkJs {
  js_lX : Z; js_lY : Z; js_lZ : Z; js_lRx : Z; js_lRz : Z; js_rglSlider0 : Z; js_rgdwPOV0 : Z;
  js_rgbButtons : bytes }.

(** [memset(&js, 0, sizeof(js))]. *)
Definition zeroJoyState : JoyState := mkJs 0 0 0 0 0 0 0 (replicate 128 0).

(** What the calls on one DirectInput device return: the failure of [Poll], the
    state [GetDeviceState] would fill in (or its failure), the clock. *)
Record DInputDevice := mkDid { did_pollFailed : bool; did_state : option JoyState; did_nowNs : Z }.

(** A device offered by [EnumDevices]: a gamepad or joystick, whether
    [CreateDevice] succeeds, its name in UTF-16. *)
Record EnumInstance := mkEnum { en_isPad : bool; en_created : bool; en_name : list Z }.

Record ControllerReader := mkReader {
  cr_xinputGetState : bool; cr_xinputSetState : bool; cr_dinput : option (list (Z * list Z));
  cr_devices : list DeviceInfo; cr_lastError : bytes; cr_xinputDll : bool }.

Definition newReader : ControllerReader := mkReader false false None [] [] false.

Definition XUSER_MAX_COUNT : nat := 4.
Definition kMaxDevices : Z := 8.
Definition kXInputStateSize : nat := 16.

Definition clampI16 (v : Z) : Z := if v <? -32768 then -32768 else if 32767 <? v then 32767 else v.

(** * One state from each library *)

(** The XInput branch of [poll]: the raw [XINPUT_STATE] of a connected slot. *)
Definition xinputState (raw : bytes) (nowNs : Z) : GameControllerState :=
  mkGcs 1 1 (mem_get 4 2 raw) (byte_at raw 6) (byte_at raw 7) (i16 (mem_get 8 2 raw)) (i16 (mem_get 10 2 raw))
    (i16 (mem_get 12 2 raw)) (i16 (mem_get 14 2 raw)) nowNs.

(** The hat switch: hundredths of a degree, -1 when centred. *)
Definition povButtons (pov : Z) : Z :=
  if pov =? 2 ^ 32 - 1 then 0
  else
    let deg := Z.quot (i32 pov) 100 in
    let b := 0 in
    let b := if (31500 / 100 <=? deg) || (deg <=? 4500 / 100) then Z.lor b DUp else b in
    let b := if (4500 / 100 <=? deg) && (deg <=? 13500 / 100) then Z.lor b DRight else b in
    let b := if (13500 / 100 <=? deg) && (deg <=? 22500 / 100) then Z.lor b DDown else b in
    if (22500 / 100 <=? deg) && (deg <=? 31500 / 100) then Z.lor b DLeft else b.

(** [for (b = 0; b < 16 && b < 128; ++b) if (rgbButtons[b] & 0x80) buttons |= 1u << b]. *)
Definition buttonBits (bs : bytes) (acc : Z) : Z :=
  foldl (fun acc b => if negb (Z.land (byte_at bs b) 0x80 =? 0) then u16 (Z.lor acc (Z.shiftl 1 (Z.of_nat b))) else acc)
    acc (seq 0 16).

Definition trigger (v : Z) : Z := u8 (Z.shiftr (v + 32768) 8).

Definition dinputState (js : JoyState) (nowNs : Z) : GameControllerState :=
  mkGcs 1 1 (buttonBits (js_rgbButtons js) (povButtons (js_rgdwPOV0 js))) (trigger (js_lRx js))
    (trigger (js_rglSlider0 js)) (clampI16 (js_lX js)) (clampI16 (js_lY js)) (clampI16 (js_lZ js))
    (clampI16 (js_lRz js)) nowNs.

(** The DirectInput branch of [poll] for one device: [GetDeviceState] is called
    when [Poll] failed. *)
Definition pollDevice (d : DInputDevice) : option GameControllerState :=
  let js := zeroJoyState in
  if did_pollFailed d then
    match did_state d with
    | Some js => Some (dinputState js (did_nowNs d))
    | None => None
    end
  else Some (dinputState js (did_nowNs d)).

(** [poll]: the states of the connected slots, then of the devices. *)
Definition poll (slots : list (option (bytes * Z))) (devs : list DInputDevice) (r : ControllerReader)
    : list GameControllerState :=
  (if cr_xinputGetState r then
     omap (fun o => '(raw, now) ← o; Some (xinputState raw now)) (take XUSER_MAX_COUNT slots)
   else []) ++
  (match cr_dinput r with
   | Some ds => omap pollDevice (take (length ds) devs)
   | None => []
   end).

(** * Discovery *)

(** [enumDevicesCallback] over the attached devices: slots are handed out to
    gamepads and joysticks, at most eight; a device is kept when it opens. *)
Fixpoint enumDevices (nextSlot : Z) (es : list EnumInstance) : list (Z * list Z) :=
  match es with
  | [] => []
  | e :: es =>
      if kMaxDevices <=? nextSlot then []
      else if negb (en_isPad e) then enumDevices nextSlot es
      else if en_created e then (nextSlot, en_name e) :: enumDevices (nextSlot + 1) es
      else enumDevices (nextSlot + 1) es
  end.

(** [std::string(name.begin(), name.end())]: each unit is cut to a byte. *)
Definition narrow (name : list Z) : bytes := u8 <$> name.

Definition xinputDevice (i : nat) : DeviceInfo :=
  mkDi (Z.of_nat i) (str "XInput pad " ++ print_dec (Z.of_nat i + 1)) true.

Definition dinputDevice (d : Z * list Z) : DeviceInfo :=
  let n := narrow (snd d) in
  mkDi (fst d) (if bool_decide (n = []) then str "DirectInput pad" else n) false.

(** [discover]: the XInput library (whether its two functions are there, and which
    slots answer), the DirectInput library (whether it creates, and what it
    enumerates). It always succeeds; only the error text tells. *)
Definition discover (xi : option (bool * bool * list bool)) (di : option (option (list EnumInstance)))
    (r : ControllerReader) : bool * ControllerReader :=
  let '(getS, setS, devs, err, dll) :=
    match xi with
    | Some (g, s, slots) =>
        (g, s,
         if g then
           omap (fun '(i, ok) => if (ok : bool) then Some (xinputDevice i) else None)
             (imap pair (take XUSER_MAX_COUNT slots))
         else [],
         [], true)
    | None => (cr_xinputGetState r, cr_xinputSetState r, [], str "xinput DLLs not found", cr_xinputDll r)
    end in
  match di with
  | Some (Some es) =>
      let ds := enumDevices 0 es in
      (true, mkReader getS setS (Some ds) (devs ++ (dinputDevice <$> ds)) err dll)
  | _ => (true, mkReader getS setS (cr_dinput r) devs err dll)
  end.

(** * Release *)

(** What is asked of DirectInput and of the loader when the devices are given up. *)
Inductive ReleaseCall := RcUnacquire (slot : Z) | RcReleaseDevice (slot : Z) | RcReleaseDInput | RcFreeXInput.

Definition closeDirectInput (r : ControllerReader) : list ReleaseCall * ControllerReader :=
  match cr_dinput r with
  | None => ([], r)
  | Some devs =>
      ((devs ≫= fun d => [RcUnacquire (fst d); RcReleaseDevice (fst d)]) ++ [RcReleaseDInput],
       mkReader (cr_xinputGetState r) (cr_xinputSetState r) None (cr_devices r) (cr_lastError r) (cr_xinputDll r))
  end.

(** The destructor. *)
Definition destroyReader (r : ControllerReader) : list ReleaseCall * ControllerReader :=
  let '(calls, r) := closeDirectInput r in
  (calls ++ (if cr_xinputDll r then [RcFreeXInput] else []),
   mkReader (cr_xinputGetState r) (cr_xinputSetState r) (cr_dinput r) (cr_devices r) (cr_lastError r) false).

(** The range asked for an object of a device, if it is an axis. *)
Definition enumObjectsCallback (isAxis : bool) : option (Z * Z) := if isAxis then Some (-32768, 32767) else None.

(** * Rumble *)

(** [XInputSetState] on a slot with the bytes of an [XINPUT_VIBRATION]. *)
Definition rumble (playerIndex lm rm : Z) (r : ControllerReader) : list (Z * bytes) :=
  if cr_xinputSetState r && (0 <=? playerIndex) && (playerIndex <? Z.of_nat XUSER_MAX_COUNT) then
    [(playerIndex, le_put 2 (u16 (lm * 257)) ++ le_put 2 (u16 (rm * 257)))]
  else [].

(** * Properties *)

Lemma xinputState_typed raw now :
  bytes_ok raw -> length raw = kXInputStateSize -> fits 64 now -> gcs_typed (xinputState raw now).
Proof.
  intros Hb Hl Hn. unfold gcs_typed, xinputState. cbn [gc_version gc_connected gc_buttons gc_leftTrigger
    gc_rightTrigger gc_thumbLX gc_thumbLY gc_thumbRX gc_thumbRY gc_timestampNs].
  unfold kXInputStateSize in Hl.
  split; [unfold fits; lia|]. split; [unfold fits; lia|].
  split; [apply (mem_get_range 4 2 raw Hb); lia|].
  split; [apply byte_at_range; [done|lia]|]. split; [apply byte_at_range; [done|lia]|].
  by repeat (split; [apply i16_sfits|]).
Qed.

Lemma clampI16_sfits v : sfits16 (clampI16 v).
Proof. unfold sfits16, clampI16. destruct (Z.ltb_spec v (-32768)), (Z.ltb_spec 32767 v); lia. Qed.

Lemma u8_fits' v : fits 8 (u8 v).
Proof. apply Z.mod_pos_bound. lia. Qed.

Lemma buttonBits_fits bs acc : fits 16 acc -> fits 16 (buttonBits bs acc).
Proof.
  unfold buttonBits. generalize (seq 0 16) as l. intros l. revert acc. induction l as [|b l IH]; intros acc H; [done|].
  cbn [foldl]. apply IH. destruct (negb _); [apply u16_fits|done].
Qed.

Lemma povButtons_fits pov : fits 16 (povButtons pov).
Proof.
  unfold povButtons. destruct (_ =? _); [by_decision|]. cbv zeta.
  repeat match goal with |- context [if ?b then _ else _] => destruct b end; by_decision.
Qed.

Lemma dinputState_typed js now : fits 64 now -> gcs_typed (dinputState js now).
Proof.
  intros Hn. unfold gcs_typed, dinputState. cbn [gc_version gc_connected gc_buttons gc_leftTrigger
    gc_rightTrigger gc_thumbLX gc_thumbLY gc_thumbRX gc_thumbRY gc_timestampNs].
  split; [unfold fits; lia|]. split; [unfold fits; lia|]. split; [apply buttonBits_fits, povButtons_fits|].
  split; [apply u8_fits'|]. split; [apply u8_fits'|]. by repeat (split; [apply clampI16_sfits|]).
Qed.

(** ** What a pad is, and what is read from it *)

(** [XINPUT_STATE], and its bytes as the platform lays them out. *)
Record XInputPad := mkXp {
  xp_packet : Z; xp_buttons : Z; xp_leftTrigger : Z; xp_rightTrigger : Z;
  xp_thumbLX : Z; xp_thumbLY : Z; xp_thumbRX : Z; xp_thumbRY : Z }.

Definition xpad_typed (p : XInputPad) : Prop :=
  fits 32 (xp_packet p) /\ fits 16 (xp_buttons p) /\ fits 8 (xp_leftTrigger p) /\ fits 8 (xp_rightTrigger p) /\
  sfits16 (xp_thumbLX p) /\ sfits16 (xp_thumbLY p) /\ sfits16 (xp_thumbRX p) /\ sfits16 (xp_thumbRY p).

Definition xpad_bytes (p : XInputPad) : bytes :=
  le_put 4 (xp_packet p) ++ le_put 2 (xp_buttons p) ++ [xp_leftTrigger p; xp_rightTrigger p] ++
  le_put 2 (u16 (xp_thumbLX p)) ++ le_put 2 (u16 (xp_thumbLY p)) ++
  le_put 2 (u16 (xp_thumbRX p)) ++ le_put 2 (u16 (xp_thumbRY p)).

(** The same pad on the wire: the members under their own names. *)
Definition padState (p : XInputPad) (now : Z) : GameControllerState :=
  mkGcs 1 1 (xp_buttons p) (xp_leftTrigger p) (xp_rightTrigger p) (xp_thumbLX p) (xp_thumbLY p)
    (xp_thumbRX p) (xp_thumbRY p) now.

Lemma xinputState_layout p now : xpad_typed p -> xinputState (xpad_bytes p) now = padState p now.
Proof.
  intros (H1 & H2 & _ & _ & H5 & H6 & H7 & H8). unfold xinputState, xpad_bytes, padState, mem_get, byte_at.
  destruct (le_put_4 (xp_packet p)) as (? & ? & ? & ? & E1). destruct (le_put_2 (xp_buttons p)) as (? & ? & E2 & _).
  destruct (le_put_2 (u16 (xp_thumbLX p))) as (? & ? & E3 & _). destruct (le_put_2 (u16 (xp_thumbLY p))) as (? & ? & E4 & _).
  destruct (le_put_2 (u16 (xp_thumbRX p))) as (? & ? & E5 & _). destruct (le_put_2 (u16 (xp_thumbRY p))) as (? & ? & E6 & _).
  rewrite E1, E2, E3, E4, E5, E6. cbn [app drop take nth]. rewrite <- E2, <- E3, <- E4, <- E5, <- E6.
  rewrite !le_get_put_16 by (done || apply u16_fits). by rewrite !i16_u16.
Qed.

(** Whether a hat at [pov] hundredths of a degree (all ones when centred) presses
    the D-pad bit [k]: up, down, left and right are the bits 11 to 14, each
    direction covers 90 degrees around its own, and the parts of a degree are cut. *)
Definition hatPresses (pov k : Z) : bool :=
  if pov =? 0xFFFFFFFF then false
  else if k =? 11 then (31500 <=? pov) || (pov <=? 4599)
  else if k =? 12 then (13500 <=? pov) && (pov <=? 22599)
  else if k =? 13 then (22500 <=? pov) && (pov <=? 31599)
  else if k =? 14 then (4500 <=? pov) && (pov <=? 13599)
  else false.

(** [s] shows the DirectInput state [js]: the sticks from lX, lY, lZ and lRz, cut
    to 16 bits; the triggers from lRx and the first slider, their range halved
    eight times; a button for each of the first sixteen that is down and for each
    direction of the first hat. *)
Record reads_joystick (js : JoyState) (s : GameControllerState) : Prop := {
  rj_lx : gc_thumbLX s = Z.max (-32768) (Z.min 32767 (js_lX js));
  rj_ly : gc_thumbLY s = Z.max (-32768) (Z.min 32767 (js_lY js));
  rj_rx : gc_thumbRX s = Z.max (-32768) (Z.min 32767 (js_lZ js));
  rj_ry : gc_thumbRY s = Z.max (-32768) (Z.min 32767 (js_lRz js));
  rj_left : -32768 <= js_lRx js <= 32767 -> gc_leftTrigger s = (js_lRx js + 32768) / 256;
  rj_right : -32768 <= js_rglSlider0 js <= 32767 -> gc_rightTrigger s = (js_rglSlider0 js + 32768) / 256;
  rj_buttons : forall k, 0 <= k < 16 -> Z.testbit (gc_buttons s) k =
    Z.testbit (nth (Z.to_nat k) (js_rgbButtons js) 0) 7 || hatPresses (js_rgdwPOV0 js) k }.

Lemma land_bit7 x : negb (Z.land x 0x80 =? 0) = Z.testbit x 7.
Proof.
  destruct (Z.eqb_spec (Z.land x 0x80) 0) as [E|E]; cbn [negb].
  - apply (f_equal (fun z => Z.testbit z 7)) in E. rewrite Z.land_spec, Z.bits_0 in E. by rewrite andb_true_r in E.
  - destruct (Z.testbit x 7) eqn:Ex; [done|]. destruct E. apply Z.bits_inj_0. intros n. rewrite Z.land_spec.
    change 0x80 with (2 ^ 7). rewrite Z.pow2_bits_eqb by lia. destruct (Z.eqb_spec 7 n) as [<-|]; [by rewrite Ex|apply andb_false_r].
Qed.

Lemma lor_fits16 a b : fits 16 a -> fits 16 b -> fits 16 (Z.lor a b).
Proof.
  intros [Ha0 Ha] [Hb0 Hb]. unfold fits. split; [by apply Z.lor_nonneg|].
  destruct (Z.eq_dec (Z.lor a b) 0) as [->|Hne]; [lia|]. pose proof (proj2 (Z.lor_nonneg a b) (conj Ha0 Hb0)).
  apply Z.log2_lt_pow2; [lia|]. rewrite Z.log2_lor by done.
  apply Z.max_lub_lt; [destruct (Z.eq_dec a 0) as [->|]|destruct (Z.eq_dec b 0) as [->|]];
    try (cbn; lia); apply Z.log2_lt_pow2; lia.
Qed.

Lemma buttonBits_testbit bs acc k :
  fits 16 acc -> 0 <= k < 16 ->
  Z.testbit (buttonBits bs acc) k = Z.testbit (nth (Z.to_nat k) bs 0) 7 || Z.testbit acc k.
Proof.
  intros Hacc Hk. unfold buttonBits, byte_at.
  assert (G : forall l acc, fits 16 acc -> Forall (fun b => (b < 16)%nat) l ->
    Z.testbit (foldl (fun acc b => if negb (Z.land (nth b bs 0) 0x80 =? 0) then u16 (Z.lor acc (Z.shiftl 1 (Z.of_nat b))) else acc) acc l) k =
    (existsb (Nat.eqb (Z.to_nat k)) l && Z.testbit (nth (Z.to_nat k) bs 0) 7) || Z.testbit acc k).
  { clear acc Hacc. induction l as [|b l IH]; intros acc Hacc Hl; cbn [foldl existsb]; [done|].
    apply list.Forall_cons in Hl as [Hb Hl]. rewrite land_bit7.
    assert (Hbit : fits 16 (Z.shiftl 1 (Z.of_nat b))).
    { unfold fits. rewrite Z.shiftl_1_l. split; [lia|]. apply Z.pow_lt_mono_r; lia. }
    assert (Heq : Nat.eqb (Z.to_nat k) b = (Z.of_nat b =? k)) by (destruct (Nat.eqb_spec (Z.to_nat k) b), (Z.eqb_spec (Z.of_nat b) k); lia || done).
    destruct (Z.testbit (nth b bs 0) 7) eqn:Eb.
    - pose proof (lor_fits16 _ _ Hacc Hbit) as Hor. unfold u16. rewrite Z.mod_small by exact Hor. rewrite IH by done.
      rewrite Z.lor_spec, Z.shiftl_1_l, Z.pow2_bits_eqb, Heq by lia. destruct (Z.eqb_spec (Z.of_nat b) k) as [<-|]; [|by rewrite orb_false_r].
      rewrite Nat2Z.id, Eb. cbn. by rewrite orb_true_r, !orb_true_r.
    - rewrite IH by done. rewrite Heq. destruct (Z.eqb_spec (Z.of_nat b) k) as [<-|]; [|done].
      rewrite Nat2Z.id, Eb. by rewrite !andb_false_r. }
  rewrite G by (done || (apply list.Forall_forall; intros x Hx%elem_of_seq; lia)).
  replace (existsb (Nat.eqb (Z.to_nat k)) (seq 0 16)) with true; [done|]. symmetry. apply existsb_exists.
  exists (Z.to_nat k). rewrite Nat.eqb_refl. split; [|done]. apply in_seq. lia.
Qed.

Lemma povButtons_testbit pov k :
  (0 <= pov < 36000 \/ pov = 0xFFFFFFFF) -> 0 <= k < 16 -> Z.testbit (povButtons pov) k = hatPresses pov k.
Proof.
  intros Hp Hk. unfold povButtons, hatPresses. change (2 ^ 32 - 1) with 0xFFFFFFFF.
  destruct (Z.eqb_spec pov 0xFFFFFFFF); [apply Z.bits_0|]. cbv zeta.
  assert (Hi : Z.quot (i32 pov) 100 = pov / 100) by (rewrite i32_small by lia; apply Z.quot_div_nonneg; lia).
  rewrite Hi. change (31500 / 100) with 315. change (4500 / 100) with 45. change (13500 / 100) with 135. change (22500 / 100) with 225.
  assert (Hge : forall a, (a <=? pov / 100) = (100 * a <=? pov)) by (intros a; apply eq_true_iff_eq; rewrite !Z.leb_le; Z.div_mod_to_equations; lia).
  assert (Hle : forall a, (pov / 100 <=? a) = (pov <=? 100 * a + 99)) by (intros a; apply eq_true_iff_eq; rewrite !Z.leb_le; Z.div_mod_to_equations; lia).
  rewrite !Hge, !Hle. cbn [Z.mul Z.add Pos.mul Pos.add Pos.succ].
  assert (Hks : In k (Z.of_nat <$> seq 0 16)) by (apply list_elem_of_In, list_elem_of_fmap; exists (Z.to_nat k); split; [lia|apply elem_of_seq; lia]).
  cbn in Hks. repeat destruct (_ <=? _); repeat destruct Hks as [<-|Hks]; done.
Qed.

Lemma dinputState_reads js now :
  (0 <= js_rgdwPOV0 js < 36000 \/ js_rgdwPOV0 js = 0xFFFFFFFF) -> reads_joystick js (dinputState js now).
Proof.
  intros Hp. assert (Hc : forall v, clampI16 v = Z.max (-32768) (Z.min 32767 v)).
  { intros v. unfold clampI16. destruct (Z.ltb_spec v (-32768)), (Z.ltb_spec 32767 v); lia. }
  assert (Ht : forall v, -32768 <= v <= 32767 -> trigger v = (v + 32768) / 256).
  { intros v Hv. unfold trigger. rewrite Z.shiftr_div_pow2 by lia. apply u8_id. widths. change (2 ^ 8) with 256. Z.div_mod_to_equations; lia. }
  split; cbn [dinputState gc_thumbLX gc_thumbLY gc_thumbRX gc_thumbRY gc_leftTrigger gc_rightTrigger gc_buttons]; try apply Hc; try apply Ht.
  intros k Hk. rewrite buttonBits_testbit by (apply povButtons_fits || done). by rewrite povButtons_testbit.
Qed.

(** What the code looks at for a device: the state that [GetDeviceState] fills in
    when [Poll] failed, and otherwise the zeros it was prepared with. *)
Definition seenState (d : DInputDevice) : option JoyState :=
  if did_pollFailed d then did_state d else Some zeroJoyState.

Definition hatTyped (d : DInputDevice) : Prop :=
  match did_state d with
  | Some js => 0 <= js_rgdwPOV0 js < 36000 \/ js_rgdwPOV0 js = 0xFFFFFFFF
  | None => True
  end.

(** [s] is a state the protocol carries: connected, of the wire version, each
    field within its width, so that it survives packing. *)
Definition on_the_wire (s : GameControllerState) (now : Z) : Prop :=
  gc_version s = 1 /\ gc_connected s = 1 /\ gc_timestampNs s = now /\ gcs_typed s /\
  unpackInput (packControllerState s) = Some (PState s).

Definition slot_typed (o : option (XInputPad * Z)) : Prop :=
  match o with Some (p, now) => xpad_typed p /\ fits 64 now | None => True end.

Definition rawSlot (o : option (XInputPad * Z)) : option (bytes * Z) := prod_map xpad_bytes id <$> o.

Lemma padState_on_the_wire p now : xpad_typed p -> fits 64 now -> on_the_wire (padState p now) now.
Proof.
  intros (_ & H2 & H3 & H4 & H5 & H6 & H7 & H8) Hn. assert (Ht : gcs_typed (padState p now)).
  { unfold gcs_typed. cbn. by split_and!; [by_decision|by_decision|..]. }
  split_and!; try done. by apply (unpackInput_pack (PState _)).
Qed.

Lemma dinputState_on_the_wire js now : fits 64 now -> on_the_wire (dinputState js now) now.
Proof.
  intros Hn. pose proof (dinputState_typed js now Hn) as Ht. split_and!; try done. by apply (unpackInput_pack (PState _)).
Qed.

(** C32: polling reads the pads. Of the first four XInput slots, each that answers
    gives the state whose members are those of its [XINPUT_STATE], in the order of
    the slots; each opened DirectInput device whose state the code sees gives a
    state that shows it, stick by stick, trigger by trigger and button by button,
    the hat as D-pad buttons, in the order of the devices; nothing else is handed
    out. Every state is connected, of the wire version, within its widths, and
    survives packing. What the code sees of a device is its state only when [Poll]
    failed, and zeros when it succeeded (see [dinput_pad_is_never_read]). *)
Theorem poll_reads_the_pads slots devs r
  (Hs : Forall slot_typed slots) (Hd : Forall (fun d => fits 64 (did_nowNs d) /\ hatTyped d) devs) :
  let pads := if cr_xinputGetState r then omap id (take 4 slots) else [] in
  let seen := omap (fun d => (fun js => (js, did_nowNs d)) <$> seenState d) (take (from_option length 0%nat (cr_dinput r)) devs) in
  exists xs ds, poll (rawSlot <$> slots) devs r = xs ++ ds /\
    Forall2 (fun '(p, now) s => s = padState p now /\ on_the_wire s now) pads xs /\
    Forall2 (fun '(js, now) s => reads_joystick js s /\ on_the_wire s now) seen ds.
Proof.
  cbv zeta. unfold poll. eexists _, _. split; [reflexivity|]. split.
  - destruct (cr_xinputGetState r); [|constructor]. rewrite <- fmap_take. apply (Forall_take _ 4) in Hs. change XUSER_MAX_COUNT with 4%nat.
    induction Hs as [|[[p now]|] l Ho _ IH]; cbn -[xpad_bytes xinputState]; [constructor| |exact IH]. destruct Ho as [Hp Hn].
    rewrite xinputState_layout by done. constructor; [|exact IH]. split; [done|by apply padState_on_the_wire].
  - destruct (cr_dinput r) as [os|]; cbn [from_option]; [|constructor].
    apply (Forall_take _ (length os)) in Hd. induction Hd as [|d l [Hn Hh] _ IH]; cbn; [constructor|].
    unfold pollDevice, seenState, hatTyped in *. destruct (did_pollFailed d); [destruct (did_state d) as [js|]; cbn; [|exact IH]|cbn].
    + constructor; [|exact IH]. split; [by apply dinputState_reads|by apply dinputState_on_the_wire].
    + constructor; [|exact IH]. split; [apply dinputState_reads; left; cbn; lia|by apply dinputState_on_the_wire].
Qed.

Definition sampleXPad : XInputPad := mkXp 9 0x1001 255 3 (-32768) 32767 (-2) 1.
Definition sampleJoyState : JoyState := mkJs 100 (-70000) 40000 32767 (-40000) 0 9000 (0 :: 128 :: replicate 126 0).

Lemma poll_reads_the_pads_witness :
  let slots := [None; Some (sampleXPad, 5)] in
  let devs := [mkDid true (Some sampleJoyState) 6] in
  let r := mkReader true true (Some [(0, [])]) [] [] true in
  poll (rawSlot <$> slots) devs r =
    [mkGcs 1 1 0x1001 255 3 (-32768) 32767 (-2) 1 5; mkGcs 1 1 (2 + 2 ^ 14) 255 128 100 (-32768) 32767 (-32768) 6] /\
  exists xs ds, poll (rawSlot <$> slots) devs r = xs ++ ds /\
    Forall2 (fun '(p, now) s => s = padState p now /\ on_the_wire s now) [(sampleXPad, 5)] xs /\
    Forall2 (fun '(js, now) s => reads_joystick js s /\ on_the_wire s now) [(sampleJoyState, 6)] ds.
Proof.
  cbv zeta. split; [by vm_compute|].
  refine (poll_reads_the_pads [None; Some (sampleXPad, 5)] [mkDid true (Some sampleJoyState) 6] (mkReader true true (Some [(0, [])]) [] [] true) _ _).
  - apply Forall_cons_2; [exact I|]. apply Forall_cons_2; [|constructor]. split; [|by_decision]. by split_and!; by_decision.
  - apply Forall_cons_2; [|constructor]. split; [by_decision|]. left. cbn. lia.
Defined.

(** A DirectInput pad whose [Poll] succeeds is never read: its state is always
    the D-pad held up and both triggers half pressed. *)
Theorem dinput_pad_is_never_read st now :
  pollDevice (mkDid false st now) = Some (mkGcs 1 1 DUp 128 128 0 0 0 0 now).
Proof. by vm_compute. Qed.

(** The devices a list of calls releases. *)
Definition releasedDevices (calls : list ReleaseCall) : list Z :=
  omap (fun c => match c with RcReleaseDevice slot => Some slot | _ => None end) calls.

Lemma closeDirectInput_releases ds r :
  cr_dinput r = Some ds -> releasedDevices (fst (closeDirectInput r)) = fst <$> ds.
Proof.
  intros Hd. unfold closeDirectInput. rewrite Hd. cbn [fst]. unfold releasedDevices. rewrite omap_app. cbn [omap list_omap].
  rewrite app_nil_r. clear Hd. induction ds as [|d ds IH]; [done|]. rewrite bind_cons, omap_app, IH. done.
Qed.

Lemma closeDirectInput_others ds r :
  cr_dinput r = Some ds ->
  (forall c, c ∈ fst (closeDirectInput r) -> c <> RcFreeXInput) /\ RcReleaseDInput ∈ fst (closeDirectInput r).
Proof.
  intros Hd. unfold closeDirectInput. rewrite Hd. cbn [fst]. split; [|apply elem_of_app; right; by apply list_elem_of_singleton].
  intros c [(d & Hc & _)%list_elem_of_bind| ->%list_elem_of_singleton]%elem_of_app; [|done].
  intros ->. apply list_elem_of_In in Hc. destruct Hc as [?|[?|[]]]; done.
Qed.

(** Destroying a reader after a discovery releases every device that was opened
    exactly once and in order, with DirectInput after them, and frees the XInput
    library if it was loaded; the reader then holds nothing. *)
Theorem destroyed_reader_holds_nothing xi es :
  let r := snd (discover xi (Some (Some es)) newReader) in
  let '(calls, r') := destroyReader r in
  releasedDevices calls = fst <$> enumDevices 0 es /\ RcReleaseDInput ∈ calls /\
  (RcFreeXInput ∈ calls <-> is_Some xi) /\ cr_dinput r' = None /\ cr_xinputDll r' = false.
Proof.
  cbv zeta. set (r := snd _).
  assert (Hd : cr_dinput r = Some (enumDevices 0 es)) by (unfold r, discover; by destruct xi as [[[g s] slots]|]).
  assert (Hx : cr_xinputDll r = bool_decide (is_Some xi)) by (unfold r, discover; by destruct xi as [[[g s] slots]|]).
  pose proof (closeDirectInput_releases _ _ Hd) as Hrel. destruct (closeDirectInput_others _ _ Hd) as [Ho Hl].
  unfold destroyReader. destruct (closeDirectInput r) as [calls r'] eqn:Ec. cbn [fst] in *.
  assert (Hr' : cr_dinput r' = None /\ cr_xinputDll r' = cr_xinputDll r)
    by (unfold closeDirectInput in Ec; rewrite Hd in Ec; by injection Ec as _ <-).
  destruct Hr' as [-> ->]. cbn [cr_dinput cr_xinputDll]. rewrite Hx. split_and!; try done.
  - unfold releasedDevices in *. rewrite omap_app, Hrel. by destruct (bool_decide _); cbn; rewrite app_nil_r.
  - apply elem_of_app. by left.
  - rewrite elem_of_app. case_bool_decide as Hi.
    + split; [done|]. intros _. right. by apply list_elem_of_singleton.
    + split; [|done]. intros [Hin|Hin%not_elem_of_nil]; [|done]. by apply Ho in Hin.
Qed.

(** A second discovery forgets the devices of the first without releasing them. *)
Theorem rediscovery_leaks_devices xi es1 es2 :
  let r := snd (discover xi (Some (Some es2)) (snd (discover xi (Some (Some es1)) newReader))) in
  releasedDevices (fst (closeDirectInput r)) = fst <$> enumDevices 0 es2.
Proof. cbv zeta. apply closeDirectInput_releases. unfold discover. by destruct xi as [[[g s] slots]|]. Qed.

(** An axis within the range asked for needs no clamping. *)
Lemma ranged_axis_is_kept isAxis lo hi v : enumObjectsCallback isAxis = Some (lo, hi) -> lo <= v <= hi -> clampI16 v = v.
Proof. destruct isAxis; [|done]. intros [= <- <-] Hv. unfold clampI16. destruct (Z.ltb_spec v (-32768)), (Z.ltb_spec 32767 v); lia. Qed.
