(* ===== verification/InputSender.v ===== *)
(** input/InputSender.h and InputSender.cpp: the client's input thread.

    One iteration of the thread is a step: it takes the queue under the mutex, and
    nothing another thread does in between changes what it sends. A packet handed
    to [UdpTransport::sendSmall] is an output. Starting a thread on a
    [std::thread] that was not joined, or destroying one, terminates the program:
    those operations then have no result. *)

From S2P Require Import Prelude Types InputProtocol ControllerReader.

(** * State *)

Record InputSender := mkIs {
  is_running : bool; is_transport : bool; is_slot : Z; is_reader : ControllerReader;
  is_joinable : bool; is_loop : bool; is_queue : list InputEvent;
  is_controllerEnabled : bool; is_keyboardEnabled : bool; is_mouseEnabled : bool;
  is_packetsSent : Z; is_eventsQueued : Z; is_lastSent : list GameControllerState; is_lastKeepaliveNs : Z }.

Definition zeroGcs : GameControllerState := defaultGcs.

Definition newSender : InputSender :=
  mkIs false false 0 newReader false false [] true false false 0 0 (replicate 4 zeroGcs) 0.

Definition setRunning (b : bool) (s : InputSender) : InputSender :=
  mkIs b (is_transport s) (is_slot s) (is_reader s) (is_joinable s) (is_loop s) (is_queue s) (is_controllerEnabled s)
    (is_keyboardEnabled s) (is_mouseEnabled s) (is_packetsSent s) (is_eventsQueued s) (is_lastSent s) (is_lastKeepaliveNs s).
Definition setThread (joinable loop : bool) (s : InputSender) : InputSender :=
  mkIs (is_running s) (is_transport s) (is_slot s) (is_reader s) joinable loop (is_queue s) (is_controllerEnabled s)
    (is_keyboardEnabled s) (is_mouseEnabled s) (is_packetsSent s) (is_eventsQueued s) (is_lastSent s) (is_lastKeepaliveNs s).
Definition setTransport (t : bool) (slot : Z) (s : InputSender) : InputSender :=
  mkIs (is_running s) t slot (is_reader s) (is_joinable s) (is_loop s) (is_queue s) (is_controllerEnabled s)
    (is_keyboardEnabled s) (is_mouseEnabled s) (is_packetsSent s) (is_eventsQueued s) (is_lastSent s) (is_lastKeepaliveNs s).
Definition setReader (r : ControllerReader) (s : InputSender) : InputSender :=
  mkIs (is_running s) (is_transport s) (is_slot s) r (is_joinable s) (is_loop s) (is_queue s) (is_controllerEnabled s)
    (is_keyboardEnabled s) (is_mouseEnabled s) (is_packetsSent s) (is_eventsQueued s) (is_lastSent s) (is_lastKeepaliveNs s).
Definition setQueue (q : list InputEvent) (queued : Z) (s : InputSender) : InputSender :=
  mkIs (is_running s) (is_transport s) (is_slot s) (is_reader s) (is_joinable s) (is_loop s) q (is_controllerEnabled s)
    (is_keyboardEnabled s) (is_mouseEnabled s) (is_packetsSent s) queued (is_lastSent s) (is_lastKeepaliveNs s).
Definition setPackets (n : Z) (s : InputSender) : InputSender :=
  mkIs (is_running s) (is_transport s) (is_slot s) (is_reader s) (is_joinable s) (is_loop s) (is_queue s) (is_controllerEnabled s)
    (is_keyboardEnabled s) (is_mouseEnabled s) n (is_eventsQueued s) (is_lastSent s) (is_lastKeepaliveNs s).
Definition setLastSent (l : list GameControllerState) (s : InputSender) : InputSender :=
  mkIs (is_running s) (is_transport s) (is_slot s) (is_reader s) (is_joinable s) (is_loop s) (is_queue s) (is_controllerEnabled s)
    (is_keyboardEnabled s) (is_mouseEnabled s) (is_packetsSent s) (is_eventsQueued s) l (is_lastKeepaliveNs s).
Definition setKeepalive (t : Z) (s : InputSender) : InputSender :=
  mkIs (is_running s) (is_transport s) (is_slot s) (is_reader s) (is_joinable s) (is_loop s) (is_queue s) (is_controllerEnabled s)
    (is_keyboardEnabled s) (is_mouseEnabled s) (is_packetsSent s) (is_eventsQueued s) (is_lastSent s) t.

Definition setEnabled (controller keyboard mouse : bool) (s : InputSender) : InputSender :=
  mkIs (is_running s) (is_transport s) (is_slot s) (is_reader s) (is_joinable s) (is_loop s) (is_queue s) controller
    keyboard mouse (is_packetsSent s) (is_eventsQueued s) (is_lastSent s) (is_lastKeepaliveNs s).

(** * Start and stop *)

(** [start], with what discovering the controllers finds and the clock. *)
Definition start (xi : option (bool * bool * list bool)) (di : option (option (list EnumInstance))) (slot nowNs : Z)
    (s : InputSender) : option (bool * InputSender) :=
  if is_running s then Some (false, setRunning false s)
  else
    let s := setTransport true slot (setRunning true s) in
    let '(ok, r) := discover xi di (is_reader s) in
    let s := setReader r s in
    if negb ok then Some (false, setRunning false s)
    else
      let s := setKeepalive nowNs s in
      if is_joinable s then None else Some (true, setThread true true s).

(** [stop]: joining waits for the loop to see [running_] false. *)
Definition stop (s : InputSender) : InputSender :=
  if negb (is_running s) then s
  else
    let s := setRunning false s in
    let s := if is_joinable s then setThread false false s else s in
    setTransport false (is_slot s) s.

(** [~InputSender]: [stop], then the members. *)
Definition destroy (s : InputSender) : option unit := if is_joinable (stop s) then None else Some tt.

(** * Calls from other threads *)

Definition isKeyEvent (e : InputEvent) : bool :=
  (ie_type e =? inputEventTypeCode KeyDown) || (ie_type e =? inputEventTypeCode KeyUp).

Definition queueEvent (e : InputEvent) (s : InputSender) : InputSender :=
  if negb (is_running s) then s
  else if isKeyEvent e && negb (is_keyboardEnabled s) then s
  else if negb (isKeyEvent e) && negb (is_mouseEnabled s) then s
  else
    let q := if (256 <? length (is_queue s))%nat then [] else is_queue s in
    setQueue (q ++ [e]) (u64 (is_eventsQueued s + 1)) s.

(** [onControlMessage]: the motors set. *)
Definition onControlMessage (payload : bytes) (s : InputSender) : list (Z * bytes) :=
  if (pod_size rumbleLayout <=? length payload)%nat then
    let rc := readRumble payload in
    if rc_tag rc =? 82 then rumble (rc_playerIndex rc) (rc_leftMotor rc) (rc_rightMotor rc) (is_reader s) else []
  else [].

Definition controllerSummary (s : InputSender) : bytes :=
  match cr_devices (is_reader s) with
  | [] => str "no local controllers"
  | devs =>
      foldl (fun acc d => (if bool_decide (acc = []) then acc else acc ++ str ", ") ++ di_name d) [] devs
  end.

(** * The sender thread *)

Definition stateEqual (a b : GameControllerState) : bool :=
  (gc_connected a =? gc_connected b) && (gc_buttons a =? gc_buttons b) &&
  (gc_leftTrigger a =? gc_leftTrigger b) && (gc_rightTrigger a =? gc_rightTrigger b) &&
  (gc_thumbLX a =? gc_thumbLX b) && (gc_thumbLY a =? gc_thumbLY b) &&
  (gc_thumbRX a =? gc_thumbRX b) && (gc_thumbRY a =? gc_thumbRY b).

Definition keepaliveDue (nowNs : Z) (s : InputSender) : bool := 500000000 <? u64 (nowNs - is_lastKeepaliveNs s).

(** The loop over the polled states from index [i]. *)
Fixpoint sendStates (keepalive : bool) (i : nat) (states : list GameControllerState) (s : InputSender)
    : list bytes * InputSender :=
  match states with
  | [] => ([], s)
  | st :: states =>
      if (4 <=? i)%nat then ([], s)
      else
        let changed := negb (stateEqual (nth i (is_lastSent s) zeroGcs) st) in
        if changed || keepalive then
          let s := setPackets (u64 (is_packetsSent s + 1)) s in
          let s := setLastSent (<[i := st]> (is_lastSent s)) s in
          let '(ps, s) := sendStates keepalive (S i) states s in
          (packControllerState st :: ps, s)
        else sendStates keepalive (S i) states s
  end.

(** The controllers are polled: what the slots and devices answer. *)
Definition controllersPhase (nowNs : Z) (slots : list (option (bytes * Z))) (devs : list DInputDevice) (s : InputSender)
    : list bytes * InputSender :=
  if is_controllerEnabled s && is_transport s then
    let states := poll slots devs (is_reader s) in
    let keepalive := keepaliveDue nowNs s in
    let '(ps, s) := sendStates keepalive 0 states s in
    (ps, if negb (bool_decide (states = [])) && keepalive then setKeepalive nowNs s else s)
  else ([], s).

(** The queue is swapped out and sent. *)
Definition eventsPhase (s : InputSender) : list bytes * InputSender :=
  let toSend := is_queue s in
  let s := setQueue [] (is_eventsQueued s) s in
  if is_transport s then
    (packInputEvent <$> toSend, setPackets (u64 (is_packetsSent s + Z.of_nat (length toSend))) s)
  else ([], s).

(** One iteration of [senderThread], or its exit. *)
Definition iteration (nowNs : Z) (slots : list (option (bytes * Z))) (devs : list DInputDevice) (s : InputSender)
    : list bytes * InputSender :=
  if negb (is_loop s) then ([], s)
  else if negb (is_running s) then ([], setThread (is_joinable s) false s)
  else
    let '(p1, s) := controllersPhase nowNs slots devs s in
    let '(p2, s) := eventsPhase s in
    (p1 ++ p2, s).

(** * Runs *)

Inductive SenderOp :=
  | SoStart (xi : option (bool * bool * list bool)) (di : option (option (list EnumInstance))) (slot nowNs : Z)
  | SoStop
  | SoSetEnabled (controller keyboard mouse : bool)
  | SoQueueEvent (e : InputEvent)
  | SoIteration (nowNs : Z) (slots : list (option (bytes * Z))) (devs : list DInputDevice).

Definition senderStep (o : SenderOp) (s : InputSender) : option (list bytes * InputSender) :=
  match o with
  | SoStart xi di slot now => '(_, s) ← start xi di slot now s; Some ([], s)
  | SoStop => Some ([], stop s)
  | SoSetEnabled c k m => Some ([], setEnabled c k m s)
  | SoQueueEvent e => Some ([], queueEvent e s)
  | SoIteration now slots devs => Some (iteration now slots devs s)
  end.

Fixpoint senderRun (os : list SenderOp) (s : InputSender) : option (list bytes * InputSender) :=
  match os with
  | [] => Some ([], s)
  | o :: os =>
      '(p1, s) ← senderStep o s;
      '(p2, s) ← senderRun os s;
      Some (p1 ++ p2, s)
  end.

(** * Keyboard and mouse events *)

Definition decodedEvents (ps : list bytes) : list InputEvent :=
  omap (fun b => match unpackInput b with Some (PEvent e) => Some e | _ => None end) ps.

Definition acceptsEvent (e : InputEvent) (s : InputSender) : bool :=
  is_running s && (if isKeyEvent e then is_keyboardEnabled s else is_mouseEnabled s).

(** The events the run accepted into the queue, in order. *)
Fixpoint accepted (os : list SenderOp) (s : InputSender) : list InputEvent :=
  match os with
  | [] => []
  | o :: os =>
      (match o with SoQueueEvent e => if acceptsEvent e s then [e] else [] | _ => [] end) ++
      match senderStep o s with Some (_, s) => accepted os s | None => [] end
  end.

Lemma decodedEvents_app p1 p2 : decodedEvents (p1 ++ p2) = decodedEvents p1 ++ decodedEvents p2.
Proof. apply omap_app. Qed.

Lemma decodedEvents_events es : Forall iev_typed es -> decodedEvents (packInputEvent <$> es) = es.
Proof.
  induction 1 as [|e es He _ IH]; [done|]. unfold decodedEvents in *. cbn [fmap list_fmap omap list_omap].
  assert (E : unpackInput (packInputEvent e) = Some (PEvent e)).
  { by apply (unpackInput_pack (PEvent e)). }
  rewrite E. by f_equal.
Qed.

Lemma decodedEvents_state st ps : decodedEvents (packControllerState st :: ps) = decodedEvents ps.
Proof.
  unfold decodedEvents. cbn [omap list_omap]. unfold packControllerState, unpackInput. cbn [length].
  by rewrite pod_bytes_length by done.
Qed.

Lemma sendStates_frame k i sts s ps s' :
  sendStates k i sts s = (ps, s') ->
  decodedEvents ps = [] /\ is_running s' = is_running s /\ is_transport s' = is_transport s /\
  is_queue s' = is_queue s /\ is_controllerEnabled s' = is_controllerEnabled s /\ is_reader s' = is_reader s /\
  is_loop s' = is_loop s /\ is_lastKeepaliveNs s' = is_lastKeepaliveNs s.
Proof.
  revert i s ps. induction sts as [|st sts IH]; intros i s ps; cbn [sendStates]; [by intros [= <- <-]|].
  destruct (4 <=? i)%nat; [by intros [= <- <-]|]. destruct (_ || _); [|apply IH].
  destruct (sendStates _ _ _ _) as [ps1 s1] eqn:E. intros [= <- <-]. apply IH in E as (E & H).
  rewrite decodedEvents_state, E. by split.
Qed.

(** A running sender has its transport. *)
Definition sender_ok (s : InputSender) : Prop := is_running s = true -> is_transport s = true.

Lemma controllersPhase_frame now slots devs s ps s' :
  controllersPhase now slots devs s = (ps, s') ->
  decodedEvents ps = [] /\ is_running s' = is_running s /\ is_transport s' = is_transport s /\ is_queue s' = is_queue s.
Proof.
  unfold controllersPhase. destruct (_ && _); [|by intros [= <- <-]]. cbv zeta.
  destruct (sendStates _ _ _ _) as [ps1 s1] eqn:E. intros [= <- <-]. apply sendStates_frame in E as (H1 & H2 & H3 & H4 & _).
  by destruct (_ && _).
Qed.

Lemma iteration_events now slots devs s ps s' :
  sender_ok s -> Forall iev_typed (is_queue s) -> iteration now slots devs s = (ps, s') ->
  decodedEvents ps ++ is_queue s' = is_queue s /\ sender_ok s'.
Proof.
  intros Hok Ht. unfold iteration. destruct (is_loop s); cbn [negb]; [|by intros [= <- <-]].
  destruct (is_running s) eqn:Er; cbn [negb]; [|intros [= <- <-]; split; [done|unfold sender_ok; cbn; by rewrite Er]].
  destruct (controllersPhase now slots devs s) as [p1 s1] eqn:E1. apply controllersPhase_frame in E1 as (H1 & H2 & H3 & H4).
  unfold eventsPhase. cbn [setQueue is_transport]. rewrite H3, (Hok Er). intros [= <- <-].
  rewrite decodedEvents_app, H1, H4, decodedEvents_events by done. split; [apply app_nil_r|].
  unfold sender_ok. cbn. by rewrite H3, (Hok Er).
Qed.

Definition op_typed (o : SenderOp) : Prop := match o with SoQueueEvent e => iev_typed e | _ => True end.

Lemma start_frame xi di slot now s b s' :
  sender_ok s -> start xi di slot now s = Some (b, s') -> is_queue s' = is_queue s /\ sender_ok s'.
Proof.
  intros Hok. unfold start. destruct (is_running s); [by intros [= _ <-]|].
  destruct (discover _ _ _) as [ok r]. cbv zeta. destruct ok; cbn [negb]; [|by intros [= _ <-]].
  destruct (is_joinable _); [done|]. by intros [= _ <-].
Qed.

Lemma stop_frame s : sender_ok s -> is_queue (stop s) = is_queue s /\ sender_ok (stop s).
Proof.
  intros Hok. unfold stop. destruct (is_running s) eqn:E; cbn [negb]; [|by split; [|intros ?; congruence]].
  cbn [setRunning is_joinable]. destruct (is_joinable s); by split.
Qed.

Lemma events_run os s ps s' :
  sender_ok s -> Forall iev_typed (is_queue s) -> Forall op_typed os -> senderRun os s = Some (ps, s') ->
  sublist (decodedEvents ps ++ is_queue s') (is_queue s ++ accepted os s) /\
  ((length (is_queue s) + length (accepted os s) <= 257)%nat ->
   decodedEvents ps ++ is_queue s' = is_queue s ++ accepted os s).
Proof.
  revert s ps. induction os as [|o os IH]; intros s ps Hok Hq Hos; cbn [senderRun accepted].
  { intros [= <- <-]. by rewrite app_nil_r. }
  apply Forall_cons_iff in Hos as [Ho Hos]. destruct (senderStep o s) as [[p1 s1]|] eqn:E1; [|done]. cbn [mbind option_bind].
  destruct (senderRun os s1) as [[p2 s2]|] eqn:E2; [|done]. cbn [mbind option_bind]. intros [= <- <-].
  rewrite decodedEvents_app.
  assert (Hsame : sender_ok s1 -> is_queue s1 = is_queue s -> p1 = [] ->
    sublist ((decodedEvents p1 ++ decodedEvents p2) ++ is_queue s2) (is_queue s ++ accepted os s1) /\
    ((length (is_queue s) + length (accepted os s1) <= 257)%nat ->
     (decodedEvents p1 ++ decodedEvents p2) ++ is_queue s2 = is_queue s ++ accepted os s1)).
  { intros Hok1 Hq1 ->. rewrite <- Hq1. apply IH; [done|by rewrite Hq1|done|done]. }
  destruct o as [xi di slot now| |c k m|e|now slots devs]; cbn [senderStep] in E1.
  - destruct (start xi di slot now s) as [[b s1']|] eqn:Es; [|done]. cbn in E1. injection E1 as <- <-.
    destruct (start_frame _ _ _ _ _ _ _ Hok Es) as [Hq1 Hok1]. by apply Hsame.
  - injection E1 as <- <-. destruct (stop_frame s Hok) as [Hq1 Hok1]. by apply Hsame.
  - injection E1 as <- <-. by apply Hsame.
  - injection E1 as <- <-. unfold queueEvent, acceptsEvent in *. destruct (is_running s) eqn:Er; cbn [negb andb] in *;
      [|by apply Hsame].
    destruct (isKeyEvent e); [destruct (is_keyboardEnabled s)|destruct (is_mouseEnabled s)]; cbn [negb andb] in *;
      try (by apply Hsame).
    all: clear Hsame; set (q := if (256 <? length (is_queue s))%nat then [] else is_queue s) in *;
      set (s1 := setQueue (q ++ [e]) _ s) in *;
      assert (Hq1 : Forall iev_typed (is_queue s1)) by
        (apply Forall_app; split; [unfold q; by destruct (_ <? _)%nat|by constructor]);
      destruct (IH s1 p2 Hok Hq1 Hos E2) as [Hsub Heq]; cbn [is_queue s1 setQueue] in Hsub, Heq;
      cbn [decodedEvents omap list_omap app]; rewrite <- app_assoc in Hsub, Heq; split;
      [etransitivity; [exact Hsub|]; apply sublist_app; [|done]; unfold q; destruct (_ <? _)%nat; [apply sublist_nil_l|done]|].
    all: cbn [length]; rewrite length_app in Heq; cbn [length] in Heq; intros Hlen;
      assert (Eq : q = is_queue s) by (unfold q; destruct (Nat.ltb_spec 256 (length (is_queue s))); [lia|done]);
      rewrite Eq in Heq; apply Heq; lia.
  - injection E1 as E1. destruct (iteration_events _ _ _ _ _ _ Hok Hq E1) as [Hev Hok1].
    assert (Hq1 : Forall iev_typed (is_queue s1)) by (rewrite <- Hev in Hq; by apply Forall_app in Hq as [_ Hq]).
    destruct (IH s1 p2 Hok1 Hq1 Hos E2) as [Hsub Heq]. rewrite <- Hev, <- !app_assoc. cbn [app]. split.
    + by apply sublist_app.
    + intros Hlen. f_equal. apply Heq. rewrite length_app in Hlen. lia.
Qed.

(** C30: keyboard and mouse events reach the host in the order they were queued.
    Whatever the interleaving of starts, stops, permission changes, queueing and
    iterations, what the host decodes from the packets sent, followed by what is
    still queued, is a sublist of the accepted events, and events are accepted
    only while running and when their kind is enabled; nothing is invented,
    duplicated or reordered. As long as no more than 257 events are accepted,
    nothing is lost either. *)
Theorem events_arrive_in_order os ps s :
  Forall op_typed os -> senderRun os newSender = Some (ps, s) ->
  sublist (decodedEvents ps ++ is_queue s) (accepted os newSender) /\
  ((length (accepted os newSender) <= 257)%nat -> decodedEvents ps ++ is_queue s = accepted os newSender).
Proof. intros Hos Hrun. by apply (events_run os newSender ps s). Qed.

Lemma events_arrive_in_order_witness :
  exists ps s,
    senderRun [SoStart None None 0 0; SoSetEnabled true true false; SoQueueEvent (mkIev 1 65 0 0 0 0 0 0);
               SoQueueEvent (mkIev 3 0 7 7 0 0 0 0); SoQueueEvent (mkIev 2 65 0 0 0 0 0 0); SoIteration 8 [] []] newSender
      = Some (ps, s) /\
    decodedEvents ps ++ is_queue s = [mkIev 1 65 0 0 0 0 0 0; mkIev 2 65 0 0 0 0 0 0].
Proof.
  eexists _, _. split; [vm_compute; reflexivity|].
  refine (proj2 (events_arrive_in_order [SoStart None None 0 0; SoSetEnabled true true false;
    SoQueueEvent (mkIev 1 65 0 0 0 0 0 0); SoQueueEvent (mkIev 3 0 7 7 0 0 0 0);
    SoQueueEvent (mkIev 2 65 0 0 0 0 0 0); SoIteration 8 [] []] _ _ _ _) _).
  - repeat apply Forall_cons_2; cbn [op_typed]; try exact I; try by_decision. constructor.
  - vm_compute. reflexivity.
  - vm_compute. lia.
Defined.

(** * Controller states *)

(** Whether a polled state is sent: it differs from the last one sent from its
    position, or the keepalive is due. *)
Definition dueState (keepalive : bool) (last : list GameControllerState) (i : nat) (st : GameControllerState)
    : option GameControllerState :=
  if negb (stateEqual (nth i last zeroGcs) st) || keepalive then Some st else None.

Lemma stateEqual_refl a : stateEqual a a = true.
Proof. unfold stateEqual. by rewrite !Z.eqb_refl. Qed.

Lemma stateEqual_trans a b c : stateEqual a b = true -> stateEqual b c = true -> stateEqual a c = true.
Proof. unfold stateEqual. rewrite !andb_true_iff, !Z.eqb_eq. intuition congruence. Qed.

Lemma nth_insert_gcs (l : list GameControllerState) i j st :
  (i < length l)%nat -> nth j (<[i := st]> l) zeroGcs = if decide (j = i) then st else nth j l zeroGcs.
Proof.
  intros Hi. rewrite !nth_lookup. destruct (decide (j = i)) as [->|Hne];
    [by rewrite list_lookup_insert_eq|by rewrite list_lookup_insert_ne].
Qed.

Lemma sendStates_spec k sts i s ps s' :
  length (is_lastSent s) = 4%nat -> sendStates k i sts s = (ps, s') ->
  ps = packControllerState <$> omap id (imap (fun j => dueState k (is_lastSent s) (i + j)) (take (4 - i) sts)) /\
  length (is_lastSent s') = 4%nat /\
  (forall j, (j < i)%nat -> nth j (is_lastSent s') zeroGcs = nth j (is_lastSent s) zeroGcs) /\
  (forall j st, take (4 - i) sts !! j = Some st -> stateEqual (nth (i + j) (is_lastSent s') zeroGcs) st = true).
Proof.
  revert i s ps. induction sts as [|st sts IH]; intros i s ps Hl; cbn [sendStates].
  { intros [= <- <-]. rewrite take_nil. split_and!; [done|done|done|]. by intros [|j] x. }
  destruct (Nat.leb_spec 4 i) as [Hi|Hi].
  { intros [= <- <-]. replace (4 - i)%nat with 0%nat by lia. split_and!; [done|done|done|].
    by intros [|j] x. }
  replace (4 - i)%nat with (S (4 - S i)) by lia. cbn [take]. rewrite imap_cons. cbn [omap list_omap].
  unfold dueState at 1. rewrite Nat.add_0_r.
  assert (Hext : forall last, imap ((fun j => dueState k last (i + j)) ∘ S) (take (4 - S i) sts) =
                              imap (fun j => dueState k last (S i + j)) (take (4 - S i) sts)).
  { intros last. apply imap_ext. intros j x _. cbn. by rewrite Nat.add_succ_r. }
  rewrite Hext. destruct (negb (stateEqual (nth i (is_lastSent s) zeroGcs) st) || k) eqn:Ed; cbn [id].
  - set (s1 := setLastSent _ _). destruct (sendStates k (S i) sts s1) as [ps1 s2] eqn:E. intros [= <- <-].
    assert (Hl1 : length (is_lastSent s1) = 4%nat) by (cbn; by rewrite length_insert).
    destruct (IH (S i) s1 ps1 Hl1 E) as (H1 & H2 & H3 & H4).
    assert (Hsame : imap (fun j => dueState k (is_lastSent s1) (S i + j)) (take (4 - S i) sts) =
                    imap (fun j => dueState k (is_lastSent s) (S i + j)) (take (4 - S i) sts)).
    { apply imap_ext. intros j x _. unfold dueState. cbn [s1 is_lastSent setLastSent setPackets].
      rewrite nth_insert_gcs by lia. by rewrite decide_False by lia. }
    rewrite Hsame in H1. split_and!; [by rewrite H1|done| |].
    + intros j Hj. rewrite H3 by lia. cbn. rewrite nth_insert_gcs by lia. by rewrite decide_False by lia.
    + intros [|j] x; cbn [lookup list_lookup].
      * intros [= <-]. rewrite Nat.add_0_r, H3 by lia. cbn. rewrite nth_insert_gcs by lia.
        rewrite decide_True by done. apply stateEqual_refl.
      * intros Hx. rewrite Nat.add_succ_r. by apply (H4 j x).
  - intros E. destruct (IH (S i) s ps Hl E) as (H1 & H2 & H3 & H4). split_and!; [done|done| |].
    + intros j Hj. apply H3. lia.
    + apply orb_false_iff in Ed as [Ed _]. apply negb_false_iff in Ed. intros [|j] x; cbn [lookup list_lookup].
      * intros [= <-]. by rewrite Nat.add_0_r, H3 by lia.
      * intros Hx. rewrite Nat.add_succ_r. by apply (H4 j x).
Qed.

Lemma omap_none {A} (l : list (option A)) : Forall (fun o => o = None) l -> omap id l = [].
Proof. induction 1 as [|o l -> _ IH]; [done|]. exact IH. Qed.

(** One iteration with the controllers on. *)
Lemma iteration_controllers now slots devs s ps s' :
  is_loop s = true -> is_running s = true -> is_transport s = true -> is_controllerEnabled s = true ->
  length (is_lastSent s) = 4%nat -> iteration now slots devs s = (ps, s') ->
  let states := take 4 (poll slots devs (is_reader s)) in
  ps = (packControllerState <$> omap id (imap (dueState (keepaliveDue now s) (is_lastSent s)) states)) ++
       (packInputEvent <$> is_queue s) /\
  (forall i st, states !! i = Some st -> stateEqual (nth i (is_lastSent s') zeroGcs) st = true) /\
  is_loop s' = true /\ is_running s' = true /\ is_transport s' = true /\ is_controllerEnabled s' = true /\
  length (is_lastSent s') = 4%nat /\ is_queue s' = [] /\ is_reader s' = is_reader s.
Proof.
  intros Hloop Hrun Ht Hc Hl. unfold iteration. rewrite Hloop, Hrun. cbn [negb]. unfold controllersPhase.
  rewrite Hc, Ht. cbn [andb]. cbv zeta.
  destruct (sendStates (keepaliveDue now s) 0 (poll slots devs (is_reader s)) s) as [p1 s1] eqn:E.
  pose proof (sendStates_frame _ _ _ _ _ _ E) as (_ & F1 & F2 & F3 & F4 & F5 & F6 & _).
  destruct (sendStates_spec _ _ _ _ _ _ Hl E) as (H1 & H2 & _ & H4). cbn [Nat.sub Nat.add] in H1, H4.
  unfold eventsPhase. set (s2 := if _ && _ then _ else s1).
  assert (Hs2 : is_loop s2 = true /\ is_running s2 = true /\ is_transport s2 = true /\ is_controllerEnabled s2 = true /\
    is_lastSent s2 = is_lastSent s1 /\ is_queue s2 = is_queue s /\ is_reader s2 = is_reader s).
  { unfold s2. destruct (_ && _); cbn; split_and!; congruence. }
  clearbody s2. destruct Hs2 as (G1 & G2 & G3 & G4 & G5 & G6 & G7). cbn [setQueue is_transport]. rewrite G3.
  intros [= <- <-]. cbn [is_loop is_running is_transport is_controllerEnabled is_lastSent is_queue is_reader setPackets setQueue].
  rewrite G5, G6. split_and!; try done. by rewrite H1.
Qed.

(** Controller states are sent on change and on the keepalive, and not
    otherwise. With the controllers enabled, an iteration sends, in the order of
    the poll and for the first four, exactly the states that differ from the last
    one sent from their position or, when the keepalive is due, all of them,
    before the queued events. It then remembers what it sent: polled again with
    nothing changed but the clock and before the keepalive is due, the next
    iteration sends nothing. *)
Theorem states_sent_on_change now slots devs s ps s' :
  is_loop s = true -> is_running s = true -> is_transport s = true -> is_controllerEnabled s = true ->
  length (is_lastSent s) = 4%nat -> iteration now slots devs s = (ps, s') ->
  let states := take 4 (poll slots devs (is_reader s)) in
  ps = (packControllerState <$> omap id (imap (dueState (keepaliveDue now s) (is_lastSent s)) states)) ++
       (packInputEvent <$> is_queue s) /\
  (forall now2 slots2 devs2,
     Forall2 (fun a b => stateEqual a b = true) states (take 4 (poll slots2 devs2 (is_reader s))) ->
     keepaliveDue now2 s' = false -> fst (iteration now2 slots2 devs2 s') = []).
Proof.
  intros Hloop Hrun Ht Hc Hl E states.
  destruct (iteration_controllers _ _ _ _ _ _ Hloop Hrun Ht Hc Hl E) as (H1 & H2 & H3 & H4 & H5 & H6 & H7 & H8 & H9).
  split; [exact H1|]. intros now2 slots2 devs2 Heq Hk.
  destruct (iteration now2 slots2 devs2 s') as [ps2 s2] eqn:E2.
  destruct (iteration_controllers _ _ _ _ _ _ H3 H4 H5 H6 H7 E2) as (G1 & _). cbn [fst].
  rewrite G1, H8, H9, Hk. cbn [fmap list_fmap]. rewrite app_nil_r. rewrite omap_none; [done|].
  apply list.Forall_forall. intros o Ho. apply list_elem_of_lookup in Ho as [i Hi]. rewrite list_lookup_imap in Hi.
  destruct (take 4 _ !! i) as [b|] eqn:Eb; [|done]. cbn in Hi. apply Some_inj in Hi as <-.
  destruct (Forall2_lookup_r _ _ _ _ _ Heq Eb) as (a & Ea & Hab). unfold dueState.
  by rewrite (stateEqual_trans _ _ _ (H2 i a Ea) Hab).
Qed.

Definition padRaw (buttons : Z) : bytes := replicate 4 0 ++ le_put 2 buttons ++ replicate 10 0.

Lemma states_sent_on_change_witness :
  let s := mkIs true true 0 (mkReader true false None [] [] true) true true [] true false false 0 0 (replicate 4 zeroGcs) 0 in
  let '(ps, s') := iteration 8 [Some (padRaw 4096, 8)] [] s in
  ps = [packControllerState (mkGcs 1 1 4096 0 0 0 0 0 0 8)] /\ fst (iteration 16 [Some (padRaw 4096, 16)] [] s') = [].
Proof.
  intros s. split; [by vm_compute|].
  refine (proj2 (states_sent_on_change 8 [Some (padRaw 4096, 8)] [] s _ _ eq_refl eq_refl eq_refl eq_refl eq_refl eq_refl) 16
    [Some (padRaw 4096, 16)] [] _ _); [|by vm_compute]. vm_compute. constructor; [reflexivity|constructor].
Defined.

(** * What the code does not promise *)

(** A second [start] while running stops the sender; its thread was never joined,
    so starting it again, or destroying it, ends the program. *)
Theorem second_start_kills_the_sender xi di slot now xi2 di2 slot2 now2 :
  exists s1 s2, start xi di slot now newSender = Some (true, s1) /\ start xi2 di2 slot2 now2 s1 = Some (false, s2) /\
    (forall t slots devs, fst (iteration t slots devs s2) = []) /\
    start xi2 di2 slot2 now2 s2 = None /\ destroy s2 = None.
Proof.
  assert (Hd : forall xi di r, fst (discover xi di r) = true).
  { intros x d r. unfold discover. destruct x as [[[g b] sl]|], d as [[es|]|]; done. }
  unfold start at 1. cbn [is_running newSender]. pose proof (Hd xi di newReader) as H1.
  cbn [is_reader setTransport setRunning newSender]. destruct (discover xi di newReader) as [ok r]. cbn [fst] in H1. subst ok.
  cbn. eexists _, _. split; [done|]. split; [done|]. split; [done|]. split; [|done].
  unfold start. cbn. pose proof (Hd xi2 di2 r) as H2. destruct (discover xi2 di2 r) as [ok r2]. cbn in H2. by subst ok.
Qed.

(** An event queued before [stop] and not yet sent goes out in the next session. *)
Theorem queued_event_crosses_sessions :
  let e := mkIev 1 65 0 0 0 0 0 0 in
  fst <$> senderRun [SoStart None None 0 0; SoSetEnabled true true false; SoQueueEvent e; SoStop; SoStart None None 1 50;
                     SoIteration 60 [] []] newSender = Some [packInputEvent e].
Proof. by vm_compute. Qed.

(** Overflow clears the queue, the release of a held key included. *)
Theorem overflow_drops_a_release :
  let down := mkIev 1 65 0 0 0 0 0 0 in
  let up := mkIev 2 65 0 0 0 0 0 0 in
  let move := mkIev 3 0 1 1 0 0 0 0 in
  exists ps s,
    senderRun ([SoStart None None 0 0; SoSetEnabled true true true; SoQueueEvent down; SoIteration 8 [] []; SoQueueEvent up] ++
      replicate 257 (SoQueueEvent move) ++ [SoIteration 16 [] []]) newSender = Some (ps, s) /\
    decodedEvents ps = [down; move].
Proof. eexists _, _. split; [vm_compute; reflexivity|]. by vm_compute. Qed.

(** Packets carry no pad: with two local pads, the neutral state of the second
    follows the pressed button of the first, for the same player. *)
Theorem second_pad_overrides_first :
  let s := mkIs true true 0 (mkReader true false None [] [] true) true true [] true false false 0 0 (replicate 4 zeroGcs) 0 in
  omap unpackInput (fst (iteration 8 [Some (padRaw 4096, 8); Some (padRaw 0, 8)] [] s)) =
    [PState (mkGcs 1 1 4096 0 0 0 0 0 0 8); PState (mkGcs 1 1 0 0 0 0 0 0 0 8)].
Proof. by vm_compute. Qed.

(** A pad that is unplugged is never reported: its last state stays on the host. *)
Theorem unplugged_pad_is_not_reported :
  let s := mkIs true true 0 (mkReader true false None [] [] true) true true [] true false false 0 0 (replicate 4 zeroGcs) 0 in
  let s' := snd (iteration 8 [Some (padRaw 4096, 8)] [] s) in
  forall now devs, fst (iteration now [None; None; None; None] devs s') = [].
Proof. intros s s' now devs. unfold s'. vm_compute snd. unfold iteration, controllersPhase, poll. by cbn. Qed.
