(* ===== verification/Json.v ===== *)
(** The JSON values of nlohmann::json (third_party/nlohmann/json.hpp) and the
    accessors the program uses. A JSON text is parsed and printed by the library;
    those two functions are parameters of the files that use them.

    An object is a [std::map]: a list of bindings in the order of their keys. An
    accessor applied to a value of the wrong type throws. *)

From S2P Require Import Prelude Double.

Inductive json :=
  | JNull
  | JBool (b : bool)
  | JInt (n : Z)        (** a signed 64-bit integer *)
  | JUInt (n : Z)       (** an unsigned 64-bit integer *)
  | JFloat (d : double)
  | JStr (s : bytes)
  | JArr (l : list json)
  | JObj (fields : list (bytes * json)).

(** The result of an accessor: a value, a [json::exception], or a conversion that
    C++ leaves undefined. *)
Inductive jres (A : Type) :=
  | JOk (a : A)
  | JThrow
  | JUndef.
Arguments JOk {A} a.
Arguments JThrow {A}.
Arguments JUndef {A}.

Definition jbind {A B} (r : jres A) (k : A -> jres B) : jres B :=
  match r with JOk a => k a | JThrow => JThrow | JUndef => JUndef end.

Declare Scope json_scope.
Delimit Scope json_scope with json.
Notation "x <~ r ;; k" := (jbind r (fun x => k)) (at level 100, r at next level, right associativity) : json_scope.

Fixpoint fieldOf (key : bytes) (fs : list (bytes * json)) : option json :=
  match fs with
  | [] => None
  | (k, v) :: fs => if bool_decide (k = key) then Some v else fieldOf key fs
  end.

Definition is_object (j : json) : bool := match j with JObj _ => true | _ => false end.

(** [find] on an object; nothing on any other value. *)
Definition jfind (key : bytes) (j : json) : option json :=
  match j with JObj fs => fieldOf key fs | _ => None end.

Definition jcontains (key : bytes) (j : json) : bool := bool_decide (is_Some (jfind key j)).

(** [get<int>]: from any number, and from a boolean. *)
Definition getInt (j : json) : jres Z :=
  match j with
  | JInt n | JUInt n => JOk (i32 n)
  | JFloat d =>
      match dtrunc d with
      | Some v => if (- 2 ^ 31 <=? v) && (v <? 2 ^ 31) then JOk v else JUndef
      | None => JUndef
      end
  | JBool b => JOk (if b then 1 else 0)
  | _ => JThrow
  end.

Definition getString (j : json) : jres bytes := match j with JStr s => JOk s | _ => JThrow end.

(** [value(key, default)]: only objects have it. *)
Definition jvalue {A} (get : json -> jres A) (key : bytes) (def : A) (j : json) : jres A :=
  match j with
  | JObj fs => match fieldOf key fs with Some v => get v | None => JOk def end
  | _ => JThrow
  end.

Definition valueInt : bytes -> Z -> json -> jres Z := jvalue getInt.
Definition valueString : bytes -> bytes -> json -> jres bytes := jvalue getString.

Lemma getInt_range j n : getInt j = JOk n -> - 2 ^ 31 <= n < 2 ^ 31.
Proof.
  assert (Hi : forall z, - 2 ^ 31 <= i32 z < 2 ^ 31).
  { intros z. unfold i32, to_signed. cbv zeta. pose proof (Z.mod_pos_bound z (2 ^ 32) eq_refl).
    destruct (Z.ltb_spec (z mod 2 ^ 32) (2 ^ (32 - 1))); lia. }
  destruct j as [|b|z|z|d|s|l|fs]; cbn [getInt]; try done.
  - intros [= <-]. by destruct b.
  - intros [= <-]. apply Hi.
  - intros [= <-]. apply Hi.
  - destruct (dtrunc d) as [v|]; [|done]. destruct (Z.leb_spec (- 2 ^ 31) v); [|done].
    destruct (Z.ltb_spec v (2 ^ 31)); [|done]. intros [= <-]. lia.
Qed.

(** * Printing and reading back

    The library prints the signed and the unsigned integers alike, and reads an
    integer without a sign as unsigned (scan_number): a document comes back with its
    non-negative integers unsigned. *)

Fixpoint reread (j : json) : json :=
  match j with
  | JInt n => if n <? 0 then JInt n else JUInt n
  | JArr l => JArr (reread <$> l)
  | JObj fs => JObj ((fun kv => (fst kv, reread (snd kv))) <$> fs)
  | _ => j
  end.

(** The order of the keys of a [std::map]. *)
Fixpoint key_lt (a b : bytes) : bool :=
  match a, b with
  | _, [] => false
  | [], _ :: _ => true
  | x :: a, y :: b => (x <? y) || ((x =? y) && key_lt a b)
  end.

Fixpoint ascending (ks : list bytes) : bool :=
  match ks with
  | k :: (k' :: _) as ks => key_lt k k' && ascending ks
  | _ => true
  end.

(** A value the library can hold, without floating numbers: the integers of 64
    bits, the keys of every object in their order. *)
Fixpoint plain_json (j : json) : bool :=
  match j with
  | JNull | JBool _ => true
  | JInt n => (- 2 ^ 63 <=? n) && (n <? 2 ^ 63)
  | JUInt n => (0 <=? n) && (n <? 2 ^ 64)
  | JFloat _ => false
  | JStr _ => true
  | JArr l => forallb plain_json l
  | JObj fs => ascending (fst <$> fs) && forallb (fun kv => plain_json (snd kv)) fs
  end.

(** What the program relies on: a document printed to a file, with the new line
    that [save] adds, is read back. *)
Class JsonLaws (parse : bytes -> option json) (dump : json -> option bytes) : Prop :=
  reads_back : forall j t, plain_json j = true -> dump j = Some t -> parse (t ++ [10]) = Some (reread j).

Lemma fieldOf_reread key fs : fieldOf key ((fun kv => (fst kv, reread (snd kv))) <$> fs) = reread <$> fieldOf key fs.
Proof. induction fs as [|[k v] fs IH]; cbn; [done|]. by destruct (bool_decide (k = key)). Qed.

Lemma is_object_reread j : is_object (reread j) = is_object j.
Proof. destruct j; try done. cbn. by destruct (_ <? _). Qed.

Lemma jfind_reread key j : jfind key (reread j) = reread <$> jfind key j.
Proof. destruct j; try done; cbn; [by destruct (_ <? _)|apply fieldOf_reread]. Qed.

Lemma jcontains_reread key j : jcontains key (reread j) = jcontains key j.
Proof. unfold jcontains. rewrite jfind_reread. apply bool_decide_ext. by destruct (jfind key j). Qed.

(** * A library that keeps the laws

    A notation of its own for values: each starts with its kind, a count is written
    in unary, an integer by its magnitude. Nesting goes to a depth of 64. *)

Module Tagged.

Definition putNat (n : nat) : bytes := replicate n 1 ++ [0].

Fixpoint getNat (bs : bytes) : option (nat * bytes) :=
  match bs with
  | [] => None
  | b :: bs => if b =? 1 then '(n, rest) ← getNat bs; Some (S n, rest) else Some (O, bs)
  end.

Definition putBytes (s : bytes) : bytes := putNat (length s) ++ s.
Definition getBytes (bs : bytes) : option (bytes * bytes) := '(n, bs) ← getNat bs; Some (take n bs, drop n bs).

Fixpoint put (j : json) : bytes :=
  match j with
  | JNull => [0]
  | JBool b => [1; if b then 1 else 0]
  | JInt n => (if n <? 0 then 2 else 3) :: [Z.abs n]
  | JUInt n => [3; n]
  | JFloat _ => []
  | JStr s => 4 :: putBytes s
  | JArr l => 5 :: putNat (length l) ++ concat (put <$> l)
  | JObj fs => 6 :: putNat (length fs) ++ concat ((fun kv => putBytes (fst kv) ++ put (snd kv)) <$> fs)
  end.

(** [n] items. *)
Fixpoint many {A} (item : bytes -> option (A * bytes)) (n : nat) (bs : bytes) : option (list A * bytes) :=
  match n with
  | O => Some ([], bs)
  | S n => '(a, bs) ← item bs; '(l, bs) ← many item n bs; Some (a :: l, bs)
  end.

Definition field (item : bytes -> option (json * bytes)) (bs : bytes) : option ((bytes * json) * bytes) :=
  '(k, bs) ← getBytes bs; '(v, bs) ← item bs; Some ((k, v), bs).

Fixpoint get (fuel : nat) (bs : bytes) : option (json * bytes) :=
  match fuel, bs with
  | S fuel, tag :: bs =>
      if tag =? 0 then Some (JNull, bs)
      else if tag =? 1 then match bs with b :: bs => Some (JBool (b =? 1), bs) | [] => None end
      else if tag =? 2 then match bs with b :: bs => Some (JInt (- b), bs) | [] => None end
      else if tag =? 3 then match bs with b :: bs => Some (JUInt b, bs) | [] => None end
      else if tag =? 4 then '(s, bs) ← getBytes bs; Some (JStr s, bs)
      else if tag =? 5 then '(n, bs) ← getNat bs; '(l, bs) ← many (get fuel) n bs; Some (JArr l, bs)
      else '(n, bs) ← getNat bs; '(fs, bs) ← many (field (get fuel)) n bs; Some (JObj fs, bs)
  | _, _ => None
  end.

Fixpoint depth (j : json) : nat :=
  match j with
  | JArr l => S (foldr (fun j n => Nat.max (depth j) n) O l)
  | JObj fs => S (foldr (fun kv n => Nat.max (depth (snd kv)) n) O fs)
  | _ => 1
  end.

Definition dump (j : json) : option bytes := if plain_json j && (depth j <=? 64)%nat then Some (put j) else None.
Definition parse (bs : bytes) : option json := fst <$> get 64 bs.

Lemma getNat_put n rest : getNat (putNat n ++ rest) = Some (n, rest).
Proof.
  unfold putNat. induction n as [|n IH]; [done|]. cbn [replicate app getNat]. rewrite Z.eqb_refl. by rewrite IH.
Qed.

Lemma getBytes_put s rest : getBytes (putBytes s ++ rest) = Some (s, rest).
Proof. unfold getBytes, putBytes. rewrite <- app_assoc, getNat_put. cbn. by rewrite take_app_length, drop_app_length. Qed.

Lemma many_put {A B} (item : bytes -> option (B * bytes)) (f : A -> bytes) (g : A -> B) l rest :
  Forall (fun a => forall rest, item (f a ++ rest) = Some (g a, rest)) l ->
  many item (length l) (concat (f <$> l) ++ rest) = Some (g <$> l, rest).
Proof.
  induction 1 as [|a l Ha _ IH]; [done|]. cbn [length many fmap list_fmap concat]. rewrite <- app_assoc, Ha.
  cbn [mbind option_bind]. by rewrite IH.
Qed.

Lemma get_put : forall j fuel rest, plain_json j = true -> (depth j <= fuel)%nat -> get fuel (put j ++ rest) = Some (reread j, rest).
Proof.
  fix IH 1. intros j fuel rest Hj Hd. destruct fuel as [|fuel]; [by destruct j; cbn in Hd; lia|].
  destruct j as [|b|n|n|d|s|l|fs]; cbn [plain_json] in Hj; try done.
  - by destruct b.
  - cbn [put reread]. destruct (Z.ltb_spec n 0); cbn; [by rewrite Z.abs_neq, Z.opp_involutive by lia|by rewrite Z.abs_eq by lia].
  - cbn [put app get]. by rewrite getBytes_put.
  - cbn [put app get reread]. rewrite <- app_assoc, getNat_put. cbn [mbind option_bind].
    assert (Hl : Forall (fun j => forall rest, get fuel (put j ++ rest) = Some (reread j, rest)) l).
    { cbn [depth] in Hd. apply le_S_n in Hd. revert Hj Hd. clear -IH. induction l as [|j l IHl]; [constructor|].
      cbn [forallb foldr]. intros [Hj Hl]%andb_prop Hd. constructor; [intros rest; apply IH; [done|lia]|apply IHl; [done|lia]]. }
    by rewrite (many_put _ put reread) by done.
  - cbn [put app get reread]. rewrite <- app_assoc, getNat_put. cbn [mbind option_bind].
    assert (Hl : Forall (fun kv => forall rest, field (get fuel) ((putBytes (fst kv) ++ put (snd kv)) ++ rest) =
      Some ((fst kv, reread (snd kv)), rest)) fs).
    { apply andb_prop in Hj as [_ Hj]. cbn [depth] in Hd. apply le_S_n in Hd. revert Hj Hd. clear -IH.
      induction fs as [|[k j] fs IHl]; [constructor|]. cbn [forallb foldr fst snd]. intros [Hj Hl]%andb_prop Hd.
      constructor; [|apply IHl; [done|lia]]. intros rest. unfold field. cbn [fst snd].
      rewrite <- app_assoc, getBytes_put. cbn [mbind option_bind]. rewrite (IH j fuel rest) by (done || lia). done. }
    by rewrite (many_put _ (fun kv => putBytes (fst kv) ++ put (snd kv)) (fun kv => (fst kv, reread (snd kv)))) by done.
Qed.

#[export] Instance laws : JsonLaws parse dump.
Proof.
  intros j t _. unfold dump, parse. destruct (plain_json j) eqn:Hj; [|done]. cbn [andb].
  destruct (Nat.leb_spec (depth j) 64); [|done]. intros [= <-]. by rewrite get_put.
Qed.

End Tagged.
