(* ===== verification/Config.v ===== *)
(** common/Config.h and Config.cpp: the settings file.

    The JSON text is read and written by the library: [parse] gives the value of a
    text, or nothing when it throws; [dump] gives the text of a value, or nothing
    when it throws (a string that is not UTF-8). The files are their contents. *)

From S2P Require Import Prelude Types Json.

(** * Data *)

Record VideoSettings := mkVideo { v_codec : VideoCodec; v_resolution : Resolution; v_fps : Z; v_bitrateMbps : Z }.
Record AudioSettings := mkAudio { a_bitrateKbps : Z }.
Record InputSettings := mkInput {
  in_controller : bool; in_keyboard : bool; in_mouse : bool; in_vibration : bool; in_requireHostApproval : bool }.
Record NetworkSettings := mkNetwork {
  n_maxBitrateMbps : Z; n_jitterBufferMs : Z; n_listenPort : Z; n_relayEnabled : bool }.
Record ProfileSettings := mkProfile { p_name : bytes }.

Record Config := mkConfig {
  cfg_video : VideoSettings; cfg_audio : AudioSettings; cfg_input : InputSettings;
  cfg_network : NetworkSettings; cfg_profile : ProfileSettings }.

Definition defaultConfig : Config :=
  mkConfig (mkVideo H264 defaultResolution 60 8) (mkAudio 128) (mkInput true false false true true)
    (mkNetwork 15 30 kDefaultListenPort false) (mkProfile []).

(** * Accessors with a default *)

(** [v.get<long long>()] of an integer: an unsigned value above the signed range
    wraps. *)
Definition clampInt (j : json) (key : bytes) (def lo hi : Z) : Z :=
  if negb (is_object j) || negb (jcontains key j) then def
  else
    match jfind key j with
    | Some (JInt n) | Some (JUInt n) =>
        let n := i64 n in
        let n := if n <? lo then lo else n in
        let n := if hi <? n then hi else n in
        i32 n
    | _ => def
    end.

Definition boolOr (j : json) (key : bytes) (def : bool) : bool :=
  if negb (is_object j) || negb (jcontains key j) then def
  else match jfind key j with Some (JBool b) => b | _ => def end.

Definition stringOr (j : json) (key : bytes) (def : bytes) : bytes :=
  if negb (is_object j) || negb (jcontains key j) then def
  else match jfind key j with Some (JStr s) => s | _ => def end.

(** * Sanitizing *)

Definition clamp (v lo hi : Z) : Z := if v <? lo then lo else if hi <? v then hi else v.

Definition audioChoices : list Z := [64; 96; 128; 192].

Definition sanitize (c : Config) : Config :=
  let v := cfg_video c in
  let fps := if existsb (Z.eqb (v_fps v)) fpsPresets then v_fps v else 60 in
  let r := v_resolution v in
  let res :=
    if (res_width r <? 320) || (8192 <? res_width r) || (res_height r <? 240) || (8192 <? res_height r)
    then mkResolution 1920 1080 else r in
  let audio := if existsb (Z.eqb (a_bitrateKbps (cfg_audio c))) audioChoices then a_bitrateKbps (cfg_audio c) else 128 in
  let n := cfg_network c in
  mkConfig (mkVideo (v_codec v) res fps (clamp (v_bitrateMbps v) 2 50)) (mkAudio audio) (cfg_input c)
    (mkNetwork (clamp (n_maxBitrateMbps n) 2 50) (clamp (n_jitterBufferMs n) 10 200) (i32 (clamp (n_listenPort n) 1 65535))
       (n_relayEnabled n))
    (cfg_profile c).

(** * Loading *)

Definition section (root : json) (key : bytes) : json :=
  match jfind key root with Some j => j | None => JObj [] end.

(** The part of [load] after the root is known to be an object. *)
Definition ofJson (root : json) : Config :=
  let video := section root (str "video") in
  let codec := match videoCodecFromString (stringOr video (str "codec") (str "h264")) with Some c => c | None => H264 end in
  let res := match Resolution_parse (stringOr video (str "resolution") (str "1920x1080")) with
             | Some r => r | None => mkResolution 1920 1080 end in
  let audio := section root (str "audio") in
  let input := section root (str "input") in
  let network := section root (str "network") in
  let profile := section root (str "profile") in
  let name := stringOr profile (str "name") [] in
  let name := if (32 <? length name)%nat then take 32 name else name in
  sanitize (mkConfig
    (mkVideo codec res (clampInt video (str "fps") 60 1 1000) (clampInt video (str "bitrateMbps") 8 2 50))
    (mkAudio (clampInt audio (str "bitrateKbps") 128 32 512))
    (mkInput (boolOr input (str "controller") true) (boolOr input (str "keyboard") false)
       (boolOr input (str "mouse") false) (boolOr input (str "vibration") true)
       (boolOr input (str "requireHostApproval") true))
    (mkNetwork (clampInt network (str "maxBitrateMbps") 15 2 50) (clampInt network (str "jitterBufferMs") 30 10 200)
       (clampInt network (str "listenPort") kDefaultListenPort 1 65535) (boolOr network (str "relayEnabled") false))
    (mkProfile name)).

Section File.
Context (parse : bytes -> option json) (dump : json -> option bytes).

(** [load], given the contents of the file: [None] when it does not exist or
    cannot be opened. *)
Definition load (file : option bytes) : Config :=
  match file with
  | None => defaultConfig
  | Some text =>
      match parse text with
      | None => defaultConfig
      | Some root => if negb (is_object root) then defaultConfig else ofJson root
      end
  end.

(** * Saving *)

(** The document [save] builds; the library keeps keys in order. *)
Definition toJson (c : Config) : json :=
  let v := cfg_video c in let i := cfg_input c in let n := cfg_network c in
  JObj [
    (str "audio", JObj [(str "bitrateKbps", JInt (a_bitrateKbps (cfg_audio c))); (str "codec", JStr (str "opus"))]);
    (str "input", JObj [(str "controller", JBool (in_controller i)); (str "keyboard", JBool (in_keyboard i));
       (str "mouse", JBool (in_mouse i)); (str "requireHostApproval", JBool (in_requireHostApproval i));
       (str "vibration", JBool (in_vibration i))]);
    (str "network", JObj [(str "jitterBufferMs", JInt (n_jitterBufferMs n)); (str "listenPort", JInt (n_listenPort n));
       (str "maxBitrateMbps", JInt (n_maxBitrateMbps n)); (str "relayEnabled", JBool (n_relayEnabled n))]);
    (str "profile", JObj [(str "name", JStr (p_name (cfg_profile c)))]);
    (str "video", JObj [(str "bitrateMbps", JInt (v_bitrateMbps v)); (str "codec", JStr (videoCodecString (v_codec v)));
       (str "fps", JInt (v_fps v)); (str "resolution", JStr (Resolution_toString (v_resolution v)))])].

(** What [save] does: reports a failure, throws, or leaves a file. *)
Inductive SaveResult :=
  | SaveFailed
  | SaveThrows
  | Saved (ok : bool) (contents : bytes).

(** [save]: whether the directories could be created, the file opened (which
    empties it) and written. *)
Definition save (dirsOk opened written : bool) (c : Config) : SaveResult :=
  if negb dirsOk then SaveFailed
  else if negb opened then SaveFailed
  else
    match dump (toJson c) with
    | None => SaveThrows
    | Some text => Saved written (text ++ [10])
    end.

End File.

(** * Properties *)

(** The documented ranges. *)
Definition config_ok (c : Config) : Prop :=
  v_fps (cfg_video c) ∈ fpsPresets /\ 2 <= v_bitrateMbps (cfg_video c) <= 50 /\
  (320 <= res_width (v_resolution (cfg_video c)) <= 8192 /\ 240 <= res_height (v_resolution (cfg_video c)) <= 8192) /\
  a_bitrateKbps (cfg_audio c) ∈ audioChoices /\
  2 <= n_maxBitrateMbps (cfg_network c) <= 50 /\ 10 <= n_jitterBufferMs (cfg_network c) <= 200 /\
  1 <= n_listenPort (cfg_network c) <= 65535.

Lemma clamp_range v lo hi : lo <= hi -> lo <= clamp v lo hi <= hi.
Proof. intros H. unfold clamp. destruct (Z.ltb_spec v lo); [lia|]. destruct (Z.ltb_spec hi v); lia. Qed.

Lemma clamp_id v lo hi : lo <= v <= hi -> clamp v lo hi = v.
Proof. intros H. unfold clamp. destruct (Z.ltb_spec v lo); [lia|]. destruct (Z.ltb_spec hi v); lia. Qed.

Lemma i32_id v : - 2 ^ 31 <= v < 2 ^ 31 -> i32 v = v.
Proof.
  intros H. unfold i32, to_signed. cbv zeta.
  destruct (Z.ltb_spec (v mod 2 ^ 32) (2 ^ (32 - 1))); Z.div_mod_to_equations; lia.
Qed.

Lemma existsb_elem (v : Z) l : existsb (Z.eqb v) l = true <-> v ∈ l.
Proof.
  rewrite existsb_exists. split.
  - intros (x & Hx & E). apply Z.eqb_eq in E as ->. by apply list_elem_of_In.
  - intros H. exists v. split; [by apply list_elem_of_In|apply Z.eqb_refl].
Qed.

Lemma sanitize_ok c : config_ok (sanitize c).
Proof.
  unfold config_ok, sanitize. cbn [cfg_video cfg_audio cfg_network v_fps v_bitrateMbps v_resolution a_bitrateKbps
    n_maxBitrateMbps n_jitterBufferMs n_listenPort]. split.
  { destruct (existsb _ fpsPresets) eqn:E; [by apply existsb_elem|]. set_solver. }
  split; [by apply clamp_range|]. split.
  { destruct (_ || _) eqn:E; [by cbn|]. b2p. lia. }
  split. { destruct (existsb _ audioChoices) eqn:E; [by apply existsb_elem|]. set_solver. }
  split; [by apply clamp_range|]. split; [by apply clamp_range|].
  pose proof (clamp_range (n_listenPort (cfg_network c)) 1 65535). rewrite i32_id by lia. lia.
Qed.

Lemma sanitize_id c : config_ok c -> sanitize c = c.
Proof.
  intros (H1 & H2 & [H3 H4] & H5 & H6 & H7 & H8). unfold sanitize. cbv zeta.
  apply existsb_elem in H1, H5. rewrite H1, H5, !clamp_id by lia. rewrite i32_id by lia.
  destruct (_ || _) eqn:E; [b2p; lia|]. by destruct c as [[] [] ? [] []].
Qed.

Lemma default_ok : config_ok defaultConfig.
Proof. assert (E : sanitize defaultConfig = defaultConfig) by by vm_compute. rewrite <- E. apply sanitize_ok. Qed.

(** Whatever the settings file holds (absent, unreadable, not JSON, JSON of
    any shape, numbers of any size), loading gives a configuration within the
    documented ranges, with a name of at most 32 bytes. *)
Theorem load_in_range parse file :
  config_ok (load parse file) /\ (length (p_name (cfg_profile (load parse file))) <= 32)%nat.
Proof.
  unfold load. destruct file as [text|]; [|split; [apply default_ok|cbn; lia]].
  destruct (parse text) as [root|]; [|split; [apply default_ok|cbn; lia]].
  destruct (negb (is_object root)); [split; [apply default_ok|cbn; lia]|]. split; [apply sanitize_ok|].
  unfold ofJson, sanitize. cbv zeta. cbn [cfg_profile p_name].
  destruct (Nat.ltb_spec 32 (length (stringOr (section root (str "profile")) (str "name") []))); [rewrite length_take; lia|lia].
Qed.

(** A configuration the settings window can hold. *)
Definition config_saveable (c : Config) : Prop :=
  config_ok c /\ v_codec (cfg_video c) ∈ [H264; Hevc; Av1] /\ (length (p_name (cfg_profile c)) <= 32)%nat.

Lemma clampInt_field j key n def lo hi :
  jfind key j = Some (JInt n) -> lo <= n <= hi -> - 2 ^ 31 <= lo -> hi < 2 ^ 31 -> clampInt j key def lo hi = n.
Proof.
  intros Hf Hn Hlo Hhi. unfold clampInt, jcontains. rewrite Hf. rewrite bool_decide_true by by eexists.
  assert (Eo : is_object j = true) by (by destruct j). rewrite Eo. cbn [negb orb].
  assert (E : i64 n = n).
  { unfold i64, to_signed. cbv zeta. destruct (Z.ltb_spec (n mod 2 ^ 64) (2 ^ (64 - 1))); Z.div_mod_to_equations; lia. }
  rewrite E. destruct (Z.ltb_spec n lo); [lia|]. destruct (Z.ltb_spec hi n); [lia|]. apply i32_id. lia.
Qed.

(** The document of a saveable configuration reads back as that configuration. *)
Lemma ofJson_toJson c : config_saveable c -> ofJson (toJson c) = c.
Proof.
  intros (Hok & Hcodec & Hname). pose proof Hok as (H1 & H2 & H3 & H4 & H5 & H6 & H7).
  assert (Hfps : 1 <= v_fps (cfg_video c) <= 1000) by (unfold fpsPresets in H1; set_unfold; lia).
  assert (Hab : 32 <= a_bitrateKbps (cfg_audio c) <= 512) by (unfold audioChoices in H4; set_unfold; lia).
  unfold ofJson. cbv zeta.
  set (video := section (toJson c) (str "video")). set (audio := section (toJson c) (str "audio")).
  set (input := section (toJson c) (str "input")). set (network := section (toJson c) (str "network")).
  set (profile := section (toJson c) (str "profile")).
  rewrite (clampInt_field video (str "fps") (v_fps (cfg_video c)) 60 1 1000) by first [reflexivity|lia].
  rewrite (clampInt_field video (str "bitrateMbps") (v_bitrateMbps (cfg_video c)) 8 2 50) by first [reflexivity|lia].
  rewrite (clampInt_field audio (str "bitrateKbps") (a_bitrateKbps (cfg_audio c)) 128 32 512) by first [reflexivity|lia].
  rewrite (clampInt_field network (str "maxBitrateMbps") (n_maxBitrateMbps (cfg_network c)) 15 2 50) by first [reflexivity|lia].
  rewrite (clampInt_field network (str "jitterBufferMs") (n_jitterBufferMs (cfg_network c)) 30 10 200) by first [reflexivity|lia].
  rewrite (clampInt_field network (str "listenPort") (n_listenPort (cfg_network c)) kDefaultListenPort 1 65535) by first [reflexivity|lia].
  change (stringOr video (str "codec") (str "h264")) with (videoCodecString (v_codec (cfg_video c))).
  change (stringOr video (str "resolution") (str "1920x1080")) with (Resolution_toString (v_resolution (cfg_video c))).
  change (stringOr profile (str "name") []) with (p_name (cfg_profile c)).
  change (boolOr input (str "controller") true) with (in_controller (cfg_input c)).
  change (boolOr input (str "keyboard") false) with (in_keyboard (cfg_input c)).
  change (boolOr input (str "mouse") false) with (in_mouse (cfg_input c)).
  change (boolOr input (str "vibration") true) with (in_vibration (cfg_input c)).
  change (boolOr input (str "requireHostApproval") true) with (in_requireHostApproval (cfg_input c)).
  change (boolOr network (str "relayEnabled") false) with (n_relayEnabled (cfg_network c)).
  assert (Ec : videoCodecFromString (videoCodecString (v_codec (cfg_video c))) = Some (v_codec (cfg_video c))).
  { set_unfold in Hcodec. destruct Hcodec as [->|[->|[->|[]]]]; by vm_compute. }
  rewrite Ec, resolution_parse_toString by (destruct H3 as [? ?]; split; lia).
  destruct (Nat.ltb_spec 32 (length (p_name (cfg_profile c)))); [lia|].
  etransitivity; [|apply (sanitize_id c Hok)]. f_equal. by destruct c as [[] [] [] [] []].
Qed.

(** Loading does not tell a signed from an unsigned integer. *)
Lemma clampInt_reread j key def lo hi : clampInt (reread j) key def lo hi = clampInt j key def lo hi.
Proof.
  unfold clampInt. rewrite is_object_reread, jcontains_reread, jfind_reread.
  destruct (_ || _); [done|]. destruct (jfind key j) as [[|b|n|n|d|s|l|fs]|]; cbn; try done. by destruct (n <? 0).
Qed.

Lemma boolOr_reread j key def : boolOr (reread j) key def = boolOr j key def.
Proof.
  unfold boolOr. rewrite is_object_reread, jcontains_reread, jfind_reread.
  destruct (_ || _); [done|]. destruct (jfind key j) as [[|b|n|n|d|s|l|fs]|]; cbn; try done. by destruct (n <? 0).
Qed.

Lemma stringOr_reread j key def : stringOr (reread j) key def = stringOr j key def.
Proof.
  unfold stringOr. rewrite is_object_reread, jcontains_reread, jfind_reread.
  destruct (_ || _); [done|]. destruct (jfind key j) as [[|b|n|n|d|s|l|fs]|]; cbn; try done. by destruct (n <? 0).
Qed.

Lemma section_reread j key : section (reread j) key = reread (section j key).
Proof. unfold section. rewrite jfind_reread. by destruct (jfind key j). Qed.

Lemma ofJson_reread j : ofJson (reread j) = ofJson j.
Proof. unfold ofJson. by rewrite !section_reread, !clampInt_reread, !boolOr_reread, !stringOr_reread. Qed.

(** The document of a saveable configuration is one the library keeps. *)
Lemma plain_toJson c : config_saveable c -> plain_json (toJson c) = true.
Proof.
  intros ((H1 & H2 & _ & H4 & H5 & H6 & H7) & _).
  assert (Hfps : 1 <= v_fps (cfg_video c) <= 1000) by (unfold fpsPresets in H1; set_unfold; lia).
  assert (Hab : 32 <= a_bitrateKbps (cfg_audio c) <= 512) by (unfold audioChoices in H4; set_unfold; lia).
  assert (Hint : forall n, 0 <= n <= 65535 -> (- 2 ^ 63 <=? n) && (n <? 2 ^ 63) = true) by (intros n Hn; lia).
  unfold toJson. cbv zeta. cbn -[Z.leb Z.ltb Z.pow Z.opp videoCodecString Resolution_toString].
  by rewrite !Hint by lia.
Qed.

Lemma saved_text_loads parse dump `{!JsonLaws parse dump} c t :
  config_saveable c -> dump (toJson c) = Some t -> load parse (Some (t ++ [10])) = c.
Proof.
  intros Hc Ht. unfold load. rewrite (reads_back _ _ (plain_toJson c Hc) Ht), is_object_reread.
  cbn [is_object toJson negb]. rewrite ofJson_reread. by apply ofJson_toJson.
Qed.

(** A saved configuration is loaded back unchanged: for every configuration within
    its ranges, with a library that reads back what it prints (non-negative
    integers as unsigned), what [save] wrote gives the same configuration to
    [load]. *)
Theorem save_load_roundtrip parse dump `{!JsonLaws parse dump} c text :
  config_saveable c -> save dump true true true c = Saved true text -> load parse (Some text) = c.
Proof.
  intros Hc. unfold save. cbn [negb]. destruct (dump (toJson c)) as [t|] eqn:Et; [|done]. intros [= <-].
  by eapply saved_text_loads.
Qed.

Lemma save_load_roundtrip_witness :
  match save Tagged.dump true true true defaultConfig with
  | Saved true text => load Tagged.parse (Some text) = defaultConfig
  | _ => False
  end.
Proof.
  assert (Hc : config_saveable defaultConfig) by (split; [apply default_ok|]; split; [by_decision|vm_compute; lia]).
  pose proof (save_load_roundtrip Tagged.parse Tagged.dump (JsonLaws0 := Tagged.laws) defaultConfig) as T.
  assert (Hs : match save Tagged.dump true true true defaultConfig with Saved true _ => True | _ => False end) by (vm_compute; exact I).
  destruct (save Tagged.dump true true true defaultConfig) as [| |[] text]; try done. exact (T text Hc eq_refl).
Defined.

(** A byte string that ends inside a UTF-8 character: its last byte leads a
    sequence of two or more. *)
Definition ends_in_lead_byte (s : bytes) : bool :=
  match rev s with b :: _ => 0xC0 <=? b | [] => false end.

(** Cutting the name to 32 bytes can cut a character: 31 letters and an e-acute
    leave its first byte, a string the library refuses to print. *)
Theorem name_cut_inside_character :
  let name := replicate 31 97 ++ [0xC3; 0xA9] in
  let root := JObj [(str "profile", JObj [(str "name", JStr name)])] in
  ends_in_lead_byte (p_name (cfg_profile (ofJson root))) = true.
Proof. by vm_compute. Qed.

(** An unsigned number beyond the signed range wraps before it is clamped: it ends
    at the lower bound. *)
Theorem huge_number_clamps_low :
  clampInt (JObj [(str "bitrateMbps", JUInt (2 ^ 64 - 1))]) (str "bitrateMbps") 8 2 50 = 2.
Proof. by vm_compute. Qed.
