(* ===== verification/SignalingClient.v ===== *)
(** signaling/SignalingClient.h and SignalingClient.cpp: the client of the
    signaling server, JSON lines over TCP.

    The reader thread is a step per line; a request is two steps, its line and the
    end of its wait. A [json::exception] outside a [try] leaves the reader thread,
    and a [std::thread] assigned to or destroyed while joinable ends the program:
    both are [JThrow]. [parse] and [dump] are the library's. *)

From S2P Require Import Prelude Types Json.

Open Scope json_scope.
Open Scope Z_scope.

(** * Data *)

Record HostRegisterResult := mkHrr {
  hr_sessionId : Z; hr_code : bytes; hr_maxPlayers : Z; hr_hostToken : bytes; hr_relayTcpPort : Z; hr_relayUdpPort : Z }.

Record JoinResult := mkJr {
  jr_sessionId : Z; jr_playerIndex : Z; jr_hostName : bytes; jr_token : bytes; jr_relayTcpPort : Z;
  jr_relayUdpPort : Z; jr_hostPublicAddr : bytes; jr_hostPublicPort : Z }.

Record ClientJoined := mkCj {
  cj_playerIndex : Z; cj_name : bytes; cj_token : bytes; cj_clientPublicAddr : bytes; cj_clientPublicPort : Z }.

Record SignalingClient := mkSc {
  sg_socket : bool; sg_joinable : bool; sg_loop : bool; sg_running : bool; sg_pendingLine : bytes;
  sg_onClientJoined : bool; sg_onClientLeft : bool; sg_onLog : bool }.

Definition newSignaling : SignalingClient := mkSc false false false false [] false false false.

Definition setRunning (b : bool) (s : SignalingClient) : SignalingClient :=
  mkSc (sg_socket s) (sg_joinable s) (sg_loop s) b (sg_pendingLine s) (sg_onClientJoined s) (sg_onClientLeft s) (sg_onLog s).
Definition setSocket (b : bool) (s : SignalingClient) : SignalingClient :=
  mkSc b (sg_joinable s) (sg_loop s) (sg_running s) (sg_pendingLine s) (sg_onClientJoined s) (sg_onClientLeft s) (sg_onLog s).
Definition setThread (j l : bool) (s : SignalingClient) : SignalingClient :=
  mkSc (sg_socket s) j l (sg_running s) (sg_pendingLine s) (sg_onClientJoined s) (sg_onClientLeft s) (sg_onLog s).
Definition setPending (p : bytes) (s : SignalingClient) : SignalingClient :=
  mkSc (sg_socket s) (sg_joinable s) (sg_loop s) (sg_running s) p (sg_onClientJoined s) (sg_onClientLeft s) (sg_onLog s).
Definition setHandlers (j l g : bool) (s : SignalingClient) : SignalingClient :=
  mkSc (sg_socket s) (sg_joinable s) (sg_loop s) (sg_running s) (sg_pendingLine s) j l g.

Inductive SigEvent :=
  | EvClientJoined (c : ClientJoined)
  | EvClientLeft (playerIndex : Z)
  | EvSigLog (message : bytes)
  | EvSigWrite (line : bytes).

(** * Connection *)

(** [disconnect]: the shutdown wakes the reader, which is joined. *)
Definition disconnect (s : SignalingClient) : SignalingClient :=
  if negb (sg_running s) then s
  else
    let s := setRunning false s in
    let s := if sg_joinable s then setThread false false s else s in
    setSocket false s.

(** How the connection attempt ends. *)
Inductive ConnectOutcome := CoResolveFailed | CoTimeout | CoError (message : bytes) | CoConnected.

Definition connect (outcome : ConnectOutcome) (s : SignalingClient) : jres (bool * SignalingClient) :=
  let s := disconnect s in
  match outcome with
  | CoConnected =>
      let s := setRunning true (setSocket true s) in
      if sg_joinable s then JThrow else JOk (true, setThread true true s)
  | _ => JOk (false, setSocket false s)
  end.

(** [~SignalingClient]: [disconnect], then the members. *)
Definition destroy (s : SignalingClient) : jres unit := if sg_joinable (disconnect s) then JThrow else JOk tt.

Definition connected (s : SignalingClient) : bool := sg_running s.

(** The end of [readerLoop], by the end of the stream or because the client no
    longer runs: the thread is over, and joinable still. *)
Definition readerEnds (s : SignalingClient) : SignalingClient := setThread (sg_joinable s) false (setRunning false s).

(** A client whose reader ended by itself: it can be neither destroyed nor connected
    again. *)
Definition lost (s : SignalingClient) : Prop := sg_running s = false /\ sg_joinable s = true.

#[export] Instance lost_dec s : Decision (lost s).
Proof. unfold lost. apply _. Defined.

Lemma destroy_lost s : destroy s = if decide (lost s) then JThrow else JOk tt.
Proof. unfold lost, destroy. destruct s as [so [] l [] p h1 h2 h3]; cbn; case_decide; naive_solver. Qed.

Lemma disconnect_lost s : lost (disconnect s) <-> lost s.
Proof. unfold lost. destruct s as [so [] l [] p h1 h2 h3]; cbn; naive_solver. Qed.

(** [writeLine]: [sent] tells whether the write succeeds. *)
Definition writeLine (sent : bool) (line : bytes) (s : SignalingClient) : bool * list SigEvent :=
  if negb (sg_socket s) || negb (sg_running s) then (false, []) else (sent, [EvSigWrite (line ++ [10])]).

(** * Waiting for a response *)

Inductive WaitResult := WLine (line : bytes) | WNone | WWait.

(** The head of [readLine]'s loop. *)
Definition readEnter (s : SignalingClient) : WaitResult * SignalingClient :=
  match sg_pendingLine s with
  | [] => (WWait, s)
  | line => (WLine line, setPending [] s)
  end.

(** Its condition variable returns, by the deadline or by a notification. *)
Definition readWake (timedOut : bool) (s : SignalingClient) : WaitResult * SignalingClient :=
  if timedOut then (WNone, s)
  else if negb (sg_running s) then (WNone, s)
  else readEnter s.

Section Json.
Context (parse : bytes -> option json) (dump : json -> option bytes).

Definition responseTypes : list bytes :=
  [str "host_registered"; str "joined"; str "join_rejected"; str "error"; str "keepalive_ok"].

Definition isResponseType (type : bytes) : bool := existsb (fun t => bool_decide (type = t)) responseTypes.

(** * Notifications *)

Definition readClientJoined (j : json) : jres ClientJoined :=
  p <~ valueInt (str "player_index") (-1) j ;;
  n <~ valueString (str "name") [] j ;;
  t <~ valueString (str "token") [] j ;;
  match jfind (str "client_public") j with
  | Some pub =>
      a <~ valueString (str "addr") [] pub ;;
      q <~ valueInt (str "port") 0 pub ;;
      JOk (mkCj p n t a q)
  | None => JOk (mkCj p n t [] 0)
  end.

Definition handleNotification (line : bytes) (s : SignalingClient) : jres (list SigEvent * SignalingClient) :=
  match parse line with
  | None => JOk ([], s)
  | Some j =>
      type <~ valueString (str "type") [] j ;;
      if bool_decide (type = str "client_joined") then
        if sg_onClientJoined s then c <~ readClientJoined j ;; JOk ([EvClientJoined c], s) else JOk ([], s)
      else if bool_decide (type = str "client_left") then
        if sg_onClientLeft s then p <~ valueInt (str "player_index") (-1) j ;; JOk ([EvClientLeft p], s) else JOk ([], s)
      else if bool_decide (type = str "session_closed") then
        JOk (if sg_onLog s then [EvSigLog (str "Session closed by host")] else [], setRunning false s)
      else if isResponseType type then JOk ([], s)
      else JOk (if sg_onLog s then [EvSigLog (str "signaling: " ++ type)] else [], s)
  end.

(** * The reader thread *)

(** One turn of [readerLoop]: the loop condition, then a line or the end of the
    stream. *)
Definition readerStep (input : option bytes) (s : SignalingClient) : jres (list SigEvent * SignalingClient) :=
  if negb (sg_loop s) then JOk ([], s)
  else if negb (sg_running s) then JOk ([], readerEnds s)
  else
    match input with
    | None => JOk ([], readerEnds s)
    | Some [] => JOk ([], s)
    | Some line =>
        type <~ (match parse line with Some j => valueString (str "type") [] j | None => JOk [] end) ;;
        if isResponseType type then JOk ([], setPending line s) else handleNotification line s
    end.

(** * Requests *)

Definition hostRegisterRequest (hostName : bytes) : json :=
  JObj [(str "name", JStr hostName); (str "type", JStr (str "host_register"))].

Definition joinRequest (code playerName : bytes) : json :=
  JObj [(str "code", JStr code); (str "name", JStr playerName); (str "type", JStr (str "join"))].

(** The first half of a request: the line, if the library prints it. *)
Definition sendRequest (sent : bool) (req : json) (s : SignalingClient) : jres (bool * list SigEvent) :=
  match dump req with
  | None => JThrow
  | Some line => JOk (writeLine sent line s)
  end.

(** A [json::exception] inside the second half is caught. *)
Definition caught {A} (r : jres (option A)) : jres (option A) := match r with JThrow => JOk None | r => r end.

Definition readHostRegistered (line : bytes) : jres (option HostRegisterResult) := caught (
  match parse line with
  | None => JThrow
  | Some j =>
      type <~ valueString (str "type") [] j ;;
      if negb (bool_decide (type = str "host_registered")) then JOk None
      else
        sid <~ valueInt (str "session_id") 0 j ;;
        code <~ valueString (str "code") [] j ;;
        mp <~ valueInt (str "max_players") 4 j ;;
        tok <~ valueString (str "host_token") [] j ;;
        tcp <~ valueInt (str "relay_tcp_port") 0 j ;;
        udp <~ valueInt (str "relay_udp_port") 0 j ;;
        JOk (Some (mkHrr sid code mp tok tcp udp))
  end).

Definition readJoined (line : bytes) : jres (option JoinResult) := caught (
  match parse line with
  | None => JThrow
  | Some j =>
      type <~ valueString (str "type") [] j ;;
      if negb (bool_decide (type = str "joined")) then JOk None
      else
        sid <~ valueInt (str "session_id") 0 j ;;
        pi <~ valueInt (str "player_index") 0 j ;;
        hn <~ valueString (str "host_name") [] j ;;
        tok <~ valueString (str "token") [] j ;;
        tcp <~ valueInt (str "relay_tcp_port") 0 j ;;
        udp <~ valueInt (str "relay_udp_port") 0 j ;;
        match jfind (str "host_public") j with
        | Some pub =>
            a <~ valueString (str "addr") [] pub ;;
            q <~ valueInt (str "port") 0 pub ;;
            JOk (Some (mkJr sid pi hn tok tcp udp a q))
        | None => JOk (Some (mkJr sid pi hn tok tcp udp [] 0))
        end
  end).

(** The second half: what the wait gave. *)
Definition hostRegisterResponse (w : WaitResult) : jres (option HostRegisterResult) :=
  match w with WLine line => readHostRegistered line | _ => JOk None end.

Definition joinResponse (w : WaitResult) : jres (option JoinResult) :=
  match w with WLine line => readJoined line | _ => JOk None end.

(** The reader over a sequence of lines. *)
Fixpoint readerRun (inputs : list (option bytes)) (s : SignalingClient) : jres (list SigEvent * SignalingClient) :=
  match inputs with
  | [] => JOk ([], s)
  | i :: inputs =>
      r1 <~ readerStep i s ;;
      r2 <~ readerRun inputs (snd r1) ;;
      JOk (fst r1 ++ fst r2, snd r2)
  end.

End Json.

(** * What the reader does with a sequence of lines *)

Section Spec.
Context (parse : bytes -> option json).

Definition lineType (line : bytes) : jres bytes :=
  match parse line with Some j => valueString (str "type") [] j | None => JOk [] end.

Definition isOfType (t line : bytes) : bool :=
  match lineType line with JOk u => bool_decide (u = t) | _ => false end.

Definition isResponse (line : bytes) : bool :=
  match lineType line with JOk t => isResponseType t | _ => false end.

(** A line whose fields have the types the reader expects: any text that is not
    JSON, or an object. *)
Definition tame (line : bytes) : Prop :=
  match parse line with
  | None => True
  | Some j =>
      is_object j = true /\
      (exists t, valueString (str "type") [] j = JOk t) /\
      (exists c, readClientJoined j = JOk c) /\
      (exists p, valueInt (str "player_index") (-1) j = JOk p)
  end.

(** The calls a line makes. *)
Definition eventsOf (s : SignalingClient) (line : bytes) : list SigEvent :=
  match parse line, line with
  | Some j, _ :: _ =>
      match valueString (str "type") [] j with
      | JOk t =>
          if bool_decide (t = str "client_joined") then
            if sg_onClientJoined s then match readClientJoined j with JOk c => [EvClientJoined c] | _ => [] end else []
          else if bool_decide (t = str "client_left") then
            if sg_onClientLeft s then match valueInt (str "player_index") (-1) j with JOk p => [EvClientLeft p] | _ => [] end else []
          else if isResponseType t then []
          else if sg_onLog s then [EvSigLog (str "signaling: " ++ t)] else []
      | _ => []
      end
  | _, _ => []
  end.

(** The response a waiting request finds after a line. *)
Definition pendingAfter (line p : bytes) : bytes :=
  match line with [] => p | _ => if isResponse line then line else p end.

Definition reading (s : SignalingClient) : Prop := sg_loop s = true /\ sg_running s = true.

Lemma setPending_same s : setPending (sg_pendingLine s) s = s.
Proof. by destruct s. Qed.

Lemma isResponseType_other t :
  isResponseType t = true -> t <> str "client_joined" /\ t <> str "client_left" /\ t <> str "session_closed" /\ t <> [].
Proof.
  unfold isResponseType. rewrite existsb_exists. intros (u & Hu & ->%bool_decide_eq_true).
  cbn [responseTypes In] in Hu. destruct_or!; subst; try done; repeat split; by apply bool_decide_unpack.
Qed.

Lemma reader_line s line :
  reading s -> tame line -> isOfType (str "session_closed") line = false ->
  readerStep parse (Some line) s = JOk (eventsOf s line, setPending (pendingAfter line (sg_pendingLine s)) s).
Proof.
  intros [Hl Hr] Ht Hc. unfold readerStep. rewrite Hl, Hr. cbn [negb].
  unfold tame, isOfType, eventsOf, pendingAfter, isResponse, lineType, handleNotification in *.
  destruct line as [|b line]; [cbv iota; rewrite setPending_same; by destruct (parse [])|].
  destruct (parse (b :: line)) as [j|] eqn:Ej; [|cbn [jbind]; change (isResponseType []) with false; cbv iota; by rewrite setPending_same].
  destruct Ht as (_ & (t & Et) & (c & Ec) & (p & Ep)). rewrite Et, Ec, Ep in *. cbn [jbind].
  destruct (isResponseType t) eqn:Er.
  - destruct (isResponseType_other t Er) as (? & ? & _ & _). by rewrite !bool_decide_eq_false_2.
  - rewrite Hc, setPending_same.
    by repeat case_bool_decide; destruct (sg_onClientJoined s), (sg_onClientLeft s), (sg_onLog s).
Qed.

Lemma reading_setPending p s : reading s -> reading (setPending p s).
Proof. done. Qed.

Lemma reader_lines lines s :
  reading s -> Forall (fun l => tame l /\ isOfType (str "session_closed") l = false) lines ->
  readerRun parse (Some <$> lines) s =
    JOk (flat_map (eventsOf s) lines, setPending (fold_left (fun p l => pendingAfter l p) lines (sg_pendingLine s)) s).
Proof.
  intros Hs Hall. revert s Hs. induction Hall as [|l lines [Ht Hc] Hall IH]; intros s Hs.
  - cbn. by rewrite setPending_same.
  - cbn [fmap list_fmap readerRun flat_map fold_left]. rewrite (reader_line s l Hs Ht Hc). cbn [jbind snd fst].
    by rewrite (IH _ (reading_setPending _ s Hs)).
Qed.

Lemma pending_only_notifications lines p :
  Forall (fun l => isResponse l = false) lines -> fold_left (fun q l => pendingAfter l q) lines p = p.
Proof.
  intros H. induction H as [|l lines Hl H IH] in p |- *; [done|]. cbn [fold_left]. rewrite IH.
  unfold pendingAfter. destruct l; [done|]. by rewrite Hl.
Qed.

(** While a request waits, the notifications around its response reach their handlers, in the order of the
    lines and only there; the request gets the response line itself, once, and no later request gets it again. *)
Theorem response_reaches_the_caller before response after s :
  reading s -> sg_pendingLine s = [] ->
  Forall (fun l => tame l /\ isOfType (str "session_closed") l = false) (before ++ response :: after) ->
  Forall (fun l => isResponse l = false) (before ++ after) ->
  response <> [] -> isResponse response = true ->
  readEnter s = (WWait, s) /\
  readerRun parse (Some <$> before ++ response :: after) s =
    JOk (flat_map (eventsOf s) (before ++ after), setPending response s) /\
  readWake false (setPending response s) = (WLine response, s) /\
  readEnter s = (WWait, s).
Proof.
  intros Hs Hp Hall [Hb Ha]%Forall_app Hne Hr.
  assert (Hw : readEnter s = (WWait, s)) by (unfold readEnter; by rewrite Hp).
  assert (Hev : eventsOf s response = []).
  { revert Hr. unfold isResponse, eventsOf, lineType. destruct (parse response) as [j|]; [|done].
    destruct response; [done|]. destruct (valueString _ _ j) as [t| |]; try done.
    intros Hr. destruct (isResponseType_other t Hr) as (? & ? & _ & _). by rewrite !bool_decide_eq_false_2, Hr. }
  split_and!; [done| |  |done].
  - rewrite reader_lines by done. rewrite fold_left_app, !flat_map_app. cbn [fold_left flat_map].
    rewrite Hev, !pending_only_notifications by done. unfold pendingAfter. rewrite Hr. by destruct response.
  - destruct Hs as [_ Hr']. unfold readWake. change (sg_running (setPending response s)) with (sg_running s).
    rewrite Hr'. unfold readEnter. cbn [negb setPending sg_pendingLine]. destruct response; [done|].
    destruct s; cbn in Hp |- *. by subst.
Qed.

(** A response that arrives when its request has given up stays, and the next request takes it for its own. *)
Theorem late_response_answers_the_next response s :
  reading s -> sg_pendingLine s = [] -> response <> [] -> tame response -> isResponse response = true ->
  exists s', readWake true s = (WNone, s) /\ readerStep parse (Some response) s = JOk ([], s') /\
    readEnter s' = (WLine response, s).
Proof.
  intros Hs Hp Hne Ht Hr. exists (setPending response s).
  assert (Hc : isOfType (str "session_closed") response = false).
  { revert Hr. unfold isResponse, isOfType. destruct (lineType response) as [t| |]; try done.
    intros Hr. destruct (isResponseType_other t Hr) as (_ & _ & ? & _). by apply bool_decide_eq_false. }
  assert (Hev : eventsOf s response = []).
  { revert Hr. unfold isResponse, eventsOf, lineType. destruct (parse response) as [j|]; [|done].
    destruct response; [done|]. destruct (valueString _ _ j) as [t| |]; try done.
    intros Hr. destruct (isResponseType_other t Hr) as (? & ? & _ & _). by rewrite !bool_decide_eq_false_2, Hr. }
  split_and!; [done| |].
  - rewrite reader_line by done. rewrite Hev. unfold pendingAfter. rewrite Hr. by destruct response.
  - unfold readEnter. cbn [setPending sg_pendingLine]. destruct response; [done|]. destruct s; cbn in *. by subst.
Qed.

(** A line that is JSON but not an object ends the program: [value] throws outside the [try] of the reader
    thread. *)
Theorem non_object_line_is_fatal line j s :
  reading s -> line <> [] -> parse line = Some j -> is_object j = false -> readerStep parse (Some line) s = JThrow.
Proof.
  intros [Hl Hr] Hne Hp Hj. unfold readerStep. rewrite Hl, Hr. cbn [negb]. destruct line; [done|].
  rewrite Hp. by destruct j.
Qed.

(** After the server closes the connection or the session, the reader thread is over but not joined: destroying
    the client, or connecting it again, ends the program. *)
Theorem remote_close_is_fatal input s :
  reading s -> sg_joinable s = true ->
  (input = None \/
   exists line, input = Some line /\ line <> [] /\ isOfType (str "session_closed") line = true) ->
  exists evs s', readerStep parse input s = JOk (evs, s') /\ disconnect s' = s' /\
    destroy s' = JThrow /\ connect CoConnected s' = JThrow.
Proof.
  intros [Hl Hr] Hj Hin. unfold readerStep. rewrite Hl, Hr. cbn [negb].
  destruct Hin as [->|(line & -> & Hne & Ht)].
  - eexists _, _. split; [done|]. destruct s; cbn in *; subst. done.
  - destruct line as [|b line]; [done|]. unfold isOfType, lineType in Ht. unfold handleNotification.
    destruct (parse (b :: line)) as [j|]; [|done].
    destruct (valueString (str "type") [] j) as [t| |]; try done. apply bool_decide_eq_true in Ht. subst t.
    cbn [jbind]. eexists _, _. split; [done|]. destruct s; cbn in *; subst. done.
Qed.

End Spec.

(** * A session with a small parser *)

Definition sampleLines : list (bytes * json) :=
  [(str "R", JObj [(str "code", JStr (str "57EA6A6Q")); (str "type", JStr (str "host_registered"))]);
   (str "J", JObj [(str "name", JStr (str "Ana")); (str "player_index", JInt 1); (str "type", JStr (str "client_joined"))]);
   (str "L", JObj [(str "player_index", JInt 1); (str "type", JStr (str "client_left"))])].

Definition sampleParse (line : bytes) : option json := fieldOf line sampleLines.

Definition sampleClient : SignalingClient := setHandlers true true true (setThread true true (setRunning true (setSocket true newSignaling))).

Lemma tame_JObj line fs :
  sampleParse line = Some (JObj fs) ->
  (exists t, valueString (str "type") [] (JObj fs) = JOk t) ->
  (exists c, readClientJoined (JObj fs) = JOk c) ->
  (exists p, valueInt (str "player_index") (-1) (JObj fs) = JOk p) -> tame sampleParse line.
Proof. intros H. unfold tame. by rewrite H. Defined.

Lemma response_reaches_the_caller_witness :
  readerRun sampleParse (Some <$> [str "J"; str "R"; str "L"]) sampleClient =
    JOk ([EvClientJoined (mkCj 1 (str "Ana") [] [] 0); EvClientLeft 1], setPending (str "R") sampleClient).
Proof.
  pose proof (response_reaches_the_caller sampleParse [str "J"] (str "R") [str "L"] sampleClient) as H.
  assert (Ht : forall l, In l [str "J"; str "R"; str "L"] -> tame sampleParse l).
  { intros l [<-|[<-|[<-|[]]]]; (eapply tame_JObj; [reflexivity|eexists; reflexivity..]). }
  destruct H as (_ & Hrun & _).
  - by split.
  - reflexivity.
  - repeat (apply Forall_cons; [split; [apply Ht; cbn; tauto|reflexivity]|]). apply Forall_nil; exact I.
  - repeat (apply Forall_cons; [reflexivity|]). apply Forall_nil; exact I.
  - discriminate.
  - reflexivity.
  - exact Hrun.
Defined.
