(* ===== verification/HostStreamer.v ===== *)
(** host/HostStreamer.h and HostStreamer.cpp: the media pipeline of one client.

    The capture thread is a step per iteration of [captureLoop]; what the calls of
    an iteration return is an argument ([LoopIo]). The streamer owns a transport, a
    capture object, a video and an audio encoder, each with the operations of its
    own file. [running_] and [restartRequested_] are read where the code reads them.

    A [std::thread] that is assigned to or destroyed while joinable ends the
    program ([Terminated]); so does a null pointer ([NullPointer]). *)

From S2P Require Import Prelude Types Double UdpHeader UdpCrypto UdpTransport InputProtocol AudioCodec VideoEncoder ScreenCapture.

Open Scope Z_scope.

(** * Data *)

Record StreamConfig := mkStream {
  sc_codec : VideoCodec; sc_width : Z; sc_height : Z; sc_fps : Z; sc_bitrateKbps : Z; sc_gop : Z;
  sc_audioBitrateKbps : Z; sc_audioEnabled : bool; sc_captureMode : CaptureMode; sc_outputIndex : Z; sc_windowHwnd : Z;
  sc_gameName : bytes }.

Definition defaultStream : StreamConfig := mkStream H264 1920 1080 60 8000 120 128 true CaptureMonitor 0 0 [].

(** The capture thread: not started or joined, in its loop with a number of
    consecutive failures, or out of its loop and still joinable. *)
Inductive CaptureThread := NoThread | Looping (failures : Z) | LoopEnded.

#[export] Instance CaptureThread_eq_dec : EqDecision CaptureThread.
Proof. solve_decision. Defined.

Record StreamStats := mkStats {
  sw_frames : Z; sw_bytes : Z; sw_startMs : double; sw_fps : double; sw_kbps : double }.

Inductive SResult (A : Type) :=
  | SOk (a : A)
  | Terminated
  | NullPointer
  | TransportUB.
Arguments SOk {A} a.
Arguments Terminated {A}.
Arguments NullPointer {A}.
Arguments TransportUB {A}.

Section Streamer.
Context {Endpoint : Type} `{EqDecision Endpoint} (noEndpoint : Endpoint) {Sink : Type} `{UdpCryptoSink Sink}
  {F : Type} `{AvFifo F} (img : ImageLayout).

Local Abbreviation Transport := (@UdpTransport Endpoint Sink).

Record HostStreamer := mkHs {
  hst_cfg : StreamConfig; hst_sessionId : Z; hst_playerIndex : Z; hst_capture : option DisplayCapture;
  hst_encoder : option VideoEncoder; hst_transport : option Transport; hst_audioCapture : bool;
  hst_audioEncoder : option (AudioEncoderOpus F); hst_thread : CaptureThread; hst_running : bool;
  hst_restartRequested : bool; hst_stats : StreamStats; hst_forcedEncoder : bytes }.

Inductive StreamEvent :=
  | EvStreamStart (udpPort sessionId : Z)     (** the [onStreamStart] callback *)
  | EvStreamError (message : bytes)           (** the error callback *)
  | EvUdp (e : @Event Endpoint).              (** what the transport emits *)

Definition newStreamer : HostStreamer :=
  mkHs defaultStream 0 0 None None None false None NoThread false false (mkStats 0 0 dzero dzero dzero) [].

Definition setConfig (c : StreamConfig) (h : HostStreamer) : HostStreamer :=
  mkHs c (hst_sessionId h) (hst_playerIndex h) (hst_capture h) (hst_encoder h) (hst_transport h) (hst_audioCapture h)
    (hst_audioEncoder h) (hst_thread h) (hst_running h) (hst_restartRequested h) (hst_stats h) (hst_forcedEncoder h).
Definition setIds (sid player : Z) (h : HostStreamer) : HostStreamer :=
  mkHs (hst_cfg h) sid player (hst_capture h) (hst_encoder h) (hst_transport h) (hst_audioCapture h)
    (hst_audioEncoder h) (hst_thread h) (hst_running h) (hst_restartRequested h) (hst_stats h) (hst_forcedEncoder h).
Definition setCapture (c : option DisplayCapture) (h : HostStreamer) : HostStreamer :=
  mkHs (hst_cfg h) (hst_sessionId h) (hst_playerIndex h) c (hst_encoder h) (hst_transport h) (hst_audioCapture h)
    (hst_audioEncoder h) (hst_thread h) (hst_running h) (hst_restartRequested h) (hst_stats h) (hst_forcedEncoder h).
Definition setEncoder (e : option VideoEncoder) (h : HostStreamer) : HostStreamer :=
  mkHs (hst_cfg h) (hst_sessionId h) (hst_playerIndex h) (hst_capture h) e (hst_transport h) (hst_audioCapture h)
    (hst_audioEncoder h) (hst_thread h) (hst_running h) (hst_restartRequested h) (hst_stats h) (hst_forcedEncoder h).
Definition setTransport (t : option Transport) (h : HostStreamer) : HostStreamer :=
  mkHs (hst_cfg h) (hst_sessionId h) (hst_playerIndex h) (hst_capture h) (hst_encoder h) t (hst_audioCapture h)
    (hst_audioEncoder h) (hst_thread h) (hst_running h) (hst_restartRequested h) (hst_stats h) (hst_forcedEncoder h).
Definition setAudio (c : bool) (e : option (AudioEncoderOpus F)) (h : HostStreamer) : HostStreamer :=
  mkHs (hst_cfg h) (hst_sessionId h) (hst_playerIndex h) (hst_capture h) (hst_encoder h) (hst_transport h) c
    e (hst_thread h) (hst_running h) (hst_restartRequested h) (hst_stats h) (hst_forcedEncoder h).
Definition setThread (t : CaptureThread) (h : HostStreamer) : HostStreamer :=
  mkHs (hst_cfg h) (hst_sessionId h) (hst_playerIndex h) (hst_capture h) (hst_encoder h) (hst_transport h) (hst_audioCapture h)
    (hst_audioEncoder h) t (hst_running h) (hst_restartRequested h) (hst_stats h) (hst_forcedEncoder h).
Definition setRunning (b : bool) (h : HostStreamer) : HostStreamer :=
  mkHs (hst_cfg h) (hst_sessionId h) (hst_playerIndex h) (hst_capture h) (hst_encoder h) (hst_transport h) (hst_audioCapture h)
    (hst_audioEncoder h) (hst_thread h) b (hst_restartRequested h) (hst_stats h) (hst_forcedEncoder h).
Definition setRestart (b : bool) (h : HostStreamer) : HostStreamer :=
  mkHs (hst_cfg h) (hst_sessionId h) (hst_playerIndex h) (hst_capture h) (hst_encoder h) (hst_transport h) (hst_audioCapture h)
    (hst_audioEncoder h) (hst_thread h) (hst_running h) b (hst_stats h) (hst_forcedEncoder h).
Definition setStats (s : StreamStats) (h : HostStreamer) : HostStreamer :=
  mkHs (hst_cfg h) (hst_sessionId h) (hst_playerIndex h) (hst_capture h) (hst_encoder h) (hst_transport h) (hst_audioCapture h)
    (hst_audioEncoder h) (hst_thread h) (hst_running h) (hst_restartRequested h) s (hst_forcedEncoder h).
Definition setForced (f : bytes) (h : HostStreamer) : HostStreamer :=
  mkHs (hst_cfg h) (hst_sessionId h) (hst_playerIndex h) (hst_capture h) (hst_encoder h) (hst_transport h) (hst_audioCapture h)
    (hst_audioEncoder h) (hst_thread h) (hst_running h) (hst_restartRequested h) (hst_stats h) f.

(** * Starting *)

(** What the calls of [start] return. *)
Record StartIo := mkSio {
  si_bind : option Z; si_bindErr : bytes; si_capture : InitIo; si_library : Library; si_nowMs : double; si_nowNs : Z;
  si_opus : AudioCodec.InitOutcome; si_opusFrame : Z; si_opusMemory : bytes; si_audioStart : bool }.

Definition encoderParams (cfg : StreamConfig) (kbps : Z) (forced : bytes) : VideoEncoderParams :=
  mkVep (sc_codec cfg) (sc_width cfg) (sc_height cfg) (sc_fps cfg) kbps
    (if 0 <? sc_gop cfg then sc_gop cfg else i32 (sc_fps cfg * 2)) forced.

(** The transport of a client before it binds: session, channel, control callback. *)
Definition freshTransport (sid : Z) (crypto : option Sink) : Transport :=
  let t := newTransport noEndpoint in
  let c := tr_config t in
  let t := withConfig (mkConfig sid (cf_dropUnknownRemote c) (cf_autoKeyframeRequest c) (cf_videoJitterTargetMs c)
                         (cf_audioJitterTargetMs c) (cf_inputCb c) true) t in
  match crypto with Some s => setCryptoSink (Some s) t | None => t end.

(** Destroying a transport: its io thread has to be joined, which it cannot do
    itself. *)
Definition destroyTransport (onIoThread : bool) (t : Transport) : SResult unit :=
  if onIoThread && tr_socket t then Terminated else SOk tt.

Definition errOr (err what : bytes) : bytes := match err with [] => what | _ => err end.

(** Audio starts after the stream; when it cannot, the stream goes on without. *)
Definition startAudio (io : StartIo) (h : HostStreamer) : HostStreamer :=
  if negb (sc_audioEnabled (hst_cfg h)) then h
  else
    match AudioCodec.init (si_opus io) (si_opusFrame io) (si_opusMemory io) with
    | inl _ => setAudio true None h
    | inr enc => if si_audioStart io then setAudio true (Some enc) h else setAudio false None h
    end.

(** [err] is the caller's string; the result is what [start] returns and the
    string. *)
Definition start (cfg : StreamConfig) (sid player : Z) (crypto : option Sink) (io : StartIo) (err : bytes) (h : HostStreamer)
    : SResult (bool * bytes * list StreamEvent * HostStreamer) :=
  if hst_running h then SOk (false, str "already running", [], setRunning false h)
  else
    let h := setIds sid player (setConfig cfg (setRunning true h)) in
    let '(bound, (evs, t)) := bind (si_bind io) [] (si_nowNs io) (freshTransport sid crypto) in
    if negb bound then
      SOk (false, errOr (si_bindErr io) (str "could not bind the UDP media socket"), EvUdp <$> evs, setRunning false h)
    else
      let h := setTransport (Some t) h in
      let '(ri, cap) := ScreenCapture.init true (sc_outputIndex cfg) (si_capture io) newCapture in
      match ri with
      | InitNullErr => NullPointer
      | InitFailed e =>
          let '(evs', _) := UdpTransport.stop false [] (si_nowNs io) t in
          SOk (false, errOr e (str "screen capture initialization failed"), EvUdp <$> (evs ++ evs'),
               setRunning false (setCapture None (setTransport None h)))
      | InitDone =>
          let h := setCapture (Some cap) h in
          let '(ok, e, enc) := VideoEncoder.init (si_library io) (encoderParams cfg (sc_bitrateKbps cfg) (hst_forcedEncoder h)) newEncoder in
          if negb ok then
            let '(evs', _) := UdpTransport.stop false [] (si_nowNs io) t in
            SOk (false, errOr e (str "video encoder initialization failed"), EvUdp <$> (evs ++ evs'),
                 setRunning false (setCapture None (setTransport None h)))
          else
            let h := setStats (mkStats 0 0 (si_nowMs io) dzero dzero) (setEncoder (Some enc) h) in
            let h := setTransport (Some (sendStreamStart (si_nowNs io) t)) h in
            let h := startAudio io h in
            let h := setRestart false h in
            if bool_decide (hst_thread h = NoThread) then
              SOk (true, err, (EvUdp <$> evs) ++ [EvStreamStart (tr_localPort t) sid], setThread (Looping 0) h)
            else Terminated
      end.

(** * Stopping *)

Definition isNone {A} (o : option A) : bool := match o with Some _ => false | None => true end.

Definition isTornDown (h : HostStreamer) : bool :=
  negb (hst_audioCapture h) && isNone (hst_audioEncoder h) && isNone (hst_capture h) && isNone (hst_encoder h) &&
  isNone (hst_transport h).

(** [stop]. The join waits for the capture loop, which sees [running_] cleared. On
    the transport's io thread the transport neither joins nor closes itself, and its
    last reference is dropped there. *)
Definition stop (onIoThread : bool) (oks : list bool) (nowNs : Z) (h : HostStreamer)
    : SResult (list StreamEvent * HostStreamer) :=
  let wasRunning := hst_running h in
  let h := setRunning false h in
  let h := if wasRunning then
             match hst_transport h with Some t => setTransport (Some (sendStreamStop nowNs t)) h | None => h end
           else h in
  let h := setThread NoThread h in
  if negb wasRunning && isTornDown h then SOk ([], h)
  else
    let h := setAudio false None h in
    let h := setEncoder None h in
    match hst_transport h with
    | None => SOk ([], setCapture None h)
    | Some t =>
        let '(evs, t) := UdpTransport.stop onIoThread oks nowNs t in
        match destroyTransport onIoThread t with
        | SOk _ => SOk (EvUdp <$> evs, setCapture None (setTransport None h))
        | _ => Terminated
        end
    end.

(** [~HostStreamer]: [stop], then the members. *)
Definition destroy (onIoThread : bool) (oks : list bool) (nowNs : Z) (h : HostStreamer) : SResult (list StreamEvent) :=
  match stop onIoThread oks nowNs h with
  | SOk (evs, _) => SOk evs
  | Terminated => Terminated
  | NullPointer => NullPointer
  | TransportUB => TransportUB
  end.

(** * The capture thread *)

(** What the calls of one iteration return. *)
Record LoopIo := mkLio {
  li_restart : Library; li_recovery : Library; li_area : ClientArea; li_capture : CaptureIo; li_reinit : InitIo;
  li_encode : EncodeIo; li_nowMs : double; li_apply : Library }.

Definition kMaxConsecutiveCaptureFailures : Z := 10.

(** The time one capture may wait. *)
Definition captureTimeoutMs (fps : Z) : Z :=
  let v := Z.quot 1000 (Z.max 1 fps) * 2 in if v <? 8 then 8 else if 100 <? v then 100 else v.

(** [performEncoderRestart]. *)
Definition performEncoderRestart (lib : Library) (h : HostStreamer) : bool * bytes * HostStreamer :=
  if negb (hst_running h) || isNone (hst_capture h) then (false, str "not running", h)
  else
    let kbps := match hst_encoder h with Some e => vp_bitrateKbps (ve_p e) | None => sc_bitrateKbps (hst_cfg h) end in
    let '(ok, err, enc) := VideoEncoder.init lib (encoderParams (hst_cfg h) kbps (hst_forcedEncoder h)) newEncoder in
    if ok then (true, [], setEncoder (Some enc) h) else (false, err, h).

(** The software encoder the loop falls back to. *)
Definition recoveryEncoder (codec : VideoCodec) : bytes := if codec =? Hevc then str "libx265" else str "libx264".

(** The head of an iteration: a requested restart, then one attempt with the software encoder. *)
Definition restartPhase (io : LoopIo) (h : HostStreamer) : bool * list StreamEvent * HostStreamer :=
  if negb (hst_restartRequested h) then (true, [], h)
  else
    let h := setRestart false h in
    let '(ok, err, h) := performEncoderRestart (li_restart io) h in
    if ok then (true, [], h)
    else
      let evs := [EvStreamError (str "Encoder restart failed: " ++ err)] in
      let h := setForced (recoveryEncoder (sc_codec (hst_cfg h))) h in
      let '(ok, err, h) := performEncoderRestart (li_recovery io) h in
      if ok then (true, evs, h)
      else (false, evs ++ [EvStreamError (str "Encoder recovery failed: " ++ err)], setRunning false h).

Definition setMode (m : CaptureMode) (c : StreamConfig) : StreamConfig :=
  mkStream (sc_codec c) (sc_width c) (sc_height c) (sc_fps c) (sc_bitrateKbps c) (sc_gop c) (sc_audioBitrateKbps c)
    (sc_audioEnabled c) m (sc_outputIndex c) (sc_windowHwnd c) (sc_gameName c).

(** In window mode the crop is computed for every frame; without a window the whole
    monitor is captured from then on. *)
Definition cropPhase (area : ClientArea) (cap : DisplayCapture) (h : HostStreamer) : DisplayCapture * HostStreamer :=
  if bool_decide (sc_captureMode (hst_cfg h) = CaptureWindow) && negb (sc_windowHwnd (hst_cfg h) =? 0) then
    let '(ok, cap) := updateWindowCrop area cap in
    if ok then (cap, h) else (clearCrop cap, setConfig (setMode CaptureMonitor (hst_cfg h)) h)
  else (cap, h).

Definition failureMessage (err : bytes) : bytes :=
  str "Screen capture failed repeatedly: " ++ err ++
  str ". The stream has been stopped (another capture app or a secure desktop may be blocking it).".

(** The rolling window of one second. *)
Definition d1000 : double := dofZ 1000.
Definition d8 : double := dofZ 8.

Definition measure (packets : list EncodedPacket) (nowMs : double) (s : StreamStats) : StreamStats :=
  let frames := u64 (sw_frames s + zlen packets) in
  let bs := foldl (fun n p => u64 (n + zlen (ep_data p))) (sw_bytes s) packets in
  let windowMs := dsub nowMs (sw_startMs s) in
  if dleb d1000 windowMs then
    mkStats 0 0 nowMs (ddiv (dmul (dofZ frames) d1000) windowMs)
      (ddiv (ddiv (dmul (dofZ bs) d8) d1000) (ddiv windowMs d1000))
  else mkStats frames bs (sw_startMs s) (sw_fps s) (sw_kbps s).

Definition sendPackets (timestampUs : Z) (packets : list EncodedPacket) (t : Transport) : Transport :=
  foldl (fun t p => sendFrame UdpVideo (ep_keyframe p) (ep_data p) (u64 (timestampUs * 1000)) t) t packets.

(** A frame was captured: encode it, send it, measure, apply a changed bitrate. *)
Definition framePhase (io : LoopIo) (f : CaptureFrame) (enc : VideoEncoder) (t : Transport) (h : HostStreamer) : HostStreamer :=
  let r := encode img (cf_width f) (cf_height f) (cf_stride f) (li_encode io) [] enc in
  if negb (er_ok r) then setRestart true (setEncoder (Some (er_enc r)) h)
  else
    let h := setTransport (Some (sendPackets (cf_timestampUs f) (er_out r) t)) h in
    let h := setStats (measure (er_out r) (li_nowMs io) (hst_stats h)) h in
    setEncoder (Some (if ve_bitrateDirty (er_enc r) then snd (applyBitrateIfDirty (li_apply io) (er_enc r)) else er_enc r)) h.

(** The rest of an iteration, with a running loop of [failures] failures. *)
Definition capturePhase (io : LoopIo) (failures : Z) (cap : DisplayCapture) (enc : VideoEncoder) (t : Transport)
    (h : HostStreamer) : SResult (list StreamEvent * HostStreamer) :=
  let '(cap, h) := cropPhase (li_area io) cap h in
  match capture true (li_capture io) cap with
  | (CapNullErr, _) | (CapNullStaging, _) => NullPointer
  | (CapTimedOut, cap) => SOk ([], setCapture (Some cap) h)
  | (CapError err, cap) =>
      let failures := failures + 1 in
      if kMaxConsecutiveCaptureFailures <=? failures then
        SOk ([EvStreamError (failureMessage err)], setThread LoopEnded (setRunning false (setCapture (Some cap) h)))
      else
        match ScreenCapture.init false (sc_outputIndex (hst_cfg h)) (li_reinit io) cap with
        | (InitNullErr, _) => NullPointer
        | (_, cap) => SOk ([], setThread (Looping failures) (setCapture (Some cap) h))
        end
  | (CapFrame f, cap) => SOk ([], framePhase io f enc t (setThread (Looping 0) (setCapture (Some cap) h)))
  end.

(** One iteration of [captureLoop]. *)
Definition iteration (io : LoopIo) (h : HostStreamer) : SResult (list StreamEvent * HostStreamer) :=
  match hst_thread h with
  | Looping failures =>
      if negb (hst_running h) then SOk ([], setThread LoopEnded h)
      else
        let '(go, evs, h) := restartPhase io h in
        if negb go then SOk (evs, setThread LoopEnded h)
        else
          match hst_encoder h, hst_transport h, hst_capture h with
          | Some enc, Some t, Some cap =>
              match capturePhase io failures cap enc t h with
              | SOk (evs', h) => SOk (evs ++ evs', h)
              | r => r
              end
          | _, _, _ => SOk (evs, setThread LoopEnded h)
          end
  | _ => SOk ([], h)
  end.

Fixpoint iterations (ios : list LoopIo) (h : HostStreamer) : SResult (list StreamEvent * HostStreamer) :=
  match ios with
  | [] => SOk ([], h)
  | io :: ios =>
      match iteration io h with
      | SOk (evs, h) =>
          match iterations ios h with SOk (evs', h) => SOk (evs ++ evs', h) | r => r end
      | r => r
      end
  end.

(** * Requests *)

Definition requestKeyframe (h : HostStreamer) : HostStreamer :=
  match hst_encoder h with Some e => setEncoder (Some (VideoEncoder.requestKeyframe e)) h | None => h end.

Definition setCfgBitrate (kbps : Z) (c : StreamConfig) : StreamConfig :=
  mkStream (sc_codec c) (sc_width c) (sc_height c) (sc_fps c) kbps (sc_gop c) (sc_audioBitrateKbps c)
    (sc_audioEnabled c) (sc_captureMode c) (sc_outputIndex c) (sc_windowHwnd c) (sc_gameName c).

Definition setBitrate (kbps : Z) (h : HostStreamer) : HostStreamer :=
  let h := match hst_encoder h with Some e => setEncoder (Some (VideoEncoder.setBitrate kbps e)) h | None => h end in
  setConfig (setCfgBitrate kbps (hst_cfg h)) h.

Definition requestEncoderRestart (h : HostStreamer) : HostStreamer := if hst_running h then setRestart true h else h.

Definition softwareEncoder (codec : VideoCodec) : bytes :=
  if codec =? Hevc then str "libx265" else if codec =? Av1 then str "libsvtav1" else str "libx264".

Definition requestSoftwareEncoder (h : HostStreamer) : HostStreamer :=
  let h := setForced (softwareEncoder (sc_codec (hst_cfg h))) h in
  if hst_running h then setRestart true h else h.

Definition onTransport (f : Transport -> Transport) (h : HostStreamer) : HostStreamer :=
  match hst_transport h with Some t => setTransport (Some (f t)) h | None => h end.

Definition setClientEndpoint (resolved : option Endpoint) (h : HostStreamer) : HostStreamer :=
  onTransport (fun t => snd (setPeerByName resolved t)) h.

Definition setInputHandler (h : HostStreamer) : HostStreamer :=
  onTransport (fun t =>
    let c := tr_config t in
    withConfig (mkConfig (cf_sessionId c) (cf_dropUnknownRemote c) (cf_autoKeyframeRequest c) (cf_videoJitterTargetMs c)
      (cf_audioJitterTargetMs c) true (cf_controlCb c)) t) h.

Definition sendRumble (player lm rm nowNs : Z) (h : HostStreamer) : HostStreamer :=
  onTransport (sendSmall UdpControl (packRumble (mkRumble 82 (u8 lm) (u8 rm) (u8 player))) nowNs) h.

(** The audio thread's callback: a block of samples goes through the encoder to the
    transport. *)
Definition audioBlock (samples : list Z) (frames : nat) (ios : list AudioCodec.FrameIo) (ms : double) (h : HostStreamer) : HostStreamer :=
  match hst_audioEncoder h, hst_transport h with
  | Some enc, Some t =>
      match AudioCodec.encode (Some samples) frames ios ms enc with
      | AudioCodec.EncodeOk pkts _ enc =>
          setTransport (Some (foldl (fun t p => sendFrame UdpAudio false (ap_data p) (u64 (ap_ptsUs p * 1000)) t) t pkts))
            (setAudio (hst_audioCapture h) (Some enc) h)
      | AudioCodec.EncodeError _ _ _ enc => setAudio (hst_audioCapture h) (Some enc) h
      end
  | _, _ => h
  end.

(** * The transport's callbacks *)

(** [handleUdpControl], on the io thread. *)
Definition handleUdpControl (type : UdpType) (oks : list bool) (nowNs : Z) (h : HostStreamer) : SResult (list StreamEvent * HostStreamer) :=
  if type =? UdpKeyframeRequest then SOk ([], requestKeyframe h)
  else if type =? UdpStreamStart then SOk ([], h)
  else if type =? UdpStreamStop then stop true oks nowNs h
  else SOk ([], h).

(** A datagram arrives on the io thread. *)
Fixpoint callbacks (evs : list (@Event Endpoint)) (oks : list bool) (nowNs : Z) (h : HostStreamer)
    : SResult (list StreamEvent * HostStreamer) :=
  match evs with
  | [] => SOk ([], h)
  | e :: evs =>
      match (match e with EvControl type _ => handleUdpControl type oks nowNs h | _ => SOk ([EvUdp e], h) end) with
      | SOk (out, h) => match callbacks evs oks nowNs h with SOk (out', h) => SOk (out ++ out', h) | r => r end
      | r => r
      end
  end.

Definition receive (buf : bytes) (from : Endpoint) (ck : Clock) (oks : list bool) (nowNs : Z) (h : HostStreamer)
    : SResult (list StreamEvent * HostStreamer) :=
  match hst_transport h with
  | None => SOk ([], h)
  | Some t =>
      match handleDatagram buf from ck t with
      | HandleUB _ => TransportUB
      | UdpTransport.Handles evs t => callbacks evs oks nowNs (setTransport (Some t) h)
      end
  end.

(** * Statistics *)

Record HostStreamStats := mkHss {
  hss_captureMs : double; hss_encodeMs : double; hss_audioEncodeMs : double; hss_fps : double; hss_kbps : double;
  hss_udp : option UdpStatsSnapshot; hss_encoderName : bytes; hss_framesEncoded : Z }.

Definition stats (h : HostStreamer) : HostStreamStats :=
  mkHss (match hst_capture h with Some c => dc_avgMs c | None => dzero end)
    (match hst_encoder h with Some e => es_avgEncodeMs (ve_stats e) | None => dzero end)
    (match hst_audioEncoder h with Some a => ae_avgEncodeMs a | None => dzero end)
    (sw_fps (hst_stats h)) (sw_kbps (hst_stats h)) (UdpTransport.stats <$> hst_transport h)
    (match hst_encoder h with Some e => ve_encoderName e | None => [] end)
    (match hst_encoder h with Some e => es_framesEncoded (ve_stats e) | None => 0 end).

End Streamer.
Arguments HostStreamer Endpoint Sink F : clear implicits.
Arguments StreamEvent Endpoint : clear implicits.
