(* ===== verification/HostStreamerSpec.v ===== *)
(** What the host's streamer guarantees: start and stop, the end of the capture
    loop, encoder recovery; and where the code does otherwise. *)

From S2P Require Import Prelude Types Double UdpHeader UdpCrypto UdpTransport UdpTransportSpec InputProtocol AudioCodec VideoEncoder ScreenCapture HostStreamer.

Open Scope Z_scope.

Section Spec.
Context {Endpoint : Type} `{EqDecision Endpoint} (noEndpoint : Endpoint) {Sink : Type} `{UdpCryptoSink Sink}
  {F : Type} `{AvFifo F} (img : ImageLayout).

Implicit Types h : HostStreamer Endpoint Sink F.

(** * Start and stop *)

(** A streamer that owns nothing. *)
Definition idle h : Prop := hst_running h = false /\ hst_thread h = NoThread /\ isTornDown h = true.

Lemma tornDown_fields h :
  isTornDown h = true <-> hst_audioCapture h = false /\ hst_audioEncoder h = None /\ hst_capture h = None /\
    hst_encoder h = None /\ hst_transport h = None.
Proof.
  unfold isTornDown, isNone. destruct (hst_audioCapture h), (hst_audioEncoder h), (hst_capture h), (hst_encoder h), (hst_transport h);
    cbn; split; try done; by intros (? & ? & ? & ? & ?).
Qed.

(** The fields of a streamer that [stop] leaves without a transport. *)
Lemma emptied_idle h :
  hst_running h = false -> hst_thread h = NoThread ->
  idle (setCapture None (setTransport None (setEncoder None (setAudio false None h)))).
Proof. intros Hr Ht. unfold idle. cbn. rewrite Hr, Ht. by split_and!. Qed.

Lemma stop_off_thread oks nowNs h :
  exists evs h', stop false oks nowNs h = SOk (evs, h') /\ idle h'.
Proof.
  unfold stop. cbv zeta.
  set (h1 := setThread NoThread _). assert (Hr : hst_running h1 = false) by (subst h1; by destruct (hst_running h), (hst_transport (setRunning false h))).
  assert (Ht : hst_thread h1 = NoThread) by done. clearbody h1.
  destruct (negb (hst_running h) && isTornDown h1) eqn:Htd.
  { apply andb_true_iff in Htd as [_ Htd]. exists [], h1. by split. }
  change (hst_transport (setEncoder None (setAudio false None h1))) with (hst_transport h1).
  destruct (hst_transport h1) as [t|] eqn:Et.
  - destruct (UdpTransport.stop false oks nowNs t) as [evs t']. unfold destroyTransport. cbn [andb].
    eexists _, _. split; [reflexivity|]. by apply emptied_idle.
  - eexists _, _. split; [reflexivity|]. split; [exact Hr|]. split; [exact Ht|]. apply tornDown_fields. cbn. by rewrite Et.
Qed.

Lemma stop_idle onIo oks nowNs h : idle h -> stop onIo oks nowNs h = SOk ([], h).
Proof.
  intros (Hr & Ht & Htd). unfold stop. rewrite Hr. cbn [negb andb].
  assert (Hh : setThread NoThread (setRunning false h) = h) by (destruct h; cbn in *; by subst).
  by rewrite Hh, Htd.
Qed.

Lemma bind_result assigned oks nowNs (t : @UdpTransport Endpoint Sink) ok evs t' :
  bind assigned oks nowNs t = (ok, (evs, t')) -> tr_tasks t = [] ->
  evs = [] /\ tr_secure t' = tr_secure t /\
  match assigned with Some port => ok = true /\ tr_localPort t' = port | None => ok = false end.
Proof.
  intros Hb Ht. unfold bind, UdpTransport.stop in Hb. cbn [tr_tasks withSocket] in Hb. rewrite Ht in Hb. cbn [length drainTasks] in Hb.
  destruct assigned; apply pair_equal_spec in Hb as [<- Hb]; apply pair_equal_spec in Hb as [<- <-]; done.
Qed.

Lemma freshTransport_secure sid (crypto : option Sink) :
  tr_secure (freshTransport noEndpoint sid crypto) = crypto /\ tr_tasks (freshTransport noEndpoint sid crypto) = [].
Proof. by destruct crypto. Qed.

(** Everything a running streamer needs. *)
Definition complete h : Prop :=
  exists n, hst_thread h = Looping n /\ 0 <= n < kMaxConsecutiveCaptureFailures /\
    is_Some (hst_transport h) /\ is_Some (hst_encoder h) /\ is_Some (hst_capture h).

Lemma small_keeps_secure ty data now (t : @UdpTransport Endpoint Sink) : tr_secure (sendSmall ty data now t) = tr_secure t.
Proof. unfold sendSmall. by destruct (negb (canSend t)). Qed.

(** What [start] returns, from a streamer that owns nothing. *)
Definition start_outcome sid crypto (ok : bool) (evs : list (StreamEvent Endpoint)) h : Prop :=
  if ok then
    hst_running h = true /\ complete h /\
    exists t, hst_transport h = Some t /\ tr_secure t = crypto /\ evs = [EvStreamStart (tr_localPort t) sid]
  else idle h /\ Forall (fun e => exists e', e = EvUdp e') evs.

Lemma startAudio_keeps io h :
  let h' := startAudio io h in
  hst_running h' = hst_running h /\ hst_thread h' = hst_thread h /\ hst_transport h' = hst_transport h /\
  hst_encoder h' = hst_encoder h /\ hst_capture h' = hst_capture h.
Proof.
  unfold startAudio. cbv zeta. destruct (negb _); [done|]. destruct (AudioCodec.init _ _ _); [done|].
  by destruct (si_audioStart io).
Qed.

Lemma all_EvUdp (evs : list (@Event Endpoint)) : Forall (fun e : StreamEvent Endpoint => exists e', e = EvUdp e') (EvUdp <$> evs).
Proof. apply Forall_fmap, List.Forall_forall. intros e _. by exists e. Qed.


(** [stop] called from any thread but the transport's leaves a streamer that owns nothing, whatever state it was
    in, and a further call does nothing. *)
Theorem stop_releases_everything oks nowNs h :
  exists evs h', stop false oks nowNs h = SOk (evs, h') /\ idle h' /\
    forall onIo oks' nowNs', stop onIo oks' nowNs' h' = SOk ([], h').
Proof.
  destruct (stop_off_thread oks nowNs h) as (evs & h' & Hs & Hi). exists evs, h'. split_and!; try done.
  intros. by apply stop_idle.
Qed.

(** * The end of the capture loop *)

(** An iteration whose capture fails, and whose re-initialisation does not get as far as a refused duplication. *)
Definition failing (io : LoopIo) : Prop :=
  (exists hr, ca_first (li_capture io) = AcqFailed hr) /\ (ii_dup (li_reinit io) = DupOk \/ ii_dup (li_reinit io) = DupNoInterface).

Lemma capture_fails e io hr c : ca_first io = AcqFailed hr -> exists err, capture e io c = (CapError err, c).
Proof. intros H1. unfold capture. rewrite H1. destruct (negb _); by eexists. Qed.

Lemma reinit_result i io c :
  ii_dup io = DupOk \/ ii_dup io = DupNoInterface ->
  exists r c', ScreenCapture.init false i io c = (r, c') /\ r <> InitNullErr.
Proof.
  intros Hd. destruct (ScreenCapture.init false i io c) as [r c'] eqn:E. exists r, c'. split; [done|]. intros ->.
  revert E. unfold ScreenCapture.init, duplicateOutput. destruct Hd as [-> | ->]; repeat case_match; congruence.
Qed.

(** What the crop phase leaves alone. *)
Lemma cropPhase_keeps area cap h :
  let h' := snd (cropPhase area cap h) in
  hst_running h' = hst_running h /\ hst_thread h' = hst_thread h /\ hst_transport h' = hst_transport h /\
  hst_encoder h' = hst_encoder h /\ hst_restartRequested h' = hst_restartRequested h /\ hst_capture h' = hst_capture h.
Proof. unfold cropPhase. cbv zeta. destruct (_ && _); [|done]. by destruct (updateWindowCrop area cap) as [[] c]. Qed.

Definition live (n : Z) h : Prop :=
  hst_running h = true /\ hst_thread h = Looping n /\ hst_restartRequested h = false /\
  is_Some (hst_transport h) /\ is_Some (hst_encoder h) /\ is_Some (hst_capture h).

Lemma failing_iteration io n h :
  failing io -> live n h ->
  exists h', if kMaxConsecutiveCaptureFailures <=? n + 1
    then (exists msg, iteration img io h = SOk ([EvStreamError msg], h')) /\ hst_running h' = false /\ hst_thread h' = LoopEnded
    else iteration img io h = SOk ([], h') /\ live (n + 1) h'.
Proof.
  intros [[hr Hc] Hd] (Hr & Ht & Hrr & [t Etr] & [e Een] & [c Eca]). unfold iteration. rewrite Ht, Hr. cbn [negb].
  unfold restartPhase. rewrite Hrr. cbn [negb]. rewrite Een, Etr, Eca. unfold capturePhase.
  pose proof (cropPhase_keeps (li_area io) c h) as Hk. destruct (cropPhase (li_area io) c h) as [cap h1]. cbn [snd] in Hk.
  destruct Hk as (K1 & K2 & K3 & K4 & K5 & K6). destruct (capture_fails true (li_capture io) hr cap Hc) as [err ->].
  destruct (kMaxConsecutiveCaptureFailures <=? n + 1).
  - eexists. split; [by eexists|]. done.
  - destruct (reinit_result (sc_outputIndex (hst_cfg h1)) (li_reinit io) cap Hd) as (r & cap' & -> & Hn).
    destruct r; [..|done]; (eexists; split; [done|]); unfold live; cbn; rewrite K1, K3, K4, K5, Hr, Hrr, Etr, Een; by split_and!.
Qed.

Lemma ended_iterations ios h : hst_thread h = LoopEnded -> iterations img ios h = SOk ([], h).
Proof.
  intros Ht. induction ios as [|io ios IH]; [done|]. cbn [iterations]. unfold iteration. rewrite Ht. by rewrite IH.
Qed.

(** C24: a capture that keeps failing does not keep the thread. Take a running capture loop with [n] failures in a row
    behind it and no encoder restart pending, and iterations in which [AcquireNextFrame] fails with an error other than
    a lost access and the re-initialisation is not refused by [DuplicateOutput] (such a refusal ends the program, by
    [refused_duplication_ends_the_program]): after the tenth failure in a row the loop is over, the streamer is not
    running, and the error was reported exactly once; before it, nothing is reported and the loop goes on. *)
Theorem failures_end_the_loop ios n h :
  Forall failing ios -> live n h -> 0 <= n < kMaxConsecutiveCaptureFailures ->
  exists evs h', iterations img ios h = SOk (evs, h') /\
    if kMaxConsecutiveCaptureFailures <=? n + zlen ios
    then (exists msg, evs = [EvStreamError msg]) /\ hst_running h' = false /\ hst_thread h' = LoopEnded
    else evs = [] /\ live (n + zlen ios) h'.
Proof.
  unfold kMaxConsecutiveCaptureFailures. intros Hios. revert n h.
  induction Hios as [|io ios Hio Hios IH]; intros n h Hl Hn; cbn [iterations length].
  - eexists _, _. split; [done|]. rewrite Z.add_0_r. destruct (Z.leb_spec 10 n); [lia|]. by split.
  - destruct (failing_iteration io n h Hio Hl) as [h1 Hi]. unfold kMaxConsecutiveCaptureFailures in Hi.
    destruct (Z.leb_spec 10 (n + 1)) as [Hge|Hlt].
    + destruct Hi as ([msg ->] & Hr & Ht). rewrite ended_iterations by done. eexists _, _. split; [done|].
      destruct (Z.leb_spec 10 (n + Z.of_nat (S (length ios)))); [|lia]. split; [by exists msg|done].
    + destruct Hi as [-> Hl1]. destruct (IH (n + 1) h1 Hl1 ltac:(lia)) as (evs & h2 & -> & Hrest).
      eexists _, _. split; [done|]. replace (n + Z.of_nat (S (length ios))) with (n + 1 + zlen ios) by lia. done.
Qed.

(** * Encoder recovery *)

Lemma performEncoderRestart_result lib h e :
  hst_running h = true -> is_Some (hst_capture h) -> hst_encoder h = Some e ->
  let p := encoderParams (hst_cfg h) (vp_bitrateKbps (ve_p e)) (hst_forcedEncoder h) in
  match performEncoderRestart lib h with
  | (true, _, h') => exists e', h' = setEncoder (Some e') h /\ ve_p e' = p /\ usable lib p (ve_encoderName e') /\
      ve_encoderName e' ∈ candidatesOf p /\ ve_keyframeRequested e' = true /\ h_ctx (ve_h e') = true
  | (false, _, h') => h' = h /\ Forall (fun c => ~ usable lib p c) (candidatesOf p)
  end.
Proof.
  intros Hr [c Hc] He p. unfold performEncoderRestart. rewrite Hr, Hc, He. cbn [negb isNone orb]. fold p.
  pose proof (init_opens_first_usable lib p newEncoder) as Hi. destruct (VideoEncoder.init lib p newEncoder) as [[[] err] e'].
  - destruct Hi as (pre & n & post & Hcand & _ & Hu & Hn & Hp & Hctx & _ & Hk & _). exists e'. rewrite Hn. split_and!; try done.
    rewrite Hcand. apply list_elem_of_In, in_elt.
  - by destruct Hi.
Qed.

(** A requested encoder restart ends in one of three ways: the encoder is replaced by a usable one, at the bitrate
    of the old one and with a keyframe first; or that fails, is reported, and the same happens with the recovery
    encoder preferred; or no candidate of either attempt is usable, both failures are reported and the stream is over.
    The request is always consumed. *)
Theorem encoder_recovery io h e :
  hst_running h = true -> hst_restartRequested h = true -> is_Some (hst_capture h) -> hst_encoder h = Some e ->
  let p forced := encoderParams (hst_cfg h) (vp_bitrateKbps (ve_p e)) forced in
  let recovery := recoveryEncoder (sc_codec (hst_cfg h)) in
  match restartPhase io h with
  | (true, evs, h') =>
      hst_running h' = true /\ hst_restartRequested h' = false /\
      exists e', hst_encoder h' = Some e' /\ ve_keyframeRequested e' = true /\ h_ctx (ve_h e') = true /\
        vp_bitrateKbps (ve_p e') = vp_bitrateKbps (ve_p e) /\
        ((evs = [] /\ ve_p e' = p (hst_forcedEncoder h) /\ usable (li_restart io) (ve_p e') (ve_encoderName e')) \/
         (length evs = 1%nat /\ ve_p e' = p recovery /\ usable (li_recovery io) (ve_p e') (ve_encoderName e')))
  | (false, evs, h') =>
      hst_running h' = false /\ hst_restartRequested h' = false /\ length evs = 2%nat /\
      Forall (fun c => ~ usable (li_restart io) (p (hst_forcedEncoder h)) c) (candidatesOf (p (hst_forcedEncoder h))) /\
      Forall (fun c => ~ usable (li_recovery io) (p recovery) c) (candidatesOf (p recovery))
  end.
Proof.
  intros Hr Hq Hc He p recovery. unfold restartPhase. rewrite Hq. cbn [negb]. set (h0 := setRestart false h).
  pose proof (performEncoderRestart_result (li_restart io) h0 e Hr Hc He) as H1. cbv zeta in H1.
  destruct (performEncoderRestart (li_restart io) h0) as [[[] err] h1].
  { destruct H1 as (e' & -> & Hp & Hu & _ & Hk & Hx). split; [exact Hr|]. split; [done|]. exists e'.
    split_and!; try done; [by rewrite Hp|]. left. rewrite Hp. by split_and!. }
  destruct H1 as [-> Hall]. set (h2 := setForced recovery h0).
  change (setForced (recoveryEncoder (sc_codec (hst_cfg h0))) h0) with h2.
  pose proof (performEncoderRestart_result (li_recovery io) h2 e Hr Hc He) as H2. cbv zeta in H2.
  destruct (performEncoderRestart (li_recovery io) h2) as [[[] err'] h3].
  - destruct H2 as (e' & -> & Hp & Hu & _ & Hk & Hx). split; [exact Hr|]. split; [done|]. exists e'.
    split_and!; try done; [by rewrite Hp|]. right. rewrite Hp. by split_and!.
  - destruct H2 as [-> Hall2]. by split_and!.
Qed.

(** * A running streamer has its parts *)

(** A call of a public function, of a callback, or an iteration of the thread. *)
Inductive StreamerCall :=
  | CStart (cfg : StreamConfig) (sid player : Z) (crypto : option Sink) (io : StartIo) (err : bytes)
  | CStop (onIoThread : bool) (oks : list bool) (nowNs : Z)
  | CIteration (io : LoopIo)
  | CRequestKeyframe
  | CSetBitrate (kbps : Z)
  | CRequestRestart
  | CRequestSoftware
  | CSetEndpoint (resolved : option Endpoint)
  | CSetInputHandler
  | CSendRumble (player lm rm nowNs : Z)
  | CAudioBlock (samples : list Z) (frames : nat) (ios : list AudioCodec.FrameIo) (ms : double)
  | CReceive (buf : bytes) (from : Endpoint) (ck : Clock) (oks : list bool) (nowNs : Z).

Definition dropErr (r : SResult (bool * bytes * list (StreamEvent Endpoint) * HostStreamer Endpoint Sink F)) :
    SResult (list (StreamEvent Endpoint) * HostStreamer Endpoint Sink F) :=
  match r with SOk (_, _, evs, h) => SOk (evs, h) | Terminated => Terminated | NullPointer => NullPointer | TransportUB => TransportUB end.

Definition streamerStep (c : StreamerCall) h : SResult (list (StreamEvent Endpoint) * HostStreamer Endpoint Sink F) :=
  match c with
  | CStart cfg sid player crypto io err => dropErr (start noEndpoint cfg sid player crypto io err h)
  | CStop onIo oks now => stop onIo oks now h
  | CIteration io => iteration img io h
  | CRequestKeyframe => SOk ([], requestKeyframe h)
  | CSetBitrate kbps => SOk ([], setBitrate kbps h)
  | CRequestRestart => SOk ([], requestEncoderRestart h)
  | CRequestSoftware => SOk ([], requestSoftwareEncoder h)
  | CSetEndpoint r => SOk ([], setClientEndpoint r h)
  | CSetInputHandler => SOk ([], setInputHandler h)
  | CSendRumble p lm rm now => SOk ([], sendRumble p lm rm now h)
  | CAudioBlock ss n ios ms => SOk ([], audioBlock ss n ios ms h)
  | CReceive buf from ck oks now => receive buf from ck oks now h
  end.

Inductive reachable : HostStreamer Endpoint Sink F -> Prop :=
  | reach_new : reachable newStreamer
  | reach_step c h evs h' : reachable h -> streamerStep c h = SOk (evs, h') -> reachable h'.

Definition streamer_ok h : Prop := hst_running h = true -> complete h.

(** A change that keeps the thread and what exists. *)
Lemma ok_same_parts h h' :
  streamer_ok h -> hst_running h' = hst_running h -> hst_thread h' = hst_thread h ->
  (is_Some (hst_transport h) -> is_Some (hst_transport h')) -> (is_Some (hst_encoder h) -> is_Some (hst_encoder h')) ->
  (is_Some (hst_capture h) -> is_Some (hst_capture h')) -> streamer_ok h'.
Proof.
  intros Hok Hr Ht H1 H2 H3 Hrun. rewrite Hr in Hrun. destruct (Hok Hrun) as (n & Hth & Hn & A & B & C).
  exists n. rewrite Ht. split; [done|]. split; [done|]. auto.
Qed.

Lemma restartPhase_ok io h go evs h' :
  restartPhase io h = (go, evs, h') -> streamer_ok h ->
  streamer_ok h' /\ hst_thread h' = hst_thread h /\ (go = true -> hst_running h' = hst_running h) /\ (go = false -> hst_running h' = false).
Proof.
  assert (Hp : forall lib h1 ok err h2, performEncoderRestart lib h1 = (ok, err, h2) ->
            h2 = h1 \/ exists e, h2 = setEncoder (Some e) h1).
  { intros lib h1 ok err h2. unfold performEncoderRestart. destruct (_ || _); [intros [= <- <- <-]; by left|].
    destruct (VideoEncoder.init _ _ _) as [[[] er] e]; intros [= <- <- <-]; [right; by eexists|by left]. }
  intros H1 Hok. unfold restartPhase in H1. destruct (hst_restartRequested h); [|by injection H1 as <- <- <-]. cbn [negb] in H1.
  destruct (performEncoderRestart (li_restart io) (setRestart false h)) as [[ok err] h1] eqn:E1.
  assert (K1 : hst_running h1 = hst_running h /\ hst_thread h1 = hst_thread h /\ streamer_ok h1).
  { destruct (Hp _ _ _ _ _ E1) as [->|[e ->]]; (split; [done|split; [done|]]); (eapply ok_same_parts; [exact Hok|done..|]); done. }
  destruct K1 as (K1 & K2 & K3). destruct ok; [injection H1 as <- <- <-; by split_and!|].
  destruct (performEncoderRestart (li_recovery io) _) as [[ok err2] h2] eqn:E2.
  assert (K4 : hst_running h2 = hst_running h /\ hst_thread h2 = hst_thread h /\ streamer_ok h2).
  { destruct (Hp _ _ _ _ _ E2) as [->|[e ->]]; (split; [done|split; [done|]]); (eapply ok_same_parts; [exact K3|done..|]); done. }
  destruct K4 as (K4 & K5 & K6). destruct ok; injection H1 as <- <- <-; split_and!; done.
Qed.

Lemma capturePhase_ok io n cap e t h evs h' :
  capturePhase img io n cap e t h = SOk (evs, h') -> 0 <= n < kMaxConsecutiveCaptureFailures -> hst_thread h = Looping n ->
  streamer_ok h -> streamer_ok h'.
Proof.
  unfold capturePhase. pose proof (cropPhase_keeps (li_area io) cap h) as Hk.
  destruct (cropPhase (li_area io) cap h) as [cap' h1]. cbn [snd] in Hk. destruct Hk as (K1 & K2 & K3 & K4 & K5 & K6).
  intros Hc Hn Ht Hok. assert (Hok1 : streamer_ok h1) by (eapply ok_same_parts; [exact Hok|congruence..]).
  assert (Hgo : forall m c h2, 0 <= m < kMaxConsecutiveCaptureFailures -> hst_running h2 = hst_running h1 ->
            (is_Some (hst_transport h1) -> is_Some (hst_transport h2)) -> (is_Some (hst_encoder h1) -> is_Some (hst_encoder h2)) ->
            hst_thread h2 = Looping m -> hst_capture h2 = Some c -> streamer_ok h2).
  { intros m c h2 Hm R1 R2 R3 R4 R5 Hrun. rewrite R1 in Hrun. destruct (Hok1 Hrun) as (n' & _ & _ & A & B & _).
    exists m. rewrite R4, R5. split; [done|]. split; [done|]. by auto. }
  destruct (capture true (li_capture io) cap') as [[f| |err| |] cap2]; try done.
  - injection Hc as <- <-. unfold framePhase. destruct (negb (er_ok _)); (eapply (Hgo 0 cap2); [done|done|done|done|done|done]).
  - injection Hc as <- <-. eapply (Hgo n cap2); [done|done|done|done| |done]. cbn. congruence.
  - destruct (Z.leb_spec kMaxConsecutiveCaptureFailures (n + 1)).
    + injection Hc as <- <-. intros Hrun. done.
    + destruct (ScreenCapture.init false _ _ _) as [r cap3]. destruct r; try done; injection Hc as <- <-;
        (eapply (Hgo (n + 1) cap3); [unfold kMaxConsecutiveCaptureFailures in *; lia|done..]).
Qed.

Lemma iteration_ok io h evs h' : iteration img io h = SOk (evs, h') -> streamer_ok h -> streamer_ok h'.
Proof.
  intros Hi Hok. unfold iteration in Hi. destruct (hst_thread h) as [|n|] eqn:Ht; [by injection Hi as <- <-| |by injection Hi as <- <-].
  destruct (hst_running h) eqn:Hr; cbn [negb] in Hi.
  2:{ injection Hi as <- <-. intros Hrun. cbn in Hrun. congruence. }
  destruct (restartPhase io h) as [[go evs1] h1] eqn:E1. destruct (restartPhase_ok _ _ _ _ _ E1 Hok) as (Hok1 & Ht1 & Hg & Hng).
  destruct go; cbn [negb] in Hi.
  2:{ injection Hi as <- <-. intros Hrun. cbn in Hrun. rewrite Hng in Hrun by done. done. }
  destruct (Hok1 ltac:(by rewrite Hg)) as (n' & Hn' & Hb & [t Et] & [e Ee] & [c Ec]).
  rewrite Ee, Et, Ec in Hi. destruct (capturePhase img io n c e t h1) as [[evs2 h2]| | |] eqn:E2; try done.
  injection Hi as <- <-. assert (n' = n) by congruence. subst n'. by eapply capturePhase_ok.
Qed.

Lemma stop_stops onIo oks nowNs h evs h' : stop onIo oks nowNs h = SOk (evs, h') -> hst_running h' = false.
Proof.
  unfold stop. cbv zeta. set (h1 := setThread NoThread _).
  assert (Hr : hst_running h1 = false) by (subst h1; by destruct (hst_running h), (hst_transport (setRunning false h))).
  clearbody h1. destruct (_ && _); [intros [= <- <-]; exact Hr|]. destruct (hst_transport _) as [t|].
  - destruct (UdpTransport.stop onIo oks nowNs t) as [evs1 t1]. destruct (destroyTransport onIo t1); try done.
    intros [= <- <-]. exact Hr.
  - intros [= <- <-]. exact Hr.
Qed.

Lemma callbacks_ok evs oks nowNs : forall h out h', callbacks evs oks nowNs h = SOk (out, h') -> streamer_ok h -> streamer_ok h'.
Proof.
  induction evs as [|e evs IH]; intros h out h' Hc Hok; cbn [callbacks] in Hc; [by injection Hc as <- <-|].
  destruct (match e with EvControl type _ => _ | _ => _ end) as [[o1 h1]| | |] eqn:E1; try done.
  destruct (callbacks evs oks nowNs h1) as [[o2 h2]| | |] eqn:E2; try done. injection Hc as <- <-.
  eapply IH; [exact E2|]. destruct e; try by injection E1 as <- <-.
  unfold handleUdpControl in E1. destruct (type =? UdpKeyframeRequest).
  { injection E1 as <- <-. unfold requestKeyframe. destruct (hst_encoder h); [|done]. by eapply ok_same_parts. }
  destruct (type =? UdpStreamStart); [by injection E1 as <- <-|]. destruct (type =? UdpStreamStop); [|by injection E1 as <- <-].
  intros Hrun. apply stop_stops in E1. congruence.
Qed.

Lemma start_ok cfg sid player crypto io err h ok err' evs h' :
  start noEndpoint cfg sid player crypto io err h = SOk (ok, err', evs, h') -> streamer_ok h'.
Proof.
  unfold start. destruct (hst_running h); [by intros [= <- <- <- <-]|]. cbv zeta.
  destruct (bind _ _ _ _) as [b [ev t]]. destruct b; cbn [negb]; [|by intros [= <- <- <- <-]].
  destruct (ScreenCapture.init true _ _ _) as [[|e|] cap]; [| |done].
  2:{ destruct (UdpTransport.stop _ _ _ _). by intros [= <- <- <- <-]. }
  destruct (VideoEncoder.init _ _ _) as [[[] e] enc]; cbn [negb].
  2:{ destruct (UdpTransport.stop _ _ _ _). by intros [= <- <- <- <-]. }
  match goal with |- context [startAudio io ?x] => pose proof (startAudio_keeps io x) as Ha; set (h1 := startAudio io x) in * end.
  destruct Ha as (A1 & A2 & A3 & A4 & A5). cbn in A1, A2, A3, A4, A5.
  destruct (bool_decide _); [|done]. intros [= <- <- <- <-] _. exists 0. cbn. rewrite A3, A4, A5. by split_and!.
Qed.

(** While a streamer is running, its capture thread is in its loop with fewer than ten failures counted, and it
    has its transport, its encoder and its capture: whatever was called, in whatever order. *)
Theorem running_streamer_is_complete h : reachable h -> hst_running h = true -> complete h.
Proof.
  intros Hreach. change (streamer_ok h). induction Hreach as [|c h evs h' _ IH Hs]; [done|].
  destruct c; cbn [streamerStep] in Hs; try (injection Hs as <- <-).
  - destruct (start _ _ _ _ _ _ _ _) as [[[[ok er] ev] h1]| | |] eqn:E; try done. injection Hs as <- <-. by eapply start_ok.
  - intros Hrun. apply stop_stops in Hs. congruence.
  - by eapply iteration_ok.
  - unfold requestKeyframe. destruct (hst_encoder h); [|done]. by eapply ok_same_parts.
  - unfold setBitrate. destruct (hst_encoder h); by eapply ok_same_parts.
  - unfold requestEncoderRestart. destruct (hst_running h) eqn:Hr; [|done]. by eapply ok_same_parts.
  - unfold requestSoftwareEncoder. cbv zeta. destruct (hst_running _); by eapply ok_same_parts.
  - unfold setClientEndpoint, onTransport. destruct (hst_transport h); [|done]. by eapply ok_same_parts.
  - unfold setInputHandler, onTransport. destruct (hst_transport h); [|done]. by eapply ok_same_parts.
  - unfold sendRumble, onTransport. destruct (hst_transport h); [|done]. by eapply ok_same_parts.
  - unfold audioBlock. destruct (hst_audioEncoder h) as [a|], (hst_transport h) eqn:Et; try done.
    destruct (AudioCodec.encode _ _ _ _ _); by eapply ok_same_parts.
  - unfold receive in Hs. destruct (hst_transport h) as [t|] eqn:Et; [|by injection Hs as <- <-].
    destruct (handleDatagram buf from ck t) as [ev t'|]; [|done]. eapply callbacks_ok; [exact Hs|]. by eapply ok_same_parts.
Qed.

(** * Where the streamer does otherwise *)

(** A second [start] reports that the streamer is running, and stops it: the capture loop ends at its next
    iteration, and the later [stop] sends the client no STREAM_STOP. *)
Theorem second_start_ends_the_stream cfg sid player crypto io err n h lio :
  hst_running h = true -> hst_thread h = Looping n ->
  exists h', start noEndpoint cfg sid player crypto io err h = SOk (false, str "already running", [], h') /\
    iteration img lio h' = SOk ([], setThread LoopEnded h') /\ hst_transport h' = hst_transport h /\
    forall oks nowNs t, hst_transport h' = Some t ->
      exists h2, stop false oks nowNs h' = SOk (EvUdp <$> fst (UdpTransport.stop false oks nowNs t), h2).
Proof.
  intros Hr Ht. exists (setRunning false h). unfold start, iteration. rewrite Hr. split; [done|]. split.
  { change (hst_thread (setRunning false h)) with (hst_thread h). by rewrite Ht. }
  split; [done|]. intros oks nowNs t Et. unfold stop. cbn [setRunning hst_running negb andb].
  assert (Htd : isTornDown (setThread NoThread (setRunning false (setRunning false h))) = false).
  { unfold isTornDown. cbn in Et |- *. rewrite Et. cbn. by rewrite andb_false_r. }
  rewrite Htd. change (hst_transport _) with (hst_transport (setRunning false h)). rewrite Et.
  destruct (UdpTransport.stop false oks nowNs t) as [evs t']. unfold destroyTransport. cbn [andb fst]. eexists. reflexivity.
Qed.

(** The loop ended by itself: starting again assigns to a thread that was never joined. *)
Theorem start_after_the_loop_ended_terminates cfg sid player crypto io err h port :
  hst_running h = false -> hst_thread h = LoopEnded -> si_bind io = Some port ->
  fst (ScreenCapture.init true (sc_outputIndex cfg) (si_capture io) newCapture) = InitDone ->
  fst (fst (VideoEncoder.init (si_library io) (encoderParams cfg (sc_bitrateKbps cfg) (hst_forcedEncoder h)) newEncoder)) = true ->
  start noEndpoint cfg sid player crypto io err h = Terminated.
Proof.
  intros Hr Ht Hb Hc He. unfold start. rewrite Hr. cbv zeta.
  destruct (freshTransport_secure sid crypto) as [_ Htasks].
  destruct (bind (si_bind io) [] (si_nowNs io) (freshTransport noEndpoint sid crypto)) as [ok [evs t]] eqn:Eb.
  destruct (bind_result _ _ _ _ _ _ _ Eb Htasks) as (_ & _ & Hp). rewrite Hb in Hp. destruct Hp as [-> _]. cbn [negb].
  destruct (ScreenCapture.init true _ _ _) as [ri cap]. cbn [fst] in Hc. subst ri.
  change (hst_forcedEncoder (setCapture _ _)) with (hst_forcedEncoder h).
  destruct (VideoEncoder.init _ _ _) as [[ok e] enc]. cbn [fst] in He. subst ok. cbn [negb].
  match goal with |- context [startAudio io ?x] => pose proof (startAudio_keeps io x) as Ha; set (h1 := startAudio io x) in * end.
  destruct Ha as (_ & A2 & _). cbn in A2. change (hst_thread (setRestart false h1)) with (hst_thread h1). by rewrite A2, Ht.
Qed.

(** A STREAM_STOP from the client runs [stop] on the transport's io thread, where the transport is destroyed without
    its thread being joined: the host program ends. *)
Theorem client_stop_ends_the_program oks nowNs h t :
  hst_running h = true -> hst_transport h = Some t -> tr_socket t = true ->
  handleUdpControl UdpStreamStop oks nowNs h = Terminated.
Proof.
  intros Hr Et Hs. unfold handleUdpControl. cbn [Z.eqb UdpStreamStop UdpKeyframeRequest UdpStreamStart Pos.eqb].
  unfold stop. cbv zeta. rewrite Hr. change (hst_transport (setRunning false h)) with (hst_transport h). rewrite Et. cbn [negb andb].
  cbn [setThread setTransport setAudio setEncoder hst_transport]. unfold UdpTransport.stop, destroyTransport.
  assert (Hk : tr_socket (sendStreamStop nowNs t) = true).
  { unfold sendStreamStop, sendSmall. by destruct (negb (canSend t)). }
  change (tr_socket (withSocket _ ?s _ _)) with s. by rewrite Hk.
Qed.

(** The bounded retry does not survive the case it is for: when the duplication is refused (a secure desktop, another
    capture program), the re-initialisation writes its error through a null pointer. *)
Theorem refused_duplication_ends_the_program io n h hr adapters a d :
  live n h -> n + 1 < kMaxConsecutiveCaptureFailures -> sc_captureMode (hst_cfg h) = CaptureMonitor ->
  ca_first (li_capture io) = AcqFailed hr ->
  li_reinit io = mkInitIo (Some adapters) true None true DupDenied true ->
  findOutput (sc_outputIndex (hst_cfg h)) 0 0 adapters = Some (a, d) ->
  iteration img io h = NullPointer.
Proof.
  intros (Hr & Ht & Hrr & [t Etr] & [e Een] & [c Eca]) Hn Hm Hc Hre Hf. unfold iteration. rewrite Ht, Hr. cbn [negb].
  unfold restartPhase. rewrite Hrr. cbn [negb]. rewrite Een, Etr, Eca. unfold capturePhase, cropPhase. rewrite Hm. cbn [andb].
  rewrite bool_decide_eq_false_2 by done. cbn [andb]. destruct (capture_fails true (li_capture io) hr c Hc) as [err ->].
  destruct (Z.leb_spec kMaxConsecutiveCaptureFailures (n + 1)); [lia|]. rewrite Hre. unfold ScreenCapture.init. cbn. by rewrite Hf.
Qed.

(** A window that is minimised, or almost outside its monitor, is taken for gone: the whole monitor is streamed, and
    the window is not looked at again. *)
Theorem minimised_window_streams_the_desktop cap h :
  sc_captureMode (hst_cfg h) = CaptureWindow -> sc_windowHwnd (hst_cfg h) <> 0 ->
  exists h', cropPhase None cap h = (clearCrop cap, h') /\
    forall area cap', cropPhase area cap' h' = (cap', h').
Proof.
  intros Hm Hw. unfold cropPhase. rewrite Hm. rewrite bool_decide_eq_true_2 by done.
  apply Z.eqb_neq in Hw. rewrite Hw. cbn [negb andb updateWindowCrop]. eexists. split; [done|]. intros area cap'. cbn.
  by rewrite bool_decide_eq_false_2.
Qed.

End Spec.

(** The recovery of an AV1 stream prefers an H.264 encoder, with the client still decoding AV1; the explicit request
    for software encoding prefers an AV1 encoder. *)
Theorem av1_recovery_prefers_h264 :
  recoveryEncoder Av1 = str "libx264" /\ softwareEncoder Av1 = str "libsvtav1" /\
  head (candidatesOf (encoderParams (mkStream Av1 1920 1080 60 8000 120 128 true CaptureMonitor 0 0 []) 8000 (recoveryEncoder Av1))) =
    Some (str "libx264").
Proof. by split_and!. Qed.

(** * A streamer at work *)

Definition sampleStartIo : StartIo := mkSio (Some 5000) [] sampleInit openAll dzero 7 AudioCodec.NoEncoder 0 [] false.

Definition ZStreamer : Type := HostStreamer Z SecureChannel.SecureChannel ListFifo.

Definition startedStreamer : ZStreamer :=
  match start 0 defaultStream 9 0 None sampleStartIo [] newStreamer with SOk (_, _, _, h) => h | _ => newStreamer end.

Definition sampleLoop (first : Acquire) : LoopIo :=
  mkLio openAll openAll None (mkCaptureIo first (fun _ => (sampleInit, AcqOk)) true (Some 7680) 5 dzero) sampleInit sampleIo dzero openAll.


Lemma live_started : live 0 startedStreamer.
Proof. unfold live. split_and!; vm_compute; eauto. Defined.

Lemma failures_end_the_loop_witness :
  exists evs h', iterations tightYuv420 (replicate 10 (sampleLoop (AcqFailed 5))) startedStreamer = SOk (evs, h') /\
    (exists msg, evs = [EvStreamError msg]) /\ hst_running h' = false /\ hst_thread h' = LoopEnded.
Proof.
  refine (failures_end_the_loop tightYuv420 (replicate 10 (sampleLoop (AcqFailed 5))) 0 startedStreamer _ live_started _).
  - apply Forall_replicate. split; [exists 5; reflexivity|left; reflexivity].
  - unfold kMaxConsecutiveCaptureFailures. lia.
Defined.

Lemma running_streamer_is_complete_witness :
  hst_running startedStreamer = true /\ complete startedStreamer.
Proof.
  split; [reflexivity|]. apply (running_streamer_is_complete 0 tightYuv420); [|reflexivity].
  eapply reach_step with (c := CStart defaultStream 9 0 None sampleStartIo []); [apply reach_new|]. vm_compute. reflexivity.
Defined.

Lemma encoder_recovery_witness :
  exists h' e', restartPhase (sampleLoop AcqOk) (requestEncoderRestart startedStreamer) = (true, [], h') /\
    hst_encoder h' = Some e' /\ ve_keyframeRequested e' = true.
Proof.
  set (h := requestEncoderRestart startedStreamer).
  pose proof (encoder_recovery (sampleLoop AcqOk) h) as Hrec.
  destruct (hst_encoder h) as [e|] eqn:Ee; [|discriminate Ee].
  assert (Hr : hst_running h = true) by reflexivity. assert (Hq : hst_restartRequested h = true) by reflexivity.
  assert (Hc : is_Some (hst_capture h)) by (vm_compute; eauto).
  specialize (Hrec e Hr Hq Hc eq_refl). cbv zeta in Hrec.
  assert (Hf : fst (restartPhase (sampleLoop AcqOk) h) = (true, [])) by (vm_compute; reflexivity).
  destruct (restartPhase (sampleLoop AcqOk) h) as [[go evs] h']. cbn [fst] in Hf. apply pair_equal_spec in Hf as [-> ->].
  destruct Hrec as (_ & _ & e' & He' & Hk & _). exists h', e'. split_and!; [reflexivity|exact He'|exact Hk].
Defined.
