(* ===== verification/ClientStreamer.v ===== *)
(** client/ClientStreamer.h and ClientStreamer.cpp: receiving, decoding and playing.

    The decode thread is a step per iteration of [decodeLoop]; what the calls of an
    iteration return is an argument. The streamer owns a transport, a video and an
    audio decoder and a player, each with the operations of its own file. *)

From S2P Require Import Prelude Types Double UdpHeader Reassembler UdpCrypto UdpTransport VideoDecoder AudioCodec WasapiPlayer.

Open Scope Z_scope.

(** A call returns; or the program ends, on a thread that was not joined or on a null
    pointer; or the call waits for a thread that does not end. *)
Inductive CResult (A : Type) := COk (a : A) | CTerminated | CNullPointer | CHangs.
Arguments COk {A} a.
Arguments CTerminated {A}.
Arguments CNullPointer {A}.
Arguments CHangs {A}.

Definition cbind {A B} (r : CResult A) (k : A -> CResult B) : CResult B :=
  match r with COk a => k a | CTerminated => CTerminated | CNullPointer => CNullPointer | CHangs => CHangs end.

(** The decode thread: the time of the last decoded packet is local to its loop. *)
Inductive DecodeThread := NoThread | Looping (lastFrameNs : Z) | LoopEnded.

Section Streamer.
Context {Endpoint : Type} `{EqDecision Endpoint} (noEndpoint : Endpoint) {Sink : Type} `{UdpCryptoSink Sink}
  {C : Type} `{AvDecoder C}.

Local Abbreviation Transport := (@UdpTransport Endpoint Sink).

Record ClientStreamer := mkCs {
  cst_sessionId : Z; cst_codec : VideoCodec; cst_decoder : option (VideoDecoder C); cst_audioDecoder : option AudioDecoderOpus;
  cst_player : option WasapiPlayer.WasapiPlayer; cst_transport : option Transport; cst_audioActive : bool;
  cst_thread : DecodeThread; cst_running : bool; cst_frames : Z; cst_windowStartMs : Z; cst_fps : double }.

Definition newClient : ClientStreamer := mkCs 0 H264 None None None None false NoThread false 0 0 dzero.

Inductive ClientEvent :=
  | EvPresent (f : DecodedFrame)
  | EvUdp (e : @Event Endpoint).

Definition setIds (sid : Z) (codec : VideoCodec) (s : ClientStreamer) : ClientStreamer :=
  mkCs sid codec (cst_decoder s) (cst_audioDecoder s) (cst_player s) (cst_transport s) (cst_audioActive s) (cst_thread s)
    (cst_running s) (cst_frames s) (cst_windowStartMs s) (cst_fps s).
Definition setDecoder (d : option (VideoDecoder C)) (s : ClientStreamer) : ClientStreamer :=
  mkCs (cst_sessionId s) (cst_codec s) d (cst_audioDecoder s) (cst_player s) (cst_transport s) (cst_audioActive s) (cst_thread s)
    (cst_running s) (cst_frames s) (cst_windowStartMs s) (cst_fps s).
Definition setAudioDecoder (d : option AudioDecoderOpus) (s : ClientStreamer) : ClientStreamer :=
  mkCs (cst_sessionId s) (cst_codec s) (cst_decoder s) d (cst_player s) (cst_transport s) (cst_audioActive s) (cst_thread s)
    (cst_running s) (cst_frames s) (cst_windowStartMs s) (cst_fps s).
Definition setPlayer (p : option WasapiPlayer.WasapiPlayer) (active : bool) (s : ClientStreamer) : ClientStreamer :=
  mkCs (cst_sessionId s) (cst_codec s) (cst_decoder s) (cst_audioDecoder s) p (cst_transport s) active (cst_thread s)
    (cst_running s) (cst_frames s) (cst_windowStartMs s) (cst_fps s).
Definition setTransport (t : option Transport) (s : ClientStreamer) : ClientStreamer :=
  mkCs (cst_sessionId s) (cst_codec s) (cst_decoder s) (cst_audioDecoder s) (cst_player s) t (cst_audioActive s) (cst_thread s)
    (cst_running s) (cst_frames s) (cst_windowStartMs s) (cst_fps s).
Definition setThread (t : DecodeThread) (s : ClientStreamer) : ClientStreamer :=
  mkCs (cst_sessionId s) (cst_codec s) (cst_decoder s) (cst_audioDecoder s) (cst_player s) (cst_transport s) (cst_audioActive s) t
    (cst_running s) (cst_frames s) (cst_windowStartMs s) (cst_fps s).
Definition setRunning (b : bool) (s : ClientStreamer) : ClientStreamer :=
  mkCs (cst_sessionId s) (cst_codec s) (cst_decoder s) (cst_audioDecoder s) (cst_player s) (cst_transport s) (cst_audioActive s)
    (cst_thread s) b (cst_frames s) (cst_windowStartMs s) (cst_fps s).
Definition setMeasure (frames startMs : Z) (fps : double) (s : ClientStreamer) : ClientStreamer :=
  mkCs (cst_sessionId s) (cst_codec s) (cst_decoder s) (cst_audioDecoder s) (cst_player s) (cst_transport s) (cst_audioActive s)
    (cst_thread s) (cst_running s) frames startMs fps.

(** * Starting *)

Record StartIo := mkCio {
  ci_bind : option Z; ci_bindErr : bytes; ci_peer : option Endpoint; ci_peerErr : bytes;
  ci_decoder : CodecId -> VideoDecoder.OpenOutcome C; ci_nowMs : double; ci_nowNs : Z; ci_opus : DecoderOutcome }.

(** [statWindowStartMs_ = nowMs()], an integer. *)
Definition wholeMs (d : double) : Z := match dtrunc d with Some v => u64 v | None => 0 end.

Definition freshTransport (sid : Z) (crypto : option Sink) : Transport :=
  let t := newTransport noEndpoint in
  let c := tr_config t in
  let t := withConfig (mkConfig sid (cf_dropUnknownRemote c) (cf_autoKeyframeRequest c) (cf_videoJitterTargetMs c)
                         (cf_audioJitterTargetMs c) (cf_inputCb c) (cf_controlCb c)) t in
  match crypto with Some s => setCryptoSink (Some s) t | None => t end.

(** Announce, ask for a first keyframe, measure the round trip. *)
Definition announce (nowNs : Z) (t : Transport) : list (@Event Endpoint) * Transport :=
  startPings 1000 nowNs nowNs nowNs (requestKeyframe nowNs (sendStreamStart nowNs t)).

Definition start (sid : Z) (codec : VideoCodec) (crypto : option Sink) (io : StartIo) (s : ClientStreamer)
    : CResult (bool * bytes * list ClientEvent * ClientStreamer) :=
  if cst_running s then COk (false, str "already running", [], setRunning false s)
  else
    let s := setIds sid codec (setRunning true s) in
    let '(bound, (evs, t)) := bind (ci_bind io) [] (ci_nowNs io) (freshTransport sid crypto) in
    if negb bound then COk (false, ci_bindErr io, EvUdp <$> evs, setRunning false (setTransport None s))
    else
      let '(peered, t) := setPeerByName (ci_peer io) t in
      if negb peered then
        let '(evs', _) := UdpTransport.stop false [] (ci_nowNs io) t in
        COk (false, ci_peerErr io, EvUdp <$> (evs ++ evs'), setRunning false (setTransport None s))
      else
        let '(ok, err, d) := VideoDecoder.init (ci_decoder io) codec newDecoder in
        if negb ok then
          let '(evs', _) := UdpTransport.stop false [] (ci_nowNs io) t in
          COk (false, err, EvUdp <$> (evs ++ evs'), setRunning false (setDecoder None (setTransport None s)))
        else
          let s := setMeasure 0 (wholeMs (ci_nowMs io)) dzero (setDecoder (Some d) s) in
          let '(evs', t) := announce (ci_nowNs io) t in
          let s := setTransport (Some t) s in
          let '(opusOk, _, ad) := decoderInit (ci_opus io) (mkAd false 0 dzero) in
          let s := setAudioDecoder (if opusOk then Some ad else None) s in
          match cst_thread s with
          | NoThread => COk (true, [], EvUdp <$> (evs ++ evs'), setThread (Looping 0) s)
          | _ => CTerminated
          end.

(** * Stopping *)

Definition stop (oks : list bool) (nowNs : Z) (s : ClientStreamer) : list ClientEvent * ClientStreamer :=
  if negb (cst_running s) then ([], s)
  else
    let s := setRunning false s in
    let '(evs, s) :=
      match cst_transport s with
      | Some t =>
          let t := sendStreamStop nowNs t in
          let '(evs, _) := UdpTransport.stop false oks nowNs (stopPings t) in (EvUdp <$> evs, setTransport None s)
      | None => ([], s)
      end in
    (evs, setDecoder None (setAudioDecoder None (setPlayer None (cst_audioActive s) (setThread NoThread s)))).

(** [~ClientStreamer]: [stop], then the members. *)
Definition destroy (oks : list bool) (nowNs : Z) (s : ClientStreamer) : CResult (list ClientEvent) :=
  let '(evs, s) := stop oks nowNs s in
  match cst_thread s with NoThread => COk evs | _ => CTerminated end.

(** * The decode thread *)

(** What the calls of one iteration return: clock readings, the scaler, times, for
    each audio frame what its decoding gives, the player's device and its first turn. *)
Record IterIo := mkIter {
  it_videoNs : Z; it_scaler : Scaler -> bool; it_decodedNs : Z; it_nowMs : double; it_ms : double; it_audioNs : Z;
  it_audio : list (bool * list PcmFrame * bool); it_device : WasapiPlayer.InitOutcome; it_render : WasapiPlayer.RenderIo;
  it_checkNs : Z; it_requestNs : Z; it_afterNs : Z }.

(** The video frames that are due: each is decoded; what a decode gave is kept even
    when it then failed. *)
Fixpoint decodeFrames (io : IterIo) (frames : list AssembledFrame) (last : Z) (d : VideoDecoder C)
    : list DecodedFrame * Z * VideoDecoder C :=
  match frames with
  | [] => ([], last, d)
  | f :: frames =>
      let '(ok, _, out, d) := VideoDecoder.decode (it_scaler io) (af_data f) (Z.quot (af_timestampNs f) 1000) (af_keyframe f) (it_ms io) d in
      let '(outs, last, d) := decodeFrames io frames (if ok then it_decodedNs io else last) d in
      (out ++ outs, last, d)
  end.

Definition d1000 : double := dofZ 1000.

(** One presented frame in the measurement window. *)
Definition countPresented (nowMs : double) (s : ClientStreamer) : ClientStreamer :=
  let frames := u64 (cst_frames s + 1) in
  let windowMs := dsub nowMs (dofZ (cst_windowStartMs s)) in
  if dleb d1000 windowMs then setMeasure 0 (wholeMs nowMs) (ddiv (dmul (dofZ frames) d1000) windowMs) s
  else setMeasure frames (cst_windowStartMs s) (cst_fps s) s.

Fixpoint countAll (n : nat) (nowMs : double) (s : ClientStreamer) : ClientStreamer :=
  match n with O => s | S n => countAll n nowMs (countPresented nowMs s) end.

(** One audio frame; [samples] is the vector of the whole batch, which is cleared
    once per iteration. The blocks handed to the player are returned. *)
Definition audioFrame (io : IterIo) (res : bool * list PcmFrame * bool) (samples : list Z) (s : ClientStreamer)
    : CResult (list (list Z) * list Z * ClientStreamer) :=
  match cst_audioDecoder s with
  | None => COk ([], samples, s)
  | Some ad =>
      let '(accepted, frames, drained) := res in
      let '(ok, _, samples, ad) := AudioCodec.decode accepted frames drained (it_ms io) samples ad in
      let s := setAudioDecoder (Some ad) s in
      if negb ok then COk ([], samples, s)
      else
        match samples with
        | [] => COk ([], samples, s)
        | _ =>
            let started :=
              match cst_player s with
              | Some p => COk (Some p, cst_audioActive s)
              | None =>
                  match WasapiPlayer.start (it_device io) (it_render io) WasapiPlayer.newPlayer with
                  | (WasapiPlayer.StartReturns true _, p) => COk (Some p, true)
                  | (WasapiPlayer.StartReturns false _, _) => COk (None, cst_audioActive s)
                  | (WasapiPlayer.StartCrashes, _) => CNullPointer
                  | (WasapiPlayer.StartWaits _, _) => CHangs
                  | (WasapiPlayer.StartTerminates, _) => CTerminated
                  end
              end in
            cbind started (fun pa : option WasapiPlayer.WasapiPlayer * bool =>
              match fst pa with
              | None => COk ([], samples, setPlayer None (snd pa) s)
              | Some p => COk ([samples], samples, setPlayer (Some (WasapiPlayer.push samples (length samples / 2) p)) (snd pa) s)
              end)
        end
  end.

Fixpoint audioFrames (io : IterIo) (n : nat) (results : list (bool * list PcmFrame * bool)) (samples : list Z) (s : ClientStreamer)
    : CResult (list (list Z) * ClientStreamer) :=
  match n with
  | O => COk ([], s)
  | S n =>
      cbind (audioFrame io (match results with [] => (true, [], true) | r :: _ => r end) samples s)
        (fun r : list (list Z) * list Z * ClientStreamer =>
           let '(pushed, samples, s) := r in
           cbind (audioFrames io n (tail results) samples s)
             (fun r : list (list Z) * ClientStreamer => COk (pushed ++ fst r, snd r)))
  end.

(** No video for two seconds, once there was video. *)
Definition stalled (last nowNs : Z) : bool := negb (last =? 0) && (2000000000 <? u64 (nowNs - last)).

(** One iteration of [decodeLoop]; the blocks handed to the player are returned with
    the events. *)
Definition iteration (io : IterIo) (s : ClientStreamer) : CResult (list ClientEvent * list (list Z) * ClientStreamer) :=
  match cst_thread s with
  | Looping last =>
      if negb (cst_running s) then COk ([], [], setThread LoopEnded s)
      else
        match cst_transport s, cst_decoder s with
        | Some t, Some d =>
            let '(frames, t) := pollVideo (it_videoNs io) t in
            let '(decoded, last, d) := decodeFrames io frames last d in
            let s := countAll (length decoded) (it_nowMs io) (setDecoder (Some d) (setTransport (Some t) s)) in
            let audio :=
              match cst_audioDecoder s with
              | None => COk ([], s)
              | Some _ =>
                  let '(aframes, t) := pollAudio (it_audioNs io) t in
                  audioFrames io (length aframes) (it_audio io) [] (setTransport (Some t) s)
              end in
            cbind audio (fun r : list (list Z) * ClientStreamer =>
              let '(pushed, s) := r in
              match cst_transport s with
              | None => CNullPointer
              | Some t =>
                  if stalled last (it_checkNs io) then
                    COk (EvPresent <$> decoded, pushed,
                         setThread (Looping (it_afterNs io)) (setTransport (Some (requestKeyframe (it_requestNs io) t)) s))
                  else COk (EvPresent <$> decoded, pushed, setThread (Looping last) s)
              end)
        | _, _ => CNullPointer
        end
  | _ => COk ([], [], s)
  end.

(** * The rest *)

Definition setHostEndpoint (resolved : option Endpoint) (s : ClientStreamer) : ClientStreamer :=
  match cst_transport s with Some t => setTransport (Some (snd (setPeerByName resolved t))) s | None => s end.

Record ClientStreamStats := mkCss {
  css_udp : option UdpStatsSnapshot; css_decodeMs : double; css_audioDecodeMs : double; css_audioBufferedMs : double;
  css_audioUnderruns : Z; css_fps : double; css_framesDecoded : Z; css_width : Z; css_height : Z; css_decoderName : bytes;
  css_audioActive : bool }.

Definition stats (s : ClientStreamer) : ClientStreamStats :=
  let dec {A} (f : VideoDecoder C -> A) (a : A) : A := match cst_decoder s with Some d => f d | None => a end in
  mkCss (UdpTransport.stats <$> cst_transport s) (dec vd_avgMs dzero)
    (match cst_audioDecoder s with Some a => ad_avgDecodeMs a | None => dzero end)
    (match cst_player s with Some p => WasapiPlayer.bufferedMs p | None => dzero end)
    (match cst_player s with Some p => WasapiPlayer.wp_underruns p | None => 0 end)
    (cst_fps s) (dec vd_framesDecoded 0) (dec vd_width 0) (dec vd_height 0) (dec vd_decoderName []) (cst_audioActive s).

End Streamer.
Arguments ClientStreamer Endpoint Sink C : clear implicits.
Arguments ClientEvent Endpoint : clear implicits.
