(* ===== verification/ClientStreamerSpec.v ===== *)
(** What the client's streamer guarantees, and where the code does otherwise. *)

From S2P Require Import Prelude Types Double UdpHeader Reassembler JitterBuffer UdpCrypto UdpTransport UdpTransportSpec VideoDecoder AudioCodec WasapiPlayer ClientStreamer.

Open Scope Z_scope.

Section Spec.
Context {Endpoint : Type} `{EqDecision Endpoint} (noEndpoint : Endpoint) {Sink : Type} `{UdpCryptoSink Sink}
  {C : Type} `{AvDecoder C}.

Implicit Types s : ClientStreamer Endpoint Sink C.

(** * Start and stop *)

(** A streamer that owns nothing. *)
Definition idle s : Prop :=
  cst_running s = false /\ cst_thread s = NoThread /\ cst_transport s = None /\ cst_decoder s = None /\
  cst_audioDecoder s = None /\ cst_player s = None.

Definition complete s : Prop :=
  (exists last, cst_thread s = Looping last) /\ is_Some (cst_transport s) /\ is_Some (cst_decoder s).

Lemma requestKeyframe_secure now (t : @UdpTransport Endpoint Sink) : tr_secure (requestKeyframe now t) = tr_secure t.
Proof. unfold requestKeyframe, sendSmall. by destruct (negb (canSend t)). Qed.

Lemma sendSmall_secure ty data now (t : @UdpTransport Endpoint Sink) : tr_secure (sendSmall ty data now t) = tr_secure t.
Proof. unfold sendSmall. by destruct (negb (canSend t)). Qed.

Lemma fallBack_secure now (t : @UdpTransport Endpoint Sink) : tr_secure (fallBack now t) = tr_secure t.
Proof. unfold fallBack. by repeat case_match. Qed.

Lemma announce_secure now (t : @UdpTransport Endpoint Sink) : tr_secure (snd (announce now t)) = tr_secure t.
Proof.
  unfold announce, startPings, sendPingOnce. repeat case_match; cbn [snd];
    rewrite ?sendSmall_secure; unfold withPing; cbn [tr_secure]; rewrite ?fallBack_secure; cbn [tr_secure];
    by rewrite ?requestKeyframe_secure; unfold sendStreamStart; rewrite ?sendSmall_secure.
Qed.

Lemma bind_secure assigned oks nowNs (t : @UdpTransport Endpoint Sink) ok evs t' :
  bind assigned oks nowNs t = (ok, (evs, t')) -> tr_tasks t = [] -> tr_secure t' = tr_secure t.
Proof.
  intros Hb Ht. unfold bind, UdpTransport.stop in Hb. cbn [tr_tasks withSocket] in Hb. rewrite Ht in Hb. cbn [length drainTasks] in Hb.
  destruct assigned; apply pair_equal_spec in Hb as [_ Hb]; apply pair_equal_spec in Hb as [_ <-]; done.
Qed.

Lemma fresh_secure sid (crypto : option Sink) :
  tr_secure (freshTransport noEndpoint sid crypto) = crypto /\ tr_tasks (freshTransport noEndpoint sid crypto) = [].
Proof. by destruct crypto. Qed.

Lemma peer_secure r (t : @UdpTransport Endpoint Sink) ok t' : setPeerByName r t = (ok, t') -> tr_secure t' = tr_secure t.
Proof. unfold setPeerByName. destruct r; by intros [= <- <-]. Qed.

(** [start] is all or nothing: it fails, without presenting anything, and the streamer owns nothing; or its decode
    thread runs on a transport that had the channel before it was bound, and a video decoder. *)
Theorem client_start_all_or_nothing sid codec crypto io s :
  idle s ->
  exists ok err evs s', start noEndpoint sid codec crypto io s = COk (ok, err, evs, s') /\
    Forall (fun e => exists u, e = EvUdp u) evs /\
    if ok then cst_running s' = true /\ complete s' /\ (exists t, cst_transport s' = Some t /\ tr_secure t = crypto)
    else idle s'.
Proof.
  intros (Hr & Ht & Htr & Hd & Ha & Hp). unfold start. rewrite Hr. cbv zeta.
  assert (Hev : forall l : list (@Event Endpoint), Forall (fun e : ClientEvent Endpoint => exists u, e = EvUdp u) (EvUdp <$> l)).
  { intros l. apply Forall_fmap, List.Forall_forall. intros e _. by exists e. }
  destruct (fresh_secure sid crypto) as [Hsec Htasks].
  destruct (bind _ _ _ _) as [bound [evs t]] eqn:Eb. pose proof (bind_secure _ _ _ _ _ _ _ Eb Htasks) as Hs1. rewrite Hsec in Hs1.
  destruct bound; cbn [negb].
  2:{ eexists _, _, _, _. split; [done|]. split; [apply Hev|]. by split_and!. }
  destruct (setPeerByName (ci_peer io) t) as [peered t1] eqn:Ep. pose proof (peer_secure _ _ _ _ Ep) as Hs2.
  destruct peered; cbn [negb].
  2:{ destruct (UdpTransport.stop false [] (ci_nowNs io) t1). eexists _, _, _, _. split; [done|]. split; [apply Hev|]. by split_and!. }
  destruct (VideoDecoder.init _ _ _) as [[ok err] d]. destruct ok; cbn [negb].
  2:{ destruct (UdpTransport.stop false [] (ci_nowNs io) t1). eexists _, _, _, _. split; [done|]. split; [apply Hev|]. by split_and!. }
  pose proof (announce_secure (ci_nowNs io) t1) as Hs3. destruct (announce (ci_nowNs io) t1) as [evs' t2]. cbn [snd] in Hs3.
  destruct (decoderInit _ _) as [[opusOk er] ad].
  change (cst_thread _) with (cst_thread s). rewrite Ht. eexists _, _, _, _. split; [done|]. split; [apply Hev|].
  split; [done|]. split; [|eexists; split; [done|congruence]]. split_and!; [by eexists|done..].
Qed.

Lemma stop_running oks nowNs s : cst_running s = true -> idle (snd (stop oks nowNs s)).
Proof.
  intros Hr. unfold stop. rewrite Hr. cbn [negb]. change (cst_transport (setRunning false s)) with (cst_transport s).
  destruct (cst_transport s) as [t|] eqn:Et.
  - destruct (UdpTransport.stop _ _ _ _). by split_and!.
  - split_and!; try done.
Qed.

(** [stop] on a running streamer releases everything it owns, and a further [stop] does nothing; so a streamer can
    be destroyed after it, and started again. *)
Theorem client_stop_releases oks nowNs s (s' := snd (stop oks nowNs s)) :
  cst_running s = true ->
  idle s' /\ (forall oks' now', stop oks' now' s' = ([], s')) /\ forall oks' now', destroy oks' now' s' = COk [].
Proof.
  intros Hr. pose proof (stop_running oks nowNs s Hr) as Hi. fold s' in Hi. split; [done|]. destruct Hi as (Hr' & Ht & _).
  unfold destroy, stop. rewrite Hr'. cbn [negb]. by rewrite Ht.
Qed.

(** * The audio of a batch *)

(** A playing streamer, with 16-bit samples for every frame of the batch. *)
Definition playing s : Prop := is_Some (cst_audioDecoder s) /\ is_Some (cst_player s) /\
  match cst_audioDecoder s with Some ad => ad_ctx ad = true | None => False end.

Definition soundOf (r : bool * list PcmFrame * bool) : list Z := concat (frameSamples <$> snd (fst r)).

Definition audible (r : bool * list PcmFrame * bool) : Prop := fst (fst r) = true /\ soundOf r <> [].

Lemma audioFrame_pushes io r samples s :
  playing s -> audible r ->
  exists s', audioFrame io r samples s = COk ([samples ++ soundOf r], samples ++ soundOf r, s') /\ playing s'.
Proof.
  intros ([ad Ha] & [p Hp] & Hctx) [Hacc Hne]. rewrite Ha in Hctx. unfold audioFrame. rewrite Ha. destruct r as [[accepted frames] drained].
  cbn [fst snd] in *. subst accepted. unfold decode. rewrite Hctx. cbn [negb].
  unfold soundOf in *. cbn [fst snd] in *. destruct (samples ++ concat (frameSamples <$> frames)) as [|x l] eqn:El.
  { by apply app_eq_nil in El as [_ El]. }
  change (cst_player (setAudioDecoder _ s)) with (cst_player s). rewrite Hp. cbn [cbind fst snd]. eexists. split; [done|].
  unfold playing. cbn. by split_and!.
Qed.

(** The prefixes of a list of blocks, flattened: the first, the first two, ... *)
Fixpoint cumulative (acc : list Z) (blocks : list (list Z)) : list (list Z) :=
  match blocks with
  | [] => []
  | b :: blocks => (acc ++ b) :: cumulative (acc ++ b) blocks
  end.

(** When several audio frames are due in one iteration, the player gets the sound of the first, then the first and the
    second, then the first three: the vector of samples is cleared once per iteration. *)
Theorem batched_audio_is_repeated io results samples s :
  playing s -> Forall audible results ->
  exists s', audioFrames io (length results) results samples s = COk (cumulative samples (soundOf <$> results), s').
Proof.
  intros Hs Hall. revert samples s Hs. induction Hall as [|r results Hr Hall IH]; intros samples s Hs; cbn [length audioFrames fmap list_fmap cumulative].
  - by eexists.
  - destruct (audioFrame_pushes io r samples s Hs Hr) as (s1 & -> & Hs1). cbn [cbind tail].
    destruct (IH (samples ++ soundOf r) s1 Hs1) as [s2 ->]. cbn [cbind fst snd app]. by eexists.
Qed.

(** The first sound on a machine without a usable audio device ends the program, or stops the decode thread for good. *)
Theorem no_audio_device_stops_the_stream io r s :
  is_Some (cst_audioDecoder s) -> match cst_audioDecoder s with Some ad => ad_ctx ad = true | None => False end ->
  cst_player s = None -> audible r -> WasapiPlayer.initError (it_device io) <> [] ->
  audioFrame io r [] s = CNullPointer \/ audioFrame io r [] s = CHangs.
Proof.
  intros [ad Ha] Hctx Hp [Hacc Hne] He. rewrite Ha in Hctx. unfold audioFrame. rewrite Ha. destruct r as [[accepted frames] drained].
  cbn [fst snd] in *. subst accepted. unfold decode. rewrite Hctx. cbn [negb app].
  unfold soundOf in Hne. cbn [fst snd] in Hne. destruct (concat (frameSamples <$> frames)) as [|x l]; [done|].
  change (cst_player (setAudioDecoder _ s)) with (cst_player s). rewrite Hp.
  destruct (WasapiPlayer.failed_start_never_returns (it_device io) (it_render io) WasapiPlayer.newPlayer eq_refl eq_refl He) as [Hc|(p' & Hw & _)].
  - left. destruct (WasapiPlayer.start _ _ _) as [r' p']. cbn [fst] in Hc. by subst r'.
  - right. by rewrite Hw.
Qed.

(** * The watchdog *)

Lemma push_tasks (t : @UdpTransport Endpoint Sink) now : tr_tasks (snd (pollVideo now t)) = tr_tasks t /\ tr_tasks (snd (pollAudio now t)) = tr_tasks t.
Proof. unfold pollVideo, pollAudio. split; by destruct (pop _ _). Qed.

Lemma audioFrame_transport io r samples s p sm s' :
  audioFrame io r samples s = COk (p, sm, s') -> cst_transport s' = cst_transport s /\ cst_thread s' = cst_thread s /\
    cst_running s' = cst_running s /\ cst_decoder s' = cst_decoder s.
Proof.
  unfold audioFrame. destruct (cst_audioDecoder s); [|by intros [= <- <- <-]]. destruct r as [[acc fr] dr].
  destruct (AudioCodec.decode _ _ _ _ _ _) as [[[ok er] sm'] ad]. destruct ok; cbn [negb]; [|by intros [= <- <- <-]].
  destruct sm' as [|x l]; [by intros [= <- <- <-]|]. cbv zeta. change (cst_player (setAudioDecoder _ s)) with (cst_player s).
  destruct (cst_player s) as [pl|].
  - cbn [cbind fst snd]. by intros [= <- <- <-].
  - destruct (WasapiPlayer.start _ _ _) as [[[] er'| | |] pl]; cbn [cbind fst snd]; try done; by intros [= <- <- <-].
Qed.

Lemma audioFrames_transport io n : forall results samples s p s',
  audioFrames io n results samples s = COk (p, s') -> cst_transport s' = cst_transport s /\ cst_thread s' = cst_thread s /\
    cst_running s' = cst_running s /\ cst_decoder s' = cst_decoder s.
Proof.
  induction n as [|n IH]; intros results samples s p s'; cbn [audioFrames]; [by intros [= <- <-]|].
  destruct (audioFrame io _ samples s) as [[[p1 sm1] s1]| | |] eqn:E1; cbn [cbind]; try done.
  destruct (audioFrames io n (tail results) sm1 s1) as [[p2 s2]| | |] eqn:E2; cbn [cbind]; try done. intros [= <- <-].
  apply audioFrame_transport in E1 as (A & B & D & F). apply IH in E2 as (A' & B' & D' & F'). cbn. split_and!; congruence.
Qed.

Lemma countAll_keeps n ms s : cst_transport (countAll n ms s) = cst_transport s /\ cst_thread (countAll n ms s) = cst_thread s /\
  cst_running (countAll n ms s) = cst_running s /\ cst_decoder (countAll n ms s) = cst_decoder s.
Proof.
  induction n as [|n IH] in s |- *; [done|]. cbn [countAll]. destruct (IH (countPresented ms s)) as (-> & -> & -> & ->).
  unfold countPresented. by destruct (dleb _ _).
Qed.

(** What an iteration leaves, after its polls and decoding. *)
Lemma iteration_shape io s evs pushed s' last :
  iteration io s = COk (evs, pushed, s') -> cst_thread s = Looping last -> cst_running s = true ->
  exists t d decoded last' d' t2, cst_transport s = Some t /\ cst_decoder s = Some d /\
    decodeFrames io (fst (pollVideo (it_videoNs io) t)) last d = (decoded, last', d') /\
    cst_running s' = true /\ cst_decoder s' = Some d' /\ tr_tasks t2 = tr_tasks t /\
    if stalled last' (it_checkNs io) then cst_thread s' = Looping (it_afterNs io) /\ cst_transport s' = Some (requestKeyframe (it_requestNs io) t2)
    else cst_thread s' = Looping last' /\ cst_transport s' = Some t2.
Proof.
  intros Hi Ht Hr. unfold iteration in Hi. rewrite Ht, Hr in Hi. cbn [negb] in Hi.
  destruct (cst_transport s) as [t|] eqn:Et; [|done]. destruct (cst_decoder s) as [d|] eqn:Ed; [|done].
  pose proof (push_tasks t (it_videoNs io)) as [Hv _].
  destruct (pollVideo (it_videoNs io) t) as [frames t1] eqn:Ev. cbn [snd] in Hv.
  destruct (decodeFrames io frames last d) as [[decoded last'] d'] eqn:Edec.
  set (s1 := countAll _ _ _) in Hi. pose proof (countAll_keeps (length decoded) (it_nowMs io) (setDecoder (Some d') (setTransport (Some t1) s))) as Hk.
  fold s1 in Hk. cbn in Hk. destruct Hk as (K1 & K2 & K3 & K4).
  destruct (cst_audioDecoder s1) as [ad|].
  - pose proof (push_tasks t1 (it_audioNs io)) as [_ Ha]. destruct (pollAudio (it_audioNs io) t1) as [aframes t2]. cbn [snd] in Ha.
    destruct (audioFrames io _ _ _ _) as [[p s2]| | |] eqn:Ea; cbn [cbind] in Hi; try done.
    apply audioFrames_transport in Ea as (A1 & A2 & A3 & A4). cbn in A1, A2, A3, A4. rewrite A1 in Hi.
    exists t, d, decoded, last', d', t2. destruct (stalled last' (it_checkNs io)); injection Hi as <- <- <-; cbn [cst_transport cst_thread cst_running cst_decoder setThread setTransport]; split_and!; rewrite ?Ev; cbn [fst]; congruence.
  - cbn [cbind] in Hi. rewrite K1 in Hi. exists t, d, decoded, last', d', t1.
    destruct (stalled last' (it_checkNs io)); injection Hi as <- <- <-; cbn [cst_transport cst_thread cst_running cst_decoder setThread setTransport]; split_and!; rewrite ?Ev; cbn [fst]; congruence.
Qed.

(** Until a first packet was decoded, the watchdog asks for nothing, however long nothing arrives. *)
Theorem no_watchdog_before_the_first_frame io s evs pushed s' :
  cst_thread s = Looping 0 -> cst_running s = true -> iteration io s = COk (evs, pushed, s') ->
  (forall t d, cst_transport s = Some t -> cst_decoder s = Some d ->
     snd (fst (decodeFrames io (fst (pollVideo (it_videoNs io) t)) 0 d)) = 0) ->
  cst_thread s' = Looping 0 /\ (tr_tasks <$> cst_transport s') = (tr_tasks <$> cst_transport s).
Proof.
  intros Ht Hr Hi Hno. destruct (iteration_shape _ _ _ _ _ _ Hi Ht Hr) as (t & d & decoded & last' & d' & t2 & Et & Ed & Edec & _ & _ & Htasks & Hw).
  specialize (Hno t d Et Ed). rewrite Edec in Hno. cbn [fst snd] in Hno. subst last'. destruct Hw as [-> ->].
  rewrite Et. cbn. by rewrite Htasks.
Qed.

(** * A running streamer has its parts *)

Inductive ClientCall :=
  | KStart (sid : Z) (codec : VideoCodec) (crypto : option Sink) (io : StartIo (Endpoint := Endpoint) (C := C))
  | KStop (oks : list bool) (nowNs : Z)
  | KIteration (io : IterIo)
  | KSetEndpoint (resolved : option Endpoint).

Definition clientStep (c : ClientCall) s : CResult (ClientStreamer Endpoint Sink C) :=
  match c with
  | KStart sid codec crypto io => cbind (start noEndpoint sid codec crypto io s) (fun r => COk (snd r))
  | KStop oks now => COk (snd (stop oks now s))
  | KIteration io => cbind (iteration io s) (fun r => COk (snd r))
  | KSetEndpoint r => COk (setHostEndpoint r s)
  end.

Inductive reachable : ClientStreamer Endpoint Sink C -> Prop :=
  | reach_new : reachable newClient
  | reach_step c s s' : reachable s -> clientStep c s = COk s' -> reachable s'.

(** While the client's streamer is running it has its decode thread in its loop, its transport and its video
    decoder, whatever was called before; so an iteration never meets a missing part. *)
Theorem running_client_is_complete s : reachable s -> cst_running s = true -> complete s.
Proof.
  intros Hreach. induction Hreach as [|c s s' _ IH Hs]; [done|]. destruct c; cbn [clientStep] in Hs.
  - destruct (start noEndpoint sid codec crypto io s) as [[[[ok err] evs] s1]| | |] eqn:E; cbn [cbind snd] in Hs; try done.
    injection Hs as <-. intros Hrun. revert E. unfold start. destruct (cst_running s); [by intros [= <- <- <- <-]|]. cbv zeta.
    destruct (bind _ _ _ _) as [b [ev t]]. destruct b; cbn [negb]; [|by intros [= <- <- <- <-]].
    destruct (setPeerByName _ _) as [p t1]. destruct p; cbn [negb]; [|destruct (UdpTransport.stop _ _ _ _); by intros [= <- <- <- <-]].
    destruct (VideoDecoder.init _ _ _) as [[[] er] d]; cbn [negb]; [|destruct (UdpTransport.stop _ _ _ _); by intros [= <- <- <- <-]].
    destruct (announce _ _) as [evs' t2]. destruct (decoderInit _ _) as [[oo er'] ad]. change (cst_thread _) with (cst_thread s).
    destruct (cst_thread s); try done. intros [= <- <- <- <-]. split_and!; [by eexists|done..].
  - injection Hs as <-. intros Hrun. exfalso. destruct (cst_running s) eqn:Hr.
    + pose proof (stop_running oks nowNs s Hr) as [Hf _]. congruence.
    + unfold stop in Hrun. rewrite Hr in Hrun. cbn [negb snd] in Hrun. congruence.
  - destruct (iteration io s) as [[[evs pushed] s1]| | |] eqn:E; cbn [cbind snd] in Hs; try done. injection Hs as <-. intros Hrun.
    destruct (cst_thread s) as [|last|] eqn:Ht.
    + unfold iteration in E. rewrite Ht in E. injection E as <- <- <-. by apply IH.
    + destruct (cst_running s) eqn:Hr.
      * destruct (iteration_shape _ _ _ _ _ _ E Ht Hr) as (t & d & decoded & last' & d' & t2 & _ & _ & _ & _ & Hd & _ & Hw).
        unfold complete. rewrite Hd. destruct (stalled last' (it_checkNs io)); destruct Hw as [-> ->]; split_and!; eauto.
      * unfold iteration in E. rewrite Ht, Hr in E. injection E as <- <- <-. cbn in Hrun. congruence.
    + unfold iteration in E. rewrite Ht in E. injection E as <- <- <-. by apply IH.
  - injection Hs as <-. unfold setHostEndpoint. destruct (cst_transport s) as [t|] eqn:Et; [|done]. intros Hrun.
    destruct (IH Hrun) as ([last Hl] & _ & Hd). split_and!; [by eexists|done..].
Qed.

(** * A second start *)

(** A second [start] on a running streamer ends its thread; [stop] then returns at once, and destroying the streamer
    ends the program. *)
Theorem second_client_start_is_fatal sid codec crypto io s last iio oks nowNs :
  cst_running s = true -> cst_thread s = Looping last ->
  exists s1, start noEndpoint sid codec crypto io s = COk (false, str "already running", [], s1) /\
    iteration iio s1 = COk ([], [], setThread LoopEnded s1) /\ stop oks nowNs s1 = ([], s1) /\ destroy oks nowNs s1 = CTerminated.
Proof.
  intros Hr Ht. exists (setRunning false s). unfold start, iteration, destroy, stop. rewrite Hr.
  change (cst_thread (setRunning false s)) with (cst_thread s). rewrite Ht. cbn [negb]. split_and!; try reflexivity. cbn. by rewrite Ht.
Qed.

End Spec.

(** * A streamer at work *)

Definition sampleStart : StartIo (Endpoint := Z) (C := ToyDecoder) :=
  mkCio (Some 6000) [] (Some 77) [] (fun _ => DoOpened (str "h264") (mkTd false [])) dzero 7 DecOk.

Definition sampleIter : IterIo :=
  mkIter 100 (fun _ => true) 100 dzero dzero 100 [] (WasapiPlayer.PiOk 480 WasapiPlayer.FmtExact) (WasapiPlayer.mkRio None false) 100 100 100.

Definition ZClient : Type := ClientStreamer Z SecureChannel.SecureChannel ToyDecoder.

Definition startedClient : ZClient :=
  match start 0 9 H264 None sampleStart newClient with COk (_, _, _, s) => s | _ => newClient end.

Lemma client_start_all_or_nothing_witness :
  exists evs s', start 0 9 H264 None sampleStart (newClient : ZClient) = COk (true, [], evs, s') /\ complete s'.
Proof.
  assert (Hi : idle (newClient : ZClient)) by (split_and!; reflexivity).
  destruct (client_start_all_or_nothing 0 9 H264 None sampleStart newClient Hi) as (ok & err & evs & s' & Hs & _ & Ho).
  assert (Hok : match start 0 9 H264 None sampleStart (newClient : ZClient) with COk (ok, err, _, _) => ok = true /\ err = [] | _ => False end)
    by (vm_compute; split; reflexivity).
  rewrite Hs in Hok. destruct Hok as [-> ->]. exists evs, s'. split; [exact Hs|]. apply Ho.
Defined.

Lemma client_stop_releases_witness : cst_running startedClient = true /\ idle (snd (stop [] 9 startedClient)).
Proof. split; [reflexivity|]. apply (client_stop_releases [] 9 startedClient). reflexivity. Defined.

Lemma running_client_is_complete_witness : cst_running startedClient = true /\ complete startedClient.
Proof.
  split; [reflexivity|]. apply (running_client_is_complete 0); [|reflexivity].
  eapply reach_step with (c := KStart 9 H264 None sampleStart); [apply reach_new|]. vm_compute. reflexivity.
Defined.

Lemma batched_audio_is_repeated_witness :
  let s := setPlayer (Some WasapiPlayer.newPlayer) true startedClient in
  exists s', audioFrames sampleIter 2 [(true, [mkPcm 2 1 [5; 6]], true); (true, [mkPcm 2 1 [7; 8]], true)] [] s =
    COk ([[5; 6]; [5; 6; 7; 8]], s').
Proof.
  refine (batched_audio_is_repeated sampleIter [(true, [mkPcm 2 1 [5; 6]], true); (true, [mkPcm 2 1 [7; 8]], true)] [] _ _ _).
  - unfold playing. split_and!; vm_compute; eauto.
  - repeat (apply List.Forall_cons; [split; [reflexivity|discriminate]|]). apply List.Forall_nil.
Defined.
