(* ===== verification/StreamPath.v ===== *)
(** The video path from the host's capture loop to the client's decode loop: the
    streamers of HostStreamer.v and ClientStreamer.v run against each other through
    their transports. A round is one iteration of either loop with, between them, the
    datagrams the network delivers: any that were sent so far, in any order, late, or
    never. The host may end its program in a round; the client goes on.

    Everything that runs is the streamers' own code. The references are [decodeLog],
    which puts packets of the encoder straight into the decoder, and [directRun], which
    does so with all those that arrive. *)

From stdpp Require Import sorting.
From S2P Require Import Prelude Packet UdpHeader SequenceTracker Reassembler JitterBuffer.
From S2P Require Import UdpCrypto Double UdpTransport UdpTransportSpec MediaPath Network.
From S2P Require Import Types AudioCodec VideoEncoder VideoDecoder ScreenCapture HostStreamer ClientStreamer ClientStreamerSpec HostStreamerSpec.

Open Scope Z_scope.

Section Path.
Context {Endpoint : Type} `{EqDecision Endpoint} {Sink : Type} `{UdpCryptoSink Sink}.
Context {F : Type} `{AvFifo F} {C : Type} `{AvDecoder C} (img : ImageLayout).
Implicit Types h : HostStreamer Endpoint Sink F.
Implicit Types c : ClientStreamer Endpoint Sink C.
Implicit Types t : UdpTransport (Endpoint := Endpoint) (Sink := Sink).

(** * The host *)

(** The packets an iteration of the capture loop hands to the transport, with the
    time stamp of their frame. *)
Definition emitted (io : LoopIo) h : Z * list EncodedPacket :=
  match hst_thread h with
  | HostStreamer.Looping _ =>
      if negb (hst_running h) then (0, [])
      else
        let '(go, _, h) := restartPhase io h in
        match go, hst_encoder h, hst_capture h with
        | true, Some enc, Some cap =>
            match capture true (li_capture io) (fst (cropPhase (li_area io) cap h)) with
            | (CapFrame f, _) =>
                let r := encode img (cf_width f) (cf_height f) (cf_stride f) (li_encode io) [] enc in
                if er_ok r then (cf_timestampUs f, er_out r) else (0, [])
            | _ => (0, [])
            end
        | _, _, _ => (0, [])
        end
  | _ => (0, [])
  end.

Lemma performRestart_keeps lib h ok err h' :
  performEncoderRestart lib h = (ok, err, h') -> hst_transport h' = hst_transport h.
Proof.
  unfold performEncoderRestart. destruct (_ || _); [by intros [= _ _ <-]|].
  destruct (VideoEncoder.init _ _ _) as [[o e] enc]. destruct o; by intros [= _ _ <-].
Qed.

Lemma restart_keeps io h go evs h' : restartPhase io h = (go, evs, h') -> hst_transport h' = hst_transport h.
Proof.
  unfold restartPhase. destruct (negb _); [by intros [= _ _ <-]|].
  destruct (performEncoderRestart _ _) as [[ok e] h1] eqn:E1. apply performRestart_keeps in E1. cbn in E1.
  destruct ok; [by intros [= _ _ <-]|].
  destruct (performEncoderRestart (li_recovery io) _) as [[ok e2] h2] eqn:E2. apply performRestart_keeps in E2. cbn in E2.
  destruct ok; intros [= _ _ <-]; cbn; congruence.
Qed.

Lemma crop_keeps area cap h : hst_transport (snd (cropPhase area cap h)) = hst_transport h.
Proof. unfold cropPhase. destruct (_ && _); [|done]. by destruct (updateWindowCrop _ _) as [[] ?]. Qed.

(** An iteration sends exactly [emitted]. *)
Lemma iteration_emits io h evs h' t :
  HostStreamer.iteration img io h = SOk (evs, h') -> hst_transport h = Some t ->
  hst_transport h' = Some (sendPackets (fst (emitted io h)) (snd (emitted io h)) t).
Proof.
  intros Hi Ht. unfold HostStreamer.iteration in Hi. unfold emitted.
  destruct (hst_thread h) as [|n|]; try by injection Hi as _ <-.
  destruct (negb (hst_running h)); [by injection Hi as _ <-|].
  destruct (restartPhase io h) as [[go evs1] h1] eqn:Er. apply restart_keeps in Er. rewrite Ht in Er.
  destruct go; cbn [negb] in Hi; [|by injection Hi as _ <-].
  destruct (hst_encoder h1) as [enc|]; [|by injection Hi as _ <-]. rewrite Er in Hi.
  destruct (hst_capture h1) as [cap|]; [|by injection Hi as _ <-].
  destruct (capturePhase img io n cap enc t h1) as [[evs2 h2]| | |] eqn:Ec; try done. injection Hi as _ <-.
  unfold capturePhase in Ec. pose proof (crop_keeps (li_area io) cap h1) as Hc.
  destruct (cropPhase (li_area io) cap h1) as [cap1 h3]. cbn [fst snd] in *. rewrite Er in Hc.
  destruct (capture true (li_capture io) cap1) as [r cap2]; destruct r; cbn [fst snd sendPackets foldl]; try done.
  - injection Ec as _ <-. unfold framePhase.
    destruct (er_ok _); cbn [negb]; [done|]. by cbn.
  - by injection Ec as _ <-.
  - destruct (kMaxConsecutiveCaptureFailures <=? n + 1); [by injection Ec as _ <-|].
    destruct (ScreenCapture.init _ _ _ _) as [[] ?]; try done; by injection Ec as _ <-.
Qed.

Definition hostRound (io : LoopIo) (sendNs : Z) h : option (list bytes * HostStreamer Endpoint Sink F) :=
  match HostStreamer.iteration img io h with
  | SOk (_, h) =>
      t ← hst_transport h;
      let '(dgs, t) := drained sendNs t in Some (dgs, HostStreamer.setTransport (Some t) h)
  | _ => None
  end.

Definition hosting (n sid : Z) h : Prop := exists t, hst_transport h = Some t /\ sending n sid t.

(** A packet of the encoder as [sendFrame] is given it. *)
Definition toSent (e : Z * EncodedPacket) : SentFrame :=
  mkSent (ep_keyframe (snd e)) (u64 (fst e * 1000)) (ep_data (snd e)).

Definition packet_ok (e : Z * EncodedPacket) : Prop :=
  0 <= fst e /\ fits 64 (fst e * 1000) /\ 0 < zlen (ep_data (snd e)) <= 1024 * 1100.

#[export] Instance packet_ok_dec e : Decision (packet_ok e).
Proof. unfold packet_ok. apply _. Defined.

Lemma packet_sent e : packet_ok e -> sent_ok (toSent e).
Proof. intros (_ & _ & Hp). split; [done|]. apply u64_fits. Qed.

Lemma sendPackets_queues n0 sid us pkts : forall k dgs t,
  queued (n0 + Z.of_nat k) sid dgs t -> Forall packet_ok (pair us <$> pkts) -> 0 <= n0 -> n0 + Z.of_nat k + zlen pkts < 2 ^ 64 ->
  queued (n0 + Z.of_nat (k + length pkts)) sid (dgs ++ wireOf n0 sid k (toSent <$> (pair us <$> pkts))) (sendPackets us pkts t).
Proof.
  induction pkts as [|p pkts IH]; intros k dgs t Ht Hok Hpos Hn; cbn [sendPackets foldl fmap list_fmap wireOf].
  { by rewrite Nat.add_0_r, app_nil_r. }
  apply Forall_cons_iff in Hok as [(_ & _ & Hp) Hok]. cbn [fst snd length] in *.
  specialize (IH (S k) (dgs ++ frameDatagrams UdpVideo (ep_keyframe p) sid (n0 + Z.of_nat k) (u64 (us * 1000)) (ep_data p))
    (sendFrame UdpVideo (ep_keyframe p) (ep_data p) (u64 (us * 1000)) t)).
  rewrite <- app_assoc, Nat.add_succ_l in IH. rewrite Nat.add_succ_r. apply IH; [|done|done|lia].
  replace (n0 + Z.of_nat (S k)) with (n0 + Z.of_nat k + 1) by lia. apply sendFrame_queues; [done|done|widths; lia].
Qed.

(** What may be asked of a streamer between two iterations, by its transport's callback,
    the bitrate controller or the user. *)
Inductive HostRequest := AskKeyframe | AskBitrate (kbps : Z) | AskRestart | AskSoftware.

Definition ask h (r : HostRequest) : HostStreamer Endpoint Sink F :=
  match r with
  | AskKeyframe => HostStreamer.requestKeyframe h
  | AskBitrate kbps => HostStreamer.setBitrate kbps h
  | AskRestart => requestEncoderRestart h
  | AskSoftware => requestSoftwareEncoder h
  end.

Definition asked (rs : list HostRequest) h : HostStreamer Endpoint Sink F := foldl ask h rs.

Lemma asked_hosting n sid rs h : hosting n sid h -> hosting n sid (asked rs h).
Proof.
  revert h. induction rs as [|r rs IH]; intros h Hh; [done|]. apply IH. destruct Hh as (t & Et & Ht). exists t. split; [|done].
  destruct r; cbn [ask].
  - unfold HostStreamer.requestKeyframe. by destruct (hst_encoder h).
  - unfold HostStreamer.setBitrate. by destruct (hst_encoder h).
  - unfold requestEncoderRestart. by destruct (hst_running h).
  - unfold requestSoftwareEncoder. cbn. by destruct (hst_running h).
Qed.

(** * The client *)

(** What the rest of an iteration does to its transport. *)
Definition sameMedia t t' : Prop :=
  tr_media t' = tr_media t /\ tr_config t' = tr_config t /\ tr_secure t' = tr_secure t /\ tr_peers t' = tr_peers t.

Lemma requestKeyframe_media now t : sameMedia t (UdpTransport.requestKeyframe now t).
Proof. unfold UdpTransport.requestKeyframe, sendSmall. by destruct (negb (canSend t)). Qed.

Lemma awaiting_media n sid from target t t' : sameMedia t t' -> awaiting n sid from target t -> awaiting n sid from target t'.
Proof.
  intros (E1 & E2 & E3 & E4) ([(h1 & h2 & h3) H2 H3 H4 H5] & Hp & Hn).
  unfold awaiting, videoJitter, audioJitter, videoReassembly in *. rewrite E1. split_and!; try done.
  split; unfold hears, videoTarget, videoJitter, audioJitter, videoReassembly in *; by rewrite ?E1, ?E2, ?E3, ?E4.
Qed.

Lemma pollAudio_empty now t : jb_queue (audioJitter t) = [] -> pollAudio now t = ([], t).
Proof.
  intros Hq. unfold pollAudio, pop. unfold audioJitter in Hq. rewrite Hq. cbn [length popLoop]. f_equal.
  destruct t as [a b cc d m f g i j k l o p]. unfold withMedia. cbn. f_equal. by destruct m.
Qed.

(** A client in its decode loop with the decoder [d], its transport in a state of [P]. *)
Record watching (P : UdpTransport (Endpoint := Endpoint) (Sink := Sink) -> Prop) (d : VideoDecoder C) c : Prop := {
  wa_thread : exists last, cst_thread c = ClientStreamer.Looping last;
  wa_running : cst_running c = true;
  wa_decoder : cst_decoder c = Some d;
  wa_transport : exists t, cst_transport c = Some t /\ P t }.

(** A transport that has seen every frame before [n]; no sound waits. *)
Definition caughtUp (n sid : Z) (from : Endpoint) (target : Z) t : Prop :=
  awaiting n sid from target t /\ jb_queue (audioJitter t) = [].

Lemma caughtUp_media n sid from target t t' : sameMedia t t' -> caughtUp n sid from target t -> caughtUp n sid from target t'.
Proof. intros Hs [Hw Ha]. split; [by eapply awaiting_media|]. destruct Hs as (E & _). unfold audioJitter in *. by rewrite E. Qed.

Lemma heard_media n sid sent hist done outs from t t' :
  sameMedia t t' -> heard n sid sent hist done outs from t -> heard n sid sent hist done outs from t'.
Proof.
  intros (E1 & E2 & E3 & E4) [(h1 & h2 & h3) ? ? ? ? ? ? ?].
  split; unfold hears, videoJitter, audioJitter, videoReassembly in *; by rewrite ?E1, ?E2, ?E3, ?E4.
Qed.

Definition presented (evs : list (ClientEvent Endpoint)) : list DecodedFrame :=
  omap (fun e => match e with EvPresent f => Some f | EvUdp _ => None end) evs.

Lemma presented_frames fs : presented (EvPresent <$> fs) = fs.
Proof. unfold presented. induction fs as [|f fs IH]; [done|]. cbn. by rewrite IH. Qed.

(** The datagrams reach the transport, and the decode loop turns once. *)
Definition clientRound (from : Endpoint) (arrivals : list (Clock * nat)) (io : IterIo) (dgs : list bytes) c
    : option (list DecodedFrame * ClientStreamer Endpoint Sink C) :=
  t ← cst_transport c;
  t ← receiveAll (network arrivals dgs) from t;
  match ClientStreamer.iteration io (ClientStreamer.setTransport (Some t) c) with
  | COk (evs, _, c) => Some (presented evs, c)
  | _ => None
  end.

(** An iteration without sound: what is due is decoded and presented. *)
Lemma iteration_presents io last d t frames t1 P c :
  (forall t t', sameMedia t t' -> P t -> P t') ->
  cst_thread c = ClientStreamer.Looping last -> cst_running c = true -> cst_decoder c = Some d -> cst_transport c = Some t ->
  pollVideo (it_videoNs io) t = (frames, t1) -> jb_queue (audioJitter t1) = [] -> P t1 ->
  exists decoded last' d' c', decodeFrames io frames last d = (decoded, last', d') /\
    ClientStreamer.iteration io c = COk (EvPresent <$> decoded, [], c') /\ watching P d' c'.
Proof.
  intros HP Hth Hr Hd Ht Hp Ha Hw. unfold ClientStreamer.iteration. rewrite Hth, Hr, Ht, Hd. cbn [negb]. rewrite Hp.
  destruct (decodeFrames io frames last d) as [[decoded last'] d'] eqn:Edec. exists decoded, last', d'.
  set (c1 := countAll _ _ _).
  pose proof (countAll_keeps (length decoded) (it_nowMs io) (ClientStreamer.setDecoder (Some d') (ClientStreamer.setTransport (Some t1) c))) as Hk.
  fold c1 in Hk. cbn in Hk. destruct Hk as (K1 & K2 & K3 & K4). clearbody c1.
  assert (Haudio : exists c2, (match cst_audioDecoder c1 with
      | None => COk ([], c1)
      | Some _ => let '(aframes, t) := pollAudio (it_audioNs io) t1 in
                  audioFrames io (length aframes) (it_audio io) [] (ClientStreamer.setTransport (Some t) c1)
      end) = COk ([], c2) /\ cst_transport c2 = Some t1 /\ cst_running c2 = true /\ cst_decoder c2 = Some d').
  { destruct (cst_audioDecoder c1) as [ad|].
    - rewrite pollAudio_empty by done. cbn [length audioFrames]. eexists. split; [done|]. cbn. by rewrite K3, K4.
    - eexists. split; [done|]. by rewrite K1, K3, K4. }
  destruct Haudio as (c2 & -> & T2 & R2 & D2). cbn [cbind]. rewrite T2.
  destruct (stalled last' (it_checkNs io)); (eexists; split_and!; [done|done|]); split; try done; try (by eexists); cbn.
  eexists. split; [done|]. eapply HP; [apply requestKeyframe_media|done].
Qed.

(** * The path without transports *)

Definition decodePacket (io : IterIo) (us : Z) (p : EncodedPacket) (d : VideoDecoder C) : list DecodedFrame * VideoDecoder C :=
  let '(_, _, out, d) := VideoDecoder.decode (it_scaler io) (ep_data p) us (ep_keyframe p) (it_ms io) d in (out, d).

(** Packets put into a decoder, each with the iteration that does it. *)
Fixpoint decodeLog (log : list (IterIo * (Z * EncodedPacket))) (d : VideoDecoder C) : list DecodedFrame * VideoDecoder C :=
  match log with
  | [] => ([], d)
  | (io, (us, p)) :: log =>
      let '(out, d) := decodePacket io us p d in
      let '(outs, d) := decodeLog log d in (out ++ outs, d)
  end.

Lemma decodeLog_app l1 l2 d :
  decodeLog (l1 ++ l2) d =
  let '(o1, d) := decodeLog l1 d in let '(o2, d) := decodeLog l2 d in (o1 ++ o2, d).
Proof.
  revert d. induction l1 as [|[io [us p]] l1 IH]; intros d; cbn [app decodeLog]; [by destruct (decodeLog l2 d)|].
  destruct (decodePacket io us p d) as [o d1]. rewrite IH. destruct (decodeLog l1 d1) as [o1 d2].
  destruct (decodeLog l2 d2). by rewrite app_assoc.
Qed.

(** Requests, one iteration of the capture loop, the datagrams that arrive after it (by
    their number among all that were ever sent), one iteration of the decode loop. *)
Record PictureRound := mkPicture {
  pr_requests : list HostRequest; pr_loop : LoopIo; pr_sendNs : Z; pr_arrivals : list (Clock * nat); pr_iter : IterIo }.

(** The host's program may have ended. *)
Definition hostTurn (x : PictureRound) (oh : option (HostStreamer Endpoint Sink F)) : list bytes * option (HostStreamer Endpoint Sink F) :=
  match oh with
  | Some h =>
      match hostRound (pr_loop x) (pr_sendNs x) (asked (pr_requests x) h) with
      | Some (dgs, h) => (dgs, Some h)
      | None => ([], None)
      end
  | None => ([], None)
  end.

Fixpoint streamRun (from : Endpoint) (xs : list PictureRound) (sent : list bytes) (oh : option (HostStreamer Endpoint Sink F)) c
    : option (list DecodedFrame * option (HostStreamer Endpoint Sink F) * ClientStreamer Endpoint Sink C) :=
  match xs with
  | [] => Some ([], oh, c)
  | x :: xs =>
      let '(dgs, oh) := hostTurn x oh in
      '(out, c) ← clientRound from (pr_arrivals x) (pr_iter x) (sent ++ dgs) c;
      '(outs, oh, c) ← streamRun from xs (sent ++ dgs) oh c; Some (out ++ outs, oh, c)
  end.

(** The packets of an iteration, and of all of them. *)
Definition turnPackets (x : PictureRound) (oh : option (HostStreamer Endpoint Sink F)) : list (Z * EncodedPacket) :=
  match oh with
  | Some h =>
      let h := asked (pr_requests x) h in
      match hostRound (pr_loop x) (pr_sendNs x) h with
      | Some _ => pair (fst (emitted (pr_loop x) h)) <$> snd (emitted (pr_loop x) h)
      | None => []
      end
  | None => []
  end.

Fixpoint encodedBy (xs : list PictureRound) (oh : option (HostStreamer Endpoint Sink F)) : list (Z * EncodedPacket) :=
  match xs with
  | [] => []
  | x :: xs => turnPackets x oh ++ encodedBy xs (snd (hostTurn x oh))
  end.

Definition arrivals (xs : list PictureRound) : list nat := concat ((fun x => (pr_arrivals x).*2) <$> xs).

(** ** The host *)

Definition hosting_from (n sid : Z) (oh : option (HostStreamer Endpoint Sink F)) : Prop :=
  match oh with Some h => hosting n sid h | None => True end.

Lemma hostTurn_sends n sid k x oh :
  hosting_from (n + Z.of_nat k) sid oh -> Forall packet_ok (turnPackets x oh) ->
  0 <= n -> n + Z.of_nat k + zlen (turnPackets x oh) < 2 ^ 64 ->
  fst (hostTurn x oh) = wireOf n sid k (toSent <$> turnPackets x oh) /\
  hosting_from (n + Z.of_nat (k + length (turnPackets x oh))) sid (snd (hostTurn x oh)).
Proof.
  destruct oh as [h|]; [|done]. intros Hh. unfold turnPackets, hostTurn. apply (asked_hosting _ _ (pr_requests x)) in Hh.
  set (h1 := asked _ h) in *. clearbody h1. destruct Hh as (t & Et & Ht). unfold hostRound.
  destruct (HostStreamer.iteration img (pr_loop x) h1) as [[evs h2]| | |] eqn:Ei; try done.
  rewrite (iteration_emits _ h1 evs h2 t Ei Et). cbn [mbind option_bind].
  destruct (emitted (pr_loop x) h1) as [us pkts]. cbn [fst snd].
  destruct Ht as [Q1 Q2 Q3 Q4 Q5].
  destruct (drained (pr_sendNs x) (sendPackets us pkts t)) as [dgs t1] eqn:Ed. intros Hok Hpos Hn. rewrite length_fmap in *.
  pose proof (sendPackets_queues n sid us pkts k [] t) as Hq. cbn [app] in Hq.
  destruct (drained_sends _ sid _ (pr_sendNs x) _ (Hq ltac:(by split) Hok Hpos Hn)) as (t' & E & Ht'). rewrite Ed in E.
  injection E as -> ->. cbn [fst snd]. split; [done|]. by eexists.
Qed.

(** ** The client, whatever arrives *)

Section Any.
Context (n sid : Z) (enc : list (Z * EncodedPacket)) (from : Endpoint).
Context (Hsid : fits 32 sid) (Hn0 : 0 <= n) (Hn : n + zlen enc < 2 ^ 64 - 64) (Henc : Forall packet_ok enc).

Abbreviation stream := (toSent <$> enc).
Abbreviation hearing := (heard n sid stream).

Lemma stream_length : n + zlen stream <= 2 ^ 64 - 64.
Proof using Hn. rewrite length_fmap. lia. Qed.

Lemma stream_ok : Forall sent_ok stream.
Proof using Henc. apply Forall_fmap. eapply list.Forall_impl; [exact Henc|]. intros e. apply packet_sent. Qed.

(** Frames handed out are packets of the encoder. *)
Lemma decodeFrames_log io fs : forall last d,
  Forall (fun f => exists x, stream !! indexOf n f = Some x /\ f = frameOf n sid (indexOf n f) x) fs ->
  exists log last', Forall2 (fun k e => enc !! k = Some (snd e)) (indexOf n <$> fs) log /\
    decodeFrames io fs last d = (fst (decodeLog log d), last', snd (decodeLog log d)).
Proof using Henc.
  induction fs as [|f fs IH]; intros last d Hfs; [by exists [], last|].
  apply Forall_cons_iff in Hfs as [(x & Hx & Ef) Hfs]. rewrite list_lookup_fmap in Hx.
  destruct (enc !! indexOf n f) as [[us p]|] eqn:Ee; [|done]. injection Hx as <-.
  assert (Hok : packet_ok (us, p)) by (rewrite list.Forall_lookup in Henc; by eapply Henc). destruct Hok as (Hus & Hts & _). cbn [fst] in *.
  assert (E1 : af_data f = ep_data p) by (by rewrite Ef). assert (E2 : af_keyframe f = ep_keyframe p) by (by rewrite Ef).
  assert (E3 : Z.quot (af_timestampNs f) 1000 = us).
  { rewrite Ef. cbn [frameOf theFrame toSent af_timestampNs sf_timestampNs fst]. by rewrite u64_id, Z.quot_mul. }
  cbn [decodeFrames]. rewrite E1, E2, E3.
  destruct (VideoDecoder.decode (it_scaler io) (ep_data p) us (ep_keyframe p) (it_ms io) d) as [[[ok err] out] d1] eqn:Ed.
  destruct (IH (if ok then it_decodedNs io else last) d1 Hfs) as (log & last' & Hlog & ->).
  exists ((io, (us, p)) :: log), last'. rewrite fmap_cons. split; [by constructor|].
  cbn [decodeLog]. unfold decodePacket. rewrite Ed. by destruct (decodeLog log d1).
Qed.

Lemma clientRound_hears hist done outs d c arr io ps :
  watching (hearing hist done outs from) d c -> ps `prefix_of` positions 0 stream ->
  exists fs log done' c', clientRound from arr io (uncurry (datagramOf n sid stream) <$> ps) c = Some (fst (decodeLog log d), c') /\
    Forall2 (fun k e => enc !! k = Some (snd e)) (indexOf n <$> fs) log /\
    watching (hearing (rev (located ps arr).*2 ++ hist) done' (outs ++ fs) from) (snd (decodeLog log d)) c'.
Proof using Hsid Hn0 Hn Henc.
  intros [(last & Hth) Hr Hd (t & Et & Ht)] Hps. unfold clientRound. rewrite Et. cbn [mbind option_bind]. rewrite located_network.
  assert (Hg : Forall (genuine stream) (located ps arr).*2).
  { destruct (located_names ps _ arr Hps) as (js & _ & Hnm). apply list.Forall_forall. intros ki (i & Hi)%list_elem_of_lookup.
    destruct (Forall2_lookup_r _ _ _ _ _ Hnm Hi) as (j & _ & Hj). cbn in Hj.
    eapply (list.Forall_lookup_1 _ _ _ _ (positions_genuine stream)), Hj. }
  destruct (hear_all n sid stream Hsid Hn0 stream_length stream_ok hist done outs from (located ps arr) t Ht Hg) as (done' & t1 & -> & Ht1).
  cbn [mbind option_bind].
  destruct (hear_poll n sid stream _ _ _ from (it_videoNs io) t1 Ht1) as (fs & t2 & Ep & Ht2).
  destruct (iteration_presents io last d t1 fs t2 _ (ClientStreamer.setTransport (Some t1) c) (heard_media n sid stream (rev (located ps arr).*2 ++ hist) done' (outs ++ fs) from))
    as (decoded & last' & d' & c' & Edec & -> & Hw); try done; [apply Ht2|].
  destruct (heard_order _ _ _ _ _ _ _ _ Ht2) as (Hfs & _). apply Forall_app in Hfs as [_ Hfs].
  destruct (decodeFrames_log io fs last d Hfs) as (log & last2 & Hlog & E). rewrite E in Edec. injection Edec as <- _ <-.
  exists fs, log, done', c'. by rewrite presented_frames.
Qed.

Lemma stream_hears xs : forall past js hist done outs d oh c,
  enc = past ++ encodedBy xs oh -> hosting_from (n + zlen past) sid oh ->
  watching (hearing hist done outs from) d c -> names (positions 0 stream) js hist ->
  exists fs log oh' c' js' hist' done' t, streamRun from xs (wireOf n sid 0 (toSent <$> past)) oh c = Some (fst (decodeLog log d), oh', c') /\
    Forall2 (fun k e => enc !! k = Some (snd e)) (indexOf n <$> fs) log /\
    hearing hist' done' (outs ++ fs) from t /\ names (positions 0 stream) js' hist' /\ js' ⊆+ arrivals xs ++ js.
Proof using Hsid Hn0 Hn Henc.
  induction xs as [|x xs IH]; intros past js hist done outs d oh c Eenc Hh Hc Hnm.
  { destruct Hc as [_ _ _ (t & _ & Ht)]. exists [], [], oh, c, js, hist, done, t. rewrite app_nil_r. by split_and!; [|constructor|..]. }
  cbn [encodedBy streamRun] in *. set (pk := turnPackets x oh) in *.
  assert (Hpk : Forall packet_ok pk) by (rewrite Eenc in Henc; apply Forall_app in Henc as [_ Hf]; by apply Forall_app in Hf as [? _]).
  assert (Hlen : n + zlen past + zlen pk < 2 ^ 64) by (rewrite Eenc, !length_app in Hn; lia).
  destruct (hostTurn_sends n sid (length past) x oh Hh Hpk Hn0 Hlen) as [E Hh']. fold pk in E, Hh'.
  destruct (hostTurn x oh) as [dgs oh1]. cbn [fst snd] in *.
  assert (Ew : wireOf n sid 0 (toSent <$> past) ++ dgs = wireOf n sid 0 (toSent <$> (past ++ pk))).
  { by rewrite E, fmap_app, wireOf_app, length_fmap. }
  rewrite Ew. clear E Ew. rewrite app_assoc in Eenc.
  assert (Es : stream = [] ++ (toSent <$> (past ++ pk)) ++ (toSent <$> encodedBy xs oh1)) by (rewrite Eenc; by rewrite fmap_app).
  assert (Ewp : wireOf n sid 0 (toSent <$> (past ++ pk)) = uncurry (datagramOf n sid stream) <$> positions 0 (toSent <$> (past ++ pk)))
    by exact (wireOf_positions n sid stream stream_ok [] (toSent <$> (past ++ pk)) _ Es). rewrite Ewp.
  assert (Hps : positions 0 (toSent <$> (past ++ pk)) `prefix_of` positions 0 stream).
  { rewrite Es. cbn [app]. rewrite positions_app. by apply prefix_app_r. }
  destruct (clientRound_hears hist done outs d c (pr_arrivals x) (pr_iter x) _ Hc Hps) as (fs & log & done1 & c1 & -> & Hlog & Hc1).
  cbn [mbind option_bind].
  destruct (located_names _ _ (pr_arrivals x) Hps) as (js1 & Hjs1 & Hnm1).
  destruct (IH (past ++ pk) (rev js1 ++ js) (rev (located (positions 0 (toSent <$> (past ++ pk))) (pr_arrivals x)).*2 ++ hist)
    done1 (outs ++ fs) (snd (decodeLog log d)) oh1 c1 Eenc) as (fs2 & log2 & oh2 & c2 & js2 & hist2 & done2 & t2 & E2 & Hlog2 & Ht2 & Hnm2 & Hsub2).
  { by rewrite length_app. }
  { exact Hc1. }
  { apply Forall2_app; [by apply names_rev|done]. }
  rewrite Ewp in E2. rewrite E2. cbn [mbind option_bind].
  exists (fs ++ fs2), (log ++ log2), oh2, c2, js2, hist2, done2, t2. rewrite app_assoc, fmap_app. split_and!; try done.
  - rewrite decodeLog_app. destruct (decodeLog log d) as [o1 d1]. cbn [fst snd]. by destruct (decodeLog log2 d1).
  - by apply Forall2_app.
  - etransitivity; [exact Hsub2|]. unfold arrivals. cbn [fmap list_fmap concat]. rewrite app_assoc. apply submseteq_skips_r.
    rewrite (Permutation_app_comm (pr_arrivals x).*2). apply submseteq_app; [done|].
    by rewrite <- Permutation_rev.
Qed.

End Any.

(** ** A network that delivers picture by picture *)

(** At most one packet; only its datagrams arrive, each at most once; and the decode loop
    polls when the last of them has waited for the target delay. [w] datagrams were sent
    before. *)
Definition picture_ok (target : Z) (w : nat) (x : PictureRound) (dgs : list bytes) (pk : list (Z * EncodedPacket)) : Prop :=
  (length pk <= 1)%nat /\ NoDup (pr_arrivals x).*2 /\
  Forall (fun j => (w <= j < w + length dgs)%nat) (pr_arrivals x).*2 /\
  Forall (fun ck => ck_push ck + target * 1000000 <= it_videoNs (pr_iter x)) (pr_arrivals x).*1.

Fixpoint picturewise (target : Z) (xs : list PictureRound) (w : nat) (oh : option (HostStreamer Endpoint Sink F)) : Prop :=
  match xs with
  | [] => True
  | x :: xs =>
      let '(dgs, oh') := hostTurn x oh in
      picture_ok target w x dgs (turnPackets x oh) /\ picturewise target xs (w + length dgs) oh'
  end.

#[export] Instance picturewise_dec target xs w oh : Decision (picturewise target xs w oh).
Proof.
  revert w oh. induction xs as [|x xs IH]; intros w oh; cbn [picturewise]; [apply _|].
  destruct (hostTurn x oh) as [dgs oh']. unfold picture_ok. apply _.
Defined.

(** Every fragment of a packet arrives. *)
Definition packetArrives (x : PictureRound) (p : EncodedPacket) : bool := nfrags (ep_data p) <=? zlen (pr_arrivals x).

(** Every packet of the encoder that arrives goes into the decoder. *)
Fixpoint directRun (xs : list PictureRound) (oh : option (HostStreamer Endpoint Sink F)) (d : VideoDecoder C) : list DecodedFrame :=
  match xs with
  | [] => []
  | x :: xs =>
      let oh' := snd (hostTurn x oh) in
      match turnPackets x oh with
      | (us, p) :: _ =>
          if packetArrives x p then let '(out, d) := decodePacket (pr_iter x) us p d in out ++ directRun xs oh' d
          else directRun xs oh' d
      | [] => directRun xs oh' d
      end
  end.

Lemma poll_nothing now n sid from target t : caughtUp n sid from target t ->
  exists t', pollVideo now t = ([], t') /\ caughtUp n sid from target t'.
Proof.
  intros ((Hr & Hp & Hn) & Ha).
  destruct (receiving_poll n n sid from _ _ target (videoJitter t) [] now t Hr ltac:(lia) (pop_empty _ _ _ Hp)) as (t' & E & Hr' & Ev).
  exists t'. pose proof (rv_jitter _ _ _ _ _ _ _ Hr') as Ej. pose proof (rv_audio _ _ _ _ _ _ _ Hr') as Ea.
  split; [done|]. unfold caughtUp, awaiting. rewrite Ej, Ea, Ev. by split_and!.
Qed.

(** The datagrams of the picture, by their number in it. *)
Lemma network_shift sent dgs arr :
  Forall (fun j => (length sent <= j < length sent + length dgs)%nat) arr.*2 ->
  network arr (sent ++ dgs) = network (prod_map id (fun j => j - length sent)%nat <$> arr) dgs.
Proof.
  unfold network. induction arr as [|[ck j] arr IH]; [done|]. intros [Hj Ha]%Forall_cons_iff. cbn [fst snd fmap list_fmap prod_map omap list_omap id] in *.
  rewrite lookup_app_r by lia. by rewrite IH.
Qed.

(** The client's side of a round: the packet is decoded with its own time stamp. *)
Lemma clientRound_decodes n sid from target d c x sent us p :
  watching (caughtUp n sid from target) d c -> fits 32 sid -> key_ok n -> 0 <= target -> fits 64 (target * 1000000) ->
  packet_ok (us, p) -> let dgs := wireOf n sid 0 [toSent (us, p)] in picture_ok target (length sent) x dgs [(us, p)] ->
  exists c' d', clientRound from (pr_arrivals x) (pr_iter x) (sent ++ dgs) c =
      Some (if packetArrives x p then fst (decodePacket (pr_iter x) us p d) else [], c') /\
    watching (caughtUp (n + 1) sid from target) d' c' /\ d' = if packetArrives x p then snd (decodePacket (pr_iter x) us p d) else d.
Proof.
  intros [(last & Hth) Hr Hd (t & Et & Hw & Ha)] Hsid Hn Ht0 Ht (Hus & Hts & Hsize) dgs (_ & Hnd & Hb & Hpoll). cbn [fst snd] in *.
  unfold dgs, wireOf in *. cbn [toSent sf_keyframe sf_timestampNs sf_data fst snd] in *. rewrite app_nil_r, Z.add_0_r, u64_id in * by done. clear dgs.
  unfold clientRound. rewrite Et. cbn [mbind option_bind]. rewrite network_shift by done.
  set (arr := prod_map id _ <$> pr_arrivals x).
  assert (E2 : arr.*2 = (fun j => j - length sent)%nat <$> (pr_arrivals x).*2) by (unfold arr; rewrite <- !list_fmap_compose; by apply list_fmap_ext).
  assert (E1 : arr.*1 = (pr_arrivals x).*1) by (unfold arr; rewrite <- list_fmap_compose; by apply list_fmap_ext).
  rewrite video_datagrams, length_fmap, length_seq in Hb by done.
  destruct (receive_poll (ep_keyframe p) n sid (us * 1000) (ep_data p) from target arr (it_videoNs (pr_iter x)) t)
    as (t1 & t2 & -> & Ep & Hw2 & Ea2); try done.
  { rewrite E2. rewrite list.Forall_forall in Hb. apply NoDup_fmap_2_strong; [|done].
    intros i j Hi%Hb Hj%Hb E. lia. }
  { rewrite E2. apply Forall_fmap. eapply list.Forall_impl; [exact Hb|]. intros j Hj. cbn in *. lia. }
  { by rewrite E1. }
  cbn [mbind option_bind]. assert (El : length arr = length (pr_arrivals x)) by apply length_fmap. rewrite El in Ep. fold (packetArrives x p) in Ep.
  destruct (iteration_presents (pr_iter x) last d t1
      (if packetArrives x p then [theFrame UdpVideo (ep_keyframe p) sid n (us * 1000) (ep_data p)] else []) t2 (caughtUp (n + 1) sid from target)
      (ClientStreamer.setTransport (Some t1) c) (caughtUp_media _ _ _ _))
    as (decoded & last' & d' & c' & Edec & -> & Hw'); try done; [by rewrite Ea2|split; [done|by rewrite Ea2]|].
  rewrite presented_frames. exists c', d'.
  assert (E : decoded = (if packetArrives x p then fst (decodePacket (pr_iter x) us p d) else []) /\
              d' = (if packetArrives x p then snd (decodePacket (pr_iter x) us p d) else d)).
  { unfold decodePacket. destruct (packetArrives x p); cbn [decodeFrames] in Edec; [|by injection Edec as <- _ <-].
    unfold theFrame in Edec. cbn [af_data af_timestampNs af_keyframe] in Edec. rewrite Z.quot_mul in Edec by done.
    destruct (VideoDecoder.decode _ _ _ _ _ _) as [[[ok err] out] d2]. injection Edec as <- _ <-. by rewrite app_nil_r. }
  destruct E as [-> Ed]. by split_and!.
Qed.

Lemma clientRound_nothing n sid from target d c sent io :
  watching (caughtUp n sid from target) d c ->
  exists c', clientRound from [] io sent c = Some ([], c') /\ watching (caughtUp n sid from target) d c'.
Proof.
  intros [(last & Hth) Hr Hd (t & Et & Hw)]. unfold clientRound. rewrite Et.
  change (network [] sent) with (@nil (Clock * bytes)). cbn [receiveAll mbind option_bind].
  destruct (poll_nothing (it_videoNs io) n sid from target t Hw) as (t2 & Ep & Hw2).
  destruct (iteration_presents io last d t [] t2 _ (ClientStreamer.setTransport (Some t) c) (caughtUp_media n sid from target))
    as (decoded & last' & d' & c' & Edec & -> & Hw'); try done; [apply Hw2|].
  cbn [decodeFrames] in Edec. injection Edec as <- _ <-. by exists c'.
Qed.

Lemma stream_picturewise xs : forall n sid from target d sent oh c,
  0 <= n -> hosting_from n sid oh -> watching (caughtUp n sid from target) d c -> fits 32 sid ->
  0 <= target -> fits 64 (target * 1000000) -> n + zlen (encodedBy xs oh) < 2 ^ 64 - 64 -> Forall packet_ok (encodedBy xs oh) ->
  picturewise target xs (length sent) oh -> exists oh' c', streamRun from xs sent oh c = Some (directRun xs oh d, oh', c').
Proof.
  induction xs as [|x xs IH]; intros n sid from target d sent oh c Hpos Hh Hc Hsid Ht0 Ht Hn Hok Hx; [by exists oh, c|].
  cbn [encodedBy picturewise streamRun directRun] in *. rewrite length_app in Hn. apply Forall_app in Hok as [Hpk Hok].
  destruct (hostTurn_sends n sid 0 x oh ltac:(by rewrite Z.add_0_r) Hpk Hpos ltac:(lia)) as [E Hh'].
  destruct (hostTurn x oh) as [dgs oh1]. cbn [fst snd Nat.add] in *. destruct Hx as [Hx Hxs]. rewrite <- length_app in Hxs.
  pose proof Hx as (Hone & _ & Harr & _).
  destruct (turnPackets x oh) as [|[us p] [|q pk]]; cbn [length] in Hone; [| |lia].
  - cbn [fmap list_fmap wireOf length] in *. subst dgs.
    assert (pr_arrivals x = []) as ->.
    { destruct (pr_arrivals x) as [|[ck j] l]; [done|]. apply Forall_cons_iff in Harr as [Hj _]. cbn in Hj. lia. }
    destruct (clientRound_nothing n sid from target d c (sent ++ []) (pr_iter x) Hc) as (c1 & -> & Hc1). cbn [mbind option_bind].
    rewrite Z.add_0_r in Hh'. destruct (IH n sid from target d (sent ++ []) oh1 c1) as (oh2 & c2 & ->); try done; try lia. by exists oh2, c2.
  - apply Forall_cons_iff in Hpk as [Hp _]. cbn [fmap list_fmap length] in *. rewrite E in Hx |- *.
    destruct (clientRound_decodes n sid from target d c x sent us p Hc Hsid ltac:(unfold key_ok; lia) Ht0 Ht Hp Hx) as (c1 & d1 & E1 & Hc1 & Ed).
    rewrite E1. cbn [mbind option_bind].
    destruct (IH (n + 1) sid from target d1 (sent ++ dgs) oh1 c1) as (oh2 & c2 & E2); try done; try lia. rewrite <- E, E2. cbn [mbind option_bind].
    exists oh2, c2. subst d1. destruct (packetArrives x p); [|done]. by destruct (decodePacket _ _ _ _).
Qed.

(** ** The start *)

(** A transport with nothing of the stream in flight, in which no frame after [n] was
    seen; no sound waits. *)
Record quiet (n sid : Z) (from : Endpoint) (target : Z) t : Prop := {
  qt_hears : hears sid from t;
  qt_buffers : ra_frames (videoReassembly t) = ∅;
  qt_highest : 0 <= ra_highestStarted (videoReassembly t) <= n;
  qt_dropped : fits 64 (ra_droppedIncomplete (videoReassembly t));
  qt_queue : jb_queue (videoJitter t) = [];
  qt_last : 0 <= jb_lastPoppedSequence (videoJitter t);
  qt_popped : jb_initialized (videoJitter t) = true -> jb_lastPoppedSequence (videoJitter t) < n;
  qt_counters : fits 64 (jb_overflowDropped (videoJitter t)) /\ fits 64 (jb_reordered (videoJitter t));
  qt_target : videoTarget t = target;
  qt_audio : jb_queue (audioJitter t) = [] }.

Lemma quiet_reassembler t : ra_frames (videoReassembly t) = ∅ -> reassembler_ok (videoReassembly t).
Proof. intros E. split; rewrite E; [apply map_Forall_empty|by_decision]. Qed.

Lemma quiet_caughtUp n sid from target t : quiet n sid from target t -> caughtUp n sid from target t.
Proof.
  intros Q. destruct Q. split; [|done]. split_and!; [split; try done|by split|by rewrite qt_buffers0].
  split; try done; [by apply quiet_reassembler|]. intros k [x Hx]. by rewrite qt_buffers0 in Hx.
Qed.

Lemma quiet_heard n sid sent from target t : quiet n sid from target t -> n < 2 ^ 64 - 64 -> heard n sid sent [] [] [] from t.
Proof.
  intros Q Hn. destruct Q. pose proof (quiet_reassembler t qt_buffers0). split; try done; try (by constructor).
  - split; try done; [unfold key_ok; lia|]. intros k [x Hx]. by rewrite qt_buffers0 in Hx.
  - intros k x _ _. exists []. split; [by intros ? ?%not_elem_of_nil|]. split; [done|]. by rewrite qt_buffers0.
  - split; rewrite ?qt_queue0; try done; try (by constructor).
    + split; rewrite ?qt_queue0; try done; [constructor|cbn; lia].
    + split; [by rewrite qt_queue0|done].
  - by intros f x Hf%not_elem_of_nil.
Qed.

Lemma watching_impl P Q d c : (forall t, P t -> Q t) -> watching P d c -> watching Q d c.
Proof. intros HPQ [? ? ? (t & Et & Ht)]. split; try done. exists t. by split; [|apply HPQ]. Qed.

(** C2: what the host's encoder makes of its pictures is what the client decodes and
    shows. The two streamers run against each other without encryption, through their
    transports, with any requests to the host in between, while the network loses,
    delays and reorders datagrams as it likes. The decode loop never stops and no call
    of the client is undefined; and the pictures it presents are exactly those that the
    decoder gives for some of the encoder's packets put into it directly, with their
    bytes, time stamps and keyframe marks, in the order they were encoded, and none of
    them twice as long as the network repeats no datagram. Which ones: of a network that
    delivers picture by picture (at most one packet each, its datagrams in any order or
    lost, the poll when the last of them has waited for the target delay) exactly the
    packets all of whose datagrams arrive. In general also packets that complete too late
    are left out: after a later one was taken out, with the newest more than 64 ahead of
    what is collected, or before 16 others that wait. Packets have 1 to 1024 * 1100 bytes, the sequence numbers do not wrap, no sound is sent, and
    at the start nothing of the stream is in flight. *)
Theorem client_shows_what_the_host_encodes xs n sid from target d h c
  (Hh : hosting n sid h) (Hc : watching (quiet n sid from target) d c) (Hsid : fits 32 sid)
  (Hok : Forall packet_ok (encodedBy xs (Some h))) (Hn : n + zlen (encodedBy xs (Some h)) < 2 ^ 64 - 64)
  (Ht : 0 <= target /\ fits 64 (target * 1000000)) :
  exists ks log oh' c', streamRun from xs [] (Some h) c = Some (fst (decodeLog log d), oh', c') /\
    Forall2 (fun k e => encodedBy xs (Some h) !! k = Some (snd e)) ks log /\
    StronglySorted le ks /\ (NoDup (arrivals xs) -> NoDup ks) /\
    (picturewise target xs 0 (Some h) -> fst (decodeLog log d) = directRun xs (Some h) d).
Proof.
  assert (Hpos : 0 <= n) by (destruct Hc as [_ _ _ (t & _ & [])]; lia).
  set (enc := encodedBy xs (Some h)) in *.
  destruct (stream_hears n sid enc from Hsid Hpos Hn Hok xs [] [] [] [] [] d (Some h) c)
    as (fs & log & oh' & c' & js & hist & done & t & E & Hlog & Hheard & Hnm & Hsub); try done.
  { reflexivity. }
  { change (hosting (n + 0) sid h). by rewrite Z.add_0_r. }
  { eapply watching_impl; [|exact Hc]. intros t Ht'. eapply quiet_heard; [exact Ht'|lia]. }
  { constructor. }
  destruct (heard_order _ _ _ _ _ _ _ _ Hheard) as (_ & Hsort & Honce). cbn [app] in Hsort, Honce. rewrite app_nil_r in Hsub.
  exists (indexOf n <$> fs), log, oh', c'. split_and!; try done.
  - intros Hnd. apply Honce, (names_NoDup _ _ _ Hnm (positions_NoDup _ _)).
    apply submseteq_Permutation in Hsub as [k Ek]. rewrite Ek in Hnd. by apply list.NoDup_app in Hnd as [? _].
  - intros Hpic. destruct (stream_picturewise xs n sid from target d [] (Some h) c) as (oh2 & c2 & E2); try done; try apply Ht.
    { eapply watching_impl; [|exact Hc]. apply quiet_caughtUp. }
    cbn in E. rewrite E in E2. by injection E2.
Qed.

End Path.

(** * A host and a client, started *)

Definition readyHost : ZStreamer := setClientEndpoint (Some 77) startedStreamer.

Definition dueIter : IterIo :=
  mkIter 30000100 (fun _ => true) 30000100 dzero dzero 30000100 [] (WasapiPlayer.PiOk 480 WasapiPlayer.FmtExact)
    (WasapiPlayer.mkRio None false) 30000100 30000100 30000100.

(** Three pictures; the second is lost. *)
Definition sample_pictures : list PictureRound :=
  [mkPicture [] (sampleLoop AcqOk) 0 [(sample_clock, 0%nat)] dueIter;
   mkPicture [] (sampleLoop AcqOk) 0 [] dueIter;
   mkPicture [AskKeyframe; AskBitrate 9000] (sampleLoop AcqOk) 0 [(sample_clock, 2%nat)] dueIter].

(** The first one comes after the second. *)
Definition late_pictures : list PictureRound :=
  [mkPicture [] (sampleLoop AcqOk) 0 [] dueIter;
   mkPicture [] (sampleLoop AcqOk) 0 [(sample_clock, 1%nat)] dueIter;
   mkPicture [] (sampleLoop AcqOk) 0 [(sample_clock, 0%nat); (sample_clock, 2%nat)] dueIter].

Definition readyDecoder : VideoDecoder ToyDecoder := default sampleDecoder (cst_decoder startedClient).

Lemma readyHost_hosting : hosting 0 9 readyHost.
Proof. eexists. split; [vm_compute; reflexivity|]. by split. Qed.

Lemma startedClient_watching : watching (quiet 0 9 77 30) readyDecoder startedClient.
Proof.
  split; [by exists 0|done|done|]. eexists. split; [vm_compute; reflexivity|].
  split; by_decision.
Qed.

Lemma client_shows_what_the_host_encodes_witness :
  (exists h c, streamRun tightYuv420 77 sample_pictures [] (Some readyHost) startedClient =
    Some ([mkDf 24 3 2 5 true; mkDf 24 3 2 5 true], h, c)) /\
  exists ks out h c, streamRun tightYuv420 77 late_pictures [] (Some readyHost) startedClient = Some (out, h, c) /\
    StronglySorted le ks /\ NoDup ks.
Proof.
  pose (Hall := fun xs Hp Hn => client_shows_what_the_host_encodes tightYuv420 xs 0 9 77 30 readyDecoder readyHost startedClient
    readyHost_hosting startedClient_watching ltac:(by_decision) (bool_decide_eq_true_1 _ Hp) Hn ltac:(by_decision)).
  split.
  - destruct (Hall sample_pictures) as (ks & log & oh & c & E & _ & _ & _ & Hd); [vm_compute; reflexivity|vm_compute; reflexivity|].
    exists oh, c. refine (eq_trans E _); rewrite Hd; [vm_compute; reflexivity|].
    by_decision.
  - destruct (Hall late_pictures) as (ks & log & oh & c & E & _ & Hs & Hnd & _); [vm_compute; reflexivity|vm_compute; reflexivity|].
    exists ks. eexists _, oh, c. split_and!; [exact E|done|]. apply Hnd. by_decision.
Defined.
