(* ===== verification/LossRecovery.v ===== *)
(** What a lost frame leads to: the client's transport sees the gap, its io thread
    asks the host for a keyframe, the host's streamer hands the request to its encoder,
    and the next picture is drawn as a keyframe. The receive path of the client, the
    send path of its transport, the receive path of the host and the encoder are
    composed here; nothing is modelled. *)

From S2P Require Import Prelude Packet UdpHeader SequenceTracker Reassembler JitterBuffer.
From S2P Require Import UdpCrypto Crypto SecureChannel Double UdpTransport UdpTransportSpec MediaPath.
From S2P Require Import Types AudioCodec VideoEncoder ScreenCapture HostStreamer HostStreamerSpec.

Open Scope Z_scope.

(** A packet drawn after a request is a keyframe. *)
Lemma requested_picture_is_intra img srcW srcH stride io out e d :
  ve_keyframeRequested e = true -> er_draw (encode img srcW srcH stride io out e) = Some d -> dr_intra d = true.
Proof.
  intros Hk. unfold encode. destruct (_ || _); [done|]. cbv zeta. destruct (prepareScaler _ _ _ _ _ _) as [scaled hh].
  destruct scaled; cbn [negb]; [|done]. destruct (h_scaleBuffer hh); cbn [negb]; [|done].
  destruct (ei_writable io); cbn [negb]; [|done]. destruct (h_sws hh) as [sws|]; [|done].
  destruct (ei_send io), (ei_drained io); cbn [negb er_draw]; intros [= <-]; done.
Qed.

Lemma feed_type h p r f r' : feed h p r = FedOk (Some f) r' -> af_type f = uh_type h.
Proof.
  unfold feed, feedBuffer. intros Hf. repeat (case_match; try discriminate Hf); by injection Hf as <- _.
Qed.

Section Client.
Context {Endpoint : Type} `{EqDecision Endpoint} {Sink : Type} `{UdpCryptoSink Sink}.
Implicit Types t : UdpTransport (Endpoint := Endpoint) (Sink := Sink).

(** A transport that has a peer, sends in the clear, and has nothing queued. *)
Record quiet (sid : Z) t : Prop := {
  qu_canSend : canSend t = true;
  qu_secure : tr_secure t = None;
  qu_tasks : tr_tasks t = [];
  qu_session : cf_sessionId (tr_config t) = sid;
  qu_sequences : exists q, tr_seqCounter t !! Z.to_nat UdpKeyframeRequest = Some q /\ fits 64 q }.

(** Frames before [n] are missing, and the last request is half a second old. *)
Definition gapBefore (n : Z) (now : Z) t : Prop :=
  cf_autoKeyframeRequest (tr_config t) = true /\ st_initialized (md_videoSeq (tr_media t)) = true /\
  0 <= st_highest (md_videoSeq (tr_media t)) /\ st_highest (md_videoSeq (tr_media t)) + 1 < n < 2 ^ 63 /\
  500000000 < u64 (now - md_lastKeyframeReqNs (tr_media t)).

Lemma gap_measured q (s : SequenceTracker) :
  st_initialized s = true -> 0 <= st_highest s -> st_highest s + 1 < q < 2 ^ 63 -> 1 < fst (track q s).
Proof.
  intros Hi Hh Hq. unfold track. rewrite Hi. cbn [negb]. rewrite (proj2 (Z.ltb_lt _ _)) by lia. cbn [fst].
  unfold i64, to_signed. cbv zeta. rewrite Z.mod_small by lia. rewrite (proj2 (Z.ltb_lt _ _)) by lia. lia.
Qed.

(** A fragment behind a gap is fed as any other, and asks for a keyframe. *)
Lemma gap_asks kf sid n ts data i from ck t :
  0 < zlen data <= 1024 * 1100 -> fits 32 sid -> key_ok n -> fits 64 ts -> Z.of_nat i < nfrags data ->
  hears sid from t -> in_order n (md_videoReassembly (tr_media t)) -> canSend t = true -> gapBefore n (ck_keyframe ck) t ->
  exists t', handleDatagram (videoDatagram kf sid n ts data i) from ck t = UdpTransport.Handles [] t' /\
    tr_tasks t' = tr_tasks t ++ [TaskRequestKeyframe] /\ canSend t' = true /\ tr_peers t' = tr_peers t /\
    tr_secure t' = tr_secure t /\ tr_config t' = tr_config t /\ tr_seqCounter t' = tr_seqCounter t.
Proof.
  intros Hsize Hsid Hn Hts Hi Hl Ho Hcan (Hauto & Hini & Hhi & Hgap & Hlate).
  destruct (wire_fragment kf sid n ts data Hsid Hn Hts i Hsize Hi) as (W1 & W2 & W3 & W4 & W5).
  destruct (feed_in_order n _ _ _ Ho W5 eq_refl Hn) as (out & r & Ef & _).
  destruct (handle_clear _ _ from ck t W1 W2 W3 W4 Hl) as (t1 & Eh & _ & Lc & Lm & (S1 & S2 & S3 & S4 & S5)).
  destruct (S5 Hcan) as [S6 S7]. unfold videoDatagram. rewrite Eh. unfold dispatch.
  change (uh_type (fst (frag UdpVideo kf sid n ts data i))) with UdpVideo.
  cbn [Z.eqb UdpInput UdpPing UdpPong UdpControl UdpKeyframeRequest UdpStreamStart UdpStreamStop UdpVideo UdpAudio orb Pos.eqb].
  unfold feedVideo. rewrite Lm. cbn [updateArrival md_videoReassembly md_videoSeq md_lastKeyframeReqNs].
  change (uh_sequence (fst (frag UdpVideo kf sid n ts data i))) with n.
  pose proof (gap_measured n _ Hini Hhi Hgap) as Hg. destruct (track n _) as [gap vseq]. cbn [fst] in Hg.
  rewrite Ef, Lc, Hauto, (proj2 (Z.ltb_lt _ _) Hg), (proj2 (Z.ltb_lt _ _) Hlate). cbn [andb].
  destruct out as [f|].
  - apply feed_type in Ef. unfold handleMediaComplete. rewrite Ef.
    change (uh_type (fst (frag UdpVideo kf sid n ts data i))) with UdpVideo. cbn [Z.eqb UdpInput UdpVideo].
    eexists. split; [done|]. cbn. rewrite S1. by split_and!.
  - eexists. split; [done|]. cbn. rewrite S1. by split_and!.
Qed.

(** The datagram that asks. *)
Definition keyframeRequest (sid q now : Z) : bytes := header_bytes (smallHeader UdpKeyframeRequest 0 sid q now 1) ++ [0].

(** The io thread runs the request and then what the request queued. *)
Lemma request_is_sent sid q now t :
  canSend t = true -> tr_secure t = None -> tr_tasks t = [TaskRequestKeyframe] -> cf_sessionId (tr_config t) = sid ->
  tr_seqCounter t !! Z.to_nat UdpKeyframeRequest = Some q ->
  exists t', drainTasks 2 [true; true] now t = ([EvSend (pe_peer (tr_peers t)) (keyframeRequest sid q now)], t').
Proof.
  intros Hcan Hsec Hts Hsid Hq. pose proof Hcan as Hcan'. unfold canSend in Hcan'. b2p.
  assert (E : exists seqs, UdpTransport.requestKeyframe now (withTasks [] t) =
    postDatagram (keyframeRequest sid q now) (withSeq seqs (withTasks [] t))).
  { unfold UdpTransport.requestKeyframe, sendSmall. change (canSend (withTasks [] t)) with (canSend t). rewrite Hcan. cbn [negb].
    unfold nextSequence. cbn [withTasks tr_seqCounter]. rewrite (nth_lookup_Some _ _ _ _ Hq).
    cbn [withTasks withSeq tr_config]. rewrite Hsid, smallDatagram_bytes. by eexists. }
  destruct E as [seqs E]. cbn [drainTasks]. rewrite Hts. cbn [head default from_option id tail].
  unfold runNext at 1. rewrite Hts. cbn [runTask]. rewrite E. unfold runNext, postDatagram, post.
  cbn [withTasks withSeq tr_tasks app runTask tr_socket tr_peers tr_secure].
  assert (Hs : tr_socket t = true) by done. assert (Hp : pe_havePeer (tr_peers t) = true) by done.
  rewrite Hs, Hp, Hsec. cbn [andb negb socketSend tr_peers withTasks withSeq app]. eexists. done.
Qed.
End Client.

Section Host.
Context {Endpoint : Type} `{EqDecision Endpoint} {Sink : Type} `{UdpCryptoSink Sink} {F : Type} `{AvFifo F}.
Implicit Types t : UdpTransport (Endpoint := Endpoint) (Sink := Sink).
Implicit Types h : HostStreamer Endpoint Sink F.

Lemma request_header_ok sid q now :
  fits 32 sid -> fits 64 q -> fits 64 now ->
  header_typed (smallHeader UdpKeyframeRequest 0 sid q now 1) /\ header_valid (smallHeader UdpKeyframeRequest 0 sid q now 1).
Proof.
  intros Hs Hq Hn. unfold header_typed, header_valid, kMaxFragments.
  cbn [smallHeader uh_magic uh_version uh_type uh_flags uh_sessionId uh_sequence uh_fragmentIndex uh_fragmentCount uh_timestampNs uh_payloadSize].
  change (u16 1) with 1. split_and!; done || (widths; lia).
Qed.

(** The host's streamer gives the request to its encoder. *)
Lemma host_takes_request sid q now from ck oks nowNs h t e :
  fits 32 sid -> fits 64 q -> fits 64 now ->
  hst_transport h = Some t -> hears sid from t -> cf_controlCb (tr_config t) = true -> hst_encoder h = Some e ->
  exists h', HostStreamer.receive (keyframeRequest sid q now) from ck oks nowNs h = SOk ([], h') /\
    hst_encoder h' = Some (VideoEncoder.requestKeyframe e).
Proof.
  intros Hs Hq Hn Ht Hl Hc He. unfold HostStreamer.receive, keyframeRequest. rewrite Ht.
  destruct (request_header_ok sid q now Hs Hq Hn) as [H1 H2].
  destruct (handle_clear _ [0] from ck t H1 H2 eq_refl eq_refl Hl) as (t1 & -> & _ & Lc & _).
  unfold dispatch. change (uh_type (smallHeader UdpKeyframeRequest 0 sid q now 1)) with UdpKeyframeRequest.
  cbn [Z.eqb UdpPing UdpPong UdpControl UdpKeyframeRequest UdpStreamStart UdpStreamStop orb Pos.eqb].
  rewrite Lc, Hc. cbn [callbacks handleUdpControl UdpKeyframeRequest Z.eqb Pos.eqb app].
  unfold HostStreamer.requestKeyframe. change (hst_encoder (HostStreamer.setTransport (Some t1) h)) with (hst_encoder h).
  rewrite He. eexists. split; [done|]. done.
Qed.

(** C5: a lost frame brings a keyframe: when a fragment of a video frame arrives behind
    a gap, half a second after the last request, the client's transport, without
    encryption, sends the host one datagram; it makes the host's streamer ask its
    encoder; and the next picture that the encoder draws, whatever its source, is drawn
    as a keyframe. *)
Theorem lost_frame_brings_a_keyframe kf sid n ts data i from ck now (t : UdpTransport (Endpoint := Endpoint) (Sink := Sink))
  hostFrom hostCk oks nowNs (h : HostStreamer Endpoint Sink F) th e
  (Hsize : 0 < zlen data <= 1024 * 1100) (Hsid : fits 32 sid) (Hn : key_ok n) (Hts : fits 64 ts) (Hi : Z.of_nat i < nfrags data)
  (Hnow : fits 64 now) (Hl : hears sid from t) (Ho : in_order n (md_videoReassembly (tr_media t)))
  (Hq : quiet sid t) (Hgap : gapBefore n (ck_keyframe ck) t)
  (Hth : hst_transport h = Some th) (Hhost : hears sid hostFrom th) (Hcb : cf_controlCb (tr_config th) = true)
  (He : hst_encoder h = Some e) :
  exists t1 t2 dg h' e',
    handleDatagram (videoDatagram kf sid n ts data i) from ck t = UdpTransport.Handles [] t1 /\
    drainTasks 2 [true; true] now t1 = ([EvSend (pe_peer (tr_peers t)) dg], t2) /\
    HostStreamer.receive dg hostFrom hostCk oks nowNs h = SOk ([], h') /\ hst_encoder h' = Some e' /\
    forall img srcW srcH stride io out d, er_draw (encode img srcW srcH stride io out e') = Some d -> dr_intra d = true.
Proof.
  destruct Hq as [Q1 Q2 Q3 Q4 (q & Q5 & Q6)].
  destruct (gap_asks kf sid n ts data i from ck t Hsize Hsid Hn Hts Hi Hl Ho Q1 Hgap) as (t1 & E1 & T1 & T2 & T3 & T4 & T5 & T6).
  rewrite Q3 in T1. rewrite <- T4 in Q2. rewrite <- T5 in Q4. rewrite <- T6 in Q5.
  destruct (request_is_sent sid q now t1 T2 Q2 T1 Q4 Q5) as (t2 & E2). rewrite T3 in E2.
  destruct (host_takes_request sid q now hostFrom hostCk oks nowNs h th e Hsid Q6 Hnow Hth Hhost Hcb He) as (h' & E3 & E4).
  exists t1, t2, (keyframeRequest sid q now), h', (VideoEncoder.requestKeyframe e). split_and!; try done.
  intros img srcW srcH stride io out d. by apply requested_picture_is_intra.
Qed.

End Host.

(** ** A client that has seen frame 0, and gets frame 2 *)

Definition seenOne : ZTransport :=
  match handleDatagram (videoDatagram true 9 0 11 [5; 6] 0) 77 sample_clock (sample_transport None) with
  | UdpTransport.Handles _ t => t
  | HandleUB _ => sample_transport None
  end.

Definition late_clock : Clock := mkClock 600000000 600000000 600000000 600000000 600000000 600000000 600000000.

Definition listeningHost : ZStreamer := setClientEndpoint (Some 77) startedStreamer.

Definition listeningTransport : ZTransport := default (sample_transport None) (hst_transport listeningHost).
Definition listeningEncoder : VideoEncoder := default newEncoder (hst_encoder listeningHost).

Lemma seenOne_order : in_order 2 (md_videoReassembly (tr_media seenOne)).
Proof.
  split; [split; [intros k x Hx; discriminate Hx|by_decision]|by_decision|by_decision|intros k [x Hx]; discriminate Hx].
Qed.

Lemma lost_frame_brings_a_keyframe_witness :
  exists dg h' e',
    HostStreamer.receive dg 77 late_clock [] 0 listeningHost = SOk ([], h') /\ hst_encoder h' = Some e' /\
    forall d, er_draw (encode tightYuv420 1920 1080 7680 sampleIo [] e') = Some d -> dr_intra d = true.
Proof.
  assert (Hheard : forall t : ZTransport, tr_secure t = None -> cf_sessionId (tr_config t) = 9 -> pe_lockedRemote (tr_peers t) = None ->
    hears 9 77 t) by (intros t H1 H2 H3; split_and!; [done|by right|right; by left]).
  destruct (lost_frame_brings_a_keyframe false 9 2 13 [7] 0 77 late_clock 0 seenOne 77 late_clock [] 0 listeningHost
    listeningTransport listeningEncoder) as (t1 & t2 & dg & h' & e' & _ & _ & E3 & E4 & E5).
  - by_decision.
  - by_decision.
  - unfold key_ok. lia.
  - by_decision.
  - vm_compute. reflexivity.
  - by_decision.
  - apply Hheard; vm_compute; reflexivity.
  - apply seenOne_order.
  - split; [vm_compute; reflexivity..|]. exists 0. split; [vm_compute; reflexivity|by_decision].
  - split_and!; vm_compute; (reflexivity || discriminate).
  - vm_compute. reflexivity.
  - apply Hheard; vm_compute; reflexivity.
  - vm_compute. reflexivity.
  - vm_compute. reflexivity.
  - exists dg, h', e'. split_and!; [exact E3|exact E4|]. intros d. apply E5.
Defined.
