(* ===== verification/HostSession.v ===== *)
(** host/HostSession.h and host/HostSession.cpp: the host's side of a session.

    The network thread owns the client table; the public methods post tasks to
    it. Every handler below is one function of the source, as an action on the
    session's state that emits what the session does to the outside: frames
    handed to a connection, connections closed, callbacks fired. Log lines are
    not modelled. Time is the steady clock in nanoseconds, read where the
    handler reads it. *)

From stdpp Require Import sorting.
From S2P Require Import Prelude Types Packet Protocol SessionCodes TcpTransport OrderedMap.

Open Scope act_scope.

(** * Data *)

Record HostSessionParams := mkParams {
  hp_hostName : bytes; hp_gameName : bytes; hp_captureMode : CaptureMode; hp_resolution : Resolution;
  hp_fps : Z; hp_bitrateKbps : Z; hp_preferredCodec : VideoCodec; hp_listenPort : Z;
  hp_autoApprove : bool; hp_inputDefaults : InputPermissions; hp_maxClients : nat }.

Record ClientRow := mkRow {
  row_id : Z; row_name : bytes; row_state : ConnectionState; row_rttMs : Z;
  row_inputEnabled : bool; row_address : bytes }.

Definition defaultRow : ClientRow := mkRow 0 [] Disconnected 0 true [].

Record ClientRecord := mkRec {
  cl_id : Z; cl_name : bytes; cl_state : ConnectionState; cl_lastActivity : Z; cl_lastHostPing : Z;
  cl_connection : option Z; cl_input : InputPermissions; cl_rttMs : Z; cl_address : bytes }.

(** Tasks posted by the public methods. *)
Inductive HostTask :=
| HtStop
| HtApprove (clientId : Z) (accept : bool)
| HtKick (clientId : Z) (reason : bytes)
| HtSetInput (clientId : Z) (enableAll : bool)
| HtSendApp (clientId type : Z) (payload : bytes)
| HtDial (serverHost : bytes) (relayTcpPort : Z) (token : bytes)
| HtAttach (conn : Z) (addr : bytes).

(** What the session does to its connections, its dialers and its owner. *)
Inductive HostOut :=
| HoSend (conn type : Z) (payload : bytes)
| HoSendAndClose (conn type : Z) (payload : bytes)
| HoClose (conn : Z)
| HoStartConn (conn clientId : Z)
| HoDial (serverHost : bytes) (relayTcpPort : Z) (token role : bytes) (timeoutMs : Z)
| HoListening (port : Z) (sessionCode : bytes)
| HoApprovalRequest (clientId : Z) (name : bytes)
| HoClientUpdated (row : ClientRow)
| HoInputPermissions (clientId : Z) (perms : InputPermissions)
| HoAppMessage (clientId type : Z) (payload : bytes)
| HoStopped.

(** [hs_listening] is [server_] with its acceptor open, [hs_armed] the pending
    wait on [housekeeper_], [hs_dialers] the length of [relayDialers_];
    [hs_onAppMessage] says whether that callback was given. *)
Record HostSession := mkHost {
  hs_params : HostSessionParams; hs_onAppMessage : bool;
  hs_clients : list (Z * ClientRecord); hs_dialers : Z; hs_snapshot : list ClientRow;
  hs_nextClientId : Z; hs_sessionCode : bytes; hs_actualPort : Z;
  hs_running : bool; hs_stopping : bool; hs_listening : bool; hs_armed : bool;
  hs_tasks : list HostTask }.

Definition defaultParams : HostSessionParams :=
  mkParams (str "Host") [] CaptureWindow defaultResolution 60 8000 H264 kDefaultListenPort false defaultInputPermissions kMaxClients.

Definition newHost (onAppMessage : bool) : HostSession :=
  mkHost defaultParams onAppMessage [] 0 [] 1 [] 0 false false false false [].

Definition setClients (cs : list (Z * ClientRecord)) (h : HostSession) : HostSession :=
  mkHost (hs_params h) (hs_onAppMessage h) cs (hs_dialers h) (hs_snapshot h) (hs_nextClientId h)
    (hs_sessionCode h) (hs_actualPort h) (hs_running h) (hs_stopping h) (hs_listening h) (hs_armed h) (hs_tasks h).
Definition setDialers (n : Z) (h : HostSession) : HostSession :=
  mkHost (hs_params h) (hs_onAppMessage h) (hs_clients h) n (hs_snapshot h) (hs_nextClientId h)
    (hs_sessionCode h) (hs_actualPort h) (hs_running h) (hs_stopping h) (hs_listening h) (hs_armed h) (hs_tasks h).
Definition setSnapshot (rows : list ClientRow) (h : HostSession) : HostSession :=
  mkHost (hs_params h) (hs_onAppMessage h) (hs_clients h) (hs_dialers h) rows (hs_nextClientId h)
    (hs_sessionCode h) (hs_actualPort h) (hs_running h) (hs_stopping h) (hs_listening h) (hs_armed h) (hs_tasks h).
Definition setNextId (n : Z) (h : HostSession) : HostSession :=
  mkHost (hs_params h) (hs_onAppMessage h) (hs_clients h) (hs_dialers h) (hs_snapshot h) n
    (hs_sessionCode h) (hs_actualPort h) (hs_running h) (hs_stopping h) (hs_listening h) (hs_armed h) (hs_tasks h).
Definition setFlags (running stopping listening armed : bool) (h : HostSession) : HostSession :=
  mkHost (hs_params h) (hs_onAppMessage h) (hs_clients h) (hs_dialers h) (hs_snapshot h) (hs_nextClientId h)
    (hs_sessionCode h) (hs_actualPort h) running stopping listening armed (hs_tasks h).
Definition setTasks (ts : list HostTask) (h : HostSession) : HostSession :=
  mkHost (hs_params h) (hs_onAppMessage h) (hs_clients h) (hs_dialers h) (hs_snapshot h) (hs_nextClientId h)
    (hs_sessionCode h) (hs_actualPort h) (hs_running h) (hs_stopping h) (hs_listening h) (hs_armed h) ts.
Definition setSession (p : HostSessionParams) (code : bytes) (port : Z) (h : HostSession) : HostSession :=
  mkHost p (hs_onAppMessage h) (hs_clients h) (hs_dialers h) (hs_snapshot h) (hs_nextClientId h)
    code port (hs_running h) (hs_stopping h) (hs_listening h) (hs_armed h) (hs_tasks h).

Definition withState (st : ConnectionState) (r : ClientRecord) : ClientRecord :=
  mkRec (cl_id r) (cl_name r) st (cl_lastActivity r) (cl_lastHostPing r) (cl_connection r) (cl_input r)
    (cl_rttMs r) (cl_address r).
Definition withActivity (now : Z) (r : ClientRecord) : ClientRecord :=
  mkRec (cl_id r) (cl_name r) (cl_state r) now (cl_lastHostPing r) (cl_connection r) (cl_input r)
    (cl_rttMs r) (cl_address r).
Definition withHostPing (now : Z) (r : ClientRecord) : ClientRecord :=
  mkRec (cl_id r) (cl_name r) (cl_state r) (cl_lastActivity r) now (cl_connection r) (cl_input r)
    (cl_rttMs r) (cl_address r).
Definition withName (name : bytes) (r : ClientRecord) : ClientRecord :=
  mkRec (cl_id r) name (cl_state r) (cl_lastActivity r) (cl_lastHostPing r) (cl_connection r) (cl_input r)
    (cl_rttMs r) (cl_address r).
Definition withInput (p : InputPermissions) (r : ClientRecord) : ClientRecord :=
  mkRec (cl_id r) (cl_name r) (cl_state r) (cl_lastActivity r) (cl_lastHostPing r) (cl_connection r) p
    (cl_rttMs r) (cl_address r).
Definition withRtt (rtt : Z) (r : ClientRecord) : ClientRecord :=
  mkRec (cl_id r) (cl_name r) (cl_state r) (cl_lastActivity r) (cl_lastHostPing r) (cl_connection r) (cl_input r)
    rtt (cl_address r).

(** ** Timing constants, in nanoseconds *)

Definition seconds (s : Z) : Z := s * 1000000000.
Definition kHelloTimeout : Z := seconds 10.
Definition kApprovalTimeout : Z := seconds 75.
Definition kHeartbeatTimeout : Z := seconds 15.
Definition kPingPeriod : Z := seconds 2.

(** [static_cast<uint32_t>] of the milliseconds since the clock's epoch. *)
Definition sinceEpochMs (t : Z) : Z := u32 (t / 1000000).

(** * Handlers *)

Definition HAct : Type := act HostSession HostOut.

(** [clients_.find(id)] and its record, if there is one. *)
Definition withClient (id : Z) (k : ClientRecord -> HAct) : HAct :=
  readA (fun h => match om_lookup id (hs_clients h) with Some r => k r | None => skip end).

(** Assignment through the reference [it->second]. *)
Definition putClient (id : Z) (r : ClientRecord) : HAct :=
  modify (fun h => setClients (om_insert id r (hs_clients h)) h).

Definition rowOf (kv : Z * ClientRecord) : ClientRow :=
  let '(id, rec) := kv in
  mkRow id (cl_name rec) (cl_state rec) (cl_rttMs rec) (negb (allDisabled (cl_input rec))) (cl_address rec).

Definition rebuildSnapshot : HAct := modify (fun h => setSnapshot (rowOf <$> hs_clients h) h).

Definition connOut (c : option Z) (f : Z -> HostOut) : HAct :=
  match c with Some conn => emit [f conn] | None => skip end.

Definition sendTo (id : Z) (msg : Envelope) : HAct :=
  withClient id (fun r =>
    connOut (cl_connection r) (fun conn => HoSend conn (idCode (env_type msg)) (encodeMessage msg))).

Definition sendAndClose (id : Z) (msg : Envelope) : HAct :=
  withClient id (fun r =>
    connOut (cl_connection r) (fun conn => HoSendAndClose conn (idCode (env_type msg)) (encodeMessage msg))).

(** The first row of the snapshot with this id; the default row when there is
    none. *)
Definition snapshotRow (id : Z) (rows : list ClientRow) : ClientRow :=
  match List.find (fun r => row_id r =? id) rows with Some r => r | None => defaultRow end.

Definition setState (id : Z) (st : ConnectionState) : HAct :=
  withClient id (fun r =>
    putClient id (withState st r) ;+
    rebuildSnapshot ;+
    readA (fun h => emit [HoClientUpdated (snapshotRow id (hs_snapshot h))])).

Definition pushInputPermissions (id : Z) : HAct :=
  withClient id (fun r =>
    let i := cl_input r in
    sendTo id (mkEnvelope IdInputPermission
      (BInputPermission (mkInputPermission (perm_controller i) (perm_keyboard i) (perm_mouse i) (perm_vibration i)))) ;+
    emit [HoInputPermissions id i]).

Definition rejectMsg (reason : Reason) (text : bytes) : Envelope :=
  mkEnvelope IdHostReject (BHostReject (mkHostReject (reasonCode reason) text)).

Definition dropClient (id : Z) (sendReject : bool) (reason : Reason) (text : bytes) : HAct :=
  withClient id (fun r =>
    (if sendReject then sendAndClose id (rejectMsg reason text) else connOut (cl_connection r) HoClose) ;+
    setState id Disconnected ;+
    modify (fun h => setClients (om_erase id (hs_clients h)) h) ;+
    rebuildSnapshot).

(** [std::unique] followed by [erase]: consecutive duplicates removed. *)
Fixpoint std_unique (cs : list VideoCodec) : list VideoCodec :=
  match cs with
  | a :: ((b :: _) as rest) => if a =? b then std_unique rest else a :: std_unique rest
  | _ => cs
  end.

Definition hostCapabilities (p : HostSessionParams) : HostCapabilities :=
  mkHostCapabilities (hp_hostName p) (hp_gameName p) (u8 (captureModeCode (hp_captureMode p)))
    (u16 (res_width (hp_resolution p))) (u16 (res_height (hp_resolution p)))
    (u8 (Z.min (hp_fps p) 255)) (hp_bitrateKbps p) (std_unique [hp_preferredCodec p; H264]).

(** ** Posted tasks *)

Definition doApprove (now : Z) (id : Z) (accept : bool) : HAct :=
  withClient id (fun rec =>
    if negb (bool_decide (cl_state rec = Authenticating)) then skip
    else if negb accept then
      dropClient id true RRejectedByHost (str "The host rejected your join request.")
    else
      readA (fun h =>
        sendTo id (mkEnvelope IdHostApproved BHostApproved) ;+
        sendTo id (mkEnvelope IdHostCapabilities (BHostCapabilities (hostCapabilities (hs_params h)))) ;+
        putClient id (withActivity now rec))).

Definition doKick (id : Z) (reason : bytes) : HAct :=
  withClient id (fun _ =>
    sendAndClose id (mkEnvelope IdKick (BKick (mkKick reason))) ;+
    setState id Disconnected).

Definition doSetInput (id : Z) (enableAll : bool) : HAct :=
  withClient id (fun rec =>
    readA (fun h =>
      putClient id (withInput (if enableAll then hp_inputDefaults (hs_params h)
                               else mkInputPermissions false false false false) rec)) ;+
    pushInputPermissions id).

Definition doSendApp (id type : Z) (payload : bytes) : HAct :=
  withClient id (fun rec => connOut (cl_connection rec) (fun conn => HoSend conn type payload)).

(** The dialer is parked and the oldest of more than eight is destroyed. *)
Definition doDial (serverHost : bytes) (relayTcpPort : Z) (token : bytes) : HAct :=
  emit [HoDial serverHost relayTcpPort token (str "host") 10000] ;+
  modify (fun h => let n := hs_dialers h + 1 in setDialers (if 8 <? n then n - 1 else n) h).

Definition handleNewConnection (now conn : Z) (addr : bytes) : HAct :=
  readA (fun h =>
    if hs_stopping h then emit [HoClose conn]
    else
      let id := hs_nextClientId h in
      modify (setNextId (u32 (id + 1))) ;+
      putClient id (mkRec id (str "pending") Connecting now 0 (Some conn) defaultInputPermissions 0 addr) ;+
      rebuildSnapshot ;+
      emit [HoStartConn conn id]).

Definition doStop : HAct :=
  readA (fun h =>
    modify (setFlags (hs_running h) (hs_stopping h) false false) ;+
    forA (hs_clients h) (fun kv => connOut (cl_connection (snd kv)) HoClose)).

Definition runTask (now : Z) (t : HostTask) : HAct :=
  match t with
  | HtStop => doStop
  | HtApprove id accept => doApprove now id accept
  | HtKick id reason => doKick id reason
  | HtSetInput id enableAll => doSetInput id enableAll
  | HtSendApp id type payload => doSendApp id type payload
  | HtDial host port token => doDial host port token
  | HtAttach conn addr => handleNewConnection now conn addr
  end.

Definition post (t : HostTask) : HAct := modify (fun h => setTasks (hs_tasks h ++ [t]) h).

(** ** Frames from a client *)

Definition approveClient (id : Z) (accept : bool) : HAct := post (HtApprove id accept).

Definition handleClientHello (id : Z) (hello : ClientHello) : HAct :=
  withClient id (fun rec =>
    if negb (bool_decide (cl_state rec = Connecting)) then skip
    else
      let name := if bool_decide (hello_clientName hello = []) then str "Player" else hello_clientName hello in
      let rec := withName name rec in
      putClient id rec ;+
      readA (fun h =>
        if (hp_maxClients (hs_params h) <? length (hs_clients h))%nat then
          dropClient id true RServerFull (str "The session already has the maximum number of players.")
        else if negb (verifySessionCode (hello_sessionCode hello) (hs_sessionCode h)) then
          dropClient id true RBadSessionCode (str "Invalid session code.")
        else
          putClient id (withInput (hp_inputDefaults (hs_params h)) (withState Authenticating rec)) ;+
          rebuildSnapshot ;+
          if hp_autoApprove (hs_params h) then approveClient id true
          else emit [HoApprovalRequest id name])).

Definition negotiationResult (p : HostSessionParams) (negotiated : option VideoCodec) : NegotiationResult :=
  match negotiated with
  | None => mkNegotiationResult false 0 0 0 0 0 (str "No common video codec between host and client.")
  | Some c =>
      mkNegotiationResult true (u8 c) (u16 (res_width (hp_resolution p))) (u16 (res_height (hp_resolution p)))
        (u8 (Z.min (hp_fps p) 255)) (hp_bitrateKbps p) (videoCodecString c)
  end.

Definition handleClientCapabilities (id : Z) (caps : ClientCapabilities) : HAct :=
  withClient id (fun rec =>
    if negb (bool_decide (cl_state rec = Authenticating)) then skip
    else readA (fun h =>
      let negotiated := negotiateCodec [hp_preferredCodec (hs_params h); H264] (cc_supportedCodecs caps) in
      sendTo id (mkEnvelope IdNegotiationResult (BNegotiationResult (negotiationResult (hs_params h) negotiated))) ;+
      match negotiated with
      | None => dropClient id true RNoCommonCodec (str "No common codec.")
      | Some _ => setState id Connected ;+ pushInputPermissions id
      end)).

Definition handlePing (id : Z) (ping : Ping) : HAct :=
  sendTo id (mkEnvelope IdPong (BPong (mkPong (ping_epochMs ping)))).

Definition handlePong (now : Z) (id : Z) (pong : Pong) : HAct :=
  withClient id (fun rec =>
    let sample := u32 (sinceEpochMs now - u32 (pong_echoEpochMs pong)) in
    putClient id (withRtt (if cl_rttMs rec =? 0 then sample else u32 (u32 (cl_rttMs rec * 7) + sample) / 8) rec) ;+
    rebuildSnapshot).

Definition handleBye (id : Z) (bye : Bye) : HAct := dropClient id false ROk (bye_reason bye).

Definition handleFrame (now : Z) (id type flags : Z) (data : bytes) : HAct :=
  readA (fun h =>
    if hs_stopping h then skip
    else if negb (knownId type) then dropClient id true RProtocolError (str "Unknown message type.")
    else withClient id (fun rec =>
      putClient id (withActivity now rec) ;+
      match decodeMessage type data with
      | None => dropClient id true RProtocolError (str "Malformed message.")
      | Some env =>
          match env_body env with
          | BClientHello m => handleClientHello id m
          | BClientCapabilities m => handleClientCapabilities id m
          | BPing m => handlePing id m
          | BPong m => handlePong now id m
          | BBye m => handleBye id m
          | _ =>
              if (0x0010 <=? type) && bool_decide (cl_state rec = Connected) && hs_onAppMessage h then
                emit [HoAppMessage id type data]
              else dropClient id true RProtocolError (str "Unexpected message in current state.")
          end
      end)).

Definition handleClientClosed (id : Z) : HAct :=
  readA (fun h =>
    if hs_stopping h then skip
    else withClient id (fun rec =>
      modify (fun h => setClients (om_erase id (hs_clients h)) h) ;+
      rebuildSnapshot ;+
      emit [HoClientUpdated (mkRow id (cl_name rec) Disconnected 0 (negb (allDisabled (cl_input rec))) (cl_address rec))])).

(** ** The housekeeping timer *)

Definition idleLimit (st : ConnectionState) : option Z :=
  match st with
  | Connecting => Some kHelloTimeout
  | Authenticating => Some kApprovalTimeout
  | Connected | Streaming => Some kHeartbeatTimeout
  | Disconnected => None
  end.

Definition timedOut (now : Z) (rec : ClientRecord) : bool :=
  match idleLimit (cl_state rec) with
  | Some limit => limit <? now - cl_lastActivity rec
  | None => false
  end.

Definition active (st : ConnectionState) : bool :=
  match st with Connected | Streaming => true | _ => false end.

Definition pingDue (now : Z) (rec : ClientRecord) : bool :=
  active (cl_state rec) && ((cl_lastHostPing rec =? 0) || (kPingPeriod <=? now - cl_lastHostPing rec)).

Definition probe (now : Z) (kv : Z * ClientRecord) : HAct :=
  let '(id, rec) := kv in
  if pingDue now rec then
    putClient id (withHostPing now rec) ;+
    sendTo id (mkEnvelope IdPing (BPing (mkPing (sinceEpochMs now))))
  else skip.

Definition housekeeping (now : Z) : HAct :=
  readA (fun h =>
    let toDrop := fst <$> List.filter (fun kv => timedOut now (snd kv)) (hs_clients h) in
    forA (hs_clients h) (probe now) ;+
    forA toDrop (fun id => dropClient id true RInactivityTimeout (str "Connection timed out."))) ;+
  modify (fun h => setFlags (hs_running h) (hs_stopping h) (hs_listening h) true h).

(** * The session as a whole *)

(** What the network thread runs. *)
Inductive IoEvent :=
| IoTask (now : Z)
| IoAccept (now conn : Z) (addr : bytes)
| IoRelayDone (now : Z) (result : option (Z * bytes))
| IoFrame (now clientId type flags : Z) (data : bytes)
| IoClosed (clientId : Z)
| IoTimer (now : Z).

Definition io (e : IoEvent) : HAct :=
  match e with
  | IoTask now =>
      readA (fun h => match hs_tasks h with
                      | [] => skip
                      | t :: ts => modify (setTasks ts) ;+ runTask now t
                      end)
  | IoAccept now conn addr =>
      readA (fun h => if hs_listening h then handleNewConnection now conn addr else skip)
  | IoRelayDone now (Some (conn, addr)) => handleNewConnection now conn addr
  | IoRelayDone _ None => skip
  | IoFrame now id type flags data => handleFrame now id type flags data
  | IoClosed id => handleClientClosed id
  | IoTimer now =>
      readA (fun h => if hs_armed h then
                        modify (fun h => setFlags (hs_running h) (hs_stopping h) (hs_listening h) false h) ;+
                        (if hs_stopping h then skip else housekeeping now)
                      else skip)
  end.

(** [start]: [code] is the generated session code, [bind p] the port a listener
    on [p] gets, or [None] when it cannot be bound. *)
Definition start (p : HostSessionParams) (code : bytes) (bind : Z -> option Z) : HAct :=
  readA (fun h =>
    if hs_running h then skip
    else
      match (match bind (hp_listenPort p) with Some port => Some port | None => bind 0 end) with
      | None =>
          modify (setSession p code (hs_actualPort h)) ;+
          modify (setFlags false false (hs_listening h) (hs_armed h))
      | Some port =>
          modify (setSession p code port) ;+
          modify (setFlags true false true true) ;+
          emit [HoListening port code]
      end).

Definition start_result (p : HostSessionParams) (bind : Z -> option Z) (h : HostSession) : bool :=
  hs_running h || bool_decide (is_Some (bind (hp_listenPort p))) || bool_decide (is_Some (bind 0)).

(** [stop]: [ran] is what the network thread still runs before [io_.stop()]
    takes effect; the tasks left in the queue stay there. *)
Definition stop (ran : list IoEvent) : HAct :=
  readA (fun h =>
    if negb (hs_running h) then skip
    else
      modify (setFlags false true (hs_listening h) (hs_armed h)) ;+
      post HtStop ;+
      forA ran io ;+
      modify (setSnapshot []) ;+
      modify (setClients []) ;+
      readA (fun h => modify (setFlags (hs_running h) (hs_stopping h) false (hs_armed h))) ;+
      emit [HoStopped]).

Definition kickClient (id : Z) (reason : bytes) : HAct := post (HtKick id reason).
Definition setClientInput (id : Z) (enableAll : bool) : HAct := post (HtSetInput id enableAll).
Definition sendAppMessage (id type : Z) (payload : bytes) : HAct :=
  if type <? 0x0010 then skip else post (HtSendApp id type payload).
Definition connectRelayClient (serverHost : bytes) (relayTcpPort : Z) (token : bytes) : HAct :=
  post (HtDial serverHost relayTcpPort token).
Definition attachConnection (conn : Z) (addr : bytes) : HAct := post (HtAttach conn addr).
Definition clients (h : HostSession) : list ClientRow := hs_snapshot h.

Inductive HostEvent :=
| HeStart (p : HostSessionParams) (code : bytes) (bind : Z -> option Z)
| HeStop (ran : list IoEvent)
| HeApprove (id : Z) (accept : bool)
| HeKick (id : Z) (reason : bytes)
| HeSetInput (id : Z) (enableAll : bool)
| HeSendApp (id type : Z) (payload : bytes)
| HeDial (serverHost : bytes) (relayTcpPort : Z) (token : bytes)
| HeAttach (conn : Z) (addr : bytes)
| HeIo (e : IoEvent).

(** The network thread runs between a successful [start] and [stop]. *)
Definition hostStep (e : HostEvent) : HAct :=
  match e with
  | HeStart p code bind => start p code bind
  | HeStop ran => stop ran
  | HeApprove id accept => approveClient id accept
  | HeKick id reason => kickClient id reason
  | HeSetInput id enableAll => setClientInput id enableAll
  | HeSendApp id type payload => sendAppMessage id type payload
  | HeDial host port token => connectRelayClient host port token
  | HeAttach conn addr => attachConnection conn addr
  | HeIo e => readA (fun h => if hs_running h then io e else skip)
  end.

Definition hostRun (es : list HostEvent) : HAct := forA es hostStep.
