(* ===== verification/HostSessionSpec.v ===== *)
(** Properties of the host session: its client state machine, who is admitted,
    what the published snapshot shows, and the housekeeping timer. *)

From stdpp Require Import sorting.
From S2P Require Import Prelude Types Packet Protocol SessionCodes TcpTransport OrderedMap HostSession.

Open Scope act_scope.

(** * What each helper leaves behind *)

Definition putClients (cs : list (Z * ClientRecord)) (h : HostSession) : HostSession :=
  setSnapshot (rowOf <$> cs) (setClients cs h).

Lemma fin_withClient id k h :
  snd (withClient id k h) = match om_lookup id (hs_clients h) with Some r => snd (k r h) | None => h end.
Proof. unfold withClient, readA. by destruct (om_lookup id (hs_clients h)). Qed.

Lemma out_withClient id k h :
  fst (withClient id k h) = match om_lookup id (hs_clients h) with Some r => fst (k r h) | None => [] end.
Proof. unfold withClient, readA. by destruct (om_lookup id (hs_clients h)). Qed.

Lemma fin_connOut c f h : snd (connOut c f h) = h.
Proof. by destruct c. Qed.

Lemma fin_sendTo id m h : snd (sendTo id m h) = h.
Proof. unfold sendTo. rewrite fin_withClient. destruct (om_lookup _ _); [apply fin_connOut|done]. Qed.

Lemma fin_sendAndClose id m h : snd (sendAndClose id m h) = h.
Proof. unfold sendAndClose. rewrite fin_withClient. destruct (om_lookup _ _); [apply fin_connOut|done]. Qed.

Lemma fin_putClient id r h : snd (putClient id r h) = setClients (om_insert id r (hs_clients h)) h.
Proof. done. Qed.

Lemma out_putClient id r h : fst (putClient id r h) = [].
Proof. done. Qed.

Lemma fin_rebuild h : snd (rebuildSnapshot h) = setSnapshot (rowOf <$> hs_clients h) h.
Proof. done. Qed.

Lemma out_rebuild h : fst (rebuildSnapshot h) = [].
Proof. done. Qed.

Lemma fin_post t h : snd (post t h) = setTasks (hs_tasks h ++ [t]) h.
Proof. done. Qed.

#[export] Hint Rewrite fin_connOut fin_sendTo fin_sendAndClose fin_putClient out_putClient fin_rebuild
  out_rebuild fin_post : fin.

Lemma fin_setState id st h :
  snd (setState id st h) =
  match om_lookup id (hs_clients h) with
  | Some r => putClients (om_insert id (withState st r) (hs_clients h)) h
  | None => h
  end.
Proof.
  unfold setState. rewrite fin_withClient. destruct (om_lookup _ _) eqn:E; [|done].
  by autorewrite with fin.
Qed.

Lemma fin_push id h : snd (pushInputPermissions id h) = h.
Proof.
  unfold pushInputPermissions. rewrite fin_withClient. destruct (om_lookup _ _); [|done].
  by autorewrite with fin.
Qed.

Lemma fin_dropClient id b reason text h :
  snd (dropClient id b reason text h) =
  match om_lookup id (hs_clients h) with
  | Some _ => putClients (om_erase id (hs_clients h)) h
  | None => h
  end.
Proof.
  unfold dropClient. rewrite fin_withClient. destruct (om_lookup _ _) eqn:E; [|done].
  autorewrite with fin. rewrite fin_setState.
  replace (if b then h else h) with h by (by destruct b). rewrite E. unfold putClients.
  cbn [hs_clients setClients setSnapshot hs_snapshot]. by rewrite om_erase_insert.
Qed.

#[export] Hint Rewrite fin_setState fin_push fin_dropClient fin_withClient : fin.

(** The four ways a handler can leave the client table. *)
Lemma fin_doApprove now id accept h :
  snd (doApprove now id accept h) =
  match om_lookup id (hs_clients h) with
  | Some r =>
      if bool_decide (cl_state r = Authenticating) then
        if accept then setClients (om_insert id (withActivity now r) (hs_clients h)) h
        else putClients (om_erase id (hs_clients h)) h
      else h
  | None => h
  end.
Proof.
  unfold doApprove. rewrite fin_withClient. destruct (om_lookup _ _) eqn:E; [|done].
  destruct (bool_decide _); cbn [negb]; [|done]. destruct accept; cbn [negb]; autorewrite with fin; [done|].
  by rewrite E.
Qed.

Lemma fin_doKick id reason h :
  snd (doKick id reason h) =
  match om_lookup id (hs_clients h) with
  | Some r => putClients (om_insert id (withState Disconnected r) (hs_clients h)) h
  | None => h
  end.
Proof.
  unfold doKick. rewrite fin_withClient. destruct (om_lookup _ _) eqn:E; [|done].
  autorewrite with fin. by rewrite E.
Qed.

Definition helloName (m : ClientHello) : bytes :=
  if bool_decide (hello_clientName m = []) then str "Player" else hello_clientName m.

(** The record an admitted client gets. *)
Definition admitted (h : HostSession) (m : ClientHello) (r : ClientRecord) : ClientRecord :=
  withInput (hp_inputDefaults (hs_params h)) (withState Authenticating (withName (helloName m) r)).

Definition fitsIn (h : HostSession) (cs : list (Z * ClientRecord)) : bool :=
  (length cs <=? hp_maxClients (hs_params h))%nat.

Lemma om_insert_same_length {V} k (v : V) m w :
  om_sorted m -> om_lookup k m = Some w -> length (om_insert k v m) = length m.
Proof.
  intros Hs Hl. rewrite <- !(length_fmap fst), <- (om_insert_fmap fst k v w m Hs Hl eq_refl). done.
Qed.

Lemma fin_handleClientHello id m h r :
  om_lookup id (hs_clients h) = Some r ->
  om_sorted (hs_clients h) ->
  cl_state r = Connecting ->
  let h' := snd (handleClientHello id m h) in
  if fitsIn h (hs_clients h) && verifySessionCode (hello_sessionCode m) (hs_sessionCode h) then
    exists ts, h' = setTasks ts (putClients (om_insert id (admitted h m r) (hs_clients h)) h)
  else h' = putClients (om_erase id (hs_clients h)) h.
Proof.
  intros E Hs Est. cbv zeta. unfold handleClientHello. rewrite fin_withClient, E, Est.
  change (bool_decide (Connecting = Connecting)) with true. cbn [negb].
  rewrite fin_seq, fin_putClient, fin_read. cbn [hs_params setClients hs_clients hs_sessionCode].
  rewrite (om_insert_same_length _ _ _ _ Hs E). unfold fitsIn. rewrite Nat.leb_antisym.
  destruct (_ <? _)%nat; cbn [negb andb].
  { rewrite fin_dropClient. cbn [hs_clients setClients]. rewrite om_lookup_insert_eq.
    unfold putClients. cbn [hs_clients setClients setSnapshot]. by rewrite om_erase_insert. }
  destruct (verifySessionCode _ _); cbn [negb andb].
  - rewrite !fin_seq, fin_putClient, fin_rebuild. cbn [hs_clients setClients].
    rewrite om_insert_insert. destruct (hp_autoApprove _); [eexists; reflexivity|].
    exists (hs_tasks h). reflexivity.
  - rewrite fin_dropClient. cbn [hs_clients setClients]. rewrite om_lookup_insert_eq.
    unfold putClients. cbn [hs_clients setClients setSnapshot]. by rewrite om_erase_insert.
Qed.

Lemma fin_handleClientCapabilities id caps h r :
  om_lookup id (hs_clients h) = Some r ->
  snd (handleClientCapabilities id caps h) =
  if bool_decide (cl_state r = Authenticating) then
    match negotiateCodec [hp_preferredCodec (hs_params h); H264] (cc_supportedCodecs caps) with
    | Some _ => putClients (om_insert id (withState Connected r) (hs_clients h)) h
    | None => putClients (om_erase id (hs_clients h)) h
    end
  else h.
Proof.
  intros E. unfold handleClientCapabilities. rewrite fin_withClient, E.
  destruct (bool_decide _); cbn [negb]; [|done]. rewrite fin_read, fin_seq, fin_sendTo.
  destruct (negotiateCodec _ _); autorewrite with fin; by rewrite E.
Qed.

Lemma fin_handlePong now id pong h r :
  om_lookup id (hs_clients h) = Some r ->
  exists rtt, snd (handlePong now id pong h) = putClients (om_insert id (withRtt rtt r) (hs_clients h)) h.
Proof. intros E. unfold handlePong. rewrite fin_withClient, E. by eexists. Qed.

Lemma fin_handleNewConnection now conn addr h :
  snd (handleNewConnection now conn addr h) =
  if hs_stopping h then h
  else setNextId (u32 (hs_nextClientId h + 1))
         (putClients (om_insert (hs_nextClientId h)
            (mkRec (hs_nextClientId h) (str "pending") Connecting now 0 (Some conn) defaultInputPermissions 0 addr)
            (hs_clients h)) h).
Proof. unfold handleNewConnection. rewrite fin_read. by destruct (hs_stopping h). Qed.

Lemma fin_handleClientClosed id h :
  snd (handleClientClosed id h) =
  if hs_stopping h then h
  else match om_lookup id (hs_clients h) with
       | Some _ => putClients (om_erase id (hs_clients h)) h
       | None => h
       end.
Proof.
  unfold handleClientClosed. rewrite fin_read. destruct (hs_stopping h); [done|].
  rewrite fin_withClient. by destruct (om_lookup _ _).
Qed.

(** * Changes of the client table

    A handler is a run of quiet changes (a record's bookkeeping, a client
    removed, fields outside the table) and at most one admission step. *)

Definition sameSession (h h' : HostSession) : Prop :=
  hs_params h' = hs_params h /\ hs_sessionCode h' = hs_sessionCode h /\ hs_running h' = hs_running h.

Inductive quiet (h h' : HostSession) : Prop :=
| q_touch id r r' :
    sameSession h h' -> hs_nextClientId h' = hs_nextClientId h ->
    om_lookup id (hs_clients h) = Some r -> hs_clients h' = om_insert id r' (hs_clients h) ->
    (cl_name r', cl_state r', cl_rttMs r', cl_address r') = (cl_name r, cl_state r, cl_rttMs r, cl_address r) ->
    hs_snapshot h' = hs_snapshot h -> quiet h h'
| q_put id r r' :
    sameSession h h' -> hs_nextClientId h' = hs_nextClientId h ->
    om_lookup id (hs_clients h) = Some r -> hs_clients h' = om_insert id r' (hs_clients h) ->
    cl_state r' = cl_state r -> hs_snapshot h' = rowOf <$> hs_clients h' -> quiet h h'
| q_erase id :
    sameSession h h' -> hs_nextClientId h' = hs_nextClientId h ->
    hs_clients h' = om_erase id (hs_clients h) -> hs_snapshot h' = rowOf <$> hs_clients h' -> quiet h h'
| q_other :
    sameSession h h' -> hs_nextClientId h' = hs_nextClientId h ->
    hs_clients h' = hs_clients h -> hs_snapshot h' = hs_snapshot h -> quiet h h'.

(** The message an event delivers, and the client the task at the head of the
    queue kicks. *)
Definition messageOf (e : IoEvent) : option (Z * Body) :=
  match e with
  | IoFrame _ id type _ data => env ← decodeMessage type data; Some (id, env_body env)
  | _ => None
  end.

Definition kickOf (e : IoEvent) (h : HostSession) : option Z :=
  match e, hs_tasks h with
  | IoTask _, HtKick id _ :: _ => Some id
  | _, _ => None
  end.

Inductive admission (msg : option (Z * Body)) (kick : option Z) (h h' : HostSession) : Prop :=
| a_hello id m r :
    msg = Some (id, BClientHello m) -> om_lookup id (hs_clients h) = Some r -> cl_state r = Connecting ->
    (length (hs_clients h) <= hp_maxClients (hs_params h))%nat ->
    verifySessionCode (hello_sessionCode m) (hs_sessionCode h) = true ->
    sameSession h h' -> hs_nextClientId h' = hs_nextClientId h ->
    hs_clients h' = om_insert id (admitted h m r) (hs_clients h) ->
    hs_snapshot h' = rowOf <$> hs_clients h' -> admission msg kick h h'
| a_caps id caps r codec :
    msg = Some (id, BClientCapabilities caps) -> om_lookup id (hs_clients h) = Some r ->
    cl_state r = Authenticating ->
    negotiateCodec [hp_preferredCodec (hs_params h); H264] (cc_supportedCodecs caps) = Some codec ->
    sameSession h h' -> hs_nextClientId h' = hs_nextClientId h ->
    hs_clients h' = om_insert id (withState Connected r) (hs_clients h) ->
    hs_snapshot h' = rowOf <$> hs_clients h' -> admission msg kick h h'
| a_kick id r :
    kick = Some id -> om_lookup id (hs_clients h) = Some r ->
    sameSession h h' -> hs_nextClientId h' = hs_nextClientId h ->
    hs_clients h' = om_insert id (withState Disconnected r) (hs_clients h) ->
    hs_snapshot h' = rowOf <$> hs_clients h' -> admission msg kick h h'
| a_new r :
    hs_clients h' = om_insert (hs_nextClientId h) r (hs_clients h) -> cl_state r = Connecting ->
    sameSession h h' -> hs_nextClientId h' = u32 (hs_nextClientId h + 1) ->
    hs_snapshot h' = rowOf <$> hs_clients h' -> admission msg kick h h'.

Definition changes (msg : option (Z * Body)) (kick : option Z) (h h' : HostSession) : Prop :=
  exists h1, rtc quiet h h1 /\
    (h' = h1 \/ (admission msg kick h1 h' /\ length (hs_clients h1) = length (hs_clients h))).

Lemma changes_quiet msg kick h h' : rtc quiet h h' -> changes msg kick h h'.
Proof. intros H. exists h'. eauto. Qed.

Lemma changes_quiet_l msg kick h h1 h' :
  quiet h h1 -> length (hs_clients h1) = length (hs_clients h) ->
  changes msg kick h1 h' -> changes msg kick h h'.
Proof.
  intros Hq El (h2 & H & Ha). exists h2. split; [by eapply rtc_l|].
  destruct Ha as [->|[Ha E]]; [by left|right]. split; [done|congruence].
Qed.

Lemma changes_adm msg kick h h' : admission msg kick h h' -> changes msg kick h h'.
Proof. intros H. exists h. split; [done|right; done]. Qed.

Ltac quiet_eq := unfold sameSession; done.

Lemma quiet_erase id h : quiet h (putClients (om_erase id (hs_clients h)) h).
Proof. eapply q_erase; quiet_eq. Qed.

Lemma quiet_dropClient id b reason text h : rtc quiet h (snd (dropClient id b reason text h)).
Proof. rewrite fin_dropClient. destruct (om_lookup _ _); [apply rtc_once, quiet_erase|done]. Qed.

Lemma changes_task now t h :
  changes None (match t with HtKick id _ => Some id | _ => None end) h (snd (runTask now t h)).
Proof.
  destruct t as [|id accept|id reason|id enableAll|id type payload|host port token|conn addr]; cbn [runTask].
  - apply changes_quiet, rtc_once. unfold doStop. rewrite fin_read, fin_seq, fin_modify.
    assert (E : forall cs h0, snd (forA cs (fun kv : Z * ClientRecord => connOut (cl_connection (snd kv)) HoClose) h0) = h0).
    { induction cs as [|kv cs IH]; intros h0; cbn [forA]; [done|]. by rewrite fin_seq, fin_connOut, IH. }
    rewrite E. apply q_other; quiet_eq.
  - rewrite fin_doApprove. destruct (om_lookup _ _) as [r|] eqn:E; [|by apply changes_quiet].
    destruct (bool_decide _); [|by apply changes_quiet].
    apply changes_quiet, rtc_once. destruct accept; [eapply q_touch; quiet_eq|apply quiet_erase].
  - rewrite fin_doKick. destruct (om_lookup _ _) as [r|] eqn:E; [|by apply changes_quiet].
    apply changes_adm; by eapply a_kick.
  - apply changes_quiet. unfold doSetInput. rewrite fin_withClient. destruct (om_lookup _ _) as [r|] eqn:E; [|done].
    apply rtc_once. rewrite fin_seq, fin_push, fin_read, fin_putClient. eapply q_touch; quiet_eq.
  - apply changes_quiet. unfold doSendApp. rewrite fin_withClient. destruct (om_lookup _ _) as [r|] eqn:E; [|done].
    by rewrite fin_connOut.
  - apply changes_quiet, rtc_once. unfold doDial. rewrite fin_seq. apply q_other; quiet_eq.
  - rewrite fin_handleNewConnection. destruct (hs_stopping h); [by apply changes_quiet|].
    apply changes_adm; by eapply a_new.
Qed.

Lemma fin_handleFrame now id type flags data h r :
  hs_stopping h = false -> knownId type = true -> om_lookup id (hs_clients h) = Some r ->
  snd (handleFrame now id type flags data h) =
  let h1 := setClients (om_insert id (withActivity now r) (hs_clients h)) h in
  match decodeMessage type data with
  | None => snd (dropClient id true RProtocolError (str "Malformed message.") h1)
  | Some env =>
      match env_body env with
      | BClientHello m => snd (handleClientHello id m h1)
      | BClientCapabilities m => snd (handleClientCapabilities id m h1)
      | BPing m => snd (handlePing id m h1)
      | BPong m => snd (handlePong now id m h1)
      | BBye m => snd (handleBye id m h1)
      | _ =>
          if (0x0010 <=? type) && bool_decide (cl_state r = Connected) && hs_onAppMessage h then h1
          else snd (dropClient id true RProtocolError (str "Unexpected message in current state.") h1)
      end
  end.
Proof.
  intros Es Ek El. unfold handleFrame. rewrite fin_read, Es, Ek. cbn [negb]. rewrite fin_withClient, El.
  rewrite fin_seq, fin_putClient. cbv zeta. destruct (decodeMessage type data) as [env|]; [|done].
  destruct (env_body env); try done; by rewrite fin_if.
Qed.

Lemma changes_drop msg kick id b reason text h : changes msg kick h (snd (dropClient id b reason text h)).
Proof. apply changes_quiet, quiet_dropClient. Qed.

Lemma changes_hello id m kick h :
  om_sorted (hs_clients h) -> changes (Some (id, BClientHello m)) kick h (snd (handleClientHello id m h)).
Proof.
  intros Hs. destruct (om_lookup id (hs_clients h)) as [r|] eqn:E.
  2: { apply changes_quiet. unfold handleClientHello. by rewrite fin_withClient, E. }
  destruct (decide (cl_state r = Connecting)) as [Est|Hne].
  2: { apply changes_quiet. unfold handleClientHello. by rewrite fin_withClient, E, bool_decide_false. }
  pose proof (fin_handleClientHello id m h r E Hs Est) as F. cbv zeta in F. unfold fitsIn in F.
  destruct (_ <=? _)%nat eqn:Efit; cbn [andb] in F.
  2: { rewrite F. apply changes_quiet, rtc_once, quiet_erase. }
  destruct (verifySessionCode _ _) eqn:Ev.
  2: { rewrite F. apply changes_quiet, rtc_once, quiet_erase. }
  destruct F as (ts & ->). apply changes_adm. apply Nat.leb_le in Efit. by eapply a_hello.
Qed.

Lemma changes_caps id caps kick h :
  changes (Some (id, BClientCapabilities caps)) kick h (snd (handleClientCapabilities id caps h)).
Proof.
  destruct (om_lookup id (hs_clients h)) as [r|] eqn:E.
  2: { apply changes_quiet. unfold handleClientCapabilities. by rewrite fin_withClient, E. }
  rewrite (fin_handleClientCapabilities _ _ _ _ E). destruct (bool_decide _) eqn:Est; [|by apply changes_quiet].
  destruct (negotiateCodec _ _) eqn:En; [|apply changes_quiet, rtc_once, quiet_erase].
  b2p. apply changes_adm; by eapply a_caps.
Qed.

Lemma changes_frame now id type flags data kick h :
  om_sorted (hs_clients h) ->
  changes (messageOf (IoFrame now id type flags data)) kick h (snd (handleFrame now id type flags data h)).
Proof.
  intros Hs. destruct (hs_stopping h) eqn:Es.
  { apply changes_quiet. unfold handleFrame. by rewrite fin_read, Es. }
  destruct (knownId type) eqn:Ek.
  2: { unfold handleFrame. rewrite fin_read, Es, Ek. apply changes_drop. }
  destruct (om_lookup id (hs_clients h)) as [r|] eqn:E.
  2: { apply changes_quiet. unfold handleFrame. rewrite fin_read, Es, Ek. cbn [negb].
    by rewrite fin_withClient, E. }
  rewrite (fin_handleFrame _ _ _ _ _ _ _ Es Ek E). cbv zeta. set (h1 := setClients _ h).
  apply (changes_quiet_l _ _ _ h1).
  { eapply q_touch; quiet_eq. }
  { by eapply om_insert_same_length. }
  assert (Hs1 : om_sorted (hs_clients h1)) by (by apply om_insert_sorted).
  unfold messageOf. destruct (decodeMessage type data) as [env|] eqn:Ed; [|apply changes_drop].
  change (mbind _ (Some env)) with (Some (id, env_body env)). destruct (env_body env);
    
    try match goal with
      | |- context [if ?b then h1 else _] => destruct b; [by apply changes_quiet|apply changes_drop]
      end.
  - by apply changes_hello.
  - apply changes_caps.
  - apply changes_quiet. unfold handlePing. by rewrite fin_sendTo.
  - apply changes_quiet, rtc_once.
    destruct (fin_handlePong now id m h1 _ (om_lookup_insert_eq _ _ _)) as (rtt & ->).
    eapply q_put; [quiet_eq|quiet_eq|apply om_lookup_insert_eq|quiet_eq..].
  - apply changes_drop.
Qed.

Lemma quiet_forA {A} (xs : list A) (body : A -> HAct) h :
  (forall x h0, rtc quiet h0 (snd (body x h0))) -> rtc quiet h (snd (forA xs body h)).
Proof.
  intros H. revert h. induction xs as [|x xs IH]; intros h; cbn [forA]; [done|].
  rewrite fin_seq. etrans; [apply H|apply IH].
Qed.

(** The records the ping loop leaves. *)
Definition probed (now : Z) (r : ClientRecord) : ClientRecord :=
  if pingDue now r then withHostPing now r else r.

Lemma fin_probe now id r h :
  snd (probe now (id, r) h) =
  if pingDue now r then setClients (om_insert id (withHostPing now r) (hs_clients h)) h else h.
Proof. unfold probe. destruct (pingDue now r); [|done]. by rewrite fin_seq, fin_putClient, fin_sendTo. Qed.

(** A loop over the entries [rest] of a map that still holds them. *)
Lemma probe_loop now rest h :
  om_sorted rest -> Forall (fun kv => om_lookup (fst kv) (hs_clients h) = Some (snd kv)) rest ->
  let h' := snd (forA rest (probe now) h) in
  rtc quiet h h' /\
  h' = setClients (hs_clients h') h /\
  forall id, om_lookup id (hs_clients h') =
    match om_lookup id rest with Some r => Some (probed now r) | None => om_lookup id (hs_clients h) end.
Proof.
  unfold om_sorted. revert h. induction rest as [|[id r] rest IH]; intros h Hs Hl; cbv zeta; cbn [forA].
  { split_and!; [done|by destruct h|done]. }
  rewrite fmap_cons, StronglySorted_cons in Hs. destruct Hs as [Hlt Hs].
  apply Forall_cons_iff in Hl as [Hid Hl]. cbn [fst snd] in *. rewrite fin_seq.
  set (h1 := snd (probe now (id, r) h)).
  assert (E1 : hs_clients h1 = if pingDue now r then om_insert id (withHostPing now r) (hs_clients h) else hs_clients h).
  { unfold h1. rewrite fin_probe. by destruct (pingDue now r). }
  assert (Eh : h1 = setClients (hs_clients h1) h).
  { unfold h1. rewrite fin_probe. destruct (pingDue now r); [done|by destruct h]. }
  assert (Hne : forall k v, (k, v) ∈ rest -> k <> id).
  { intros k v Hk ->. rewrite list.Forall_forall in Hlt.
    assert (id < id); [|lia]. apply Hlt, list_elem_of_fmap. by exists (id, v). }
  destruct (IH h1 Hs) as (Hq & Eh' & Hlk).
  { rewrite list.Forall_forall in Hl |- *. intros [k v] Hk. specialize (Hl _ Hk). cbn [fst snd] in *.
    rewrite E1. destruct (pingDue now r); [|done]. rewrite om_lookup_insert_ne; [done|by eapply Hne]. }
  split_and!.
  - refine (rtc_l _ _ _ _ _ Hq). unfold h1. rewrite fin_probe. destruct (pingDue now r).
    + eapply q_touch; quiet_eq.
    + apply q_other; quiet_eq.
  - rewrite Eh' at 1. by rewrite Eh.
  - intros k. rewrite Hlk. cbn [om_lookup]. destruct (Z.eqb_spec k id) as [->|Hk].
    + destruct (om_lookup id rest) as [v|] eqn:Er.
      { apply om_lookup_elem in Er. by apply Hne in Er. }
      rewrite E1. unfold probed. destruct (pingDue now r); [apply om_lookup_insert_eq|done].
    + destruct (om_lookup k rest); [done|]. rewrite E1.
      destruct (pingDue now r); [|done]. by apply om_lookup_insert_ne.
Qed.

Lemma probe_all now h :
  om_sorted (hs_clients h) ->
  let h' := snd (forA (hs_clients h) (probe now) h) in
  rtc quiet h h' /\ h' = setClients (hs_clients h') h /\
  forall id, om_lookup id (hs_clients h') = probed now <$> om_lookup id (hs_clients h).
Proof.
  intros Hs. cbv zeta. destruct (probe_loop now (hs_clients h) h Hs) as (Hq & E & Hl).
  { apply list.Forall_forall. intros [k v] Hk. by apply om_elem_lookup. }
  split_and!; [done|done|]. intros id. rewrite Hl. by destruct (om_lookup id (hs_clients h)).
Qed.

Lemma quiet_flags a b c h : quiet h (setFlags (hs_running h) a b c h).
Proof. by apply q_other. Qed.

Lemma quiet_housekeeping now h : om_sorted (hs_clients h) -> rtc quiet h (snd (housekeeping now h)).
Proof.
  intros Hs. unfold housekeeping. rewrite fin_seq, fin_read, fin_seq, fin_modify.
  destruct (probe_all now h Hs) as (Hq & _). etrans; [exact Hq|].
  eapply rtc_r; [|by apply quiet_flags]. apply (quiet_forA (A := Z)). intros. apply quiet_dropClient.
Qed.

(** Every event of the network thread is quiet changes and at most one
    admission step. *)
Lemma changes_io e h :
  om_sorted (hs_clients h) -> changes (messageOf e) (kickOf e h) h (snd (io e h)).
Proof.
  intros Hs. destruct e as [now|now conn addr|now [[conn addr]|]|now id type flags data|id|now]; cbn [io].
  - rewrite fin_read. unfold kickOf. destruct (hs_tasks h) as [|t ts]; [by apply changes_quiet|].
    rewrite fin_seq, fin_modify. eapply changes_quiet_l; [| |apply changes_task]; [apply q_other; quiet_eq|done].
  - rewrite fin_read. destruct (hs_listening h); [|by apply changes_quiet].
    rewrite fin_handleNewConnection. destruct (hs_stopping h); [by apply changes_quiet|].
    apply changes_adm; by eapply a_new.
  - rewrite fin_handleNewConnection. destruct (hs_stopping h); [by apply changes_quiet|].
    apply changes_adm; by eapply a_new.
  - by apply changes_quiet.
  - by apply changes_frame.
  - apply changes_quiet. rewrite fin_handleClientClosed. destruct (hs_stopping h); [done|].
    destruct (om_lookup _ _); [apply rtc_once, quiet_erase|done].
  - apply changes_quiet. rewrite fin_read. destruct (hs_armed h); [|done]. rewrite fin_seq, fin_modify.
    set (h1 := setFlags _ _ _ _ h). apply (rtc_l _ _ h1); [apply quiet_flags|]. destruct (hs_stopping h).
    + apply rtc_refl.
    + by apply quiet_housekeeping.
Qed.

(** * The invariant of the client table *)

Definition stateOf (id : Z) (h : HostSession) : option ConnectionState :=
  cl_state <$> om_lookup id (hs_clients h).

(** A row but for its [inputEnabled] field. *)
Definition rowCore (r : ClientRow) : Z * bytes * ConnectionState * Z * bytes :=
  (row_id r, row_name r, row_state r, row_rttMs r, row_address r).

(** Past the session-code check. *)
Definition authenticated (r : ClientRecord) : bool :=
  match cl_state r with Authenticating | Connected | Streaming => true | _ => false end.

Record HInv (h : HostSession) : Prop := {
  hi_sorted : om_sorted (hs_clients h);
  hi_mirror : rowCore <$> hs_snapshot h = rowCore <$> (rowOf <$> hs_clients h);
  hi_bound : (om_count authenticated (hs_clients h) <= hp_maxClients (hs_params h))%nat;
  hi_idle : hs_running h = false -> hs_clients h = [] /\ hs_snapshot h = [] }.

Definition rowCore' (kv : Z * ClientRecord) : Z * bytes * ConnectionState * Z * bytes := rowCore (rowOf kv).

Lemma rowCore_fmap (cs : list (Z * ClientRecord)) : rowCore <$> (rowOf <$> cs) = rowCore' <$> cs.
Proof. by rewrite <- list_fmap_compose. Qed.

(** What an event does while the session runs. *)
Record TInv (h : HostSession) : Prop := {
  ti_sorted : om_sorted (hs_clients h);
  ti_mirror : rowCore <$> hs_snapshot h = rowCore <$> (rowOf <$> hs_clients h);
  ti_bound : (om_count authenticated (hs_clients h) <= hp_maxClients (hs_params h))%nat }.

Lemma TInv_quiet h h' : quiet h h' -> TInv h -> TInv h'.
Proof.
  intros Hq [Hs Hm Hb].
  destruct Hq as [id r r' (Ep & _) _ El Ec Er Es|id r r' (Ep & _) _ El Ec Er Es|id (Ep & _) _ Ec Es
                 |(Ep & _) _ Ec Es]; constructor; rewrite ?Ep, ?Es, ?Ec; try done.
  - by apply om_insert_sorted.
  - rewrite Hm, !rowCore_fmap. symmetry. apply (om_insert_fmap _ _ _ r); [done|done|].
    unfold rowCore', rowCore. cbn. congruence.
  - etrans; [|exact Hb]. apply om_count_insert; [done|]. intros Ha. exists r. split; [done|].
    unfold authenticated in *. assert (E : cl_state r' = cl_state r) by congruence. by rewrite <- E.
  - by apply om_insert_sorted.
  - etrans; [|exact Hb]. apply om_count_insert; [done|]. intros Ha. exists r. split; [done|].
    unfold authenticated in *. by rewrite <- Er.
  - by apply om_erase_sorted.
  - etrans; [|exact Hb]. apply om_count_erase.
Qed.

Lemma TInv_rtc h h' : rtc quiet h h' -> TInv h -> TInv h'.
Proof. induction 1; [done|]. intros Hi. apply IHrtc. by eapply TInv_quiet. Qed.

Lemma TInv_admission msg kick h h' : admission msg kick h h' -> TInv h -> TInv h'.
Proof.
  intros Ha [Hs Hm Hb].
  destruct Ha as [id m r _ El _ Hlen _ (Ep & _) _ Ec Es|id caps r codec _ El Est _ (Ep & _) _ Ec Es
                 |id r _ El (Ep & _) _ Ec Es|r Ec Est (Ep & _) _ Es];
    constructor; rewrite ?Ep, ?Es, ?Ec; try done; try by apply om_insert_sorted.
  - rewrite <- (om_insert_same_length id (admitted h m r) _ r Hs El) in Hlen.
    etrans; [|exact Hlen]. apply om_count_length.
  - etrans; [|exact Hb]. apply om_count_insert; [done|]. intros _. exists r. split; [done|].
    unfold authenticated. by rewrite Est.
  - etrans; [|exact Hb]. by apply om_count_insert.
  - etrans; [|exact Hb]. apply om_count_insert; [done|]. unfold authenticated. by rewrite Est.
Qed.

Lemma TInv_io e h : TInv h -> TInv (snd (io e h)).
Proof.
  intros Hi. destruct (changes_io e h (ti_sorted _ Hi)) as (h1 & Hq & Ha).
  apply (TInv_rtc _ _ Hq) in Hi. destruct Ha as [->|[Ha _]]; [done|]. by eapply TInv_admission.
Qed.

Lemma quiet_context h h' :
  rtc quiet h h' -> sameSession h h' /\ hs_nextClientId h' = hs_nextClientId h.
Proof.
  induction 1 as [|x y z Hxy _ IH]; [by unfold sameSession|].
  destruct Hxy as [k r r' E N|k r r' E N|k E N|E N]; unfold sameSession in *; intuition congruence.
Qed.

Lemma sameSession_io e h : om_sorted (hs_clients h) -> sameSession h (snd (io e h)).
Proof.
  intros Hs. destruct (changes_io e h Hs) as (h1 & Hq & Ha).
  apply quiet_context in Hq as [H1 _]. destruct Ha as [->|[Ha _]]; [done|].
  destruct Ha as [? ? ? ? ? ? ? ? E|? ? ? ? ? ? ? ? E|? ? ? ? E|? ? ? E]; unfold sameSession in *; intuition congruence.
Qed.

Lemma HInv_TInv h : HInv h -> TInv h.
Proof. by intros [? ? ? _]. Qed.

Lemma fin_start p code bind h :
  snd (start p code bind h) =
  if hs_running h then h
  else match (match bind (hp_listenPort p) with Some port => Some port | None => bind 0 end) with
       | None => setFlags false false (hs_listening h) (hs_armed h) (setSession p code (hs_actualPort h) h)
       | Some port => setFlags true false true true (setSession p code port h)
       end.
Proof.
  unfold start. rewrite fin_read. destruct (hs_running h); [done|].
  by destruct (match bind (hp_listenPort p) with Some port => Some port | None => bind 0 end).
Qed.

Lemma fin_stop ran h :
  hs_running h = true ->
  let h' := snd (stop ran h) in hs_clients h' = [] /\ hs_snapshot h' = [].
Proof. intros E. cbv zeta. unfold stop. rewrite fin_read, E. cbn [negb]. rewrite !fin_seq. by autorewrite with fin. Qed.

Lemma HInv_step e h : HInv h -> HInv (snd (hostStep e h)).
Proof.
  intros Hi. destruct e as [p code bind|ran|id b|id reason|id b|id type payload|host port token|conn addr|e]; cbn [hostStep];
    try (destruct Hi; unfold sendAppMessage; rewrite ?fin_if; try destruct (type <? _); constructor; done).
  - rewrite fin_start. destruct (hs_running h) eqn:Er; [done|]. destruct (hi_idle _ Hi Er) as [Ec Es].
    destruct (match bind (hp_listenPort p) with Some port => Some port | None => bind 0 end);
      constructor; cbn [hs_clients hs_snapshot hs_running hs_params setFlags setSession]; rewrite ?Ec, ?Es;
      try done; try constructor; cbn; lia.
  - destruct (hs_running h) eqn:Er.
    2: { unfold stop. rewrite fin_read, Er. done. }
    destruct (fin_stop ran h Er) as [Ec Es]. cbv zeta in *.
    constructor; rewrite ?Ec, ?Es; try done; try constructor; cbn; lia.
  - rewrite fin_read. destruct (hs_running h) eqn:Er; [|done].
    pose proof (TInv_io e h (HInv_TInv _ Hi)) as [? ? ?].
    destruct (sameSession_io e h (hi_sorted _ Hi)) as (_ & _ & Er'). constructor; try done. congruence.
Qed.

Lemma HInv_new b : HInv (newHost b).
Proof. constructor; cbn; try done; try constructor; lia. Qed.

Lemma HInv_run es h : HInv h -> HInv (snd (hostRun es h)).
Proof.
  unfold hostRun. revert h. induction es as [|e es IH]; intros h Hi; cbn [forA]; [done|].
  rewrite fin_seq. by apply IH, HInv_step.
Qed.

(** * Life of a client *)

Definition eventMessage (e : HostEvent) : option (Z * Body) :=
  match e with HeIo e => messageOf e | _ => None end.

Definition eventKick (e : HostEvent) (h : HostSession) : option Z :=
  match e with HeIo e => kickOf e h | _ => None end.

(** The edges of a client's state graph, with what an event must be to take
    them. *)
Inductive lifeStep (e : HostEvent) (h : HostSession) (id : Z) :
  option ConnectionState -> option ConnectionState -> Prop :=
| ls_same s : lifeStep e h id s s
| ls_gone s : lifeStep e h id s None
| ls_new s : id = hs_nextClientId h -> lifeStep e h id s (Some Connecting)
| ls_hello m :
    eventMessage e = Some (id, BClientHello m) ->
    verifySessionCode (hello_sessionCode m) (hs_sessionCode h) = true ->
    (length (hs_clients h) <= hp_maxClients (hs_params h))%nat ->
    lifeStep e h id (Some Connecting) (Some Authenticating)
| ls_capabilities caps codec :
    eventMessage e = Some (id, BClientCapabilities caps) ->
    negotiateCodec [hp_preferredCodec (hs_params h); H264] (cc_supportedCodecs caps) = Some codec ->
    lifeStep e h id (Some Authenticating) (Some Connected)
| ls_kick s : eventKick e h = Some id -> lifeStep e h id (Some s) (Some Disconnected).

Lemma stateOf_insert id k r h h' :
  hs_clients h' = om_insert k r (hs_clients h) ->
  stateOf id h' = if id =? k then Some (cl_state r) else stateOf id h.
Proof.
  unfold stateOf. intros ->. destruct (Z.eqb_spec id k) as [->|].
  - by rewrite om_lookup_insert_eq.
  - by rewrite om_lookup_insert_ne.
Qed.

Lemma quiet_state h h' id :
  quiet h h' -> (stateOf id h' = stateOf id h \/ stateOf id h' = None).
Proof.
  intros [k r r' _ _ El Ec Er _|k r r' _ _ El Ec Er _|k _ _ Ec _|_ _ Ec _].
  - left. rewrite (stateOf_insert id _ _ _ _ Ec). destruct (Z.eqb_spec id k) as [->|]; [|done].
    unfold stateOf. rewrite El. cbn. congruence.
  - left. rewrite (stateOf_insert id _ _ _ _ Ec). destruct (Z.eqb_spec id k) as [->|]; [|done].
    unfold stateOf. rewrite El. cbn. congruence.
  - unfold stateOf. rewrite Ec. destruct (decide (id = k)) as [->|Hne].
    + right. by rewrite om_lookup_erase_eq.
    + left. by rewrite om_lookup_erase_ne.
  - left. unfold stateOf. by rewrite Ec.
Qed.

Lemma quiet_states h h' id :
  rtc quiet h h' ->
  stateOf id h' = stateOf id h \/ stateOf id h' = None.
Proof.
  induction 1 as [|h h1 h' Hq _ IH]; [by left|]. destruct IH as [IH|IH]; [|by right].
  destruct (quiet_state _ _ id Hq) as [E|E]; rewrite E in IH; auto.
Qed.

Lemma life_io e h id :
  om_sorted (hs_clients h) ->
  lifeStep (HeIo e) h id (stateOf id h) (stateOf id (snd (io e h))).
Proof.
  intros Hs. destruct (changes_io e h Hs) as (h1 & Hq & Ha).
  destruct (quiet_context _ _ Hq) as ((Ep & Ecode & _) & En).
  pose proof (quiet_states _ _ id Hq) as Hst.
  destruct Ha as [->|[Ha Hlen]]; [destruct Hst as [-> | ->]; constructor|].
  destruct Ha as [k m r Em El Est Hfit Hv _ _ Ec _|k caps r codec Em El Est Hneg _ _ Ec _
                 |k r Ek El _ _ Ec _|r Ec Est _ _ _];
    rewrite (stateOf_insert id _ _ _ _ Ec).
  - destruct (Z.eqb_spec id k) as [->|]; [|destruct Hst as [-> | ->]; constructor].
    unfold stateOf in Hst at 1 3. rewrite El in Hst. cbn in Hst. destruct Hst as [Hst|[=]].
    rewrite <- Hst, Est. rewrite Ep, Hlen in Hfit. rewrite Ecode in Hv. by eapply ls_hello.
  - destruct (Z.eqb_spec id k) as [->|]; [|destruct Hst as [-> | ->]; constructor].
    unfold stateOf in Hst at 1 3. rewrite El in Hst. cbn in Hst. destruct Hst as [Hst|[=]].
    rewrite <- Hst, Est. rewrite Ep in Hneg. by eapply ls_capabilities.
  - destruct (Z.eqb_spec id k) as [->|]; [|destruct Hst as [-> | ->]; constructor].
    unfold stateOf in Hst at 1 3. rewrite El in Hst. cbn in Hst. destruct Hst as [Hst|[=]].
    rewrite <- Hst. by apply ls_kick.
  - destruct (Z.eqb_spec id (hs_nextClientId h1)) as [->|]; [|destruct Hst as [-> | ->]; constructor].
    rewrite Est. by apply ls_new.
Qed.

Lemma stateOf_empty h id : hs_clients h = [] -> stateOf id h = None.
Proof. unfold stateOf. by intros ->. Qed.

Lemma life_step e h id :
  HInv h -> lifeStep e h id (stateOf id h) (stateOf id (snd (hostStep e h))).
Proof.
  intros Hi. destruct e as [p code bind|ran|k b|k reason|k b|k type payload|host port token|conn addr|e];
    cbn [hostStep]; try apply ls_same.
  - rewrite fin_start. destruct (hs_running h) eqn:Er; [constructor|].
    by destruct (match bind (hp_listenPort p) with Some port => Some port | None => bind 0 end); apply ls_same.
  - destruct (hs_running h) eqn:Er.
    + destruct (fin_stop ran h Er) as [Ec _]. rewrite (stateOf_empty _ id Ec). constructor.
    + unfold stop. rewrite fin_read, Er. constructor.
  - unfold sendAppMessage. destruct (type <? _); apply ls_same.
  - rewrite fin_read. destruct (hs_running h); [|constructor]. apply life_io, hi_sorted, Hi.
Qed.

Lemma hostRun_snoc es e h : snd (hostRun (es ++ [e]) h) = snd (hostStep e (snd (hostRun es h))).
Proof. unfold hostRun. rewrite forA_app, fin_seq. cbn [forA]. by rewrite fin_seq. Qed.

(** ** Fresh identifiers

    [n] bounds the turns of the event loop so far; below 2^32 of them the
    32-bit counter has not come round. *)
Record fresh (n : nat) (h : HostSession) : Prop := {
  fr_counter : 1 <= hs_nextClientId h <= 1 + Z.of_nat n;
  fr_below : forall id, stateOf id h <> None -> id < hs_nextClientId h }.

(** What a step may do to the counter. *)
Definition grows (n m : nat) (h h' : HostSession) : Prop :=
  fresh m h' /\ hs_nextClientId h <= hs_nextClientId h'.

Lemma fresh_keep n m h h' :
  (n <= m)%nat -> hs_nextClientId h' = hs_nextClientId h ->
  (forall id, stateOf id h' <> None -> stateOf id h <> None) -> fresh n h -> grows n m h h'.
Proof. intros Hm En Hid [Hc Hb]. split; [split|lia]; [lia|]. intros id H. rewrite En. by apply Hb, Hid. Qed.

Lemma fresh_io n e h :
  Z.of_nat (S n) < 2 ^ 32 - 1 -> om_sorted (hs_clients h) -> fresh n h -> grows n (S n) h (snd (io e h)).
Proof.
  intros Hn Hs Hf. destruct (changes_io e h Hs) as (h1 & Hq & Ha).
  destruct (quiet_context _ _ Hq) as (_ & En).
  destruct (fresh_keep n n h h1 (Nat.le_refl _) En) as [[Hc1 Hb1] _]; [|done|].
  { intros id H. by destruct (quiet_states _ _ id Hq) as [<-|E]. }
  assert (Hput : forall h' k r, hs_clients h' = om_insert k r (hs_clients h1) -> k < hs_nextClientId h' ->
    hs_nextClientId h1 <= hs_nextClientId h' <= 1 + Z.of_nat (S n) -> grows n (S n) h h').
  { intros h' k r Ec Hk Hle. split; [split; [lia|]|lia]. intros id. rewrite (stateOf_insert id _ _ _ _ Ec).
    destruct (Z.eqb_spec id k) as [->|]; [done|]. intros H%Hb1. lia. }
  assert (Hin : forall k r, om_lookup k (hs_clients h1) = Some r -> k < hs_nextClientId h1)
    by (intros k r El; apply Hb1; unfold stateOf; by rewrite El).
  destruct Ha as [->|[Ha _]]; [split; [split; [lia|done]|lia]|].
  destruct Ha as [k m r _ El _ _ _ _ En' Ec _|k caps r codec _ El _ _ _ En' Ec _
                 |k r _ El _ En' Ec _|r Ec _ _ En' _];
    try (apply Hput with (1 := Ec); rewrite En'; [by eapply Hin|lia]).
  apply Hput with (1 := Ec); rewrite En'; unfold u32; rewrite Z.mod_small; lia.
Qed.

Lemma fresh_ios es n h :
  Z.of_nat (n + length es) < 2 ^ 32 - 1 -> TInv h -> fresh n h -> grows n (n + length es) h (snd (forA es io h)).
Proof.
  revert n h. induction es as [|e es IH]; intros n h Hn Hi Hf; cbn [forA length] in *.
  { rewrite Nat.add_0_r. by apply fresh_keep with (1 := Nat.le_refl _) (4 := Hf). }
  rewrite fin_seq. destruct (fresh_io n e h ltac:(lia) (ti_sorted _ Hi) Hf) as [Hf1 Hle].
  destruct (IH (S n) _ ltac:(lia) (TInv_io e h Hi) Hf1) as [Hf2 Hle2].
  rewrite Nat.add_succ_r. split; [done|lia].
Qed.

(** The turns of the event loop in an event, and in a run. *)
Definition turns (e : HostEvent) : nat :=
  match e with HeStop ran => length ran | HeIo _ => 1 | _ => 0 end.

Definition allTurns (es : list HostEvent) : nat := sum_list (turns <$> es).

Lemma fresh_stop n ran h :
  Z.of_nat (n + length ran) < 2 ^ 32 - 1 -> HInv h -> fresh n h -> grows n (n + length ran) h (snd (stop ran h)).
Proof.
  intros Hn Hi Hf. unfold stop. rewrite fin_read. destruct (hs_running h) eqn:Er; cbn [negb].
  2: { apply fresh_keep with (4 := Hf); [lia|done|done]. }
  rewrite !fin_seq, !fin_modify, fin_post. set (h1 := setTasks _ _).
  destruct (fresh_ios ran n h1) as [[Hc _] Hle]; [done|by destruct Hi|by destruct Hf|].
  set (h2 := snd (forA ran io h1)) in *. autorewrite with fin. split; [split|exact Hle]; [exact Hc|].
  intros id H. by destruct H.
Qed.

Lemma fresh_step n e h :
  Z.of_nat (n + turns e) < 2 ^ 32 - 1 -> HInv h -> fresh n h -> grows n (n + turns e) h (snd (hostStep e h)).
Proof.
  intros Hn Hi Hf. destruct e as [p code bind|ran|k b|k reason|k b|k type payload|host port token|conn addr|e];
    cbn [hostStep turns] in *; rewrite ?Nat.add_0_r in *; try (apply fresh_keep with (4 := Hf); (lia || done)).
  - rewrite fin_start. destruct (hs_running h); [by apply fresh_keep with (4 := Hf)|].
    destruct (match bind (hp_listenPort p) with Some port => Some port | None => bind 0 end); by apply fresh_keep with (4 := Hf).
  - by apply fresh_stop.
  - unfold sendAppMessage. destruct (type <? _); by apply fresh_keep with (4 := Hf).
  - rewrite fin_read, Nat.add_1_r in *. destruct (hs_running h); [by apply fresh_io; [|apply hi_sorted|]|].
    apply fresh_keep with (4 := Hf); (lia || done).
Qed.

Lemma allTurns_app es es' : allTurns (es ++ es') = (allTurns es + allTurns es')%nat.
Proof. unfold allTurns. induction es as [|e es IH]; cbn in *; [done|]. rewrite IH. lia. Qed.

Lemma allTurns_one e : allTurns [e] = turns e.
Proof. unfold allTurns. cbn. lia. Qed.

Lemma fresh_run onApp es :
  Z.of_nat (allTurns es) < 2 ^ 32 - 1 -> fresh (allTurns es) (snd (hostRun es (newHost onApp))).
Proof.
  induction es as [|e es IH] using rev_ind; intros Hn.
  { split; [cbn; lia|]. intros id H. by destruct H. }
  rewrite allTurns_app, allTurns_one in *. rewrite hostRun_snoc.
  apply (fresh_step _ e); [lia|apply HInv_run, HInv_new|apply IH; lia].
Qed.

(** The counter never goes back. *)
Lemma ids_monotone onApp es es' :
  Z.of_nat (allTurns (es ++ es')) < 2 ^ 32 - 1 ->
  hs_nextClientId (snd (hostRun es (newHost onApp))) <= hs_nextClientId (snd (hostRun (es ++ es') (newHost onApp))).
Proof.
  induction es' as [|e es' IH] using rev_ind; intros Hn; [by rewrite app_nil_r|].
  rewrite app_assoc in *. rewrite allTurns_app, allTurns_one in Hn. rewrite hostRun_snoc. etrans; [apply IH; lia|].
  apply (fresh_step (allTurns (es ++ es')) e); [lia|apply HInv_run, HInv_new|apply fresh_run; lia].
Qed.

(** C3: in every execution of the host session (any interleaving of calls on its
    methods, frames, connections, closures and timer ticks), a client moves
    only along the documented state graph: it appears as CONNECTING under the
    next identifier; CONNECTING becomes AUTHENTICATING only by that client's own
    CLIENT_HELLO carrying a code that verifies, with the table within its
    capacity; AUTHENTICATING becomes CONNECTED only by that client's own
    CLIENT_CAPABILITIES with a common codec; a kick makes it DISCONNECTED; and
    otherwise the event leaves the state alone or removes the client. The
    identifier a client appears under was never another client's: as long as the
    loop has made fewer than 2^32 - 2 turns, no earlier state of the run, of this
    or of an earlier session, had a client of that identifier. *)
Theorem client_lifecycle onApp es e id :
  let run es := snd (hostRun es (newHost onApp)) in
  lifeStep e (run es) id (stateOf id (run es)) (stateOf id (run (es ++ [e]))) /\
  (Z.of_nat (allTurns (es ++ [e])) < 2 ^ 32 - 1 ->
   stateOf id (run (es ++ [e])) = Some Connecting -> stateOf id (run es) <> Some Connecting ->
   forall k, (k <= length es)%nat -> stateOf id (run (take k es)) = None).
Proof.
  cbv zeta beta. set (h := snd (hostRun es (newHost onApp))) in *.
  assert (Hl : lifeStep e h id (stateOf id h) (stateOf id (snd (hostStep e h)))) by apply life_step, HInv_run, HInv_new.
  rewrite hostRun_snoc. fold h. split; [done|]. intros Hn Es1 Es0 k Hk.
  assert (Hid : id = hs_nextClientId h) by (rewrite Es1 in Hl; clear Es1; remember (stateOf id h) as s0; inversion Hl; by subst).
  destruct (stateOf id (snd (hostRun (take k es) (newHost onApp)))) eqn:E; [exfalso|done].
  pose proof (ids_monotone onApp (take k es) (drop k es)) as Hm. rewrite take_drop in Hm. fold h in Hm.
  assert (Hf : fresh (allTurns (take k es)) (snd (hostRun (take k es) (newHost onApp)))).
  { apply fresh_run. rewrite <- (take_drop k es), allTurns_app, allTurns_app in Hn. lia. }
  pose proof (fr_below _ _ Hf id ltac:(by rewrite E)).
  rewrite allTurns_app in Hn. specialize (Hm ltac:(lia)). lia.
Qed.

(** The session code only changes while there are no clients. *)
Lemma code_step e h id :
  HInv h -> stateOf id (snd (hostStep e h)) <> None -> stateOf id h <> None ->
  hs_sessionCode (snd (hostStep e h)) = hs_sessionCode h.
Proof.
  intros Hi Hn' Hn. destruct e as [p code bind|ran|k b|k reason|k b|k type payload|host port token|conn addr|e];
    cbn [hostStep] in *; try done.
  - rewrite fin_start in *. destruct (hs_running h) eqn:Er; [done|].
    destruct (hi_idle _ Hi Er) as [Ec _]. by rewrite (stateOf_empty _ id Ec) in Hn.
  - destruct (hs_running h) eqn:Er; [|unfold stop; by rewrite fin_read, Er].
    destruct (fin_stop ran h Er) as [Ec _]. by rewrite (stateOf_empty _ id Ec) in Hn'.
  - unfold sendAppMessage. by destruct (type <? _).
  - rewrite fin_read in *. destruct (hs_running h); [|done].
    by destruct (sameSession_io e h (hi_sorted _ Hi)) as (_ & -> & _).
Qed.

Definition isAuthenticated (s : option ConnectionState) : bool :=
  match s with Some Authenticating | Some Connected | Some Streaming => true | _ => false end.

(** Some event of [es] was this client's CLIENT_HELLO with a code that verifies
    against [code]. *)
Definition presentedCode (es : list HostEvent) (id : Z) (code : bytes) : Prop :=
  exists e m, e ∈ es /\ eventMessage e = Some (id, BClientHello m) /\
    verifySessionCode (hello_sessionCode m) code = true.

Lemma presentedCode_snoc es e id code : presentedCode es id code -> presentedCode (es ++ [e]) id code.
Proof. intros (e' & m & Hin & H). exists e', m. split; [|done]. apply elem_of_app. by left. Qed.

(** C4: a client past the handshake's first stage presented the session code:
    whatever the interleaving of events, if a client is AUTHENTICATING or
    CONNECTED then one of the events was a CLIENT_HELLO from that client whose
    code verifies against the code of the session that is still running. *)
Theorem admission_requires_code onApp es id
    (H : isAuthenticated (stateOf id (snd (hostRun es (newHost onApp)))) = true) :
  presentedCode es id (hs_sessionCode (snd (hostRun es (newHost onApp)))).
Proof.
  revert H. induction es as [|e es IH] using rev_ind; [done|]. rewrite hostRun_snoc.
  assert (Hi : HInv (snd (hostRun es (newHost onApp)))) by apply HInv_run, HInv_new.
  set (h := snd (hostRun es (newHost onApp))) in *. intros H.
  assert (Hn' : stateOf id (snd (hostStep e h)) <> None) by (by destruct (stateOf id (snd (hostStep e h)))).
  pose proof (code_step e h id Hi Hn') as Hcode.
  pose proof (life_step e h id Hi) as L. remember (stateOf id h) as s0 eqn:E0.
  remember (stateOf id (snd (hostStep e h))) as s1 eqn:E1.
  destruct L as [s|s|s Hs|m Em Hv _|caps codec Em _|s Hk]; try done.
  - rewrite Hcode by done. by apply presentedCode_snoc, IH.
  - exists e, m. rewrite Hcode by done. split_and!; [|done|done]. apply elem_of_app. right. apply list_elem_of_here.
  - rewrite Hcode by done. by apply presentedCode_snoc, IH.
Qed.

(** C25: the table copy the UI polls is the client table: in every reachable
    state the snapshot has one row per client, in id order, with its current
    name, state, round-trip time and address (the input flag alone can lag). *)
Theorem snapshot_mirrors_clients onApp es :
  let h := snd (hostRun es (newHost onApp)) in
  rowCore <$> clients h = rowCore <$> (rowOf <$> hs_clients h) /\ om_sorted (hs_clients h).
Proof. cbv zeta. destruct (HInv_run es _ (HInv_new onApp)). done. Qed.

(** The number of clients past the session-code check never exceeds the
    configured maximum. *)
Theorem capacity_respected onApp es :
  let h := snd (hostRun es (newHost onApp)) in
  (om_count authenticated (hs_clients h) <= hp_maxClients (hs_params h))%nat.
Proof. cbv zeta. by destruct (HInv_run es _ (HInv_new onApp)). Qed.

(** * What the outside sees *)

Lemma snapshotRow_insert id r cs : snapshotRow id (rowOf <$> om_insert id r cs) = rowOf (id, r).
Proof.
  unfold snapshotRow. induction cs as [|[k v] cs IH]; cbn [om_insert].
  { cbn [fmap list_fmap List.find rowOf row_id]. by rewrite Z.eqb_refl. }
  destruct (Z.ltb_spec id k).
  { rewrite !fmap_cons. cbn [List.find rowOf row_id]. by rewrite Z.eqb_refl. }
  destruct (Z.eqb_spec id k) as [->|].
  { rewrite !fmap_cons. cbn [List.find rowOf row_id]. by rewrite Z.eqb_refl. }
  rewrite !fmap_cons. cbn [List.find rowOf row_id]. by rewrite (proj2 (Z.eqb_neq k id)).
Qed.

Lemma out_setState id st h r :
  om_lookup id (hs_clients h) = Some r ->
  fst (setState id st h) = [HoClientUpdated (rowOf (id, withState st r))].
Proof.
  intros E. unfold setState. rewrite out_withClient, E. autorewrite with fin.
  cbn [hs_snapshot hs_clients setSnapshot setClients app]. by rewrite snapshotRow_insert.
Qed.

Lemma out_sendAndClose id m h r conn :
  om_lookup id (hs_clients h) = Some r -> cl_connection r = Some conn ->
  fst (sendAndClose id m h) = [HoSendAndClose conn (idCode (env_type m)) (encodeMessage m)].
Proof. intros E Ec. unfold sendAndClose. by rewrite out_withClient, E, Ec. Qed.

Lemma out_sendTo id m h r conn :
  om_lookup id (hs_clients h) = Some r -> cl_connection r = Some conn ->
  fst (sendTo id m h) = [HoSend conn (idCode (env_type m)) (encodeMessage m)].
Proof. intros E Ec. unfold sendTo. by rewrite out_withClient, E, Ec. Qed.

(** The frame and the row a rejected client leaves behind. *)
Definition rejected (conn id : Z) (r : ClientRecord) (reason : Reason) (text : bytes) : list HostOut :=
  [HoSendAndClose conn (idCode IdHostReject) (encodeMessage (rejectMsg reason text));
   HoClientUpdated (rowOf (id, withState Disconnected r))].

Lemma out_dropClient id reason text h r conn :
  om_lookup id (hs_clients h) = Some r -> cl_connection r = Some conn ->
  fst (dropClient id true reason text h) = rejected conn id r reason text.
Proof.
  intros E Ec. unfold dropClient. rewrite out_withClient, E. cbv iota.
  rewrite !out_seq, fin_sendAndClose, (out_sendAndClose _ _ _ _ _ E Ec), (out_setState _ _ _ _ E). done.
Qed.

Definition kFull : bytes := str "The session already has the maximum number of players.".
Definition kBadCode : bytes := str "Invalid session code.".

(** The three outcomes of a CLIENT_HELLO. *)
Lemma hello_outcome now id flags data m h r conn
    (Hstop : hs_stopping h = false) (Hs : om_sorted (hs_clients h))
    (Hl : om_lookup id (hs_clients h) = Some r) (Hst : cl_state r = Connecting)
    (Hc : cl_connection r = Some conn)
    (Hd : decodeMessage (idCode IdClientHello) data = Some (mkEnvelope IdClientHello (BClientHello m))) :
  let outs := fst (handleFrame now id (idCode IdClientHello) flags data h) in
  let h' := snd (handleFrame now id (idCode IdClientHello) flags data h) in
  let r' := withName (helloName m) (withActivity now r) in
  if (hp_maxClients (hs_params h) <? length (hs_clients h))%nat then
    outs = rejected conn id r' RServerFull kFull /\ om_lookup id (hs_clients h') = None
  else if negb (verifySessionCode (hello_sessionCode m) (hs_sessionCode h)) then
    outs = rejected conn id r' RBadSessionCode kBadCode /\ om_lookup id (hs_clients h') = None
  else
    om_lookup id (hs_clients h') = Some (withInput (hp_inputDefaults (hs_params h)) (withState Authenticating r')) /\
    if hp_autoApprove (hs_params h) then outs = [] /\ hs_tasks h' = hs_tasks h ++ [HtApprove id true]
    else outs = [HoApprovalRequest id (helloName m)] /\ hs_tasks h' = hs_tasks h.
Proof.
  cbv zeta. unfold handleFrame. rewrite out_read, fin_read, Hstop.
  change (negb (knownId (idCode IdClientHello))) with false. cbv iota.
  rewrite out_withClient, fin_withClient, Hl, Hd, out_seq, fin_seq, fin_putClient, out_putClient. cbn [env_body].
  set (r1 := withActivity now r). set (h1 := setClients (om_insert id r1 (hs_clients h)) h).
  unfold handleClientHello. rewrite out_withClient, fin_withClient.
  rewrite (om_lookup_insert_eq id r1 (hs_clients h) : om_lookup id (hs_clients h1) = Some r1).
  rewrite bool_decide_true by done. cbn [negb].
  rewrite out_seq, fin_seq, fin_putClient, out_putClient, out_read, fin_read. fold (helloName m).
  set (r2 := withName (helloName m) r1). set (h2 := setClients (om_insert id r2 (hs_clients h1)) h1).
  assert (Ecs : hs_clients h2 = om_insert id r2 (hs_clients h)) by apply om_insert_insert.
  assert (E2 : om_lookup id (hs_clients h2) = Some r2) by (rewrite Ecs; apply om_lookup_insert_eq).
  rewrite Ecs, (om_insert_same_length _ _ _ _ Hs Hl).
  change (hs_params h2) with (hs_params h). change (hs_sessionCode h2) with (hs_sessionCode h). cbn [app].
  destruct (_ <? _)%nat.
  { rewrite (out_dropClient _ _ _ _ _ _ E2 Hc), fin_dropClient, E2.
    split; [done|]. apply om_lookup_erase_eq. }
  destruct (verifySessionCode _ _); cbn [negb].
  2: { rewrite (out_dropClient _ _ _ _ _ _ E2 Hc), fin_dropClient, E2.
       split; [done|]. apply om_lookup_erase_eq. }
  destruct (hp_autoApprove (hs_params h)); (split; [apply om_lookup_insert_eq|done]).
Qed.

(** What a CLIENT_HELLO does to a waiting client, on every branch: with the
    table over capacity the client is told SERVER_FULL and removed; with a code
    that does not verify it is told BAD_SESSION_CODE and removed; otherwise it
    is AUTHENTICATING with the default input permissions, and either its
    approval is queued or the owner is asked. *)
Theorem hello_decision now id flags data m h r conn
    (Hstop : hs_stopping h = false) (Hs : om_sorted (hs_clients h))
    (Hl : om_lookup id (hs_clients h) = Some r) (Hst : cl_state r = Connecting)
    (Hc : cl_connection r = Some conn)
    (Hd : decodeMessage (idCode IdClientHello) data = Some (mkEnvelope IdClientHello (BClientHello m))) :
  let outs := fst (handleFrame now id (idCode IdClientHello) flags data h) in
  let h' := snd (handleFrame now id (idCode IdClientHello) flags data h) in
  let r' := withName (helloName m) (withActivity now r) in
  if (hp_maxClients (hs_params h) <? length (hs_clients h))%nat then
    outs = rejected conn id r' RServerFull kFull /\ om_lookup id (hs_clients h') = None
  else if negb (verifySessionCode (hello_sessionCode m) (hs_sessionCode h)) then
    outs = rejected conn id r' RBadSessionCode kBadCode /\ om_lookup id (hs_clients h') = None
  else
    om_lookup id (hs_clients h') = Some (withInput (hp_inputDefaults (hs_params h)) (withState Authenticating r')) /\
    if hp_autoApprove (hs_params h) then outs = [] /\ hs_tasks h' = hs_tasks h ++ [HtApprove id true]
    else outs = [HoApprovalRequest id (helloName m)] /\ hs_tasks h' = hs_tasks h.
Proof. by apply hello_outcome. Qed.

Definition sampleHello : bytes :=
  encodeMessage (mkEnvelope IdClientHello (BClientHello (mkClientHello (str "Ali") (str "abcd efgh") (str "1.0")))).

Definition sampleParams : HostSessionParams :=
  mkParams (str "Host") (str "Game") CaptureWindow defaultResolution 60 8000 H264 41717 false
    defaultInputPermissions 4.

(** A session with code ABCD-EFGH whose client 1 is on connection 7. *)
Definition sampleHost : HostSession :=
  snd (hostRun [HeStart sampleParams (str "ABCD-EFGH") (fun p => Some p);
                HeIo (IoAccept 1000 7 (str "10.0.0.2"))] (newHost true)).

Lemma hello_decision_witness :
  om_lookup 1 (hs_clients (snd (handleFrame 2000 1 1 0 sampleHello sampleHost)))
    = Some (mkRec 1 (str "Ali") Authenticating 2000 0 (Some 7) defaultInputPermissions 0 (str "10.0.0.2")).
Proof.
  refine (proj1 (hello_decision 2000 1 0 sampleHello
            (mkClientHello (str "Ali") (str "abcd efgh") (str "1.0")) sampleHost
            (mkRec 1 (str "pending") Connecting 1000 0 (Some 7) defaultInputPermissions 0 (str "10.0.0.2")) 7
            _ _ _ _ _ _)); try reflexivity.
  unfold om_sorted. apply SSorted_cons; [apply SSorted_nil|apply Forall_nil_2].
Defined.

(** Dropping a list of clients. *)
Lemma drop_loop reason text ids h :
  let body := fun id => dropClient id true reason text in
  let h' := snd (forA ids body h) in
  (forall id, om_lookup id (hs_clients h') =
     if bool_decide (id ∈ ids) then None else om_lookup id (hs_clients h)) /\
  (forall id r conn, id ∈ ids -> om_lookup id (hs_clients h) = Some r -> cl_connection r = Some conn ->
     exists os1 os2, fst (forA ids body h) = os1 ++ rejected conn id r reason text ++ os2).
Proof.
  cbv zeta. revert h. induction ids as [|x ids IH]; intros h; cbn [forA].
  { split; [intros id; rewrite bool_decide_false; [done|apply not_elem_of_nil]|].
    by intros id r conn ?%not_elem_of_nil. }
  rewrite fin_seq, out_seq. set (h1 := snd (dropClient x true reason text h)).
  assert (E1 : forall id, om_lookup id (hs_clients h1) = if id =? x then None else om_lookup id (hs_clients h)).
  { intros id. unfold h1. rewrite fin_dropClient. destruct (om_lookup x (hs_clients h)) eqn:Ex.
    - cbn [hs_clients putClients setSnapshot setClients]. destruct (Z.eqb_spec id x) as [->|];
        [apply om_lookup_erase_eq|by apply om_lookup_erase_ne].
    - destruct (Z.eqb_spec id x) as [->|]; done. }
  destruct (IH h1) as (IHl & IHo). split.
  - intros id. rewrite IHl, E1. destruct (Z.eqb_spec id x) as [->|Hne].
    + rewrite (bool_decide_true (x ∈ x :: ids)) by apply list_elem_of_here. by case_bool_decide.
    + rewrite (bool_decide_ext (id ∈ x :: ids) (id ∈ ids)) by (rewrite elem_of_cons; tauto). done.
  - intros id r conn Hin El Ec. destruct (Z.eqb_spec id x) as [->|Hne].
    + rewrite (out_dropClient _ _ _ _ _ _ El Ec). eexists [], _. done.
    + apply elem_of_cons in Hin as [->|Hin]; [done|]. specialize (IHo id r conn Hin).
      rewrite E1, (proj2 (Z.eqb_neq id x)) in IHo by done. destruct (IHo El Ec) as (os1 & os2 & ->).
      eexists (_ ++ os1), os2. by rewrite app_assoc.
Qed.

Lemma timedOut_probed now r : timedOut now (probed now r) = timedOut now r.
Proof. unfold probed. by destruct (pingDue now r). Qed.



(** * Runs that show what the session does not promise *)

(** Client 1 says hello. *)
Definition helloRun : list HostEvent :=
  [HeStart sampleParams (str "ABCD-EFGH") (fun p => Some p);
   HeIo (IoAccept 1000 7 (str "10.0.0.2"));
   HeIo (IoFrame 2000 1 (idCode IdClientHello) 0 sampleHello)].

Lemma admission_requires_code_witness : presentedCode helloRun 1 (str "ABCD-EFGH").
Proof. apply (admission_requires_code true helloRun 1). vm_compute. reflexivity. Defined.

Definition capabilitiesFrame : bytes :=
  encodeMessage (mkEnvelope IdClientCapabilities (BClientCapabilities (mkClientCapabilities [H264]))).

Definition isApproval (e : HostEvent) : bool :=
  match e with HeApprove _ _ => true | _ => false end.

(** The host's decision can be bypassed. The state AUTHENTICATING is
    documented as waiting for host approval, yet a client that sends its
    capabilities right after a valid hello is CONNECTED: with approval required
    and no approval call in the whole run. *)
Theorem approval_can_be_bypassed :
  exists es, forallb (fun e => negb (isApproval e)) es = true /\
    let h := snd (hostRun es (newHost true)) in
    hp_autoApprove (hs_params h) = false /\ hs_tasks h = [] /\ stateOf 1 h = Some Connected.
Proof.
  exists (helloRun ++ [HeIo (IoFrame 3000 1 (idCode IdClientCapabilities) 0 capabilitiesFrame)]).
  split; [reflexivity|]. cbv zeta. split_and!; vm_compute; reflexivity.
Qed.

(** A session restarted right after [stop] can be left deaf. When [stop]
    stops the event loop before its own task ran, the task survives in the
    queue; the next [start] reports success, and then the stale task closes the
    new listener and cancels the housekeeping timer, so no later connection is
    taken and no timeout fires, while [running()] still says true. *)
Theorem restart_can_go_deaf p1 p2 code1 code2 port1 port2 now now2 conn addr :
  let es := [HeStart p1 code1 (fun _ => Some port1); HeStop [];
             HeStart p2 code2 (fun _ => Some port2); HeIo (IoTask now)] in
  let h := snd (hostRun es (newHost true)) in
  hs_running h = true /\ hs_listening h = false /\
  hostStep (HeIo (IoAccept now2 conn addr)) h = ([], h) /\ hostStep (HeIo (IoTimer now2)) h = ([], h).
Proof. done. Qed.

(** The published row's [inputEnabled] flag lags: after the host disables a
    client's input, the snapshot still shows it enabled. *)
Theorem input_flag_lags :
  let h := snd (hostRun [HeStart sampleParams (str "ABCD-EFGH") (fun p => Some p);
                         HeIo (IoAccept 1000 7 (str "10.0.0.2"));
                         HeSetInput 1 false; HeIo (IoTask 2000)] (newHost true)) in
  row_inputEnabled <$> clients h = [true] /\ row_inputEnabled <$> (rowOf <$> hs_clients h) = [false].
Proof. split; vm_compute; reflexivity. Qed.
