(* ===== verification/ClientSession.v ===== *)
(** client/ClientSession.h and client/ClientSession.cpp: the client's side of a
    session.

    As on the host, the public methods post to a network thread and every
    handler is one function of the source, an action on the session's state.
    Log lines are not modelled; the text of a system error comes with the event
    that reports it. Time is the steady clock in nanoseconds.

    The event loop is explicit, because the session stops it from inside a
    handler: [cs_looping] says whether [io_.run()] is running, and what is
    posted but not run ([cs_tasks]) or still in flight ([cs_attempts],
    [cs_open]) stays there for the next run, as in the source, which never
    discards it. *)

From S2P Require Import Prelude Types Packet Protocol TcpTransport OrderedMap HostSession.

Open Scope act_scope.

(** * Data *)

Record ClientSessionParams := mkCParams {
  cp_clientName : bytes; cp_sessionCode : bytes; cp_hostAddress : bytes; cp_hostPort : Z;
  cp_connectTimeoutMs : Z; cp_supportedCodecs : list VideoCodec }.

Record ClientStatus := mkStatus {
  st_state : ConnectionState; st_hostName : bytes; st_gameName : bytes; st_codec : VideoCodec;
  st_width : Z; st_height : Z; st_fps : Z; st_bitrateKbps : Z; st_rttMs : Z;
  st_input : InputPermissions; st_lastError : bytes; st_bytesIn : Z; st_bytesOut : Z }.

Definition defaultStatus : ClientStatus :=
  mkStatus Disconnected [] [] H264 0 0 0 0 0 defaultInputPermissions [] 0 0.

(** Posted work: the closures of the public methods, and the close a handler
    posts to a connection. *)
Inductive ClientTask :=
| CtBye
| CtApp (type : Z) (payload : bytes)
| CtShutdown (conn : Z).

Inductive ClientOut :=
| CoSend (conn type : Z) (payload : bytes)
| CoSendAndClose (conn type : Z) (payload : bytes)
| CoStartConn (conn : Z)
| CoConnect (host : bytes) (port timeoutMs : Z)
| CoConnectRelay (host : bytes) (port : Z) (token role : bytes) (timeoutMs : Z)
| CoState (st : ConnectionState)
| CoConnected (status : ClientStatus)
| CoDisconnected (reason : bytes)
| CoError (message : bytes)
| CoInputPermissions (perms : InputPermissions)
| CoAppMessage (type : Z) (payload : bytes).

(** [cs_attempts] counts the connection attempts that have not called back;
    [cs_open] lists the connections that carry this session's handlers and are
    not shut down; [cs_armed] is the pending wait on the heartbeat timer. *)
Record ClientSession := mkClient {
  cs_params : ClientSessionParams; cs_onAppMessage : bool; cs_status : ClientStatus;
  cs_connection : option Z; cs_open : list Z; cs_attempts : nat; cs_armed : bool;
  cs_lastActivity : Z; cs_running : bool; cs_stopping : bool; cs_looping : bool;
  cs_tasks : list ClientTask }.

Definition defaultCParams : ClientSessionParams :=
  mkCParams (str "Player") [] (str "127.0.0.1") kDefaultListenPort 5000 [H264].

Definition newClient (onAppMessage : bool) : ClientSession :=
  mkClient defaultCParams onAppMessage defaultStatus None [] 0 false 0 false false false [].

Definition setStatus (s : ClientStatus) (c : ClientSession) : ClientSession :=
  mkClient (cs_params c) (cs_onAppMessage c) s (cs_connection c) (cs_open c) (cs_attempts c) (cs_armed c)
    (cs_lastActivity c) (cs_running c) (cs_stopping c) (cs_looping c) (cs_tasks c).
Definition setConn (conn : option Z) (opened : list Z) (c : ClientSession) : ClientSession :=
  mkClient (cs_params c) (cs_onAppMessage c) (cs_status c) conn opened (cs_attempts c) (cs_armed c)
    (cs_lastActivity c) (cs_running c) (cs_stopping c) (cs_looping c) (cs_tasks c).
Definition setAttempts (n : nat) (c : ClientSession) : ClientSession :=
  mkClient (cs_params c) (cs_onAppMessage c) (cs_status c) (cs_connection c) (cs_open c) n (cs_armed c)
    (cs_lastActivity c) (cs_running c) (cs_stopping c) (cs_looping c) (cs_tasks c).
Definition setArmed (b : bool) (c : ClientSession) : ClientSession :=
  mkClient (cs_params c) (cs_onAppMessage c) (cs_status c) (cs_connection c) (cs_open c) (cs_attempts c) b
    (cs_lastActivity c) (cs_running c) (cs_stopping c) (cs_looping c) (cs_tasks c).
Definition setActivity (t : Z) (c : ClientSession) : ClientSession :=
  mkClient (cs_params c) (cs_onAppMessage c) (cs_status c) (cs_connection c) (cs_open c) (cs_attempts c) (cs_armed c)
    t (cs_running c) (cs_stopping c) (cs_looping c) (cs_tasks c).
Definition setRun (running stopping looping : bool) (c : ClientSession) : ClientSession :=
  mkClient (cs_params c) (cs_onAppMessage c) (cs_status c) (cs_connection c) (cs_open c) (cs_attempts c) (cs_armed c)
    (cs_lastActivity c) running stopping looping (cs_tasks c).
Definition setCTasks (ts : list ClientTask) (c : ClientSession) : ClientSession :=
  mkClient (cs_params c) (cs_onAppMessage c) (cs_status c) (cs_connection c) (cs_open c) (cs_attempts c) (cs_armed c)
    (cs_lastActivity c) (cs_running c) (cs_stopping c) (cs_looping c) ts.
Definition setCParams (p : ClientSessionParams) (c : ClientSession) : ClientSession :=
  mkClient p (cs_onAppMessage c) (cs_status c) (cs_connection c) (cs_open c) (cs_attempts c) (cs_armed c)
    (cs_lastActivity c) (cs_running c) (cs_stopping c) (cs_looping c) (cs_tasks c).

(** ** Status updates *)

Definition stState (st : ConnectionState) (s : ClientStatus) : ClientStatus :=
  mkStatus st (st_hostName s) (st_gameName s) (st_codec s) (st_width s) (st_height s) (st_fps s)
    (st_bitrateKbps s) (st_rttMs s) (st_input s) (st_lastError s) (st_bytesIn s) (st_bytesOut s).
Definition stBytes (bytesIn bytesOut : Z) (s : ClientStatus) : ClientStatus :=
  mkStatus (st_state s) (st_hostName s) (st_gameName s) (st_codec s) (st_width s) (st_height s) (st_fps s)
    (st_bitrateKbps s) (st_rttMs s) (st_input s) (st_lastError s) bytesIn bytesOut.
Definition stRtt (rtt : Z) (s : ClientStatus) : ClientStatus :=
  mkStatus (st_state s) (st_hostName s) (st_gameName s) (st_codec s) (st_width s) (st_height s) (st_fps s)
    (st_bitrateKbps s) rtt (st_input s) (st_lastError s) (st_bytesIn s) (st_bytesOut s).
Definition stInput (p : InputPermissions) (s : ClientStatus) : ClientStatus :=
  mkStatus (st_state s) (st_hostName s) (st_gameName s) (st_codec s) (st_width s) (st_height s) (st_fps s)
    (st_bitrateKbps s) (st_rttMs s) p (st_lastError s) (st_bytesIn s) (st_bytesOut s).
(** What every way of starting clears. *)
Definition stFresh (s : ClientStatus) : ClientStatus :=
  mkStatus Connecting [] [] (st_codec s) (st_width s) (st_height s) (st_fps s)
    (st_bitrateKbps s) 0 (st_input s) [] (st_bytesIn s) (st_bytesOut s).
Definition stHost (m : HostCapabilities) (s : ClientStatus) : ClientStatus :=
  mkStatus (st_state s) (hc_hostName m) (hc_gameName m) (st_codec s) (hc_width m) (hc_height m) (hc_fps m)
    (hc_bitrateKbps m) (st_rttMs s) (st_input s) (st_lastError s) (st_bytesIn s) (st_bytesOut s).
Definition stNegotiated (m : NegotiationResult) (s : ClientStatus) : ClientStatus :=
  mkStatus Connected (st_hostName s) (st_gameName s) (nr_codec m) (nr_width m) (nr_height m) (nr_fps m)
    (nr_bitrateKbps m) (st_rttMs s) (st_input s) (st_lastError s) (st_bytesIn s) (st_bytesOut s).
Definition stFinished (st : ConnectionState) (reason : bytes) (s : ClientStatus) : ClientStatus :=
  mkStatus st (st_hostName s) (st_gameName s) (st_codec s) (st_width s) (st_height s) (st_fps s)
    (st_bitrateKbps s) (st_rttMs s) (st_input s) (if bool_decide (reason = []) then st_lastError s else reason)
    (st_bytesIn s) (st_bytesOut s).

Definition kHeartbeatPeriod : Z := seconds 2.
Definition kWatchdogTimeout : Z := seconds 12.

(** [steadyNowMs()], a 64-bit count of milliseconds. *)
Definition steadyNowMs (now : Z) : Z := u64 (now / 1000000).

(** * Handlers *)

Definition CAct : Type := act ClientSession ClientOut.

Definition updateStatus (f : ClientStatus -> ClientStatus) : CAct :=
  modify (fun c => setStatus (f (cs_status c)) c).

Definition setState (st : ConnectionState) : CAct :=
  updateStatus (stState st) ;+ emit [CoState st].

Definition postTask (t : ClientTask) : CAct := modify (fun c => setCTasks (cs_tasks c ++ [t]) c).

Definition send (msg : Envelope) : CAct :=
  readA (fun c =>
    match cs_connection c with
    | None => skip
    | Some conn =>
        let payload := encodeMessage msg in
        updateStatus (fun s => stBytes (st_bytesIn s) (u64 (st_bytesOut s + zlen payload)) s) ;+
        emit [CoSend conn (idCode (env_type msg)) payload]
    end).

(** [connection_->close()] posts; [work_.reset()] and [io_.stop()] end the loop
    after the current handler. *)
Definition finish (finalState : ConnectionState) (reason : bytes) (notifyDisconnected : bool) : CAct :=
  updateStatus (stFinished finalState reason) ;+
  setState finalState ;+
  readA (fun c => match cs_connection c with Some conn => postTask (CtShutdown conn) | None => skip end) ;+
  modify (fun c => setRun false (cs_stopping c) false (setConn None (cs_open c) c)) ;+
  (if notifyDisconnected then emit [CoDisconnected reason] else skip).

Definition sendHello : CAct :=
  readA (fun c => send (mkEnvelope IdClientHello
    (BClientHello (mkClientHello (cp_clientName (cs_params c)) (cp_sessionCode (cs_params c)) kAppVersion)))).

Definition handleConnected (now conn : Z) : CAct :=
  modify (fun c => setActivity now (setConn (Some conn) (conn :: cs_open c) c)) ;+
  updateStatus (stBytes 0 0) ;+
  emit [CoStartConn conn] ;+
  sendHello ;+
  setState Authenticating.

Definition handleHostCapabilities (caps : HostCapabilities) : CAct :=
  updateStatus (stHost caps) ;+
  readA (fun c => send (mkEnvelope IdClientCapabilities
    (BClientCapabilities (mkClientCapabilities (cp_supportedCodecs (cs_params c)))))).

Definition handleNegotiation (result : NegotiationResult) : CAct :=
  if negb (nr_accepted result) then
    let msg := str "Codec negotiation failed: " ++ nr_note result in
    finish Disconnected msg true ;+ emit [CoError msg]
  else
    updateStatus (stNegotiated result) ;+
    setState Connected ;+
    readA (fun c => emit [CoConnected (cs_status c)]).

Definition handleHostReject (reject : HostReject) : CAct :=
  let msg := str "Host rejected: " ++ reject_reasonText reject in
  finish Disconnected msg true ;+ emit [CoError msg].

Definition handleKick (kick : Kick) : CAct :=
  finish Disconnected (str "Kicked by host: " ++ kick_reason kick) true.

Definition handlePing (ping : Ping) : CAct :=
  send (mkEnvelope IdPong (BPong (mkPong (ping_epochMs ping)))).

Definition handlePong (now : Z) (pong : Pong) : CAct :=
  let t := steadyNowMs now in
  let sample := if pong_echoEpochMs pong <? t then u32 (t - pong_echoEpochMs pong) else 0 in
  updateStatus (fun s => stRtt (if st_rttMs s =? 0 then sample else u32 (u32 (st_rttMs s * 7) + sample) / 8) s).

Definition handleInputPermission (m : InputPermission) : CAct :=
  let p := mkInputPermissions (ip_controller m) (ip_keyboard m) (ip_mouse m) (ip_vibration m) in
  updateStatus (stInput p) ;+ emit [CoInputPermissions p].

Definition handleFrame (now type : Z) (data : bytes) : CAct :=
  readA (fun c =>
    if cs_stopping c then skip
    else
      modify (setActivity now) ;+
      if negb (knownId type) then
        let msg := str "Host sent an unknown message type (0x" ++ print_dec type ++ str ")" in
        emit [CoError msg] ;+ finish Disconnected msg true
      else
        match decodeMessage type data with
        | None =>
            let msg := str "Host sent a malformed message" in
            emit [CoError msg] ;+ finish Disconnected msg true
        | Some env =>
            match env_body env with
            | BHostReject m => handleHostReject m
            | BHostApproved => skip
            | BHostCapabilities m => handleHostCapabilities m
            | BNegotiationResult m => handleNegotiation m
            | BPing m => handlePing m
            | BPong m => handlePong now m
            | BInputPermission m => handleInputPermission m
            | BKick m => handleKick m
            | BBye _ => finish Disconnected (str "Host closed the session") true
            | _ =>
                if (0x0010 <=? type) && bool_decide (st_state (cs_status c) = Connected) && cs_onAppMessage c
                then emit [CoAppMessage type data] else skip
            end
        end).

Definition startHeartbeat (now : Z) : CAct :=
  readA (fun c =>
    if cs_stopping c then skip
    else if kWatchdogTimeout <? now - cs_lastActivity c then
      finish Disconnected (str "Connection timed out (no data from host)") true
    else
      (if active (st_state (cs_status c)) then
         send (mkEnvelope IdPing (BPing (mkPing (steadyNowMs now))))
       else skip) ;+
      modify (setArmed true)).

Definition handleClosed (ec : Err) (message : bytes) : CAct :=
  readA (fun c =>
    if cs_stopping c then skip
    else
      let clean := bool_decide (ec = ErrNone) || bool_decide (ec = ErrEof) || bool_decide (ec = ErrAborted) in
      finish Disconnected
        (if clean then str "Connection closed by host" else str "Connection lost: " ++ message) true).

(** [TcpConnection::shutdown] as far as this session sees it: the close handler
    runs once. *)
Definition shutdownConn (conn : Z) (ec : Err) (message : bytes) : CAct :=
  readA (fun c =>
    if bool_decide (conn ∈ cs_open c) then
      modify (fun c => setConn (cs_connection c) (filter (fun x => x <> conn) (cs_open c)) c) ;+
      handleClosed ec message
    else skip).

Definition sendBye : CAct :=
  readA (fun c =>
    match cs_connection c with
    | Some conn =>
        if bool_decide (conn ∈ cs_open c) then
          emit [CoSendAndClose conn (idCode IdBye)
                  (encodeMessage (mkEnvelope IdBye (BBye (mkBye (str "Disconnected by user")))))]
        else skip
    | None => skip
    end).

Definition runTask (t : ClientTask) : CAct :=
  match t with
  | CtBye => sendBye
  | CtApp type payload =>
      readA (fun c => match cs_connection c with Some conn => emit [CoSend conn type payload] | None => skip end)
  | CtShutdown conn => shutdownConn conn ErrNone []
  end.

(** * The network thread *)

Inductive ClientIo :=
| CiTask
| CiAttempt (now : Z) (result : bytes + Z)
| CiFrame (now conn type : Z) (data : bytes)
| CiClosed (conn : Z) (ec : Err) (message : bytes)
| CiTimer (now : Z).

(** The connection attempt's callback; [prefix] is the direct path's or the
    relay path's message. *)
Definition attemptDone (now : Z) (result : bytes + Z) : CAct :=
  match result with
  | inl msg => emit [CoError msg] ;+ finish Disconnected msg true
  | inr conn => handleConnected now conn
  end.

Definition clientIo (e : ClientIo) : CAct :=
  readA (fun c =>
    if negb (cs_looping c) then skip
    else match e with
    | CiTask =>
        match cs_tasks c with
        | [] => skip
        | t :: ts => modify (setCTasks ts) ;+ runTask t
        end
    | CiAttempt now result =>
        match cs_attempts c with
        | O => skip
        | S n => modify (setAttempts n) ;+ attemptDone now result
        end
    | CiFrame now conn type data =>
        if bool_decide (conn ∈ cs_open c) then handleFrame now type data else skip
    | CiClosed conn ec message => shutdownConn conn ec message
    | CiTimer now =>
        if cs_armed c then
          modify (setArmed false) ;+ (if cs_stopping c then skip else startHeartbeat now)
        else skip
    end).

(** * Public methods *)

Definition joinNetworkThread : CAct :=
  modify (fun c => setArmed false (setConn None (cs_open c) (setRun (cs_running c) (cs_stopping c) false c))).

(** The common part of the three ways to start: [launch] is what the new thread
    does before it runs the loop. *)
Definition startWith (p : ClientSessionParams) (fresh : ClientStatus -> ClientStatus) (launch : CAct) : CAct :=
  joinNetworkThread ;+
  readA (fun c =>
    if cs_running c then skip
    else
      modify (fun c => setCParams p (setRun true false (cs_looping c) c)) ;+
      updateStatus fresh ;+
      setState Connecting ;+
      launch ;+
      modify (fun c => setArmed true (setRun (cs_running c) (cs_stopping c) true c))).

Definition beginAttempt (out : ClientOut) : CAct :=
  modify (fun c => setAttempts (S (cs_attempts c)) c) ;+ emit [out].

Definition start (p : ClientSessionParams) : CAct :=
  startWith p (fun s => stBytes 0 0 (stFresh s))
    (beginAttempt (CoConnect (cp_hostAddress p) (cp_hostPort p) (cp_connectTimeoutMs p))).

Definition startViaRelay (p : ClientSessionParams) (serverHost : bytes) (relayTcpPort : Z) (token : bytes) : CAct :=
  startWith p stFresh (beginAttempt (CoConnectRelay serverHost relayTcpPort token (str "client") 15000)).

Definition attachConnection (now conn : Z) (p : ClientSessionParams) : CAct :=
  startWith p stFresh (handleConnected now conn).

Definition sendAppMessage (type : Z) (payload : bytes) : CAct :=
  if type <? 0x0010 then skip else postTask (CtApp type payload).

(** [ran] is what the loop still processes in the 700 ms [stop] allows it. *)
Definition stop (ran : list ClientIo) : CAct :=
  readA (fun c =>
    if negb (cs_running c) then joinNetworkThread
    else
      modify (fun c => setRun false true (cs_looping c) c) ;+
      postTask CtBye ;+
      forA ran clientIo ;+
      joinNetworkThread ;+
      updateStatus (stState Disconnected) ;+
      emit [CoDisconnected (str "Disconnected")]).

Definition status (c : ClientSession) : ClientStatus := cs_status c.

Inductive ClientEvent :=
| CeStart (p : ClientSessionParams)
| CeRelay (p : ClientSessionParams) (serverHost : bytes) (relayTcpPort : Z) (token : bytes)
| CeAttach (now conn : Z) (p : ClientSessionParams)
| CeStop (ran : list ClientIo)
| CeSendApp (type : Z) (payload : bytes)
| CeIo (e : ClientIo).

Definition clientStep (e : ClientEvent) : CAct :=
  match e with
  | CeStart p => start p
  | CeRelay p host port token => startViaRelay p host port token
  | CeAttach now conn p => attachConnection now conn p
  | CeStop ran => stop ran
  | CeSendApp type payload => sendAppMessage type payload
  | CeIo e => clientIo e
  end.

Definition clientRun (es : list ClientEvent) : CAct := forA es clientStep.
