(* ===== verification/ClientSessionSpec.v ===== *)
(** Properties of the client session: its state machine, what an inactive
    session holds, and where reuse and the watchdog go wrong. *)

From S2P Require Import Prelude Types Packet Protocol TcpTransport OrderedMap HostSession ClientSession.

Open Scope act_scope.

(** * What each handler leaves behind *)

(** The state the status shows and the fields that drive the session. *)
Definition core (c : ClientSession) : ConnectionState * option Z * bool * bool * bool :=
  (st_state (cs_status c), cs_connection c, cs_running c, cs_stopping c, cs_looping c).

(** After [finish]. *)
Definition isDown (c : ClientSession) : Prop :=
  st_state (cs_status c) = Disconnected /\ cs_connection c = None /\ cs_running c = false /\ cs_looping c = false.

Lemma send_core msg c : core (snd (send msg c)) = core c.
Proof. unfold send. rewrite fin_read. by destruct (cs_connection c) eqn:E; unfold core; cbn; rewrite ?E. Qed.

Lemma finish_down reason b c : isDown (snd (finish Disconnected reason b c)).
Proof.
  unfold finish, isDown. autorewrite with fin.
  destruct (cs_connection _); destruct b; done.
Qed.

Lemma finish_stopping st reason b c : cs_stopping (snd (finish st reason b c)) = cs_stopping c.
Proof.
  unfold finish. autorewrite with fin. unfold setState, updateStatus. autorewrite with fin.
  cbn [cs_connection setStatus]. by destruct (cs_connection c), b.
Qed.

Lemma finish_lastError st reason b c :
  reason <> [] -> st_lastError (status (snd (finish st reason b c))) = reason.
Proof.
  intros Hr. destruct c as [p oa s cn op at_ ar la ru sp lo ts].
  assert (E : bool_decide (reason = []) = false) by (by apply bool_decide_false).
  unfold finish, status. destruct cn, b; cbn; by rewrite E.
Qed.

Lemma finish_emit_down reason b os c : isDown (snd ((finish Disconnected reason b ;+ emit os) c)).
Proof. rewrite fin_seq, fin_emit. apply finish_down. Qed.

Lemma emit_finish_down reason b os c : isDown (snd ((emit os ;+ finish Disconnected reason b) c)).
Proof. rewrite fin_seq. apply finish_down. Qed.

(** The host's decision on the stream, as the client adopts it. *)
Definition adopted (m : NegotiationResult) (c : ClientSession) : Prop :=
  st_state (cs_status c) = Connected /\ st_codec (cs_status c) = nr_codec m /\
  st_width (cs_status c) = nr_width m /\ st_height (cs_status c) = nr_height m /\
  st_fps (cs_status c) = nr_fps m /\ st_bitrateKbps (cs_status c) = nr_bitrateKbps m.

Definition sameRun (c c' : ClientSession) : Prop :=
  cs_connection c' = cs_connection c /\ cs_running c' = cs_running c /\
  cs_stopping c' = cs_stopping c /\ cs_looping c' = cs_looping c.

Lemma frame_effect now type data c :
  let c' := snd (handleFrame now type data c) in
  core c' = core c \/ isDown c' \/
  exists env m, decodeMessage type data = Some env /\ env_body env = BNegotiationResult m /\
    nr_accepted m = true /\ adopted m c' /\ sameRun c c'.
Proof.
  cbv zeta. unfold handleFrame. rewrite fin_read. destruct (cs_stopping c) eqn:Es; [by left|].
  rewrite fin_seq, fin_modify. destruct (negb (knownId type)).
  { right. left. apply emit_finish_down. }
  destruct (decodeMessage type data) as [env|].
  2: { right. left. apply emit_finish_down. }
  destruct (env_body env) as [m|m| |m|m|m|m|m|m|m|m|m|m| |m| ] eqn:Eb;
    try (left; destruct (_ && _); reflexivity).
  - right. left. apply finish_emit_down.
  - by left.
  - left. unfold handleHostCapabilities. rewrite fin_seq, fin_read, send_core. reflexivity.
  - unfold handleNegotiation. destruct (nr_accepted m) eqn:Ea; cbn [negb].
    + right. right. exists env, m. split_and!; try done; rewrite Es; done.
    + right. left. apply finish_emit_down.
  - left. unfold handlePing. by rewrite send_core.
  - by left.
  - by left.
  - right. left. apply finish_down.
  - right. left. apply finish_down.
Qed.

Lemma closed_effect conn ec msg c :
  let c' := snd (shutdownConn conn ec msg c) in core c' = core c \/ isDown c'.
Proof.
  cbv zeta. unfold shutdownConn. rewrite fin_read. case_bool_decide; [|by left]. rewrite fin_seq, fin_modify.
  unfold handleClosed. rewrite fin_read. cbn [cs_stopping setConn]. destruct (cs_stopping c) eqn:Es.
  - left. unfold core. cbn. by rewrite Es.
  - right. apply finish_down.
Qed.

Lemma task_effect t c :
  let c' := snd (runTask t c) in core c' = core c \/ isDown c'.
Proof.
  cbv zeta. destruct t as [|type payload|conn]; cbn [runTask].
  - left. unfold sendBye. rewrite fin_read. destruct (cs_connection c); [|done]. by case_bool_decide.
  - left. rewrite fin_read. by destruct (cs_connection c).
  - apply closed_effect.
Qed.

Lemma heartbeat_effect now c :
  let c' := snd (startHeartbeat now c) in core c' = core c \/ isDown c'.
Proof.
  cbv zeta. unfold startHeartbeat. rewrite fin_read. destruct (cs_stopping c); [by left|].
  destruct (_ <? _); [right; apply finish_down|]. left. rewrite fin_seq, fin_modify, fin_if.
  assert (E : forall c0, core (setArmed true c0) = core c0) by done.
  rewrite E. destruct (active _); [apply send_core|done].
Qed.

Lemma connected_effect now conn c :
  let c' := snd (handleConnected now conn c) in
  core c' = (Authenticating, Some conn, cs_running c, cs_stopping c, cs_looping c).
Proof.
  done.
Qed.

Lemma core_sameRun c c' : core c' = core c -> st_state (cs_status c') = st_state (cs_status c) /\ sameRun c c'.
Proof. unfold core, sameRun. intros E. by injection E. Qed.

(** Every event the network thread handles. *)
Lemma io_effect e c :
  let c' := snd (clientIo e c) in
  core c' = core c \/ isDown c' \/
  (exists now conn, e = CiAttempt now (inr conn) /\ cs_looping c = true /\ cs_attempts c <> O /\
     core c' = (Authenticating, Some conn, cs_running c, cs_stopping c, cs_looping c)) \/
  (exists now conn type data env m, e = CiFrame now conn type data /\ cs_looping c = true /\
     decodeMessage type data = Some env /\ env_body env = BNegotiationResult m /\
     nr_accepted m = true /\ adopted m c' /\ sameRun c c').
Proof.
  cbv zeta. unfold clientIo. rewrite fin_read. destruct (cs_looping c) eqn:El; cbn [negb]; [|by left].
  destruct e as [|now result|now conn type data|conn ec msg|now].
  - destruct (cs_tasks c) as [|t ts]; [by left|]. rewrite fin_seq, fin_modify.
    destruct (task_effect t (setCTasks ts c)) as [E|E]; [left; by rewrite E|by right; left].
  - destruct (cs_attempts c) as [|n] eqn:Ea; [by left|]. rewrite fin_seq, fin_modify.
    destruct result as [msg|conn]; cbn [attemptDone].
    + right. left. apply emit_finish_down.
    + right. right. left. exists now, conn. split_and!; try done. rewrite connected_effect. cbn. by rewrite El.
  - case_bool_decide; [|by left].
    destruct (frame_effect now type data c) as [E|[E|(env & m & E)]]; [by left|by right; left|].
    right. right. right. exists now, conn, type, data, env, m. tauto.
  - destruct (closed_effect conn ec msg c); auto.
  - destruct (cs_armed c); [|by left]. rewrite fin_seq, fin_modify, fin_if. cbn [cs_stopping setArmed].
    destruct (cs_stopping c) eqn:Es; [by left|].
    destruct (heartbeat_effect now (setArmed false c)) as [E|E]; [left; by rewrite E|by right; left].
Qed.

(** * The session between calls *)

(** A session that is not running has no connection, no running loop and shows
    DISCONNECTED; a running loop belongs to a running session. *)
Definition quiescent (c : ClientSession) : Prop :=
  cs_running c = false -> cs_connection c = None /\ cs_looping c = false /\ st_state (cs_status c) = Disconnected.

Lemma quiescent_down c : isDown c -> quiescent c.
Proof. intros (? & ? & ? & ?) _. done. Qed.

Lemma quiescent_core c c' : core c' = core c -> quiescent c -> quiescent c'.
Proof.
  intros (E & E1 & E2 & E3 & E4)%core_sameRun Hq Hr. rewrite E, E1, E4. apply Hq. congruence.
Qed.

Lemma join_core c :
  core (snd (joinNetworkThread c)) = (st_state (cs_status c), None, cs_running c, cs_stopping c, false).
Proof. done. Qed.

Lemma startWith_inactive p fresh launch c :
  cs_running c = false ->
  exists c1, cs_attempts c1 = cs_attempts c /\ cs_lastActivity c1 = cs_lastActivity c /\
    cs_open c1 = cs_open c /\ cs_tasks c1 = cs_tasks c /\
    st_state (cs_status c1) = Connecting /\ cs_running c1 = true /\ cs_stopping c1 = false /\
    cs_connection c1 = None /\
    snd (startWith p fresh launch c) =
      let c2 := snd (launch c1) in setArmed true (setRun (cs_running c2) (cs_stopping c2) true c2).
Proof.
  intros Hr. unfold startWith. rewrite fin_seq, fin_read. unfold joinNetworkThread. rewrite fin_modify.
  cbn [cs_running setArmed setConn setRun]. rewrite Hr. unfold updateStatus, setState.
  rewrite !fin_seq, !fin_modify, !fin_emit. eexists. split_and!; cycle -1; [reflexivity|done..].
Qed.

Lemma startWith_active p fresh launch c :
  cs_running c = true -> startWith p fresh launch c = joinNetworkThread c.
Proof. intros Hr. unfold startWith, joinNetworkThread, seqA, readA, modify. cbn. by rewrite Hr. Qed.

Lemma beginAttempt_core out c : core (snd (beginAttempt out c)) = core c.
Proof. done. Qed.

Lemma stop_inactive ran c : cs_running c = false -> stop ran c = joinNetworkThread c.
Proof. intros Hr. unfold stop, readA. by rewrite Hr. Qed.

Lemma io_keeps_idle e c : cs_running c = false -> cs_running (snd (clientIo e c)) = false.
Proof.
  intros Hr. destruct (io_effect e c) as [E|[E|[(now & conn & _ & _ & _ & E)|(now & conn & t & d & env & m & _ & _ & _ & _ & _ & _ & E)]]].
  - apply core_sameRun in E as (_ & _ & E & _). congruence.
  - by destruct E as (_ & _ & ? & _).
  - unfold core in E. congruence.
  - destruct E as (_ & E & _). congruence.
Qed.

Lemma ran_keeps_idle ran c : cs_running c = false -> cs_running (snd (forA ran clientIo c)) = false.
Proof.
  revert c. induction ran as [|e ran IH]; intros c H; cbn [forA]; [done|].
  rewrite fin_seq. by apply IH, io_keeps_idle.
Qed.

Lemma stop_active ran c : cs_running c = true -> isDown (snd (stop ran c)).
Proof.
  intros Hr. unfold stop. rewrite fin_read, Hr. cbn [negb]. rewrite !fin_seq, fin_modify, fin_emit.
  unfold updateStatus, postTask, joinNetworkThread. rewrite !fin_modify.
  set (c0 := setCTasks _ _). pose proof (ran_keeps_idle ran c0 eq_refl) as G. unfold isDown. by cbn.
Qed.

(** The three ways to start, from a session that is not running. *)
Lemma start_launches e c :
  cs_running c = false ->
  match e with
  | CeStart _ | CeRelay _ _ _ _ =>
      core (snd (clientStep e c)) = (Connecting, None, true, false, true)
  | CeAttach _ conn _ =>
      core (snd (clientStep e c)) = (Authenticating, Some conn, true, false, true)
  | _ => True
  end.
Proof.
  intros Hr. destruct e as [p|p host port token|now conn p|ran|type payload|e]; cbn [clientStep]; try done;
    unfold start, startViaRelay, attachConnection, startWith; rewrite fin_seq, fin_read;
    unfold joinNetworkThread; rewrite fin_modify; cbn [cs_running setArmed setConn setRun]; by rewrite Hr.
Qed.

Lemma quiescent_step e c : quiescent c -> quiescent (snd (clientStep e c)).
Proof.
  intros Hq. destruct (cs_running c) eqn:Er.
  - destruct e as [p|p host port token|now conn p|ran|type payload|e]; cbn [clientStep].
    1-3: unfold start, startViaRelay, attachConnection; rewrite (startWith_active _ _ _ _ Er);
      intros H; cbn in H; congruence.
    + by apply quiescent_down, stop_active.
    + unfold sendAppMessage. by destruct (type <? _).
    + destruct (io_effect e c) as [E|[E|[(now & conn & _ & _ & _ & E)|(now & conn & t & d & env & m & _ & _ & _ & _ & _ & _ & E)]]].
      * by eapply quiescent_core.
      * by apply quiescent_down.
      * intros H. unfold core in E. congruence.
      * destruct E as (_ & E & _). intros H. congruence.
  - pose proof (start_launches e c Er) as L.
    destruct e as [p|p host port token|now conn p|ran|type payload|e]; cbn [clientStep] in *.
    1-3: intros H; unfold core in L; congruence.
    + rewrite (stop_inactive _ _ Er). intros _. destruct (Hq Er) as (E1 & E2 & E3). done.
    + unfold sendAppMessage. by destruct (type <? _).
    + destruct (Hq Er) as (_ & El & _). unfold clientIo. rewrite fin_read, El. done.
Qed.

Lemma quiescent_run es c : quiescent c -> quiescent (snd (clientRun es c)).
Proof.
  unfold clientRun. revert c. induction es as [|e es IH]; intros c Hq; cbn [forA]; [done|].
  rewrite fin_seq. by apply IH, quiescent_step.
Qed.

(** C26: in every execution, a session that is not active shows DISCONNECTED,
    holds no connection and runs no network loop: every way a session can end
    (reject, kick, bye, malformed data, lost connection, watchdog, failed
    connect, [stop]) goes through the same clean-up. *)
Theorem inactive_session_is_clean onApp es :
  let c := snd (clientRun es (newClient onApp)) in
  cs_running c = false ->
  st_state (status c) = Disconnected /\ cs_connection c = None /\ cs_looping c = false.
Proof.
  cbv zeta. intros H. destruct (quiescent_run es (newClient onApp)) as (? & ? & ?); [by intros _|done|].
  done.
Qed.

(** ** The client's state graph *)

Inductive clientEdge (e : ClientEvent) (c c' : ClientSession) : ConnectionState -> ConnectionState -> Prop :=
| ed_same s : clientEdge e c c' s s
| ed_down s : clientEdge e c c' s Disconnected
| ed_start s :
    cs_running c = false -> (exists p, e = CeStart p \/ exists h port tok, e = CeRelay p h port tok) ->
    clientEdge e c c' s Connecting
| ed_attach s :
    cs_running c = false -> (exists now conn p, e = CeAttach now conn p) -> clientEdge e c c' s Authenticating
| ed_established s :
    (exists now conn, e = CeIo (CiAttempt now (inr conn))) -> cs_attempts c <> O ->
    clientEdge e c c' s Authenticating
| ed_negotiated s now conn type data env m :
    e = CeIo (CiFrame now conn type data) -> decodeMessage type data = Some env ->
    env_body env = BNegotiationResult m -> nr_accepted m = true -> adopted m c' ->
    clientEdge e c c' s Connected.

(** The client's status moves only along its state graph: CONNECTING by a
    start of an inactive session, AUTHENTICATING when a connection attempt
    succeeds (or a paired connection is attached), CONNECTED exactly on the
    host's accepting NEGOTIATION_RESULT, whose codec, size, frame rate and
    bit rate the status then shows, and DISCONNECTED. *)
Theorem client_state_graph onApp es e :
  let c := snd (clientRun es (newClient onApp)) in
  let c' := snd (clientStep e c) in
  clientEdge e c c' (st_state (status c)) (st_state (status c')).
Proof.
  cbv zeta. set (c := snd (clientRun es (newClient onApp))).
  assert (Hq : quiescent c) by (apply quiescent_run; by intros _).
  clearbody c. unfold status. destruct (cs_running c) eqn:Er.
  - destruct e as [p|p host port token|now conn p|ran|type payload|e]; cbn [clientStep].
    1-3: unfold start, startViaRelay, attachConnection; rewrite (startWith_active _ _ _ _ Er); apply ed_same.
    + destruct (stop_active ran c Er) as (-> & _). apply ed_down.
    + unfold sendAppMessage. destruct (type <? _); apply ed_same.
    + destruct (io_effect e c) as [E|[E|[(now & conn & -> & _ & Ha & E)|(now & conn & t & d & env & m & -> & _ & Hd & Hb & Ha & Had & E)]]].
      * apply core_sameRun in E as (-> & _). apply ed_same.
      * destruct E as (-> & _). apply ed_down.
      * unfold core in E. injection E as -> _ _ _ _. eapply ed_established; eauto.
      * destruct (Had) as (-> & _). by eapply ed_negotiated.
  - pose proof (start_launches e c Er) as L. unfold core in L.
    destruct e as [p|p host port token|now conn p|ran|type payload|e]; cbn [clientStep] in *.
    1-3: injection L as -> _ _ _ _; first [apply ed_start; eauto 10|apply ed_attach; eauto 10].
    + rewrite (stop_inactive _ _ Er). apply ed_same.
    + unfold sendAppMessage. destruct (type <? _); apply ed_same.
    + destruct (Hq Er) as (_ & El & _). unfold clientIo. rewrite fin_read, El. apply ed_same.
Qed.

Definition sampleCParams : ClientSessionParams :=
  mkCParams (str "Ali") (str "ABCD-EFGH") (str "10.0.0.1") 41717 5000 [H264].

Definition kickFrame : bytes := encodeMessage (mkEnvelope IdKick (BKick (mkKick (str "bye")))).

(** Started, connected on connection 3, kicked. *)
Definition kickedRun : list ClientEvent :=
  [CeStart sampleCParams; CeIo (CiAttempt (seconds 100) (inr 3));
   CeIo (CiFrame (seconds 101) 3 (idCode IdKick) kickFrame)].

Lemma inactive_session_is_clean_witness :
  st_state (status (snd (clientRun kickedRun (newClient true)))) = Disconnected.
Proof. refine (proj1 (inactive_session_is_clean true kickedRun _)). vm_compute. reflexivity. Defined.

(** * Where reuse goes wrong *)

(** [start] on an active session is documented as a no-op, but it first
    joins the network thread: the loop is stopped, the connection dropped
    without a BYE and the heartbeat timer destroyed, while the session stays
    active and its status unchanged. No frame, closure or timer is ever handled
    again; only [stop] ends it. *)
Theorem start_while_active_kills p c (Hr : cs_running c = true) :
  let c' := snd (start p c) in
  fst (start p c) = [] /\ cs_running c' = true /\ status c' = status c /\
  cs_connection c' = None /\ cs_looping c' = false /\ (forall e, clientIo e c' = ([], c')).
Proof.
  cbv zeta. unfold start. rewrite (startWith_active _ _ _ _ Hr). split_and!; try done.
Qed.

Lemma start_while_active_kills_witness :
  let c := snd (clientRun [CeStart sampleCParams; CeIo (CiAttempt (seconds 100) (inr 3))] (newClient true)) in
  cs_connection c = Some 3 /\ cs_connection (snd (start sampleCParams c)) = None.
Proof.
  split; [vm_compute; reflexivity|].
  refine (proj1 (proj2 (proj2 (proj2 (start_while_active_kills sampleCParams _ _))))). vm_compute. reflexivity.
Defined.

(** The connect timeout is cut short. [start] does not reset the activity
    clock, so the first heartbeat tick (two seconds in) compares against the
    clock's epoch: on a machine that has been up for more than twelve seconds
    the session gives up with "Connection timed out" while its connection
    attempt (five seconds allowed, fifteen through the relay) is still in
    flight. *)
Theorem first_heartbeat_cuts_connect onApp p now (Hup : kWatchdogTimeout < now) :
  let c := snd (start p (newClient onApp)) in
  let c' := snd (clientIo (CiTimer now) c) in
  cs_attempts c' = 1%nat /\ cs_running c' = false /\ st_state (status c') = Disconnected /\
  st_lastError (status c') = str "Connection timed out (no data from host)".
Proof.
  cbv zeta. set (c := snd (start p (newClient onApp))).
  unfold clientIo. rewrite fin_read. change (cs_looping c) with true. change (cs_armed c) with true. cbn [negb].
  rewrite fin_seq, fin_modify. change (cs_stopping c) with false. cbv iota. unfold startHeartbeat. rewrite fin_read.
  change (cs_stopping (setArmed false c)) with false. cbv iota.
  change (cs_lastActivity (setArmed false c)) with 0. rewrite Z.sub_0_r, (proj2 (Z.ltb_lt _ _) Hup). done.
Qed.

Lemma first_heartbeat_cuts_connect_witness :
  cs_running (snd (clientIo (CiTimer (seconds 3600)) (snd (start sampleCParams (newClient true))))) = false.
Proof.
  refine (proj1 (proj2 (first_heartbeat_cuts_connect true sampleCParams (seconds 3600) _))). reflexivity.
Defined.

(** A session object cannot be reused after the host ended it. [finish]
    posts the connection's close and stops the loop in the same handler, so the
    close stays queued; the next [start] reports CONNECTING, and the first thing
    its loop runs is that stale close, whose callback ends the new session as
    "Connection closed by host". *)
Theorem stale_close_ends_next_session p reason notify c conn
    (Hc : cs_connection c = Some conn) (Ho : conn ∈ cs_open c) (Ht : cs_tasks c = []) :
  let c1 := snd (finish Disconnected reason notify c) in
  let c2 := snd (start p c1) in
  let c3 := snd (clientIo CiTask c2) in
  cs_running c2 = true /\ st_state (status c2) = Connecting /\
  cs_running c3 = false /\ st_state (status c3) = Disconnected /\
  st_lastError (status c3) = str "Connection closed by host".
Proof.
  cbv zeta. set (c2 := snd (start p (snd (finish Disconnected reason notify c)))).
  assert (H2 : core c2 = (Connecting, None, true, false, true) /\ cs_tasks c2 = [CtShutdown conn] /\
               cs_open c2 = cs_open c).
  { destruct c as [p0 oa st cn op at_ ar la ru sp lo ts]. cbn in Hc, Ht. subst. by destruct notify. }
  destruct H2 as (Hcore & Hts & Hop). unfold core in Hcore. injection Hcore as E1 E2 E3 E4 E5.
  split_and!; [done|done|..]; unfold clientIo; rewrite fin_read, E5, Hts; cbn [negb];
    rewrite fin_seq, fin_modify; cbn [runTask]; unfold shutdownConn; rewrite fin_read; cbn [cs_open setCTasks];
    rewrite Hop, bool_decide_true by done; rewrite fin_seq, fin_modify; unfold handleClosed; rewrite fin_read;
    cbn [cs_stopping setConn setCTasks]; rewrite E4.
  - apply finish_down.
  - apply finish_down.
  - by apply finish_lastError.
Qed.

Lemma stale_close_ends_next_session_witness :
  let c := snd (clientRun [CeStart sampleCParams; CeIo (CiAttempt (seconds 100) (inr 3))] (newClient true)) in
  cs_running (snd (clientIo CiTask (snd (start sampleCParams (snd (finish Disconnected (str "Kicked") true c)))))) = false.
Proof.
  refine (proj1 (proj2 (proj2 (stale_close_ends_next_session sampleCParams (str "Kicked") true _ 3 _ _ _)))).
  - reflexivity.
  - apply list_elem_of_here.
  - reflexivity.
Defined.
