(* ===== verification/HostApp.v ===== *)
(** host/HostApp.h and HostApp.cpp: the facade that owns the host's session and
    forwards to it while it exists.

    The name of the user is the environment's and is a parameter, as is what the
    network thread still runs while a session stops. *)

From S2P Require Import Prelude Types Protocol Config OrderedMap HostSession.

Open Scope act_scope.
Open Scope Z_scope.

(** * Data *)

(** The [HWND] of the captured window is a number, 0 for none. *)
Record HostLaunchSettings := mkLaunch {
  ls_hostName : bytes; ls_gameName : bytes; ls_captureMode : CaptureMode; ls_resolution : Resolution; ls_fps : Z;
  ls_bitrateKbps : Z; ls_codec : VideoCodec; ls_listenPort : Z; ls_requireApproval : bool;
  ls_inputDefaults : InputPermissions; ls_maxClients : nat; ls_outputIndex : Z; ls_windowHwnd : Z;
  ls_audioEnabled : bool; ls_audioBitrateKbps : Z }.

Definition kMaxClients : nat := 4.

Definition defaultLaunch : HostLaunchSettings :=
  mkLaunch (str "Host") [] CaptureWindow defaultResolution 60 8000 H264 kDefaultListenPort true
    defaultInputPermissions kMaxClients 0 0 true 128.

(** [ha_onAppMessage]: the events set by [setEvents] carry that callback. *)
Record HostApp := mkApp { ha_onAppMessage : bool; ha_session : option HostSession; ha_current : HostLaunchSettings }.

Definition newHostApp : HostApp := mkApp false None defaultLaunch.

Definition setEvents (onAppMessage : bool) (a : HostApp) : HostApp := mkApp onAppMessage (ha_session a) (ha_current a).

Definition hostDisplayName (userName : bytes) : bytes :=
  if bool_decide (userName = []) then str "Host PC" else userName ++ str "'s PC".

Definition settingsFromConfig (cfg : Config) : HostLaunchSettings :=
  let v := cfg_video cfg in
  let n := cfg_network cfg in
  let i := cfg_input cfg in
  let kbps := u32 (u32 (v_bitrateMbps v) * 1000) in
  let kbps := Z.min kbps (u32 (u32 (n_maxBitrateMbps n) * 1000)) in
  mkLaunch (ls_hostName defaultLaunch) (ls_gameName defaultLaunch) CaptureWindow (v_resolution v) (u32 (v_fps v)) kbps
    (v_codec v) (u16 (n_listenPort n)) (in_requireHostApproval i)
    (mkInputPermissions (in_controller i) (in_keyboard i) (in_mouse i) (in_vibration i)) kMaxClients
    (ls_outputIndex defaultLaunch) (ls_windowHwnd defaultLaunch) (ls_audioEnabled defaultLaunch)
    (ls_audioBitrateKbps defaultLaunch).

Definition sessionParams (userName : bytes) (s : HostLaunchSettings) : HostSessionParams :=
  mkParams (hostDisplayName userName) (ls_gameName s) (ls_captureMode s) (ls_resolution s) (ls_fps s) (ls_bitrateKbps s)
    (ls_codec s) (ls_listenPort s) (negb (ls_requireApproval s)) (ls_inputDefaults s) (ls_maxClients s).

(** A call of the live session; nothing happens without one. *)
Definition onSession (f : HAct) : act HostApp HostOut := fun a =>
  match ha_session a with
  | None => ([], a)
  | Some s => let '(o, s) := f s in (o, mkApp (ha_onAppMessage a) (Some s) (ha_current a))
  end.

(** The session is destroyed after it stopped: its destructor finds it stopped. *)
Definition stop (ran : list IoEvent) : act HostApp HostOut := fun a =>
  match ha_session a with
  | None => ([], a)
  | Some s => let '(o, _) := HostSession.stop ran s in (o, mkApp (ha_onAppMessage a) None (ha_current a))
  end.

(** [start]: what it returns, what the sessions emit, the state. [code] and [bind]
    are those of [HostSession.start]. *)
Definition start (userName : bytes) (settings : HostLaunchSettings) (code : bytes) (bind : Z -> option Z)
    (ran : list IoEvent) (a : HostApp) : bool * (list HostOut * HostApp) :=
  let '(o1, a) := stop ran a in
  let params := sessionParams userName settings in
  let session := newHost (ha_onAppMessage a) in
  let '(o2, s) := HostSession.start params code bind session in
  if start_result params bind session then (true, (o1 ++ o2, mkApp (ha_onAppMessage a) (Some s) settings))
  else (false, (o1 ++ o2, a)).

Definition hosting (a : HostApp) : bool := match ha_session a with Some s => hs_running s | None => false end.
Definition sessionCode (a : HostApp) : bytes := match ha_session a with Some s => hs_sessionCode s | None => [] end.
Definition port (a : HostApp) : Z := match ha_session a with Some s => hs_actualPort s | None => 0 end.
Definition clients (a : HostApp) : list ClientRow :=
  match ha_session a with Some s => HostSession.clients s | None => [] end.

Definition approve (id : Z) (accept : bool) : act HostApp HostOut := onSession (approveClient id accept).
Definition kick (id : Z) : act HostApp HostOut := onSession (kickClient id (str "Kicked by host")).
Definition sendAppMessage (id type : Z) (payload : bytes) : act HostApp HostOut :=
  onSession (HostSession.sendAppMessage id type payload).
Definition connectRelayClient (serverHost : bytes) (relayTcpPort : Z) (token : bytes) : act HostApp HostOut :=
  onSession (HostSession.connectRelayClient serverHost relayTcpPort token).
Definition setClientInputEnabled (id : Z) (enabled : bool) : act HostApp HostOut := onSession (setClientInput id enabled).

(** * Properties *)

(** Every configuration within the documented ranges gives launch settings
    whose bit rate is the smaller of the two configured ones, between 2 and 50
    Mbit/s, and whose rate, size and port survive the narrowing of the messages
    that carry them: nothing the host announces differs from what is configured. *)
Theorem launch_settings_faithful (cfg : Config) (H : config_ok cfg) (userName : bytes) :
  let s := settingsFromConfig cfg in
  let caps := hostCapabilities (sessionParams userName s) in
  ls_bitrateKbps s = 1000 * Z.min (v_bitrateMbps (cfg_video cfg)) (n_maxBitrateMbps (cfg_network cfg)) /\
  2000 <= hc_bitrateKbps caps <= 50000 /\ hc_bitrateKbps caps = ls_bitrateKbps s /\
  hc_fps caps = v_fps (cfg_video cfg) /\ ls_fps s = v_fps (cfg_video cfg) /\
  hc_width caps = res_width (v_resolution (cfg_video cfg)) /\ hc_height caps = res_height (v_resolution (cfg_video cfg)) /\
  ls_listenPort s = n_listenPort (cfg_network cfg).
Proof.
  destruct H as (Hf & Hb & (Hw & Hh) & _ & Hm & _ & Hp). cbv zeta.
  unfold settingsFromConfig, hostCapabilities, sessionParams. cbv zeta.
  cbn [ls_bitrateKbps ls_fps ls_listenPort ls_resolution hp_bitrateKbps hp_fps hp_resolution hc_bitrateKbps hc_fps hc_width
    hc_height].
  assert (E1 : u32 (u32 (v_bitrateMbps (cfg_video cfg)) * 1000) = v_bitrateMbps (cfg_video cfg) * 1000)
    by (rewrite (u32_id (v_bitrateMbps _)), u32_id by (widths; lia); lia).
  assert (E2 : u32 (u32 (n_maxBitrateMbps (cfg_network cfg)) * 1000) = n_maxBitrateMbps (cfg_network cfg) * 1000)
    by (rewrite (u32_id (n_maxBitrateMbps _)), u32_id by (widths; lia); lia).
  assert (E3 : v_fps (cfg_video cfg) = 30 \/ v_fps (cfg_video cfg) = 60 \/ v_fps (cfg_video cfg) = 120).
  { unfold fpsPresets in Hf. set_solver. }
  rewrite E1, E2, (u32_id (v_fps _)), (Z.min_l (v_fps _) 255), u8_id, !u16_id by (widths; lia). split_and!; lia.
Qed.

Lemma launch_settings_faithful_witness :
  ls_bitrateKbps (settingsFromConfig defaultConfig) = 8000.
Proof. apply (proj1 (launch_settings_faithful defaultConfig default_ok [])). Defined.

(** The live session of a started facade is the one [HostSession.start] makes,
    whatever the facade held before; stopping gives it up. *)
Lemma host_start_session userName settings code bind ran a port :
  match bind (ls_listenPort settings) with Some p => Some p | None => bind 0 end = Some port ->
  exists o s, start userName settings code bind ran a = (true, (o, mkApp (ha_onAppMessage a) (Some s) settings)) /\
    hs_running s = true /\ hs_sessionCode s = code /\ hs_actualPort s = port /\ HostSession.clients s = [] /\
    hs_params s = sessionParams userName settings.
Proof.
  intros Hb. unfold start.
  assert (Hst : exists o1 cur, stop ran a = (o1, mkApp (ha_onAppMessage a) None cur)).
  { unfold stop. destruct (ha_session a) as [s|] eqn:E.
    - destruct (HostSession.stop ran s) as [o1 s']. by eexists _, _.
    - exists [], (ha_current a). by rewrite <- E; destruct a. }
  destruct Hst as (o1 & cur & ->). cbn [ha_onAppMessage].
  set (p := sessionParams userName settings).
  assert (Hr : start_result p bind (newHost (ha_onAppMessage a)) = true).
  { unfold start_result. cbn [hs_running newHost orb]. change (hp_listenPort p) with (ls_listenPort settings).
    destruct (bind (ls_listenPort settings)) as [q|]; [by rewrite bool_decide_true|]. rewrite Hb.
    by rewrite (bool_decide_true (is_Some (Some port))), orb_true_r. }
  destruct (HostSession.start p code bind (newHost (ha_onAppMessage a))) as [o2 s] eqn:E. rewrite Hr.
  exists (o1 ++ o2), s. split; [done|]. revert E. unfold HostSession.start, readA. cbn [hs_running newHost].
  change (hp_listenPort p) with (ls_listenPort settings). rewrite Hb. unfold seqA, modify, emit. intros E.
  apply pair_equal_spec in E as [_ <-]. by split_and!.
Qed.

(** A host application that starts is hosting under the generated code, on the
    port that could be bound, with nobody connected, and nothing of a session it
    hosted before is left; once stopped it hosts nothing and every request to it
    is ignored. *)
Theorem host_app_lifecycle userName settings code bind ran a bound
  (Hb : match bind (ls_listenPort settings) with Some p => Some p | None => bind 0 end = Some bound) :
  let '(ok, (_, a1)) := start userName settings code bind ran a in
  ok = true /\ hosting a1 = true /\ sessionCode a1 = code /\ port a1 = bound /\ clients a1 = [] /\
  forall ran', let a2 := snd (stop ran' a1) in
    hosting a2 = false /\ clients a2 = [] /\
    forall f, onSession f a2 = ([], a2).
Proof.
  destruct (host_start_session userName settings code bind ran a bound Hb) as (o & s & -> & Hr & Hc & Hp & Hcl & _).
  unfold hosting, sessionCode, port, clients. cbn [ha_session]. split_and!; try done.
  intros ran'. unfold stop. cbn [ha_session]. destruct (HostSession.stop ran' s). by split_and!.
Qed.

Lemma host_app_lifecycle_witness :
  let '(ok, (_, a1)) := start (str "ana") defaultLaunch (str "ABCD-2345") (fun p => if p =? 0 then Some 50000 else None) [] newHostApp in
  ok = true /\ port a1 = 50000.
Proof.
  pose proof (host_app_lifecycle (str "ana") defaultLaunch (str "ABCD-2345") (fun p => if p =? 0 then Some 50000 else None) []
                newHostApp 50000 eq_refl) as H.
  destruct (start _ _ _ _ _ _) as [ok [o a1]]. destruct H as (H1 & _ & _ & H2 & _). by split.
Defined.

(** The settings name the host; the session is given the name of the user. *)
Theorem host_name_is_ignored (userName name : bytes) (s : HostLaunchSettings) :
  let named := mkLaunch name (ls_gameName s) (ls_captureMode s) (ls_resolution s) (ls_fps s) (ls_bitrateKbps s) (ls_codec s)
    (ls_listenPort s) (ls_requireApproval s) (ls_inputDefaults s) (ls_maxClients s) (ls_outputIndex s) (ls_windowHwnd s)
    (ls_audioEnabled s) (ls_audioBitrateKbps s) in
  hp_hostName (sessionParams userName named) = hostDisplayName userName.
Proof. done. Qed.
