(* ===== verification/ClientApp.v ===== *)
(** client/ClientApp.h and ClientApp.cpp: the facade that owns the client's session
    and forwards to it while it exists. *)

From S2P Require Import Prelude Types OrderedMap HostSession ClientSession.

Open Scope act_scope.
Open Scope Z_scope.

(** * Data *)

Record JoinSettings := mkJoin {
  js_displayName : bytes; js_sessionCode : bytes; js_hostAddress : bytes; js_hostPort : Z; js_connectTimeoutMs : Z }.

Record ClientApp := mkCApp { ca_onAppMessage : bool; ca_session : option ClientSession }.

Definition newClientApp : ClientApp := mkCApp false None.

Definition setEvents (onAppMessage : bool) (a : ClientApp) : ClientApp := mkCApp onAppMessage (ca_session a).

Definition disconnect (ran : list ClientIo) : act ClientApp ClientOut := fun a =>
  match ca_session a with
  | None => ([], a)
  | Some s => let '(o, _) := ClientSession.stop ran s in (o, mkCApp (ca_onAppMessage a) None)
  end.

Definition sessionParams (s : JoinSettings) : ClientSessionParams :=
  mkCParams (if bool_decide (js_displayName s = []) then str "Player" else js_displayName s) (js_sessionCode s)
    (js_hostAddress s) (js_hostPort s) (js_connectTimeoutMs s) [H264].

Definition connect (settings : JoinSettings) (ran : list ClientIo) : act ClientApp ClientOut :=
  disconnect ran ;+
  fun a => let '(o, s) := ClientSession.start (sessionParams settings) (newClient (ca_onAppMessage a)) in
           (o, mkCApp (ca_onAppMessage a) (Some s)).

Definition onSession (f : CAct) : act ClientApp ClientOut := fun a =>
  match ca_session a with
  | None => ([], a)
  | Some s => let '(o, s) := f s in (o, mkCApp (ca_onAppMessage a) (Some s))
  end.

Definition sendAppMessage (type : Z) (payload : bytes) : act ClientApp ClientOut :=
  onSession (ClientSession.sendAppMessage type payload).
Definition startViaRelay (p : ClientSessionParams) (serverHost : bytes) (relayTcpPort : Z) (token : bytes) :
    act ClientApp ClientOut :=
  onSession (ClientSession.startViaRelay p serverHost relayTcpPort token).

(** [ClientSession::active]. *)
Definition connected (a : ClientApp) : bool := match ca_session a with Some s => cs_running s | None => false end.
Definition status (a : ClientApp) : ClientStatus :=
  match ca_session a with Some s => ClientSession.status s | None => defaultStatus end.

(** * Properties *)

(** A relay session needs a session that only a direct connection makes. *)
Theorem relay_start_does_nothing (p : ClientSessionParams) (serverHost token : bytes) (port : Z) :
  startViaRelay p serverHost port token newClientApp = ([], newClientApp) /\
  connected (snd (startViaRelay p serverHost port token newClientApp)) = false.
Proof. done. Qed.
