(* ===== verification/Calls.v ===== *)
(** Actions that may end the program, for the coordinators: a state, outputs in
    order, and the ways a step can go wrong in C++. The rules below reason about
    the runs that end well ([wlp]) and about steps that always do ([wp]). *)

From S2P Require Import Prelude OrderedMap.

(** A member function called through a null pointer, an exception that leaves a
    thread, and a computation without a defined value. *)
Inductive Outcome (A : Type) :=
  | Done (a : A)
  | NullDeref
  | Terminate
  | Undefined.
Arguments Done {A} a.
Arguments NullDeref {A}.
Arguments Terminate {A}.
Arguments Undefined {A}.

Definition fact (St Out : Type) : Type := St -> Outcome (list Out * St).

Declare Scope fact_scope.
Delimit Scope fact_scope with fact.

Section Fact.
Context {St Out : Type}.

Definition okF (a : act St Out) : fact St Out := fun s => Done (a s).
Definition doneF : fact St Out := okF skip.
Definition emitF (os : list Out) : fact St Out := okF (emit os).
Definition modifyF (f : St -> St) : fact St Out := okF (modify f).
Definition nullF : fact St Out := fun _ => NullDeref.
Definition terminateF : fact St Out := fun _ => Terminate.
Definition undefinedF : fact St Out := fun _ => Undefined.
Definition readF (k : St -> fact St Out) : fact St Out := fun s => k s s.

Definition seqF (a b : fact St Out) : fact St Out := fun s =>
  match a s with
  | Done (o1, s1) =>
      match b s1 with
      | Done (o2, s2) => Done (o1 ++ o2, s2)
      | NullDeref => NullDeref | Terminate => Terminate | Undefined => Undefined
      end
  | NullDeref => NullDeref | Terminate => Terminate | Undefined => Undefined
  end.

Fixpoint forF {A} (xs : list A) (body : A -> fact St Out) : fact St Out :=
  match xs with
  | [] => doneF
  | x :: xs => seqF (body x) (forF xs body)
  end.

(** * Rules *)

(** What holds of the outputs and the state if the step ends well. *)
Definition wlp (a : fact St Out) (Q : list Out -> St -> Prop) (s : St) : Prop :=
  match a s with Done (o, s') => Q o s' | _ => True end.

(** The step ends well, and then this holds. *)
Definition wp (a : fact St Out) (Q : list Out -> St -> Prop) (s : St) : Prop :=
  match a s with Done (o, s') => Q o s' | _ => False end.

Lemma wlp_seq a b Q s : wlp a (fun o s' => wlp b (fun o' => Q (o ++ o')) s') s -> wlp (seqF a b) Q s.
Proof.
  unfold wlp, seqF. destruct (a s) as [[o1 s1]| | |]; try done. by destruct (b s1) as [[o2 s2]| | |].
Qed.

Lemma wp_seq a b Q s : wp a (fun o s' => wp b (fun o' => Q (o ++ o')) s') s -> wp (seqF a b) Q s.
Proof.
  unfold wp, seqF. destruct (a s) as [[o1 s1]| | |]; try done. by destruct (b s1) as [[o2 s2]| | |].
Qed.

Lemma wlp_modify f (Q : list Out -> St -> Prop) s : Q [] (f s) -> wlp (modifyF f) Q s.
Proof. done. Qed.
Lemma wlp_emit os (Q : list Out -> St -> Prop) s : Q os s -> wlp (emitF os) Q s.
Proof. done. Qed.
Lemma wlp_done (Q : list Out -> St -> Prop) s : Q [] s -> wlp doneF Q s.
Proof. done. Qed.
Lemma wp_modify f (Q : list Out -> St -> Prop) s : Q [] (f s) -> wp (modifyF f) Q s.
Proof. done. Qed.
Lemma wp_emit os (Q : list Out -> St -> Prop) s : Q os s -> wp (emitF os) Q s.
Proof. done. Qed.
Lemma wp_doneF (Q : list Out -> St -> Prop) s : Q [] s -> wp doneF Q s.
Proof. done. Qed.

Lemma wp_read (k : St -> fact St Out) (Q : list Out -> St -> Prop) s : wp (k s) Q s -> wp (readF k) Q s.
Proof. done. Qed.

Lemma wlp_mono a (Q Q' : list Out -> St -> Prop) s : (forall o s', Q o s' -> Q' o s') -> wlp a Q s -> wlp a Q' s.
Proof. unfold wlp. destruct (a s) as [[o s']| | |]; auto. Qed.

Lemma wp_mono a (Q Q' : list Out -> St -> Prop) s : (forall o s', Q o s' -> Q' o s') -> wp a Q s -> wp a Q' s.
Proof. unfold wp. destruct (a s) as [[o s']| | |]; auto. Qed.

Lemma wp_wlp a Q s : wp a Q s -> wlp a Q s.
Proof. unfold wp, wlp. by destruct (a s) as [[o s']| | |]. Qed.

Lemma wp_done a Q s : wp a Q s -> exists o s', a s = Done (o, s') /\ Q o s'.
Proof. unfold wp. destruct (a s) as [[o s']| | |]; try done. intros H. by exists o, s'. Qed.

(** The step ends well, and then this holds, or it ends the program, which only
    happens if [T]. *)
Definition wpx (T : Prop) (a : fact St Out) (Q : list Out -> St -> Prop) (s : St) : Prop :=
  match a s with Done (o, s') => Q o s' | Terminate => T | _ => False end.

Lemma wp_wpx T a Q s : wp a Q s -> wpx T a Q s.
Proof. unfold wp, wpx. by destruct (a s) as [[o s']| | |]. Qed.

Lemma wpx_wp T a Q s : ~ T -> wpx T a Q s -> wp a Q s.
Proof. unfold wp, wpx. by destruct (a s) as [[o s']| | |]. Qed.

Lemma wpx_seq T a b Q s : wpx T a (fun o s' => wpx T b (fun o' => Q (o ++ o')) s') s -> wpx T (seqF a b) Q s.
Proof.
  unfold wpx, seqF. destruct (a s) as [[o1 s1]| | |]; try done. by destruct (b s1) as [[o2 s2]| | |].
Qed.

Lemma wpx_then T a b Q s : wp a (fun o s' => wpx T b (fun o' => Q (o ++ o')) s') s -> wpx T (seqF a b) Q s.
Proof. intros H. by apply wpx_seq, wp_wpx. Qed.

Lemma wpx_read T (k : St -> fact St Out) (Q : list Out -> St -> Prop) s : wpx T (k s) Q s -> wpx T (readF k) Q s.
Proof. done. Qed.

Lemma wpx_mono (T T' : Prop) a (Q Q' : list Out -> St -> Prop) s :
  (T -> T') -> (forall o s', Q o s' -> Q' o s') -> wpx T a Q s -> wpx T' a Q' s.
Proof. unfold wpx. destruct (a s) as [[o s']| | |]; auto. Qed.

(** A step that cannot end well ends the program. *)
Lemma wpx_terminates a s : wpx True a (fun _ _ => False) s -> a s = Terminate.
Proof. unfold wpx. by destruct (a s) as [[o s']| | |]. Qed.

(** [P] of the state is kept, and every output satisfies [R]. *)
Definition preserves (P : St -> Prop) (R : Out -> Prop) (a : fact St Out) : Prop :=
  forall s, P s -> wlp a (fun o s' => P s' /\ Forall R o) s.

Lemma pres_done P R : preserves P R doneF.
Proof. intros s H. by split. Qed.
Lemma pres_emit P R os : Forall R os -> preserves P R (emitF os).
Proof. intros HR s H. by split. Qed.
Lemma pres_modify P R f : (forall s, P s -> P (f s)) -> preserves P R (modifyF f).
Proof. intros Hf s H. split; [by apply Hf|done]. Qed.
Lemma pres_null P R : preserves P R nullF.
Proof. done. Qed.
Lemma pres_terminate P R : preserves P R terminateF.
Proof. done. Qed.
Lemma pres_undefined P R : preserves P R undefinedF.
Proof. done. Qed.
Lemma pres_seq P R a b : preserves P R a -> preserves P R b -> preserves P R (seqF a b).
Proof.
  intros Ha Hb s H. apply wlp_seq. eapply wlp_mono; [|by apply Ha]. cbn. intros o s' [Hs Ho].
  eapply wlp_mono; [|by apply Hb]. cbn. intros o' s'' [Hs' Ho']. split; [done|]. by apply Forall_app.
Qed.
Lemma pres_read P R k : (forall s, P s -> wlp (k s) (fun o s' => P s' /\ Forall R o) s) -> preserves P R (readF k).
Proof. intros Hk s H. by apply (Hk s). Qed.
Lemma pres_read_all P R k : (forall s, P s -> preserves P R (k s)) -> preserves P R (readF k).
Proof. intros Hk. apply pres_read. intros s H. by apply Hk. Qed.
(** [a] keeps [P], and [b] leads from [P] to [P']. *)
Lemma pres_then (P P' : St -> Prop) R a b s :
  preserves P R a -> P s -> (forall s', P s' -> wlp b (fun o s'' => P' s'' /\ Forall R o) s') ->
  wlp (seqF a b) (fun o s'' => P' s'' /\ Forall R o) s.
Proof.
  intros Ha H Hb. apply wlp_seq. eapply wlp_mono; [|by apply Ha]. cbn. intros o s' [Hs Ho].
  eapply wlp_mono; [|by apply Hb]. cbn. intros o' s'' [Hs' Ho']. split; [done|]. by apply Forall_app.
Qed.
Lemma pres_for {A} P R (xs : list A) body : (forall x, preserves P R (body x)) -> preserves P R (forF xs body).
Proof. intros H. induction xs; [apply pres_done|by apply pres_seq]. Qed.

(** A step that goes wrong in none of these ways. *)
Definition total (P : St -> Prop) (a : fact St Out) : Prop := forall s, P s -> wp a (fun _ => P) s.

Lemma total_done P : total P doneF.
Proof. by intros s. Qed.
Lemma total_emit P os : total P (emitF os).
Proof. by intros s. Qed.
Lemma total_modify P f : (forall s, P s -> P (f s)) -> total P (modifyF f).
Proof. intros Hf s H. by apply Hf. Qed.
Lemma total_seq P a b : total P a -> total P b -> total P (seqF a b).
Proof. intros Ha Hb s H. apply wp_seq. eapply wp_mono; [|by apply Ha]. cbn. intros o s' Hs. by apply Hb. Qed.
Lemma total_read P k : (forall s, P s -> wp (k s) (fun _ => P) s) -> total P (readF k).
Proof. intros Hk s H. by apply (Hk s). Qed.
Lemma total_for {A} P (xs : list A) body : (forall x, total P (body x)) -> total P (forF xs body).
Proof. intros H. induction xs; [apply total_done|by apply total_seq]. Qed.

(** Both at once: the step ends well, keeps [P], and every output satisfies [R]. *)
Definition safely (P : St -> Prop) (R : Out -> Prop) (a : fact St Out) : Prop :=
  forall s, P s -> wp a (fun o s' => P s' /\ Forall R o) s.

Lemma safe_done P R : safely P R doneF.
Proof. intros s H. by split. Qed.
Lemma safe_emit P R os : Forall R os -> safely P R (emitF os).
Proof. intros HR s H. by split. Qed.
Lemma safe_modify P R f : (forall s, P s -> P (f s)) -> safely P R (modifyF f).
Proof. intros Hf s H. split; [by apply Hf|done]. Qed.
(** [a] keeps [P], and [b] leads from [P] to [P']. *)
Lemma safe_then (P P' : St -> Prop) R a b s :
  safely P R a -> P s -> (forall s', P s' -> wp b (fun o s'' => P' s'' /\ Forall R o) s') ->
  wp (seqF a b) (fun o s'' => P' s'' /\ Forall R o) s.
Proof.
  intros Ha H Hb. apply wp_seq. eapply wp_mono; [|by apply Ha]. cbn. intros o s' [Hs Ho].
  eapply wp_mono; [|by apply Hb]. cbn. intros o' s'' [Hs' Ho']. split; [done|]. by apply Forall_app.
Qed.
Lemma safe_seq P R a b : safely P R a -> safely P R b -> safely P R (seqF a b).
Proof. intros Ha Hb s H. by eapply safe_then. Qed.
Lemma safe_read P R k : (forall s, P s -> safely P R (k s)) -> safely P R (readF k).
Proof. intros Hk s H. by apply (Hk s H). Qed.
Lemma safe_at P R k : (forall s, P s -> wp (k s) (fun o s' => P s' /\ Forall R o) s) -> safely P R (readF k).
Proof. intros Hk s H. by apply (Hk s). Qed.
Lemma safe_for {A} P R (xs : list A) body : Forall (fun x => safely P R (body x)) xs -> safely P R (forF xs body).
Proof. induction 1; [apply safe_done|by apply safe_seq]. Qed.

End Fact.

Notation "a ;! b" := (seqF a b) (at level 62, right associativity) : fact_scope.

#[export] Hint Resolve pres_done pres_null pres_terminate pres_undefined pres_seq pres_for : act.
#[export] Hint Resolve total_done total_emit total_seq total_for : act.
#[export] Hint Resolve safe_done safe_seq : act.
