(* ===== verification/HostCoordinator.v ===== *)
(** app/HostCoordinator.h and HostCoordinator.cpp: the host application. It owns
    the facade, the channels and streamers of its clients, the injector and the
    bitrate controller, and keeps them in step.

    One object lives on several threads. Everything it decides runs on the Qt
    thread, from a queue of posted calls: [hc_queue] is that queue and [HcDispatch]
    runs its head, so that the calls of the user can come between a callback and its
    handling. The session's network thread ([HcNetwork]), the workers that start
    streamers ([HcWorker]), the signaling reader and the datagram threads are the
    other steps. A [shared_ptr] is a number: channels live in [hc_channels],
    streamers are known by the calls made on them, whose results are inputs of the
    steps; [HcSignalingClosed] is the server's end of the signaling connection, after
    which the client object cannot be destroyed. The log lines and the text of the
    pad status are not modelled. *)

From S2P Require Import Prelude Types Double Protocol OrderedMap Calls Json Config HostSession SessionCodes Crypto SecureChannel AdaptiveBitrate InputProtocol VirtualGamepad InputInjector UdpTransport HostStreamer SignalingClient HostApp.

Open Scope fact_scope.
Open Scope Z_scope.

(** * Identifiers *)

(** FNV-1a over the code and the client, never 0. *)
Definition makeUdpSessionId (code : bytes) (clientId : Z) : Z :=
  let h := foldl (fun h c => u32 (Z.lxor h (u8 c) * 16777619)) 2166136261 code in
  let h := u32 (Z.lxor h (u32 clientId) * 16777619) in
  Z.lor h 1.

Definition toProto (p : InputPermissions) : InputPermission :=
  mkInputPermission (perm_controller p) (perm_keyboard p) (perm_mouse p) (perm_vibration p).

(** * Data *)

(** [cst_channel] and [cst_streamer] are the shared pointers. *)
Record ClientStream := mkCst {
  cst_clientId : Z; cst_playerIndex : Z; cst_keysReady : bool; cst_ecdh : option EcdhKeyPair; cst_ourSalt : bytes;
  cst_channel : option nat; cst_streamer : option nat }.

Definition cstChannel (ch : nat) (s : ClientStream) : ClientStream :=
  mkCst (cst_clientId s) (cst_playerIndex s) (cst_keysReady s) (cst_ecdh s) (cst_ourSalt s) (Some ch) (cst_streamer s).
Definition cstReady (s : ClientStream) : ClientStream :=
  mkCst (cst_clientId s) (cst_playerIndex s) true (cst_ecdh s) (cst_ourSalt s) (cst_channel s) (cst_streamer s).
Definition cstStreamer (st : nat) (s : ClientStream) : ClientStream :=
  mkCst (cst_clientId s) (cst_playerIndex s) (cst_keysReady s) (cst_ecdh s) (cst_ourSalt s) (cst_channel s) (Some st).

(** What a stream-start worker captured. *)
Record InitJob := mkJob {
  jb_streamer : nat; jb_clientId : Z; jb_player : Z; jb_config : StreamConfig; jb_sessionId : Z; jb_channel : option nat;
  jb_internet : bool; jb_serverHost : bytes; jb_relayUdp : Z; jb_token : bytes }.

(** The internet mode: the server, its relay and the token it gave. *)
Record Relay := mkRelay {
  rl_internet : bool; rl_serverHost : bytes; rl_serverPort : Z; rl_tcpPort : Z; rl_udpPort : Z; rl_hostToken : bytes }.

Record HostUiState := mkHui {
  ui_sessionCode : bytes; ui_encoderName : bytes; ui_tcpPort : Z; ui_internetMode : bool; ui_serverAddress : bytes;
  ui_fps : double; ui_captureMs : double; ui_encodeMs : double; ui_bitrateKbps : double;
  ui_rttMs : double; ui_lossPercent : double; ui_jitterMs : double; ui_bitrateTarget : Z; ui_abrActive : bool }.

Definition defaultUi : HostUiState :=
  mkHui [] [] 0 false [] dzero dzero dzero dzero dzero dzero dzero 0 true.

(** Calls posted to the Qt thread. *)
Inductive QtCall :=
  | QApprovalRequest (clientId : Z) (name : bytes)
  | QClientUpdated (row : ClientRow)
  | QInputPermissions (clientId : Z) (perms : InputPermissions)
  | QAppMessage (clientId type : Z) (payload : bytes)
  | QClientJoined (token : bytes)
  | QClientLeft
  | QStreamerError (clientId : Z) (message : bytes)
  | QStateChanged
  | QStreamDone (ok : bool) (err : bytes) (clientId player : Z).

(** Calls on a streamer. *)
Inductive StreamerCall :=
  | ScStart (cfg : StreamConfig) (sessionId player : Z) (channel : option nat)
  | ScStop (reason : bytes)
  | ScClientEndpoint (host : bytes) (port : Z)
  | ScRelayFallback (host : bytes) (port : Z)
  | ScRelayBind (token : bytes)
  | ScSetErrorCallback (clientId : Z)
  | ScSetInputHandler (player : Z)
  | ScRumble (player lm rm : Z)
  | ScSetBitrate (kbps : Z)
  | ScRequestKeyframe
  | ScEncoderRestart
  | ScSoftwareEncoder.

Inductive UiSignal :=
  | StateChanged
  | ClientTableChanged
  | ApprovalRequest (clientId : Z) (name : bytes)
  | ErrorOccurred (message : bytes)
  | EncoderTrouble (message : bytes).

Inductive SignalingCall :=
  | SgConnect (host : bytes) (port timeoutMs : Z)
  | SgHostRegister (hostName : bytes)
  | SgSetHandlers
  | SgDisconnect.

(** [OutNet]: what the session does to its connections; the callbacks of the
    session become posted calls. *)
Inductive HcOut :=
  | OutNet (o : HostOut)
  | OutStreamer (st : nat) (c : StreamerCall)
  | OutInput (e : InjEvent)
  | OutUi (u : UiSignal)
  | OutSignaling (c : SignalingCall).

Record HostCoordinator := mkHc {
  hc_host : option HostApp; hc_settings : option HostLaunchSettings; hc_signaling : option SignalingClient; hc_relay : Relay;
  hc_code : bytes; hc_injector : InputInjector; hc_rumble : option Z; hc_streams : list (Z * ClientStream);
  hc_jobs : list InitJob; hc_channels : list SecureChannel; hc_streamers : nat; hc_abr : AdaptiveBitrate;
  hc_abrEnabled : bool; hc_expectedFps : double; hc_timer : bool; hc_ui : HostUiState; hc_queue : list QtCall }.

Definition setHost (x : option HostApp) (c : HostCoordinator) : HostCoordinator :=
  mkHc x (hc_settings c) (hc_signaling c) (hc_relay c) (hc_code c) (hc_injector c) (hc_rumble c) (hc_streams c)
    (hc_jobs c) (hc_channels c) (hc_streamers c) (hc_abr c) (hc_abrEnabled c) (hc_expectedFps c) (hc_timer c)
    (hc_ui c) (hc_queue c).
Definition setSettings (x : option HostLaunchSettings) (c : HostCoordinator) : HostCoordinator :=
  mkHc (hc_host c) x (hc_signaling c) (hc_relay c) (hc_code c) (hc_injector c) (hc_rumble c) (hc_streams c)
    (hc_jobs c) (hc_channels c) (hc_streamers c) (hc_abr c) (hc_abrEnabled c) (hc_expectedFps c) (hc_timer c)
    (hc_ui c) (hc_queue c).
Definition setSignaling (x : option SignalingClient) (c : HostCoordinator) : HostCoordinator :=
  mkHc (hc_host c) (hc_settings c) x (hc_relay c) (hc_code c) (hc_injector c) (hc_rumble c) (hc_streams c)
    (hc_jobs c) (hc_channels c) (hc_streamers c) (hc_abr c) (hc_abrEnabled c) (hc_expectedFps c) (hc_timer c)
    (hc_ui c) (hc_queue c).
Definition setRelay (x : Relay) (c : HostCoordinator) : HostCoordinator :=
  mkHc (hc_host c) (hc_settings c) (hc_signaling c) x (hc_code c) (hc_injector c) (hc_rumble c) (hc_streams c)
    (hc_jobs c) (hc_channels c) (hc_streamers c) (hc_abr c) (hc_abrEnabled c) (hc_expectedFps c) (hc_timer c)
    (hc_ui c) (hc_queue c).
Definition setCode (x : bytes) (c : HostCoordinator) : HostCoordinator :=
  mkHc (hc_host c) (hc_settings c) (hc_signaling c) (hc_relay c) x (hc_injector c) (hc_rumble c) (hc_streams c)
    (hc_jobs c) (hc_channels c) (hc_streamers c) (hc_abr c) (hc_abrEnabled c) (hc_expectedFps c) (hc_timer c)
    (hc_ui c) (hc_queue c).
Definition setInjector (x : InputInjector) (c : HostCoordinator) : HostCoordinator :=
  mkHc (hc_host c) (hc_settings c) (hc_signaling c) (hc_relay c) (hc_code c) x (hc_rumble c) (hc_streams c)
    (hc_jobs c) (hc_channels c) (hc_streamers c) (hc_abr c) (hc_abrEnabled c) (hc_expectedFps c) (hc_timer c)
    (hc_ui c) (hc_queue c).
Definition setRumble (x : option Z) (c : HostCoordinator) : HostCoordinator :=
  mkHc (hc_host c) (hc_settings c) (hc_signaling c) (hc_relay c) (hc_code c) (hc_injector c) x (hc_streams c)
    (hc_jobs c) (hc_channels c) (hc_streamers c) (hc_abr c) (hc_abrEnabled c) (hc_expectedFps c) (hc_timer c)
    (hc_ui c) (hc_queue c).
Definition setStreams (x : list (Z * ClientStream)) (c : HostCoordinator) : HostCoordinator :=
  mkHc (hc_host c) (hc_settings c) (hc_signaling c) (hc_relay c) (hc_code c) (hc_injector c) (hc_rumble c) x
    (hc_jobs c) (hc_channels c) (hc_streamers c) (hc_abr c) (hc_abrEnabled c) (hc_expectedFps c) (hc_timer c)
    (hc_ui c) (hc_queue c).
Definition setJobs (x : list InitJob) (c : HostCoordinator) : HostCoordinator :=
  mkHc (hc_host c) (hc_settings c) (hc_signaling c) (hc_relay c) (hc_code c) (hc_injector c) (hc_rumble c)
    (hc_streams c) x (hc_channels c) (hc_streamers c) (hc_abr c) (hc_abrEnabled c) (hc_expectedFps c) (hc_timer
    c) (hc_ui c) (hc_queue c).
Definition setChannels (x : list SecureChannel) (c : HostCoordinator) : HostCoordinator :=
  mkHc (hc_host c) (hc_settings c) (hc_signaling c) (hc_relay c) (hc_code c) (hc_injector c) (hc_rumble c)
    (hc_streams c) (hc_jobs c) x (hc_streamers c) (hc_abr c) (hc_abrEnabled c) (hc_expectedFps c) (hc_timer c)
    (hc_ui c) (hc_queue c).
Definition setStreamers (x : nat) (c : HostCoordinator) : HostCoordinator :=
  mkHc (hc_host c) (hc_settings c) (hc_signaling c) (hc_relay c) (hc_code c) (hc_injector c) (hc_rumble c)
    (hc_streams c) (hc_jobs c) (hc_channels c) x (hc_abr c) (hc_abrEnabled c) (hc_expectedFps c) (hc_timer c)
    (hc_ui c) (hc_queue c).
Definition setAbr (x : AdaptiveBitrate) (c : HostCoordinator) : HostCoordinator :=
  mkHc (hc_host c) (hc_settings c) (hc_signaling c) (hc_relay c) (hc_code c) (hc_injector c) (hc_rumble c)
    (hc_streams c) (hc_jobs c) (hc_channels c) (hc_streamers c) x (hc_abrEnabled c) (hc_expectedFps c) (hc_timer
    c) (hc_ui c) (hc_queue c).
Definition setAbrEnabled (x : bool) (c : HostCoordinator) : HostCoordinator :=
  mkHc (hc_host c) (hc_settings c) (hc_signaling c) (hc_relay c) (hc_code c) (hc_injector c) (hc_rumble c)
    (hc_streams c) (hc_jobs c) (hc_channels c) (hc_streamers c) (hc_abr c) x (hc_expectedFps c) (hc_timer c)
    (hc_ui c) (hc_queue c).
Definition setExpectedFps (x : double) (c : HostCoordinator) : HostCoordinator :=
  mkHc (hc_host c) (hc_settings c) (hc_signaling c) (hc_relay c) (hc_code c) (hc_injector c) (hc_rumble c)
    (hc_streams c) (hc_jobs c) (hc_channels c) (hc_streamers c) (hc_abr c) (hc_abrEnabled c) x (hc_timer c)
    (hc_ui c) (hc_queue c).
Definition setTimer (x : bool) (c : HostCoordinator) : HostCoordinator :=
  mkHc (hc_host c) (hc_settings c) (hc_signaling c) (hc_relay c) (hc_code c) (hc_injector c) (hc_rumble c)
    (hc_streams c) (hc_jobs c) (hc_channels c) (hc_streamers c) (hc_abr c) (hc_abrEnabled c) (hc_expectedFps c)
    x (hc_ui c) (hc_queue c).
Definition setUi (x : HostUiState) (c : HostCoordinator) : HostCoordinator :=
  mkHc (hc_host c) (hc_settings c) (hc_signaling c) (hc_relay c) (hc_code c) (hc_injector c) (hc_rumble c)
    (hc_streams c) (hc_jobs c) (hc_channels c) (hc_streamers c) (hc_abr c) (hc_abrEnabled c) (hc_expectedFps c)
    (hc_timer c) x (hc_queue c).
Definition setQueue (x : list QtCall) (c : HostCoordinator) : HostCoordinator :=
  mkHc (hc_host c) (hc_settings c) (hc_signaling c) (hc_relay c) (hc_code c) (hc_injector c) (hc_rumble c)
    (hc_streams c) (hc_jobs c) (hc_channels c) (hc_streamers c) (hc_abr c) (hc_abrEnabled c) (hc_expectedFps c)
    (hc_timer c) (hc_ui c) x.

(** [cfg] is the configuration the coordinator was built with. *)
Definition newCoordinator (cfg : Config) (injector : InputInjector) : HostCoordinator :=
  mkHc None None None (mkRelay false [] 0 0 0 []) [] injector None [] [] [] 0
    (newAbr (i32 (v_bitrateMbps (cfg_video cfg) * 1000)) 2000 30000) true (dofZ 60) false defaultUi [].

Definition uiStart (code : bytes) (port : Z) (internet : bool) (address : bytes) (u : HostUiState) : HostUiState :=
  mkHui code (ui_encoderName u) port internet address (ui_fps u) (ui_captureMs u) (ui_encodeMs u) (ui_bitrateKbps u)
    (ui_rttMs u) (ui_lossPercent u) (ui_jitterMs u) (ui_bitrateTarget u) (ui_abrActive u).
Definition uiTarget (kbps : Z) (u : HostUiState) : HostUiState :=
  mkHui (ui_sessionCode u) (ui_encoderName u) (ui_tcpPort u) (ui_internetMode u) (ui_serverAddress u) (ui_fps u)
    (ui_captureMs u) (ui_encodeMs u) (ui_bitrateKbps u) (ui_rttMs u) (ui_lossPercent u) (ui_jitterMs u) kbps (ui_abrActive u).
Definition uiStream (st : HostStreamStats) (u : HostUiState) : HostUiState :=
  mkHui (ui_sessionCode u) (if bool_decide (ui_encoderName u = []) then hss_encoderName st else ui_encoderName u)
    (ui_tcpPort u) (ui_internetMode u) (ui_serverAddress u) (hss_fps st) (hss_captureMs st) (hss_encodeMs st) (hss_kbps st)
    (ui_rttMs u) (ui_lossPercent u) (ui_jitterMs u) (ui_bitrateTarget u) (ui_abrActive u).
Definition uiLink (rtt loss jitter : double) (target : Z) (active : bool) (u : HostUiState) : HostUiState :=
  mkHui (ui_sessionCode u) (ui_encoderName u) (ui_tcpPort u) (ui_internetMode u) (ui_serverAddress u) (ui_fps u)
    (ui_captureMs u) (ui_encodeMs u) (ui_bitrateKbps u) rtt loss jitter target active.

(** * The parts *)

Definition HcAct : Type := fact HostCoordinator HcOut.

Definition post (q : list QtCall) : HcAct := modifyF (fun c => setQueue (hc_queue c ++ q) c).
Definition signal (u : UiSignal) : HcAct := emitF [OutUi u].
Definition callStreamer (st : nat) (sc : StreamerCall) : HcAct := emitF [OutStreamer st sc].

(** [if (p) p->call(sc)] for a streamer pointer. *)
Definition ifStreamer (p : option nat) (sc : StreamerCall) : HcAct :=
  match p with Some st => callStreamer st sc | None => doneF end.

(** The callbacks [wireHostEvents] installs post to the Qt thread. *)
Definition callbackOf (o : HostOut) : option QtCall :=
  match o with
  | HoApprovalRequest id name => Some (QApprovalRequest id name)
  | HoClientUpdated row => Some (QClientUpdated row)
  | HoInputPermissions id perms => Some (QInputPermissions id perms)
  | HoAppMessage id type payload => Some (QAppMessage id type payload)
  | _ => None
  end.

Fixpoint callbacksOf (os : list HostOut) : list QtCall :=
  match os with
  | [] => []
  | o :: os => match callbackOf o with Some q => q :: callbacksOf os | None => callbacksOf os end
  end.

Definition netOf (os : list HostOut) : list HcOut :=
  OutNet <$> List.filter (fun o => match callbackOf o with Some _ => false | None => true end) os.

(** [host_->f()], and [if (host_) host_->f()]. *)
Definition callHost (f : act HostApp HostOut) : HcAct := readF (fun c =>
  match hc_host c with
  | None => nullF
  | Some a => let '(os, a) := f a in modifyF (setHost (Some a)) ;! post (callbacksOf os) ;! emitF (netOf os)
  end).
Definition ifHost (f : act HostApp HostOut) : HcAct := readF (fun c =>
  match hc_host c with None => doneF | Some _ => callHost f end).

(** A call on the injector. *)
Definition callInjector (f : act InputInjector InjEvent) : HcAct := readF (fun c =>
  let '(es, i) := f (hc_injector c) in modifyF (setInjector i) ;! emitF (OutInput <$> es)).

Definition findStream (clientId : Z) (c : HostCoordinator) : option ClientStream := om_lookup clientId (hc_streams c).

Definition playerIndexOf (clientId : Z) (c : HostCoordinator) : Z :=
  match findStream clientId c with Some cs => cst_playerIndex cs | None => 0 end.

Definition clients (c : HostCoordinator) : list ClientRow :=
  match hc_host c with Some a => HostApp.clients a | None => [] end.

Definition hosting (c : HostCoordinator) : bool := match hc_host c with Some a => HostApp.hosting a | None => false end.

(** Writing through the pointer [findStream] gave. *)
Definition putStream (cs : ClientStream) : HcAct :=
  modifyF (fun c => setStreams (om_insert (cst_clientId cs) cs (hc_streams c)) c).

Definition forStreamers (sc : StreamerCall) : HcAct := readF (fun c =>
  forF (hc_streams c) (fun kv : Z * ClientStream => ifStreamer (cst_streamer (snd kv)) sc)).

Section Coordinator.
Context `{CNG} (cfg : Config) (th : Thresholds) (mapVirtualKey : Z -> Z) (isAddress : bytes -> bool).

(** * Key exchange *)

Definition isUsed (i : Z) (streams : list (Z * ClientStream)) : bool :=
  existsb (fun kv => cst_playerIndex (snd kv) =? i) streams.

Definition assignPlayerIndex (c : HostCoordinator) : Z :=
  match List.find (fun i => negb (isUsed i (hc_streams c))) [0; 1; 2; 3] with Some i => i | None => 3 end.

Definition sendApp (clientId : Z) (msg : Envelope) : HcAct :=
  callHost (HostApp.sendAppMessage clientId (idCode (env_type msg)) (encodeMessage msg)).

(** [keys] and [salt] are what the key generation and the random generator give. *)
Definition beginKeyExchange (keys : option EcdhKeyPair) (salt : bytes) (clientId : Z) : HcAct := readF (fun c =>
  match findStream clientId c with
  | Some _ => doneF
  | None =>
      let player := assignPlayerIndex c in
      match keys with
      | None => signal (ErrorOccurred (str "Cryptography unavailable (CNG). Cannot secure this session.")) ;! callHost (HostApp.kick clientId)
      | Some kp =>
          sendApp clientId (mkEnvelope IdKeyExchange (BKeyExchange (mkKeyExchange (kp_publicKey kp) salt))) ;!
          putStream (mkCst clientId player false (Some kp) salt None None)
      end
  end).

(** * Streams *)

Definition streamConfig (s : HostLaunchSettings) : StreamConfig :=
  mkStream (ls_codec s) (res_width (ls_resolution s)) (res_height (ls_resolution s)) (i32 (ls_fps s)) (i32 (ls_bitrateKbps s))
    (i32 (u32 (ls_fps s * 2))) (ls_audioBitrateKbps s) (ls_audioEnabled s) (ls_captureMode s) (ls_outputIndex s)
    (ls_windowHwnd s) (ls_gameName s).

(** The worker is queued in [hc_jobs]; it runs in [runJob]. *)
Definition startStreamFor (cs : ClientStream) : HcAct := readF (fun c =>
  match hc_settings c with
  | None => doneF
  | Some s =>
      let st := hc_streamers c in
      let r := hc_relay c in
      modifyF (setStreamers (S st)) ;!
      putStream (cstStreamer st cs) ;!
      callStreamer st (ScSetErrorCallback (cst_clientId cs)) ;!
      modifyF (fun c => setJobs (hc_jobs c ++
        [mkJob st (cst_clientId cs) (cst_playerIndex cs) (streamConfig s) (makeUdpSessionId (hc_code c) (cst_clientId cs))
           (cst_channel cs) (rl_internet r) (rl_serverHost r) (rl_udpPort r) (rl_hostToken r)]) c)
  end).

(** What a worker's [streamer->start] returns, and the port it is bound to. *)
Record JobIo := mkJio { ji_ok : bool; ji_err : bytes; ji_udpPort : Z }.

Definition streamStart (j : InitJob) (io : JobIo) : StreamStart :=
  mkStreamStart (ji_udpPort io) (jb_sessionId j) (jb_player j) (u8 (sc_codec (jb_config j))) (u16 (sc_width (jb_config j)))
    (u16 (sc_height (jb_config j))) (u8 (sc_fps (jb_config j))) (u32 (sc_bitrateKbps (jb_config j))).

(** The callback [start] runs before its loop: the client is told where to
    connect, and in internet mode the relay is set up. *)
Definition onStreamStart (j : InitJob) (io : JobIo) : HcAct :=
  sendApp (jb_clientId j) (mkEnvelope IdStreamStart (BStreamStart (streamStart j io))) ;!
  (if jb_internet j then
     callStreamer (jb_streamer j) (ScClientEndpoint (jb_serverHost j) (jb_relayUdp j)) ;!
     if isAddress (jb_serverHost j) then
       callStreamer (jb_streamer j) (ScRelayFallback (jb_serverHost j) (jb_relayUdp j)) ;!
       callStreamer (jb_streamer j) (ScRelayBind (jb_token j))
     else terminateF
   else doneF) ;!
  post [QStateChanged].

Definition runJob (j : InitJob) (io : JobIo) : HcAct :=
  callStreamer (jb_streamer j) (ScStart (jb_config j) (jb_sessionId j) (jb_player j) (jb_channel j)) ;!
  (if ji_ok io then onStreamStart j io else doneF) ;!
  post [QStreamDone (ji_ok io) (ji_err io) (jb_clientId j) (jb_player j)].

(** What a worker posts when it is done. *)
Definition streamDone (ok : bool) (err : bytes) (clientId player : Z) : HcAct :=
  if negb ok then
    signal (ErrorOccurred (str "Stream start failed: " ++ err)) ;! callHost (HostApp.kick clientId)
  else
    readF (fun c => match findStream clientId c with
                    | Some cs => ifStreamer (cst_streamer cs) (ScSetInputHandler player)
                    | None => doneF end) ;!
    signal StateChanged.

Definition disconnectPlayer (player : Z) : HcAct := callInjector (clientDisconnected mapVirtualKey player).

(** [running] is what the streamer answers. *)
Definition streamerError (running : bool) (clientId : Z) (message : bytes) : HcAct :=
  signal (EncoderTrouble message) ;!
  readF (fun c => match findStream clientId c with
                  | Some cs =>
                      match cst_streamer cs with
                      | Some st =>
                          if running then doneF
                          else callStreamer st (ScStop (str "fatal pipeline error")) ;! disconnectPlayer (cst_playerIndex cs)
                      | None => doneF
                      end
                  | None => doneF end).

Definition handleAppMessage (clientId type : Z) (payload : bytes) : HcAct := readF (fun c =>
  match decodeMessage type payload with
  | None => doneF
  | Some env =>
      match env_type env, findStream clientId c with
      | IdKeyExchange, Some cs =>
          match env_body env, cst_ecdh cs with
          | BKeyExchange m, Some kp =>
              if cst_keysReady cs then doneF
              else
                let '(ok, ch) := finish kp (cst_ourSalt cs) (kx_publicKey m) (kx_salt m) (hc_code c) true newChannel in
                putStream (cstChannel (length (hc_channels c)) cs) ;!
                modifyF (setChannels (hc_channels c ++ [ch])) ;!
                if negb ok then
                  signal (ErrorOccurred (str "Key exchange failed for a player; disconnecting them.")) ;!
                  callHost (HostApp.kick clientId)
                else sendApp clientId (mkEnvelope IdSessionKeyReady defaultBody)
          | _, _ => doneF
          end
      | IdSessionKeyReady, Some cs =>
          match cst_channel cs with
          | None => doneF
          | Some _ => putStream (cstReady cs) ;! startStreamFor (cstReady cs)
          end
      | IdStreamStop, Some cs =>
          ifStreamer (cst_streamer cs) (ScStop (str "client requested")) ;! disconnectPlayer (cst_playerIndex cs)
      | IdKeyframeRequest, Some cs => ifStreamer (cst_streamer cs) ScRequestKeyframe
      | _, _ => doneF
      end
  end).

Definition teardownClient (clientId : Z) : HcAct := readF (fun c =>
  match findStream clientId c with
  | None => doneF
  | Some cs =>
      ifStreamer (cst_streamer cs) (ScStop (str "client disconnected")) ;!
      disconnectPlayer (cst_playerIndex cs) ;!
      modifyF (fun c => setStreams (om_erase clientId (hc_streams c)) c) ;!
      signal StateChanged
  end).

(** * Callbacks of the session, on the Qt thread *)

Definition clientUpdated (keys : option EcdhKeyPair) (salt : bytes) (row : ClientRow) : HcAct :=
  (if bool_decide (row_state row = Connected) then beginKeyExchange keys salt (row_id row)
   else if bool_decide (row_state row = Disconnected) then teardownClient (row_id row)
   else doneF) ;!
  signal ClientTableChanged.

(** [target] and [addRc] are the answers of the pad driver. *)
Definition inputPermissions (target addRc : Z) (clientId : Z) (perms : InputPermissions) : HcAct := readF (fun c =>
  match findStream clientId c with
  | None => doneF
  | Some cs =>
      callInjector (setPermissions mapVirtualKey target addRc (cst_playerIndex cs) (toProto perms)) ;!
      match cst_streamer cs with
      | Some _ =>
          if perm_controller perms then
            modifyF (setRumble (Some clientId)) ;! callInjector (modify InputInjector.setRumbleSender)
          else doneF
      | None => doneF
      end
  end).

(** The answers a posted call may need. *)
Record QtIo := mkQio {
  qi_keys : option EcdhKeyPair; qi_salt : bytes; qi_target : Z; qi_addRc : Z; qi_running : bool }.

Definition runCall (io : QtIo) (q : QtCall) : HcAct :=
  match q with
  | QApprovalRequest id name => signal (ApprovalRequest id name)
  | QClientUpdated row => clientUpdated (qi_keys io) (qi_salt io) row
  | QInputPermissions id perms => inputPermissions (qi_target io) (qi_addRc io) id perms
  | QAppMessage id type payload => handleAppMessage id type payload
  | QClientJoined token =>
      readF (fun c => callHost (HostApp.connectRelayClient (rl_serverHost (hc_relay c)) (rl_tcpPort (hc_relay c)) token)) ;!
      signal ClientTableChanged
  | QClientLeft => doneF
  | QStreamerError id message => streamerError (qi_running io) id message
  | QStateChanged => signal StateChanged
  | QStreamDone ok err id player => streamDone ok err id player
  end.

Definition dispatch (io : QtIo) : HcAct := readF (fun c =>
  match hc_queue c with
  | [] => doneF
  | q :: qs => modifyF (setQueue qs) ;! runCall io q
  end).

(** * The signaling client *)

(** [signaling_.reset()]: the destructor of [SignalingClient]. *)
Definition resetSignaling : HcAct := readF (fun c =>
  match hc_signaling c with
  | None => doneF
  | Some s => match SignalingClient.destroy s with JOk _ => modifyF (setSignaling None) | _ => terminateF end
  end).

(** [if (signaling_) { signaling_->disconnect(); signaling_.reset(); }]. *)
Definition closeSignaling : HcAct := readF (fun c =>
  match hc_signaling c with
  | None => doneF
  | Some s =>
      emitF [OutSignaling SgDisconnect] ;! modifyF (setSignaling (Some (SignalingClient.disconnect s))) ;! resetSignaling
  end).

(** Its reader reads, and has the handlers. *)
Definition announces (c : HostCoordinator) : bool :=
  match hc_signaling c with Some s => sg_loop s && sg_running s && sg_onClientJoined s | None => false end.

(** * Start and stop *)

(** What still runs while the coordinator stops: the network thread's last events
    and the outcomes of the workers, by streamer. *)
Record StopIo := mkSpio { sp_ran : list IoEvent; sp_jobs : nat -> JobIo }.

Definition stop (io : StopIo) : HcAct :=
  modifyF (setTimer false) ;!
  readF (fun c => forF (hc_streams c) (fun kv : Z * ClientStream =>
    ifStreamer (cst_streamer (snd kv)) (ScStop (str "coordinator stop")) ;! disconnectPlayer (cst_playerIndex (snd kv)))) ;!
  readF (fun c => forF (hc_jobs c) (fun j => runJob j (sp_jobs io (jb_streamer j)))) ;!
  modifyF (setJobs []) ;!
  modifyF (setStreams []) ;!
  ifHost (HostApp.stop (sp_ran io)) ;! modifyF (setHost None) ;!
  closeSignaling ;!
  modifyF (setUi defaultUi) ;!
  signal StateChanged.

(** [settings_]: a copy with the configured audio bit rate. *)
Definition keepSettings (s : HostLaunchSettings) : HcAct := modifyF (setSettings (Some
  (mkLaunch (ls_hostName s) (ls_gameName s) (ls_captureMode s) (ls_resolution s) (ls_fps s) (ls_bitrateKbps s) (ls_codec s)
     (ls_listenPort s) (ls_requireApproval s) (ls_inputDefaults s) (ls_maxClients s) (ls_outputIndex s) (ls_windowHwnd s)
     (ls_audioEnabled s) (a_bitrateKbps (cfg_audio cfg))))).

(** [host_ = make_unique<HostApp>(); wireHostEvents()]. *)
Definition freshHost : HcAct := modifyF (setHost (Some (HostApp.setEvents true newHostApp))).

Definition freshAbr (s : HostLaunchSettings) : HcAct := modifyF (setAbr (newAbr (i32 (ls_bitrateKbps s)) 2000 30000)).

(** What [startLan] returns is whether the facade starts. *)
Definition startLan (s : HostLaunchSettings) (userName code : bytes) (bind : Z -> option Z) (io : StopIo) : HcAct :=
  stop io ;!
  modifyF (fun c => let r := hc_relay c in
    setRelay (mkRelay false (rl_serverHost r) (rl_serverPort r) (rl_tcpPort r) (rl_udpPort r) (rl_hostToken r)) c) ;!
  keepSettings s ;!
  freshHost ;!
  readF (fun c =>
    match hc_host c with
    | None => nullF
    | Some a =>
        let '(ok, (os, a)) := HostApp.start userName s code bind [] a in
        modifyF (setHost (Some a)) ;! post (callbacksOf os) ;! emitF (netOf os) ;!
        if negb ok then modifyF (setHost None)
        else
          modifyF (fun c => setUi (uiStart (HostApp.sessionCode a) (HostApp.port a) false (ui_serverAddress (hc_ui c)) (hc_ui c)) c) ;!
          modifyF (setCode (HostApp.sessionCode a)) ;!
          modifyF (setExpectedFps (dofZ (ls_fps s))) ;!
          freshAbr s ;! modifyF (setAbrEnabled true) ;! modifyF (setTimer true) ;! signal StateChanged
    end).

(** [outcome] is how the connection attempt to the signaling server ends, [closed]
    whether the server closes the connection while the request waits, [reg] the
    answer. *)
Definition startInternet (s : HostLaunchSettings) (serverAddress : bytes) (serverPort : Z) (outcome : ConnectOutcome)
    (closed : bool) (reg : option HostRegisterResult) (io : StopIo) : HcAct :=
  stop io ;!
  modifyF (fun c => let r := hc_relay c in
    setRelay (mkRelay true serverAddress serverPort (rl_tcpPort r) (rl_udpPort r) (rl_hostToken r)) c) ;!
  keepSettings s ;!
  modifyF (setSignaling (Some newSignaling)) ;!
  emitF [OutSignaling (SgConnect serverAddress serverPort 6000)] ;!
  match SignalingClient.connect outcome newSignaling with
  | JOk (true, sc) =>
    modifyF (setSignaling (Some (if closed then readerEnds sc else sc))) ;!
    emitF [OutSignaling (SgHostRegister (if bool_decide (ls_hostName s = []) then str "Host" else ls_hostName s))] ;!
    match reg with
    | None => resetSignaling
    | Some r =>
        modifyF (setCode (hr_code r)) ;!
        modifyF (setRelay (mkRelay true serverAddress serverPort (u16 (hr_relayTcpPort r)) (u16 (hr_relayUdpPort r)) (hr_hostToken r))) ;!
        freshHost ;!
        modifyF (fun c => setSignaling (SignalingClient.setHandlers true true false <$> hc_signaling c) c) ;!
        emitF [OutSignaling SgSetHandlers] ;!
        modifyF (fun c => setUi (uiStart (hr_code r) 0 true serverAddress (hc_ui c)) c) ;!
        modifyF (setExpectedFps (dofZ (ls_fps s))) ;!
        freshAbr s ;! modifyF (setTimer true) ;! signal StateChanged
    end
  | JOk (false, sc) => modifyF (setSignaling (Some sc)) ;! resetSignaling
  | _ => terminateF
  end.

(** * Requests of the user *)

Definition approve (clientId : Z) (accept : bool) : HcAct := ifHost (HostApp.approve clientId accept).
Definition kick (clientId : Z) : HcAct := readF (fun c =>
  match hc_host c with None => doneF | Some _ => teardownClient clientId ;! callHost (HostApp.kick clientId) end).
Definition setClientInput (clientId : Z) (enabled : bool) : HcAct := ifHost (HostApp.setClientInputEnabled clientId enabled).

Definition setManualBitrate (kbps : Z) : HcAct :=
  modifyF (fun c => setAbr (setManual th kbps (hc_abr c)) c) ;!
  modifyF (setAbrEnabled false) ;!
  forStreamers (ScSetBitrate kbps) ;!
  modifyF (fun c => setUi (uiTarget kbps (hc_ui c)) c) ;!
  signal StateChanged.

Definition restartEncoders : HcAct := forStreamers ScEncoderRestart ;! signal StateChanged.
Definition switchEncodersToSoftware : HcAct := forStreamers ScSoftwareEncoder ;! signal StateChanged.

(** * The statistics timer *)

Definition lossPercent (u : UdpStatsSnapshot) : double :=
  let total := u64 (ss_lostFrames u + ss_assembledFrames u) in
  if 0 <? total then dmul (ddiv (dofZ (ss_lostFrames u)) (dofZ total)) (dofZ 100) else dzero.

(** A default-constructed snapshot, of a streamer without a transport. *)
Definition udpOf (st : HostStreamStats) : UdpStatsSnapshot :=
  match hss_udp st with
  | Some u => u
  | None => mkSnapshot (mkCounters 0 0 0 0 0 0 0 0 0 dzero dzero) 0 0 0 0 0 0 dzero 0 0
  end.

(** The loop over the streams: the link values of the last streamer, and the
    interface's. *)
Fixpoint gather (stats : nat -> HostStreamStats) (streams : list (Z * ClientStream))
    (acc : option (double * double * double)) (ui : HostUiState) : option (double * double * double) * HostUiState :=
  match streams with
  | [] => (acc, ui)
  | (_, cs) :: streams =>
      match cst_streamer cs with
      | None => gather stats streams acc ui
      | Some st =>
          let s := stats st in
          gather stats streams (Some (ct_avgRttMs (ss_counters (udpOf s)), lossPercent (udpOf s), ss_jitterMs (udpOf s)))
            (uiStream s ui)
      end
  end.

Definition sampleOf (link : double * double * double) (fps expected : double) : LinkSample :=
  let '(rtt, loss, jitter) := link in
  mkSample rtt loss jitter dzero (if dltb dzero expected then ddiv fps expected else dofZ 1).

Definition onStatsTimer (stats : nat -> HostStreamStats) : HcAct := readF (fun c =>
  match hc_host c with
  | None => doneF
  | Some _ =>
      let '(link, ui) := gather stats (hc_streams c) None (hc_ui c) in
      modifyF (setUi ui) ;!
      (match link with
       | Some l =>
           if hc_abrEnabled c then
             match AdaptiveBitrate.update th (sampleOf l (ui_fps ui) (hc_expectedFps c)) (hc_abr c) with
             | None => undefinedF
             | Some (next, abr) =>
                 modifyF (setAbr abr) ;!
                 match next with Some kbps => forStreamers (ScSetBitrate kbps) | None => doneF end
             end
           else doneF
       | None => doneF
       end) ;!
      readF (fun c =>
        let '(rtt, loss, jitter) := match link with Some l => l | None => (dzero, dzero, dzero) end in
        modifyF (fun c => setUi (uiLink rtt loss jitter (ab_currentKbps (hc_abr c)) (hc_abrEnabled c) (hc_ui c)) c)) ;!
      signal StateChanged
  end).

(** * The other threads *)

(** The network thread of the session, while it runs. *)
Definition network (e : IoEvent) : HcAct := ifHost (HostApp.onSession (hostStep (HeIo e))).

(** The worker at position [k] runs to its end. *)
Definition worker (k : nat) (io : JobIo) : HcAct := readF (fun c =>
  match hc_jobs c !! k with
  | None => doneF
  | Some j => modifyF (setJobs (delete k (hc_jobs c))) ;! runJob j io
  end).

(** A datagram of a player, from the handler [streamDone] installed. *)
Definition playerInput (sent : bool) (updateRc player : Z) (data : bytes) : HcAct :=
  callInjector (fun i => snd (applyInput mapVirtualKey sent updateRc player data i)).

(** The pad driver asks for vibration: the injector finds the player, the sender
    installed last sends it, to the streamer of the client it was installed for. *)
Definition vibration (target lm rm : Z) : HcAct := readF (fun c =>
  let es := onVibration target lm rm (hc_injector c) in
  forF es (fun e => match e, hc_rumble c with
                    | EvRumble player l r, Some id =>
                        match findStream id c with
                        | None => doneF
                        | Some cs => match cst_streamer cs with Some st => callStreamer st (ScRumble player l r) | None => nullF end
                        end
                    | _, _ => doneF
                    end)).

Inductive HcEvent :=
  | HcStartLan (s : HostLaunchSettings) (userName code : bytes) (bind : Z -> option Z) (io : StopIo)
  | HcStartInternet (s : HostLaunchSettings) (serverAddress : bytes) (serverPort : Z) (outcome : ConnectOutcome) (closed : bool)
      (reg : option HostRegisterResult) (io : StopIo)
  | HcStop (io : StopIo)
  | HcApprove (clientId : Z) (accept : bool)
  | HcKick (clientId : Z)
  | HcSetClientInput (clientId : Z) (enabled : bool)
  | HcSetManualBitrate (kbps : Z)
  | HcSetAbrEnabled (on : bool)
  | HcRestartEncoders
  | HcSwitchToSoftware
  | HcTimer (stats : nat -> HostStreamStats)
  | HcDispatch (io : QtIo)
  | HcNetwork (e : IoEvent)
  | HcWorker (k : nat) (io : JobIo)
  | HcStreamerError (clientId : Z) (message : bytes)
  | HcClientJoined (token : bytes)
  | HcClientLeft
  | HcSignalingClosed
  | HcInput (sent : bool) (updateRc player : Z) (data : bytes)
  | HcVibration (target lm rm : Z).

Definition hcStep (e : HcEvent) : HcAct :=
  match e with
  | HcStartLan s userName code bind io => startLan s userName code bind io
  | HcStartInternet s address port outcome closed reg io => startInternet s address port outcome closed reg io
  | HcStop io => stop io
  | HcApprove id accept => approve id accept
  | HcKick id => kick id
  | HcSetClientInput id enabled => setClientInput id enabled
  | HcSetManualBitrate kbps => setManualBitrate kbps
  | HcSetAbrEnabled on => modifyF (setAbrEnabled on)
  | HcRestartEncoders => restartEncoders
  | HcSwitchToSoftware => switchEncodersToSoftware
  | HcTimer stats => readF (fun c => if hc_timer c then onStatsTimer stats else doneF)
  | HcDispatch io => dispatch io
  | HcNetwork e => network e
  | HcWorker k io => worker k io
  | HcStreamerError id message => post [QStreamerError id message]
  | HcClientJoined token => readF (fun c => if announces c then post [QClientJoined token] else doneF)
  | HcClientLeft => readF (fun c => if announces c then post [QClientLeft] else doneF)
  | HcSignalingClosed => modifyF (fun c => setSignaling (readerEnds <$> hc_signaling c) c)
  | HcInput sent updateRc player data => playerInput sent updateRc player data
  | HcVibration target lm rm => vibration target lm rm
  end.

Definition hcRun (es : list HcEvent) : HcAct := forF es hcStep.

End Coordinator.
