(* ===== verification/HostCoordinatorSpec.v ===== *)
(** What the host coordinator guarantees: player slots, sealed streams, clean
    stops; and where its threads get in each other's way. *)

From stdpp Require Import sorting.
From S2P Require Import Prelude Types Double Protocol OrderedMap Calls Config HostSession SessionCodes Crypto SecureChannel AdaptiveBitrate InputProtocol VirtualGamepad InputInjector InputInjectorSpec UdpTransport HostStreamer SignalingClient HostApp HostCoordinator.

Open Scope fact_scope.
Open Scope Z_scope.

(** * Session identifiers *)

Lemma lor1_odd a : Z.testbit (Z.lor a 1) 0 = true.
Proof. by rewrite Z.lor_spec, orb_true_r. Qed.

(** The identifier of a media session is an odd 32-bit number, so never the
    wildcard 0, and a deterministic function of code and client. *)
Theorem udp_session_id_range (code : bytes) (clientId : Z) :
  fits 32 (makeUdpSessionId code clientId) /\ makeUdpSessionId code clientId <> 0 /\ Z.odd (makeUdpSessionId code clientId) = true.
Proof.
  unfold makeUdpSessionId. cbv zeta. set (h := u32 (Z.lxor _ _ * _)).
  assert (Hh : fits 32 h) by apply u32_fits. clearbody h.
  assert (Ho : Z.odd (Z.lor h 1) = true) by (rewrite <- Z.bit0_odd; apply lor1_odd).
  assert (Hn : 0 <= Z.lor h 1) by (apply Z.lor_nonneg; unfold fits in Hh; lia).
  split_and!; [|intros E; by rewrite E in Ho|done].
  split; [done|]. destruct (Z.eq_dec (Z.lor h 1) 0) as [E|Hne]; [rewrite E; lia|].
  apply Z.log2_lt_pow2; [lia|]. rewrite Z.log2_lor by (unfold fits in Hh; lia).
  change (Z.log2 1) with 0. apply Z.max_lub_lt; [|lia].
  destruct (Z.eq_dec h 0) as [->|]; [cbn; lia|]. apply Z.log2_lt_pow2; unfold fits in Hh; lia.
Qed.

(** The slots, by client. *)
Definition slotOf (kv : Z * ClientStream) : Z * Z := (fst kv, cst_playerIndex (snd kv)).
Definition slots (c : HostCoordinator) : list (Z * Z) := slotOf <$> hc_streams c.

Lemma slots_erase id (m : list (Z * ClientStream)) : slotOf <$> om_erase id m = om_erase id (slotOf <$> m).
Proof.
  unfold om_erase. induction m as [|[k v] m IH]; [done|]. cbn [List.filter fst]. rewrite fmap_cons. cbn [List.filter slotOf fst].
  destruct (negb (k =? id)); by rewrite ?fmap_cons, IH.
Qed.

Lemma slots_insert id cs (m : list (Z * ClientStream)) :
  slotOf <$> om_insert id cs m = om_insert id (cst_playerIndex cs) (slotOf <$> m).
Proof.
  induction m as [|[k v] m IH]; [done|]. rewrite fmap_cons. cbn [om_insert slotOf fst snd].
  destruct (id <? k); [done|]. destruct (id =? k); [done|]. by rewrite fmap_cons, IH.
Qed.

(** The signaling client. *)
Lemma pres_resetSignaling (P : HostCoordinator -> Prop) R : (forall x c, P c -> P (setSignaling x c)) -> preserves P R resetSignaling.
Proof.
  intros HP. apply pres_read_all. intros c _. destruct (hc_signaling c); [|apply pres_done]. destruct (destroy _); [|apply pres_terminate..].
  apply pres_modify. auto.
Qed.

Lemma pres_closeSignaling (P : HostCoordinator -> Prop) (R : HcOut -> Prop) :
  (forall x c, P c -> P (setSignaling x c)) -> R (OutSignaling SgDisconnect) -> preserves P R closeSignaling.
Proof.
  intros HP HR. apply pres_read_all. intros c _. destruct (hc_signaling c); [|apply pres_done].
  apply pres_seq; [by apply pres_emit, Forall_singleton|]. apply pres_seq; [apply pres_modify; auto|by apply pres_resetSignaling].
Qed.

(** The slots satisfy some [Sl] that survives the end of a stream, the channels
    some [Cs], and a channel that exists is [Ok]; the lemmas below are shared by
    several such properties. *)
Section Spec.
Context `{CNG} (cfg : Config) (th : Thresholds) (mvk : Z -> Z) (isAddress : bytes -> bool).
Context (Sl : list (Z * Z) -> Prop) (Sl_nil : Sl []) (Sl_erase : forall id m, Sl m -> Sl (om_erase id m)).
Context (Cs : list SecureChannel -> Prop) (Ok : nat -> Prop) (Cs_ok : forall chs n, Cs chs -> (n < length chs)%nat -> Ok n).

Local Abbreviation step := (hcStep cfg th mvk isAddress).
Local Abbreviation run := (hcRun cfg th mvk isAddress).

(** * The invariant *)

(** An entry is keyed by its client, has a player slot, and a streamer only behind
    a channel; pointers point to what exists. *)
Definition stream_ok (nch : nat) (kv : Z * ClientStream) : Prop :=
  cst_clientId (snd kv) = fst kv /\ 0 <= cst_playerIndex (snd kv) <= 3 /\
  (forall ch, cst_channel (snd kv) = Some ch -> (ch < nch)%nat) /\
  (is_Some (cst_streamer (snd kv)) -> is_Some (cst_channel (snd kv))).

(** A worker carries the channel of its client. *)
Definition job_ok (nch : nat) (j : InitJob) : Prop := exists ch, jb_channel j = Some ch /\ (ch < nch)%nat.

Record hc_inv (c : HostCoordinator) : Prop := {
  inv_sorted : om_sorted (hc_streams c);
  inv_streams : Forall (stream_ok (length (hc_channels c))) (hc_streams c);
  inv_jobs : Forall (job_ok (length (hc_channels c))) (hc_jobs c);
  inv_slots : Sl (slots c);
  inv_channels : Cs (hc_channels c);
  inv_host : hc_host c = None -> hc_streams c = [] /\ hc_jobs c = [] }.

(** The channel a streamer is started with. *)
Definition sealed (ch : option nat) : Prop := exists n, ch = Some n /\ Ok n.
Definition sealed_out (o : HcOut) : Prop :=
  match o with OutStreamer _ (ScStart _ _ _ ch) => sealed ch | _ => True end.

Local Abbreviation pres := (preserves hc_inv sealed_out).

(** Updates that leave the entries, the workers, the channels and the facade. *)
Lemma inv_core c c' :
  hc_streams c' = hc_streams c -> hc_jobs c' = hc_jobs c -> hc_channels c' = hc_channels c ->
  (hc_host c' = None -> hc_host c = None) -> hc_inv c -> hc_inv c'.
Proof. intros E1 E2 E3 E4 []. split; unfold slots in *; rewrite ?E1, ?E2, ?E3; auto. Qed.

Ltac core := apply pres_modify; intros ?; by apply inv_core.

Lemma pres_post q : pres (post q).
Proof. core. Qed.
Lemma pres_signal u : pres (signal u).
Proof. by apply pres_emit, Forall_singleton. Qed.
Lemma pres_net os : pres (emitF (netOf os)).
Proof. apply pres_emit. unfold netOf. by apply Forall_fmap, list.Forall_forall. Qed.
Lemma pres_ifStreamer p sc : (forall a b d ch, sc = ScStart a b d ch -> sealed ch) -> pres (ifStreamer p sc).
Proof.
  intros Hsc. destruct p; [|apply pres_done]. apply pres_emit, Forall_singleton. cbn. destruct sc; try done. by eapply Hsc.
Qed.
Lemma pres_call st sc : (forall a b d ch, sc = ScStart a b d ch -> sealed ch) -> pres (callStreamer st sc).
Proof. by apply (pres_ifStreamer (Some st)). Qed.

Lemma pres_callHost f : pres (callHost f).
Proof.
  apply pres_read_all. intros c _. destruct (hc_host c) as [a|]; [|apply pres_null].
  destruct (f a) as [os a']. apply pres_seq; [|apply pres_seq; [apply pres_post|apply pres_net]].
  core.
Qed.
Lemma pres_ifHost f : pres (ifHost f).
Proof. apply pres_read_all. intros c _. destruct (hc_host c); [apply pres_callHost|apply pres_done]. Qed.
Lemma pres_callInjector f : pres (callInjector f).
Proof.
  apply pres_read_all. intros c _. destruct (f (hc_injector c)) as [es i]. apply pres_seq; [core|].
  apply pres_emit. by apply Forall_fmap, list.Forall_forall.
Qed.

Hint Resolve pres_post pres_signal pres_callHost pres_ifHost pres_callInjector : act.

Lemma pres_sendApp id msg : pres (sendApp id msg).
Proof. apply pres_callHost. Qed.
Lemma pres_disconnectPlayer p : pres (disconnectPlayer mvk p).
Proof. apply pres_callInjector. Qed.
Hint Resolve pres_sendApp pres_disconnectPlayer : act.

Lemma pres_forStreamers sc : (forall a b d ch, sc = ScStart a b d ch -> sealed ch) -> pres (forStreamers sc).
Proof.
  intros Hsc. apply pres_read_all. intros c _. apply pres_for. intros kv. by apply pres_ifStreamer.
Qed.

Lemma pres_onStreamStart j io : pres (onStreamStart isAddress j io).
Proof.
  unfold onStreamStart. apply pres_seq; [apply pres_sendApp|]. apply pres_seq; [|apply pres_post].
  destruct (jb_internet j); [|apply pres_done]. apply pres_seq; [by apply pres_call|].
  destruct (isAddress _); [|apply pres_terminate]. by apply pres_seq; apply pres_call.
Qed.

Lemma pres_runJob j io : sealed (jb_channel j) -> pres (runJob isAddress j io).
Proof.
  intros Hch. unfold runJob. apply pres_seq.
  { apply pres_call. by intros ? ? ? ? [= _ _ _ <-]. }
  apply pres_seq; [|apply pres_post]. destruct (ji_ok io); [apply pres_onStreamStart|apply pres_done].
Qed.

Lemma inv_sealed c j : hc_inv c -> job_ok (length (hc_channels c)) j -> sealed (jb_channel j).
Proof. intros Hc (ch & Hch & Hlt). exists ch. split; [done|]. by apply (Cs_ok (hc_channels c)); [apply inv_channels|]. Qed.

(** Writing an entry back. *)
Lemma inv_put cs c :
  hc_inv c -> stream_ok (length (hc_channels c)) (cst_clientId cs, cs) -> is_Some (hc_host c) ->
  Sl (om_insert (cst_clientId cs) (cst_playerIndex cs) (slots c)) ->
  hc_inv (setStreams (om_insert (cst_clientId cs) cs (hc_streams c)) c).
Proof.
  intros [Hs Hf Hj Hl Hcs Hh] Hok [a Ha] Hsl. split; unfold slots; cbn [hc_streams hc_jobs hc_channels hc_host setStreams];
    [by apply om_insert_sorted| |done|by rewrite slots_insert|done|by rewrite Ha].
  apply list.Forall_forall. intros kv Hkv. rewrite list.Forall_forall in Hf.
  assert (G : kv = (cst_clientId cs, cs) \/ kv ∈ hc_streams c); [|destruct G as [->|G]; [done|by apply Hf]].
  clear - Hkv. induction (hc_streams c) as [|[k v] m IH]; cbn [om_insert] in Hkv.
  { apply list_elem_of_singleton in Hkv. by left. }
  destruct (_ <? k); [apply elem_of_cons in Hkv; tauto|]. destruct (_ =? k).
  - apply elem_of_cons in Hkv as [?|?]; [by left|right; by apply list_elem_of_further].
  - apply elem_of_cons in Hkv as [->|Hin]; [right; apply list_elem_of_here|].
    destruct (IH Hin) as [?|?]; [by left|right; by apply list_elem_of_further].
Qed.

(** Writing back an entry that keeps its slot. *)
Lemma slots_same cs old c :
  hc_inv c -> findStream (cst_clientId cs) c = Some old -> cst_playerIndex cs = cst_playerIndex old ->
  Sl (om_insert (cst_clientId cs) (cst_playerIndex cs) (slots c)).
Proof.
  intros Hc Hfd Hp. unfold slots. rewrite <- slots_insert. rewrite (om_insert_fmap slotOf _ _ old); [by apply inv_slots|by apply inv_sorted|done|].
  unfold slotOf. cbn. by rewrite Hp.
Qed.

Lemma inv_find id cs c :
  hc_inv c -> findStream id c = Some cs -> stream_ok (length (hc_channels c)) (id, cs) /\ is_Some (hc_host c).
Proof.
  intros [_ Hf _ _ _ Hh] Hfd. apply om_lookup_elem in Hfd. rewrite list.Forall_forall in Hf. split; [by apply Hf|].
  destruct (hc_host c); [done|]. destruct Hh as [E _]; [done|]. rewrite E in Hfd. by apply not_elem_of_nil in Hfd.
Qed.

(** * Every step keeps the invariant *)

Lemma assign_range c : 0 <= assignPlayerIndex c <= 3.
Proof.
  unfold assignPlayerIndex. destruct (List.find _ _) as [i|] eqn:E; [|lia]. apply List.find_some in E as [Hin _].
  repeat (destruct Hin as [<-|Hin]; [lia|]). destruct Hin.
Qed.

(** What a call of the facade leaves alone. *)
Lemma callHost_core f c :
  wlp (callHost f) (fun _ c' => hc_streams c' = hc_streams c /\ hc_jobs c' = hc_jobs c /\ hc_channels c' = hc_channels c /\
    is_Some (hc_host c') /\ hc_injector c' = hc_injector c) c.
Proof. unfold wlp, callHost, readF. destruct (hc_host c) as [a|]; [|done]. destruct (f a) as [os a']. by split_and!. Qed.

(** Beginning an exchange keeps the invariant when the new slot is one more good
    one. *)
Lemma pres_beginKeyExchange keys salt id c :
  hc_inv c -> (findStream id c = None -> Sl (om_insert id (assignPlayerIndex c) (slots c))) ->
  wlp (beginKeyExchange keys salt id) (fun o c' => hc_inv c' /\ Forall sealed_out o) c.
Proof.
  intros Hc Hsl. unfold beginKeyExchange. change (wlp (readF ?k) ?Q c) with (wlp (k c) Q c). cbv beta.
  destruct (findStream id c) eqn:Hfd; [by apply pres_done|].
  destruct keys as [kp|]; [|revert c Hc Hsl Hfd; intros c Hc _ _; revert c Hc; apply pres_seq; auto with act].
  apply wlp_seq. set (env := mkEnvelope _ _).
  pose proof (callHost_core (HostApp.sendAppMessage id (idCode (env_type env)) (encodeMessage env)) c) as Hcore.
  pose proof (pres_sendApp id env c Hc) as Hs. unfold sendApp in *. revert Hcore Hs. unfold wlp.
  destruct (callHost _ c) as [[o c']| | |]; [|done..].
  intros (E1 & E2 & E3 & E4 & _) [Hc' Ho]. cbn. rewrite app_nil_r. split; [|done].
  apply (inv_put (mkCst id _ false (Some kp) salt None None)); [done| |done|].
  - pose proof (assign_range c). split_and!; cbn; [done|lia..|done|]. by intros [? ?].
  - cbn. unfold slots. rewrite E1. by apply Hsl.
Qed.

Lemma inv_job j c : hc_inv c -> job_ok (length (hc_channels c)) j -> is_Some (hc_host c) -> hc_inv (setJobs (hc_jobs c ++ [j]) c).
Proof. intros [Hs Hf Hj Hl Hcs Hh] Hok [a Ha]. split; cbn; [done|done| |done|done|by rewrite Ha]. apply Forall_app. by split; [|apply Forall_singleton]. Qed.

Lemma pres_startStreamFor cs c :
  hc_inv c -> stream_ok (length (hc_channels c)) (cst_clientId cs, cs) -> is_Some (cst_channel cs) -> is_Some (hc_host c) ->
  findStream (cst_clientId cs) c = Some cs ->
  wlp (startStreamFor cs) (fun o c' => hc_inv c' /\ Forall sealed_out o) c.
Proof.
  intros Hc (Hk & Hp & Hch & Hst) [ch Hcs] Hh Hfd. unfold wlp, startStreamFor, readF. destruct (hc_settings c) as [s|]; [|by split].
  cbv beta iota zeta delta [seqF putStream modifyF callStreamer emitF okF modify emit]. split; [|by apply Forall_singleton]. apply inv_job; [| |done].
  - apply (inv_put (cstStreamer (hc_streamers c) cs) (setStreamers (S (hc_streamers c)) c)).
    + revert Hc. by apply inv_core.
    + split; [done|]. split; [exact Hp|]. split; [exact Hch|]. intros _. by exists ch.
    + done.
    + by apply (slots_same (cstStreamer (hc_streamers c) cs) cs c).
  - exists ch. split; [done|]. by apply Hch.
Qed.

Lemma stream_ok_grow n m kv : (n <= m)%nat -> stream_ok n kv -> stream_ok m kv.
Proof. intros Hle (H1 & H2 & H3 & H4). split; [done|]. split; [done|]. split; [|done]. intros ch Hch. specialize (H3 ch Hch). lia. Qed.
Lemma job_ok_grow n m j : (n <= m)%nat -> job_ok n j -> job_ok m j.
Proof. intros Hle (ch & H1 & H2). exists ch. split; [done|lia]. Qed.

Lemma inv_channel ch c : hc_inv c -> Cs (hc_channels c ++ [ch]) -> hc_inv (setChannels (hc_channels c ++ [ch]) c).
Proof.
  intros [Hs Hf Hj Hl _ Hh] Hcs. split; cbn; [done| | |done|done|done]; rewrite ?length_app; cbn.
  - eapply List.Forall_impl; [|exact Hf]. intros kv. apply stream_ok_grow. lia.
  - eapply List.Forall_impl; [|exact Hj]. intros j. apply job_ok_grow. lia.
Qed.

Lemma put_channel_comm cs chs c :
  setChannels chs (setStreams (om_insert (cst_clientId cs) cs (hc_streams c)) c) =
  setStreams (om_insert (cst_clientId cs) cs (hc_streams c)) (setChannels chs c).
Proof. done. Qed.

(** The keys a message makes the host derive, and whether it succeeds. *)
Definition newKeys (id type : Z) (payload : bytes) (c : HostCoordinator) : option (bool * SecureChannel) :=
  env ← decodeMessage type payload;
  match env_type env, env_body env with
  | IdKeyExchange, BKeyExchange m =>
      cs ← findStream id c; kp ← cst_ecdh cs;
      if cst_keysReady cs then None
      else Some (finish kp (cst_ourSalt cs) (kx_publicKey m) (kx_salt m) (hc_code c) true newChannel)
  | _, _ => None
  end.

(** The channel a call makes is as it should be. *)
Definition call_ok (q : QtCall) (c : HostCoordinator) : Prop :=
  match q with
  | QAppMessage id type payload => forall ok ch, newKeys id type payload c = Some (ok, ch) -> Cs (hc_channels c ++ [ch])
  | _ => True
  end.

Lemma inv_handleAppMessage id type payload c :
  hc_inv c -> call_ok (QAppMessage id type payload) c ->
  wlp (handleAppMessage mvk id type payload) (fun o c' => hc_inv c' /\ Forall sealed_out o) c.
Proof.
  cbn [call_ok]. unfold newKeys. intros Hc Hnew. unfold handleAppMessage. change (wlp (readF ?k) ?Q c) with (wlp (k c) Q c). cbv beta.
  destruct (decodeMessage type payload) as [env|]; [|by apply pres_done]. cbn [mbind option_bind] in Hnew.
  destruct (env_type env); try by apply pres_done.
  - destruct (findStream id c) as [cs|]; [|by apply pres_done]. clear Hnew. revert c Hc. apply pres_seq; [by apply pres_ifStreamer|apply pres_disconnectPlayer].
  - destruct (findStream id c) as [cs|]; [|by apply pres_done]. by apply pres_ifStreamer.
  - destruct (findStream id c) as [cs|] eqn:Hcs; [|by apply pres_done].
    destruct (inv_find _ _ _ Hc Hcs) as [(Hk & Hp & Hch & Hst) Hh]. cbn [fst snd] in *.
    destruct (env_body env) as [ | | | | | | | | | | | | | |m| ]; try by apply pres_done.
    cbn [mbind option_bind] in Hnew. destruct (cst_ecdh cs) as [kp|]; [|by apply pres_done]. cbn [mbind option_bind] in Hnew.
    destruct (cst_keysReady cs); [by apply pres_done|].
    destruct (finish _ _ _ _ _ _ _) as [ok ch]. specialize (Hnew _ _ eq_refl).
    apply wlp_seq, wlp_modify, wlp_seq, wlp_modify. cbv beta. rewrite put_channel_comm.
    apply (wlp_mono _ (fun o c' => hc_inv c' /\ Forall sealed_out o)); [done|].
    assert (Hinv : hc_inv (setStreams (om_insert (cst_clientId (cstChannel (length (hc_channels c)) cs)) (cstChannel (length (hc_channels c)) cs)
                             (hc_streams c)) (setChannels (hc_channels c ++ [ch]) c))).
    { apply (inv_put _ (setChannels (hc_channels c ++ [ch]) c)); [by apply inv_channel| |done|].
      2: { apply (slots_same (cstChannel (length (hc_channels c)) cs) cs c); [done|cbn; by rewrite Hk|done]. }
      cbn [hc_channels setChannels]. rewrite length_app. cbn. split; [done|]. split; [done|]. split; [|by eexists]. cbn. intros ch' [= <-]. lia. }
    clear Hnew. destruct ok; cbn [negb]; revert Hinv; [apply pres_sendApp|apply pres_seq; auto with act].
  - destruct (findStream id c) as [cs|] eqn:Hcs; [|by apply pres_done].
    destruct (inv_find _ _ _ Hc Hcs) as [(Hk & Hp & Hch & Hst) Hh]. cbn [fst snd] in *.
    destruct (cst_channel cs) as [ch|] eqn:Ech; [|by apply pres_done].
    assert (Hok : stream_ok (length (hc_channels c)) (cst_clientId (cstReady cs), cstReady cs)) by (split; [done|]; split; [done|]; cbn; rewrite Ech; done).
    apply wlp_seq, wlp_modify. cbv beta. apply (wlp_mono _ (fun o c' => hc_inv c' /\ Forall sealed_out o)); [done|].
    apply pres_startStreamFor; [|done|cbn; by rewrite Ech|done|apply om_lookup_insert_eq].
    apply (inv_put (cstReady cs)); [done..|]. apply (slots_same (cstReady cs) cs c); [done|cbn; by rewrite Hk|done].
Qed.

Lemma om_erase_elem {V} k (kv : Z * V) m : kv ∈ om_erase k m -> kv ∈ m.
Proof. unfold om_erase. intros Hin. apply list_elem_of_In, filter_In in Hin as [Hin _]. by apply list_elem_of_In. Qed.

Lemma inv_erase id c : hc_inv c -> hc_inv (setStreams (om_erase id (hc_streams c)) c).
Proof.
  intros [Hs Hf Hj Hl Hcs Hh]. split; unfold slots; cbn [hc_streams hc_jobs hc_channels hc_host setStreams];
    [by apply om_erase_sorted| |done|rewrite slots_erase; by apply Sl_erase|done|].
  - rewrite list.Forall_forall in *. intros kv Hkv. by apply Hf, (om_erase_elem id).
  - intros E. destruct (Hh E) as [-> ->]. done.
Qed.

Lemma pres_teardownClient id : pres (teardownClient mvk id).
Proof.
  apply pres_read_all. intros c _. destruct (findStream id c) as [cs|]; [|apply pres_done].
  apply pres_seq; [by apply pres_ifStreamer|]. apply pres_seq; [apply pres_disconnectPlayer|]. apply pres_seq; [|apply pres_signal].
  apply pres_modify. intros c'. apply inv_erase.
Qed.
Hint Resolve pres_teardownClient : act.

Lemma pres_streamDone ok err id player : pres (streamDone ok err id player).
Proof.
  unfold streamDone. destruct (negb ok); [auto with act|]. apply pres_seq; [|apply pres_signal].
  apply pres_read_all. intros c _. destruct (findStream id c); [by apply pres_ifStreamer|apply pres_done].
Qed.

Lemma pres_streamerError running id msg : pres (streamerError mvk running id msg).
Proof.
  unfold streamerError. apply pres_seq; [apply pres_signal|]. apply pres_read_all. intros c _.
  destruct (findStream id c) as [cs|]; [|apply pres_done]. destruct (cst_streamer cs); [|apply pres_done].
  destruct running; [apply pres_done|]. apply pres_seq; [by apply pres_call|apply pres_disconnectPlayer].
Qed.

Lemma pres_inputPermissions target addRc id perms : pres (inputPermissions mvk target addRc id perms).
Proof.
  apply pres_read_all. intros c _. destruct (findStream id c) as [cs|]; [|apply pres_done].
  apply pres_seq; [apply pres_callInjector|]. destruct (cst_streamer cs); [|apply pres_done].
  destruct (perm_controller perms); [|apply pres_done]. apply pres_seq; [core|apply pres_callInjector].
Qed.
Hint Resolve pres_streamDone pres_streamerError pres_inputPermissions : act.

(** The calls that may begin an exchange. *)
Definition begins (q : QtCall) : Prop :=
  match q with QClientUpdated row => row_state row = Connected | _ => False end.

Lemma inv_runCall io q c :
  ~ begins q -> hc_inv c -> call_ok q c -> wlp (runCall mvk io q) (fun o c' => hc_inv c' /\ Forall sealed_out o) c.
Proof.
  intros Hq Hc Hk. destruct q; [| | |by apply inv_handleAppMessage|..]; (refine ((_ : pres _) c Hc)); cbn [runCall]; auto with act.
  - unfold clientUpdated. apply pres_seq; [|apply pres_signal]. rewrite bool_decide_false by done.
    destruct (bool_decide _); auto with act.
  - apply pres_seq; [|apply pres_signal]. apply pres_read_all. auto with act.
Qed.

(** ** Stopping *)

(** Nobody connected and no worker left. *)
Definition vacant (c : HostCoordinator) : Prop := hc_streams c = [] /\ hc_jobs c = [].

Definition vacated (c : HostCoordinator) : Prop := vacant c /\ Cs (hc_channels c).

Lemma vacant_inv c : vacated c -> hc_inv c.
Proof. intros [[E1 E2] Hcs]. split; unfold slots; rewrite ?E1, ?E2; [constructor|by apply Forall_nil_2..|done|done|done]. Qed.

Lemma vacant_pres f : (forall c, hc_streams (f c) = hc_streams c /\ hc_jobs (f c) = hc_jobs c /\ hc_channels (f c) = hc_channels c) ->
  preserves vacated sealed_out (modifyF f).
Proof. intros Hf. apply pres_modify. intros c. unfold vacated, vacant. destruct (Hf c) as (-> & -> & ->). done. Qed.

Ltac vac := apply vacant_pres; intros ?; by split_and!.

Lemma vacant_signal u : preserves vacated sealed_out (signal u).
Proof. by apply pres_emit, Forall_singleton. Qed.

Lemma vacant_ifHost f : preserves vacated sealed_out (ifHost f).
Proof.
  apply pres_read_all. intros c _. destruct (hc_host c); [|apply pres_done]. apply pres_read_all. intros c' _.
  destruct (hc_host c') as [a|]; [|apply pres_null]. destruct (f a) as [os a'].
  apply pres_seq; [vac|]. apply pres_seq; [vac|]. apply pres_emit. unfold netOf. by apply Forall_fmap, list.Forall_forall.
Qed.

Lemma pres_jobs js io : Forall (fun j => sealed (jb_channel j)) js -> pres (forF js (fun j => runJob isAddress j (sp_jobs io (jb_streamer j)))).
Proof.
  induction 1 as [|j js Hj _ IH]; cbn [forF]; [apply pres_done|]. apply pres_seq; [by apply pres_runJob|exact IH].
Qed.

(** All that the stop does, when it ends: what the runs of its parts keep. *)
Lemma stop_vacates io c : hc_inv c ->
  wlp (stop mvk isAddress io) (fun o c' => (vacated c' /\ hc_host c' = None) /\ Forall sealed_out o) c.
Proof.
  intros Hc. unfold stop. eapply pres_then; [|exact Hc|]; [core|]. intros c1 Hc1.
  eapply pres_then; [|exact Hc1|].
  { apply pres_read_all. intros c' _. apply pres_for. intros kv. apply pres_seq; [by apply pres_ifStreamer|apply pres_disconnectPlayer]. }
  intros c2 Hc2. eapply pres_then; [|exact Hc2|].
  { apply pres_read. intros c' Hc'. apply pres_jobs; [|done]. eapply List.Forall_impl; [|apply (inv_jobs _ Hc')].
    intros j. by apply inv_sealed. }
  intros c3 Hc3. apply wlp_seq, wlp_modify, wlp_seq, wlp_modify. cbv beta.
  apply (wlp_mono _ (fun o c' => (vacated c' /\ hc_host c' = None) /\ Forall sealed_out o)); [done|].
  assert (Hv : vacated (setStreams [] (setJobs [] c3))) by (split; [done|by apply (inv_channels _ Hc3)]).
  revert Hv. generalize (setStreams [] (setJobs [] c3)). clear. intros c Hv.
  eapply pres_then; [apply vacant_ifHost|exact Hv|]. intros c1 Hv1. apply wlp_seq, wlp_modify. cbv beta.
  assert (Hv2 : vacated (setHost None c1) /\ hc_host (setHost None c1) = None) by done. revert Hv2. generalize (setHost None c1). clear. intros c Hv.
  revert c Hv. change (preserves (fun c => vacated c /\ hc_host c = None) sealed_out
    (closeSignaling ;! modifyF (setUi defaultUi) ;! signal StateChanged)).
  apply pres_seq; [by apply pres_closeSignaling|apply pres_seq; [by apply pres_modify|by apply pres_emit, Forall_singleton]].
Qed.

(** ** The other steps *)

Ltac vseq := first [apply pres_seq; [first [vac | apply vacant_signal | apply pres_emit, Forall_singleton; done]|] ].

Lemma vacant_netOf os : preserves vacated sealed_out (emitF (netOf os)).
Proof. apply pres_emit. unfold netOf. by apply Forall_fmap, list.Forall_forall. Qed.

Lemma starts_empty (a b : HcAct) io c :
  hc_inv c -> preserves vacated sealed_out b ->
  wlp (stop mvk isAddress io ;! b) (fun o c' => hc_inv c' /\ Forall sealed_out o) c.
Proof.
  intros Hc Hb. apply wlp_seq. eapply wlp_mono; [|by apply stop_vacates]. cbn. intros o c1 [[Hv _] Ho].
  eapply wlp_mono; [|by apply Hb]. cbn. intros o' c2 [Hv2 Ho2]. split; [by apply vacant_inv|by apply Forall_app].
Qed.

Lemma pres_startLan s userName code bind io : pres (startLan cfg mvk isAddress s userName code bind io).
Proof.
  intros c Hc. unfold startLan. apply starts_empty; [exact doneF|done|]. unfold keepSettings, freshHost, freshAbr.
  do 3 vseq. apply pres_read_all. intros c' _. destruct (hc_host c') as [a|]; [|apply pres_null].
  destruct (HostApp.start _ _ _ _ _ _) as [ok [os a']]. vseq. vseq. apply pres_seq; [apply vacant_netOf|].
  destruct (negb ok); [vac|]. do 6 vseq. apply vacant_signal.
Qed.

Lemma pres_startInternet s address port outcome closed reg io :
  pres (startInternet cfg mvk isAddress s address port outcome closed reg io).
Proof.
  intros c Hc. unfold startInternet. apply starts_empty; [exact doneF|done|]. unfold keepSettings, freshHost, freshAbr.
  do 4 vseq. destruct (connect _ _) as [[[] sc]| |]; try apply pres_terminate; [|vseq; by apply pres_resetSignaling].
  do 2 vseq. destruct reg as [r|]; [|by apply pres_resetSignaling]. do 9 vseq. apply vacant_signal.
Qed.

Lemma pres_stop io : pres (stop mvk isAddress io).
Proof.
  intros c Hc. eapply wlp_mono; [|by apply stop_vacates]. cbn. intros o c' [[Hv _] Ho]. split; [by apply vacant_inv|done].
Qed.

Lemma pres_onStatsTimer stats : pres (onStatsTimer th stats).
Proof.
  apply pres_read_all. intros c _. destruct (hc_host c); [|apply pres_done]. destruct (gather _ _ _ _) as [link ui].
  apply pres_seq; [core|]. apply pres_seq.
  - destruct link as [l|]; [|apply pres_done]. destruct (hc_abrEnabled c); [|apply pres_done].
    destruct (AdaptiveBitrate.update _ _ _) as [[next abr]|]; [|apply pres_undefined]. apply pres_seq; [core|].
    destruct next; [by apply pres_forStreamers|apply pres_done].
  - apply pres_seq; [|apply pres_signal]. apply pres_read_all. intros c' _.
    destruct (match link with Some l => l | None => _ end) as [[rtt loss] jitter]. core.
Qed.

Lemma inv_delete k c : hc_inv c -> hc_inv (setJobs (delete k (hc_jobs c)) c).
Proof.
  intros [Hs Hf Hj Hl Hcs Hh]. split; cbn [hc_streams hc_jobs hc_channels hc_host setJobs]; [done|done| |done|done|].
  - by apply Forall_delete.
  - intros E. destruct (Hh E) as [-> ->]. done.
Qed.

Lemma pres_worker k io : pres (worker isAddress k io).
Proof.
  apply pres_read. intros c Hc. destruct (hc_jobs c !! k) as [j|] eqn:Ej; [|by apply pres_done].
  assert (Hj : job_ok (length (hc_channels c)) j).
  { pose proof (inv_jobs _ Hc) as Hj. rewrite list.Forall_forall in Hj. apply Hj. by eapply list_elem_of_lookup_2. }
  apply wlp_seq, wlp_modify. cbv beta. apply (wlp_mono _ (fun o c' => hc_inv c' /\ Forall sealed_out o)); [done|].
  apply pres_runJob; [by eapply inv_sealed|]. by apply inv_delete.
Qed.

Lemma pres_vibration target lm rm : pres (vibration target lm rm).
Proof.
  apply pres_read_all. intros c _. apply pres_for. intros e. destruct e as [| |player l r]; try apply pres_done.
  destruct (hc_rumble c); [|apply pres_done]. destruct (findStream _ c) as [cs|]; [|apply pres_done].
  destruct (cst_streamer cs); [by apply pres_call|apply pres_null].
Qed.

(** The step that begins an exchange. *)
Definition beginning (e : HcEvent) (c : HostCoordinator) : Prop :=
  match e, hc_queue c with HcDispatch _, q :: _ => begins q | _, _ => False end.

#[export] Instance begins_dec q : Decision (begins q).
Proof. destruct q; cbn; apply _. Defined.
#[export] Instance beginning_dec e c : Decision (beginning e c).
Proof. unfold beginning. destruct e; try apply _. destruct (hc_queue c); apply _. Defined.

(** The channel made by a step that exchanges keys is as it should be. *)
Definition exchange_ok (e : HcEvent) (c : HostCoordinator) : Prop :=
  match e, hc_queue c with HcDispatch _, q :: _ => call_ok q c | _, _ => True end.

Lemma step_inv e c : hc_inv c -> ~ beginning e c -> exchange_ok e c -> wlp (step e) (fun o c' => hc_inv c' /\ Forall sealed_out o) c.
Proof.
  intros Hc Hb Hx. destruct e; cbn [hcStep].
  - by apply pres_startLan.
  - by apply pres_startInternet.
  - by apply pres_stop.
  - by apply pres_ifHost.
  - apply pres_read_all; [|done]. intros c' _. destruct (hc_host c'); [|apply pres_done]. auto with act.
  - by apply pres_ifHost.
  - revert c Hc Hb Hx. intros c Hc _ _. revert c Hc. unfold HostCoordinator.setManualBitrate. apply pres_seq; [core|]. apply pres_seq; [core|].
    apply pres_seq; [by apply pres_forStreamers|]. apply pres_seq; [core|apply pres_signal].
  - apply pres_modify; [|done]. intros c'. by apply inv_core.
  - apply pres_seq; [by apply pres_forStreamers|apply pres_signal|done].
  - apply pres_seq; [by apply pres_forStreamers|apply pres_signal|done].
  - apply pres_read_all; [|done]. intros c' _. destruct (hc_timer c'); [apply pres_onStatsTimer|apply pres_done].
  - unfold beginning, exchange_ok in *. change (wlp (dispatch mvk io) ?Q c) with (wlp ((fun c => match hc_queue c with [] => doneF | q :: qs =>
      modifyF (setQueue qs) ;! runCall mvk io q end) c) Q c). cbv beta. destruct (hc_queue c) as [|q qs]; [by apply pres_done|].
    apply wlp_seq, wlp_modify. cbv beta. apply (wlp_mono _ (fun o c' => hc_inv c' /\ Forall sealed_out o)); [done|].
    apply inv_runCall; [done|revert Hc; by apply inv_core|]. by destruct q.
  - by apply pres_ifHost.
  - by apply pres_worker.
  - by apply pres_post.
  - apply pres_read_all; [|done]. intros c' _. destruct (announces c'); [apply pres_post|apply pres_done].
  - apply pres_read_all; [|done]. intros c' _. destruct (announces c'); [apply pres_post|apply pres_done].
  - apply pres_modify; [|done]. intros c'. by apply inv_core.
  - by apply pres_callInjector.
  - by apply pres_vibration.
Qed.

(** The step that begins one, given that the new slot is good. *)
Lemma begin_inv io row qs c :
  hc_inv c -> hc_queue c = QClientUpdated row :: qs ->
  (findStream (row_id row) c = None -> Sl (om_insert (row_id row) (assignPlayerIndex c) (slots c))) ->
  wlp (step (HcDispatch io)) (fun o c' => hc_inv c' /\ Forall sealed_out o) c.
Proof.
  intros Hc Hq Hsl. cbn [hcStep]. change (wlp (dispatch mvk io) ?Q c) with (wlp ((fun c => match hc_queue c with [] => doneF | q :: qs =>
      modifyF (setQueue qs) ;! runCall mvk io q end) c) Q c). cbv beta. rewrite Hq. cbn [runCall]. unfold clientUpdated.
  apply wlp_seq, wlp_modify. cbv beta. apply (wlp_mono _ (fun o c' => hc_inv c' /\ Forall sealed_out o)); [done|].
  assert (Hc' : hc_inv (setQueue qs c)) by (revert Hc; by apply inv_core).
  apply wlp_seq. destruct (bool_decide (row_state row = Connected)).
  - eapply wlp_mono; [|by apply pres_beginKeyExchange]. cbn. intros o c1 [H1 Ho]. split; [done|]. apply Forall_app. by split; [|apply Forall_singleton].
  - assert (G : pres (if bool_decide (row_state row = Disconnected) then teardownClient mvk (row_id row) else doneF))
      by (destruct (bool_decide _); auto with act).
    eapply wlp_mono; [|by apply G]. cbn. intros o c1 [H1 Ho]. split; [done|]. apply Forall_app. by split; [|apply Forall_singleton].
Qed.

End Spec.

(** * Runs *)

Section Runs.
Context `{CNG} (cfg : Config) (th : Thresholds) (mvk : Z -> Z) (isAddress : bytes -> bool).

Local Abbreviation step := (hcStep cfg th mvk isAddress).
Local Abbreviation run := (hcRun cfg th mvk isAddress).
Local Abbreviation inv := (hc_inv (fun _ => True) (fun _ => True)).
Local Abbreviation sealed_any := (sealed_out (fun _ => True)).

(** A step keeps the invariant with any property of the channels that the channel
    it makes, if it makes one, has. *)
Lemma step_chan (Cs : list SecureChannel -> Prop) (Ok : nat -> Prop) e c :
  (forall chs n, Cs chs -> (n < length chs)%nat -> Ok n) -> hc_inv (fun _ => True) Cs c -> exchange_ok Cs e c ->
  wlp (step e) (fun o c' => hc_inv (fun _ => True) Cs c' /\ Forall (sealed_out Ok) o) c.
Proof.
  intros Hcs Hc Hx. destruct (decide (beginning e c)) as [D|D]; [|by apply (step_inv cfg th mvk isAddress (fun _ => True))].
  unfold beginning in D. destruct e; try done. destruct (hc_queue c) as [|q qs] eqn:Hq; [done|]. destruct q; try done.
  by eapply (begin_inv cfg th mvk isAddress (fun _ => True)).
Qed.

(** ... and needs no more when the property survives any new channel. *)
Lemma exchange_any (Cs : list SecureChannel -> Prop) e c :
  (forall chs ch, Cs chs -> Cs (chs ++ [ch])) -> Cs (hc_channels c) -> exchange_ok Cs e c.
Proof. intros Hcs Hc. unfold exchange_ok, call_ok. destruct e; try done. destruct (hc_queue c) as [|[] ?]; auto. Qed.

Lemma step_inv_any e c : inv c -> wlp (step e) (fun o c' => inv c' /\ Forall sealed_any o) c.
Proof. intros Hc. apply step_chan; [done|done|by apply exchange_any]. Qed.

Lemma run_inv es c : inv c -> wlp (run es) (fun o c' => inv c' /\ Forall sealed_any o) c.
Proof.
  assert (G : preserves inv sealed_any (run es)); [|by apply G].
  apply pres_for. intros e c'. apply step_inv_any.
Qed.

Lemma new_inv (Sl : list (Z * Z) -> Prop) (Cs : list SecureChannel -> Prop) i : Sl [] -> Cs [] -> hc_inv Sl Cs (newCoordinator cfg i).
Proof. intros HS HC. by apply vacant_inv. Qed.

Lemma run_cons e es c :
  run (e :: es) c = match step e c with
                    | Done (o, c1) => match run es c1 with
                                      | Done (o', c2) => Done (o ++ o', c2)
                                      | NullDeref => NullDeref | Terminate => Terminate | Undefined => Undefined
                                      end
                    | NullDeref => NullDeref | Terminate => Terminate | Undefined => Undefined
                    end.
Proof. done. Qed.

(** ** The slots *)

Definition distinct (m : list (Z * Z)) : Prop := NoDup (snd <$> m).

Lemma distinct_erase id m : distinct m -> distinct (om_erase id m).
Proof.
  unfold distinct, om_erase. induction m as [|[k v] m IH]; [done|]. rewrite fmap_cons. intros [Hn Hd]%list.NoDup_cons.
  cbn [List.filter fst]. destruct (negb (k =? id)); [|by apply IH]. rewrite fmap_cons. apply list.NoDup_cons. split; [|by apply IH].
  cbn [snd] in *. intros Hin. apply Hn. apply list_elem_of_fmap in Hin as (kv & E & Hkv). apply list_elem_of_fmap.
  exists kv. split; [done|]. by apply (om_erase_elem id).
Qed.

Lemma om_insert_perm {V} k (v : V) m : om_lookup k m = None -> om_insert k v m ≡ₚ (k, v) :: m.
Proof.
  induction m as [|[k' v'] m IH]; cbn [om_lookup om_insert]; [done|]. destruct (Z.eqb_spec k k') as [->|Hne]; [done|].
  intros Hl. destruct (k <? k'); [done|]. transitivity ((k', v') :: (k, v) :: m); [apply perm_skip; by apply IH|apply perm_swap].
Qed.

Lemma lookup_slots id c : findStream id c = None -> om_lookup id (slots c) = None.
Proof.
  unfold findStream, slots. induction (hc_streams c) as [|[k v] m IH]; [done|]. rewrite fmap_cons. cbn [om_lookup slotOf fst snd].
  by destruct (id =? k).
Qed.

(** With fewer than four clients the slot assigned is free. *)
Lemma assign_fresh c : (length (hc_streams c) < 4)%nat -> assignPlayerIndex c ∉ (snd <$> slots c).
Proof.
  intros Hlen Hin. unfold assignPlayerIndex in Hin. destruct (List.find _ _) as [i|] eqn:E.
  - apply List.find_some in E as [_ E]. apply negb_true_iff in E. unfold isUsed in E. apply list_elem_of_fmap in Hin as (kv & -> & Hkv).
    apply list_elem_of_fmap in Hkv as (kv' & -> & Hkv'). assert (Ht : existsb (fun kv => cst_playerIndex (snd kv) =? snd (slotOf kv')) (hc_streams c) = true);
      [|congruence]. apply existsb_exists. exists kv'. split; [by apply list_elem_of_In|]. apply Z.eqb_refl.
  - assert (Hall : forall i, i ∈ [0; 1; 2; 3] -> i ∈ (snd <$> slots c)).
    { intros i Hi. pose proof (List.find_none _ _ E i) as Hf. cbv beta in Hf.
      assert (Hu : isUsed i (hc_streams c) = true) by (apply negb_false_iff, Hf; by apply list_elem_of_In).
      unfold isUsed in Hu. apply existsb_exists in Hu as (kv & Hkv & Ei). apply Z.eqb_eq in Ei. apply list_elem_of_fmap. exists (slotOf kv).
      split; [done|]. apply list_elem_of_fmap. exists kv. split; [done|]. by apply list_elem_of_In. }
    assert (Hsub : [0; 1; 2; 3] ⊆+ (snd <$> slots c)).
    { apply NoDup_submseteq; [|exact Hall]. by_decision. }
    apply submseteq_length in Hsub. unfold slots in Hsub. rewrite !length_fmap in Hsub. cbn in Hsub. lia.
Qed.

(** What a step that begins an exchange does to the streams. *)
Lemma begin_streams io row qs c :
  hc_queue c = QClientUpdated row :: qs -> row_state row = Connected -> findStream (row_id row) c = None ->
  wlp (step (HcDispatch io)) (fun _ c' => hc_streams c' = hc_streams c \/ length (hc_streams c') = S (length (hc_streams c))) c.
Proof.
  intros Hq Hst Hfd. unfold wlp. cbn [hcStep]. unfold dispatch, readF. rewrite Hq. cbn [runCall]. unfold clientUpdated.
  rewrite bool_decide_true by done. unfold beginKeyExchange, readF, seqF, modifyF, okF, modify.
  change (findStream (row_id row) (setQueue qs c)) with (findStream (row_id row) c). rewrite Hfd.
  assert (G : forall f c1, match callHost f c1 with Done (_, c2) => hc_streams c2 = hc_streams c1 | _ => True end).
  { intros f c1. pose proof (callHost_core f c1) as Hc. unfold wlp in Hc. destruct (callHost f c1) as [[o c2]| | |]; try done. by destruct Hc. }
  destruct (qi_keys io) as [kp|]; cbn [signal emitF okF emit].
  - unfold sendApp. set (f := HostApp.sendAppMessage _ _ _). specialize (G f (setQueue qs c)).
    destruct (callHost f (setQueue qs c)) as [[o c2]| | |]; try done. right. cbn. cbn in G. rewrite G.
    assert (Hi : om_lookup (row_id row) (hc_streams c) = None) by exact Hfd.
    by rewrite (om_insert_perm _ _ _ Hi).
  - set (f := HostApp.kick _). specialize (G f (setQueue qs c)).
    destruct (callHost f (setQueue qs c)) as [[o c2]| | |]; try done. left. cbn. exact G.
Qed.

Lemma inv_with (Sl : list (Z * Z) -> Prop) c : inv c -> Sl (slots c) -> hc_inv Sl (fun _ => True) c.
Proof. intros []. by split. Qed.

(** One step keeps the slots apart, as long as no fifth client is held. *)
Lemma step_distinct e c o c' :
  inv c -> distinct (slots c) -> step e c = Done (o, c') -> (length (hc_streams c') <= 4)%nat -> distinct (slots c').
Proof.
  intros Hc Hd E Hlen. pose proof (inv_with distinct c Hc Hd) as Hi.
  assert (Hnil : distinct []) by constructor.
  assert (G : wlp (step e) (fun o c' => hc_inv distinct (fun _ => True) c' /\ Forall sealed_any o) c -> distinct (slots c')).
  { unfold wlp. rewrite E. intros [Hi' _]. by apply (inv_slots _ _ _ Hi'). }
  destruct (decide (beginning e c)) as [D|D]; [|apply G, (step_inv cfg th mvk isAddress distinct); [done|apply distinct_erase|done|done|done|by apply exchange_any]].
  unfold beginning in D. destruct e; try done. destruct (hc_queue c) as [|q qs] eqn:Hq; [done|]. destruct q; try done.
  destruct (findStream (row_id row) c) eqn:Hfd.
  { eapply G, (begin_inv cfg th mvk isAddress distinct); [apply distinct_erase|done|exact Hq|]. intros Hn. congruence. }
  destruct (decide (length (hc_streams c) < 4)%nat) as [Hlt|Hge].
  - eapply G, (begin_inv cfg th mvk isAddress distinct); [apply distinct_erase|done|exact Hq|]. intros _. unfold distinct.
    rewrite (om_insert_perm _ _ _ (lookup_slots _ _ Hfd)), fmap_cons. apply list.NoDup_cons. split; [by apply assign_fresh|done].
  - pose proof (begin_streams io row qs c Hq D Hfd) as Hs. unfold wlp in Hs. rewrite E in Hs.
    destruct Hs as [Hs|Hs]; [|lia]. unfold slots. by rewrite Hs.
Qed.

(** ** The keys *)

(** What [handleAppMessage] tells the user when the agreement fails. *)
Definition agreementFailed : HcOut := OutUi (ErrorOccurred (str "Key exchange failed for a player; disconnecting them.")).

Lemma finish_active kp salt pub psalt code host s ch : finish kp salt pub psalt code host s = (true, ch) -> sc_active ch = true.
Proof. unfold finish. cbv zeta. intros Hf. repeat (break_hyp Hf; try done); by injection Hf as <-. Qed.

(** The step that derives keys keeps them, and says so when it fails. *)
Lemma exchange_handle id type payload c ok ch :
  newKeys id type payload c = Some (ok, ch) ->
  wlp (handleAppMessage mvk id type payload)
    (fun o c' => hc_channels c' = hc_channels c ++ [ch] /\ (ok = false -> agreementFailed ∈ o)) c.
Proof.
  unfold newKeys, handleAppMessage. intros Hn. change (wlp (readF ?k) ?Q c) with (wlp (k c) Q c). cbv beta. revert Hn.
  destruct (decodeMessage type payload) as [env|]; [|done]. cbn [mbind option_bind].
  destruct (env_type env); try done. destruct (env_body env); try done. destruct (findStream id c) as [cs|]; [|done].
  cbn [mbind option_bind]. destruct (cst_ecdh cs); [|done]. cbn [mbind option_bind]. destruct (cst_keysReady cs); [done|].
  intros [= ->]. apply wlp_seq, wlp_modify, wlp_seq, wlp_modify. cbn [app]. set (c2 := setChannels _ _).
  assert (G : forall f, wlp (callHost f) (fun _ c' => hc_channels c' = hc_channels c ++ [ch]) c2).
  { intros f. eapply wlp_mono; [|apply callHost_core]. cbv beta. by intros o c' (_ & _ & -> & _). }
  destruct ok; cbn [negb].
  - eapply wlp_mono; [|apply G]. cbv beta. by split.
  - apply wlp_seq, wlp_emit. eapply wlp_mono; [|apply G]. cbv beta. intros o c' Hc'. split; [done|]. intros _. apply list_elem_of_here.
Qed.

Lemma exchange_step io id type payload qs c ok ch :
  hc_queue c = QAppMessage id type payload :: qs -> newKeys id type payload c = Some (ok, ch) ->
  wlp (step (HcDispatch io)) (fun o c' => hc_channels c' = hc_channels c ++ [ch] /\ (ok = false -> agreementFailed ∈ o)) c.
Proof.
  intros Hq Hn. cbn [hcStep]. unfold dispatch. change (wlp (readF ?k) ?Q c) with (wlp (k c) Q c). cbv beta. rewrite Hq.
  by apply wlp_seq, wlp_modify, (exchange_handle _ _ _ (setQueue qs c)).
Qed.

(** Up to [N] channels, active if all is well. *)
Definition keyedTo (N : nat) (good : Prop) (chs : list SecureChannel) : Prop :=
  (length chs <= N)%nat /\ (good -> Forall (fun ch => sc_active ch = true) chs).

Lemma step_grows e c : inv c -> wlp (step e) (fun _ c' => (length (hc_channels c) <= length (hc_channels c'))%nat) c.
Proof.
  intros []. set (Cs := fun chs : list SecureChannel => (length (hc_channels c) <= length chs)%nat).
  assert (Hcs : Cs (hc_channels c)) by (unfold Cs; lia).
  eapply wlp_mono; [|apply (step_chan Cs (fun _ => True)); [done|by split|apply exchange_any; [|done]]].
  - cbv beta. intros o c' [Hc' _]. by apply (inv_channels _ _ _ Hc').
  - intros chs ch. unfold Cs. rewrite length_app. lia.
Qed.

Lemma run_grows es c : inv c -> wlp (run es) (fun _ c' => (length (hc_channels c) <= length (hc_channels c'))%nat) c.
Proof.
  revert c. induction es as [|e es IH]; intros c Hc; [by apply wlp_done|]. apply wlp_seq.
  pose proof (step_inv_any e c Hc) as Hi. pose proof (step_grows e c Hc) as Hg. unfold wlp at 1. unfold wlp in Hi, Hg.
  destruct (step e c) as [[o c1]| | |]; try done. destruct Hi as [Hc1 _]. eapply wlp_mono; [|by apply IH]. cbv beta. intros. lia.
Qed.

Lemma inv_forget Cs c : hc_inv (fun _ => True) Cs c -> inv c.
Proof. intros []. by split. Qed.

Lemma step_keyed N (good : Prop) e c o c' :
  hc_inv (fun _ => True) (keyedTo N good) c -> step e c = Done (o, c') -> (good -> agreementFailed ∉ o) ->
  (length (hc_channels c') <= N)%nat ->
  hc_inv (fun _ => True) (keyedTo N good) c' /\ Forall (sealed_out (fun n => (n < N)%nat)) o.
Proof.
  intros Hc E Hg Hlen. pose proof (step_chan (keyedTo N good) (fun n => (n < N)%nat) e c) as S. unfold wlp in S. rewrite E in S.
  apply S; [intros chs n [Hl _]; lia|done|]. unfold exchange_ok, call_ok. destruct e; try done.
  destruct (hc_queue c) as [|[] qs] eqn:Hq; try done. intros ok ch Hn.
  pose proof (exchange_step io _ _ _ _ _ _ _ Hq Hn) as X. unfold wlp in X. rewrite E in X. destruct X as [X1 X2]. rewrite X1 in Hlen.
  split; [done|]. intros G. apply Forall_app. split; [by apply (inv_channels _ _ _ Hc)|]. apply Forall_singleton.
  destruct ok; [|by destruct (Hg G (X2 eq_refl))]. revert Hn. unfold newKeys.
  destruct (decodeMessage _ _) as [env|]; [|done]. cbn [mbind option_bind]. destruct (env_type env); try done. destruct (env_body env); try done.
  destruct (findStream _ _) as [cs|]; [|done]. cbn [mbind option_bind]. destruct (cst_ecdh cs); [|done]. cbn [mbind option_bind].
  destruct (cst_keysReady cs); [done|]. intros [= Hf]. by eapply finish_active.
Qed.

Lemma run_keyed N (good : Prop) es c0 outs c :
  hc_inv (fun _ => True) (keyedTo N good) c0 -> run es c0 = Done (outs, c) -> (good -> agreementFailed ∉ outs) ->
  (length (hc_channels c) <= N)%nat ->
  hc_inv (fun _ => True) (keyedTo N good) c /\ Forall (sealed_out (fun n => (n < N)%nat)) outs.
Proof.
  revert c0 outs. induction es as [|e es IH]; intros c0 outs Hc E Hg Hlen; [by injection E as <- <-|].
  rewrite run_cons in E. destruct (step e c0) as [[o c1]| | |] eqn:E1; try done.
  destruct (run es c1) as [[o' c2]| | |] eqn:E2; try done. injection E as <- <-.
  assert (Hg' : good -> agreementFailed ∉ o /\ agreementFailed ∉ o') by (intros G; by apply not_elem_of_app, Hg).
  pose proof (step_inv_any e c0 (inv_forget _ _ Hc)) as Hi. unfold wlp in Hi. rewrite E1 in Hi. destruct Hi as [Hi _].
  pose proof (run_grows es c1 Hi) as Hgr. unfold wlp in Hgr. rewrite E2 in Hgr.
  destruct (step_keyed N good e c0 o c1 Hc E1) as [Hc1 Ho]; [intros G; by apply Hg'|lia|].
  destruct (IH c1 o' Hc1 E2) as [Hc2 Ho']; [intros G; by apply Hg'|done|]. split; [done|by apply Forall_app].
Qed.

(** ** Theorems *)


(** C13: as long as at most four clients are held at a time, no two of them share a
    player slot, and so a pad, whatever comes and goes in between. *)
Theorem player_slots_distinct injector es outs c
  (E : run es (newCoordinator cfg injector) = Done (outs, c))
  (Hfour : forall k o c', run (take k es) (newCoordinator cfg injector) = Done (o, c') -> (length (hc_streams c') <= 4)%nat) :
  NoDup ((fun kv => cst_playerIndex (snd kv)) <$> hc_streams c).
Proof.
  assert (G : distinct (slots c)); [|unfold distinct, slots in G; by rewrite <- list_fmap_compose in G].
  pose proof (new_inv (fun _ => True) (fun _ => True) injector I I) as Hc. assert (Hd : distinct (slots (newCoordinator cfg injector))) by constructor.
  revert E Hfour Hc Hd. generalize (newCoordinator cfg injector) as c0. revert outs. induction es as [|e es IH]; intros outs c0 E Hfour Hc Hd.
  { by apply pair_equal_spec in E as [_ <-] || (injection E as _ <-). }
  rewrite run_cons in E. destruct (step e c0) as [[o c1]| | |] eqn:E1; try done.
  destruct (run es c1) as [[o' c2]| | |] eqn:E2; try done.
  assert (c2 = c) as -> by (by injection E).
  assert (H1 : (length (hc_streams c1) <= 4)%nat).
  { apply (Hfour 1%nat (o ++ []) c1). cbn [take]. rewrite run_cons, E1. done. }
  eapply (IH o' c1); [done| | |by eapply step_distinct].
  - intros k o2 c' Ek. apply (Hfour (S k) (o ++ o2) c'). cbn [take]. by rewrite run_cons, E1, Ek.
  - pose proof (step_inv_any e c0 Hc) as Hs. unfold wlp in Hs. rewrite E1 in Hs. by destruct Hs.
Qed.

End Runs.

(** * A sample run *)

Section Sample.

Definition sampleLaunch : HostLaunchSettings :=
  mkLaunch (str "Host") (str "Game") CaptureMonitor defaultResolution 60 8000 H264 41717 false defaultInputPermissions 4 0 0 true 128.
Definition sampleCode : bytes := str "ABCD-2345".
Definition sampleBind (p : Z) : option Z := Some 41717.
Definition sampleStop : StopIo := mkSpio [] (fun _ => mkJio false [] 0).
Definition sampleIo : QtIo := mkQio (Some (Toy.keyPair 5)) (replicate 16 9) 100 0 true.
Definition frame (id type : Z) (data : bytes) : HcEvent := HcNetwork (IoFrame 4000000000 id type 0 data).

Definition helloPayload : bytes := encodeMessage (mkEnvelope IdClientHello (BClientHello (mkClientHello (str "ana") sampleCode (str "0.1.1")))).
Definition capsPayload : bytes := encodeMessage (mkEnvelope IdClientCapabilities (BClientCapabilities (mkClientCapabilities [H264]))).
Definition kxPayload : bytes :=
  encodeMessage (mkEnvelope IdKeyExchange (BKeyExchange (mkKeyExchange (kp_publicKey (Toy.keyPair 7)) (replicate 16 3)))).

(** A client joins under the session code and is connected. *)
Definition joinEvents (id conn : Z) : list HcEvent :=
  [HcNetwork (IoAccept 1000 conn (str "10.0.0.2"));
   frame id (idCode IdClientHello) helloPayload; HcNetwork (IoTask 3000000000);
   frame id (idCode IdClientCapabilities) capsPayload].

Definition lanHosting : list HcEvent := [HcStartLan sampleLaunch (str "bob") sampleCode sampleBind sampleStop].

(** Keys are exchanged; the last frame confirms them as a client should. *)
Definition keyEvents (id : Z) (ready : bytes) : list HcEvent :=
  [HcDispatch sampleIo; HcDispatch sampleIo; HcNetwork (IoTask 5000000000); frame id (idCode IdKeyExchange) kxPayload;
   HcDispatch sampleIo; HcNetwork (IoTask 6000000000); frame id (idCode IdSessionKeyReady) ready].

Definition streamEvents (id : Z) : list HcEvent :=
  lanHosting ++ joinEvents id 7 ++ keyEvents id [] ++ [HcDispatch sampleIo; HcWorker 0 (mkJio true [] 50000)].

(** The toy primitives, with a key agreement that always fails. *)
Definition noAgreement : CNG :=
  {| cng_hmac := @cng_hmac Toy.cng; cng_sha256 := @cng_sha256 Toy.cng; cng_raw_secret := fun _ _ => None;
     cng_gcm_encrypt := @cng_gcm_encrypt Toy.cng; cng_gcm_decrypt := @cng_gcm_decrypt Toy.cng;
     cng_ecdh_public_magic := @cng_ecdh_public_magic Toy.cng |}.

Definition startsOf (os : list HcOut) : list (option nat) :=
  omap (fun o => match o with OutStreamer _ (ScStart _ _ _ ch) => Some ch | _ => None end) os.

End Sample.

Abbreviation sampleRun isAddress es :=
  (@hcRun Toy.cng Config.defaultConfig defaultThresholds id isAddress es (newCoordinator Config.defaultConfig newInjector)).


(** A client whose key agreement fails, and who confirmed its keys before the host
    looked: the host reports the failure, has it kicked, and still starts a stream
    for it, on the channel that has no keys. *)
Theorem failed_agreement_starts_a_stream :
  match @hcRun noAgreement Config.defaultConfig defaultThresholds id (fun _ => true)
    (lanHosting ++ joinEvents 1 7 ++
     [HcDispatch sampleIo; HcDispatch sampleIo; HcNetwork (IoTask 5000000000); frame 1 (idCode IdKeyExchange) kxPayload;
      frame 1 (idCode IdSessionKeyReady) []; HcDispatch sampleIo; HcDispatch sampleIo; HcWorker 0 (mkJio true [] 50000)])
    (newCoordinator Config.defaultConfig newInjector) with
  | Done (outs, c) => startsOf outs = [Some 0%nat] /\ (sc_active <$> hc_channels c) = [false] /\
      existsb (fun o => match o with OutUi (ErrorOccurred _) => true | _ => false end) outs = true
  | _ => False
  end.
Proof. vm_compute. by split_and!. Qed.

(** Two clients join before the first one is looked at. *)
Definition twoEvents : list HcEvent :=
  lanHosting ++ joinEvents 1 7 ++ joinEvents 2 8 ++
  [HcDispatch sampleIo; HcDispatch sampleIo; HcDispatch sampleIo; HcDispatch sampleIo].

Lemma player_slots_distinct_witness :
  match sampleRun (fun _ => true) twoEvents with
  | Done (_, c) => length (hc_streams c) = 2%nat /\ NoDup ((fun kv => cst_playerIndex (snd kv)) <$> hc_streams c)
  | _ => False
  end.
Proof.
  assert (S : match sampleRun (fun _ => true) twoEvents with Done (_, c) => length (hc_streams c) = 2%nat | _ => False end)
    by (vm_compute; reflexivity).
  assert (B : forallb (fun k => match sampleRun (fun _ => true) (take k twoEvents) with
                                | Done (_, c) => (length (hc_streams c) <=? 4)%nat | _ => true end) (seq 0 14) = true)
    by (vm_compute; reflexivity).
  destruct (sampleRun (fun _ => true) twoEvents) as [[outs c]| | |] eqn:E; [|done..]. split; [exact S|].
  apply (@player_slots_distinct Toy.cng _ _ _ _ _ _ _ _ E). intros k o c' Ek.
  assert (Et : take k twoEvents = take (Nat.min k 13) twoEvents).
  { destruct (Nat.le_gt_cases k 13) as [Hk|Hk]; [by rewrite Nat.min_l|]. rewrite Nat.min_r by lia.
    rewrite !take_ge; [done|apply Nat.leb_le; reflexivity|]. change (length twoEvents) with 13%nat. lia. }
  rewrite forallb_forall in B. specialize (B (Nat.min k 13)). rewrite <- Et, Ek in B.
  apply Nat.leb_le, B, in_seq. lia.
Defined.
