(* ===== verification/HostCoordinatorRuns.v ===== *)
(** Runs of the host coordinator: which steps can crash it, what its stop leaves,
    and what its client can make of it. *)

From S2P Require Import Prelude Types Double Protocol OrderedMap Calls Config HostSession SessionCodes Crypto SecureChannel AdaptiveBitrate InputProtocol VirtualGamepad InputInjector InputInjectorSpec UdpTransport HostStreamer SignalingClient HostApp HostCoordinator HostCoordinatorSpec.

Open Scope fact_scope.
Open Scope Z_scope.

Section Safe.
Context `{CNG} (cfg : Config) (th : Thresholds) (mvk : Z -> Z) (isAddress : bytes -> bool).

Local Abbreviation step := (hcStep cfg th mvk isAddress).
Local Abbreviation inv := (hc_inv (fun _ => True) (fun _ => True)).

(** * Steps that do not crash *)

(** A worker in internet mode will find the server's address a literal one. *)
Definition job_reachable (j : InitJob) : Prop := jb_internet j = true -> isAddress (jb_serverHost j) = true.
Definition reachable (c : HostCoordinator) : Prop :=
  (rl_internet (hc_relay c) = true -> isAddress (rl_serverHost (hc_relay c)) = true) /\ Forall job_reachable (hc_jobs c).

(** A coordinator that hosts. *)
Definition live (c : HostCoordinator) : Prop := is_Some (hc_host c) /\ reachable c.

Lemma live_core c c' :
  (is_Some (hc_host c) -> is_Some (hc_host c')) -> hc_relay c' = hc_relay c -> hc_jobs c' = hc_jobs c -> live c -> live c'.
Proof. intros E1 E2 E3 [H1 H2]. split; [auto|]. unfold reachable in *. by rewrite E2, E3. Qed.

Ltac livemod := apply total_modify; intros ?; by apply live_core.

Lemma live_callHost f : total live (callHost f).
Proof.
  apply total_read. intros c [[a Ha] Hr]. rewrite Ha. destruct (f a) as [os a'].
  assert (G : total live (modifyF (setHost (Some a')) ;! post (callbacksOf os) ;! emitF (netOf os))); [|by apply G].
  apply total_seq; [apply total_modify; intros c'; by apply live_core|]. apply total_seq; [livemod|apply total_emit].
Qed.
Lemma live_ifHost f : total live (ifHost f).
Proof. apply total_read. intros c Hc. destruct (hc_host c); [by apply live_callHost|by apply total_done]. Qed.
Lemma live_callInjector f : total live (callInjector f).
Proof.
  apply total_read. intros c Hc. destruct (f (hc_injector c)) as [es i].
  assert (G : total live (modifyF (setInjector i) ;! emitF (OutInput <$> es))); [|by apply G].
  apply total_seq; [livemod|apply total_emit].
Qed.
Lemma live_post q : total live (post q).
Proof. livemod. Qed.
Lemma live_ifStreamer p sc : total live (ifStreamer p sc).
Proof. destruct p; [apply total_emit|apply total_done]. Qed.
Lemma live_signal u : total live (signal u).
Proof. apply total_emit. Qed.
Hint Resolve live_callHost live_ifHost live_callInjector live_post live_ifStreamer live_signal : act.

Lemma live_put cs : total live (putStream cs).
Proof. livemod. Qed.
Lemma live_sendApp id msg : total live (sendApp id msg).
Proof. apply live_callHost. Qed.
Lemma live_disconnect p : total live (disconnectPlayer mvk p).
Proof. apply live_callInjector. Qed.
Hint Resolve live_put live_sendApp live_disconnect : act.

Lemma live_forStreamers sc : total live (forStreamers sc).
Proof. apply total_read. intros c Hc. assert (G : total live (forF (hc_streams c) (fun kv : Z * ClientStream => ifStreamer (cst_streamer (snd kv)) sc)))
  by (apply total_for; auto with act). by apply G. Qed.

Lemma live_runJob j io : job_reachable j -> total live (runJob isAddress j io).
Proof.
  intros Hj. unfold runJob. apply total_seq; [apply total_emit|]. apply total_seq; [|apply live_post].
  destruct (ji_ok io); [|apply total_done]. unfold onStreamStart. apply total_seq; [apply live_sendApp|].
  apply total_seq; [|apply live_post]. destruct (jb_internet j) eqn:Ei; [|apply total_done]. rewrite (Hj Ei).
  repeat (apply total_seq; [apply total_emit|]). apply total_emit.
Qed.

(** Reading before a step: the continuation is total from every live state. *)
Lemma total_case (k : HostCoordinator -> HcAct) : (forall c, live c -> total live (k c)) -> total live (readF k).
Proof. intros Hk. apply total_read. intros c Hc. by apply (Hk c Hc). Qed.

Lemma live_begin keys salt id : total live (beginKeyExchange keys salt id).
Proof.
  apply total_case. intros c _. destruct (findStream id c); [apply total_done|]. destruct keys; auto with act.
Qed.

Lemma live_startStreamFor cs : total live (startStreamFor cs).
Proof.
  apply total_case. intros c [_ [Hr _]]. destruct (hc_settings c) as [s|]; [|apply total_done].
  apply total_seq; [livemod|]. apply total_seq; [apply live_put|]. apply total_seq; [apply total_emit|].
  apply total_modify. intros c' [Hh [Hr' Hj']]. split; [done|]. split; [done|]. cbn [hc_jobs setJobs]. apply Forall_app. split; [done|].
  by apply Forall_singleton.
Qed.

Lemma live_handleAppMessage id type payload : total live (handleAppMessage mvk id type payload).
Proof.
  apply total_case. intros c _. destruct (decodeMessage type payload) as [env|]; [|apply total_done].
  destruct (env_type env); try apply total_done; destruct (findStream id c) as [cs|]; try apply total_done; auto with act.
  - destruct (env_body env) as [ | | | | | | | | | | | | | |m| ]; try apply total_done. destruct (cst_ecdh cs) as [kp|]; [|apply total_done].
    destruct (cst_keysReady cs); [apply total_done|]. destruct (finish _ _ _ _ _ _ _) as [ok ch].
    apply total_seq; [apply live_put|]. apply total_seq; [livemod|]. destruct (negb ok); auto with act.
  - destruct (cst_channel cs); [|apply total_done]. apply total_seq; [apply live_put|apply live_startStreamFor].
Qed.

Lemma live_teardown id : total live (teardownClient mvk id).
Proof.
  apply total_case. intros c _. destruct (findStream id c) as [cs|]; [|apply total_done].
  repeat (apply total_seq; [auto with act|]); [livemod|auto with act].
Qed.
Hint Resolve live_begin live_handleAppMessage live_teardown : act.

Lemma live_runCall io q : total live (runCall mvk io q).
Proof.
  destruct q; cbn [runCall]; auto with act.
  - unfold clientUpdated. apply total_seq; [|apply live_signal]. repeat destruct (bool_decide _); auto with act.
  - apply total_case. intros c _. destruct (findStream clientId c) as [cs|]; [|apply total_done]. apply total_seq; [auto with act|].
    destruct (cst_streamer cs); [|apply total_done]. destruct (perm_controller perms); [|apply total_done].
    apply total_seq; [livemod|auto with act].
  - apply total_seq; [|apply live_signal]. apply total_case. auto with act.
  - unfold streamerError. apply total_seq; [auto with act|]. apply total_case. intros c _.
    destruct (findStream clientId c) as [cs|]; [|apply total_done]. destruct (cst_streamer cs); [|apply total_done].
    destruct (qi_running io); [apply total_done|]. apply total_seq; [apply total_emit|auto with act].
  - unfold streamDone. destruct (negb ok); [auto with act|]. apply total_seq; [|auto with act]. apply total_case. intros c _.
    destruct (findStream clientId c); auto with act.
Qed.

Lemma live_jobs js io : Forall job_reachable js -> total live (forF js (fun j => runJob isAddress j (sp_jobs io (jb_streamer j)))).
Proof. induction 1 as [|j js Hj _ IH]; cbn [forF]; [apply total_done|]. apply total_seq; [by apply live_runJob|exact IH]. Qed.

(** ** Stopping *)

Lemma players_disconnect p s x :
  inj_ok s -> x ∈ players (inj_clients (snd (clientDisconnected mvk p s))) -> x ∈ players (inj_clients s) /\ x <> p.
Proof.
  intros Hok. unfold clientDisconnected. rewrite !fin_seq, fin_modify. cbn [inj_clients InputInjector.setClients]. rewrite pad_clients.
  pose proof (step_inj (fun _ => True) _ s (step_release mvk _ p) Hok) as [Hnd _]. revert Hnd. unfold releaseAllKeys.
  destruct (releaseClient mvk (theClient p (inj_clients s))) as [es c] eqn:E. cbn [snd inj_clients InputInjector.setClients]. intros Hnd Hx.
  assert (Hc : pc_playerIndex c = p).
  { destruct Hok as [_ H2]. destruct (releaseClient_spec mvk _ _ _ (H2 p) E) as [(Hp & _) _]. rewrite Hp. apply theClient_player. }
  assert (Hne : x <> p /\ x ∈ players (updClient p (fun _ => c) (inj_clients s))).
  { revert Hx Hnd. generalize (updClient p (fun _ => c) (inj_clients s)). intros cs. clear. unfold players.
    induction cs as [|y cs IH]; cbn [eraseClient]; [by intros ?%not_elem_of_nil|]. rewrite fmap_cons.
    destruct (Z.eqb_spec (pc_playerIndex y) p) as [<-|Hy].
    - intros Hx [Hn _]%list.NoDup_cons. split; [intros ->; done|]. by apply list_elem_of_further.
    - rewrite fmap_cons. intros [->|Hx]%elem_of_cons [_ Hnd]%list.NoDup_cons; [split; [done|apply list_elem_of_here]|].
      destruct (IH Hx Hnd) as [H1 H2]. split; [done|]. by apply list_elem_of_further. }
  destruct Hne as [Hne Hin]. split; [|done].
  destruct (players_upd p (fun _ => c) (inj_clients s) Hc) as [E2|[_ E2]]; rewrite E2 in Hin; [done|].
  apply elem_of_app in Hin as [?|Hin]; [done|]. by apply list_elem_of_singleton in Hin.
Qed.

(** The server has closed the signaling connection. *)
Definition serverLost (c : HostCoordinator) : Prop := exists s, hc_signaling c = Some s /\ lost s.

#[export] Instance serverLost_dec c : Decision (serverLost c).
Proof.
  unfold serverLost. destruct (hc_signaling c) as [s|]; [|right; naive_solver].
  destruct (decide (lost s)); [left; by exists s|right; naive_solver].
Defined.

(** [signaling_.reset()] ends the program exactly when the server has closed the
    connection. *)
Lemma reset_wpx T Q c :
  (serverLost c -> T) -> (~ serverLost c -> Q [] (setSignaling None c)) -> wpx T resetSignaling Q c.
Proof.
  intros HT HQ. apply wpx_read. destruct (hc_signaling c) as [s|] eqn:E.
  - rewrite destroy_lost. case_decide as D; [by apply HT; exists s|]. apply HQ. intros (s' & E' & D'). naive_solver.
  - replace (setSignaling None c) with c in HQ by (destruct c; cbn in E; by rewrite E). apply HQ. intros (s' & E' & _). congruence.
Qed.

Lemma close_wpx T Q c :
  (serverLost c -> T) -> (~ serverLost c -> forall o, Q o (setSignaling None c)) -> wpx T closeSignaling Q c.
Proof.
  intros HT HQ. apply wpx_read. destruct (hc_signaling c) as [s|] eqn:E.
  - apply wpx_then, wp_emit, wpx_then, wp_modify, reset_wpx.
    + intros (s' & [= <-] & D). apply HT. exists s. split; [done|by apply disconnect_lost].
    + intros D. apply HQ. intros (s' & E' & D'). apply D. exists (disconnect s). split; [done|]. apply disconnect_lost. naive_solver.
  - replace (setSignaling None c) with c in HQ by (destruct c; cbn in E; by rewrite E). apply HQ. intros (s' & E' & _). congruence.
Qed.

(** The part of the state the calls of a stop leave alone. *)
Definition stopping (i : InputInjector) (sg : option SignalingClient) (c : HostCoordinator) : Prop :=
  live c /\ hc_timer c = false /\ hc_injector c = i /\ hc_signaling c = sg.

Lemma stopping_callHost i sg f : total (stopping i sg) (callHost f).
Proof.
  apply total_read. intros c (Hl & Ht & Hi & Hsg). pose proof (live_callHost f c Hl) as G. unfold wp in *. revert G. unfold callHost, readF.
  destruct (hc_host c) as [a|]; [|done]. destruct (f a) as [os a']. intros G. by split_and!.
Qed.

Lemma stopping_post i sg q : total (stopping i sg) (post q).
Proof. apply total_modify. by intros c (Hl & Ht & Hi & Hsg). Qed.

Lemma stopping_runJob i sg j io : job_reachable j -> total (stopping i sg) (runJob isAddress j io).
Proof.
  intros Hj. unfold runJob. apply total_seq; [apply total_emit|]. apply total_seq; [|apply stopping_post].
  destruct (ji_ok io); [|apply total_done]. unfold onStreamStart. apply total_seq; [apply stopping_callHost|].
  apply total_seq; [|apply stopping_post]. destruct (jb_internet j) eqn:Ei; [|apply total_done]. rewrite (Hj Ei).
  repeat (apply total_seq; [apply total_emit|]). apply total_emit.
Qed.

Lemma stopping_jobs i sg js io : Forall job_reachable js ->
  total (stopping i sg) (forF js (fun j => runJob isAddress j (sp_jobs io (jb_streamer j)))).
Proof. induction 1 as [|j js Hj _ IH]; cbn [forF]; [apply total_done|]. apply total_seq; [by apply stopping_runJob|exact IH]. Qed.

(** The loop over the streams: every streamer is told to stop, and the injector
    forgets every player. *)
Definition stopOne (kv : Z * ClientStream) : HcAct :=
  ifStreamer (cst_streamer (snd kv)) (ScStop (str "coordinator stop")) ;! disconnectPlayer mvk (cst_playerIndex (snd kv)).

Definition told (o : list HcOut) (kv : Z * ClientStream) : Prop :=
  forall st, cst_streamer (snd kv) = Some st -> OutStreamer st (ScStop (str "coordinator stop")) ∈ o.

Lemma stop_streams m c :
  stopping (hc_injector c) (hc_signaling c) c -> inj_ok (hc_injector c) ->
  wp (forF m stopOne) (fun o c' => stopping (hc_injector c') (hc_signaling c) c' /\ hc_jobs c' = hc_jobs c /\ inj_ok (hc_injector c') /\ Forall (told o) m /\
        (forall x, x ∈ players (inj_clients (hc_injector c')) ->
           x ∈ players (inj_clients (hc_injector c)) /\ Forall (fun kv => cst_playerIndex (snd kv) <> x) m)) c.
Proof.
  revert c. induction m as [|kv m IH]; intros c Hs Hi; cbn [forF].
  { apply wp_doneF. split_and!; try done; intros; by repeat constructor. }
  set (p := cst_playerIndex (snd kv)). set (c1 := setInjector (snd (clientDisconnected mvk p (hc_injector c))) c).
  set (o1 := (match cst_streamer (snd kv) with Some st => [OutStreamer st (ScStop (str "coordinator stop"))] | None => [] end) ++
             (OutInput <$> fst (clientDisconnected mvk p (hc_injector c)))).
  assert (E : stopOne kv c = Done (o1, c1)).
  { unfold stopOne, disconnectPlayer, callInjector, ifStreamer, callStreamer, seqF, readF, emitF, modifyF, doneF, okF, skip, emit, modify.
    subst o1 c1 p. by destruct (cst_streamer (snd kv)), (clientDisconnected mvk (cst_playerIndex (snd kv)) (hc_injector c)). }
  assert (Hi1 : inj_ok (hc_injector c1)) by (apply (step_inj (fun _ => True)); [apply step_disconnected|done]).
  assert (Hs1 : stopping (hc_injector c1) (hc_signaling c1) c1) by (destruct Hs as (? & ? & ? & ?); by split_and!).
  specialize (IH c1 Hs1 Hi1). apply wp_seq. unfold wp at 1. rewrite E. eapply wp_mono; [|exact IH]. cbv beta.
  intros o2 c2 (H1 & H2 & H3 & H4 & H5). split; [done|]. split; [done|]. split; [done|]. split.
  - constructor.
    + intros st Hst. apply elem_of_app. left. apply elem_of_app. left. rewrite Hst. apply list_elem_of_here.
    + eapply List.Forall_impl; [|exact H4]. intros kv' Ht st Hst. apply elem_of_app. right. by apply Ht.
  - intros x Hx. destruct (H5 x Hx) as [Hin Hf]. apply players_disconnect in Hin as [Hin Hne]; [|done]. split; [done|].
    constructor; [|done]. by intros <-.
Qed.

Lemma ifHost_rest f c : wp (ifHost f) (fun _ c' => exists h q, c' = setQueue q (setHost h c)) c.
Proof.
  unfold wp, ifHost, callHost, readF. destruct (hc_host c) as [a|] eqn:Ha.
  { rewrite Ha. destruct (f a) as [os a']. by exists (Some a'), (hc_queue c ++ callbacksOf os). }
  exists None, (hc_queue c). rewrite <- Ha. by destruct c.
Qed.

Lemma ifHost_none f (R : list HcOut -> HostCoordinator -> Prop) c : hc_host c = None -> R [] c -> wp (ifHost f) R c.
Proof. intros Hh HR. unfold wp, ifHost, readF. by rewrite Hh. Qed.

(** What a stop of [c] has done and left. *)
Definition stopped (c : HostCoordinator) (o : list HcOut) (c' : HostCoordinator) : Prop :=
  vacant c' /\ hc_host c' = None /\ hc_signaling c' = None /\ hc_ui c' = defaultUi /\ hc_timer c' = false /\
  inj_ok (hc_injector c') /\ Forall (told o) (hc_streams c) /\
  (forall x, x ∈ players (inj_clients (hc_injector c')) -> Forall (fun kv => cst_playerIndex (snd kv) <> x) (hc_streams c)).

(** What [stop] does once streams and workers are gone. *)
Lemma stop_tail (T : Prop) (R : list HcOut -> HostCoordinator -> Prop) io c :
  (serverLost c -> T) -> vacant c -> hc_timer c = false ->
  (~ serverLost c -> forall o c', vacant c' /\ hc_host c' = None /\ hc_signaling c' = None /\ hc_ui c' = defaultUi /\ hc_timer c' = false /\
     hc_injector c' = hc_injector c -> R o c') ->
  wpx T (ifHost (HostApp.stop (sp_ran io)) ;! modifyF (setHost None) ;! closeSignaling ;! modifyF (setUi defaultUi) ;! signal StateChanged) R c.
Proof.
  intros HT [Hv1 Hv2] Ht HR. apply wpx_then. eapply wp_mono; [|apply ifHost_rest]. cbv beta. intros o c1 (h & q & ->).
  apply wpx_then, wp_modify, wpx_seq, close_wpx; [done|]. intros D o'.
  apply wpx_then, wp_modify, wp_wpx, wp_emit, HR; [done|]. by split_and!.
Qed.

(** A stop ends well unless the server has closed the signaling connection. *)
Lemma stop_wpx (T : Prop) (R : list HcOut -> HostCoordinator -> Prop) io c :
  inv c -> reachable c -> inj_ok (hc_injector c) -> (serverLost c -> T) ->
  (~ serverLost c -> forall o c', stopped c o c' -> R o c') -> wpx T (stop mvk isAddress io) R c.
Proof.
  intros Hc Hr Hi HT HR. unfold stop. apply wpx_then, wp_modify. cbv beta. apply (wpx_mono T T _ R R); [done..|].
  destruct (hc_host c) as [a|] eqn:Hh.
  - assert (Hs : stopping (hc_injector (setTimer false c)) (hc_signaling c) (setTimer false c)).
    { split_and!; [split; [by eexists|done]|done|done|done]. }
    apply wpx_then, wp_read. eapply wp_mono; [|apply (stop_streams (hc_streams c) _ Hs Hi)].
    cbv beta. intros o1 c1 (Hs1 & Ej & Hi1 & Ht & Hp).
    apply wpx_then, wp_read. eapply wp_mono; [|apply (stopping_jobs (hc_injector c1) (hc_signaling c) (hc_jobs c1) io); [|exact Hs1]].
    2: { rewrite Ej. apply Hr. }
    cbv beta. intros o2 c2 (_ & Ht2 & Hi2 & Hsg2). apply wpx_then, wp_modify, wpx_then, wp_modify. cbv beta.
    assert (Hl : serverLost (setStreams [] (setJobs [] c2)) <-> serverLost c) by (unfold serverLost; cbn; by rewrite Hsg2).
    apply stop_tail; [by rewrite Hl|done|done|]. rewrite Hl. intros D o3 c3 (H1 & H2 & H3 & H4 & H5 & H6).
    cbn [hc_injector setStreams setJobs] in H6. rewrite Hi2 in H6. apply HR; [done|]. unfold stopped. split_and!; try done; [by rewrite H6| |].
    + eapply List.Forall_impl; [|exact Ht]. intros kv Hkv st Hst. repeat (apply elem_of_app; left). by apply Hkv.
    + intros x Hx. rewrite H6 in Hx. by apply Hp.
  - destruct (inv_host _ _ _ Hc Hh) as [E1 E2]. apply wpx_then, wp_read. cbn [hc_streams setTimer]. rewrite E1. cbn [forF].
    apply wp_doneF, wpx_then, wp_read. cbn [hc_jobs setTimer]. rewrite E2. cbn [forF]. apply wp_doneF.
    apply wpx_then, wp_modify, wpx_then, wp_modify. cbv beta.
    apply stop_tail; [done|done|done|]. intros D o c' (H1 & H2 & H3 & H4 & H5 & H6). apply HR; [done|]. unfold stopped.
    rewrite H6, E1. split_and!; try done; intros; by apply Forall_nil_2.
Qed.

Lemma stop_stopped io c :
  inv c -> reachable c -> inj_ok (hc_injector c) -> ~ serverLost c -> wp (stop mvk isAddress io) (stopped c) c.
Proof. intros Hc Hr Hi D. by apply (wpx_wp (serverLost c)), stop_wpx. Qed.


(** ** The steps that can crash *)

Lemma total_any (a : HcAct) P : total P a -> forall c, P c -> exists o c', a c = Done (o, c') /\ P c'.
Proof. intros Ha c Hc. destruct (wp_done _ _ _ (Ha c Hc)) as (o & c' & E & HP). by exists o, c'. Qed.

Definition crashes (a : HcAct) (c : HostCoordinator) : Prop := a c = NullDeref \/ a c = Terminate.

Lemma total_calm P a c : total P a -> P c -> ~ crashes a c.
Proof. intros Ha Hc [E|E]; destruct (total_any a P Ha c Hc) as (o & c' & E' & _); congruence. Qed.

Lemma crashes_seq a b c : crashes (a ;! b) c -> crashes a c \/ exists o c', a c = Done (o, c') /\ crashes b c'.
Proof.
  unfold crashes, seqF. destruct (a c) as [[o c']| | |] eqn:E; intros [X|X]; try done; try (by left; left); try (by left; right).
  - right. exists o, c'. split; [done|]. left. by destruct (b c') as [[? ?]| | |].
  - right. exists o, c'. split; [done|]. right. by destruct (b c') as [[? ?]| | |].
Qed.

Definition free (a : HcAct) : Prop := total (fun _ => True) a.

Lemma free_modify f : free (modifyF f).
Proof. by apply total_modify. Qed.
Lemma free_emit os : free (emitF os).
Proof. apply total_emit. Qed.
Lemma free_done : free doneF.
Proof. apply total_done. Qed.
Lemma free_seq a b : free a -> free b -> free (a ;! b).
Proof. apply total_seq. Qed.
Lemma free_calm a c : free a -> ~ crashes a c.
Proof. intros Ha. by apply (total_calm (fun _ => True)). Qed.
Hint Resolve free_modify free_emit free_done free_seq : act.
Lemma free_signal u : free (signal u).
Proof. apply free_emit. Qed.
Lemma free_injector f : free (callInjector f).
Proof. apply total_read. intros c _. destruct (f (hc_injector c)) as [es i]. assert (G : free (modifyF (setInjector i) ;! emitF (OutInput <$> es))) by auto with act. by apply G. Qed.
Lemma free_forStreamers sc : free (forStreamers sc).
Proof.
  apply total_read. intros c _. assert (G : free (forF (hc_streams c) (fun kv : Z * ClientStream => ifStreamer (cst_streamer (snd kv)) sc))).
  { apply total_for. intros kv. destruct (cst_streamer (snd kv)); [apply free_emit|apply total_done]. }
  by apply G.
Qed.
Hint Resolve free_signal free_injector free_forStreamers : act.

Lemma ifHost_calm f c : ~ crashes (ifHost f) c.
Proof.
  intros [E|E]; pose proof (ifHost_rest f c) as G; unfold wp in G; rewrite E in G; done.
Qed.

Lemma stop_crash io c :
  inv c -> reachable c -> inj_ok (hc_injector c) -> crashes (stop mvk isAddress io) c -> serverLost c.
Proof.
  intros Hc Hr Hi X. pose proof (stop_wpx (serverLost c) (fun _ _ => True) io c Hc Hr Hi) as G. unfold wpx in G.
  destruct X as [E|E]; rewrite E in G; [by destruct G|by apply G].
Qed.

Lemma startLan_crash s userName code bind io c :
  inv c -> reachable c -> inj_ok (hc_injector c) -> crashes (startLan cfg mvk isAddress s userName code bind io) c -> serverLost c.
Proof.
  intros Hc Hr Hi X. apply crashes_seq in X as [X|(o & c1 & E1 & X)]; [by eapply stop_crash|]. exfalso.
  clear E1. do 2 (apply crashes_seq in X as [X|(? & ? & _ & X)]; [by apply (free_calm _ _ (free_modify _)) in X|]).
  apply crashes_seq in X as [X|(? & ? & E & X)]; [by apply (free_calm _ _ (free_modify _)) in X|].
  injection E as _ <-. revert X. unfold crashes, readF. cbn [hc_host setHost].
  destruct (HostApp.start _ _ _ _ _ _) as [ok [os a']]. apply free_calm.
  apply free_seq; [apply free_modify|]. apply free_seq; [apply free_modify|]. apply free_seq; [apply free_emit|].
  destruct (negb ok); [apply free_modify|]. do 6 (apply free_seq; [apply free_modify|]). apply free_signal.
Qed.

Lemma reset_crash c : crashes resetSignaling c -> serverLost c.
Proof.
  intros X. pose proof (reset_wpx (serverLost c) (fun _ _ => True) c) as G. unfold wpx in G.
  destruct X as [E|E]; rewrite E in G; [by destruct G|by apply G].
Qed.

(** A start that connects to a server which closes the connection instead of
    answering the registration. *)
Definition refused (e : HcEvent) : Prop := exists s address port io, e = HcStartInternet s address port CoConnected true None io.

Lemma startInternet_crash s address port outcome closed reg io c :
  inv c -> reachable c -> inj_ok (hc_injector c) -> crashes (startInternet cfg mvk isAddress s address port outcome closed reg io) c ->
  serverLost c \/ refused (HcStartInternet s address port outcome closed reg io).
Proof.
  intros Hc Hr Hi X. apply crashes_seq in X as [X|(o & c1 & E1 & X)]; [left; by eapply stop_crash|]. right. clear E1.
  unfold keepSettings in X. do 4 (apply crashes_seq in X as [X|(? & ? & _ & X)]; [exfalso; revert X; apply free_calm; auto with act|]).
  destruct outcome; cbn [connect] in X.
  4: { cbn -[crashes resetSignaling] in X. apply crashes_seq in X as [X|(? & c2 & E2 & X)]; [exfalso; revert X; apply free_calm; auto with act|].
    injection E2 as _ <-. apply crashes_seq in X as [X|(? & c3 & E3 & X)]; [exfalso; revert X; apply free_calm; auto with act|].
    injection E3 as _ <-. destruct reg as [r|].
    - exfalso. revert X. unfold freshHost, freshAbr. apply free_calm. do 9 (apply free_seq; [auto with act|]). apply free_signal.
    - apply reset_crash in X as (sc & [= <-] & D). destruct closed; [by eexists _, _, _, _|by destruct D]. }
  all: exfalso; cbn -[crashes resetSignaling] in X; apply crashes_seq in X as [X|(? & c2 & E2 & X)];
    [revert X; apply free_calm; auto with act|]; injection E2 as _ <-; apply reset_crash in X as (sc & [= <-] & D); by destruct D.
Qed.

Lemma stats_calm stats c : ~ crashes (onStatsTimer th stats) c.
Proof.
  unfold crashes, onStatsTimer, readF. destruct (hc_host c); [|by intros [?|?]]. destruct (gather _ _ _ _) as [link ui].
  assert (F : free (readF (fun c => let '(rtt, loss, jitter) := match link with Some l => l | None => (dzero, dzero, dzero) end in
        modifyF (fun c => setUi (uiLink rtt loss jitter (ab_currentKbps (hc_abr c)) (hc_abrEnabled c) (hc_ui c)) c)) ;!
      signal StateChanged)).
  { apply free_seq; [|auto with act]. apply total_read. intros c' _. by destruct (match link with Some l => l | None => _ end) as [[rtt loss] jitter]. }
  intros X. apply crashes_seq in X as [X|(? & c1 & _ & X)]; [by apply (free_calm _ _ (free_modify _)) in X|].
  apply crashes_seq in X as [X|(? & c2 & _ & X)]; [|by apply (free_calm _ _ F) in X].
  revert X. destruct link as [l|]; [|by apply free_calm; auto with act]. destruct (hc_abrEnabled c); [|by apply free_calm; auto with act].
  destruct (AdaptiveBitrate.update _ _ _) as [[next abr]|]; [|by intros [?|?]]. apply free_calm.
  apply free_seq; [auto with act|]. destruct next; auto with act.
Qed.

(** The steps that stop what runs. *)
Definition stops (e : HcEvent) : Prop :=
  match e with HcStartLan _ _ _ _ _ | HcStartInternet _ _ _ _ _ _ _ | HcStop _ => True | _ => False end.


End Safe.

(** * Closed runs *)

(** A run that ends well and what it ends with. *)
Definition endsWith (r : Outcome (list HcOut * HostCoordinator)) (P : list HcOut -> HostCoordinator -> bool) : bool :=
  match r with Done (o, c) => P o c | _ => false end.

Lemma sample_inv injector es outs c :
  @hcRun Toy.cng Config.defaultConfig defaultThresholds id (fun _ => true) es (newCoordinator Config.defaultConfig injector) = Done (outs, c) ->
  hc_inv (fun _ => True) (fun _ => True) c.
Proof.
  intros E. pose proof (@run_inv Toy.cng Config.defaultConfig defaultThresholds id (fun _ => true) es _
    (new_inv Config.defaultConfig (fun _ => True) (fun _ => True) injector I I)) as R. unfold wlp in R. rewrite E in R. apply R.
Qed.


(** The host stops while the news that a client is connected is still queued. *)
Theorem connected_after_stop_is_fatal :
  sampleRun (fun _ => true) (lanHosting ++ joinEvents 1 7 ++ [HcStop sampleStop; HcDispatch sampleIo]) = NullDeref.
Proof. vm_compute. reflexivity. Qed.

(** A stream fails to start; the host stops before the failure is handled. *)
Theorem failed_start_after_stop_is_fatal :
  sampleRun (fun _ => true)
    (lanHosting ++ joinEvents 1 7 ++ keyEvents 1 [] ++
     [HcDispatch sampleIo; HcWorker 0 (mkJio false (str "no encoder") 0); HcStop sampleStop; HcDispatch sampleIo]) = NullDeref.
Proof. vm_compute. reflexivity. Qed.


(** A client that confirms its keys twice gets a second streamer; the first one is
    never told to stop. *)
Theorem second_ready_replaces_the_streamer :
  endsWith (sampleRun (fun _ => true)
    (lanHosting ++ joinEvents 1 7 ++ keyEvents 1 [] ++
     [frame 1 (idCode IdSessionKeyReady) []; HcDispatch sampleIo; HcDispatch sampleIo;
      HcWorker 0 (mkJio true [] 50000); HcWorker 0 (mkJio true [] 50001); HcStop sampleStop]))
    (fun o _ => bool_decide (startsOf o = [Some 0%nat; Some 0%nat]) &&
       forallb (fun x => match x with OutStreamer 0 (ScStop _) => false | _ => true end) o &&
       existsb (fun x => match x with OutStreamer 1 (ScStop _) => true | _ => false end) o) = true.
Proof. vm_compute. reflexivity. Qed.

(** Hosting over the internet: the facade is never started, so that the clients
    the server announces are dialled by nobody. *)
Definition internetHost : list HcEvent :=
  [HcStartInternet sampleLaunch (str "1.2.3.4") 7000 CoConnected false (Some (mkHrr 1 sampleCode 4 (str "tok") 7001 7002)) sampleStop].

Theorem internet_host_ignores_its_clients :
  endsWith (sampleRun (fun _ => true) (internetHost ++ [HcClientJoined (str "p1"); HcDispatch sampleIo; HcNetwork (IoTask 1000);
      HcNetwork (IoAccept 1000 7 (str "10.0.0.2")); HcApprove 1 true; HcNetwork (IoTask 2000)]))
    (fun o c => match hc_host c with Some a => negb (HostApp.hosting a) | None => false end &&
       forallb (fun x => match x with OutNet _ => false | _ => true end) o && bool_decide (ui_sessionCode (hc_ui c) = sampleCode)) = true.
Proof. vm_compute. reflexivity. Qed.

(** The server of an internet session closes its connection; when the user then
    stops hosting, or starts again, the program ends. *)
Theorem stop_after_the_server_left_is_fatal :
  sampleRun (fun _ => true) (internetHost ++ [HcSignalingClosed; HcStop sampleStop]) = Terminate /\
  sampleRun (fun _ => true) (internetHost ++ HcSignalingClosed :: lanHosting) = Terminate /\
  endsWith (sampleRun (fun _ => true) (internetHost ++ [HcStop sampleStop])) (fun _ c => bool_decide (hc_signaling c = None)) = true.
Proof. vm_compute. by split_and!. Qed.

(** The bit rate the user sets goes to the streamers and the window as it is; the
    controller keeps it within its own range. *)
Theorem manual_bitrate_is_not_clamped :
  endsWith (sampleRun (fun _ => true) (streamEvents 1 ++ [HcSetManualBitrate 50000]))
    (fun o c => (ui_bitrateTarget (hc_ui c) =? 50000) && (ab_currentKbps (hc_abr c) =? 30000) &&
       existsb (fun x => match x with OutStreamer 0 (ScSetBitrate 50000) => true | _ => false end) o) = true.
Proof. vm_compute. reflexivity. Qed.

(** The rumble sender of a stopped session outlives it: in the next session the
    first client has the same number, and a pad that vibrates before its stream
    exists takes the sender to a streamer that is not there. *)
Definition padReady : InputInjector :=
  snd (InputInjector.init (Some (mkExports true true true true true true true true true true true)) 1 0 newInjector).

Definition rumbleEvents : list HcEvent :=
  streamEvents 1 ++ [HcSetClientInput 1 true; HcNetwork (IoTask 8000000000); HcNetwork (IoTask 8000000000); HcDispatch sampleIo; HcDispatch sampleIo; HcDispatch sampleIo;
    HcStop sampleStop] ++
  lanHosting ++ joinEvents 1 7 ++ [HcSetClientInput 1 false; HcNetwork (IoTask 9000000000); HcSetClientInput 1 true; HcNetwork (IoTask 9000000000);
    HcDispatch sampleIo; HcDispatch sampleIo; HcDispatch sampleIo; HcDispatch sampleIo; HcVibration 100 10 20].

Theorem vibration_after_restart_is_fatal :
  @hcRun Toy.cng Config.defaultConfig defaultThresholds id (fun _ => true) rumbleEvents (newCoordinator Config.defaultConfig padReady) = NullDeref.
Proof. vm_compute. reflexivity. Qed.
