(* ===== verification/HostCoordinatorReady.v ===== *)
(** What becomes of the key confirmation: between two programs built from this
    source no stream ever starts, because the message that confirms the keys is one
    the receiver refuses. *)

From S2P Require Import Prelude Types Double Packet Protocol OrderedMap Calls Config HostSession SessionCodes Crypto SecureChannel AdaptiveBitrate InputProtocol VirtualGamepad InputInjector UdpTransport HostStreamer SignalingClient HostApp HostCoordinator HostCoordinatorSpec.

Open Scope act_scope.
Open Scope Z_scope.

(** * What a session hands to its owner *)

Ltac quiet := intros; exact I.

Section Emits.
Context (R : HostOut -> Prop) (HR : forall o, match o with HoAppMessage _ _ _ => False | _ => True end -> R o).

Lemma em_out o : match o with HoAppMessage _ _ _ => False | _ => True end -> emits R (emit [o] : HAct).
Proof. intros Ho. apply emits_emit, Forall_singleton. by apply HR. Qed.

Lemma em_withClient id k : (forall r, emits R (k r)) -> emits R (withClient id k).
Proof. intros Hk. apply emits_read. intros h. destruct (om_lookup id (hs_clients h)); [apply Hk|apply emits_skip]. Qed.

Lemma em_put id r : emits R (putClient id r).
Proof. apply emits_modify. Qed.
Lemma em_snapshot : emits R rebuildSnapshot.
Proof. apply emits_modify. Qed.
Lemma em_connOut c f : (forall conn, match f conn with HoAppMessage _ _ _ => False | _ => True end) -> emits R (connOut c f).
Proof. intros Hf. destruct c; [apply em_out; apply Hf|apply emits_skip]. Qed.
Lemma em_sendTo id msg : emits R (sendTo id msg).
Proof. apply em_withClient. intros r. apply em_connOut; quiet. Qed.
Lemma em_sendAndClose id msg : emits R (sendAndClose id msg).
Proof. apply em_withClient. intros r. apply em_connOut; quiet. Qed.
Lemma em_post t : emits R (HostSession.post t).
Proof. apply emits_modify. Qed.
Hint Resolve em_put em_snapshot em_sendTo em_sendAndClose em_post : act.

Lemma em_setState id st : emits R (setState id st).
Proof.
  apply em_withClient. intros r. repeat (apply emits_seq; [auto with act|]). apply emits_read. intros h. apply em_out; exact I.
Qed.
Hint Resolve em_setState : act.

Lemma em_pushInputPermissions id : emits R (pushInputPermissions id).
Proof. apply em_withClient. intros r. apply emits_seq; [auto with act|]. apply em_out; exact I. Qed.
Hint Resolve em_pushInputPermissions : act.

Lemma em_dropClient id b reason text : emits R (dropClient id b reason text).
Proof.
  apply em_withClient. intros r. apply emits_seq; [|auto with act]. destruct b; [auto with act|apply em_connOut; quiet].
Qed.
Hint Resolve em_dropClient : act.

Lemma em_handleNewConnection now conn addr : emits R (handleNewConnection now conn addr).
Proof.
  apply emits_read. intros h. destruct (hs_stopping h); [apply em_out; exact I|].
  repeat (apply emits_seq; [auto with act|]). apply em_out; exact I.
Qed.

Lemma em_runTask now t : emits R (HostSession.runTask now t).
Proof.
  destruct t; cbn [HostSession.runTask].
  - apply emits_read. intros h. apply emits_seq; [auto with act|]. apply emits_for. intros kv. apply em_connOut; quiet.
  - apply em_withClient. intros r. destruct (negb _); [auto with act|]. destruct (negb accept); [auto with act|].
    apply emits_read. auto with act.
  - apply em_withClient. auto with act.
  - apply em_withClient. intros r. apply emits_seq; [|auto with act]. apply emits_read. auto with act.
  - apply em_withClient. intros r. apply em_connOut; quiet.
  - apply emits_seq; [apply em_out; exact I|auto with act].
  - apply em_handleNewConnection.
Qed.

Lemma em_hello id m : emits R (handleClientHello id m).
Proof.
  apply em_withClient. intros r. destruct (negb _); [auto with act|]. apply emits_seq; [auto with act|]. apply emits_read. intros h.
  destruct (_ <? _)%nat; [auto with act|]. destruct (negb _); [auto with act|]. repeat (apply emits_seq; [auto with act|]).
  destruct (hp_autoApprove _); [apply emits_modify|apply em_out; exact I].
Qed.

Lemma em_caps id m : emits R (handleClientCapabilities id m).
Proof.
  apply em_withClient. intros r. destruct (negb _); [auto with act|]. apply emits_read. intros h. apply emits_seq; [auto with act|].
  destruct (negotiateCodec _ _); auto with act.
Qed.

(** A frame is handed on as it is, and only when it decodes. *)
Lemma em_frame now id type flags data :
  (is_Some (decodeMessage type data) -> R (HoAppMessage id type data)) -> emits R (handleFrame now id type flags data).
Proof.
  intros Happ. apply emits_read. intros h. destruct (hs_stopping h); [auto with act|]. destruct (negb _); [auto with act|].
  apply em_withClient. intros r. apply emits_seq; [auto with act|].
  destruct (decodeMessage type data) as [env|] eqn:Ed; [|auto with act].
  assert (G : forall b : bool, emits R (if b then emit [HoAppMessage id type data] else dropClient id true RProtocolError (str "Unexpected message in current state."))).
  { intros []; [|auto with act]. apply emits_emit, Forall_singleton. by apply Happ. }
  destruct (env_body env); auto using em_hello, em_caps with act.
  - unfold handlePing. auto with act.
  - apply em_withClient. auto with act.
  - apply em_dropClient.
Qed.

Lemma em_housekeeping now : emits R (housekeeping now).
Proof.
  apply emits_seq; [|apply emits_modify]. apply emits_read. intros h. cbv zeta. apply emits_seq; apply emits_for.
  - intros [id r]. cbn [probe]. destruct (pingDue now r); [|apply emits_skip]. apply emits_seq; [apply em_put|apply em_sendTo].
  - intros id. apply em_dropClient.
Qed.

Lemma em_io e :
  match e with IoFrame _ id type _ data => is_Some (decodeMessage type data) -> R (HoAppMessage id type data) | _ => True end ->
  emits R (io e).
Proof.
  intros He. destruct e as [now|now conn addr|now [[conn addr]|]|now id type flags data|id|now]; cbn [io].
  - apply emits_read. intros h. destruct (hs_tasks h); [auto with act|]. apply emits_seq; [auto with act|apply em_runTask].
  - apply emits_read. intros h. destruct (hs_listening h); [apply em_handleNewConnection|auto with act].
  - apply em_handleNewConnection.
  - auto with act.
  - by apply em_frame.
  - apply emits_read. intros h. destruct (hs_stopping h); [auto with act|]. apply em_withClient. intros r.
    repeat (apply emits_seq; [auto with act|]). apply em_out; exact I.
  - apply emits_read. intros h. destruct (hs_armed h); [|auto with act]. apply emits_seq; [auto with act|].
    destruct (hs_stopping h); [auto with act|apply em_housekeeping].
Qed.

End Emits.

(** * The coordinator, facing a client of this program *)

Open Scope fact_scope.

(** What [ClientCoordinator] and [HostCoordinator] send to confirm the keys: the
    envelope's body is the variant's first alternative. *)
Definition readyPayload : bytes := encodeMessage (mkEnvelope IdSessionKeyReady defaultBody).

Lemma decoded_type type data env : decodeMessage type data = Some env -> idCode (env_type env) = type.
Proof.
  unfold decodeMessage. destruct (negb (knownId type)); [done|]. destruct (idOfRaw type) as [i|] eqn:E; [|done].
  destruct (readMsg i (ByteReader.init data)) as [[body ok] ?]. destruct ok; [|done]. intros [= <-]. by apply idOfRaw_Some.
Qed.

Lemma ready_refused : decodeMessage (idCode IdSessionKeyReady) readyPayload = None.
Proof. vm_compute. reflexivity. Qed.

(** A frame as the client's program sends it. *)
Definition frame_sent (e : IoEvent) : Prop :=
  match e with IoFrame _ _ type _ data => type = idCode IdSessionKeyReady -> data = readyPayload | _ => True end.

Definition stop_sent (io : StopIo) : Prop := Forall frame_sent (sp_ran io).

Definition event_sent (e : HcEvent) : Prop :=
  match e with
  | HcNetwork e => frame_sent e
  | HcStartLan _ _ _ _ io | HcStartInternet _ _ _ _ _ _ io | HcStop io => stop_sent io
  | _ => True
  end.

Definition not_ready (q : QtCall) : Prop :=
  match q with QAppMessage _ type _ => type <> idCode IdSessionKeyReady | _ => True end.

Record waiting (c : HostCoordinator) : Prop := {
  wt_queue : Forall not_ready (hc_queue c);
  wt_jobs : hc_jobs c = [];
  wt_streams : Forall (fun kv => cst_streamer (snd kv) = None) (hc_streams c) }.

Definition no_stream (o : HcOut) : Prop := match o with OutStreamer _ _ => False | _ => True end.

Definition no_ready (o : HostOut) : Prop := match o with HoAppMessage _ type _ => type <> idCode IdSessionKeyReady | _ => True end.

Lemma no_ready_other o : match o with HoAppMessage _ _ _ => False | _ => True end -> no_ready o.
Proof. by destruct o. Qed.

Lemma io_no_ready e : frame_sent e -> emits no_ready (io e).
Proof.
  intros He. apply em_io; [apply no_ready_other|]. destruct e; try done. intros [env Hd] Ht. pose proof (He Ht) as ->. rewrite Ht in Hd. pose proof ready_refused. congruence.
Qed.

Lemma callbacks_ready os : Forall no_ready os -> Forall not_ready (callbacksOf os).
Proof. induction 1 as [|o os Ho _ IH]; [by apply Forall_nil_2|]. destruct o; cbn; try done; by constructor. Qed.

Local Abbreviation pres := (preserves waiting no_stream).

Lemma wait_core c c' :
  (Forall not_ready (hc_queue c) -> Forall not_ready (hc_queue c')) -> hc_jobs c' = hc_jobs c -> hc_streams c' = hc_streams c ->
  waiting c -> waiting c'.
Proof. intros E1 E2 E3 []. split; rewrite ?E2, ?E3; auto. Qed.

Ltac wcore := apply pres_modify; intros ?; by apply wait_core.

Lemma wait_signal u : pres (signal u).
Proof. by apply pres_emit, Forall_singleton. Qed.
Lemma wait_net os : pres (emitF (netOf os)).
Proof. apply pres_emit. unfold netOf. by apply Forall_fmap, list.Forall_forall. Qed.
Lemma wait_post qs : Forall not_ready qs -> pres (post qs).
Proof. intros Hq. apply pres_modify. intros c. apply wait_core; [|done..]. cbn. intros H. by apply Forall_app. Qed.

Lemma wait_callHost f : emits no_ready f -> pres (callHost f).
Proof.
  intros Hf. apply pres_read_all. intros c _. destruct (hc_host c) as [a|]; [|apply pres_null]. specialize (Hf a).
  destruct (f a) as [os a']. apply pres_seq; [wcore|]. apply pres_seq; [by apply wait_post, callbacks_ready|apply wait_net].
Qed.
Lemma wait_ifHost f : emits no_ready f -> pres (ifHost f).
Proof. intros Hf. apply pres_read_all. intros c _. destruct (hc_host c); [by apply wait_callHost|apply pres_done]. Qed.

Lemma onSession_emits f : emits no_ready f -> emits no_ready (HostApp.onSession f).
Proof.
  intros Hf a. unfold HostApp.onSession. destruct (ha_session a) as [s|]; [|by apply Forall_nil_2]. specialize (Hf s). by destruct (f s).
Qed.
Lemma post_emits t : emits no_ready (HostApp.onSession (HostSession.post t)).
Proof. apply onSession_emits, emits_modify. Qed.

Lemma stop_emits ran : Forall frame_sent ran -> emits no_ready (HostSession.stop ran).
Proof.
  intros Hr. apply emits_read. intros h. destruct (negb _); [apply emits_skip|]. do 2 (apply emits_seq; [apply emits_modify|]).
  apply emits_seq. { induction Hr as [|e es He _ IH]; cbn [forA]; [apply emits_skip|]. apply emits_seq; [by apply io_no_ready|exact IH]. }
  do 2 (apply emits_seq; [apply emits_modify|]). apply emits_seq; [apply emits_read; intros h'; apply emits_modify|]. by apply emits_emit, Forall_singleton.
Qed.
Lemma host_stop_emits ran : Forall frame_sent ran -> emits no_ready (HostApp.stop ran).
Proof.
  intros Hr a. unfold HostApp.stop. destruct (ha_session a) as [s|]; [|by apply Forall_nil_2].
  pose proof (stop_emits ran Hr s) as G. by destruct (HostSession.stop ran s).
Qed.

Lemma wait_injector f : pres (callInjector f).
Proof.
  apply pres_read_all. intros c _. destruct (f (hc_injector c)) as [es i]. apply pres_seq; [wcore|].
  apply pres_emit. by apply Forall_fmap, list.Forall_forall.
Qed.

Section Wait.
Context `{CNG} (cfg : Config) (th : Thresholds) (mvk : Z -> Z) (isAddress : bytes -> bool).

Lemma wait_sendApp id msg : pres (sendApp id msg).
Proof. apply wait_callHost, onSession_emits. unfold HostSession.sendAppMessage. destruct (_ <? _); [apply emits_skip|apply emits_modify]. Qed.
Lemma wait_kick id : pres (callHost (HostApp.kick id)).
Proof. apply wait_callHost, post_emits. Qed.
Lemma wait_disconnect p : pres (disconnectPlayer mvk p).
Proof. apply wait_injector. Qed.

Lemma wait_find id cs c : waiting c -> findStream id c = Some cs -> cst_streamer cs = None.
Proof.
  intros [_ _ Hs] Hf. apply om_lookup_elem in Hf. rewrite list.Forall_forall in Hs. apply (Hs _ Hf).
Qed.

Lemma wait_put cs : cst_streamer cs = None -> pres (putStream cs).
Proof.
  intros Hn. apply pres_modify. intros c [Hq Hj Hs]. split; [done|done|]. cbn [hc_streams setStreams].
  induction (hc_streams c) as [|[k v] m IH]; cbn [om_insert]; [by apply Forall_singleton|]. apply Forall_cons_iff in Hs as [H1 H2].
  destruct (_ <? k); [repeat constructor; done|]. destruct (_ =? k); constructor; try done. by apply IH.
Qed.

Lemma wait_ifStreamer sc : pres (ifStreamer None sc).
Proof. apply pres_done. Qed.
Hint Resolve wait_signal wait_sendApp wait_kick wait_disconnect wait_injector wait_ifStreamer : act.

(** The two ways in which a call looks at an entry. *)
Lemma wait_read k : (forall c, waiting c -> pres (k c)) -> pres (readF k).
Proof. apply pres_read_all. Qed.

Lemma wait_forStreamers sc : pres (forStreamers sc).
Proof.
  apply pres_read. intros c Hc. pose proof (wt_streams _ Hc) as Hs. revert c Hc Hs. intros c Hc.
  generalize (hc_streams c) as m. intros m Hs. assert (G : pres (forF m (fun kv : Z * ClientStream => ifStreamer (cst_streamer (snd kv)) sc))); [|by apply G].
  clear -Hs. induction Hs as [|kv m E _ IH]; cbn [forF]; [apply pres_done|]. apply pres_seq; [|exact IH]. rewrite E. apply pres_done.
Qed.

Lemma wait_begin keys salt id : pres (beginKeyExchange keys salt id).
Proof.
  apply wait_read. intros c Hc. destruct (findStream id c); [apply pres_done|]. destruct keys; [|auto with act].
  apply pres_seq; [auto with act|]. by apply wait_put.
Qed.

Lemma wait_handleAppMessage id type payload :
  type <> idCode IdSessionKeyReady -> pres (handleAppMessage mvk id type payload).
Proof.
  intros Ht. apply wait_read. intros c Hc. destruct (decodeMessage type payload) as [env|] eqn:Ed; [|apply pres_done].
  assert (Hid : env_type env <> IdSessionKeyReady).
  { intros E. apply Ht. apply decoded_type in Ed. by rewrite <- Ed, E. }
  destruct (env_type env); try apply pres_done; try done; destruct (findStream id c) as [cs|] eqn:Ef; try apply pres_done;
    pose proof (wait_find _ _ _ Hc Ef) as En; rewrite ?En; auto with act.
  destruct (env_body env) as [ | | | | | | | | | | | | | |m| ]; try apply pres_done. destruct (cst_ecdh cs) as [kp|]; [|apply pres_done].
  destruct (cst_keysReady cs); [apply pres_done|]. destruct (finish _ _ _ _ _ _ _) as [ok ch].
  apply pres_seq; [by apply wait_put|]. apply pres_seq; [wcore|]. destruct (negb ok); auto with act.
Qed.

Lemma wait_teardown id : pres (teardownClient mvk id).
Proof.
  apply wait_read. intros c Hc. destruct (findStream id c) as [cs|] eqn:Ef; [|apply pres_done]. rewrite (wait_find _ _ _ Hc Ef).
  apply pres_seq; [auto with act|]. apply pres_seq; [auto with act|]. apply pres_seq; [|auto with act].
  apply pres_modify. intros c' [Hq Hj Hs]. split; [done|done|]. cbn [hc_streams setStreams]. rewrite list.Forall_forall in *.
  intros kv Hkv. by apply Hs, (om_erase_elem id).
Qed.
Hint Resolve wait_begin wait_teardown : act.

Lemma wait_runCall io q : not_ready q -> pres (runCall mvk io q).
Proof.
  intros Hq. destruct q; cbn [runCall]; auto with act.
  - unfold clientUpdated. apply pres_seq; [|auto with act]. destruct (bool_decide _); [auto with act|]. destruct (bool_decide _); auto with act.
  - apply wait_read. intros c Hc. destruct (findStream clientId c) as [cs|] eqn:Ef; [|apply pres_done]. rewrite (wait_find _ _ _ Hc Ef).
    auto with act.
  - by apply wait_handleAppMessage.
  - apply pres_seq; [|auto with act]. apply wait_read. intros c _. apply wait_callHost, post_emits.
  - apply pres_seq; [auto with act|]. apply wait_read. intros c Hc. destruct (findStream clientId c) as [cs|] eqn:Ef; [|apply pres_done].
    rewrite (wait_find _ _ _ Hc Ef). apply pres_done.
  - unfold streamDone. destruct (negb ok); [auto with act|]. apply pres_seq; [|auto with act]. apply wait_read. intros c Hc.
    destruct (findStream clientId c) as [cs|] eqn:Ef; [|apply pres_done]. rewrite (wait_find _ _ _ Hc Ef). auto with act.
Qed.

Lemma wait_stop io : stop_sent io -> pres (stop mvk isAddress io).
Proof.
  intros Hio. unfold stop. apply pres_seq; [wcore|]. apply pres_seq.
  { apply pres_read. intros c Hc. pose proof (wt_streams _ Hc) as Hs. revert Hs. generalize (hc_streams c) as m. intros m Hs.
    assert (G : pres (forF m (fun kv : Z * ClientStream => ifStreamer (cst_streamer (snd kv)) (ScStop (str "coordinator stop")) ;!
                        disconnectPlayer mvk (cst_playerIndex (snd kv))))); [|by apply G].
    clear -Hs. induction Hs as [|kv m E _ IH]; cbn [forF]; [apply pres_done|]. apply pres_seq; [|exact IH]. rewrite E. auto with act. }
  apply pres_seq. { apply pres_read. intros c Hc. rewrite (wt_jobs _ Hc). by apply pres_done. }
  apply pres_seq. { apply pres_modify. intros c []. by split. }
  apply pres_seq. { apply pres_modify. intros c []. split; [done|done|by apply Forall_nil_2]. }
  apply pres_seq; [by apply wait_ifHost, host_stop_emits|]. apply pres_seq; [wcore|].
  apply pres_seq. { apply pres_closeSignaling; [|done]. intros x c. by apply wait_core. }
  apply pres_seq; [wcore|auto with act].
Qed.

Lemma host_start_emits userName s code bind a ok o a' :
  HostApp.start userName s code bind [] a = (ok, (o, a')) -> Forall no_ready o.
Proof.
  unfold HostApp.start. intros E. pose proof (host_stop_emits [] (List.Forall_nil _) a) as Hs. destruct (HostApp.stop [] a) as [o1 a1].
  assert (Hst : emits no_ready (HostSession.start (HostApp.sessionParams userName s) code bind)).
  { apply emits_read. intros h. destruct (hs_running h); [apply emits_skip|]. destruct (match bind _ with Some p => Some p | None => _ end).
    - do 2 (apply emits_seq; [apply emits_modify|]). by apply emits_emit, Forall_singleton.
    - apply emits_seq; apply emits_modify. }
  specialize (Hst (newHost (ha_onAppMessage a1))). destruct (HostSession.start _ _ _ _) as [o2 s2].
  cbn [fst] in *. destruct (start_result _ _ _); injection E as _ <- _; by apply Forall_app.
Qed.

Ltac wseq := apply pres_seq; [first [wcore | apply wait_signal | apply pres_emit, Forall_singleton; done]|].

Lemma wait_step e : event_sent e -> pres (hcStep cfg th mvk isAddress e).
Proof.
  intros He. destruct e; cbn [hcStep].
  - unfold startLan. apply pres_seq; [by apply wait_stop|]. unfold keepSettings, freshHost, freshAbr. do 3 wseq. apply wait_read. intros c _.
    destruct (hc_host c) as [a|]; [|apply pres_null]. destruct (HostApp.start _ _ _ _ _ _) as [ok [os a']] eqn:E. wseq.
    apply pres_seq; [by eapply wait_post, callbacks_ready, host_start_emits|]. apply pres_seq; [apply wait_net|].
    destruct (negb ok); [wcore|]. do 6 wseq. apply wait_signal.
  - unfold startInternet. apply pres_seq; [by apply wait_stop|]. unfold keepSettings, freshHost, freshAbr. do 4 wseq.
    assert (Hr : pres resetSignaling) by (apply pres_resetSignaling; intros x c; by apply wait_core).
    destruct (connect _ _) as [[[] sc]| |]; try apply pres_terminate; [|by wseq].
    do 2 wseq. destruct reg; [|exact Hr]. do 9 wseq. apply wait_signal.
  - by apply wait_stop.
  - apply wait_ifHost, post_emits.
  - apply wait_read. intros c _. destruct (hc_host c); [|apply pres_done]. auto with act.
  - apply wait_ifHost, post_emits.
  - unfold HostCoordinator.setManualBitrate. do 2 wseq. apply pres_seq; [apply wait_forStreamers|]. wseq. apply wait_signal.
  - wcore.
  - apply pres_seq; [apply wait_forStreamers|apply wait_signal].
  - apply pres_seq; [apply wait_forStreamers|apply wait_signal].
  - apply wait_read. intros c _. destruct (hc_timer c); [|apply pres_done]. apply wait_read. intros c' _. destruct (hc_host c'); [|apply pres_done].
    destruct (gather _ _ _ _) as [link ui]. wseq. apply pres_seq.
    + destruct link as [l|]; [|apply pres_done]. destruct (hc_abrEnabled c'); [|apply pres_done].
      destruct (AdaptiveBitrate.update _ _ _) as [[next abr]|]; [|apply pres_undefined]. wseq. destruct next; [apply wait_forStreamers|apply pres_done].
    + apply pres_seq; [|apply wait_signal]. apply wait_read. intros c2 _. destruct (match link with Some l => l | None => _ end) as [[? ?] ?]. wcore.
  - apply pres_read. intros c Hc. pose proof (wt_queue _ Hc) as Hq. destruct (hc_queue c) as [|q qs]; [by apply pres_done|].
    apply Forall_cons_iff in Hq as [Hq1 Hq2]. assert (G : pres (modifyF (setQueue qs) ;! runCall mvk io q)); [|by apply G].
    apply pres_seq; [|by apply wait_runCall]. apply pres_modify. intros c'. by apply wait_core.
  - apply wait_ifHost, onSession_emits. apply emits_read. intros h. destruct (hs_running h); [by apply io_no_ready|apply emits_skip].
  - apply pres_read. intros c Hc. rewrite (wt_jobs _ Hc). by apply pres_done.
  - apply wait_post. by repeat constructor.
  - apply wait_read. intros c _. destruct (announces c); [|apply pres_done]. apply wait_post. by repeat constructor.
  - apply wait_read. intros c _. destruct (announces c); [|apply pres_done]. apply wait_post. by repeat constructor.
  - wcore.
  - apply wait_injector.
  - apply wait_read. intros c Hc. apply pres_for. intros ev. destruct ev as [| |player l r]; try apply pres_done.
    destruct (hc_rumble c) as [id|]; [|apply pres_done]. destruct (findStream id c) as [cs|] eqn:Ef; [|apply pres_done].
    rewrite (wait_find _ _ _ Hc Ef). apply pres_null.
Qed.

(** Hosting clients of this program never starts a stream: whatever the
    clients and the user do, as long as the key confirmations that arrive are the
    ones the client's code sends, no call is ever made on a streamer. *)
Theorem no_stream_ever_starts injector es outs c
  (Hs : Forall event_sent es) (E : hcRun cfg th mvk isAddress es (newCoordinator cfg injector) = Done (outs, c)) :
  Forall no_stream outs /\ Forall (fun kv => cst_streamer (snd kv) = None) (hc_streams c).
Proof.
  assert (G : pres (hcRun cfg th mvk isAddress es)).
  { clear E. induction Hs as [|e es' He _ IH]; [apply pres_done|]. apply pres_seq; [by apply wait_step|exact IH]. }
  assert (W : waiting (newCoordinator cfg injector)) by (split; [by apply Forall_nil_2|done|by apply Forall_nil_2]).
  specialize (G _ W). unfold wlp in G. rewrite E in G. destruct G as [[_ _ Hw] Ho]. by split.
Qed.

End Wait.

(** A client of this program joins, exchanges keys and confirms them: the run is
    one of those above. *)
Definition ourClient : list HcEvent := lanHosting ++ joinEvents 1 7 ++ keyEvents 1 readyPayload.

Lemma no_stream_ever_starts_witness :
  match sampleRun (fun _ => true) ourClient with
  | Done (outs, c) => length (hc_channels c) = 1%nat /\ Forall no_stream outs
  | _ => False
  end.
Proof.
  assert (S : match sampleRun (fun _ => true) ourClient with Done (_, c) => length (hc_channels c) = 1%nat | _ => False end)
    by (vm_compute; reflexivity).
  destruct (sampleRun (fun _ => true) ourClient) as [[outs c]| | |] eqn:E; [|done..]. split; [exact S|].
  refine (proj1 (@no_stream_ever_starts Toy.cng _ _ _ _ _ _ _ _ _ E)).
  repeat (apply Forall_cons_2; [first [exact I | apply Forall_nil_2 | intros X; vm_compute in X; done | intros _; reflexivity]|]).
  apply Forall_nil_2.
Defined.

(** And the host drops it: the frame is malformed to the session, before the
    coordinator could see it. *)
Theorem ready_frame_drops_the_client :
  match sampleRun (fun _ => true) ourClient with
  | Done (outs, c) =>
      (exists text, OutNet (HoSendAndClose 7 (idCode IdHostReject) text) ∈ outs) /\
      (match hc_host c with Some a => HostApp.clients a | None => [] end) = [] /\ startsOf outs = []
  | _ => False
  end.
Proof. vm_compute. split_and!; [|reflexivity..]. eexists. repeat (first [apply list_elem_of_here | apply list_elem_of_further]). Qed.
