(* ===== verification/VideoWidget.v ===== *)
(** ui/VideoWidget.h and VideoWidget.cpp: the surface that shows the decoded frames
    and reports the keys and the mouse. What it paints is the list of the painter's
    calls; a [QImage] in 32-bit format is its size and its rows of [4 * width] bytes. *)

From S2P Require Import Prelude Double.

Open Scope Z_scope.

(** * Data *)

Record QImage := mkImg { img_width : Z; img_height : Z; img_bits : bytes }.

Definition nullImage : QImage := mkImg 0 0 [].
Definition isNull (i : QImage) : bool := (img_width i =? 0) || (img_height i =? 0).

Record VideoWidget := mkVw {
  vw_frame : QImage; vw_framesPresented : Z; vw_overlayVisible : bool; vw_qualityBanner : bytes;
  vw_fpsEstimate : double; vw_lastFpsUpdateNs : Z; vw_fullscreenActive : bool }.

Definition newVideoWidget : VideoWidget := mkVw nullImage 0 true [] dzero 0 false.

(** What the widget emits; [QtUpdate] is the request to repaint. *)
Inductive WidgetSignal :=
  | KeyPressed (qtKey : Z) (autorepeat : bool)
  | KeyReleased (qtKey : Z)
  | MouseMoved (x y : Z)
  | MouseButtonPressed (button x y : Z)
  | MouseButtonReleased (button x y : Z)
  | MouseWheelTurned (delta : Z)
  | ToggleFullscreenRequested (fullscreen : bool)
  | EscapePressed
  | QtUpdate.

Definition setFrame (f : QImage) (w : VideoWidget) : VideoWidget :=
  mkVw f (vw_framesPresented w) (vw_overlayVisible w) (vw_qualityBanner w) (vw_fpsEstimate w) (vw_lastFpsUpdateNs w)
    (vw_fullscreenActive w).
Definition setFps (presented : Z) (fps : double) (last : Z) (w : VideoWidget) : VideoWidget :=
  mkVw (vw_frame w) presented (vw_overlayVisible w) (vw_qualityBanner w) fps last (vw_fullscreenActive w).
Definition setOverlay (on : bool) (w : VideoWidget) : VideoWidget :=
  mkVw (vw_frame w) (vw_framesPresented w) on (vw_qualityBanner w) (vw_fpsEstimate w) (vw_lastFpsUpdateNs w)
    (vw_fullscreenActive w).
Definition setBanner (text : bytes) (w : VideoWidget) : VideoWidget :=
  mkVw (vw_frame w) (vw_framesPresented w) (vw_overlayVisible w) text (vw_fpsEstimate w) (vw_lastFpsUpdateNs w)
    (vw_fullscreenActive w).
Definition setFullscreenActive (on : bool) (w : VideoWidget) : VideoWidget :=
  mkVw (vw_frame w) (vw_framesPresented w) (vw_overlayVisible w) (vw_qualityBanner w) (vw_fpsEstimate w)
    (vw_lastFpsUpdateNs w) on.

(** * Frames *)

(** [memcpy] from an offset of the source; [None]: it would read past its end. *)
Definition copyBytes (src : bytes) (offset n : Z) : option bytes :=
  if (0 <=? offset) && (0 <=? n) && (offset + n <=? Z.of_nat (length src))
  then Some (take (Z.to_nat n) (drop (Z.to_nat offset) src)) else None.

(** The loop over the scan lines from [y]. *)
Fixpoint copyRows (src : bytes) (stride rowBytes : Z) (y : Z) (rows : nat) : option bytes :=
  match rows with
  | O => Some []
  | S rows =>
      row ← copyBytes src (y * stride) rowBytes;
      rest ← copyRows src stride rowBytes (y + 1) rows;
      Some (row ++ rest)
  end.

Definition copyFrame (bgra : bytes) (width height stride : Z) : option bytes :=
  if stride =? width * 4 then copyBytes bgra 0 (width * height * 4)
  else copyRows bgra stride (width * 4) 0 (Z.to_nat height).

(** Half a second of frames makes an estimate; [now] in nanoseconds. *)
Definition countFrame (now : Z) (w : VideoWidget) : VideoWidget :=
  let presented := u64 (vw_framesPresented w + 1) in
  if vw_lastFpsUpdateNs w =? 0 then setFps presented (vw_fpsEstimate w) now w
  else if 500000000 <=? u64 (now - vw_lastFpsUpdateNs w) then
    setFps 0 (ddiv (dmul (dofZ presented) (dofZ 1000000000)) (dofZ (u64 (now - vw_lastFpsUpdateNs w)))) now w
  else setFps presented (vw_fpsEstimate w) (vw_lastFpsUpdateNs w) w.

Definition presentFrame (now : Z) (bgra : bytes) (width height stride : Z) (w : VideoWidget) :
    option (list WidgetSignal * VideoWidget) :=
  bits ← copyFrame bgra width height stride;
  Some ([QtUpdate], countFrame now (setFrame (mkImg width height bits) w)).

Definition setQualityBanner (text : bytes) (w : VideoWidget) : list WidgetSignal * VideoWidget :=
  if bool_decide (vw_qualityBanner w = text) then ([], w) else ([QtUpdate], setBanner text w).

(** The size hint: the frame's, or 1280 by 720. *)
Definition sizeHint (w : VideoWidget) : Z * Z :=
  if isNull (vw_frame w) then (1280, 720) else (img_width (vw_frame w), img_height (vw_frame w)).

(** A rectangle: left, top, width and height. *)
Record QRect := mkRect { qr_x : Z; qr_y : Z; qr_width : Z; qr_height : Z }.

(** Qt's key codes that the widget takes for itself. *)
Class WidgetKeys := { Key_F10 : Z; Key_F11 : Z; Key_Escape : Z }.

Section Widget.
(** [scaled size bounds]: [QSize::scaled] keeping the aspect ratio. *)
Context `{WidgetKeys} (scaled : Z * Z -> Z * Z -> Z * Z).

(** [width] and [height] are the widget's own. *)
Definition videoDestRect (width height : Z) (w : VideoWidget) : QRect :=
  if isNull (vw_frame w) then mkRect 0 0 width height
  else
    let '(sw, sh) := scaled (img_width (vw_frame w), img_height (vw_frame w)) (width, height) in
    mkRect (Z.quot (width - sw) 2) (Z.quot (height - sh) 2) sw sh.

(** * Painting *)

Record QColor := mkColor { qc_red : Z; qc_green : Z; qc_blue : Z; qc_alpha : Z }.

Definition opaque (r g b : Z) : QColor := mkColor r g b 255.

Inductive Alignment := AlignCenter | AlignLeftVCenter | AlignVCenter.

(** The painter's calls; a text comes with the colour of the pen. *)
Inductive Paint :=
  | PaintFill (r : QRect) (c : QColor)
  | PaintImage (r : QRect) (i : QImage)
  | PaintPath (r : QRect) (radius : Z) (c : QColor)
  | PaintText (r : QRect) (a : Alignment) (c : QColor) (text : bytes).

(** [rect().adjusted(0, dy, 0, dy)]. *)
Definition shifted (dy : Z) (r : QRect) : QRect := mkRect (qr_x r) (qr_y r + dy) (qr_width r) (qr_height r).

Definition waitingText : bytes := str "Waiting for the stream...".
Definition waitingHint : bytes :=
  str "The video appears here as soon as the host starts the stream." ++ [10] ++ str "F11 fullscreen - F10 stats overlay".
Definition overlayHint : bytes := str "F10 overlay | F11 fullscreen".

Definition lineH : Z := 14.
Definition blockW : Z := 260.

(** The loop over the lines, from [y]. *)
Fixpoint drawLines (y : Z) (lines : list bytes) : list Paint :=
  match lines with
  | [] => []
  | line :: lines =>
      PaintText (mkRect 14 y (blockW - 12) lineH) AlignLeftVCenter (opaque 230 232 238) line :: drawLines (y + lineH) lines
  end.

(** [provided]: what the statistics provider returns, if there is one. *)
Definition drawOverlay (provided : option (list bytes)) (width height : Z) (w : VideoWidget) : list Paint :=
  let lines := default [] provided ++ [overlayHint] in
  let blockH := i32 (Z.of_nat (length lines)) * lineH + 10 in
  [PaintPath (mkRect 8 8 blockW blockH) 6 (mkColor 0 0 0 130)] ++ drawLines 16 lines ++
  (if bool_decide (vw_qualityBanner w = []) then []
   else [PaintPath (mkRect 0 (height - 34) width 26) 0 (mkColor 180 95 20 200);
         PaintText (mkRect 10 (height - 34) (width - 20) 26) AlignVCenter (opaque 255 255 255) (vw_qualityBanner w)]).

Definition paintEvent (provided : option (list bytes)) (width height : Z) (w : VideoWidget) : list Paint :=
  let rect := mkRect 0 0 width height in
  [PaintFill rect (opaque 6 7 10)] ++
  (if negb (isNull (vw_frame w)) then [PaintImage (videoDestRect width height w) (vw_frame w)]
   else [PaintText (shifted (-18) rect) AlignCenter (opaque 150 160 175) waitingText;
         PaintText (shifted 14 rect) AlignCenter (opaque 90 98 112) waitingHint]) ++
  (if vw_overlayVisible w then drawOverlay provided width height w else []).

(** * Keys and mouse *)

Definition keyPressEvent (key : Z) (autorepeat : bool) (w : VideoWidget) : list WidgetSignal * VideoWidget :=
  if key =? Key_F10 then ([QtUpdate], setOverlay (negb (vw_overlayVisible w)) w)
  else if key =? Key_F11 then ([ToggleFullscreenRequested true], w)
  else if (key =? Key_Escape) && vw_fullscreenActive w then ([EscapePressed], w)
  else ([KeyPressed key autorepeat], w).

Definition keyReleaseEvent (key : Z) : list WidgetSignal :=
  if (key =? Key_F10) || (key =? Key_F11) then [] else [KeyReleased key].

(** Positions are already cut to integers. *)
Definition mouseMoveEvent (x y : Z) : list WidgetSignal := [MouseMoved x y].
Definition mousePressEvent (button x y : Z) : list WidgetSignal := [MouseButtonPressed button x y].
Definition mouseReleaseEvent (button x y : Z) : list WidgetSignal := [MouseButtonReleased button x y].
Definition wheelEvent (angle : Z) : list WidgetSignal := [MouseWheelTurned angle].
Definition mouseDoubleClickEvent (isFullScreen : bool) : list WidgetSignal := [ToggleFullscreenRequested (negb isFullScreen)].

End Widget.

(** * Copying a frame *)

Lemma copyBytes_some src offset n r :
  copyBytes src offset n = Some r ->
  0 <= offset /\ 0 <= n /\ offset + n <= Z.of_nat (length src) /\ Z.of_nat (length r) = n /\
  forall k, 0 <= k < n -> r !! Z.to_nat k = src !! Z.to_nat (offset + k).
Proof.
  unfold copyBytes. destruct (_ && _) eqn:E; [|done]. b2p. intros [= <-].
  split_and!; try lia; [rewrite length_take, length_drop; lia|].
  intros k Hk. rewrite lookup_take_lt by lia. rewrite lookup_drop. f_equal. lia.
Qed.

Lemma copyBytes_defined src offset n :
  0 <= offset -> 0 <= n -> offset + n <= Z.of_nat (length src) -> is_Some (copyBytes src offset n).
Proof. intros H1 H2 H3. unfold copyBytes. replace (_ && _) with true; [by eexists|]. symmetry. lia. Qed.

Lemma copyRows_some src stride row y rows r :
  copyRows src stride row y rows = Some r ->
  Z.of_nat (length r) = Z.of_nat rows * Z.max 0 row /\ (rows = O \/ 0 <= row) /\
  forall j k, 0 <= j < Z.of_nat rows -> 0 <= k < row -> r !! Z.to_nat (j * row + k) = src !! Z.to_nat ((y + j) * stride + k).
Proof.
  revert y r. induction rows as [|rows IH]; intros y r; cbn [copyRows].
  - intros [= <-]. split; [done|]. split; [by left|lia].
  - destruct (copyBytes src (y * stride) row) as [a|] eqn:Ea; [|done]. cbn [mbind option_bind].
    destruct (copyRows src stride row (y + 1) rows) as [b|] eqn:Eb; [|done]. cbn [mbind option_bind]. intros [= <-].
    destruct (copyBytes_some _ _ _ _ Ea) as (H1 & H2 & H3 & H4 & H5). destruct (IH _ _ Eb) as (H6 & _ & H8).
    rewrite Z.max_r in * by lia. split_and!; [rewrite length_app; lia|by right|].
    intros j k Hj Hk. destruct (decide (j = 0)) as [->|Hn].
    + rewrite lookup_app_l by lia. rewrite Z.mul_0_l, Z.add_0_l, H5 by lia. do 2 f_equal. lia.
    + rewrite lookup_app_r by nia. replace (Z.to_nat (j * row + k) - length a)%nat with (Z.to_nat ((j - 1) * row + k)) by nia.
      rewrite H8 by lia. do 2 f_equal. lia.
Qed.

Lemma copyRows_defined src stride row y rows :
  0 <= y -> 0 <= stride -> 0 <= row -> (rows = O \/ (y + Z.of_nat rows - 1) * stride + row <= Z.of_nat (length src)) ->
  is_Some (copyRows src stride row y rows).
Proof.
  intros Hy Hs Hr. revert y Hy. induction rows as [|rows IH]; intros y Hy Hfit; [by eexists|]. cbn [copyRows].
  destruct (copyBytes_defined src (y * stride) row) as [a ->]; [nia|lia|destruct Hfit as [|Hfit]; [done|nia]|].
  destruct (IH (y + 1)) as [b ->]; [lia| |by eexists].
  destruct rows; [by left|right]. destruct Hfit as [|Hfit]; [done|]. nia.
Qed.

(** Row [j] of [height] rows of [row] bytes is what the source has at [j * stride]. *)
Definition showsRows (src bits : bytes) (stride row height : Z) : Prop :=
  Z.of_nat (length bits) = height * row /\
  forall j k, 0 <= j < height -> 0 <= k < row -> bits !! Z.to_nat (j * row + k) = src !! Z.to_nat (j * stride + k).

Lemma copyFrame_rows bgra width height stride :
  0 <= width -> 0 <= height -> 0 <= stride ->
  (height = 0 \/ (height - 1) * stride + width * 4 <= Z.of_nat (length bgra)) ->
  exists bits, copyFrame bgra width height stride = Some bits /\ showsRows bgra bits stride (width * 4) height.
Proof.
  intros Hw Hh Hs Hfit. unfold copyFrame, showsRows. destruct (Z.eqb_spec stride (width * 4)) as [->|_].
  - destruct (copyBytes_defined bgra 0 (width * height * 4)) as [bits E]; [lia|nia|destruct Hfit; nia|].
    exists bits. split; [done|]. destruct (copyBytes_some _ _ _ _ E) as (_ & _ & _ & Hl & Hk). split; [lia|].
    intros j k Hj Hkr. rewrite Hk by nia. f_equal.
  - destruct (copyRows_defined bgra stride (width * 4) 0 (Z.to_nat height)) as [bits E]; [lia..|lia| |].
    { destruct Hfit; [left; lia|right]. rewrite Z2Nat.id by lia. lia. }
    exists bits. split; [done|]. destruct (copyRows_some _ _ _ _ _ _ E) as (Hl & _ & Hk). split; [lia|].
    intros j k Hj Hkr. rewrite Hk by lia. f_equal.
Qed.

(** * Properties *)

(** The picture on the screen is the decoded frame: whenever the source holds
    [height] rows at the given stride, presenting it reads no byte beyond the
    source, and every byte of every row of the image is the one of that row of the
    source, whichever of the two copies (at once, or row by row) was taken. *)
Theorem presented_rows_are_the_source now bgra width height stride w :
  0 <= width -> 0 <= height -> 0 <= stride ->
  (height = 0 \/ (height - 1) * stride + width * 4 <= Z.of_nat (length bgra)) ->
  exists w', presentFrame now bgra width height stride w = Some ([QtUpdate], w') /\
    img_width (vw_frame w') = width /\ img_height (vw_frame w') = height /\
    showsRows bgra (img_bits (vw_frame w')) stride (width * 4) height.
Proof.
  intros Hw Hh Hs Hfit. destruct (copyFrame_rows bgra width height stride Hw Hh Hs Hfit) as (bits & E & H).
  unfold presentFrame. rewrite E. eexists. split; [reflexivity|]. unfold countFrame.
  destruct (vw_lastFpsUpdateNs w =? 0) eqn:E1; [|destruct (_ <=? _) eqn:E2];
    cbn [setFrame vw_lastFpsUpdateNs]; rewrite E1, ?E2; by cbn.
Qed.

Lemma presented_rows_are_the_source_witness :
  exists w', presentFrame 7 [1; 2; 3; 4; 99; 99; 5; 6; 7; 8] 1 2 6 newVideoWidget = Some ([QtUpdate], w') /\
    img_width (vw_frame w') = 1 /\ img_height (vw_frame w') = 2 /\
    showsRows [1; 2; 3; 4; 99; 99; 5; 6; 7; 8] (img_bits (vw_frame w')) 6 (1 * 4) 2.
Proof. apply presented_rows_are_the_source; [lia..|right; cbn; lia]. Defined.

(** The widget keeps F10 and F11 for itself, and Escape only while its window is
    full screen; every other key press is reported. *)
Lemma keys_reported `{WidgetKeys} key rep w :
  fst (keyPressEvent key rep w) = [KeyPressed key rep] <->
  key <> Key_F10 /\ key <> Key_F11 /\ ~ (key = Key_Escape /\ vw_fullscreenActive w = true).
Proof.
  unfold keyPressEvent. destruct (Z.eqb_spec key Key_F10); [by split; [|tauto]|].
  destruct (Z.eqb_spec key Key_F11); [by split; [|tauto]|].
  destruct (Z.eqb_spec key Key_Escape); destruct (vw_fullscreenActive w); cbn [andb fst]; split; try done; try tauto.
  all: intros _; split_and!; try done; intros [? ?]; done.
Qed.

(** * What is painted *)

(** [a] inside [b]. *)
Definition inside (a b : QRect) : Prop :=
  qr_x b <= qr_x a /\ qr_x a + qr_width a <= qr_x b + qr_width b /\
  qr_y b <= qr_y a /\ qr_y a + qr_height a <= qr_y b + qr_height b.

Lemma drawLines_at lines y k r al c text :
  drawLines y lines !! k = Some (PaintText r al c text) ->
  lines !! k = Some text /\ r = mkRect 14 (y + lineH * Z.of_nat k) (blockW - 12) lineH.
Proof.
  revert y k. induction lines as [|l lines IH]; intros y [|k]; cbn [drawLines lookup list_lookup]; try done.
  - intros [= <- <- <- <-]. split; [done|]. f_equal; lia.
  - intros Hk. destruct (IH _ _ Hk) as [H1 ->]. split; [done|]. f_equal; lia.
Qed.

Lemma drawLines_length lines y : length (drawLines y lines) = length lines.
Proof. revert y. induction lines as [|l lines IH]; intros y; cbn; [done|]. by rewrite IH. Qed.

(** The statistics are readable: the overlay starts with its backdrop, every line
    the provider gives follows, in order and with the help line at the end, each
    inside the backdrop and below the one before. *)
Theorem overlay_lines_are_on_the_backdrop lines width height w k text :
  Z.of_nat (length lines) < 2 ^ 30 -> (lines ++ [overlayHint]) !! k = Some text ->
  exists back r c, drawOverlay (Some lines) width height w !! 0%nat = Some (PaintPath back 6 (mkColor 0 0 0 130)) /\
    drawOverlay (Some lines) width height w !! S k = Some (PaintText r AlignLeftVCenter c text) /\
    inside r back /\ qr_y r = 16 + lineH * Z.of_nat k /\ qr_height r = lineH.
Proof.
  intros Hl Hk. set (all := lines ++ [overlayHint]) in *. unfold drawOverlay. change (default [] (Some lines) ++ [overlayHint]) with all.
  assert (Hn : (k < length all)%nat) by by eapply lookup_lt_Some.
  assert (Hall : length all = S (length lines)) by (unfold all; rewrite length_app; cbn; lia).
  destruct (lookup_lt_is_Some_2 (drawLines 16 all) k) as [p Hp]; [by rewrite drawLines_length|].
  assert (Ht : exists r a c t, p = PaintText r a c t /\ a = AlignLeftVCenter).
  { assert (G : forall l y q, q ∈ drawLines y l -> exists r a c t, q = PaintText r a c t /\ a = AlignLeftVCenter).
    { clear. induction l as [|x l IH]; intros y q; cbn [drawLines]; [by intros ?%not_elem_of_nil|].
      intros [->|Hq]%elem_of_cons; [by eexists _, _, _, _|by eapply IH]. }
    eapply G, list_elem_of_lookup_2, Hp. }
  destruct Ht as (r & a & c & t & -> & ->). destruct (drawLines_at _ _ _ _ _ _ _ Hp) as [Hk' ->].
  rewrite Hk in Hk'. injection Hk' as <-. eexists _, _, c. split; [done|]. split.
  - apply (lookup_app_l_Some (drawLines 16 all) _ k _ Hp).
  - split; [|by cbn]. rewrite i32_small by lia. unfold inside, lineH, blockW. cbn [qr_x qr_y qr_width qr_height]. lia.
Qed.

Lemma overlay_lines_are_on_the_backdrop_witness :
  exists back r c, drawOverlay (Some [str "RTT 5 ms"]) 640 360 newVideoWidget !! 0%nat = Some (PaintPath back 6 (mkColor 0 0 0 130)) /\
    drawOverlay (Some [str "RTT 5 ms"]) 640 360 newVideoWidget !! 2%nat = Some (PaintText r AlignLeftVCenter c overlayHint) /\
    inside r back /\ qr_y r = 16 + lineH * 1 /\ qr_height r = lineH.
Proof. apply (overlay_lines_are_on_the_backdrop [str "RTT 5 ms"] 640 360 newVideoWidget 1 overlayHint); [by vm_compute|done]. Defined.

(** With the statistics switched off the quality banner is not painted either,
    whatever it says. *)
Theorem banner_hides_with_the_overlay scaled provided width height text w :
  vw_overlayVisible w = false ->
  paintEvent scaled provided width height (setBanner text w) = paintEvent scaled provided width height w.
Proof. intros Ho. unfold paintEvent. cbn [setBanner vw_overlayVisible vw_frame]. by rewrite Ho. Qed.

(** The picture lies in the middle of the widget and inside it, as far as [scaled]
    keeps to its bounds. *)
Theorem picture_is_inside_the_widget scaled provided width height w :
  (forall s b, 0 <= fst b -> 0 <= snd b -> 0 <= fst (scaled s b) <= fst b /\ 0 <= snd (scaled s b) <= snd b) ->
  0 <= width -> 0 <= height -> isNull (vw_frame w) = false ->
  exists r, PaintImage r (vw_frame w) ∈ paintEvent scaled provided width height w /\ inside r (mkRect 0 0 width height) /\
    Z.abs ((width - (qr_x r + qr_width r)) - qr_x r) <= 1 /\ Z.abs ((height - (qr_y r + qr_height r)) - qr_y r) <= 1.
Proof.
  intros Hs Hw Hh Hn. exists (videoDestRect scaled width height w). split.
  - unfold paintEvent. rewrite Hn. cbn [negb app]. apply elem_of_cons. right. apply elem_of_cons. by left.
  - unfold videoDestRect. rewrite Hn. specialize (Hs (img_width (vw_frame w), img_height (vw_frame w)) (width, height)).
    destruct (scaled _ _) as [sw sh]. cbn [fst snd] in Hs. destruct Hs as [H1 H2]; [done..|].
    unfold inside. cbn [qr_x qr_y qr_width qr_height]. rewrite !Z.quot_div_nonneg by lia. Z.div_mod_to_equations. lia.
Qed.

Lemma picture_is_inside_the_widget_witness :
  exists r, PaintImage r (mkImg 1 1 [0; 0; 0; 0]) ∈ paintEvent (fun _ b => (Z.min (fst b) (snd b), Z.min (fst b) (snd b))) None 7 4
      (setFrame (mkImg 1 1 [0; 0; 0; 0]) newVideoWidget) /\ inside r (mkRect 0 0 7 4) /\
    Z.abs ((7 - (qr_x r + qr_width r)) - qr_x r) <= 1 /\ Z.abs ((4 - (qr_y r + qr_height r)) - qr_y r) <= 1.
Proof.
  apply (picture_is_inside_the_widget (fun _ b => (Z.min (fst b) (snd b), Z.min (fst b) (snd b))) None 7 4
    (setFrame (mkImg 1 1 [0; 0; 0; 0]) newVideoWidget)); [|lia|lia|done].
  intros s [a b]. cbn. lia.
Defined.
