(* ===== verification/InputForwarding.v ===== *)
(** app/ClientCoordinator.cpp, [wireInputForwarding] and the key table: what the
    video widget reports becomes the input events the client sends.

    The numbers of Qt's keys and of the Windows virtual keys are parameters; the
    names are the source's. *)

From S2P Require Import Prelude OrderedMap InputProtocol InputInjector VideoWidget.

Open Scope Z_scope.

(** * Keys *)

(** The keys the table names, [Qt::Key_...]. *)
Inductive QtKey :=
  | Space | Return_ | Enter | Escape | Backspace | Tab | Shift | Control | Alt | Pause | CapsLock | PageUp | PageDown
  | End_ | Home | Left | Up | Right | Down | Insert | Delete | Minus | Equal | BracketLeft | BracketRight | Backslash
  | Semicolon | Apostrophe | Comma | Period | Slash | QuoteLeft | F1 | F24.

(** [VK_...]. *)
Inductive VirtualKey :=
  | VK_SPACE | VK_RETURN | VK_ESCAPE | VK_BACK | VK_TAB | VK_SHIFT | VK_CONTROL | VK_MENU | VK_PAUSE | VK_CAPITAL
  | VK_PRIOR | VK_NEXT | VK_END | VK_HOME | VK_LEFT | VK_UP | VK_RIGHT | VK_DOWN | VK_INSERT | VK_DELETE | VK_OEM_MINUS
  | VK_OEM_PLUS | VK_OEM_4 | VK_OEM_6 | VK_OEM_5 | VK_OEM_1 | VK_OEM_7 | VK_OEM_COMMA | VK_OEM_PERIOD | VK_OEM_2 | VK_OEM_3.

(** The headers of Qt and of Windows. *)
Class KeyCodes := { qk : QtKey -> Z; vk : VirtualKey -> Z; mouseButtons : Z * Z * Z * Z }.

(** Virtual keys are documented to lie in 1 to 254, and [Qt::Key_F24] is 23 after
    [Qt::Key_F1]. *)
Class KeyCodesLaws `{KeyCodes} : Prop := {
  vk_range v : 1 <= vk v <= 254;
  qk_fkeys : qk F24 = qk F1 + 23 }.

Definition keyTable : list (QtKey * VirtualKey) :=
  [(Space, VK_SPACE); (Return_, VK_RETURN); (Enter, VK_RETURN); (Escape, VK_ESCAPE); (Backspace, VK_BACK); (Tab, VK_TAB);
   (Shift, VK_SHIFT); (Control, VK_CONTROL); (Alt, VK_MENU); (Pause, VK_PAUSE); (CapsLock, VK_CAPITAL); (PageUp, VK_PRIOR);
   (PageDown, VK_NEXT); (End_, VK_END); (Home, VK_HOME); (Left, VK_LEFT); (Up, VK_UP); (Right, VK_RIGHT); (Down, VK_DOWN);
   (Insert, VK_INSERT); (Delete, VK_DELETE); (Minus, VK_OEM_MINUS); (Equal, VK_OEM_PLUS); (BracketLeft, VK_OEM_4);
   (BracketRight, VK_OEM_6); (Backslash, VK_OEM_5); (Semicolon, VK_OEM_1); (Apostrophe, VK_OEM_7); (Comma, VK_OEM_COMMA);
   (Period, VK_OEM_PERIOD); (Slash, VK_OEM_2); (QuoteLeft, VK_OEM_3)].

Definition extendedKeys : list QtKey := [PageUp; PageDown; End_; Home; Left; Up; Right; Down; Insert; Delete; Alt].

Section Forwarding.
Context `{KeyCodes}.

Definition qtKeyToVk (key : Z) : Z :=
  if (65 <=? key) && (key <=? 90) then 65 + (key - 65)
  else if (48 <=? key) && (key <=? 57) then 48 + (key - 48)
  else if (qk F1 <=? key) && (key <=? qk F24) then 0x70 + (key - qk F1)
  else match List.find (fun kv => key =? qk (fst kv)) keyTable with Some (_, v) => vk v | None => 0 end.

Definition isExtendedKey (key : Z) : bool := existsb (fun k => key =? qk k) extendedKeys.

(** * Events *)

Definition keyEvent (t : InputEventType) (key now : Z) : InputEvent :=
  mkIev (inputEventTypeCode t) (u8 (qtKeyToVk key)) 0 0 0 0 (if isExtendedKey key then 1 else 0) now.

Definition in32 (x : Z) : bool := (- 2 ^ 31 <=? x) && (x <? 2 ^ 31).

(** [std::clamp] on [int], undefined when the bounds cross. *)
Definition clampTo (v lo hi : Z) : option Z :=
  if hi <? lo then None else Some (if v <? lo then lo else if hi <? v then hi else v).

(** One axis: [contained] is the rectangle's answer for the whole position. *)
Definition mouseAxis (contained : bool) (v origin size : Z) : option Z :=
  if negb (in32 (v - origin)) then None
  else
    v ← (if contained then Some (v - origin) else clampTo (v - origin) 0 (size - 1));
    v ← clampTo v 0 (size - 1);
    if in32 (v * 65535) then Some (u16 (Z.quot (v * 65535) (Z.max 1 (size - 1)))) else None.

Definition mouseMoveForwarded (contained : bool) (x y : Z) (video : QRect) (now : Z) : option InputEvent :=
  ex ← mouseAxis contained x (qr_x video) (qr_width video);
  ey ← mouseAxis contained y (qr_y video) (qr_height video);
  Some (mkIev (inputEventTypeCode MouseMove) 0 ex ey 0 0 0 now).

Definition buttonCode (button : Z) : Z :=
  let '(bl, br, bm, x1) := mouseButtons in
  if button =? bl then 0 else if button =? br then 1 else if button =? bm then 2 else if button =? x1 then 3 else 4.

Definition buttonEvent (down : bool) (button now : Z) : InputEvent :=
  mkIev (inputEventTypeCode (if down then MouseButtonDown else MouseButtonUp)) (buttonCode button) 0 0 0 0 0 now.

Definition clampWheel (v : Z) : Z := if v <? -100 then -100 else if 100 <? v then 100 else v.

Definition wheelForwarded (delta now : Z) : InputEvent :=
  mkIev (inputEventTypeCode MouseWheel) 0 0 0 (i16 (clampWheel (Z.quot delta 120))) 0 0 now.

(** The connections [wireInputForwarding] makes: what is queued for a signal, [now]
    being [steadyNowNs()]. *)
Definition forwardSignal (contained : bool) (video : QRect) (now : Z) (s : WidgetSignal) : option (list InputEvent) :=
  match s with
  | KeyPressed key rep => Some (if rep then [] else [keyEvent KeyDown key now])
  | KeyReleased key => Some [keyEvent KeyUp key now]
  | MouseMoved x y => e ← mouseMoveForwarded contained x y video now; Some [e]
  | MouseButtonPressed b _ _ => Some [buttonEvent true b now]
  | MouseButtonReleased b _ _ => Some [buttonEvent false b now]
  | MouseWheelTurned d => Some [wheelForwarded d now]
  | ToggleFullscreenRequested _ | EscapePressed | QtUpdate => Some []
  end.

End Forwarding.

(** The values of the headers. *)
Module Headers.

Definition qtKey (k : QtKey) : Z :=
  match k with
  | Space => 0x20 | Return_ => 0x01000004 | Enter => 0x01000005 | Escape => 0x01000000 | Backspace => 0x01000003
  | Tab => 0x01000001 | Shift => 0x01000020 | Control => 0x01000021 | Alt => 0x01000023 | Pause => 0x01000008
  | CapsLock => 0x01000024 | PageUp => 0x01000016 | PageDown => 0x01000017 | End_ => 0x01000011 | Home => 0x01000010
  | Left => 0x01000012 | Up => 0x01000013 | Right => 0x01000014 | Down => 0x01000015 | Insert => 0x01000006
  | Delete => 0x01000007 | Minus => 0x2d | Equal => 0x3d | BracketLeft => 0x5b | BracketRight => 0x5d | Backslash => 0x5c
  | Semicolon => 0x3b | Apostrophe => 0x27 | Comma => 0x2c | Period => 0x2e | Slash => 0x2f | QuoteLeft => 0x60
  | F1 => 0x01000030 | F24 => 0x01000047
  end.

Definition virtualKey (v : VirtualKey) : Z :=
  match v with
  | VK_SPACE => 0x20 | VK_RETURN => 0x0D | VK_ESCAPE => 0x1B | VK_BACK => 0x08 | VK_TAB => 0x09 | VK_SHIFT => 0x10
  | VK_CONTROL => 0x11 | VK_MENU => 0x12 | VK_PAUSE => 0x13 | VK_CAPITAL => 0x14 | VK_PRIOR => 0x21 | VK_NEXT => 0x22
  | VK_END => 0x23 | VK_HOME => 0x24 | VK_LEFT => 0x25 | VK_UP => 0x26 | VK_RIGHT => 0x27 | VK_DOWN => 0x28
  | VK_INSERT => 0x2D | VK_DELETE => 0x2E | VK_OEM_MINUS => 0xBD | VK_OEM_PLUS => 0xBB | VK_OEM_4 => 0xDB
  | VK_OEM_6 => 0xDD | VK_OEM_5 => 0xDC | VK_OEM_1 => 0xBA | VK_OEM_7 => 0xDE | VK_OEM_COMMA => 0xBC
  | VK_OEM_PERIOD => 0xBE | VK_OEM_2 => 0xBF | VK_OEM_3 => 0xC0
  end.

Definition codes : KeyCodes := {| qk := qtKey; vk := virtualKey; mouseButtons := (1, 2, 4, 8) |}.

Lemma codes_laws : @KeyCodesLaws codes.
Proof. split; [by intros []|done]. Qed.

End Headers.

(** * The host's side *)

Section Injected.
Context `{KeyCodesLaws} (mapVirtualKey : Z -> Z).

(** Where a position is on the host's desktop, of 65536 steps. *)
Definition axisSpec (v origin size : Z) : Z :=
  Z.max 0 (Z.min (v - origin) (size - 1)) * 65535 / Z.max 1 (size - 1).

(** What the host is meant to synthesise for a signal. *)
Definition specInput (video : QRect) (s : WidgetSignal) : option INPUT :=
  match s with
  | KeyPressed key false => if qtKeyToVk key =? 0 then None else Some (makeKeyInput mapVirtualKey (qtKeyToVk key) true (isExtendedKey key))
  | KeyReleased key => if qtKeyToVk key =? 0 then None else Some (makeKeyInput mapVirtualKey (qtKeyToVk key) false (isExtendedKey key))
  | MouseMoved x y =>
      Some (makeMouseMoveInput (axisSpec x (qr_x video) (qr_width video)) (axisSpec y (qr_y video) (qr_height video)))
  | MouseButtonPressed b _ _ => Some (makeMouseButtonInput (buttonCode b) true)
  | MouseButtonReleased b _ _ => Some (makeMouseButtonInput (buttonCode b) false)
  | MouseWheelTurned d =>
      Some (InMouse 0 0 (WheelData (u32 (120 * clampWheel (Z.quot d 120)))) [MOUSEEVENTF_WHEEL])
  | _ => None
  end.

Lemma keyTable_range key : 0 <= match List.find (fun kv => key =? qk (fst kv)) keyTable with Some (_, v) => vk v | None => 0 end <= 254.
Proof. destruct (List.find _ _) as [[k v]|]; [|lia]. pose proof (vk_range v). lia. Qed.

Lemma qtKeyToVk_range key : 0 <= qtKeyToVk key <= 254.
Proof.
  unfold qtKeyToVk. destruct (_ && _) eqn:E1; b2p; [lia|]. clear E1. destruct (_ && _) eqn:E2; b2p; [lia|]. clear E2.
  destruct (_ && _) eqn:E3; b2p; [rewrite qk_fkeys in *; lia|]. apply keyTable_range.
Qed.

Lemma qtKeyToVk_u8 key : u8 (qtKeyToVk key) = qtKeyToVk key.
Proof. pose proof (qtKeyToVk_range key). apply Z.mod_small. lia. Qed.

Lemma clampTo_in v lo hi : lo <= hi -> clampTo v lo hi = Some (Z.max lo (Z.min v hi)).
Proof.
  intros Hle. unfold clampTo. destruct (Z.ltb_spec hi lo); [lia|]. f_equal.
  destruct (Z.ltb_spec v lo); [lia|]. destruct (Z.ltb_spec hi v); lia.
Qed.

Lemma axisSpec_range v origin size : 1 <= size -> 0 <= axisSpec v origin size <= 65535.
Proof.
  intros Hs. unfold axisSpec. set (m := Z.max 0 _). assert (0 <= m <= size - 1) by lia. split.
  - apply Z.div_pos; lia.
  - apply Z.div_le_upper_bound; nia.
Qed.

(** The test of containment changes nothing. *)
Lemma mouseAxis_value contained v origin size :
  1 <= size ->
  mouseAxis contained v origin size =
  if in32 (v - origin) && in32 (Z.max 0 (Z.min (v - origin) (size - 1)) * 65535)
  then Some (axisSpec v origin size) else None.
Proof.
  intros Hs. unfold mouseAxis. destruct (in32 (v - origin)); [|done]. cbn [negb andb].
  assert (E : exists w, (if contained then Some (v - origin) else clampTo (v - origin) 0 (size - 1)) = Some w /\
                        Z.max 0 (Z.min w (size - 1)) = Z.max 0 (Z.min (v - origin) (size - 1))).
  { destruct contained; [by eexists|]. rewrite clampTo_in by lia. eexists. split; [done|lia]. }
  destruct E as (w & -> & Ew). cbn [mbind option_bind]. rewrite clampTo_in by lia. cbn [mbind option_bind]. rewrite Ew.
  pose proof (axisSpec_range v origin size Hs). unfold axisSpec in *. set (m := Z.max 0 _) in *.
  destruct (in32 _); [|done]. rewrite Z.quot_div_nonneg by lia. unfold u16. rewrite Z.mod_small by lia. done.
Qed.

Lemma mouseAxis_spec contained v origin size :
  1 <= size <= 32769 -> in32 (v - origin) = true -> mouseAxis contained v origin size = Some (axisSpec v origin size).
Proof.
  intros Hs Hv. rewrite mouseAxis_value, Hv by lia. replace (in32 _) with true; [done|]. unfold in32. lia.
Qed.

Lemma mouseAxis_defined contained v origin size z :
  mouseAxis contained v origin size = Some z -> 1 <= size -> z = axisSpec v origin size.
Proof. intros E Hs. rewrite mouseAxis_value in E by done. destruct (_ && _); [by injection E|done]. Qed.

Ltac typed_fields :=
  unfold iev_typed, buttonEvent, fits, sfits16 in *;
  cbn [ie_type ie_code ie_x ie_y ie_delta ie_pad0 ie_flags ie_timestampNs inputEventTypeCode]; lia.

Lemma keyEvent_typed t key now : fits 64 now -> iev_typed (keyEvent t key now).
Proof.
  intros Hn. unfold keyEvent. rewrite qtKeyToVk_u8. pose proof (qtKeyToVk_range key).
  destruct t, (isExtendedKey key); typed_fields.
Qed.

Lemma clampWheel_range v : -100 <= clampWheel v <= 100.
Proof. unfold clampWheel. destruct (Z.ltb_spec v (-100)); [lia|]. destruct (Z.ltb_spec 100 v); lia. Qed.

Lemma i16_small x : -100 <= x <= 100 -> i16 x = x.
Proof.
  intros Hx. rewrite <- (i16_u16 x) at 2 by (unfold sfits16; lia). unfold i16, to_signed, u16. by rewrite Z.mod_mod.
Qed.

Lemma wheel_input x : -100 <= x <= 100 -> makeWheelInput (i16 x) = InMouse 0 0 (WheelData (u32 (120 * x))) [MOUSEEVENTF_WHEEL].
Proof.
  intros Hx. rewrite i16_small by done. unfold makeWheelInput, WHEEL_DELTA, u32. do 2 f_equal.
  by rewrite Z.mul_mod_idemp_l, Z.mul_comm by done.
Qed.

Lemma buttonCode_range b : 0 <= buttonCode b <= 4.
Proof. unfold buttonCode. destruct mouseButtons as [[[bl br] bm] x1]. repeat (destruct (_ =? _); [lia|]). lia. Qed.

Definition rectOk (r : QRect) : Prop := 1 <= qr_width r /\ 1 <= qr_height r.

Lemma forwarded_typed contained video now s e :
  fits 64 now -> rectOk video -> forwardSignal contained video now s = Some [e] -> iev_typed e.
Proof.
  intros Hn [Hw Hh]. destruct s as [key rep|key|x y|b x y|b x y|d|on| |]; cbn [forwardSignal]; try done.
  - destruct rep; [done|]. intros [= <-]. by apply keyEvent_typed.
  - intros [= <-]. by apply keyEvent_typed.
  - unfold mouseMoveForwarded. destruct (mouseAxis _ x _ _) as [ex|] eqn:Ex; [|done]. cbn [mbind option_bind].
    destruct (mouseAxis _ y _ _) as [ey|] eqn:Ey; [|done]. cbn [mbind option_bind]. intros [= <-].
    apply mouseAxis_defined in Ex, Ey; try done. subst.
    pose proof (axisSpec_range x (qr_x video) _ Hw). pose proof (axisSpec_range y (qr_y video) _ Hh).
    typed_fields.
  - intros [= <-]. pose proof (buttonCode_range b). typed_fields.
  - intros [= <-]. pose proof (buttonCode_range b). typed_fields.
  - intros [= <-]. pose proof (clampWheel_range (Z.quot d 120)). unfold wheelForwarded. rewrite i16_small by done.
    typed_fields.
Qed.

(** What [applyEvent] makes of a forwarded event. *)
Lemma applyEvent_spec sent p contained video now s e inj :
  rectOk video -> forwardSignal contained video now s = Some [e] ->
  fst (applyEvent mapVirtualKey sent p e inj) = sent && (if specInput video s is Some _ then true else false) /\
  fst (snd (applyEvent mapVirtualKey sent p e inj)) =
    match specInput video s with Some i => [EvSend i (Some sent)] | None => [] end.
Proof.
  intros [Hw Hh].
  assert (Hsend : forall i s', fst (sendChecked sent i s') = sent && true /\ fst (snd (sendChecked sent i s')) = [EvSend i (Some sent)])
    by (unfold sendChecked; by destruct sent).
  assert (Hflag : forall key, negb (Z.land (if isExtendedKey key then 1 else 0) 1 =? 0) = isExtendedKey key)
    by (intros key; by destruct (isExtendedKey key)).
  assert (Hkey : forall key, (256 <=? qtKeyToVk key) = false) by (intros key; pose proof (qtKeyToVk_range key); lia).
  destruct s as [key rep|key|x y|b x y|b x y|d|on| |]; cbn [forwardSignal]; try done.
  - destruct rep; [done|]. intros [= <-]. unfold applyEvent, keyEvent.
    cbn -[qtKeyToVk isExtendedKey u8 sendChecked Z.leb Z.land makeKeyInput ensureClient].
    rewrite qtKeyToVk_u8, Hkey, Hflag. destruct (_ =? 0); [by rewrite andb_false_r|apply Hsend].
  - intros [= <-]. unfold applyEvent, keyEvent.
    cbn -[qtKeyToVk isExtendedKey u8 sendChecked Z.leb Z.land makeKeyInput ensureClient].
    rewrite qtKeyToVk_u8, Hkey, Hflag. destruct (_ =? 0); [by rewrite andb_false_r|apply Hsend].
  - unfold mouseMoveForwarded. destruct (mouseAxis _ x _ _) as [ex|] eqn:Ex; [|done]. cbn [mbind option_bind].
    destruct (mouseAxis _ y _ _) as [ey|] eqn:Ey; [|done]. cbn [mbind option_bind]. intros [= <-].
    apply mouseAxis_defined in Ex, Ey; try done. subst. apply Hsend.
  - intros [= <-]. unfold applyEvent, buttonEvent. cbn -[buttonCode sendChecked Z.leb ensureClient].
    replace (5 <=? buttonCode b) with false by (pose proof (buttonCode_range b); lia). apply Hsend.
  - intros [= <-]. unfold applyEvent, buttonEvent. cbn -[buttonCode sendChecked Z.leb ensureClient].
    replace (5 <=? buttonCode b) with false by (pose proof (buttonCode_range b); lia). apply Hsend.
  - intros [= <-]. unfold applyEvent, wheelForwarded. cbn -[i16 clampWheel makeWheelInput sendChecked ensureClient Z.mul].
    rewrite wheel_input by apply clampWheel_range. apply Hsend.
Qed.

(** * Properties *)

(** Positions on one axis: with a picture of 1 to 32769 pixels the code's
    arithmetic never overflows and its clamps are defined; the result is one of
    the desktop's 65536 positions, grows with the position, is 0 at and before the
    first pixel and 65535 at and beyond the last. *)
Theorem mouse_axis_covers_the_desktop contained origin size v v' :
  2 <= size <= 32769 -> in32 (v - origin) = true -> in32 (v' - origin) = true -> v <= v' ->
  exists z z', mouseAxis contained v origin size = Some z /\ mouseAxis contained v' origin size = Some z' /\
    0 <= z <= z' /\ z' <= 65535 /\
    (v <= origin -> z = 0) /\ (origin + size - 1 <= v' -> z' = 65535).
Proof.
  intros Hs Hv Hv' Hle. rewrite !mouseAxis_spec by (done || lia).
  exists (axisSpec v origin size), (axisSpec v' origin size). split; [done|]. split; [done|].
  pose proof (axisSpec_range v origin size). pose proof (axisSpec_range v' origin size).
  unfold axisSpec in *. rewrite (Z.max_r 1) in * by lia. split_and!; try lia.
  - apply Z.div_le_mono; lia.
  - intros Ho. replace (Z.max 0 _) with 0 by lia. by apply Z.div_0_l; lia.
  - intros Ho. replace (Z.max 0 _) with (size - 1) by lia. rewrite Z.mul_comm. apply Z.div_mul. lia.
Qed.

(** A wheel step below 120 units, as touch pads report, is sent as no movement. *)
Theorem small_wheel_steps_vanish delta now :
  - 120 < delta < 120 -> wheelForwarded delta now = wheelForwarded 0 now.
Proof.
  intros Hd. unfold wheelForwarded. do 2 f_equal. destruct (decide (0 <= delta)).
  - by rewrite Z.quot_small by lia.
  - replace delta with (- (- delta)) by lia. rewrite Z.quot_opp_l, Z.quot_small by lia. done.
Qed.

(** A key outside the table is not dropped: it is sent, with code 0. *)
Theorem unmapped_keys_are_sent contained video now key :
  qtKeyToVk key = 0 ->
  forwardSignal contained video now (KeyPressed key false) =
    Some [mkIev (inputEventTypeCode KeyDown) 0 0 0 0 0 (if isExtendedKey key then 1 else 0) now].
Proof. intros Hk. cbn [forwardSignal]. unfold keyEvent. by rewrite Hk. Qed.

End Injected.

(** * The meaning of the player's input

    What the documentation of the two platforms says of each key and button, by
    number: the Qt key, the virtual key, and whether its input carries the extended
    bit. The extended keys are those between the letters and the numeric pad, and
    Alt. *)

Definition namedKeys : list (Z * (Z * bool)) :=
  [(0x20, (0x20, false));            (* space *)
   (0x01000004, (0x0D, false));      (* return *)
   (0x01000005, (0x0D, false));      (* enter, on the pad *)
   (0x01000000, (0x1B, false));      (* escape *)
   (0x01000003, (0x08, false));      (* backspace *)
   (0x01000001, (0x09, false));      (* tab *)
   (0x01000020, (0x10, false));      (* shift *)
   (0x01000021, (0x11, false));      (* control *)
   (0x01000023, (0x12, true));       (* alt *)
   (0x01000008, (0x13, false));      (* pause *)
   (0x01000024, (0x14, false));      (* caps lock *)
   (0x01000016, (0x21, true));       (* page up *)
   (0x01000017, (0x22, true));       (* page down *)
   (0x01000011, (0x23, true));       (* end *)
   (0x01000010, (0x24, true));       (* home *)
   (0x01000012, (0x25, true));       (* left *)
   (0x01000013, (0x26, true));       (* up *)
   (0x01000014, (0x27, true));       (* right *)
   (0x01000015, (0x28, true));       (* down *)
   (0x01000006, (0x2D, true));       (* insert *)
   (0x01000007, (0x2E, true));       (* delete *)
   (0x2D, (0xBD, false));            (* minus *)
   (0x3D, (0xBB, false));            (* equal: the plus key *)
   (0x5B, (0xDB, false));            (* left bracket *)
   (0x5D, (0xDD, false));            (* right bracket *)
   (0x5C, (0xDC, false));            (* backslash *)
   (0x3B, (0xBA, false));            (* semicolon *)
   (0x27, (0xDE, false));            (* apostrophe *)
   (0x2C, (0xBC, false));            (* comma *)
   (0x2E, (0xBE, false));            (* period *)
   (0x2F, (0xBF, false));            (* slash *)
   (0x60, (0xC0, false))].           (* back quote *)

(** Letters and digits are their own virtual keys; F1 to F24 are consecutive. *)
Definition keyMeans (key : Z) : option (Z * bool) :=
  if ((0x41 <=? key) && (key <=? 0x5A)) || ((0x30 <=? key) && (key <=? 0x39)) then Some (key, false)
  else if (0x01000030 <=? key) && (key <=? 0x01000047) then Some (key - 0x01000030 + 0x70, false)
  else snd <$> List.find (fun kv => key =? fst kv) namedKeys.

(** Qt's buttons: 1 left, 2 right, 4 middle, 8 the first extra one. *)
Definition buttonMeans (button : Z) (down : bool) : INPUT :=
  match button with
  | 1 => InMouse 0 0 NoData [if down then MOUSEEVENTF_LEFTDOWN else MOUSEEVENTF_LEFTUP]
  | 2 => InMouse 0 0 NoData [if down then MOUSEEVENTF_RIGHTDOWN else MOUSEEVENTF_RIGHTUP]
  | 4 => InMouse 0 0 NoData [if down then MOUSEEVENTF_MIDDLEDOWN else MOUSEEVENTF_MIDDLEUP]
  | 8 => InMouse 0 0 XBUTTON1 [if down then MOUSEEVENTF_XDOWN else MOUSEEVENTF_XUP]
  | _ => InMouse 0 0 XBUTTON2 [if down then MOUSEEVENTF_XDOWN else MOUSEEVENTF_XUP]
  end.

Section Meaning.
Context (mapVirtualKey : Z -> Z).

(** The input a signal of the widget stands for. *)
Definition meantInput (video : QRect) (s : WidgetSignal) : option INPUT :=
  match s with
  | KeyPressed key false =>
      '(v, ext) ← keyMeans key; Some (InKeyboard v (u16 (mapVirtualKey v)) (if (ext : bool) then [KEYEVENTF_EXTENDEDKEY] else []))
  | KeyReleased key =>
      '(v, ext) ← keyMeans key;
      Some (InKeyboard v (u16 (mapVirtualKey v)) (KEYEVENTF_KEYUP :: if (ext : bool) then [KEYEVENTF_EXTENDEDKEY] else []))
  | MouseMoved x y =>
      Some (InMouse (axisSpec x (qr_x video) (qr_width video)) (axisSpec y (qr_y video) (qr_height video)) NoData
        [MOUSEEVENTF_MOVE; MOUSEEVENTF_ABSOLUTE])
  | MouseButtonPressed b _ _ => Some (buttonMeans b true)
  | MouseButtonReleased b _ _ => Some (buttonMeans b false)
  | MouseWheelTurned d => Some (InMouse 0 0 (WheelData (u32 (120 * Z.max (-100) (Z.min 100 (Z.quot d 120))))) [MOUSEEVENTF_WHEEL])
  | _ => None
  end.

(** The code's tables give every key this meaning. *)
Lemma qtKeyToVk_means key :
  match keyMeans key with
  | Some (v, ext) => @qtKeyToVk Headers.codes key = v /\ @isExtendedKey Headers.codes key = ext /\ v <> 0
  | None => @qtKeyToVk Headers.codes key = 0
  end.
Proof.
  unfold keyMeans, qtKeyToVk, isExtendedKey. cbn [qk Headers.codes Headers.qtKey existsb extendedKeys].
  assert (Hplain : key < 0x01000000 \/ 0x01000030 <= key ->
    (key =? 0x01000016) || ((key =? 0x01000017) || ((key =? 0x01000011) || ((key =? 0x01000010) || ((key =? 0x01000012) ||
    ((key =? 0x01000013) || ((key =? 0x01000014) || ((key =? 0x01000015) || ((key =? 0x01000006) || ((key =? 0x01000007) ||
    ((key =? 0x01000023) || false)))))))))) = false).
  { intros Hk. repeat (apply orb_false_iff; split); try done; apply Z.eqb_neq; lia. }
  change 0x41 with 65. change 0x5A with 90. change 0x30 with 48. change 0x39 with 57.
  destruct ((65 <=? key) && (key <=? 90)) eqn:E1; cbn [orb]; [b2p; rewrite Hplain by lia; lia|].
  destruct ((48 <=? key) && (key <=? 57)) eqn:E2; [b2p; rewrite Hplain by lia; lia|].
  destruct ((0x01000030 <=? key) && (key <=? 0x01000047)) eqn:E3; [b2p; rewrite Hplain by lia; lia|]. clear Hplain E1 E2 E3.
  cbn [List.find namedKeys keyTable fst snd qk Headers.codes Headers.qtKey].
  repeat match goal with |- context [key =? ?c] => destruct (Z.eqb_spec key c) as [->|]; [by vm_compute|] end.
  done.
Qed.

Lemma buttonCode_means b down : makeMouseButtonInput (@buttonCode Headers.codes b) down = buttonMeans b down.
Proof.
  unfold buttonCode. cbn [mouseButtons Headers.codes].
  destruct (Z.eqb_spec b 1) as [->|]; [done|]. destruct (Z.eqb_spec b 2) as [->|]; [done|].
  destruct (Z.eqb_spec b 4) as [->|]; [done|]. destruct (Z.eqb_spec b 8) as [->|]; [done|].
  assert (E : buttonMeans b down = InMouse 0 0 XBUTTON2 [if down then MOUSEEVENTF_XDOWN else MOUSEEVENTF_XUP]); [|by rewrite E].
  unfold buttonMeans. by repeat case_match.
Qed.

Lemma specInput_meant video s : @specInput Headers.codes mapVirtualKey video s = meantInput video s.
Proof.
  destruct s as [key rep|key|x y|b x y|b x y|d|on| |]; cbn [specInput meantInput]; try done.
  - destruct rep; [done|]. pose proof (qtKeyToVk_means key) as H. destruct (keyMeans key) as [[v ext]|]; cbn [mbind option_bind].
    + destruct H as (-> & -> & Hv). destruct (Z.eqb_spec v 0); [done|]. by destruct ext.
    + by rewrite H.
  - pose proof (qtKeyToVk_means key) as H. destruct (keyMeans key) as [[v ext]|]; cbn [mbind option_bind].
    + destruct H as (-> & -> & Hv). destruct (Z.eqb_spec v 0); [done|]. by destruct ext.
    + by rewrite H.
  - by rewrite buttonCode_means.
  - by rewrite buttonCode_means.
  - do 4 f_equal. unfold clampWheel. destruct (Z.ltb_spec (Z.quot d 120) (-100)); [|destruct (Z.ltb_spec 100 (Z.quot d 120))]; lia.
Qed.


End Meaning.


Lemma mouse_axis_covers_the_desktop_witness :
  exists z z', mouseAxis true 100 0 1280 = Some z /\ mouseAxis true 1279 0 1280 = Some z' /\
    0 <= z <= z' /\ z' <= 65535 /\ (100 <= 0 -> z = 0) /\ (0 + 1280 - 1 <= 1279 -> z' = 65535).
Proof. apply mouse_axis_covers_the_desktop; [lia|reflexivity|reflexivity|lia]. Defined.
