(* ===== verification/ClientCoordinator.v ===== *)
(** app/ClientCoordinator.h and ClientCoordinator.cpp: the client application; the
    mapping of keys and mouse is in InputForwarding.v.

    As in HostCoordinator.v, what runs on the Qt thread comes from a queue of posted
    calls, the other threads are further steps, shared pointers are numbers, and the
    results of a streamer's calls are inputs of the steps. [cc_sender] is
    [inputSender_]: nothing, or a sender that is running or not. [cc_connections]
    counts the connections made to the video widget, which nothing takes back.
    [CcSignalingClosed] is the server's end of the signaling connection. *)

From S2P Require Import Prelude Types Double Protocol OrderedMap Calls Json Config HostSession ClientSession Crypto SecureChannel UdpTransport ClientStreamer SignalingClient ClientApp InputProtocol VideoWidget InputForwarding.

Open Scope fact_scope.
Open Scope Z_scope.

(** * Data *)

Record ClientUiState := mkCui {
  cu_status : bytes; cu_hostName : bytes; cu_gameName : bytes; cu_decoderName : bytes;
  cu_rttMs : double; cu_lossPercent : double; cu_jitterMs : double; cu_fps : double; cu_decodeMs : double; cu_audioMs : double;
  cu_bitrateKbps : double; cu_playerIndex : Z; cu_audioActive : bool; cu_width : Z; cu_height : Z }.

Definition defaultUi : ClientUiState :=
  mkCui [] [] [] [] dzero dzero dzero dzero dzero dzero dzero 0 false 0 0.

Definition uiStatus (s : bytes) (u : ClientUiState) : ClientUiState :=
  mkCui s (cu_hostName u) (cu_gameName u) (cu_decoderName u) (cu_rttMs u) (cu_lossPercent u) (cu_jitterMs u) (cu_fps u)
    (cu_decodeMs u) (cu_audioMs u) (cu_bitrateKbps u) (cu_playerIndex u) (cu_audioActive u) (cu_width u) (cu_height u).
Definition uiNames (host game : bytes) (u : ClientUiState) : ClientUiState :=
  mkCui (cu_status u) host game (cu_decoderName u) (cu_rttMs u) (cu_lossPercent u) (cu_jitterMs u) (cu_fps u)
    (cu_decodeMs u) (cu_audioMs u) (cu_bitrateKbps u) (cu_playerIndex u) (cu_audioActive u) (cu_width u) (cu_height u).
Definition uiPlayer (p : Z) (u : ClientUiState) : ClientUiState :=
  mkCui (cu_status u) (cu_hostName u) (cu_gameName u) (cu_decoderName u) (cu_rttMs u) (cu_lossPercent u) (cu_jitterMs u) (cu_fps u)
    (cu_decodeMs u) (cu_audioMs u) (cu_bitrateKbps u) p (cu_audioActive u) (cu_width u) (cu_height u).

Definition uiStats (rtt jitter loss fps decode audio kbps : double) (active : bool) (w h : Z) (decoder : bytes) (u : ClientUiState) :
    ClientUiState :=
  mkCui (cu_status u) (cu_hostName u) (cu_gameName u) decoder rtt loss jitter fps decode audio kbps (cu_playerIndex u) active w h.

(** Where the session and the media go: directly, or through the server's relay. *)
Record ClientMode := mkMode {
  md_internet : bool; md_serverHost : bytes; md_relayUdpPort : Z; md_playerToken : bytes; md_sessionCode : bytes;
  md_hostAddress : bytes }.

(** What the stream-start worker captured. *)
Record StreamJob := mkSj {
  sj_streamer : nat; sj_viaRelay : bool; sj_host : bytes; sj_port : Z; sj_udpPort : Z; sj_sessionId : Z; sj_token : bytes;
  sj_codec : VideoCodec; sj_channel : option nat; sj_slot : Z; sj_kb : bool; sj_mouse : bool;
  sj_widget : bool }.

(** Calls posted to the Qt thread. *)
Inductive CqCall :=
  | CqState (st : ConnectionState)
  | CqConnected (status : ClientStatus)
  | CqDisconnected (reason : bytes)
  | CqError (message : bytes)
  | CqInputPermissions (perms : InputPermissions)
  | CqAppMessage (type : Z) (payload : bytes)
  | CqStreamFailed (err : bytes)
  | CqStreaming (streamer : nat) (slot : Z) (kb mouse : bool).

Inductive CStreamerCall :=
  | CsStart (host : bytes) (port sessionId : Z) (codec : VideoCodec) (channel : option nat) (widget : bool)
  | CsStop
  | CsJitterTarget (ms : Z)
  | CsRelayBind (token : bytes)
  | CsRelayFallback (host : bytes) (port : Z).

(** Calls on the input sender. *)
Inductive SenderCall :=
  | SnStart (streamer : nat) (slot : Z)
  | SnStop
  | SnSetEnabled (controller kb mouse : bool)
  | SnQueueEvent (e : InputEvent).

Inductive CUiSignal :=
  | CStateChanged
  | CLogLine (line : bytes)
  | CDisconnectedFromHost (reason : bytes)
  | CErrorOccurred (message : bytes)
  | CConnectedToHost (hostName gameName : bytes) (playerIndex : Z).

Inductive CSignalingCall :=
  | CgConnect (host : bytes) (port timeoutMs : Z)
  | CgJoin (code playerName : bytes)
  | CgDisconnect.

Inductive CcOut :=
  | COutNet (o : ClientOut)
  | COutStreamer (st : nat) (c : CStreamerCall)
  | COutSender (c : SenderCall)
  | COutUi (u : CUiSignal)
  | COutSignaling (c : CSignalingCall).

Record ClientCoordinator := mkCc {
  cc_client : option ClientApp; cc_signaling : option SignalingClient; cc_channel : option nat; cc_ecdh : option EcdhKeyPair; cc_ourSalt
  : bytes; cc_keysReady : bool; cc_mode : ClientMode; cc_streamer : option nat; cc_worker : option StreamJob;
  cc_sender : option bool; cc_widget : bool; cc_inputWired : bool; cc_connections : nat; cc_timer : bool; cc_watchdog
  : bool; cc_ui : ClientUiState; cc_lastRecvBytes : Z; cc_codec : VideoCodec; cc_channels : list SecureChannel;
  cc_streamers : nat; cc_queue : list CqCall }.

Definition setClient (x : option ClientApp) (c : ClientCoordinator) : ClientCoordinator :=
  mkCc x (cc_signaling c) (cc_channel c) (cc_ecdh c) (cc_ourSalt c) (cc_keysReady c) (cc_mode c) (cc_streamer c)
  (cc_worker c) (cc_sender c) (cc_widget c) (cc_inputWired c) (cc_connections c) (cc_timer c) (cc_watchdog c) (cc_ui
  c) (cc_lastRecvBytes c) (cc_codec c) (cc_channels c) (cc_streamers c) (cc_queue c).
Definition setSignaling (x : option SignalingClient) (c : ClientCoordinator) : ClientCoordinator :=
  mkCc (cc_client c) x (cc_channel c) (cc_ecdh c) (cc_ourSalt c) (cc_keysReady c) (cc_mode c) (cc_streamer c)
  (cc_worker c) (cc_sender c) (cc_widget c) (cc_inputWired c) (cc_connections c) (cc_timer c) (cc_watchdog c) (cc_ui
  c) (cc_lastRecvBytes c) (cc_codec c) (cc_channels c) (cc_streamers c) (cc_queue c).
Definition setChannel (x : option nat) (c : ClientCoordinator) : ClientCoordinator :=
  mkCc (cc_client c) (cc_signaling c) x (cc_ecdh c) (cc_ourSalt c) (cc_keysReady c) (cc_mode c) (cc_streamer c)
  (cc_worker c) (cc_sender c) (cc_widget c) (cc_inputWired c) (cc_connections c) (cc_timer c) (cc_watchdog c) (cc_ui
  c) (cc_lastRecvBytes c) (cc_codec c) (cc_channels c) (cc_streamers c) (cc_queue c).
Definition setEcdh (x : option EcdhKeyPair) (c : ClientCoordinator) : ClientCoordinator :=
  mkCc (cc_client c) (cc_signaling c) (cc_channel c) x (cc_ourSalt c) (cc_keysReady c) (cc_mode c) (cc_streamer c)
  (cc_worker c) (cc_sender c) (cc_widget c) (cc_inputWired c) (cc_connections c) (cc_timer c) (cc_watchdog c) (cc_ui
  c) (cc_lastRecvBytes c) (cc_codec c) (cc_channels c) (cc_streamers c) (cc_queue c).
Definition setOurSalt (x : bytes) (c : ClientCoordinator) : ClientCoordinator :=
  mkCc (cc_client c) (cc_signaling c) (cc_channel c) (cc_ecdh c) x (cc_keysReady c) (cc_mode c) (cc_streamer c)
  (cc_worker c) (cc_sender c) (cc_widget c) (cc_inputWired c) (cc_connections c) (cc_timer c) (cc_watchdog c) (cc_ui
  c) (cc_lastRecvBytes c) (cc_codec c) (cc_channels c) (cc_streamers c) (cc_queue c).
Definition setKeysReady (x : bool) (c : ClientCoordinator) : ClientCoordinator :=
  mkCc (cc_client c) (cc_signaling c) (cc_channel c) (cc_ecdh c) (cc_ourSalt c) x (cc_mode c) (cc_streamer c)
  (cc_worker c) (cc_sender c) (cc_widget c) (cc_inputWired c) (cc_connections c) (cc_timer c) (cc_watchdog c) (cc_ui
  c) (cc_lastRecvBytes c) (cc_codec c) (cc_channels c) (cc_streamers c) (cc_queue c).
Definition setMode (x : ClientMode) (c : ClientCoordinator) : ClientCoordinator :=
  mkCc (cc_client c) (cc_signaling c) (cc_channel c) (cc_ecdh c) (cc_ourSalt c) (cc_keysReady c) x (cc_streamer c)
  (cc_worker c) (cc_sender c) (cc_widget c) (cc_inputWired c) (cc_connections c) (cc_timer c) (cc_watchdog c) (cc_ui
  c) (cc_lastRecvBytes c) (cc_codec c) (cc_channels c) (cc_streamers c) (cc_queue c).
Definition setStreamer (x : option nat) (c : ClientCoordinator) : ClientCoordinator :=
  mkCc (cc_client c) (cc_signaling c) (cc_channel c) (cc_ecdh c) (cc_ourSalt c) (cc_keysReady c) (cc_mode c) x
  (cc_worker c) (cc_sender c) (cc_widget c) (cc_inputWired c) (cc_connections c) (cc_timer c) (cc_watchdog c) (cc_ui
  c) (cc_lastRecvBytes c) (cc_codec c) (cc_channels c) (cc_streamers c) (cc_queue c).
Definition setWorker (x : option StreamJob) (c : ClientCoordinator) : ClientCoordinator :=
  mkCc (cc_client c) (cc_signaling c) (cc_channel c) (cc_ecdh c) (cc_ourSalt c) (cc_keysReady c) (cc_mode c)
  (cc_streamer c) x (cc_sender c) (cc_widget c) (cc_inputWired c) (cc_connections c) (cc_timer c) (cc_watchdog c)
  (cc_ui c) (cc_lastRecvBytes c) (cc_codec c) (cc_channels c) (cc_streamers c) (cc_queue c).
Definition setSender (x : option bool) (c : ClientCoordinator) : ClientCoordinator :=
  mkCc (cc_client c) (cc_signaling c) (cc_channel c) (cc_ecdh c) (cc_ourSalt c) (cc_keysReady c) (cc_mode c)
  (cc_streamer c) (cc_worker c) x (cc_widget c) (cc_inputWired c) (cc_connections c) (cc_timer c) (cc_watchdog c)
  (cc_ui c) (cc_lastRecvBytes c) (cc_codec c) (cc_channels c) (cc_streamers c) (cc_queue c).
Definition setWidget (x : bool) (c : ClientCoordinator) : ClientCoordinator :=
  mkCc (cc_client c) (cc_signaling c) (cc_channel c) (cc_ecdh c) (cc_ourSalt c) (cc_keysReady c) (cc_mode c)
  (cc_streamer c) (cc_worker c) (cc_sender c) x (cc_inputWired c) (cc_connections c) (cc_timer c) (cc_watchdog c)
  (cc_ui c) (cc_lastRecvBytes c) (cc_codec c) (cc_channels c) (cc_streamers c) (cc_queue c).
Definition setInputWired (x : bool) (c : ClientCoordinator) : ClientCoordinator :=
  mkCc (cc_client c) (cc_signaling c) (cc_channel c) (cc_ecdh c) (cc_ourSalt c) (cc_keysReady c) (cc_mode c)
  (cc_streamer c) (cc_worker c) (cc_sender c) (cc_widget c) x (cc_connections c) (cc_timer c) (cc_watchdog c) (cc_ui
  c) (cc_lastRecvBytes c) (cc_codec c) (cc_channels c) (cc_streamers c) (cc_queue c).
Definition setConnections (x : nat) (c : ClientCoordinator) : ClientCoordinator :=
  mkCc (cc_client c) (cc_signaling c) (cc_channel c) (cc_ecdh c) (cc_ourSalt c) (cc_keysReady c) (cc_mode c)
  (cc_streamer c) (cc_worker c) (cc_sender c) (cc_widget c) (cc_inputWired c) x (cc_timer c) (cc_watchdog c) (cc_ui c)
  (cc_lastRecvBytes c) (cc_codec c) (cc_channels c) (cc_streamers c) (cc_queue c).
Definition setTimer (x : bool) (c : ClientCoordinator) : ClientCoordinator :=
  mkCc (cc_client c) (cc_signaling c) (cc_channel c) (cc_ecdh c) (cc_ourSalt c) (cc_keysReady c) (cc_mode c)
  (cc_streamer c) (cc_worker c) (cc_sender c) (cc_widget c) (cc_inputWired c) (cc_connections c) x (cc_watchdog c)
  (cc_ui c) (cc_lastRecvBytes c) (cc_codec c) (cc_channels c) (cc_streamers c) (cc_queue c).
Definition setWatchdog (x : bool) (c : ClientCoordinator) : ClientCoordinator :=
  mkCc (cc_client c) (cc_signaling c) (cc_channel c) (cc_ecdh c) (cc_ourSalt c) (cc_keysReady c) (cc_mode c)
  (cc_streamer c) (cc_worker c) (cc_sender c) (cc_widget c) (cc_inputWired c) (cc_connections c) (cc_timer c) x (cc_ui
  c) (cc_lastRecvBytes c) (cc_codec c) (cc_channels c) (cc_streamers c) (cc_queue c).
Definition setUi (x : ClientUiState) (c : ClientCoordinator) : ClientCoordinator :=
  mkCc (cc_client c) (cc_signaling c) (cc_channel c) (cc_ecdh c) (cc_ourSalt c) (cc_keysReady c) (cc_mode c)
  (cc_streamer c) (cc_worker c) (cc_sender c) (cc_widget c) (cc_inputWired c) (cc_connections c) (cc_timer c)
  (cc_watchdog c) x (cc_lastRecvBytes c) (cc_codec c) (cc_channels c) (cc_streamers c) (cc_queue c).
Definition setLastRecvBytes (x : Z) (c : ClientCoordinator) : ClientCoordinator :=
  mkCc (cc_client c) (cc_signaling c) (cc_channel c) (cc_ecdh c) (cc_ourSalt c) (cc_keysReady c) (cc_mode c)
  (cc_streamer c) (cc_worker c) (cc_sender c) (cc_widget c) (cc_inputWired c) (cc_connections c) (cc_timer c)
  (cc_watchdog c) (cc_ui c) x (cc_codec c) (cc_channels c) (cc_streamers c) (cc_queue c).
Definition setCodec (x : VideoCodec) (c : ClientCoordinator) : ClientCoordinator :=
  mkCc (cc_client c) (cc_signaling c) (cc_channel c) (cc_ecdh c) (cc_ourSalt c) (cc_keysReady c) (cc_mode c)
  (cc_streamer c) (cc_worker c) (cc_sender c) (cc_widget c) (cc_inputWired c) (cc_connections c) (cc_timer c)
  (cc_watchdog c) (cc_ui c) (cc_lastRecvBytes c) x (cc_channels c) (cc_streamers c) (cc_queue c).
Definition setChannels (x : list SecureChannel) (c : ClientCoordinator) : ClientCoordinator :=
  mkCc (cc_client c) (cc_signaling c) (cc_channel c) (cc_ecdh c) (cc_ourSalt c) (cc_keysReady c) (cc_mode c)
  (cc_streamer c) (cc_worker c) (cc_sender c) (cc_widget c) (cc_inputWired c) (cc_connections c) (cc_timer c)
  (cc_watchdog c) (cc_ui c) (cc_lastRecvBytes c) (cc_codec c) x (cc_streamers c) (cc_queue c).
Definition setStreamers (x : nat) (c : ClientCoordinator) : ClientCoordinator :=
  mkCc (cc_client c) (cc_signaling c) (cc_channel c) (cc_ecdh c) (cc_ourSalt c) (cc_keysReady c) (cc_mode c)
  (cc_streamer c) (cc_worker c) (cc_sender c) (cc_widget c) (cc_inputWired c) (cc_connections c) (cc_timer c)
  (cc_watchdog c) (cc_ui c) (cc_lastRecvBytes c) (cc_codec c) (cc_channels c) x (cc_queue c).
Definition setQueue (x : list CqCall) (c : ClientCoordinator) : ClientCoordinator :=
  mkCc (cc_client c) (cc_signaling c) (cc_channel c) (cc_ecdh c) (cc_ourSalt c) (cc_keysReady c) (cc_mode c)
  (cc_streamer c) (cc_worker c) (cc_sender c) (cc_widget c) (cc_inputWired c) (cc_connections c) (cc_timer c)
  (cc_watchdog c) (cc_ui c) (cc_lastRecvBytes c) (cc_codec c) (cc_channels c) (cc_streamers c) x.

Definition newCoordinator : ClientCoordinator :=
  mkCc None None None None [] false (mkMode false [] 0 [] [] []) None None None false false 0 false false defaultUi 0 H264 [] 0 [].

Definition onUi (f : ClientUiState -> ClientUiState) (c : ClientCoordinator) : ClientCoordinator := setUi (f (cc_ui c)) c.

(** * The parts *)

Definition CcAct : Type := fact ClientCoordinator CcOut.

Definition post (q : list CqCall) : CcAct := modifyF (fun c => setQueue (cc_queue c ++ q) c).
Definition signal (u : CUiSignal) : CcAct := emitF [COutUi u].
Definition callStreamer (st : nat) (sc : CStreamerCall) : CcAct := emitF [COutStreamer st sc].
Definition ifStreamer (sc : CStreamerCall) : CcAct := readF (fun c =>
  match cc_streamer c with Some st => callStreamer st sc | None => doneF end).

(** [if (inputSender_) inputSender_->call(...)]. *)
Definition ifSender (sc : SenderCall) : CcAct := readF (fun c =>
  match cc_sender c with Some _ => emitF [COutSender sc] | None => doneF end).

(** The callbacks [wireSessionEvents] installs post to the Qt thread. *)
Definition callbackOf (o : ClientOut) : option CqCall :=
  match o with
  | ClientSession.CoState st => Some (CqState st)
  | ClientSession.CoConnected status => Some (CqConnected status)
  | ClientSession.CoDisconnected reason => Some (CqDisconnected reason)
  | ClientSession.CoError message => Some (CqError message)
  | ClientSession.CoInputPermissions perms => Some (CqInputPermissions perms)
  | ClientSession.CoAppMessage type payload => Some (CqAppMessage type payload)
  | _ => None
  end.

Definition callbacksOf (os : list ClientOut) : list CqCall := omap callbackOf os.

Definition netOf (os : list ClientOut) : list CcOut :=
  COutNet <$> List.filter (fun o => match callbackOf o with Some _ => false | None => true end) os.

(** [client_->f()], and [if (client_) client_->f()]. *)
Definition callClient (f : act ClientApp ClientOut) : CcAct := readF (fun c =>
  match cc_client c with
  | None => nullF
  | Some a => let '(os, a) := f a in modifyF (setClient (Some a)) ;! post (callbacksOf os) ;! emitF (netOf os)
  end).
Definition ifClient (f : act ClientApp ClientOut) : CcAct := readF (fun c =>
  match cc_client c with None => doneF | Some _ => callClient f end).

Definition active (c : ClientCoordinator) : bool :=
  match cc_client c with Some a => ClientApp.connected a | None => false end.

Section Coordinator.
Context `{CNG} `{KeyCodes} (cfg : Config) (isAddress : bytes -> bool).

(** * Streams *)

(** What the worker's [streamer->start] returns. *)
Record StreamIo := mkStio { so_ok : bool; so_err : bytes }.

(** The worker: it can only lock a streamer the coordinator still holds. *)
Definition runJob (j : StreamJob) (io : StreamIo) : CcAct := readF (fun c =>
  if bool_decide (cc_streamer c = Some (sj_streamer j)) then
    callStreamer (sj_streamer j)
      (CsStart (sj_host j) (if sj_viaRelay j then sj_port j else sj_udpPort j) (sj_sessionId j) (sj_codec j) (sj_channel j) (sj_widget j)) ;!
    if negb (so_ok io) then post [CqStreamFailed (so_err io)]
    else
      (if sj_viaRelay j then
         callStreamer (sj_streamer j) (CsRelayBind (sj_token j)) ;!
         if isAddress (sj_host j) then callStreamer (sj_streamer j) (CsRelayFallback (sj_host j) (sj_port j)) else terminateF
       else doneF) ;!
      post [CqStreaming (sj_streamer j) (sj_slot j) (sj_kb j) (sj_mouse j)]
  else doneF).

(** [if (streamThread_.joinable()) streamThread_.join()]: a worker that has not run
    yet runs now. *)
Definition joinWorker (io : StreamIo) : CcAct := readF (fun c =>
  match cc_worker c with
  | Some j => runJob j io ;! modifyF (setWorker None)
  | None => doneF
  end).

Definition startStream (udpPort udpSessionId : Z) (io : StreamIo) : CcAct := readF (fun c =>
  match cc_streamer c with
  | Some _ => doneF
  | None =>
      let st := cc_streamers c in
      let m := cc_mode c in
      let p := cu_playerIndex (cc_ui c) in
      modifyF (setStreamers (S st)) ;! modifyF (setStreamer (Some st)) ;!
      callStreamer st (CsJitterTarget (u32 (n_jitterBufferMs (cfg_network cfg)))) ;!
      joinWorker io ;!
      modifyF (setWorker (Some (mkSj st (md_internet m) (if md_internet m then md_serverHost m else md_hostAddress m)
        (if md_internet m then md_relayUdpPort m else udpPort) udpPort udpSessionId (md_playerToken m) (cc_codec c) (cc_channel c)
        (u8 (if 0 <? p then p - 1 else 0)) (in_keyboard (cfg_input cfg)) (in_mouse (cfg_input cfg)) (cc_widget c))))
  end).

Definition wireInputForwarding : CcAct := readF (fun c =>
  if negb (cc_widget c) || negb (match cc_sender c with Some _ => true | None => false end) || cc_inputWired c then doneF
  else modifyF (setInputWired true) ;! modifyF (setConnections (S (cc_connections c)))).

(** [failed]: the message of the sender's [start] when it fails. *)
Definition streaming (failed : option bytes) (st : nat) (slot : Z) (kb mouse : bool) : CcAct :=
  modifyF (onUi (uiStatus (str "Streaming"))) ;!
  modifyF (setWatchdog false) ;!
  readF (fun c =>
    if bool_decide (cc_streamer c = Some st) then
      match cc_sender c with
      | Some false =>
          emitF [COutSender (SnStart st slot)] ;!
          match failed with
          | None => modifyF (setSender (Some true)) ;! emitF [COutSender (SnSetEnabled true kb mouse)]
          | Some err => signal (CLogLine (str "Input: " ++ err))
          end ;!
          wireInputForwarding ;!
          signal CStateChanged
      | _ => signal CStateChanged
      end
    else signal CStateChanged).

(** * Key exchange *)

Definition sendApp (msg : Envelope) : CcAct :=
  callClient (ClientApp.sendAppMessage (idCode (env_type msg)) (encodeMessage msg)).

(** [ran]: what the session's loop still runs while it stops. *)
Definition beginKeyExchange (keys : option EcdhKeyPair) (salt : bytes) (ran : list ClientIo) : CcAct := readF (fun c =>
  match cc_ecdh c with
  | Some _ => doneF
  | None =>
      if negb (active c) then doneF
      else
        match keys with
        | None =>
            signal (CErrorOccurred (str "Cryptography unavailable (CNG); cannot secure this session.")) ;!
            callClient (ClientApp.disconnect ran)
        | Some kp =>
            modifyF (setEcdh (Some kp)) ;! modifyF (setOurSalt salt) ;!
            sendApp (mkEnvelope IdKeyExchange (BKeyExchange (mkKeyExchange (kp_publicKey kp) salt)))
        end
  end).

Definition handleAppMessage (type : Z) (payload : bytes) (ran : list ClientIo) (io : StreamIo) : CcAct := readF (fun c =>
  match decodeMessage type payload with
  | None => doneF
  | Some env =>
      match env_type env, env_body env with
      | IdKeyExchange, BKeyExchange m =>
          match cc_ecdh c with
          | None => doneF
          | Some kp =>
              let '(ok, ch) := finish kp (cc_ourSalt c) (kx_publicKey m) (kx_salt m) (md_sessionCode (cc_mode c)) false newChannel in
              modifyF (setChannel (Some (length (cc_channels c)))) ;!
              modifyF (setChannels (cc_channels c ++ [ch])) ;!
              if negb ok then signal (CErrorOccurred (str "Key exchange failed.")) ;! callClient (ClientApp.disconnect ran)
              else
                sendApp (mkEnvelope IdSessionKeyReady defaultBody) ;!
                modifyF (onUi (uiStatus (str "Secure session established")))
          end
      | IdSessionKeyReady, _ =>
          modifyF (setKeysReady true) ;!
          modifyF (onUi (uiStatus (str "Waiting for the host to start the stream..."))) ;!
          modifyF (setWatchdog true) ;!
          signal CStateChanged
      | IdStreamStart, BStreamStart m =>
          modifyF (setKeysReady true) ;!
          modifyF (setWatchdog false) ;!
          modifyF (setCodec (ss_codec m)) ;!
          startStream (ss_udpPort m) (ss_sessionId m) io
      | IdStreamStop, _ =>
          ifStreamer CsStop ;! ifSender SnStop ;!
          modifyF (fun c => setSender (match cc_sender c with Some _ => Some false | None => None end) c) ;!
          modifyF (onUi (uiStatus (str "Stream stopped"))) ;!
          signal CStateChanged
      | _, _ => doneF
      end
  end).

(** * The signaling client *)

(** [signaling_.reset()]: the destructor of [SignalingClient]. *)
Definition resetSignaling : CcAct := readF (fun c =>
  match cc_signaling c with
  | None => doneF
  | Some s => match SignalingClient.destroy s with JOk _ => modifyF (setSignaling None) | _ => terminateF end
  end).

(** [if (signaling_) { signaling_->disconnect(); signaling_.reset(); }]. *)
Definition closeSignaling : CcAct := readF (fun c =>
  match cc_signaling c with
  | None => doneF
  | Some s =>
      emitF [COutSignaling CgDisconnect] ;! modifyF (setSignaling (Some (SignalingClient.disconnect s))) ;! resetSignaling
  end).

(** * Stop and start *)

(** What still runs while the coordinator stops. *)
Record CStopIo := mkCsio { cp_ran : list ClientIo; cp_worker : StreamIo }.

Definition stop (io : CStopIo) : CcAct :=
  modifyF (setTimer false) ;! modifyF (setWatchdog false) ;! modifyF (setInputWired false) ;!
  ifSender SnStop ;! modifyF (setSender None) ;!
  ifStreamer CsStop ;!
  joinWorker (cp_worker io) ;!
  modifyF (setStreamer None) ;! modifyF (setChannel None) ;! modifyF (setEcdh None) ;! modifyF (setOurSalt []) ;!
  modifyF (setKeysReady false) ;!
  ifClient (ClientApp.disconnect (cp_ran io)) ;! modifyF (setClient None) ;!
  closeSignaling ;!
  modifyF (setUi defaultUi) ;!
  signal CStateChanged.

(** [client_ = make_unique<ClientApp>(); wireSessionEvents()]. *)
Definition freshClient : CcAct := modifyF (setClient (Some (ClientApp.setEvents true newClientApp))).

Definition startLan (hostAddress : bytes) (port : Z) (playerName sessionCode : bytes) (io : CStopIo) : CcAct :=
  stop io ;!
  modifyF (fun c => let m := cc_mode c in
    setMode (mkMode false (md_serverHost m) (md_relayUdpPort m) (md_playerToken m) sessionCode hostAddress) c) ;!
  freshClient ;!
  callClient (ClientApp.connect (mkJoin playerName sessionCode hostAddress port 5000) []) ;!
  modifyF (setTimer true).

(** [VideoDecoder::supportedCodecs()] or H.264 when there is none. *)
Definition offeredCodecs (supported : list VideoCodec) : list VideoCodec :=
  match supported with [] => [H264] | cs => cs end.

(** [outcome] is how the connection attempt to the signaling server ends, [closed]
    whether the server closes the connection while the request waits, [joined] the
    answer; [supported] is the answer of the decoder library. *)
Definition startInternet (serverAddress : bytes) (serverPort : Z) (sessionCode playerName : bytes) (outcome : ConnectOutcome)
    (closed : bool) (joined : option JoinResult) (supported : list VideoCodec) (io : CStopIo) : CcAct :=
  stop io ;!
  modifyF (fun c => let m := cc_mode c in
    setMode (mkMode true serverAddress (md_relayUdpPort m) (md_playerToken m) sessionCode (md_hostAddress m)) c) ;!
  modifyF (setSignaling (Some newSignaling)) ;!
  emitF [COutSignaling (CgConnect serverAddress serverPort 6000)] ;!
  match SignalingClient.connect outcome newSignaling with
  | JOk (true, sc) =>
    modifyF (setSignaling (Some (if closed then readerEnds sc else sc))) ;!
    emitF [COutSignaling (CgJoin sessionCode playerName)] ;!
    match joined with
    | None => closeSignaling
    | Some j =>
        modifyF (setMode (mkMode true serverAddress (u16 (jr_relayUdpPort j)) (jr_token j) sessionCode
          (if bool_decide (jr_hostPublicAddr j = []) then serverAddress else jr_hostPublicAddr j))) ;!
        freshClient ;!
        callClient (ClientApp.startViaRelay
          (mkCParams playerName sessionCode serverAddress (cp_hostPort defaultCParams) (cp_connectTimeoutMs defaultCParams)
             (offeredCodecs supported)) serverAddress (u16 (jr_relayTcpPort j)) (jr_token j)) ;!
        modifyF (onUi (uiPlayer (i32 (jr_playerIndex j + 1)))) ;!
        modifyF (setTimer true)
    end
  | JOk (false, sc) => modifyF (setSignaling (Some sc)) ;! resetSignaling
  | _ => terminateF
  end.

(** * Callbacks on the Qt thread *)

Definition stateChangedTo (keys : option EcdhKeyPair) (salt : bytes) (ran : list ClientIo) (st : ConnectionState) : CcAct :=
  match st with
  | Connected => modifyF (onUi (uiStatus (str "Connected - securing session..."))) ;! beginKeyExchange keys salt ran
  | Disconnected => modifyF (onUi (uiStatus (str "Disconnected"))) ;! ifStreamer CsStop
  | _ => doneF
  end ;! signal CStateChanged.

(** The answers a posted call may need. *)
Record CqIo := mkCqio {
  ci_keys : option EcdhKeyPair; ci_salt : bytes; ci_ran : list ClientIo; ci_worker : StreamIo; ci_senderFailed : option bytes }.

Definition runCall (io : CqIo) (q : CqCall) : CcAct :=
  match q with
  | CqState st => stateChangedTo (ci_keys io) (ci_salt io) (ci_ran io) st
  | CqConnected s =>
      modifyF (onUi (uiNames (st_hostName s) (st_gameName s))) ;!
      modifyF (setCodec (st_codec s)) ;!
      readF (fun c => signal (CConnectedToHost (cu_hostName (cc_ui c)) (cu_gameName (cc_ui c)) (cu_playerIndex (cc_ui c)))) ;!
      signal CStateChanged
  | CqDisconnected reason => signal (CDisconnectedFromHost reason)
  | CqError message => signal (CErrorOccurred message)
  | CqInputPermissions p => ifSender (SnSetEnabled (perm_controller p) (perm_keyboard p) (perm_mouse p))
  | CqAppMessage type payload => handleAppMessage type payload (ci_ran io) (ci_worker io)
  | CqStreamFailed err => signal (CErrorOccurred (str "Stream failed to start: " ++ err))
  | CqStreaming st slot kb mouse => streaming (ci_senderFailed io) st slot kb mouse
  end.

Definition dispatch (io : CqIo) : CcAct := readF (fun c =>
  match cc_queue c with
  | [] => doneF
  | q :: qs => modifyF (setQueue qs) ;! runCall io q
  end).

(** * Timers and the window *)

(** The single shot of the watchdog; [running]: whether the streamer runs. *)
Definition onStreamStartWatchdog (running : bool) (io : CStopIo) : CcAct := readF (fun c =>
  if (if cc_streamer c is Some _ then running else false) then doneF
  else
    signal (CErrorOccurred (str "The host did not start the video stream within 15 seconds. The host app may have hit an error (see its log under %LOCALAPPDATA%\RemotePlay\Logs) or the connection is blocked. Disconnecting.")) ;!
    modifyF (onUi (uiStatus (str "Stream never started"))) ;!
    signal CStateChanged ;!
    stop io).

(** A default-constructed snapshot, of a streamer without a transport. *)
Definition udpOf (st : ClientStreamStats) : UdpStatsSnapshot :=
  match css_udp st with
  | Some u => u
  | None => mkSnapshot newCounters 0 0 0 0 0 0 dzero 0 0
  end.

Definition lossPercent (u : UdpStatsSnapshot) : double :=
  let total := u64 (ss_assembledFrames u + ss_lostFrames u) in
  if total =? 0 then dzero else dmul (ddiv (dofZ (ss_lostFrames u)) (dofZ total)) (dofZ 100).

Definition onStatsTimer (st : ClientStreamStats) : CcAct := readF (fun c =>
  match cc_streamer c with
  | None => doneF
  | Some _ =>
      let u := udpOf st in
      let recv := ct_recvBytes (ss_counters u) in
      let bps := if cc_lastRecvBytes c <? recv then dmul (dofZ (u64 (recv - cc_lastRecvBytes c))) (dofZ 8) else dzero in
      modifyF (setLastRecvBytes recv) ;!
      modifyF (onUi (uiStats (ct_avgRttMs (ss_counters u)) (ss_jitterMs u) (lossPercent u) (css_fps st) (css_decodeMs st)
        (css_audioDecodeMs st) (ddiv bps (dofZ 1000)) (css_audioActive st) (css_width st) (css_height st) (css_decoderName st))) ;!
      signal CStateChanged
  end).

Definition setVideoWidget (present : bool) : CcAct := modifyF (setWidget present).

Definition setKeyboardMouseEnabled (kb mouse : bool) : CcAct := ifSender (SnSetEnabled true kb mouse).

(** A signal of the widget reaches every connection made to it; each looks at the
    sender of the moment. *)
Definition widgetSignal (contained : bool) (video : QRect) (now : Z) (s : WidgetSignal) : CcAct := readF (fun c =>
  forF (replicate (cc_connections c) tt) (fun _ =>
    match cc_sender c with
    | None => doneF
    | Some _ =>
        if (if s is MouseMoved _ _ then negb (cc_widget c) else false) then doneF
        else match forwardSignal contained video now s with
             | Some es => forF es (fun e => emitF [COutSender (SnQueueEvent e)])
             | None => undefinedF
             end
    end)).

(** * The steps *)

(** The network thread of the session, while it runs. *)
Definition network (e : ClientIo) : CcAct := ifClient (ClientApp.onSession (clientStep (CeIo e))).

Inductive CcEvent :=
  | CcStartLan (hostAddress : bytes) (port : Z) (playerName sessionCode : bytes) (io : CStopIo)
  | CcStartInternet (serverAddress : bytes) (serverPort : Z) (sessionCode playerName : bytes) (outcome : ConnectOutcome)
      (closed : bool) (joined : option JoinResult) (supported : list VideoCodec) (io : CStopIo)
  | CcStop (io : CStopIo)
  | CcSetVideoWidget (present : bool)
  | CcSetKeyboardMouse (kb mouse : bool)
  | CcTimer (st : ClientStreamStats)
  | CcWatchdog (running : bool) (io : CStopIo)
  | CcDispatch (io : CqIo)
  | CcNetwork (e : ClientIo)
  | CcWorker (io : StreamIo)
  | CcStreamerError (message : bytes)
  | CcSignalingClosed
  | CcWidget (contained : bool) (video : QRect) (now : Z) (s : WidgetSignal).

Definition ccStep (e : CcEvent) : CcAct :=
  match e with
  | CcStartLan address port name code io => startLan address port name code io
  | CcStartInternet address port code name outcome closed joined supported io =>
      startInternet address port code name outcome closed joined supported io
  | CcStop io => stop io
  | CcSetVideoWidget present => setVideoWidget present
  | CcSetKeyboardMouse kb mouse => setKeyboardMouseEnabled kb mouse
  | CcTimer st => readF (fun c => if cc_timer c then onStatsTimer st else doneF)
  | CcWatchdog running io =>
      readF (fun c => if cc_watchdog c then modifyF (setWatchdog false) ;! onStreamStartWatchdog running io else doneF)
  | CcDispatch io => dispatch io
  | CcNetwork e => network e
  | CcWorker io => joinWorker io
  | CcStreamerError message => post [CqError message]
  | CcSignalingClosed => modifyF (fun c => setSignaling (readerEnds <$> cc_signaling c) c)
  | CcWidget contained video now s => widgetSignal contained video now s
  end.

Definition ccRun (es : list CcEvent) : CcAct := forF es ccStep.

End Coordinator.
