(* ===== verification/ClientCoordinatorSpec.v ===== *)
(** What the client coordinator guarantees: which steps can end the program, that its
    stop releases everything; and what its parts do not do together. *)

From S2P Require Import Prelude Types Double Protocol OrderedMap Calls Config HostSession ClientSession Crypto SecureChannel UdpTransport ClientStreamer SignalingClient ClientApp InputProtocol VideoWidget InputForwarding ClientCoordinator.

Open Scope fact_scope.
Open Scope Z_scope.

Section Spec.
Context `{CNG} `{KeyCodes} (cfg : Config) (isAddress : bytes -> bool).

Local Abbreviation step := (ccStep cfg isAddress).
Local Abbreviation run := (ccRun cfg isAddress).

(** * The invariant *)

(** A worker in internet mode will find the server's address a literal one. *)
Definition job_reachable (j : StreamJob) : Prop := sj_viaRelay j = true -> isAddress (sj_host j) = true.

Record cc_inv (c : ClientCoordinator) : Prop := {
  inv_sender : cc_sender c = None;
  inv_connections : cc_connections c = O;
  inv_keys : is_Some (cc_ecdh c) -> is_Some (cc_client c);
  inv_relay : md_internet (cc_mode c) = true -> isAddress (md_serverHost (cc_mode c)) = true;
  inv_worker : forall j, cc_worker c = Some j -> job_reachable j }.

(** No call goes to an input sender. *)
Definition noInput (o : CcOut) : Prop := match o with COutSender _ => False | _ => True end.

Local Abbreviation safe := (safely cc_inv noInput).

Lemma cc_inv_core c c' :
  cc_sender c' = cc_sender c -> cc_connections c' = cc_connections c -> cc_ecdh c' = cc_ecdh c ->
  (is_Some (cc_client c) -> is_Some (cc_client c')) -> cc_mode c' = cc_mode c -> cc_worker c' = cc_worker c -> cc_inv c -> cc_inv c'.
Proof. intros E1 E2 E3 E4 E5 E6 []. split; rewrite ?E1, ?E2, ?E3, ?E5, ?E6; auto. Qed.

Ltac core := apply safe_modify; intros ?; by apply cc_inv_core.

Lemma safe_signal u : safe (signal u).
Proof. by apply safe_emit, Forall_singleton. Qed.
Lemma safe_callStreamer st sc : safe (callStreamer st sc).
Proof. by apply safe_emit, Forall_singleton. Qed.
Lemma safe_ifStreamer sc : safe (ifStreamer sc).
Proof. apply safe_read. intros c _. destruct (cc_streamer c); [apply safe_callStreamer|apply safe_done]. Qed.
Lemma safe_ifSender sc : safe (ifSender sc).
Proof. apply safe_read. intros c Hc. rewrite (inv_sender _ Hc). apply safe_done. Qed.
Lemma safe_post q : safe (post q).
Proof. core. Qed.
Lemma safe_ui f : safe (modifyF (onUi f)).
Proof. core. Qed.
Lemma net_noInput os : Forall noInput (netOf os).
Proof. unfold netOf. by apply Forall_fmap, list.Forall_forall. Qed.
Lemma safe_net os : safe (emitF (netOf os)).
Proof. apply safe_emit, net_noInput. Qed.
Hint Resolve safe_signal safe_callStreamer safe_ifStreamer safe_ifSender safe_post safe_ui safe_net : act.

(** A call on the facade, where there is one. *)
Lemma callClient_safe f c : cc_inv c -> is_Some (cc_client c) -> wp (callClient f) (fun o c' => cc_inv c' /\ Forall noInput o) c.
Proof.
  intros Hc [a Ha]. change (wp (callClient f) ?R c) with (wp (match cc_client c with
    | None => nullF
    | Some a => let '(os, a) := f a in modifyF (setClient (Some a)) ;! post (callbacksOf os) ;! emitF (netOf os) end) R c).
  rewrite Ha. destruct (f a) as [os a'].
  assert (G : safe (modifyF (setClient (Some a')) ;! post (callbacksOf os) ;! emitF (netOf os))); [|by apply G].
  apply safe_seq; [core|auto with act].
Qed.

(** An invariant that holds where a facade is known to be. *)
Definition linked (c : ClientCoordinator) : Prop := cc_inv c /\ is_Some (cc_client c).

Lemma linked_callClient f : safely linked noInput (callClient f).
Proof.
  intros c [Hc Hs]. pose proof (callClient_safe f c Hc Hs) as G. unfold wp in *. revert G. unfold callClient, readF.
  destruct Hs as [a Ha]. rewrite Ha. destruct (f a) as [os a']. intros [G1 G2]. split; [|done]. split; [done|by eexists].
Qed.

Lemma linked_modify f : (forall c, cc_inv c -> cc_inv (f c)) -> (forall c, cc_client (f c) = cc_client c) -> safely linked noInput (modifyF f).
Proof. intros H1 H2. apply safe_modify. intros c [Hc Hs]. split; [by apply H1|by rewrite H2]. Qed.

Lemma linked_inv (a : CcAct) c : safely linked noInput a -> cc_inv c -> is_Some (cc_client c) -> wp a (fun o c' => cc_inv c' /\ Forall noInput o) c.
Proof. intros Ha Hc Hs. eapply wp_mono; [|apply (Ha c); by split]. cbv beta. by intros o c' [[? _] ?]. Qed.

Lemma safe_ifClient f : safe (ifClient f).
Proof.
  intros c Hc. change (wp (ifClient f) ?R c) with (wp (match cc_client c with None => doneF | Some _ => callClient f end) R c).
  destruct (cc_client c) eqn:Ha; [apply callClient_safe; [done|by rewrite Ha]|by apply (safe_done cc_inv noInput)].
Qed.
Hint Resolve safe_ifClient : act.

(** ** Streams *)

Lemma safe_runJob j io : job_reachable j -> safe (runJob isAddress j io).
Proof.
  intros Hj. apply safe_read. intros c _. destruct (bool_decide _); [|apply safe_done]. apply safe_seq; [auto with act|].
  destruct (negb (so_ok io)); [auto with act|]. apply safe_seq; [|auto with act].
  destruct (sj_viaRelay j) eqn:Ei; [|auto with act]. rewrite (Hj Ei). auto with act.
Qed.

Lemma safe_joinWorker io : safe (joinWorker isAddress io).
Proof.
  apply safe_read. intros c Hc. destruct (cc_worker c) as [j|] eqn:Ej; [|apply safe_done].
  apply safe_seq; [by eapply safe_runJob, inv_worker|]. apply safe_modify. intros c' []. split; try done; auto.
Qed.
Hint Resolve safe_joinWorker : act.

Lemma safe_startStream port sid io : safe (startStream cfg isAddress port sid io).
Proof.
  apply safe_read. intros c Hc. destruct (cc_streamer c); [apply safe_done|].
  apply safe_seq; [core|]. apply safe_seq; [core|]. apply safe_seq; [auto with act|]. apply safe_seq; [auto with act|].
  apply safe_modify. intros c' []. split; try done. cbn [cc_worker setWorker]. intros j [= <-] Hv. cbn in *.
  rewrite Hv. by apply (inv_relay _ Hc).
Qed.

Lemma safe_streaming failed st slot kb mouse : safe (streaming failed st slot kb mouse).
Proof.
  apply safe_seq; [auto with act|]. apply safe_seq; [core|]. apply safe_read. intros c Hc. rewrite (inv_sender _ Hc).
  destruct (bool_decide _); auto with act.
Qed.
Hint Resolve safe_startStream safe_streaming : act.

(** ** Key exchange *)

Lemma active_client c : active c = true -> is_Some (cc_client c).
Proof. unfold active. destruct (cc_client c); [by eexists|done]. Qed.

Lemma safe_begin keys salt ran : safe (beginKeyExchange keys salt ran).
Proof.
  intros c Hc. unfold beginKeyExchange. apply wp_read.
  destruct (cc_ecdh c); [by apply (safe_done cc_inv noInput)|]. destruct (active c) eqn:Ea; [|by apply (safe_done cc_inv noInput)]. cbn [negb].
  apply active_client in Ea. destruct keys as [kp|].
  - apply wp_seq, wp_modify, wp_seq, wp_modify. eapply wp_mono; [|apply callClient_safe; [|done]]; [cbv beta; by intros o c' [? ?]|].
    by destruct Hc; split.
  - apply wp_seq, wp_emit. eapply wp_mono; [|by apply callClient_safe]. cbv beta. intros o c' [? ?].
    split; [done|]. apply Forall_app. split; [by apply Forall_singleton|done].
Qed.

Lemma safe_handleAppMessage type payload ran io : safe (handleAppMessage cfg isAddress type payload ran io).
Proof.
  apply safe_at. intros c Hc.
  destruct (decodeMessage type payload) as [env|]; [|by apply (safe_done cc_inv noInput)].
  destruct (env_type env); try by apply (safe_done cc_inv noInput).
  - destruct (env_body env); try by apply (safe_done cc_inv noInput). refine ((_ : safe _) c Hc). repeat (apply safe_seq; [core|]). auto with act.
  - refine ((_ : safe _) c Hc). repeat (apply safe_seq; [auto with act|]); [|auto with act].
    apply safe_modify. intros c' Hc'. destruct Hc' as [Hs]. split; try done. cbn [cc_sender setSender]. by rewrite Hs.
  - destruct (env_body env) as [ | | | | | | | | | | | | | |m| ]; try by apply (safe_done cc_inv noInput).
    destruct (cc_ecdh c) as [kp|] eqn:Ek; [|by apply (safe_done cc_inv noInput)].
    destruct (finish _ _ _ _ _ _ _) as [ok ch]. apply linked_inv; [|done|by apply (inv_keys _ Hc); rewrite Ek].
    do 2 (apply safe_seq; [apply linked_modify; [intros ?; by apply cc_inv_core|done]|]).
    destruct (negb ok); (apply safe_seq; [|]); try apply linked_callClient; [by apply safe_emit, Forall_singleton|].
    apply linked_modify; [intros ?; by apply cc_inv_core|done].
  - refine ((_ : safe _) c Hc). repeat (apply safe_seq; [core|]). auto with act.
Qed.
Hint Resolve safe_begin safe_handleAppMessage : act.

Lemma safe_runCall io q : safe (runCall cfg isAddress io q).
Proof.
  destruct q; cbn [runCall]; auto with act.
  - unfold stateChangedTo. apply safe_seq; [|auto with act]. destruct st; auto with act.
  - apply safe_seq; [auto with act|]. apply safe_seq; [core|]. apply safe_seq; [|auto with act]. apply safe_read. auto with act.
Qed.

(** ** Stopping *)

Lemma ifClient_rest f c : wp (ifClient f) (fun o c' => Forall noInput o /\ exists a q, c' = setQueue q (setClient a c)) c.
Proof.
  unfold wp, ifClient, callClient, readF. destruct (cc_client c) as [a|] eqn:Ha.
  - rewrite Ha. destruct (f a) as [os a']. split; [apply net_noInput|].
    by exists (Some a'), (cc_queue c ++ callbacksOf os).
  - split; [done|]. exists None, (cc_queue c). rewrite <- Ha. by destruct c.
Qed.

(** Nothing runs and nothing is held. *)
Record released (c : ClientCoordinator) : Prop := {
  rel_client : cc_client c = None;
  rel_signaling : cc_signaling c = None;
  rel_channel : cc_channel c = None;
  rel_ecdh : cc_ecdh c = None;
  rel_salt : cc_ourSalt c = [];
  rel_ready : cc_keysReady c = false;
  rel_streamer : cc_streamer c = None;
  rel_worker : cc_worker c = None;
  rel_timers : cc_timer c = false /\ cc_watchdog c = false;
  rel_ui : cc_ui c = defaultUi }.

Lemma post_rest q c : wp (post q) (fun o c' => Forall noInput o /\ exists qs, c' = setQueue qs c) c.
Proof. apply wp_modify. split; [done|by eexists]. Qed.

Lemma runJob_rest j io c : job_reachable j -> wp (runJob isAddress j io) (fun o c' => Forall noInput o /\ exists q, c' = setQueue q c) c.
Proof.
  intros Hj. unfold runJob. apply wp_read.
  assert (Hid : Forall noInput [] /\ exists q, c = setQueue q c) by (split; [done|]; exists (cc_queue c); by destruct c).
  destruct (bool_decide _); [|by apply wp_doneF].
  assert (Hone : forall st sc o, Forall noInput o -> Forall noInput ([COutStreamer st sc] ++ o)) by (intros; by constructor).
  apply wp_seq, wp_emit. destruct (negb _); [eapply wp_mono; [|apply post_rest]; cbv beta; intros o c' [? ?]; split; auto|].
  apply wp_seq. destruct (sj_viaRelay j) eqn:Ei; [rewrite (Hj Ei); apply wp_seq, wp_emit, wp_emit|apply wp_doneF];
    (eapply wp_mono; [|apply post_rest]); cbv beta; intros o c' [? ?]; cbn [app]; split; try done; repeat constructor; auto.
Qed.

Lemma joinWorker_rest io c : cc_inv c ->
  wp (joinWorker isAddress io) (fun o c' => Forall noInput o /\ exists q, c' = setQueue q (setWorker None c)) c.
Proof.
  intros Hc. unfold joinWorker. apply wp_read.
  destruct (cc_worker c) as [j|] eqn:Ej.
  - apply wp_seq. eapply wp_mono; [|by eapply runJob_rest, inv_worker]. cbv beta. intros o c' [Ho [q ->]].
    apply wp_modify. rewrite app_nil_r. split; [done|]. by exists q.
  - apply wp_doneF. split; [done|]. exists (cc_queue c). rewrite <- Ej. by destruct c.
Qed.

(** The server has closed the signaling connection. *)
Definition serverLost (c : ClientCoordinator) : Prop := exists s, cc_signaling c = Some s /\ lost s.

(** [signaling_.reset()] ends the program exactly when the server has closed the
    connection. *)
Lemma client_reset_wpx T Q c :
  (serverLost c -> T) -> (~ serverLost c -> Q [] (setSignaling None c)) -> wpx T resetSignaling Q c.
Proof.
  intros HT HQ. apply wpx_read. destruct (cc_signaling c) as [s|] eqn:E.
  - rewrite destroy_lost. case_decide as D; [by apply HT; exists s|]. apply HQ. intros (s' & E' & D'). naive_solver.
  - replace (setSignaling None c) with c in HQ by (destruct c; cbn in E; by rewrite E). apply HQ. intros (s' & E' & _). congruence.
Qed.

Lemma client_close_wpx T Q c :
  (serverLost c -> T) -> (~ serverLost c -> forall o, Forall noInput o -> Q o (setSignaling None c)) -> wpx T closeSignaling Q c.
Proof.
  intros HT HQ. apply wpx_read. destruct (cc_signaling c) as [s|] eqn:E.
  - apply wpx_then, wp_emit, wpx_then, wp_modify, client_reset_wpx.
    + intros (s' & [= <-] & D). apply HT. exists s. split; [done|by apply disconnect_lost].
    + intros D. apply HQ; [|by repeat constructor]. intros (s' & E' & D'). apply D. exists (SignalingClient.disconnect s). split; [done|]. apply disconnect_lost. naive_solver.
  - replace (setSignaling None c) with c in HQ by (destruct c; cbn in E; by rewrite E). apply HQ; [|done]. intros (s' & E' & _). congruence.
Qed.

Definition stopTail (io : CStopIo) : CcAct :=
  modifyF (setStreamer None) ;! modifyF (setChannel None) ;! modifyF (setEcdh None) ;! modifyF (setOurSalt []) ;!
  modifyF (setKeysReady false) ;!
  ifClient (ClientApp.disconnect (cp_ran io)) ;! modifyF (setClient None) ;!
  closeSignaling ;!
  modifyF (setUi defaultUi) ;!
  signal CStateChanged.

Lemma stopTail_spec (T : Prop) (R : list CcOut -> ClientCoordinator -> Prop) io c :
  cc_inv c -> cc_worker c = None -> cc_timer c = false -> cc_watchdog c = false -> (serverLost c -> T) ->
  (~ serverLost c -> forall o c', cc_inv c' -> released c' -> Forall noInput o -> R o c') -> wpx T (stopTail io) R c.
Proof.
  intros [] Hw Ht Hd HT HR. unfold stopTail. do 5 apply wpx_then, wp_modify. cbn [app].
  apply wpx_then. eapply wp_mono; [|apply ifClient_rest]. cbv beta. intros o c' [Ho (a & q & ->)].
  apply wpx_then, wp_modify, wpx_seq, client_close_wpx; [done|]. intros D o' Ho'.
  apply wpx_then, wp_modify, wp_wpx, wp_emit, HR; [done| |by split|].
  - split; try done. by intros [? ?].
  - cbn [app]. repeat (apply Forall_app; split; try done). by repeat constructor.
Qed.

(** A stop ends well unless the server has closed the signaling connection. *)
Lemma client_stop_wpx (T : Prop) (R : list CcOut -> ClientCoordinator -> Prop) io c :
  cc_inv c -> (serverLost c -> T) ->
  (~ serverLost c -> forall o c', cc_inv c' -> released c' -> Forall noInput o ->
     (forall st, cc_streamer c = Some st -> COutStreamer st CsStop ∈ o) -> R o c') -> wpx T (stop isAddress io) R c.
Proof.
  intros Hc HT HR. pose proof Hc as []. unfold stop. fold (stopTail io). do 3 apply wpx_then, wp_modify. cbn [app].
  apply wpx_then. unfold ifSender at 1. apply wp_read. cbv beta.
  cbn [cc_sender setInputWired setWatchdog setTimer]. rewrite inv_sender0. apply wp_doneF, wpx_then, wp_modify. cbn [app].
  set (c1 := setSender None _). assert (H1 : cc_inv c1) by by split.
  apply wpx_then. eapply wp_mono with (Q := fun o c' => c' = c1 /\ Forall noInput o /\ forall st, cc_streamer c = Some st -> COutStreamer st CsStop ∈ o).
  2:{ unfold ifStreamer. apply wp_read. cbn [cc_streamer c1 setSender setInputWired setWatchdog setTimer].
      destruct (cc_streamer c) as [st|]; [apply wp_emit|apply wp_doneF]; split_and!; try done; [by repeat constructor|].
      intros st' [= <-]. apply list_elem_of_here. }
  cbv beta. intros o1 c' (-> & Ho1 & Hst). apply wpx_then. eapply wp_mono; [|by apply joinWorker_rest]. cbv beta.
  intros o2 c' [Ho2 [q ->]]. apply stopTail_spec; try done. intros D o3 c' Hi Hr Ho3.
  apply HR; [done..| |]; cbn [app]; [by repeat (apply Forall_app; split)|].
  intros st Hs. apply elem_of_app. left. by apply Hst.
Qed.

Lemma stop_spec io c : cc_inv c -> ~ serverLost c ->
  wp (stop isAddress io) (fun o c' => released c' /\ forall st, cc_streamer c = Some st -> COutStreamer st CsStop ∈ o) c.
Proof. intros Hc D. apply (wpx_wp (serverLost c)); [done|]. apply client_stop_wpx; [done|done|]. by intros. Qed.

(** * Steps *)

Lemma safe_freshClient (b : CcAct) : safely linked noInput b -> safe (freshClient ;! b).
Proof.
  intros Hb c Hc. apply wp_seq, wp_modify. apply linked_inv; [done|by apply (cc_inv_core c)|by eexists].
Qed.

Lemma linked_core f :
  (forall c, cc_inv c -> cc_inv (f c)) -> (forall c, cc_client (f c) = cc_client c) -> safely linked noInput (modifyF f).
Proof. apply linked_modify. Qed.

Lemma safe_setMode m : (md_internet m = true -> isAddress (md_serverHost m) = true) -> safe (modifyF (setMode m)).
Proof. intros Hm. apply safe_modify. intros c []. by split. Qed.

(** The address given for the internet mode is a literal one. *)
Definition event_ok (e : CcEvent) : Prop :=
  match e with CcStartInternet address _ _ _ _ _ _ _ _ => isAddress address = true | _ => True end.

(** The steps that stop what runs, and a start whose server closes the connection
    instead of answering. *)
Definition stops (e : CcEvent) : Prop :=
  match e with CcStartLan _ _ _ _ _ | CcStartInternet _ _ _ _ _ _ _ _ _ | CcStop _ | CcWatchdog _ _ => True | _ => False end.

Definition refused (e : CcEvent) : Prop :=
  match e with CcStartInternet _ _ _ _ CoConnected true None _ _ => True | _ => False end.

(** A step ends well, keeping the invariant, or ends the program if [T]. *)
Definition mostly (T : Prop) (a : CcAct) (c : ClientCoordinator) : Prop := wpx T a (fun o c' => cc_inv c' /\ Forall noInput o) c.

Lemma mostly_safe T a c : safe a -> cc_inv c -> mostly T a c.
Proof. intros Ha Hc. by apply wp_wpx, Ha. Qed.

Lemma mostly_seq T a b c : mostly T a c -> (forall c', cc_inv c' -> mostly T b c') -> mostly T (a ;! b) c.
Proof.
  intros Ha Hb. apply wpx_seq. eapply wpx_mono; [done| |exact Ha]. cbv beta. intros o c' [Hc' Ho].
  eapply wpx_mono; [done| |by apply Hb]. cbv beta. intros o' c2 [Hc2 Ho']. split; [done|by apply Forall_app].
Qed.

Lemma mostly_stop io c : cc_inv c -> mostly (serverLost c) (stop isAddress io) c.
Proof. intros Hc. by apply client_stop_wpx. Qed.

(** A stop, and then what cannot fail. *)
Lemma mostly_start (T : Prop) io (b : CcAct) c :
  cc_inv c -> (serverLost c -> T) -> (forall c', cc_inv c' -> mostly T b c') -> mostly T (stop isAddress io ;! b) c.
Proof.
  intros Hc HT Hb. apply mostly_seq; [|done]. eapply wpx_mono; [exact HT| |by apply mostly_stop]. done.
Qed.

Lemma mostly_startLan address port name code io c :
  cc_inv c -> mostly (serverLost c) (startLan isAddress address port name code io) c.
Proof.
  intros Hc. apply mostly_start; [done|done|]. intros c' Hc'. apply mostly_safe; [|done].
  apply safe_seq; [apply safe_modify; intros c2 []; by split|].
  apply safe_freshClient. apply safe_seq; [apply linked_callClient|]. apply linked_modify; [intros ?; by apply cc_inv_core|done].
Qed.

Lemma mostly_startInternet address port code name outcome closed joined supported io c :
  isAddress address = true -> cc_inv c ->
  let e := CcStartInternet address port code name outcome closed joined supported io in
  mostly (serverLost c \/ refused e) (startInternet isAddress address port code name outcome closed joined supported io) c.
Proof.
  intros Ha Hc e. set (T := _ \/ _). apply mostly_start; [done|by left|]. intros c1 Hc1.
  apply mostly_seq; [apply mostly_safe; [|done]; apply safe_modify; intros c2 []; by split|]. intros c2 Hc2. clear c1 Hc1.
  apply mostly_seq; [apply mostly_safe; [core|done]|]. intros c1 Hc1. clear c2 Hc2.
  apply mostly_seq; [apply mostly_safe; [by apply safe_emit, Forall_singleton|done]|]. intros c2 Hc2. clear c1 Hc1.
  assert (K : forall f c, cc_inv c -> cc_inv (setSignaling f c)) by (intros f c1; by apply cc_inv_core).
  destruct outcome; cbn [connect].
  4: { apply wpx_then, wp_modify, wpx_then, wp_emit. cbn [app]. destruct joined as [j|].
    - apply (wpx_mono T T _ (fun o c' => cc_inv c' /\ Forall noInput o)); [done| |].
      { intros o c' [? ?]. split; [done|]. constructor; done. }
      apply mostly_safe; [|by apply K]. apply safe_seq; [by apply safe_setMode|]. apply safe_freshClient.
      apply safe_seq; [apply linked_callClient|]. apply safe_seq; (apply linked_modify; [intros ?; by apply cc_inv_core|done]).
    - apply client_close_wpx; [|intros D o Ho; split; [by do 2 apply K|by constructor]]. intros (sc & [= <-] & D). right.
      destruct closed; [done|by destruct D]. }
  all: apply wpx_then, wp_modify, client_reset_wpx; [intros (sc & [= <-] & D); by destruct D|intros D; split; [by do 2 apply K|done]].
Qed.

Lemma mostly_watchdog running io c : cc_inv c -> mostly (serverLost c) (onStreamStartWatchdog isAddress running io) c.
Proof.
  intros Hc. apply wpx_read. destruct (match cc_streamer c with Some _ => _ | _ => _ end); [by apply mostly_safe; [apply safe_done|]|].
  apply wpx_then, wp_emit, wpx_then, wp_modify, wpx_then, wp_emit. cbn [app]. set (c1 := onUi _ c).
  eapply wpx_mono; [| |apply (mostly_stop io c1)]; [done| |by apply (cc_inv_core c)].
  cbv beta. intros o c' [? ?]. split; [done|]. by repeat (constructor; [done|]).
Qed.

(** What each step may do. *)
Lemma mostly_step e c : event_ok e -> cc_inv c -> mostly ((serverLost c /\ stops e) \/ refused e) (step e) c.
Proof.
  intros He Hc.
  assert (S : forall (T : Prop) a c', (T -> (serverLost c /\ stops e) \/ refused e) -> mostly T a c' -> mostly ((serverLost c /\ stops e) \/ refused e) a c').
  { intros T a c' HT. by apply wpx_mono. }
  destruct e; cbn [ccStep].
  1: { eapply S; [|by apply mostly_startLan]. by left. }
  1: { eapply S; [|by apply mostly_startInternet]. intros [?|?]; [by left|by right]. }
  1: { eapply S; [|by apply mostly_stop]. by left. }
  4: { apply wpx_read. destruct (cc_watchdog c); [|by apply mostly_safe; [apply safe_done|]].
    apply wpx_then, wp_modify. cbn [app]. apply (S (serverLost (setWatchdog false c))); [by left|].
    by apply mostly_watchdog, (cc_inv_core c). }
  all: apply mostly_safe; [|done]; auto with act.
  - core.
  - apply safe_ifSender.
  - apply safe_read. intros c' _. destruct (cc_timer c'); [|apply safe_done]. apply safe_read. intros c2 _.
    destruct (cc_streamer c2); [|apply safe_done]. apply safe_seq; [core|auto with act].
  - apply safe_read. intros c' _. destruct (cc_queue c'); [apply safe_done|]. apply safe_seq; [core|apply safe_runCall].
  - apply safe_ifClient.
  - core.
  - apply safe_read. intros c' Hc'. rewrite (inv_connections _ Hc'). apply safe_done.
Qed.

(** The end of a run: it keeps the invariant, or some step ended the program. *)
Definition fatal (e : CcEvent) (c : ClientCoordinator) : Prop :=
  step e c = Terminate /\ ((serverLost c /\ stops e) \/ refused e).

Lemma client_run_cons e es c o c1 : step e c = Done (o, c1) ->
  run (e :: es) c = match run es c1 with
                    | Done (o', c2) => Done (o ++ o', c2) | NullDeref => NullDeref | Terminate => Terminate | Undefined => Undefined end.
Proof. intros E. unfold ccRun. cbn [forF]. unfold seqF. by rewrite E. Qed.

Lemma mostly_run es c : Forall event_ok es -> cc_inv c ->
  wp (run es) (fun o c' => cc_inv c' /\ Forall noInput o) c \/
  (run es c = Terminate /\ exists before e after outs c', es = before ++ e :: after /\ run before c = Done (outs, c') /\ fatal e c').
Proof.
  intros He. revert c. induction He as [|e es He _ IH]; intros c Hc; [by left|].
  pose proof (mostly_step e c He Hc) as S. unfold mostly, wpx in S. destruct (step e c) as [[o c1]| | |] eqn:E; [|done| |done].
  - destruct S as [Hc1 Ho]. destruct (IH c1 Hc1) as [G|(Et & before & e' & after & outs & c' & -> & Er & Hf)].
    + left. unfold wp in *. rewrite (client_run_cons _ _ _ _ _ E). destruct (run es c1) as [[o' c2]| | |]; try done.
      destruct G as [? ?]. split; [done|by apply Forall_app].
    + right. split; [by rewrite (client_run_cons _ _ _ _ _ E), Et|]. exists (e :: before), e', after, (o ++ outs), c'. split; [done|].
      split; [|done]. by rewrite (client_run_cons _ _ _ _ _ E), Er.
  - right. split; [unfold ccRun; cbn [forF]; unfold seqF; by rewrite E|]. exists [], e, es, [], c. by split_and!.
Qed.

Lemma client_run_inv es outs c : Forall event_ok es -> run es newCoordinator = Done (outs, c) -> cc_inv newCoordinator ->
  cc_inv c /\ Forall noInput outs.
Proof.
  intros He E Hc. destruct (mostly_run es newCoordinator He Hc) as [G|[Et _]]; [|congruence]. unfold wp in G. by rewrite E in G.
Qed.

Lemma cc_new_inv : cc_inv newCoordinator.
Proof. split; try done. by intros [? ?]. Qed.

(** * Properties *)


(** Stopping the client leaves nothing behind: no session, no signaling connection,
    no keys, no streamer, no worker and no timer; a streamer that existed was told to
    stop first. After the server has closed the signaling connection it ends the
    program instead. *)
Theorem client_stop_releases_all io c :
  cc_inv c ->
  (serverLost c -> stop isAddress io c = Terminate) /\
  (~ serverLost c -> exists outs c', stop isAddress io c = Done (outs, c') /\ released c' /\
    forall st, cc_streamer c = Some st -> COutStreamer st CsStop ∈ outs).
Proof.
  intros Hc. split; [intros D; by apply wpx_terminates, client_stop_wpx|]. intros D.
  destruct (wp_done _ _ _ (stop_spec io c Hc D)) as (o & c' & E & Hr & Hst). by exists o, c'.
Qed.

(** Nothing the user does reaches the host: no step creates the input sender, so
    that in no run a key, the mouse or a pad is ever sent, nor the widget connected. *)
Theorem input_is_never_forwarded es outs c :
  Forall event_ok es -> run es newCoordinator = Done (outs, c) ->
  cc_sender c = None /\ cc_connections c = O /\ Forall noInput outs.
Proof.
  intros He E. by destruct (client_run_inv es outs c He E cc_new_inv) as [[] ?].
Qed.

End Spec.
