(* ===== verification/ClientCoordinatorRuns.v ===== *)
(** Runs of the client coordinator: the keys it agrees on with the host
    coordinator, and what its runs show of the stream's start. *)

From S2P Require Import Prelude Types Double Protocol OrderedMap Calls Config HostSession ClientSession SessionCodes Crypto SecureChannel AdaptiveBitrate InputProtocol InputInjector UdpTransport SignalingClient HostApp ClientApp VideoWidget InputForwarding HostCoordinator HostCoordinatorSpec ClientCoordinator ClientCoordinatorSpec.

Open Scope fact_scope.
Open Scope Z_scope.

(** * The two applications agree on keys *)

(** What one side sends with the other side receives with. *)
Definition mirrored (h c : SecureChannel) : Prop :=
  sc_active h = true /\ sc_active c = true /\ sc_sendKey h = sc_recvKey c /\ sc_recvKey h = sc_sendKey c /\
  sc_nonceSalt h = sc_nonceSalt c.

(** The message [beginKeyExchange] of either application sends. *)
Definition keyMessage (kp : EcdhKeyPair) (salt : bytes) : bytes :=
  encodeMessage (mkEnvelope IdKeyExchange (BKeyExchange (mkKeyExchange (kp_publicKey kp) salt))).

Lemma keyMessage_decodes kp salt :
  length (kp_publicKey kp) = kEcdhPubBytes -> length salt = 16%nat ->
  decodeMessage (idCode IdKeyExchange) (keyMessage kp salt) =
    Some (mkEnvelope IdKeyExchange (BKeyExchange (mkKeyExchange (kp_publicKey kp) salt))).
Proof. intros H1 H2. by apply (decode_encode (BKeyExchange (mkKeyExchange (kp_publicKey kp) salt))). Qed.

Section Agreement.
Context `{CNG, !CNGLaws} `{KeyCodes} (cfg : Config) (mvk : Z -> Z) (isAddress : bytes -> bool).

Lemma callHost_keeps f h a : hc_host h = Some a ->
  wp (HostCoordinator.callHost f) (fun _ h' => hc_channels h' = hc_channels h /\ hc_streams h' = hc_streams h) h.
Proof. intros Ha. unfold wp, HostCoordinator.callHost, readF. rewrite Ha. by destruct (f a) as [os a']. Qed.

Lemma callClient_keeps f c a : cc_client c = Some a ->
  wp (ClientCoordinator.callClient f) (fun _ c' => cc_channels c' = cc_channels c /\ cc_channel c' = cc_channel c) c.
Proof. intros Ha. unfold wp, ClientCoordinator.callClient, readF. rewrite Ha. by destruct (f a) as [os a']. Qed.

Lemma host_receives_key id peer salt h cs kp ok ch a :
  length (kp_publicKey peer) = kEcdhPubBytes -> length salt = 16%nat ->
  HostCoordinator.findStream id h = Some cs -> cst_clientId cs = id -> cst_ecdh cs = Some kp -> cst_keysReady cs = false -> hc_host h = Some a ->
  finish kp (cst_ourSalt cs) (kp_publicKey peer) salt (hc_code h) true newChannel = (ok, ch) ->
  wp (HostCoordinator.handleAppMessage mvk id (idCode IdKeyExchange) (keyMessage peer salt))
    (fun _ h' => hc_channels h' = hc_channels h ++ [ch] /\
       (cst_channel <$> HostCoordinator.findStream id h') = Some (Some (length (hc_channels h)))) h.
Proof.
  intros L1 L2 Hf Hid Hk Hr Ha Hfin. unfold HostCoordinator.handleAppMessage. apply wp_read. rewrite keyMessage_decodes by done.
  cbn [env_type env_body]. rewrite Hf, Hk, Hr. cbn [kx_publicKey kx_salt]. rewrite Hfin.
  apply wp_seq, wp_modify, wp_seq, wp_modify. set (h2 := HostCoordinator.setChannels _ _).
  assert (E : forall f, wp (HostCoordinator.callHost f) (fun _ h' => hc_channels h' = hc_channels h ++ [ch] /\
       (cst_channel <$> HostCoordinator.findStream id h') = Some (Some (length (hc_channels h)))) h2).
  { intros f. eapply wp_mono; [|by apply (callHost_keeps f h2 a)]. cbv beta. intros _ h' [E1 E2]. rewrite E1. split; [done|].
    unfold HostCoordinator.findStream. rewrite E2. cbn [h2 HostCoordinator.setChannels hc_streams setStreams cst_clientId cstChannel].
    by rewrite Hid, om_lookup_insert_eq. }
  destruct ok; cbn [negb]; [apply E|]. apply wp_seq, wp_emit. apply E.
Qed.

Lemma client_receives_key peer salt c kp ok ch a ran io :
  length (kp_publicKey peer) = kEcdhPubBytes -> length salt = 16%nat ->
  cc_ecdh c = Some kp -> cc_client c = Some a ->
  finish kp (cc_ourSalt c) (kp_publicKey peer) salt (md_sessionCode (cc_mode c)) false newChannel = (ok, ch) ->
  wp (ClientCoordinator.handleAppMessage cfg isAddress (idCode IdKeyExchange) (keyMessage peer salt) ran io)
    (fun _ c' => cc_channels c' = cc_channels c ++ [ch] /\ cc_channel c' = Some (length (cc_channels c))) c.
Proof.
  intros L1 L2 Hk Ha Hfin. unfold ClientCoordinator.handleAppMessage. apply wp_read. rewrite keyMessage_decodes by done.
  cbn [env_type env_body]. rewrite Hk. cbn [kx_publicKey kx_salt]. rewrite Hfin.
  apply wp_seq, wp_modify, wp_seq, wp_modify. set (c2 := ClientCoordinator.setChannels _ _).
  destruct ok; cbn [negb]; apply wp_seq; [|apply wp_emit]; (eapply wp_mono; [|by apply (callClient_keeps _ c2 a)]);
    cbv beta; intros _ c' [E1 E2]; [apply wp_modify; cbn [cc_channels cc_channel setUi onUi]|]; by rewrite E1, E2.
Qed.

(** C6: the keys of a session: when the host's coordinator and the client's each
    receive the other's key message, under the same session code and with a key
    agreement that is symmetric for their pairs, both keep a channel that is
    active, and the two are mirror images: each sends with the key the other
    receives with, under the same nonce salt. *)
Theorem applications_agree_on_keys id h cs kpH a c kpC b ran io shared
  (Hf : HostCoordinator.findStream id h = Some cs) (Hid : cst_clientId cs = id) (HkH : cst_ecdh cs = Some kpH)
  (Hr : cst_keysReady cs = false) (Ha : hc_host h = Some a)
  (HkC : cc_ecdh c = Some kpC) (Hb : cc_client c = Some b)
  (Hcode : hc_code h = md_sessionCode (cc_mode c))
  (Hecdh : ecdhP256 kpH (kp_publicKey kpC) = Some shared) (Hsym : ecdhP256 kpC (kp_publicKey kpH) = Some shared)
  (Hsh : length shared = 32%nat) (Hs1 : length (cst_ourSalt cs) = 16%nat) (Hs2 : length (cc_ourSalt c) = 16%nat)
  (Hp1 : length (kp_publicKey kpH) = kEcdhPubBytes) (Hp2 : length (kp_publicKey kpC) = kEcdhPubBytes) :
  exists outs h' outs' c' chH chC,
    HostCoordinator.handleAppMessage mvk id (idCode IdKeyExchange) (keyMessage kpC (cc_ourSalt c)) h = Done (outs, h') /\
    ClientCoordinator.handleAppMessage cfg isAddress (idCode IdKeyExchange) (keyMessage kpH (cst_ourSalt cs)) ran io c = Done (outs', c') /\
    (HostCoordinator.findStream id h' ≫= cst_channel) ≫= (fun n => hc_channels h' !! n) = Some chH /\
    cc_channel c' ≫= (fun n => cc_channels c' !! n) = Some chC /\
    mirrored chH chC.
Proof.
  destruct (finish_value kpH (cst_ourSalt cs) (kp_publicKey kpC) (cc_ourSalt c) (hc_code h) true newChannel shared) as [Hl E1]; try done.
  destruct (finish_value kpC (cc_ourSalt c) (kp_publicKey kpH) (cst_ourSalt cs) (md_sessionCode (cc_mode c)) false newChannel shared)
    as [_ E2]; try done.
  rewrite (deriveKeys_sym shared (cc_ourSalt c)), <- Hcode in E2.
  destruct (wp_done _ _ _ (host_receives_key id kpC (cc_ourSalt c) h cs kpH _ _ a Hp2 Hs2 Hf Hid HkH Hr Ha E1)) as (outs & h' & Eh & Hch & Hst).
  rewrite Hcode in E2.
  destruct (wp_done _ _ _ (client_receives_key kpH (cst_ourSalt cs) c kpC _ _ b ran io Hp1 Hs1 HkC Hb E2)) as (outs' & c' & Ec & Hcc & Hcp).
  exists outs, h', outs', c'. eexists _, _. split; [exact Eh|]. split; [exact Ec|].
  destruct (HostCoordinator.findStream id h') as [cs'|]; [|done]. cbn in Hst. injection Hst as Hst. cbn [mbind option_bind].
  rewrite Hst, Hcp. cbn [mbind option_bind]. rewrite Hch, Hcc, !list_lookup_middle by done. split; [done|]. split; [done|].
  rewrite <- Hcode. unfold mirrored. cbn [sc_active sc_sendKey sc_recvKey sc_nonceSalt]. by split_and!.
Qed.

End Agreement.

(** * Closed runs *)

Definition clientStop : CStopIo := mkCsio [] (mkStio false []).
Definition clientIo7 : CqIo := mkCqio (Some (Toy.keyPair 7)) (replicate 16 3) [] (mkStio true []) None.
Definition clientFrame (type : Z) (data : bytes) : CcEvent := CcNetwork (CiFrame (seconds 101) 3 type data).

Definition acceptPayload : bytes :=
  encodeMessage (mkEnvelope IdNegotiationResult (BNegotiationResult (mkNegotiationResult true 0 1280 720 60 8000 []))).

(** The client joins under the session code, is accepted, and its news are handled. *)
Definition clientJoins : list CcEvent :=
  [CcStartLan (str "10.0.0.1") 41717 (str "ana") sampleCode clientStop;
   CcNetwork (CiAttempt (seconds 100) (inr 3));
   clientFrame (idCode IdNegotiationResult) acceptPayload] ++ replicate 5 (CcDispatch clientIo7).

Definition hostKey : bytes := keyMessage (Toy.keyPair 5) (replicate 16 9).

Definition streamStartPayload : bytes :=
  encodeMessage (mkEnvelope IdStreamStart (BStreamStart (mkStreamStart 50000 77 0 0 1280 720 60 8000))).

Abbreviation clientSampleRun es :=
  (@ccRun Toy.cng Headers.codes Config.defaultConfig (fun _ => true) es newCoordinator).

Definition clientEndsWith (r : Outcome (list CcOut * ClientCoordinator)) (P : list CcOut -> ClientCoordinator -> bool) : bool :=
  match r with Done (o, c) => P o c | _ => false end.

(** Joined, with the keys agreed and a stream started. *)
Definition clientStreams : list CcEvent :=
  clientJoins ++ [clientFrame (idCode IdKeyExchange) hostKey; CcDispatch clientIo7;
    clientFrame (idCode IdStreamStart) streamStartPayload; CcDispatch clientIo7; CcWorker (mkStio true []); CcDispatch clientIo7].

Definition clientStarts (os : list CcOut) : list (option nat) :=
  omap (fun o => match o with COutStreamer _ (CsStart _ _ _ _ ch _) => Some ch | _ => None end) os.

Lemma clientStreams_ok isAddress : Forall (event_ok isAddress) clientStreams.
Proof.
  unfold clientStreams, clientJoins. apply Forall_app. split; [apply Forall_app; split|]; cbn [replicate];
    repeat (apply List.Forall_cons; [exact I|]); apply List.Forall_nil.
Qed.

(** A client of an internet session. *)
Definition clientInternet : list CcEvent :=
  [CcStartInternet (str "1.2.3.4") 9000 sampleCode (str "ana") CoConnected false
     (Some (mkJr 1 0 (str "bob") (str "tok") 7001 7002 [] 0)) [] clientStop].

(** The server closes the signaling connection; stopping then ends the program. *)
Theorem client_stop_after_the_server_left_is_fatal :
  clientSampleRun (clientInternet ++ [CcSignalingClosed; CcStop clientStop]) = Terminate /\
  clientEndsWith (clientSampleRun (clientInternet ++ [CcStop clientStop])) (fun _ c => bool_decide (cc_signaling c = None)) = true.
Proof. vm_compute. by split. Qed.


Lemma client_sample_inv es outs c :
  Forall (event_ok (fun _ => true)) es -> clientSampleRun es = Done (outs, c) -> cc_inv (fun _ => true) c.
Proof. intros He E. exact (proj1 (client_run_inv _ _ es outs c He E (cc_new_inv (fun _ => true)))). Qed.

Lemma client_stop_releases_all_witness :
  match clientSampleRun clientStreams with
  | Done (_, c) => cc_streamer c = Some 0%nat /\ cc_signaling c = None /\
      exists outs c', ClientCoordinator.stop (fun _ => true) clientStop c = Done (outs, c') /\ released c' /\
        forall st, cc_streamer c = Some st -> COutStreamer st CsStop ∈ outs
  | _ => False
  end.
Proof.
  assert (S : match clientSampleRun clientStreams with Done (_, c) => cc_streamer c = Some 0%nat /\ cc_signaling c = None | _ => False end)
    by (vm_compute; by split).
  destruct (clientSampleRun clientStreams) as [[outs c]| | |] eqn:E; [|done..]. destruct S as [S1 S2]. split; [exact S1|]. split; [exact S2|].
  apply (client_stop_releases_all (fun _ => true) clientStop c (client_sample_inv _ _ _ (clientStreams_ok _) E)).
  intros (sg & Esg & _). rewrite S2 in Esg. discriminate Esg.
Defined.

Lemma applications_agree_on_keys_witness :
  match sampleRun (fun _ => true) (lanHosting ++ joinEvents 1 7 ++ [HcDispatch sampleIo; HcDispatch sampleIo]),
        clientSampleRun clientJoins with
  | Done (_, h), Done (_, c) => exists outs h' outs' c' chH chC,
      @HostCoordinator.handleAppMessage Toy.cng id 1 (idCode IdKeyExchange) kxPayload h = Done (outs, h') /\
      @ClientCoordinator.handleAppMessage Toy.cng Config.defaultConfig (fun _ => true) (idCode IdKeyExchange) hostKey [] (mkStio true []) c =
        Done (outs', c') /\
      (HostCoordinator.findStream 1 h' ≫= cst_channel) ≫= (fun n => hc_channels h' !! n) = Some chH /\
      cc_channel c' ≫= (fun n => cc_channels c' !! n) = Some chC /\ mirrored chH chC
  | _, _ => False
  end.
Proof.
  assert (Sh : match sampleRun (fun _ => true) (lanHosting ++ joinEvents 1 7 ++ [HcDispatch sampleIo; HcDispatch sampleIo]) with
               | Done (_, h) => HostCoordinator.findStream 1 h = Some (mkCst 1 0 false (Some (Toy.keyPair 5)) (replicate 16 9) None None) /\
                   is_Some (hc_host h) /\ hc_code h = sampleCode
               | _ => False end) by (vm_compute; split_and!; [done|by eexists|done]).
  assert (Sc : match clientSampleRun clientJoins with
               | Done (_, c) => cc_ecdh c = Some (Toy.keyPair 7) /\ is_Some (cc_client c) /\ cc_ourSalt c = replicate 16 3 /\
                   md_sessionCode (cc_mode c) = sampleCode
               | _ => False end) by (vm_compute; split_and!; [done|by eexists|done|done]).
  destruct (sampleRun (fun _ => true) _) as [[oh h]| | |]; [|done..]. destruct Sh as (Hf & [a Ha] & Hh).
  destruct (clientSampleRun clientJoins) as [[oc c]| | |]; [|done..]. destruct Sc as (Hk & [b Hb] & Hs & Hm).
  pose proof (@applications_agree_on_keys Toy.cng Toy.cng_laws Config.defaultConfig id (fun _ => true) 1 h
    (mkCst 1 0 false (Some (Toy.keyPair 5)) (replicate 16 9) None None) (Toy.keyPair 5) a c (Toy.keyPair 7) b [] (mkStio true [])
    (reverse (le_put 32 35))) as T.
  rewrite Hs in T. apply T; try done; try (vm_compute; reflexivity). by rewrite Hh, Hm.
Defined.

(** A stream announced before any key exchange is received in the clear. *)
Theorem early_stream_start_is_unsealed :
  clientEndsWith (clientSampleRun (clientJoins ++
      [clientFrame (idCode IdStreamStart) streamStartPayload; CcDispatch clientIo7; CcWorker (mkStio true [])]))
    (fun o _ => bool_decide (clientStarts o = [None])) = true.
Proof. vm_compute. reflexivity. Qed.

(** The host's confirmation, as the host coordinator sends it, ends the session: the
    client's session takes it for malformed, so that the message that would arm the
    watchdog against a silent host never gets there. *)
Theorem host_ready_disconnects_the_client :
  clientEndsWith (clientSampleRun (clientJoins ++ [clientFrame (idCode IdKeyExchange) hostKey; CcDispatch clientIo7;
      clientFrame (idCode IdSessionKeyReady) (encodeMessage (mkEnvelope IdSessionKeyReady defaultBody))] ++ replicate 5 (CcDispatch clientIo7)))
    (fun o c => negb (active c) && negb (cc_watchdog c) && negb (cc_keysReady c) &&
       existsb (fun x => match x with COutUi (CErrorOccurred m) => bool_decide (m = str "Host sent a malformed message") | _ => false end) o) = true.
Proof. vm_compute. reflexivity. Qed.

(** After a STREAM_STOP the streamer stays, so that the next stream is not started. *)
Theorem second_stream_start_is_ignored :
  clientEndsWith (clientSampleRun (clientStreams ++
      [clientFrame (idCode IdStreamStop) (encodeMessage (mkEnvelope IdStreamStop (BStreamStop (mkStreamStop [])))); CcDispatch clientIo7;
       clientFrame (idCode IdStreamStart) streamStartPayload; CcDispatch clientIo7; CcWorker (mkStio true []); CcDispatch clientIo7]))
    (fun o c => bool_decide (clientStarts o = [Some 0%nat]) &&
       existsb (fun x => match x with COutStreamer 0 CsStop => true | _ => false end) o &&
       bool_decide (cu_status (cc_ui c) = str "Stream stopped")) = true.
Proof. vm_compute. reflexivity. Qed.

(** A stream that came up is reported after the stop that took it down. *)
Theorem stopped_client_says_streaming :
  clientEndsWith (clientSampleRun (clientStreams ++ [CcStop clientStop] ++ take 12 clientStreams ++ [CcWorker (mkStio true []); CcStop clientStop] ++
      replicate 9 (CcDispatch clientIo7)))
    (fun _ c => bool_decide (cu_status (cc_ui c) = str "Streaming") && negb (active c) && bool_decide (cc_streamer c = None)) = true.
Proof. vm_compute. reflexivity. Qed.
