(* ===== verification/Theme.v ===== *)
(** ui/Theme.h and Theme.cpp: the application's palette and style sheet.

    The text of the sheet is the source's, with a grave accent where the source has a
    double quote. *)

From S2P Require Import Prelude.

Open Scope Z_scope.

(** * Colours *)

Definition kBg : bytes := str "#0e1015".
Definition kPanel : bytes := str "#151823".
Definition kPanel2 : bytes := str "#1b1f2c".
Definition kBorder : bytes := str "#272d3d".
Definition kAccent : bytes := str "#4da3ff".
Definition kText : bytes := str "#e8ecf2".
Definition kMuted : bytes := str "#9aa3b2".
Definition kDanger : bytes := str "#ff5d5d".

(** * The sheet *)

Definition unquote (s : bytes) : bytes := (fun c => if c =? 96 then 34 else c) <$> s.

(** Foundation, buttons, inputs, group boxes and tables. *)
Definition sheetControls : bytes := unquote (str "
/* ================= foundation ================= */
QWidget { background: transparent; color: %TEXT%; font-family: `Segoe UI`; }
QMainWindow, QDialog { background: %BG%; }
QWidget#homePage { background: qlineargradient(x1:0, y1:0, x2:0.35, y2:1,
        stop:0 #10131c, stop:1 #0c0e13); }

QToolTip { background: %PANEL2%; color: %TEXT%; border: 1px solid %BORDER%;
           padding: 6px 8px; border-radius: 4px; }

/* ================= buttons ================= */
QPushButton {
    background: %PANEL2%;
    border: 1px solid %BORDER%;
    border-radius: 6px;
    padding: 7px 16px;
    color: %TEXT%;
    font-weight: 600;
}
QPushButton:hover { border-color: %ACCENT%; background: #212636; }
QPushButton:pressed { background: #181c29; border-color: %ACCENT%; }
QPushButton:disabled { color: #6b7180; border-color: #20242f; background: #14161f; }

QPushButton#primary {
    background: qlineargradient(x1:0, y1:0, x2:0, y2:1, stop:0 #4da3ff, stop:1 #2f86e8);
    border: 1px solid #2f7ee0;
    color: white;
    font-weight: 700;
    padding: 9px 18px;
}
QPushButton#primary:hover {
    background: qlineargradient(x1:0, y1:0, x2:0, y2:1, stop:0 #6fb5ff, stop:1 #3f93f2);
    border-color: #6fb5ff;
}
QPushButton#primary:pressed { background: #2f7ed6; }
QPushButton#primary:disabled { background: #24425f; border-color: #24425f; color: #9aa8b5; }

QPushButton#danger { color: #ff8080; border-color: #55323a; }
QPushButton#danger:hover { background: #2c1b1f; border-color: %DANGER%; color: %DANGER%; }

/* big hero cards on the home page */
QFrame#heroCard {
    background: %PANEL%;
    border: 1px solid %BORDER%;
    border-radius: 10px;
}
QFrame#heroCard:hover { border-color: %ACCENT%; background: #181c2a; }

/* ================= inputs ================= */
QLineEdit, QSpinBox, QDoubleSpinBox, QComboBox {
    background: #10131c;
    border: 1px solid %BORDER%;
    border-radius: 6px;
    padding: 6px 10px;
    color: %TEXT%;
    min-height: 20px;
    selection-background-color: %ACCENT%;
    selection-color: white;
}
QLineEdit:focus, QSpinBox:focus, QComboBox:focus, QDoubleSpinBox:focus { border-color: %ACCENT%; }
QLineEdit:disabled, QSpinBox:disabled, QComboBox:disabled { color: #6b7180; }
QLineEdit[invalid=`true`] { border-color: %DANGER%; }

QComboBox QAbstractItemView {
    background: %PANEL2%;
    border: 1px solid %BORDER%;
    color: %TEXT%;
    selection-background-color: %ACCENT%;
    selection-color: white;
    outline: none;
}
QComboBox::drop-down { border: none; width: 22px; }
QSpinBox::up-button, QSpinBox::down-button { width: 18px; border: none; background: transparent; }
QSpinBox::up-button:hover, QSpinBox::down-button:hover { background: #262b3a; border-radius: 3px; }

/* ================= group boxes (cards) ================= */
QGroupBox {
    background: %PANEL%;
    border: 1px solid %BORDER%;
    border-radius: 10px;
    margin-top: 14px;
    padding: 14px 12px 10px 12px;
    font-weight: 700;
}
QGroupBox::title {
    subcontrol-origin: margin;
    subcontrol-position: top left;
    left: 12px;
    padding: 0 4px;
    color: %ACCENT%;
    letter-spacing: 1px;
}

/* ================= tables ================= */
QTableWidget {
    background: #12151f;
    alternate-background-color: #161a26;
    border: 1px solid %BORDER%;
    border-radius: 6px;
    gridline-color: #20242f;
    selection-background-color: #2a4a72;
    selection-color: white;
    outline: none;
}
QTableWidget::item { padding: 4px 8px; border: none; }
QTableWidget::item:selected { background: #2a4a72; }
QHeaderView { background: transparent; border: none; }
QHeaderView::section {
    background: #1a1e2b;
    color: %MUTED%;
    border: none;
    border-right: 1px solid #20242f;
    padding: 6px 8px;
    font-weight: 700;
}

").

(** Text areas, check boxes, sliders, scroll bars, message boxes and the rest. *)
Definition sheetDetails : bytes := unquote (str "/* ================= text areas ================= */
QTextEdit, QPlainTextEdit, QTextBrowser {
    background: #10131c;
    border: 1px solid %BORDER%;
    border-radius: 6px;
    padding: 6px;
    color: %TEXT%;
    selection-background-color: %ACCENT%;
    selection-color: white;
    font-family: `Consolas`;
    font-size: 9pt;
}

QLabel { color: %TEXT%; background: transparent; }
QLabel[muted=`true`] { color: %MUTED%; font-weight: 400; }
QLabel#sessionCode {
    font-family: `Consolas`;
    font-size: 26pt;
    font-weight: 700;
    color: %ACCENT%;
    letter-spacing: 6px;
    padding: 6px;
    background: #10131c;
    border: 1px solid %BORDER%;
    border-radius: 8px;
}
QLabel#statValue { font-family: `Consolas`; font-size: 11pt; color: %TEXT%; }
QLabel#statName  { color: %MUTED%; font-size: 8.5pt; font-weight: 400; }
QLabel#heroTitle {
    font-family: `Segoe UI`;
    font-size: 15pt;
    font-weight: 800;
    color: %TEXT%;
}
QLabel#heroDesc { color: %MUTED%; font-weight: 400; }
QLabel#brand {
    color: %ACCENT%;
    font-family: `Segoe UI`;
    font-size: 32pt;
    font-weight: 800;
    letter-spacing: 10px;
}
QLabel#joinStatus { color: %MUTED%; font-weight: 400; }

/* ================= check boxes / radios ================= */
QCheckBox { spacing: 8px; color: %TEXT%; }
QCheckBox::indicator {
    width: 16px; height: 16px;
    border: 1px solid %BORDER%;
    border-radius: 4px;
    background: #10131c;
}
QCheckBox::indicator:hover { border-color: %ACCENT%; }
QCheckBox::indicator:checked {
    background: %ACCENT%;
    border-color: %ACCENT%;
    image: none;
}
QCheckBox:disabled { color: #6b7180; }

/* ================= sliders ================= */
QSlider::groove:horizontal {
    height: 5px;
    background: #232837;
    border-radius: 2px;
}
QSlider::sub-page:horizontal { background: %ACCENT%; border-radius: 2px; }
QSlider::handle:horizontal {
    width: 14px; height: 14px;
    margin: -5px 0;
    background: #e8ecf2;
    border-radius: 7px;
}
QSlider::handle:horizontal:hover { background: white; }
QSlider::handle:horizontal:disabled { background: #4a4f5e; }

/* ================= scrollbars ================= */
QScrollBar:vertical { background: transparent; width: 10px; margin: 2px; }
QScrollBar::handle:vertical {
    background: #2c3140;
    border-radius: 5px;
    min-height: 30px;
}
QScrollBar::handle:vertical:hover { background: #3b4254; }
QScrollBar::add-line, QScrollBar::sub-line { height: 0; width: 0; }
QScrollBar:horizontal { background: transparent; height: 10px; margin: 2px; }
QScrollBar::handle:horizontal {
    background: #2c3140;
    border-radius: 5px;
    min-width: 30px;
}
QScrollBar::handle:horizontal:hover { background: #3b4254; }
QScrollBar::add-line:horizontal, QScrollBar::sub-line:horizontal { height: 0; width: 0; }
QScrollBar::add-page, QScrollBar::sub-page { background: transparent; }

/* ================= message boxes ================= */
QMessageBox { background: %PANEL%; border: 1px solid %BORDER%; }
QMessageBox QLabel { color: %TEXT%; font-size: 10pt; }

/* ================= misc ================= */
QFrame#line { background: %BORDER%; max-height: 1px; border: none; }
QProgressBar {
    background: #10131c; border: 1px solid %BORDER%; border-radius: 5px;
    text-align: center; color: %TEXT%; height: 14px;
}
QProgressBar::chunk { background: %ACCENT%; border-radius: 5px; }
").

(** [QString::replace(before, after)]: every occurrence, from the left; the text put in
    is not searched again. [skip] counts the rest of an occurrence. *)
Fixpoint replaceFrom (before after : bytes) (skip : nat) (s : bytes) : bytes :=
  match s with
  | [] => []
  | c :: r =>
      match skip with
      | S skip => replaceFrom before after skip r
      | O =>
          if bool_decide (take (length before) s = before) then after ++ replaceFrom before after (length before - 1) r
          else c :: replaceFrom before after 0 r
      end
  end.

Definition replace (before after s : bytes) : bytes := replaceFrom before after 0 s.

(** The tokens in the order they are replaced. *)
Definition tokens : list (bytes * bytes) :=
  [(str "%BG%", kBg); (str "%PANEL%", kPanel); (str "%PANEL2%", kPanel2); (str "%BORDER%", kBorder);
   (str "%ACCENT%", kAccent); (str "%TEXT%", kText); (str "%MUTED%", kMuted); (str "%DANGER%", kDanger)].

Definition styleSheet : bytes := foldl (fun s tv => replace tv.1 tv.2 s) (sheetControls ++ sheetDetails) tokens.

(** * The palette *)

Inductive ColorGroup := AllGroups | Disabled.
Inductive ColorRole :=
  | Window | WindowText | Base | AlternateBase | Text | Button | ButtonText | Highlight | HighlightedText
  | ToolTipBase | ToolTipText | PlaceholderText | Link | LinkVisited.
Inductive Color := Named (name : bytes) | Rgb (r g b : Z) | White.

#[export] Instance ColorGroup_eq_dec : EqDecision ColorGroup.
Proof. solve_decision. Defined.
#[export] Instance ColorRole_eq_dec : EqDecision ColorRole.
Proof. solve_decision. Defined.
#[export] Instance Color_eq_dec : EqDecision Color.
Proof. solve_decision. Defined.

(** The calls of [setColor], in order. *)
Definition palette : list (ColorGroup * ColorRole * Color) :=
  [(AllGroups, Window, Named kBg); (AllGroups, WindowText, Named kText); (AllGroups, Base, Named kPanel2);
   (AllGroups, AlternateBase, Named kPanel); (AllGroups, Text, Named kText); (AllGroups, Button, Named kPanel2);
   (AllGroups, ButtonText, Named kText); (AllGroups, Highlight, Named kAccent); (AllGroups, HighlightedText, White);
   (AllGroups, ToolTipBase, Named kPanel2); (AllGroups, ToolTipText, Named kText);
   (AllGroups, PlaceholderText, Named kMuted); (Disabled, Text, Rgb 110 110 120); (Disabled, ButtonText, Rgb 110 110 120);
   (AllGroups, Link, Named kAccent); (AllGroups, LinkVisited, Named kAccent)].

(** The colour of a role for enabled and for disabled widgets: the last call that set
    it; a call without a group sets both. *)
Definition colorOf (disabled : bool) (role : ColorRole) : option Color :=
  foldl (fun acc '(g, r, c) =>
    if bool_decide (r = role) && (disabled || bool_decide (g = AllGroups)) then Some c else acc) None palette.

Record Font := mkFont { fo_family : bytes; fo_points : Z; fo_bold : bool; fo_antialias : bool }.

(** What the application is given. *)
Record Look := mkLook { lk_style : bytes; lk_font : Font; lk_palette : list (ColorGroup * ColorRole * Color); lk_sheet : bytes }.

Definition applyDarkTheme : Look :=
  mkLook (str "Fusion") (mkFont (str "Segoe UI") 10 false true) palette styleSheet.

Definition headerFont (pointSize : Z) : Font := mkFont (str "Segoe UI") pointSize true false.

(** * The sheet is complete *)

(** All tokens at once: a text between two percent signs is looked up. *)
Definition valueOf (name : bytes) : option bytes := snd <$> List.find (fun tv => bool_decide (tv.1 = name)) tokens.

Fixpoint upTo (x : Z) (s : bytes) : bytes :=
  match s with [] => [] | c :: s => if c =? x then [] else c :: upTo x s end.

Fixpoint substitute (fuel : nat) (s : bytes) : option bytes :=
  match fuel, s with
  | _, [] => Some []
  | O, _ => None
  | S fuel, c :: r =>
      if c =? 37 then
        let name := upTo 37 r in
        v ← valueOf ([37] ++ name ++ [37]);
        t ← substitute fuel (drop (S (length name)) r); Some (v ++ t)
      else t ← substitute fuel r; Some (c :: t)
  end.

(** The depth of braces after a text; [None] when one closes that was not opened. *)
Fixpoint braces (depth : nat) (s : bytes) : option nat :=
  match s with
  | [] => Some depth
  | c :: s =>
      if c =? 123 then braces (S depth) s
      else if c =? 125 then match depth with S d => braces d s | O => None end
      else braces depth s
  end.

(** The eight replacements, one after the other, give what looking up every token at
    once gives, so their order does not matter and no token is a part of another; no
    percent sign is left, which is a token that nobody replaced; and every rule of the
    sheet is closed. *)
Theorem sheet_is_complete :
  substitute (length (sheetControls ++ sheetDetails)) (sheetControls ++ sheetDetails) = Some styleSheet /\
  forallb (fun c => negb (c =? 37)) styleSheet = true /\
  braces 0 styleSheet = Some 0%nat.
Proof. vm_compute. done. Qed.

(** Every role of the palette has a colour for enabled and for disabled widgets, and a
    disabled widget's text is not the colour of an enabled one's. *)
Theorem palette_is_complete role :
  (forall disabled, is_Some (colorOf disabled role)) /\
  (role = Text \/ role = ButtonText -> colorOf true role <> colorOf false role).
Proof.
  split; [intros []; destruct role; vm_compute; by eexists|]. by intros [-> | ->]; vm_compute.
Qed.
