(* ===== verification/Qt.v ===== *)
(** The functions of Qt's value classes the windows use on text, as an interface. A
    [QString] is the bytes of its UTF-8 form; its positions count UTF-16 units. *)

From S2P Require Import Prelude Types.

Open Scope Z_scope.

Class Qt := {
  (** What [toStdString] gives of [fromStdString] (ill-formed input is replaced). *)
  q_utf8 : bytes -> bytes;
  q_trimmed : bytes -> bytes;
  (** [toInt] and [toUShort]; 0 when the conversion fails. *)
  q_toInt : bytes -> Z;
  q_toUShort : bytes -> Z;
  (** Well-formed text. *)
  q_text : bytes -> Prop;
  q_size : bytes -> Z;
  q_startsWith : Z -> bytes -> bool;
  (** -1 when the character is not there. *)
  q_indexOf : Z -> bytes -> Z;
  q_lastIndexOf : Z -> bytes -> Z;
  (** [left(n)], [mid(pos)] and [mid(pos, n)]. *)
  q_left : bytes -> Z -> bytes;
  q_mid : bytes -> Z -> bytes;
  q_mid2 : bytes -> Z -> Z -> bytes }.

(** A character of ASCII: one byte, one unit, and no part of another character. *)
Definition ascii (x : Z) : Prop := 0 <= x < 128.

(** As documented. *)
Class QtLaws `{Qt} : Prop := {
  trimmed_idem s : q_trimmed (q_trimmed s) = q_trimmed s;
  toInt_dec n : 0 <= n < 2 ^ 31 -> q_toInt (print_dec n) = n;
  toUShort_dec n : 0 <= n < 2 ^ 16 -> q_toUShort (print_dec n) = n;
  toUShort_large n : 2 ^ 16 <= n < 2 ^ 64 -> q_toUShort (print_dec n) = 0;
  toUShort_fits s : fits 16 (q_toUShort s);
  text_ascii s : Forall ascii s -> q_text s;
  text_app s t : q_text s -> q_text t -> q_text (s ++ t);
  size_ascii s : Forall ascii s -> q_size s = Z.of_nat (length s);
  size_app s t : q_text s -> q_text t -> q_size (s ++ t) = q_size s + q_size t;
  size_pos s : q_text s -> s <> [] -> 0 < q_size s;
  startsWith_head x y s : ascii x -> q_text (y :: s) -> q_startsWith x (y :: s) = (y =? x);
  indexOf_absent x s : ascii x -> q_text s -> x ∉ s -> q_indexOf x s = -1;
  indexOf_first x s t : ascii x -> q_text s -> q_text t -> x ∉ s -> q_indexOf x (s ++ x :: t) = q_size s;
  lastIndexOf_absent x s : ascii x -> q_text s -> x ∉ s -> q_lastIndexOf x s = -1;
  lastIndexOf_last x s t : ascii x -> q_text s -> q_text t -> x ∉ t -> q_lastIndexOf x (s ++ x :: t) = q_size s;
  left_prefix s t : q_text s -> q_text t -> q_left (s ++ t) (q_size s) = s;
  mid_suffix s t : q_text s -> q_text t -> q_mid (s ++ t) (q_size s) = t;
  mid2_inner s t u : q_text s -> q_text t -> q_text u -> q_mid2 (s ++ t ++ u) (q_size s) (q_size t) = t }.

(** An index below a number of entries. *)
Lemma index_cases (n : nat) (i : Z) : 0 <= i < Z.of_nat n -> exists k, (k < n)%nat /\ i = Z.of_nat k.
Proof. intros Hi. exists (Z.to_nat i). lia. Qed.

(** * Decimal text *)

Lemma dec_value_snoc s x : dec_value (s ++ [x]) = 10 * dec_value s + (x - 48).
Proof. unfold dec_value. by rewrite foldl_app. Qed.

Lemma dec_digits_spec fuel v acc :
  (0 < fuel)%nat -> 0 <= v < 10 ^ Z.of_nat fuel ->
  exists ds, dec_digits fuel v acc = ds ++ acc /\ forallb isdigit ds = true /\ dec_value ds = v /\ ds <> [].
Proof.
  revert v acc. induction fuel as [|fuel IH]; intros v acc Hf Hv; [lia|]. cbn [dec_digits].
  assert (Hd : isdigit (48 + v mod 10) = true) by (unfold isdigit; pose proof (Z.mod_pos_bound v 10); lia).
  destruct (Z.eqb_spec (v / 10) 0) as [E|E].
  - exists [48 + v mod 10]. split_and!; [done|cbn; by rewrite Hd| |done]. unfold dec_value. cbn [foldl].
    pose proof (Z.div_mod v 10). lia.
  - assert (H10 : 10 ^ Z.of_nat (S fuel) = 10 * 10 ^ Z.of_nat fuel) by (rewrite Nat2Z.inj_succ, Z.pow_succ_r; lia).
    assert (Hv' : 0 <= v / 10 < 10 ^ Z.of_nat fuel)
      by (split; [apply Z.div_pos; lia|apply Z.div_lt_upper_bound; lia]).
    destruct fuel as [|fuel]; [cbn in Hv'; lia|].
    destruct (IH (v / 10) ((48 + v mod 10) :: acc) ltac:(lia) Hv') as (ds & -> & Hds & Hval & Hne).
    exists (ds ++ [48 + v mod 10]). rewrite <- app_assoc. split_and!; [done| | |by destruct ds].
    + rewrite forallb_app, Hds. cbn. by rewrite Hd.
    + rewrite dec_value_snoc, Hval. pose proof (Z.div_mod v 10). lia.
Qed.

(** Decimal text denotes its number. *)
Lemma print_dec_spec n : 0 <= n < 2 ^ 64 ->
  forallb isdigit (print_dec n) = true /\ dec_value (print_dec n) = n /\ print_dec n <> [].
Proof.
  intros Hn. destruct (dec_digits_spec 20 n [] ltac:(lia)) as (ds & E & H1 & H2 & H3).
  { split; [lia|]. apply Z.lt_le_trans with (2 ^ 64); [lia|]. by vm_compute. }
  unfold print_dec. rewrite E, app_nil_r. done.
Qed.

(** Digits are no delimiters, and are ASCII. *)
Lemma print_dec_no n x : 0 <= n < 2 ^ 64 -> isdigit x = false -> x ∉ print_dec n.
Proof.
  intros Hn Hx Hin. destruct (print_dec_spec n Hn) as (Hd & _). apply list_elem_of_In in Hin.
  rewrite forallb_forall in Hd. specialize (Hd x Hin). congruence.
Qed.

Lemma print_dec_ascii n : 0 <= n < 2 ^ 64 -> Forall ascii (print_dec n).
Proof.
  intros Hn. destruct (print_dec_spec n Hn) as (Hd & _). rewrite forallb_forall in Hd. apply list.Forall_forall.
  intros x Hx%list_elem_of_In. specialize (Hd x Hx). unfold isdigit in Hd. unfold ascii. lia.
Qed.

(** * Texts with a delimiter *)

Section Delimiter.
Context `{QtLaws}.

Lemma text_dec n : 0 <= n < 2 ^ 64 -> q_text (print_dec n).
Proof. intros Hn. by apply text_ascii, print_dec_ascii. Qed.

Lemma ascii_one x : ascii x -> Forall ascii [x].
Proof. intros Hx. by apply Forall_singleton. Qed.

Lemma text_one x : ascii x -> q_text [x].
Proof. intros Hx. by apply text_ascii, ascii_one. Qed.

Lemma size_one x : ascii x -> q_size [x] = 1.
Proof. intros Hx. by rewrite size_ascii by by apply ascii_one. Qed.

Lemma text_cons x s : ascii x -> q_text s -> q_text (x :: s).
Proof. intros Hx Hs. apply (text_app [x] s); [by apply text_one|done]. Qed.

Lemma size_cons x s : ascii x -> q_text s -> q_size (x :: s) = 1 + q_size s.
Proof. intros Hx Hs. change (x :: s) with ([x] ++ s). rewrite size_app, size_one by (done || by apply text_one). done. Qed.

(** What is behind a delimiter. *)
Lemma mid_after s x t : ascii x -> q_text s -> q_text t -> q_mid (s ++ x :: t) (q_size s + 1) = t.
Proof.
  intros Hx Hs Ht. change (x :: t) with ([x] ++ t). rewrite app_assoc.
  replace (q_size s + 1) with (q_size (s ++ [x])) by (rewrite size_app, size_one by (done || by apply text_one); done).
  apply mid_suffix; [|done]. apply text_app; [done|by apply text_one].
Qed.

End Delimiter.

#[export] Hint Resolve text_dec text_cons text_app : rp.

(** * An instance *)

(** A concrete instance: the text of ASCII, with plain digits and its white space. *)
Module AsciiQt.

Fixpoint indexOf (x : Z) (s : bytes) : Z :=
  match s with
  | [] => -1
  | c :: s => if c =? x then 0 else let i := indexOf x s in if i =? -1 then -1 else i + 1
  end.

Definition lastIndexOf (x : Z) (s : bytes) : Z :=
  let i := indexOf x (rev s) in if i =? -1 then -1 else Z.of_nat (length s) - 1 - i.

Lemma indexOf_none x s : x ∉ s -> indexOf x s = -1.
Proof.
  induction s as [|c s IH]; [done|]. rewrite not_elem_of_cons. intros [Hc Hs]. cbn [indexOf].
  rewrite (proj2 (Z.eqb_neq _ _)) by done. by rewrite IH.
Qed.

Lemma indexOf_some x s t : x ∉ s -> indexOf x (s ++ x :: t) = Z.of_nat (length s).
Proof.
  induction s as [|c s IH]; cbn [app indexOf length]; [by rewrite Z.eqb_refl|]. rewrite not_elem_of_cons. intros [Hc Hs].
  rewrite (proj2 (Z.eqb_neq c x)) by done. rewrite IH by done. rewrite (proj2 (Z.eqb_neq _ _)) by lia. lia.
Qed.

Lemma not_in_rev (x : Z) s : x ∉ s -> x ∉ rev s.
Proof. by rewrite !list_elem_of_In, <- in_rev. Qed.

Lemma lastIndexOf_some x s t : x ∉ t -> lastIndexOf x (s ++ x :: t) = Z.of_nat (length s).
Proof.
  intros Ht. unfold lastIndexOf. rewrite rev_app_distr. cbn [rev]. rewrite <- app_assoc. cbn [app].
  rewrite indexOf_some by by apply not_in_rev. rewrite length_rev, length_app. cbn [length].
  rewrite (proj2 (Z.eqb_neq _ _)) by lia. lia.
Qed.

Definition number (limit : Z) (s : bytes) : Z :=
  if forallb isdigit s && (dec_value s <? limit) then dec_value s else 0.

Fixpoint dropSpaces (s : bytes) : bytes :=
  match s with [] => [] | c :: t => if isspace c then dropSpaces t else s end.

Definition trimmed (s : bytes) : bytes := rev (dropSpaces (rev (dropSpaces s))).

#[export] Instance qt : Qt := {|
  q_utf8 s := s; q_trimmed := trimmed; q_toInt := number (2 ^ 31); q_toUShort := number (2 ^ 16);
  q_text := Forall ascii; q_size s := Z.of_nat (length s);
  q_startsWith x s := match s with y :: _ => y =? x | [] => false end;
  q_indexOf := indexOf; q_lastIndexOf := lastIndexOf;
  q_left s n := take (Z.to_nat n) s; q_mid s pos := drop (Z.to_nat pos) s;
  q_mid2 s pos n := take (Z.to_nat n) (drop (Z.to_nat pos) s) |}.

Lemma dropSpaces_idem s : dropSpaces (dropSpaces s) = dropSpaces s.
Proof. induction s as [|c s IH]; [done|]. cbn. destruct (isspace c) eqn:E; [done|]. cbn. by rewrite E. Qed.

(** Trimming the end leaves a start without space alone. *)
Lemma dropSpaces_keeps s t : dropSpaces s = s -> rev t = dropSpaces (rev s) -> dropSpaces t = t.
Proof.
  intros Hs Ht. assert (E : exists u, s = t ++ u).
  { assert (G : forall l, exists u, l = u ++ dropSpaces l).
    { intros l. induction l as [|c l [u IH]]; [by exists []|]. cbn. destruct (isspace c); [|by exists []].
      exists (c :: u). cbn. by rewrite <- IH. }
    destruct (G (rev s)) as [u Hu]. exists (rev u). rewrite <- (rev_involutive s), Hu, <- Ht, rev_app_distr. by rewrite rev_involutive. }
  destruct E as [u ->]. destruct t as [|c t]; [done|]. cbn in Hs |- *. destruct (isspace c); [|done].
  exfalso. assert (L : forall l, (length (dropSpaces l) <= length l)%nat) by (intros l; induction l as [|x l IH]; cbn; [lia|destruct (isspace x); cbn; lia]).
  specialize (L (t ++ u)). rewrite Hs in L. cbn in L. lia.
Qed.

Lemma number_range limit s : 0 < limit -> 0 <= number limit s < limit.
Proof.
  intros Hl. unfold number. destruct (forallb isdigit s) eqn:E; [|cbn; lia]. destruct (Z.ltb_spec (dec_value s) limit); cbn; [|lia].
  split; [|done]. clear H. induction s as [|x s IH] using rev_ind; [done|].
  rewrite forallb_app in E. apply andb_true_iff in E as [E1 E2]. rewrite dec_value_snoc. cbn in E2.
  specialize (IH E1). unfold isdigit in E2. lia.
Qed.

(** Texts of this instance, checked. *)
Lemma text_check s : forallb (fun x => (0 <=? x) && (x <? 128)) s = true -> @q_text qt s.
Proof. rewrite forallb_forall. intros Hs. apply list.Forall_forall. intros x Hx%list_elem_of_In. specialize (Hs x Hx). unfold ascii. lia. Qed.

#[export] Instance qt_laws : QtLaws.
Proof.
  split; cbn [q_trimmed q_toInt q_toUShort q_text q_size q_startsWith q_indexOf q_lastIndexOf q_left q_mid q_mid2 qt].
  - intros s. unfold trimmed at 1. set (t := trimmed s).
    assert (E : dropSpaces t = t).
    { apply (dropSpaces_keeps (dropSpaces s)); [apply dropSpaces_idem|]. unfold t, trimmed. by rewrite rev_involutive. }
    rewrite E. unfold t, trimmed. rewrite rev_involutive, dropSpaces_idem. done.
  - intros n Hn. destruct (print_dec_spec n) as (H1 & H2 & _); [lia|]. unfold number. rewrite H1, H2. destruct (Z.ltb_spec n (2 ^ 31)); [done|lia].
  - intros n Hn. destruct (print_dec_spec n) as (H1 & H2 & _); [lia|]. unfold number. rewrite H1, H2. destruct (Z.ltb_spec n (2 ^ 16)); [done|lia].
  - intros n Hn. destruct (print_dec_spec n) as (H1 & H2 & _); [lia|]. unfold number. rewrite H1, H2. destruct (Z.ltb_spec n (2 ^ 16)); [lia|done].
  - intros s. unfold fits. apply number_range. lia.
  - done.
  - intros s t Hs Ht. by apply Forall_app.
  - done.
  - intros s t _ _. rewrite length_app. lia.
  - intros [|x s] _ Hs; [done|]. cbn [length]. lia.
  - done.
  - intros x s _ _ Hx. by apply indexOf_none.
  - intros x s t _ _ _ Hx. by apply indexOf_some.
  - intros x s _ _ Hx. unfold lastIndexOf. rewrite indexOf_none; [done|by apply not_in_rev].
  - intros x s t _ _ _ Hx. by apply lastIndexOf_some.
  - intros s t _ _. rewrite Nat2Z.id. apply take_app_length.
  - intros s t _ _. rewrite Nat2Z.id. apply drop_app_length.
  - intros s t u _ _ _. rewrite !Nat2Z.id, drop_app_length. apply take_app_length.
Qed.

End AsciiQt.
