(* ===== verification/Paths.v ===== *)
(** common/Paths.h and Paths.cpp: where the program keeps its files (the Windows
    branch), the name of the user and the addresses of the machine.

    The known folder and the environment are parameters, as is what the resolver
    answers for the machine's own name. *)

From S2P Require Import Prelude Types Qt.

Open Scope Z_scope.

(** * Directories *)

(** [std::filesystem::path::operator/] with a relative name, on Windows. *)
Definition isSeparator (c : Z) : bool := (c =? 47) || (c =? 92).

Definition joinPath (dir name : bytes) : bytes :=
  match list.last dir with
  | None => name
  | Some c => if isSeparator c then dir ++ name else dir ++ [92] ++ name
  end.

(** [known]: [SHGetKnownFolderPath], empty when it fails; [env]: [getenv]. *)
Definition dataDir (known : bytes) (env : option bytes) : bytes :=
  let base := if bool_decide (known = []) then match env with Some e => e | None => known end else known in
  if bool_decide (base = []) then str "." else base ++ str "\RemotePlay".

(** [APPDATA] and [LOCALAPPDATA]. *)
Definition configDir (known : bytes) (env : option bytes) : bytes := dataDir known env.
Definition configFilePath (known : bytes) (env : option bytes) : bytes := joinPath (dataDir known env) (str "config.json").

(** The directories the call creates are an event; a failure is only logged. *)
Definition ensureDirectoryExists (dir : bytes) : list bytes * bytes := (if bool_decide (dir = []) then [] else [dir], dir).

Definition logDir (known : bytes) (env : option bytes) : list bytes * bytes :=
  ensureDirectoryExists (joinPath (dataDir known env) (str "Logs")).

Definition userName (env : option bytes) : bytes := match env with Some e => e | None => [] end.

(** * Addresses *)

(** An address the resolver answers; a version 4 address is four bytes. *)
Inductive Address := V4 (a b c d : Z) | V6.

Definition addressText (a b c d : Z) : bytes :=
  print_dec a ++ [46] ++ print_dec b ++ [46] ++ print_dec c ++ [46] ++ print_dec d.

Definition usable (x : Address) : option bytes :=
  match x with
  | V6 => None
  | V4 a b c d => if (a =? 127) || ((a =? 169) && (b =? 254)) then None else Some (addressText a b c d)
  end.

Fixpoint collect (entries : list Address) (result : list bytes) : list bytes :=
  match entries with
  | [] => result
  | x :: entries =>
      match usable x with
      | None => collect entries result
      | Some s => collect entries (if bool_decide (s ∈ result) then result else result ++ [s])
      end
  end.

(** [None]: no host name, no resolution, or an exception, which is caught. *)
Definition localIPv4Addresses (answer : option (list Address)) : list bytes :=
  match answer with None => [] | Some entries => collect entries [] end.

(** * Properties *)

Lemma collect_spec entries result :
  NoDup result ->
  NoDup (collect entries result) /\ (exists more, collect entries result = result ++ more) /\
  forall s, s ∈ collect entries result <-> s ∈ result \/ exists x, x ∈ entries /\ usable x = Some s.
Proof.
  revert result. induction entries as [|x entries IH]; intros result Hn; cbn [collect].
  - split; [done|]. split; [exists []; by rewrite app_nil_r|]. intros s. split; [by left|]. intros [?|(x & Hx & _)]; [done|].
    by apply not_elem_of_nil in Hx.
  - assert (Hkeep : forall r', NoDup r' -> (exists m, r' = result ++ m) ->
      (forall s, s ∈ r' <-> s ∈ result \/ usable x = Some s) ->
      NoDup (collect entries r') /\ (exists more, collect entries r' = result ++ more) /\
      forall s, s ∈ collect entries r' <-> s ∈ result \/ exists y, y ∈ x :: entries /\ usable y = Some s).
    { intros r' Hr' [m ->] Hin. destruct (IH _ Hr') as (H1 & [more Hm] & H3). split; [done|].
      split; [exists (m ++ more); by rewrite Hm, <- app_assoc|]. intros s. rewrite H3, Hin. split.
      - intros [[?|?]|(y & ? & ?)]; [by left|right; exists x; split; [apply list_elem_of_here|done]|right; exists y].
        split; [by apply list_elem_of_further|done].
      - intros [?|(y & [->|?]%elem_of_cons & ?)]; [by left; left|by left; right|right; by exists y]. }
    destruct (usable x) as [s|] eqn:Eu.
    + destruct (bool_decide (s ∈ result)) eqn:Eb; b2p.
      * apply Hkeep; [done|exists []; by rewrite app_nil_r|]. intros s'. split; [by left|]. intros [?|[= <-]]; done.
      * apply Hkeep; [|by exists [s]|].
        -- apply list.NoDup_app. split_and!; [done| |by apply NoDup_singleton].
           intros y Hy ->%list_elem_of_singleton. done.
        -- intros s'. rewrite elem_of_app, list_elem_of_singleton. split; intros [?|E]; auto; [by subst; right|right; by injection E].
    + apply Hkeep; [done|exists []; by rewrite app_nil_r|]. intros s'. split; [by left|]. by intros [?|?].
Qed.

Lemma usable_V4 a b c d s : usable (V4 a b c d) = Some s <-> a <> 127 /\ ~ (a = 169 /\ b = 254) /\ s = addressText a b c d.
Proof.
  unfold usable. generalize (addressText a b c d). intros t. destruct (Z.eqb_spec a 127); cbn [orb]; [split; [done|tauto]|].
  destruct (Z.eqb_spec a 169); destruct (Z.eqb_spec b 254); cbn [andb]; (split; [intros E; try done; injection E as <-; split_and!; tauto|]).
  all: intros (_ & Hn & ->); try done; tauto.
Qed.

(** The addresses offered are exactly the version 4 addresses of the machine that are
    neither loopback nor link-local, each once. *)
Theorem local_addresses_exact entries s :
  NoDup (localIPv4Addresses (Some entries)) /\
  (s ∈ localIPv4Addresses (Some entries) <->
     exists a b c d, V4 a b c d ∈ entries /\ a <> 127 /\ ~ (a = 169 /\ b = 254) /\ s = addressText a b c d).
Proof.
  cbn [localIPv4Addresses]. destruct (collect_spec entries []) as (H1 & _ & H3); [apply NoDup_nil_2|]. split; [done|]. rewrite H3. split.
  - intros [[]%not_elem_of_nil|([a b c d|] & Hx & E)]; [|done]. apply usable_V4 in E. by exists a, b, c, d.
  - intros (a & b & c & d & Hx & E). right. exists (V4 a b c d). split; [done|]. by apply usable_V4.
Qed.

(** Without a known folder and a variable the configuration is kept in the working
    directory. *)
Theorem config_path_falls_back (env : option bytes) :
  env = None \/ env = Some [] -> configFilePath [] env = str ".\config.json".
Proof. by intros [->| ->]. Qed.
