(* ===== verification/Log.v ===== *)
(** common/Log.h and Log.cpp: the levels, the two sinks, the lines and the pruning of
    old log files. The clock, the thread tag and the file system's answers are
    arguments. *)

From S2P Require Import Prelude Types.

Open Scope Z_scope.

(** * Levels *)

Inductive Level := Trace | Debug | Info | Warning | Error | Critical.

Definition levelCode (l : Level) : Z :=
  match l with Trace => 0 | Debug => 1 | Info => 2 | Warning => 3 | Error => 4 | Critical => 5 end.

Definition levelName (l : Level) : bytes :=
  match l with
  | Trace => str "TRACE" | Debug => str "DEBUG" | Info => str "INFO" | Warning => str "WARNING"
  | Error => str "ERROR" | Critical => str "CRITICAL"
  end.

Definition atLeast (l min : Level) : bool := levelCode min <=? levelCode l.

(** * The sinks *)

Record Sink := mkSink { sk_filePath : bytes; sk_consoleMin : Level; sk_fileMin : Level; sk_initialized : bool }.

Definition newSink : Sink := mkSink [] Info Debug false.

Inductive LogOut :=
  | ToStdout (line : bytes)
  | ToStderr (line : bytes)
  | ToFile (path line : bytes)
  | FlushFile
  | RemoveFile (name : bytes).

Definition setConsoleLevel (min : Level) (s : Sink) : Sink := mkSink (sk_filePath s) min (sk_fileMin s) (sk_initialized s).
Definition setFileLevel (min : Level) (s : Sink) : Sink := mkSink (sk_filePath s) (sk_consoleMin s) min (sk_initialized s).

(** The beginning of a line: level, time stamp, thread. *)
Definition lineOf (level : Level) (stamp tag message : bytes) : bytes :=
  str "[" ++ levelName level ++ str "] [" ++ stamp ++ str "] [" ++ tag ++ str "] " ++ message.

Definition write (level : Level) (stamp tag message : bytes) (s : Sink) : list LogOut :=
  let toConsole := atLeast level (sk_consoleMin s) in
  let toFile := sk_initialized s && atLeast level (sk_fileMin s) in
  if negb toConsole && negb toFile then []
  else
    let line := lineOf level stamp tag message in
    (if toConsole then [if atLeast level Error then ToStderr line else ToStdout line] else []) ++
    (if toFile then ToFile (sk_filePath s) line :: (if atLeast level Error then [FlushFile] else []) else []).

(** [detail::Line]: whether it is active is fixed when it is made. *)
Definition lineActive (level : Level) (s : Sink) : bool :=
  atLeast level (sk_consoleMin s) || (sk_initialized s && atLeast level (sk_fileMin s)).

(** A line made under [made] and destroyed under [s]. *)
Definition logLine (level : Level) (made : Sink) (stamp tag message : bytes) (s : Sink) : list LogOut :=
  if lineActive level made then write level stamp tag message s else [].

(** * Old files *)

(** A directory entry: its name, whether it is a regular file, when it was written
    (in hours, [None] when that cannot be told) and whether removing it works. *)
Record Entry := mkEntry { en_name : bytes; en_regular : bool; en_written : option Z; en_removable : bool }.

Fixpoint prefixOf (p s : bytes) : bool :=
  match p, s with
  | [], _ => true
  | x :: p, y :: s => (x =? y) && prefixOf p s
  | _, _ => false
  end.

(** Whether an entry is due for removal. *)
Definition stale (cutoff : Z) (e : Entry) : bool :=
  en_regular e && prefixOf (str "remoteplay_") (en_name e) &&
  match en_written e with Some t => t <? cutoff | None => false end.

(** The loop; [failed] is the error code it shares with the removals. *)
Fixpoint pruneLoop (cutoff : Z) (entries : list Entry) (failed : bool) : list LogOut :=
  match entries with
  | [] => []
  | e :: entries =>
      if failed then []
      else if stale cutoff e then RemoveFile (en_name e) :: pruneLoop cutoff entries (negb (en_removable e))
      else pruneLoop cutoff entries failed
  end.

Definition pruneOldLogs (exists_ : bool) (now keepDays : Z) (entries : list Entry) : list LogOut :=
  if exists_ then pruneLoop (now - 24 * keepDays) entries false else [].

(** [init]: whether the directory (with the reason if not) and the file could be
    opened; [date] is the first ten characters of the time stamp. *)
Definition init (dirsOk : bool) (reason : bytes) (opened : bool) (dir : bytes) (now : Z) (entries : list Entry) (date stamp tag : bytes) (s : Sink) :
    list LogOut * Sink :=
  if negb dirsOk then (write Warning stamp tag (str "Log directory '" ++ dir ++ str "' could not be created: " ++ reason) s, s)
  else
    let pruned := pruneOldLogs true now 7 entries in
    let path := dir ++ [92] ++ str "remoteplay_" ++ date ++ str ".log" in
    if negb opened then (pruned ++ write Warning stamp tag (str "Log file '" ++ path ++ str "' could not be opened; console only.") s, s)
    else
      let s := mkSink path (sk_consoleMin s) (sk_fileMin s) true in
      (pruned ++ [ToFile path (lineOf Info stamp tag (str "Log file opened: " ++ path))], s).

(** * Properties *)

Definition removals (es : list Entry) : list LogOut := (fun e => RemoveFile (en_name e)) <$> es.

Lemma prune_failed cutoff es : pruneLoop cutoff es true = [].
Proof. by destruct es. Qed.

(** Pruning tries exactly the old log files, in order, up to and with the first that
    cannot be removed. *)
Theorem prune_removes_old_logs cutoff es :
  Forall (fun e => stale cutoff e = true -> en_removable e = true) es ->
  pruneLoop cutoff es false = removals (List.filter (stale cutoff) es).
Proof.
  induction 1 as [|e es He _ IH]; [done|]. cbn [pruneLoop List.filter]. destruct (stale cutoff e); [|done].
  rewrite He by done. cbn [negb]. rewrite IH. done.
Qed.

(** Nothing but an old log file is ever removed. *)
Lemma prune_only_old_logs cutoff es failed o : o ∈ pruneLoop cutoff es failed ->
  exists e, e ∈ es /\ stale cutoff e = true /\ o = RemoveFile (en_name e).
Proof.
  revert failed. induction es as [|e es IH]; intros failed; cbn [pruneLoop]; [by intros ?%not_elem_of_nil|].
  destruct failed; [by intros ?%not_elem_of_nil|]. destruct (stale cutoff e) eqn:Es.
  - intros [->|Ho]%elem_of_cons; [exists e; split_and!; [apply list_elem_of_here|done|done]|].
    destruct (IH _ Ho) as (e' & ? & ?). exists e'. split; [by apply list_elem_of_further|done].
  - intros Ho. destruct (IH _ Ho) as (e' & ? & ?). exists e'. split; [by apply list_elem_of_further|done].
Qed.

(** One old file that cannot be removed, because another instance has it open, keeps
    every older file after it. *)
Theorem prune_stops_at_a_locked_log cutoff e es :
  stale cutoff e = true -> en_removable e = false -> pruneLoop cutoff (e :: es) false = [RemoveFile (en_name e)].
Proof. intros Hs Hr. cbn [pruneLoop]. rewrite Hs, Hr. cbn. by rewrite prune_failed. Qed.

(** A line is written wherever its level admits it, and nowhere else, as long as the
    levels stay what they were when it was made. *)
Theorem line_goes_where_its_level_admits level stamp tag message s :
  let line := lineOf level stamp tag message in
  let out := logLine level s stamp tag message s in
  ((ToStdout line ∈ out \/ ToStderr line ∈ out) <-> levelCode (sk_consoleMin s) <= levelCode level) /\
  (ToFile (sk_filePath s) line ∈ out <-> sk_initialized s = true /\ levelCode (sk_fileMin s) <= levelCode level) /\
  (ToStderr line ∈ out -> 4 <= levelCode level).
Proof.
  cbv zeta. unfold logLine, lineActive, write, atLeast. cbv zeta.
  destruct (Z.leb_spec (levelCode (sk_consoleMin s)) (levelCode level)); destruct (sk_initialized s);
    destruct (Z.leb_spec (levelCode (sk_fileMin s)) (levelCode level)); destruct (Z.leb_spec (levelCode Error) (levelCode level));
    cbn [orb andb negb app]; set_unfold; (split; [|split]); try (split; intros Hx); try intros Hx; try (cbn in *; lia);
    try naive_solver; cbn in *; naive_solver lia.
Qed.
