(* ===== verification/SettingsWindow.v ===== *)
(** ui/SettingsWindow.h and SettingsWindow.cpp: the settings page, from the
    configuration to its widgets and back. A spin box keeps its value in its range
    and a filled combo box starts at its first entry, as documented. *)

From S2P Require Import Prelude Types Json Config Qt.

Open Scope Z_scope.

(** * Data *)

(** The widgets' values: indices of the combo boxes, values of the spin boxes,
    check boxes, the text of the name. *)
Record SettingsWindow := mkSw {
  sw_codec : Z; sw_resolution : Z; sw_fps : Z; sw_bitrate : Z; sw_audioBitrate : Z;
  sw_controller : bool; sw_keyboard : bool; sw_mouse : bool; sw_vibration : bool; sw_approval : bool;
  sw_maxBitrate : Z; sw_jitter : Z; sw_port : Z; sw_name : bytes }.

(** As built, before [loadFromConfig]. *)
Definition builtWindow : SettingsWindow := mkSw 0 0 0 2 0 false false false false false 2 10 1024 [].

Section Window.
Context `{Qt}.

(** [QSpinBox::setValue] with a range. *)
Definition spin (lo hi v : Z) : Z := Z.max lo (Z.min v hi).

(** The first index from [i] at which [f] holds, or the current index. *)
Fixpoint selectIndex {A} (f : A -> bool) (xs : list A) (i current : Z) : Z :=
  match xs with
  | [] => current
  | x :: xs => if f x then i else selectIndex f xs (i + 1) current
  end.

Definition resolutionItems : list bytes := Resolution_toString <$> Resolution_presets.

Definition codecIndex (c : VideoCodec) : Z := if c =? Hevc then 1 else if c =? Av1 then 2 else 0.
Definition audioIndex (kbps : Z) : Z := if kbps =? 64 then 0 else if kbps =? 96 then 1 else if kbps =? 192 then 3 else 2.

Definition loadFromConfig (c : Config) (w : SettingsWindow) : SettingsWindow :=
  let v := cfg_video c in let i := cfg_input c in let n := cfg_network c in
  mkSw (codecIndex (v_codec v))
    (selectIndex (fun t => bool_decide (t = Resolution_toString (v_resolution v))) resolutionItems 0 (sw_resolution w))
    (selectIndex (fun f => f =? v_fps v) fpsPresets 0 (sw_fps w))
    (spin 2 50 (v_bitrateMbps v)) (audioIndex (a_bitrateKbps (cfg_audio c)))
    (in_controller i) (in_keyboard i) (in_mouse i) (in_vibration i) (in_requireHostApproval i)
    (spin 2 50 (n_maxBitrateMbps n)) (spin 10 200 (n_jitterBufferMs n)) (spin 1024 65535 (n_listenPort n))
    (q_utf8 (p_name (cfg_profile c))).

Definition codecAt (i : Z) : VideoCodec := if i =? 1 then Hevc else if i =? 2 then Av1 else H264.

(** The configuration [save] puts in memory and hands to [Config::save]; [None]: an
    index outside the frame rates. *)
Definition saved (c : Config) (w : SettingsWindow) : option Config :=
  fps ← fpsPresets !! Z.to_nat (sw_fps w);
  let res := match resolutionItems !! Z.to_nat (sw_resolution w) ≫= Resolution_parse with
             | Some r => r | None => v_resolution (cfg_video c) end in
  kbps ← audioChoices !! Z.to_nat (Z.max 0 (Z.min (sw_audioBitrate w) 3));
  let name := q_trimmed (sw_name w) in
  let name := if (32 <? length name)%nat then take 32 name else name in
  Some (sanitize (mkConfig (mkVideo (codecAt (sw_codec w)) res fps (sw_bitrate w)) (mkAudio kbps)
    (mkInput (sw_controller w) (sw_keyboard w) (sw_mouse w) (sw_vibration w) (sw_approval w))
    (mkNetwork (sw_maxBitrate w) (sw_jitter w) (sw_port w) (n_relayEnabled (cfg_network c))) (mkProfile name))).

(** [save]: the configuration in memory and what becomes of the file. *)
Definition save (dump : json -> option bytes) (dirsOk opened written : bool) (c : Config) (w : SettingsWindow) :
    option (Config * SaveResult) :=
  c ← saved c w; Some (c, Config.save dump dirsOk opened written c).

(** * Properties *)

(** What the widgets can hold. *)
Definition window_ok (w : SettingsWindow) : Prop :=
  0 <= sw_codec w < 3 /\ 0 <= sw_resolution w < 4 /\ 0 <= sw_fps w < 3 /\ 2 <= sw_bitrate w <= 50 /\
  0 <= sw_audioBitrate w < 4 /\ 2 <= sw_maxBitrate w <= 50 /\ 10 <= sw_jitter w <= 200 /\ 1024 <= sw_port w <= 65535.

Lemma spin_range lo hi v : lo <= hi -> lo <= spin lo hi v <= hi.
Proof. unfold spin. lia. Qed.

Lemma selectIndex_range {A} (f : A -> bool) xs i cur :
  0 <= cur -> 0 <= i -> 0 <= selectIndex f xs i cur < Z.max (cur + 1) (i + Z.of_nat (length xs)).
Proof.
  revert i. induction xs as [|x xs IH]; intros i Hc Hi; cbn [selectIndex length]; [lia|].
  destruct (f x); [lia|]. specialize (IH (i + 1)). lia.
Qed.

Lemma codecIndex_range c : 0 <= codecIndex c < 3.
Proof. unfold codecIndex. repeat (destruct (_ =? _)); lia. Qed.
Lemma audioIndex_range k : 0 <= audioIndex k < 4.
Proof. unfold audioIndex. repeat (destruct (_ =? _)); lia. Qed.

Lemma loaded_ok c w : window_ok w -> window_ok (loadFromConfig c w).
Proof.
  intros (H1 & H2 & H3 & _). unfold window_ok, loadFromConfig.
  cbn [sw_codec sw_resolution sw_fps sw_bitrate sw_audioBitrate sw_maxBitrate sw_jitter sw_port].
  set (fr := fun t => bool_decide (t = Resolution_toString (v_resolution (cfg_video c)))).
  set (ff := fun f => f =? v_fps (cfg_video c)).
  pose proof (selectIndex_range fr resolutionItems 0 (sw_resolution w) ltac:(lia) ltac:(lia)).
  pose proof (selectIndex_range ff fpsPresets 0 (sw_fps w) ltac:(lia) ltac:(lia)).
  change (length resolutionItems) with 4%nat in *. change (length fpsPresets) with 3%nat in *.
  pose proof (codecIndex_range (v_codec (cfg_video c))). pose proof (audioIndex_range (a_bitrateKbps (cfg_audio c))).
  pose proof (spin_range 2 50 (v_bitrateMbps (cfg_video c))). pose proof (spin_range 2 50 (n_maxBitrateMbps (cfg_network c))).
  pose proof (spin_range 10 200 (n_jitterBufferMs (cfg_network c))). pose proof (spin_range 1024 65535 (n_listenPort (cfg_network c))).
  lia.
Qed.

(** The entry at an index reads back as its preset. *)
Lemma resolution_at i : 0 <= i < 4 ->
  exists r, resolutionItems !! Z.to_nat i ≫= Resolution_parse = Some r /\ Resolution_presets !! Z.to_nat i = Some r.
Proof.
  intros (k & Hk & ->)%(index_cases 4). rewrite Nat2Z.id. do 4 (destruct k as [|k]; [eexists; split; [vm_compute|]; reflexivity|]). lia.
Qed.

Lemma fps_at i : 0 <= i < 3 -> exists f, fpsPresets !! Z.to_nat i = Some f /\ f ∈ fpsPresets.
Proof.
  intros (k & Hk & ->)%(index_cases 3). rewrite Nat2Z.id. destruct (fpsPresets !! k) as [f|] eqn:E.
  - exists f. split; [done|]. by eapply list_elem_of_lookup_2.
  - apply lookup_ge_None in E. cbn in E. lia.
Qed.

Lemma audio_at i : 0 <= i < 4 -> exists k, audioChoices !! Z.to_nat (Z.max 0 (Z.min i 3)) = Some k /\ audioChoices !! Z.to_nat i = Some k /\ k ∈ audioChoices.
Proof.
  intros Hi. replace (Z.max 0 (Z.min i 3)) with i by lia. destruct (audioChoices !! Z.to_nat i) as [f|] eqn:E.
  - exists f. split_and!; [done..|]. by eapply list_elem_of_lookup_2.
  - apply lookup_ge_None in E. cbn in E. lia.
Qed.

(** The text of the name as it is stored. *)
Definition storedName (text : bytes) : bytes :=
  let name := q_trimmed text in if (32 <? length name)%nat then take 32 name else name.

(** The configuration of the widgets' values, choice by choice. *)
Definition chosen (c : Config) (w : SettingsWindow) (r : Resolution) (fps kbps : Z) : Config :=
  mkConfig (mkVideo (codecAt (sw_codec w)) r fps (sw_bitrate w)) (mkAudio kbps)
    (mkInput (sw_controller w) (sw_keyboard w) (sw_mouse w) (sw_vibration w) (sw_approval w))
    (mkNetwork (sw_maxBitrate w) (sw_jitter w) (sw_port w) (n_relayEnabled (cfg_network c))) (mkProfile (storedName (sw_name w))).

Lemma preset_size r : r ∈ Resolution_presets -> (320 <= res_width r <= 8192) /\ (240 <= res_height r <= 8192).
Proof. intros Hr. unfold Resolution_presets in Hr. set_unfold in Hr. destruct Hr as [->|[->|[->|[->|[]]]]]; cbn; lia. Qed.

Lemma saved_chosen c w : window_ok w ->
  exists r fps kbps, saved c w = Some (chosen c w r fps kbps) /\ config_ok (chosen c w r fps kbps) /\
    Resolution_presets !! Z.to_nat (sw_resolution w) = Some r /\ fpsPresets !! Z.to_nat (sw_fps w) = Some fps /\
    audioChoices !! Z.to_nat (sw_audioBitrate w) = Some kbps.
Proof.
  intros (Hc & Hr & Hf & Hb & Ha & Hm & Hj & Hp).
  destruct (resolution_at _ Hr) as (r & Er & Hr2). destruct (fps_at _ Hf) as (fps & Ef & Hf2).
  destruct (audio_at _ Ha) as (kbps & Ek & Ek2 & Hk2). exists r, fps, kbps.
  assert (Hok : config_ok (chosen c w r fps kbps)).
  { pose proof (preset_size r ltac:(by eapply list_elem_of_lookup_2)). unfold config_ok. cbn. split_and!; try done; lia. }
  split_and!; try done. unfold saved. rewrite Ef, Er, Ek. cbn [mbind option_bind]. f_equal.
  exact (sanitize_id _ Hok).
Qed.

Lemma select_resolution r cur : r ∈ Resolution_presets ->
  Resolution_presets !! Z.to_nat (selectIndex (fun t => bool_decide (t = Resolution_toString r)) resolutionItems 0 cur) = Some r.
Proof.
  intros Hr. unfold Resolution_presets in Hr. set_unfold in Hr.
  destruct Hr as [->|[->|[->|[->|[]]]]]; vm_compute; reflexivity.
Qed.

Lemma select_fps f cur : f ∈ fpsPresets -> fpsPresets !! Z.to_nat (selectIndex (fun x => x =? f) fpsPresets 0 cur) = Some f.
Proof. intros Hf. unfold fpsPresets in Hf. set_unfold in Hf. destruct Hf as [->|[->|[->|[]]]]; vm_compute; reflexivity. Qed.

Lemma select_audio k : k ∈ audioChoices -> audioChoices !! Z.to_nat (audioIndex k) = Some k.
Proof. intros Hk. unfold audioChoices in Hk. set_unfold in Hk. destruct Hk as [->|[->|[->|[->|[]]]]]; vm_compute; reflexivity. Qed.

Lemma codec_back k : codecAt (codecIndex k) = k <-> k ∈ [H264; Hevc; Av1].
Proof.
  unfold codecAt, codecIndex. split.
  - intros <-. repeat (destruct (_ =? _)); set_solver.
  - intros Hk. set_unfold in Hk. by destruct Hk as [->|[->|[->|[]]]].
Qed.

Lemma spin_id lo hi v : lo <= v <= hi -> spin lo hi v = v.
Proof. unfold spin. lia. Qed.

(** Opening the settings and saving them at once: nothing changes exactly for the
    configurations the page can show, those with one of its codecs and preset
    resolutions, a port from 1024 and a name that is trimmed text of 32 bytes; any
    other valid configuration is changed without the user touching it. *)
Theorem settings_page_roundtrip c w :
  config_ok c -> window_ok w ->
  (saved c (loadFromConfig c w) = Some c <->
     v_codec (cfg_video c) ∈ [H264; Hevc; Av1] /\ v_resolution (cfg_video c) ∈ Resolution_presets /\
     1024 <= n_listenPort (cfg_network c) /\ storedName (q_utf8 (p_name (cfg_profile c))) = p_name (cfg_profile c)).
Proof.
  intros (Hf & Hb & _ & Ha & Hm & Hj & Hp) Hw.
  destruct (saved_chosen c _ (loaded_ok c w Hw)) as (r & fps & kbps & Es & _ & Er & Ef & Ek). rewrite Es.
  unfold loadFromConfig in Er, Ef, Ek. cbn [sw_resolution sw_fps sw_audioBitrate] in Er, Ef, Ek.
  rewrite select_fps in Ef by done. injection Ef as <-. rewrite select_audio in Ek by done. injection Ek as <-.
  unfold chosen, loadFromConfig.
  cbn [sw_codec sw_bitrate sw_controller sw_keyboard sw_mouse sw_vibration sw_approval sw_maxBitrate sw_jitter sw_port sw_name].
  rewrite !(spin_id 2 50), (spin_id 10 200) by lia. split.
  - intros E. apply Some_inj in E. pose proof (f_equal (fun c => v_codec (cfg_video c)) E) as E1.
    pose proof (f_equal (fun c => v_resolution (cfg_video c)) E) as E2. pose proof (f_equal (fun c => n_listenPort (cfg_network c)) E) as E3.
    pose proof (f_equal (fun c => p_name (cfg_profile c)) E) as E4. cbn in E1, E2, E3, E4. split_and!.
    + by apply codec_back.
    + rewrite <- E2. by eapply list_elem_of_lookup_2.
    + pose proof (spin_range 1024 65535 (n_listenPort (cfg_network c))). lia.
    + done.
  - intros (H1 & H2 & H3 & H4). rewrite select_resolution in Er by done. injection Er as <-.
    apply codec_back in H1. rewrite H1, H4, spin_id by lia. by destruct c as [[] [] [] [] []].
Qed.

(** What is saved is valid, whatever the widgets hold: the loaded file of a saved
    page needs no correction, and every value is the one that was chosen. *)
Theorem settings_saved_as_chosen c w :
  window_ok w ->
  exists r fps kbps, saved c w = Some (chosen c w r fps kbps) /\ config_ok (chosen c w r fps kbps) /\
    Resolution_presets !! Z.to_nat (sw_resolution w) = Some r /\ fpsPresets !! Z.to_nat (sw_fps w) = Some fps /\
    audioChoices !! Z.to_nat (sw_audioBitrate w) = Some kbps /\ (length (storedName (sw_name w)) <= 32)%nat.
Proof.
  intros Hw. destruct (saved_chosen c w Hw) as (r & fps & kbps & H1 & H2 & H3 & H4 & H5). exists r, fps, kbps. split_and!; try done.
  unfold storedName. cbv zeta. destruct (Nat.ltb_spec 32 (length (q_trimmed (sw_name w)))); [rewrite length_take|]; lia.
Qed.

End Window.

Lemma built_ok : window_ok builtWindow.
Proof. unfold window_ok. cbn. lia. Qed.

Lemma settings_page_roundtrip_witness :
  @saved AsciiQt.qt defaultConfig (@loadFromConfig AsciiQt.qt defaultConfig builtWindow) = Some defaultConfig.
Proof.
  refine (proj2 (@settings_page_roundtrip AsciiQt.qt defaultConfig builtWindow default_ok built_ok) _).
  split_and!; [by_decision|by_decision|unfold defaultConfig, kDefaultListenPort; cbn; lia|reflexivity].
Defined.

Lemma settings_saved_as_chosen_witness :
  exists r fps kbps, @saved AsciiQt.qt defaultConfig builtWindow = Some (@chosen AsciiQt.qt defaultConfig builtWindow r fps kbps).
Proof.
  destruct (@settings_saved_as_chosen AsciiQt.qt defaultConfig builtWindow built_ok) as (r & fps & kbps & H & _). by exists r, fps, kbps.
Defined.

(** A configuration that loads as valid, with a port and a resolution the page has no
    entry for: saving the untouched page changes both. *)
Theorem untouched_page_changes_settings :
  let c := mkConfig (mkVideo H264 (mkResolution 1600 900) 60 8) (mkAudio 128) (mkInput true false false true true)
             (mkNetwork 15 30 443 false) (mkProfile []) in
  sanitize c = c /\
  match @saved AsciiQt.qt c (@loadFromConfig AsciiQt.qt c builtWindow) with
  | Some c' => v_resolution (cfg_video c') = mkResolution 1280 720 /\ n_listenPort (cfg_network c') = 1024
  | None => False
  end.
Proof. vm_compute. by split. Qed.
