(* ===== verification/ClientWindow.v ===== *)
(** ui/ClientWindow.h and ClientWindow.cpp: the page a player joins from and watches
    in. Layouts and painting are not modelled; a page is its entries, its labels,
    what of it is visible, the video widget and the list of recent hosts.

    The window's calls on its coordinator are outputs. The coordinator signals on
    the same thread, so a call carries the signals that it gave before it returned,
    each with the [uiState] its slot reads. *)

From S2P Require Import Prelude Types Double OrderedMap Calls Config Crypto ClientSession ClientApp Qt VideoWidget InputForwarding ClientCoordinator ClientCoordinatorSpec.

Open Scope act_scope.
Open Scope Z_scope.

(** * Data *)

(** The entries of the join form: the mode's index and three texts. *)
Record JoinForm := mkForm { jf_mode : Z; jf_name : bytes; jf_host : bytes; jf_code : bytes }.

(** The label under the form and the one in the bar. *)
Inductive JoinText :=
  | JtNone
  | JtEnter
  | JtConnecting
  | JtCouldNot
  | JtDisconnected (reason : bytes)
  | JtText (message : bytes).

Inductive InfoText :=
  | ItNone
  | ItLine (line : bytes)
  | ItConnecting
  | ItStatus (status : bytes)
  | ItConnected (hostName gameName : bytes) (playerIndex : Z).

(** The texts over the video; [bannerText] below writes them out. *)
Inductive Banner :=
  | BnConnecting
  | BnLoss (percent : double)
  | BnLatency (ms : double)
  | BnFramerate (fps : double).

(** [cw_recents] is the stored list, which the combo box shows; [cw_buttonExits]:
    the button says that it leaves full screen; [cw_shown]: the page is on screen. *)
Record ClientWindow := mkCw {   cw_form : JoinForm; cw_recents : list bytes; cw_joinStatus : JoinText;
  cw_statusRed : bool; cw_joinVisible : bool; cw_video : VideoWidget; cw_videoVisible : bool; cw_barVisible :
  bool; cw_info : InfoText; cw_fullscreen : bool; cw_buttonExits : bool; cw_shown : bool }.

Definition setForm (x : JoinForm) (w : ClientWindow) : ClientWindow :=
  mkCw x (cw_recents w) (cw_joinStatus w) (cw_statusRed w) (cw_joinVisible w) (cw_video w) (cw_videoVisible w)
    (cw_barVisible w) (cw_info w) (cw_fullscreen w) (cw_buttonExits w) (cw_shown w).
Definition setRecents (x : list bytes) (w : ClientWindow) : ClientWindow :=
  mkCw (cw_form w) x (cw_joinStatus w) (cw_statusRed w) (cw_joinVisible w) (cw_video w) (cw_videoVisible w)
    (cw_barVisible w) (cw_info w) (cw_fullscreen w) (cw_buttonExits w) (cw_shown w).
Definition setJoinStatus (x : JoinText) (w : ClientWindow) : ClientWindow :=
  mkCw (cw_form w) (cw_recents w) x (cw_statusRed w) (cw_joinVisible w) (cw_video w) (cw_videoVisible w)
    (cw_barVisible w) (cw_info w) (cw_fullscreen w) (cw_buttonExits w) (cw_shown w).
Definition setStatusRed (x : bool) (w : ClientWindow) : ClientWindow :=
  mkCw (cw_form w) (cw_recents w) (cw_joinStatus w) x (cw_joinVisible w) (cw_video w) (cw_videoVisible w)
    (cw_barVisible w) (cw_info w) (cw_fullscreen w) (cw_buttonExits w) (cw_shown w).
Definition setJoinVisible (x : bool) (w : ClientWindow) : ClientWindow :=
  mkCw (cw_form w) (cw_recents w) (cw_joinStatus w) (cw_statusRed w) x (cw_video w) (cw_videoVisible w)
    (cw_barVisible w) (cw_info w) (cw_fullscreen w) (cw_buttonExits w) (cw_shown w).
Definition setVideo (x : VideoWidget) (w : ClientWindow) : ClientWindow :=
  mkCw (cw_form w) (cw_recents w) (cw_joinStatus w) (cw_statusRed w) (cw_joinVisible w) x (cw_videoVisible w)
    (cw_barVisible w) (cw_info w) (cw_fullscreen w) (cw_buttonExits w) (cw_shown w).
Definition setVideoVisible (x : bool) (w : ClientWindow) : ClientWindow :=
  mkCw (cw_form w) (cw_recents w) (cw_joinStatus w) (cw_statusRed w) (cw_joinVisible w) (cw_video w) x
    (cw_barVisible w) (cw_info w) (cw_fullscreen w) (cw_buttonExits w) (cw_shown w).
Definition setBarVisible (x : bool) (w : ClientWindow) : ClientWindow :=
  mkCw (cw_form w) (cw_recents w) (cw_joinStatus w) (cw_statusRed w) (cw_joinVisible w) (cw_video w)
    (cw_videoVisible w) x (cw_info w) (cw_fullscreen w) (cw_buttonExits w) (cw_shown w).
Definition setInfo (x : InfoText) (w : ClientWindow) : ClientWindow :=
  mkCw (cw_form w) (cw_recents w) (cw_joinStatus w) (cw_statusRed w) (cw_joinVisible w) (cw_video w)
    (cw_videoVisible w) (cw_barVisible w) x (cw_fullscreen w) (cw_buttonExits w) (cw_shown w).
Definition setFullscreen (x : bool) (w : ClientWindow) : ClientWindow :=
  mkCw (cw_form w) (cw_recents w) (cw_joinStatus w) (cw_statusRed w) (cw_joinVisible w) (cw_video w)
    (cw_videoVisible w) (cw_barVisible w) (cw_info w) x (cw_buttonExits w) (cw_shown w).
Definition setButtonExits (x : bool) (w : ClientWindow) : ClientWindow :=
  mkCw (cw_form w) (cw_recents w) (cw_joinStatus w) (cw_statusRed w) (cw_joinVisible w) (cw_video w)
    (cw_videoVisible w) (cw_barVisible w) (cw_info w) (cw_fullscreen w) x (cw_shown w).
Definition setShown (x : bool) (w : ClientWindow) : ClientWindow :=
  mkCw (cw_form w) (cw_recents w) (cw_joinStatus w) (cw_statusRed w) (cw_joinVisible w) (cw_video w)
    (cw_videoVisible w) (cw_barVisible w) (cw_info w) (cw_fullscreen w) (cw_buttonExits w) x.

Definition kMaxRecentHosts : nat := 8.

Inductive WinOut :=
  | WoStartLan (host : bytes) (port : Z) (name code : bytes)
  | WoStartInternet (host : bytes) (port : Z) (code name : bytes)
  | WoStop
  | WoBackToHome
  | WoShowFullScreen
  | WoShowNormal
  | WoFocusVideo
  | WoStyleTimer (ms : Z)
  | WoVideo (s : WidgetSignal).

Definition WinAct : Type := act ClientWindow WinOut.

Section Window.
Context `{Qt} `{WidgetKeys} (cfg : Config) (bannerText : Banner -> bytes).

(** [buildUi]: the name of the profile, the first recent host as the text of the box. *)
Definition builtWindow (recents : list bytes) : ClientWindow :=
  let name := q_utf8 (p_name (cfg_profile cfg)) in
  mkCw (mkForm 0 (if bool_decide (name = []) then str "Player" else name) (default [] (head recents)) [])
    recents JtNone false true newVideoWidget false false ItNone false false false.

(** * Parts *)

Definition callVideo (f : VideoWidget -> list WidgetSignal * VideoWidget) : WinAct := fun w =>
  let '(os, v) := f (cw_video w) in (WoVideo <$> os, setVideo v w).

Definition loadRecentHosts : WinAct :=
  modify (fun w => let f := cw_form w in
    setForm (mkForm (jf_mode f) (jf_name f) (default [] (head (cw_recents w))) (jf_code f)) w).

Definition rememberHost (host : bytes) : WinAct :=
  modify (fun w => setRecents (take kMaxRecentHosts (host :: List.filter (fun h => negb (bool_decide (h = host))) (cw_recents w))) w) ;+
  loadRecentHosts ;+
  modify (fun w => let f := cw_form w in setForm (mkForm (jf_mode f) (jf_name f) host (jf_code f)) w).

Definition setVideoFullscreen (fullscreen : bool) : WinAct := readA (fun w =>
  if Bool.eqb (cw_fullscreen w) fullscreen then skip
  else
    modify (setFullscreen fullscreen) ;+
    callVideo (fun v => ([], setFullscreenActive fullscreen v)) ;+
    if fullscreen then
      emit [WoShowFullScreen] ;+ modify (setBarVisible false) ;+ modify (setButtonExits true)
    else
      emit [WoShowNormal] ;+
      readA (fun w => if cw_videoVisible w && cw_shown w then modify (setBarVisible true) else skip) ;+
      modify (setButtonExits false)).

Definition toggleFullscreen : WinAct := readA (fun w => setVideoFullscreen (negb (cw_fullscreen w))).

Definition setStreamingUi (streaming : bool) : WinAct :=
  readA (fun w => if negb streaming && cw_fullscreen w then setVideoFullscreen false else skip) ;+
  modify (setJoinVisible (negb streaming)) ;+ modify (setVideoVisible streaming) ;+ modify (setBarVisible streaming) ;+
  if streaming then
    emit [WoFocusVideo] ;+ callVideo (setQualityBanner (bannerText BnConnecting)) ;+ modify (setInfo ItConnecting)
  else callVideo (setQualityBanner []).

(** * Slots *)

Definition bannerOf (ui : ClientUiState) : bytes :=
  if dltb (dofZ 5) (cu_lossPercent ui) then bannerText (BnLoss (cu_lossPercent ui))
  else if dltb (dofZ 150) (cu_rttMs ui) then bannerText (BnLatency (cu_rttMs ui))
  else if dltb dzero (cu_fps ui) && dltb (cu_fps ui) (dofZ 25) then bannerText (BnFramerate (cu_fps ui))
  else [].

Definition updateQualityBanner (ui : ClientUiState) : WinAct := callVideo (setQualityBanner (bannerOf ui)).

Definition onStateChanged (ui : ClientUiState) : WinAct :=
  modify (setInfo (ItStatus (cu_status ui))) ;+ updateQualityBanner ui.

Definition onConnectedToHost (hostName gameName : bytes) (playerIndex : Z) : WinAct :=
  modify (setInfo (ItConnected hostName (if bool_decide (gameName = []) then str "?" else gameName) playerIndex)).

Definition onDisconnected (reason : bytes) : WinAct :=
  setStreamingUi false ;+ modify (setJoinStatus (JtDisconnected reason)).

Definition showError (message : bytes) : WinAct :=
  if bool_decide (message = []) then skip
  else modify (setJoinStatus (JtText message)) ;+ modify (setStatusRed true) ;+ emit [WoStyleTimer 8000].

(** The slot of a signal; of a log line the label shows the first 160 characters. *)
Definition slot (signal : ClientUiState * CUiSignal) : WinAct :=
  match snd signal with
  | CStateChanged => onStateChanged (fst signal)
  | CLogLine line => modify (setInfo (ItLine line))
  | CDisconnectedFromHost reason => onDisconnected reason
  | CErrorOccurred message => showError message
  | CConnectedToHost hostName gameName playerIndex => onConnectedToHost hostName gameName playerIndex
  end.

Definition slots (during : list (ClientUiState * CUiSignal)) : WinAct := forA during slot.

(** * Joining and leaving *)

Definition bracket : Z := 91.
Definition closing : Z := 93.
Definition colonChar : Z := 58.

(** The host and the port of the typed address; [port] is the configured one. *)
Definition parseAddress (port : Z) (hostRaw : bytes) : bytes * Z :=
  if q_startsWith bracket hostRaw then
    let close := q_indexOf closing hostRaw in
    if 0 <? close then
      (q_mid2 hostRaw 1 (close - 1),
       if (close + 2 <? q_size hostRaw) && q_startsWith colonChar (q_mid hostRaw (close + 1))
       then q_toUShort (q_mid hostRaw (close + 2)) else port)
    else (hostRaw, port)
  else
    let colon := q_lastIndexOf colonChar hostRaw in
    if (0 <? colon) && (q_indexOf colonChar hostRaw =? colon) then
      let portPart := q_mid hostRaw (colon + 1) in
      if negb (bool_decide (portPart = [])) && (0 <? q_toInt portPart) && (q_toInt portPart <=? 65535)
      then (q_left hostRaw colon, q_toUShort portPart) else (hostRaw, port)
    else (hostRaw, port).

(** [ok], [err]: the coordinator's answer; [during]: what it signalled before. *)
Definition join (during : list (ClientUiState * CUiSignal)) (ok : bool) (err : bytes) : WinAct := readA (fun w =>
  let code := q_trimmed (jf_code (cw_form w)) in
  let hostRaw := q_trimmed (jf_host (cw_form w)) in
  let name := q_trimmed (jf_name (cw_form w)) in
  let name := if bool_decide (name = []) then str "Player" else name in
  if bool_decide (code = []) || bool_decide (hostRaw = []) then modify (setJoinStatus JtEnter)
  else
    let '(host, port) := parseAddress (u16 (n_listenPort (cfg_network cfg))) hostRaw in
    rememberHost hostRaw ;+
    modify (setJoinStatus JtConnecting) ;+
    emit [if jf_mode (cw_form w) =? 1 then WoStartInternet host 9000 code name else WoStartLan host port name code] ;+
    slots during ;+
    if ok then setStreamingUi true
    else modify (setJoinStatus (if bool_decide (err = []) then JtCouldNot else JtText err))).

Definition leave (during : list (ClientUiState * CUiSignal)) : WinAct :=
  emit [WoStop] ;+ slots during ;+ setStreamingUi false.

(** [active]: the coordinator's. *)
Definition disconnectIfActive (active : bool) (during : list (ClientUiState * CUiSignal)) : WinAct :=
  if active then emit [WoStop] ;+ slots during ;+ setStreamingUi false else skip.

Definition back (active : bool) (during : list (ClientUiState * CUiSignal)) : WinAct :=
  disconnectIfActive active during ;+ emit [WoBackToHome].

(** * Keys of the video widget *)

(** The window's connections to the widget's signals. *)
Definition widgetSlot (s : WidgetSignal) : WinAct :=
  match s with
  | EscapePressed => readA (fun w => if cw_fullscreen w then setVideoFullscreen false else skip)
  | ToggleFullscreenRequested _ => toggleFullscreen
  | _ => skip
  end.

Definition onWidget (f : VideoWidget -> list WidgetSignal * VideoWidget) : WinAct := fun w =>
  (callVideo f ;+ forA (fst (f (cw_video w))) widgetSlot) w.

(** * Steps *)

Inductive WinEvent :=
  | WeEdit (form : JoinForm)
  | WeShow (on : bool)
  | WeJoin (during : list (ClientUiState * CUiSignal)) (ok : bool) (err : bytes)
  | WeLeave (during : list (ClientUiState * CUiSignal))
  | WeBack (active : bool) (during : list (ClientUiState * CUiSignal))
  | WeClose (active : bool) (during : list (ClientUiState * CUiSignal))
  | WeSignal (signal : ClientUiState * CUiSignal)
  | WeToggle
  | WeKey (key : Z) (autorepeat : bool)
  | WeDoubleClick (isFullScreen : bool)
  | WeStyleTimer.

(** The join form's buttons, the bar's, and the keys need what they belong to on screen. *)
Definition winStep (e : WinEvent) : WinAct := readA (fun w =>
  match e with
  | WeEdit form => modify (setForm form)
  | WeShow on => modify (setShown on)
  | WeJoin during ok err => if cw_shown w && cw_joinVisible w then join during ok err else skip
  | WeLeave during => if cw_shown w && cw_barVisible w then leave during else skip
  | WeBack active during => if cw_shown w && cw_joinVisible w then back active during else skip
  | WeClose active during => disconnectIfActive active during
  | WeSignal signal => slot signal
  | WeToggle => if cw_shown w then toggleFullscreen else skip
  | WeKey key autorepeat => if cw_shown w && cw_videoVisible w then onWidget (keyPressEvent key autorepeat) else skip
  | WeDoubleClick full =>
      if cw_shown w && cw_videoVisible w then onWidget (fun v => (mouseDoubleClickEvent full, v)) else skip
  | WeStyleTimer => modify (setStatusRed false)
  end).

Definition winRun (es : list WinEvent) : WinAct := forA es winStep.

End Window.

(** * The window's invariant *)

Section Invariant.
Context `{Qt} `{WidgetKeys} (cfg : Config) (bannerText : Banner -> bytes).

(** The widget's flag and the button agree with the window, one of form and video
    is visible, the bar is visible under a video that is not in full screen and
    never without a video, and the recent hosts are at most eight different ones. *)
Record window_ok (w : ClientWindow) : Prop := {
  ok_full : vw_fullscreenActive (cw_video w) = cw_fullscreen w;
  ok_button : cw_buttonExits w = cw_fullscreen w;
  ok_pages : cw_joinVisible w = negb (cw_videoVisible w);
  ok_bar : cw_barVisible w = true -> cw_videoVisible w = true;
  ok_strip : cw_videoVisible w = true -> cw_fullscreen w = false -> cw_barVisible w = true;
  ok_recents : NoDup (cw_recents w) /\ (length (cw_recents w) <= kMaxRecentHosts)%nat }.

Lemma banner_fullscreen text v : vw_fullscreenActive (snd (setQualityBanner text v)) = vw_fullscreenActive v.
Proof. unfold setQualityBanner. by case_bool_decide. Qed.

(** What the labels, the entries and the banner change. *)
Lemma ok_same w w' :
  vw_fullscreenActive (cw_video w') = vw_fullscreenActive (cw_video w) -> cw_fullscreen w' = cw_fullscreen w ->
  cw_buttonExits w' = cw_buttonExits w -> cw_joinVisible w' = cw_joinVisible w -> cw_videoVisible w' = cw_videoVisible w ->
  cw_barVisible w' = cw_barVisible w -> cw_recents w' = cw_recents w -> window_ok w -> window_ok w'.
Proof. intros E1 E2 E3 E4 E5 E6 E7 []. split; rewrite ?E1, ?E2, ?E3, ?E4, ?E5, ?E6, ?E7; done. Qed.

Lemma keeps_label f :
  (forall w, cw_video (f w) = cw_video w /\ cw_fullscreen (f w) = cw_fullscreen w /\ cw_buttonExits (f w) = cw_buttonExits w /\
    cw_joinVisible (f w) = cw_joinVisible w /\ cw_videoVisible (f w) = cw_videoVisible w /\ cw_barVisible (f w) = cw_barVisible w /\
    cw_recents (f w) = cw_recents w) -> keeps window_ok (modify (Out := WinOut) f).
Proof.
  intros Hf. apply keeps_modify. intros w Hw. destruct (Hf w) as (E1 & E2 & E3 & E4 & E5 & E6 & E7).
  apply (ok_same w); try done. by rewrite E1.
Qed.

Lemma keeps_video f :
  (forall v, vw_fullscreenActive (snd (f v)) = vw_fullscreenActive v) -> keeps window_ok (callVideo f).
Proof.
  intros Hf w Hw. unfold callVideo. specialize (Hf (cw_video w)). destruct (f (cw_video w)) as [os v].
  by apply (ok_same w).
Qed.

Lemma keeps_banner text : keeps window_ok (callVideo (setQualityBanner text)).
Proof. apply keeps_video. intros v. apply banner_fullscreen. Qed.

Local Ltac run := unfold seqA, readA, callVideo, emit, modify, skip; cbn.

(** Where the switch leaves the window. *)
Lemma fullscreen_fin b w :
  snd (setVideoFullscreen b w) =
  if Bool.eqb (cw_fullscreen w) b then w
  else setButtonExits b (setBarVisible (if b then false else cw_barVisible w || cw_videoVisible w && cw_shown w)
         (setVideo (setFullscreenActive b (cw_video w)) (setFullscreen b w))).
Proof.
  unfold setVideoFullscreen. run. destruct (Bool.eqb _ _); [done|]. destruct b; [done|]. run.
  destruct (cw_videoVisible w && cw_shown w); run; by rewrite ?orb_true_r, ?orb_false_r.
Qed.

Lemma keeps_toggle w b : cw_shown w = true -> window_ok w -> window_ok (snd (setVideoFullscreen b w)).
Proof.
  intros Hs Hw. rewrite fullscreen_fin. destruct (Bool.eqb _ _) eqn:E; [done|]. destruct Hw as [H1 H2 H3 H4 H5 H6].
  rewrite Hs, andb_true_r. split; cbn; try done.
  - destruct b; [done|]. intros [Hb|Hv]%orb_true_iff; [by apply H4|done].
  - intros Hv ->. by rewrite Hv, orb_true_r.
Qed.

Lemma streaming_fin (b : bool) w :
  exists v, vw_fullscreenActive v = (if b then vw_fullscreenActive (cw_video w) else if cw_fullscreen w then false else vw_fullscreenActive (cw_video w)) /\
  let w' := snd (setStreamingUi bannerText b w) in
  cw_video w' = v /\ cw_fullscreen w' = b && cw_fullscreen w /\ cw_buttonExits w' = (if b then cw_buttonExits w else if cw_fullscreen w then false else cw_buttonExits w) /\
  cw_joinVisible w' = negb b /\ cw_videoVisible w' = b /\ cw_barVisible w' = b /\ cw_recents w' = cw_recents w.
Proof.
  exists (cw_video (snd (setStreamingUi bannerText b w))). unfold setStreamingUi. rewrite !fin_seq, fin_read.
  destruct b; cbn [negb andb].
  - run. unfold setQualityBanner. case_bool_decide; cbn; by split_and!.
  - destruct (cw_fullscreen w) eqn:Ef; [rewrite fullscreen_fin, Ef; cbn [Bool.eqb]|rewrite fin_skip];
      run; unfold setQualityBanner; case_bool_decide; cbn; by split_and!.
Qed.

Lemma keeps_streaming b : keeps window_ok (setStreamingUi bannerText b).
Proof.
  intros w [H1 H2 H3 H4 H5 H6]. destruct (streaming_fin b w) as (v & Ev & E1 & E2 & E3 & E4 & E5 & E6 & E7).
  split; rewrite ?E1, ?E2, ?E3, ?E4, ?E5, ?E6, ?E7, ?Ev; try done.
  - destruct b; [done|]. by destruct (cw_fullscreen w).
  - destruct b; [done|]. by destruct (cw_fullscreen w).
Qed.

Hint Resolve keeps_banner keeps_streaming : act.
Local Ltac label := by apply keeps_label; intros ?; split_and!.

Lemma keeps_slot signal : keeps window_ok (slot bannerText signal).
Proof.
  unfold slot. destruct signal as [ui [|line|reason|message|h g i]]; cbn [fst snd].
  - apply keeps_seq; [label|apply keeps_banner].
  - label.
  - apply keeps_seq; [apply keeps_streaming|label].
  - unfold showError. case_bool_decide; [apply keeps_skip|]. apply keeps_seq; [label|]. apply keeps_seq; [label|apply keeps_emit].
  - label.
Qed.

Lemma keeps_slots during : keeps window_ok (slots bannerText during).
Proof. apply keeps_for, keeps_slot. Qed.

Lemma filtered_recents h (rs : list bytes) :
  NoDup rs -> NoDup (take kMaxRecentHosts (h :: List.filter (fun x => negb (bool_decide (x = h))) rs)).
Proof.
  intros Hr. eapply sublist_NoDup; [|apply sublist_take]. apply list.NoDup_cons. split.
  - intros [_ Hn]%list_elem_of_In%filter_In. by rewrite bool_decide_eq_true_2 in Hn.
  - apply NoDup_ListNoDup, List.NoDup_filter. by apply NoDup_ListNoDup.
Qed.

Lemma keeps_remember h : keeps window_ok (rememberHost h).
Proof.
  apply keeps_seq; [|apply keeps_seq; label]. apply keeps_modify. intros w [H1 H2 H3 H4 H5 [Hn Hl]].
  split; try done. cbn. split; [by apply filtered_recents|]. rewrite length_take. unfold kMaxRecentHosts. lia.
Qed.

Lemma keeps_leave during : keeps window_ok (leave bannerText during).
Proof. apply keeps_seq; [apply keeps_emit|]. apply keeps_seq; [apply keeps_slots|apply keeps_streaming]. Qed.

Lemma keeps_disconnect b during : keeps window_ok (disconnectIfActive bannerText b during).
Proof. destruct b; [apply keeps_leave|apply keeps_skip]. Qed.

Lemma keeps_join during ok err : keeps window_ok (join cfg bannerText during ok err).
Proof.
  apply keeps_read. intros w Hw. cbv zeta. destruct (_ || _); [revert w Hw; label|].
  destruct (parseAddress _ _) as [host port]. refine (keeps_seq _ _ _ (keeps_remember _) _ w Hw).
  apply keeps_seq; [label|]. apply keeps_seq; [apply keeps_emit|]. apply keeps_seq; [apply keeps_slots|].
  destruct ok; [apply keeps_streaming|label].
Qed.

Lemma keeps_on_widget w f :
  cw_shown w = true -> (forall v, vw_fullscreenActive (snd (f v)) = vw_fullscreenActive v) ->
  (forall v, exists s, fst (f v) = [s]) -> window_ok w -> window_ok (snd (onWidget f w)).
Proof.
  intros Hs Hf Hone Hw. unfold onWidget. rewrite fin_seq. destruct (Hone (cw_video w)) as [s ->]. cbn [forA]. rewrite fin_seq, fin_skip.
  pose proof (keeps_video f Hf w Hw) as Hw1. set (w1 := snd (callVideo f w)) in *.
  assert (Hs1 : cw_shown w1 = true) by (unfold w1, callVideo; by destruct (f (cw_video w))).
  destruct s; try done; cbn [widgetSlot].
  - by apply keeps_toggle.
  - rewrite fin_read. destruct (cw_fullscreen w1); [by apply keeps_toggle|done].
Qed.

Lemma key_one key rep v : exists s, fst (keyPressEvent key rep v) = [s].
Proof. unfold keyPressEvent. repeat case_match; by eexists. Qed.
Lemma key_fullscreen key rep v : vw_fullscreenActive (snd (keyPressEvent key rep v)) = vw_fullscreenActive v.
Proof. unfold keyPressEvent. by repeat case_match. Qed.

Lemma keeps_step e : keeps window_ok (winStep cfg bannerText e).
Proof.
  apply keeps_read. intros w Hw. destruct e as [f|on|during ok err|during|a during|a during|s| |key rep|full|].
  - revert w Hw. label.
  - revert w Hw. label.
  - destruct (_ && _); [by apply keeps_join|done].
  - destruct (_ && _); [by apply keeps_leave|done].
  - destruct (_ && _); [|done]. by apply (keeps_seq _ _ _ (keeps_disconnect a during) (keeps_emit _ _)).
  - by apply keeps_disconnect.
  - by apply keeps_slot.
  - destruct (cw_shown w) eqn:Es; [|done]. by apply keeps_toggle.
  - destruct (cw_shown w) eqn:Es, (cw_videoVisible w); try done. apply keeps_on_widget; try done; intros; [apply key_fullscreen|apply key_one].
  - destruct (cw_shown w) eqn:Es, (cw_videoVisible w); try done. apply keeps_on_widget; try done. intros. by eexists.
  - revert w Hw. label.
Qed.

(** The coordinator's signals and the switch of pages leave the recent hosts alone. *)
Lemma streaming_recents b rs : keeps (fun w => cw_recents w = rs) (setStreamingUi bannerText b).
Proof. intros w Hw. destruct (streaming_fin b w) as (v & _ & _ & _ & _ & _ & _ & _ & E). by rewrite E. Qed.

Lemma slots_recents during rs : keeps (fun w => cw_recents w = rs) (slots bannerText during).
Proof.
  apply keeps_for. intros [ui [|line|reason|message|h g i]]; unfold slot; cbn [fst snd].
  - intros w Hw. unfold onStateChanged, updateQualityBanner. run. by destruct (setQualityBanner _ _).
  - by apply keeps_modify.
  - apply keeps_seq; [apply streaming_recents|by apply keeps_modify].
  - unfold showError. case_bool_decide; [apply keeps_skip|].
    apply keeps_seq; [by apply keeps_modify|]. apply keeps_seq; [by apply keeps_modify|apply keeps_emit].
  - by apply keeps_modify.
Qed.

(** What the program last stored. *)
Definition stored_ok (recents : list bytes) : Prop := NoDup recents /\ (length recents <= kMaxRecentHosts)%nat.

Lemma page_built_ok recents : stored_ok recents -> window_ok (builtWindow cfg recents).
Proof. by split. Qed.

Lemma page_run_ok es w : window_ok w -> window_ok (snd (winRun cfg bannerText es w)).
Proof. apply keeps_for, keeps_step. Qed.

(** The client's page stays consistent through everything the user, the
    coordinator and the video widget do in whatever order: exactly one of the join
    form and the video is visible, the bar with the way out is there whenever the
    video is not in full screen and never alone, the video widget and the button
    know whether the window is in full screen, and the stored recent hosts are at
    most eight different ones. *)
Theorem client_page_is_consistent (recents : list bytes) (es : list WinEvent) :
  stored_ok recents -> window_ok (snd (winRun cfg bannerText es (builtWindow cfg recents))).
Proof. intros Hr. by apply page_run_ok, page_built_ok. Qed.

(** Escape stays a game key: on screen, a page reached by any run passes an
    Escape press on to the game exactly when the window is not in full screen, and
    in full screen it leaves full screen instead. *)
Theorem escape_is_a_game_key (recents : list bytes) (es : list WinEvent) (rep : bool) :
  stored_ok recents -> Key_Escape <> Key_F10 -> Key_Escape <> Key_F11 ->
  let w := snd (winRun cfg bannerText es (builtWindow cfg recents)) in
  cw_shown w = true -> cw_videoVisible w = true ->
  let '(os, w') := winStep cfg bannerText (WeKey Key_Escape rep) w in
  cw_fullscreen w' = false /\
  if cw_fullscreen w then os = [WoVideo EscapePressed; WoShowNormal]
  else os = [WoVideo (KeyPressed Key_Escape rep)] /\ w' = w.
Proof.
  intros Hr H10 H11 w Hs Hv. assert (Hw : window_ok w) by by apply page_run_ok, page_built_ok. clearbody w.
  pose proof (ok_full w Hw) as Hf. unfold winStep, readA. rewrite Hs, Hv. cbn [andb]. unfold onWidget, keyPressEvent.
  rewrite (proj2 (Z.eqb_neq _ _) H10), (proj2 (Z.eqb_neq _ _) H11), Z.eqb_refl, Hf. cbn [andb].
  destruct w as [form recent status red join video vis bar info full exits shown].
  cbn [cw_fullscreen cw_video cw_shown cw_videoVisible] in *. subst vis shown.
  unfold seqA, callVideo. cbn [cw_video]. rewrite Hf. destruct full; [|by run].
  cbn [fst forA widgetSlot]. unfold setVideoFullscreen. run. by split.
Qed.

End Invariant.

(** * Addresses *)

Section Address.
Context `{QtLaws}.

(** How a host and a port are written: brackets around an address with colons. *)
Definition written (host : bytes) (port : Z) : bytes :=
  if bool_decide (colonChar ∈ host) then bracket :: host ++ closing :: colonChar :: print_dec port
  else host ++ colonChar :: print_dec port.

Lemma delimiters : ascii bracket /\ ascii closing /\ ascii colonChar.
Proof. unfold ascii, bracket, closing, colonChar. lia. Qed.

Lemma starts_bracket x s t :
  q_text (x :: s) -> q_text t -> q_startsWith bracket (x :: s ++ t) = q_startsWith bracket (x :: s).
Proof.
  intros Hs Ht. destruct delimiters as (Hb & _). rewrite !startsWith_head by (done || by apply (text_app (x :: s) t)). done.
Qed.

Lemma parse_bracketed d host text :
  q_text host -> q_text text -> closing ∉ host -> text <> [] ->
  parseAddress d (bracket :: host ++ closing :: colonChar :: text) = (host, q_toUShort text).
Proof.
  intros Hh Htx Hc Ht. destruct delimiters as (Db & Dc & Do). pose proof (size_pos text Htx Ht) as Hl.
  assert (Hct : q_text (colonChar :: text)) by auto with rp.
  assert (Hbh : q_text (bracket :: host)) by auto with rp.
  assert (Hsz : q_size (bracket :: host) = 1 + q_size host) by by apply size_cons.
  assert (Hpos : 0 < q_size (bracket :: host)) by by apply size_pos.
  unfold parseAddress. set (raw := bracket :: _).
  assert (Hraw : raw = (bracket :: host) ++ closing :: colonChar :: text) by done.
  assert (Hin : raw = [bracket] ++ host ++ closing :: colonChar :: text) by done.
  assert (Htail : raw = ((bracket :: host) ++ [closing]) ++ colonChar :: text) by by rewrite Hraw, <- app_assoc.
  assert (Hst : q_startsWith bracket raw = true) by (apply (startsWith_head bracket bracket); [done|]; auto 7 with rp).
  assert (Hix : q_indexOf closing raw = q_size (bracket :: host))
    by (rewrite Hraw; apply indexOf_first; [done..|]; rewrite not_elem_of_cons; by split).
  rewrite Hst, Hix, (proj2 (Z.ltb_lt _ _)) by done.
  assert (Hsr : q_size raw = q_size (bracket :: host) + 2 + q_size text)
    by (rewrite Hraw, size_app, !size_cons by auto 7 with rp; lia).
  rewrite Hsr, (proj2 (Z.ltb_lt (_ + 2) _)) by lia. cbn [andb].
  assert (Hm : q_mid raw (q_size (bracket :: host) + 1) = colonChar :: text) by (rewrite Hraw; by apply mid_after).
  rewrite Hm, startsWith_head, Z.eqb_refl by done. f_equal.
  - replace (q_size (bracket :: host) - 1) with (q_size host) by lia. rewrite Hin, <- (size_one bracket) by done.
    apply mid2_inner; auto with rp. by apply text_one.
  - replace (q_size (bracket :: host) + 2) with (q_size ((bracket :: host) ++ [closing]) + 1)
      by (rewrite size_app, size_one by (done || by apply text_one); lia).
    rewrite Htail, mid_after; [done|done| |done]. apply text_app; [done|by apply text_one].
Qed.

Lemma parse_plain_port d host port :
  q_text host -> host <> [] -> q_startsWith bracket host = false -> colonChar ∉ host -> 0 < port < 2 ^ 16 ->
  parseAddress d (host ++ colonChar :: print_dec port) = (host, port).
Proof.
  intros Ht Hn Hb Hc Hp. destruct delimiters as (_ & _ & Do). pose proof (size_pos host Ht Hn) as Hl.
  assert (Hd : q_text (print_dec port)) by (apply text_dec; lia).
  destruct (print_dec_spec port) as (_ & _ & Hne); [lia|].
  unfold parseAddress. destruct host as [|x host]; [done|]. cbn [app].
  rewrite starts_bracket, Hb by auto with rp.
  change (x :: host ++ colonChar :: print_dec port) with ((x :: host) ++ colonChar :: print_dec port).
  rewrite lastIndexOf_last by (done || (apply print_dec_no; [lia|done])). rewrite indexOf_first by done.
  rewrite (proj2 (Z.ltb_lt _ _)), Z.eqb_refl by lia. cbn [andb].
  rewrite mid_after, left_prefix, toInt_dec, toUShort_dec by (done || lia || by apply text_cons).
  rewrite bool_decide_eq_false_2, (proj2 (Z.ltb_lt _ _)), (proj2 (Z.leb_le _ _)) by (done || lia). done.
Qed.

Lemma parse_written d host port :
  q_text host -> host <> [] -> q_startsWith bracket host = false -> closing ∉ host -> 0 < port < 2 ^ 16 ->
  parseAddress d (written host port) = (host, port).
Proof.
  intros Ht Hn Hb Hc Hp. unfold written. destruct (print_dec_spec port) as (_ & _ & Hd); [lia|].
  case_bool_decide; [|by apply parse_plain_port]. rewrite parse_bracketed by (done || (apply text_dec; lia)). by rewrite toUShort_dec by lia.
Qed.

(** A host and a port written the usual way, with brackets where the host has
    colons of its own, are read back exactly; without a port, the configured one is
    used with the address as it was typed. *)
Theorem address_roundtrip (d : Z) (host : bytes) (port : Z) :
  q_text host -> host <> [] -> q_startsWith bracket host = false -> closing ∉ host -> 0 < port < 2 ^ 16 ->
  parseAddress d (written host port) = (host, port) /\
  (colonChar ∉ host -> parseAddress d host = (host, d)).
Proof.
  intros Ht Hn Hb Hc Hp. split; [by apply parse_written|]. intros Hcol. destruct delimiters as (_ & _ & Do).
  unfold parseAddress. by rewrite Hb, lastIndexOf_absent.
Qed.

(** A port that does not fit 16 bits in brackets becomes port 0. *)
Theorem bracketed_port_out_of_range (d : Z) (host : bytes) (port : Z) :
  q_text host -> closing ∉ host -> 2 ^ 16 <= port < 2 ^ 64 ->
  parseAddress d (bracket :: host ++ closing :: colonChar :: print_dec port) = (host, 0).
Proof.
  intros Ht Hc Hp. destruct (print_dec_spec port) as (_ & _ & Hd); [lia|]. rewrite parse_bracketed by (done || (apply text_dec; lia)).
  by rewrite toUShort_large.
Qed.

End Address.

(** * From the form to the network *)

Section Dial.
Context `{QtLaws} `{WidgetKeys} `{CNG} `{KeyCodes} (cfg : Config) (bannerText : Banner -> bytes) (isAddress : bytes -> bool).

(** The first call of a join, and what follows it. *)
Lemma join_call host out rest (w : ClientWindow) :
  exists w1, (rememberHost host ;+ modify (setJoinStatus JtConnecting) ;+ emit [out] ;+ rest) w = (out :: fst (rest w1), snd (rest w1)) /\
    head (cw_recents w1) = Some host.
Proof.
  unfold rememberHost, loadRecentHosts, seqA, modify, emit. cbn [app].
  match goal with |- context [rest ?x] => exists x; destruct (rest x) as [os w2] end. by split.
Qed.

Lemma connect_dials s :
  let '(os, a) := ClientApp.connect s [] (ClientApp.setEvents true newClientApp) in
  COutNet (CoConnect (js_hostAddress s) (js_hostPort s) (js_connectTimeoutMs s)) ∈ netOf os /\ ClientApp.connected a = true.
Proof. split; [|reflexivity]. apply list_elem_of_In. cbn. tauto. Qed.

(** The port typed for a server is read and dropped. *)
Theorem internet_mode_ignores_the_port (w : ClientWindow) (host : bytes) (port : Z) during ok err :
  let f := cw_form w in
  q_text host -> host <> [] -> q_startsWith bracket host = false -> closing ∉ host -> 0 < port < 2 ^ 16 ->
  jf_mode f = 1 -> q_trimmed (jf_host f) = written host port -> q_trimmed (jf_code f) <> [] ->
  exists name os w', join cfg bannerText during ok err w = (WoStartInternet host 9000 (q_trimmed (jf_code f)) name :: os, w').
Proof.
  cbv zeta. intros Htx Hn Hb Hc Hp Hm Ht Hcode. unfold join, readA. rewrite Ht, Hm.
  assert (Hw : written host port <> []) by (unfold written; case_bool_decide; [done|by destruct host]).
  rewrite !bool_decide_eq_false_2 by done. cbn [orb]. rewrite parse_written by done. change (1 =? 1) with true. cbn iota.
  match goal with |- exists _ _ _, (rememberHost _ ;+ _ ;+ emit [?o] ;+ ?r) _ = _ =>
    destruct (join_call (written host port) o r w) as (w1 & -> & _) end.
  by eexists _, _, _.
Qed.

(** The coordinator asked to join a host connects there. *)
Lemma startLan_dials host port name code io c :
  cc_inv isAddress c -> ~ serverLost c ->
  wp (startLan isAddress host port name code io) (fun o c' => COutNet (CoConnect host port 5000) ∈ o /\ active c' = true) c.
Proof.
  intros Hc Hl. unfold startLan. apply wp_seq. eapply wp_mono; [|by apply stop_spec]. cbv beta. intros o c' _.
  apply wp_seq, wp_modify, wp_seq, wp_modify, wp_seq. unfold callClient. apply wp_read. cbn [cc_client setClient].
  pose proof (connect_dials (mkJoin name code host port 5000)) as Hd. destruct (ClientApp.connect _ _ _) as [os a].
  destruct Hd as [Hd Ha]. apply wp_seq, wp_modify, wp_seq, wp_modify, wp_emit, wp_modify. cbn [app].
  split; [set_solver|done].
Qed.

(** C17: what the player typed is what is dialled: joining in the direct mode with a
    code and an address written the usual way asks the coordinator for exactly that
    host, port and code, and a coordinator in any state its runs reach then opens a
    connection to that host and port and is active. The address becomes the first
    of the recent hosts. (Reached states in which the server of an internet session
    has closed its connection are apart: there the stop of the old session ends the
    program.) *)
Theorem typed_address_is_dialled (w : ClientWindow) (host : bytes) (port : Z) during ok err :
  let f := cw_form w in
  q_text host -> host <> [] -> q_startsWith bracket host = false -> closing ∉ host -> 0 < port < 2 ^ 16 ->
  jf_mode f = 0 -> q_trimmed (jf_host f) = written host port -> q_trimmed (jf_code f) <> [] ->
  exists name os w', join cfg bannerText during ok err w = (WoStartLan host port name (q_trimmed (jf_code f)) :: os, w') /\
    head (cw_recents w') = Some (written host port) /\
    forall io c, cc_inv isAddress c -> ~ serverLost c ->
      wp (ccStep cfg isAddress (CcStartLan host port name (q_trimmed (jf_code f)) io))
        (fun o c' => COutNet (CoConnect host port 5000) ∈ o /\ active c' = true) c.
Proof.
  cbv zeta. intros Htx Hn Hb Hc Hp Hm Ht Hcode. unfold join, readA. rewrite Ht, Hm.
  assert (Hw : written host port <> []) by (unfold written; case_bool_decide; [done|by destruct host]).
  rewrite !bool_decide_eq_false_2 by done. cbn [orb]. rewrite parse_written by done. change (0 =? 1) with false. cbn iota.
  match goal with |- exists _ _ _, (rememberHost _ ;+ _ ;+ emit [?o] ;+ ?r) _ = _ /\ _ =>
    destruct (join_call (written host port) o r w) as (w1 & -> & Hr) end.
  eexists _, _, _. split; [done|]. split; [|intros io c Hi Hl; by apply startLan_dials].
  rewrite <- Hr. match goal with |- head (cw_recents (snd (?a w1))) = _ =>
    assert (Hk : keeps (fun w2 => cw_recents w2 = cw_recents w1) a); [|by rewrite (Hk w1 eq_refl)] end.
  apply keeps_seq; [apply slots_recents|]. destruct ok; [apply streaming_recents|by apply keeps_modify].
Qed.

End Dial.

(** * Runs *)

(** Qt's key codes. *)
Definition qtWidgetKeys : WidgetKeys := {| Key_F10 := 16777273; Key_F11 := 16777274; Key_Escape := 16777216 |}.

Definition plainBanner (b : Banner) : bytes := match b with BnConnecting => str "Connecting to stream..." | _ => str "!" end.

Local Abbreviation sampleRun := (@winRun AsciiQt.qt qtWidgetKeys Config.defaultConfig plainBanner).
Local Abbreviation sampleWindow := (@builtWindow AsciiQt.qt Config.defaultConfig [str "10.0.0.7"]).

Definition sampleForm : JoinForm := mkForm 0 (str "Ada") (str " 192.168.1.20:47990 ") (str "57EA6A6Q").

(** A player joins and goes to full screen. *)
Definition joinsInFull : list WinEvent := [WeShow true; WeEdit sampleForm; WeJoin [] true []; WeToggle].

Lemma client_page_is_consistent_witness :
  stored_ok [str "10.0.0.7"] /\ window_ok (snd (sampleRun joinsInFull sampleWindow)) /\
  cw_fullscreen (snd (sampleRun joinsInFull sampleWindow)) = true.
Proof.
  assert (Hs : stored_ok [str "10.0.0.7"]) by by_decision.
  split; [exact Hs|]. split; [|vm_compute; reflexivity].
  exact (@client_page_is_consistent AsciiQt.qt qtWidgetKeys Config.defaultConfig plainBanner _ joinsInFull Hs).
Defined.

Lemma escape_is_a_game_key_witness :
  fst (@winStep AsciiQt.qt qtWidgetKeys Config.defaultConfig plainBanner (WeKey 16777216 false) (snd (sampleRun joinsInFull sampleWindow))) =
  [WoVideo EscapePressed; WoShowNormal].
Proof.
  assert (Hs : stored_ok [str "10.0.0.7"]) by by_decision.
  pose proof (@escape_is_a_game_key AsciiQt.qt qtWidgetKeys Config.defaultConfig plainBanner _ joinsInFull false Hs
    ltac:(done) ltac:(done) ltac:(vm_compute; reflexivity) ltac:(vm_compute; reflexivity)) as T.
  change (@Key_Escape qtWidgetKeys) with 16777216 in T.
  destruct (winStep _ _ _ _) as [os w'] eqn:E. destruct T as [_ T].
  assert (Ef : cw_fullscreen (snd (sampleRun joinsInFull sampleWindow)) = true) by (vm_compute; reflexivity).
  rewrite Ef in T. exact T.
Defined.

Lemma address_roundtrip_witness :
  @parseAddress AsciiQt.qt 47990 (str "[fe80::1]:5000") = (str "fe80::1", 5000) /\
  @parseAddress AsciiQt.qt 47990 (str "play.example.com:5000") = (str "play.example.com", 5000).
Proof.
  split.
  - by apply (@address_roundtrip AsciiQt.qt AsciiQt.qt_laws 47990 (str "fe80::1") 5000); (by_decision || by apply AsciiQt.text_check).
  - by apply (@address_roundtrip AsciiQt.qt AsciiQt.qt_laws 47990 (str "play.example.com") 5000); (by_decision || by apply AsciiQt.text_check).
Defined.

(** A join from full screen shows the bar over the full-screen video. *)
Theorem bar_over_full_screen :
  let w := snd (sampleRun [WeShow true; WeEdit sampleForm; WeToggle; WeJoin [] true []] sampleWindow) in
  cw_fullscreen w = true /\ cw_videoVisible w = true /\ cw_barVisible w = true.
Proof. vm_compute. done. Qed.

(** The banner that says the stream is being awaited goes with the next change of
    state, long before the stream. *)
Theorem connecting_banner_goes_at_once :
  let ui := uiStatus (str "Connected - securing session...") ClientCoordinator.defaultUi in
  vw_qualityBanner (cw_video (snd (sampleRun (take 3 joinsInFull) sampleWindow))) = plainBanner BnConnecting /\
  vw_qualityBanner (cw_video (snd (sampleRun (take 3 joinsInFull ++ [WeSignal (ui, CStateChanged)]) sampleWindow))) = [].
Proof. vm_compute. done. Qed.

Lemma typed_address_is_dialled_witness :
  let w := snd (sampleRun (take 2 joinsInFull) sampleWindow) in
  exists name os w', @join AsciiQt.qt Config.defaultConfig plainBanner [] true [] w = (WoStartLan (str "192.168.1.20") 47990 name (str "57EA6A6Q") :: os, w') /\
    head (cw_recents w') = Some (str "192.168.1.20:47990") /\
    wp (@ccStep Toy.cng InputForwarding.Headers.codes Config.defaultConfig (fun _ => true)
         (CcStartLan (str "192.168.1.20") 47990 name (str "57EA6A6Q") (mkCsio [] (mkStio true []))))
       (fun o c' => COutNet (CoConnect (str "192.168.1.20") 47990 5000) ∈ o /\ active c' = true) newCoordinator.
Proof.
  intros w.
  pose proof (@typed_address_is_dialled AsciiQt.qt AsciiQt.qt_laws Toy.cng InputForwarding.Headers.codes Config.defaultConfig
    plainBanner (fun _ => true) w (str "192.168.1.20") 47990 [] true []) as T.
  assert (Ef : cw_form w = sampleForm) by (vm_compute; reflexivity). rewrite Ef in T.
  destruct T as (name & os & w' & Hj & Hr & Hd); try by_decision.
  exists name, os, w'. split; [exact Hj|]. split; [exact Hr|]. apply Hd; [apply cc_new_inv|]. intros (sg & Esg & _). discriminate Esg.
Defined.
