(* ===== verification/HostWindow.v ===== *)
(** ui/HostWindow.h and HostWindow.cpp: the page a player hosts from. Layouts and
    painting are not modelled; the page is its entries, the rows it shows, its
    labels and log, its message boxes and the approval dialogs.

    The window's calls on its coordinator are outputs, and what its slots read of
    the coordinator ([uiState], [clients], [hosting]) is a view the events carry. An
    approval dialog runs an event loop of its own inside the slot: the open dialogs
    are a stack, and only the innermost can return. *)

From S2P Require Import Prelude Types Double OrderedMap Calls Config AdaptiveBitrate HostSession Crypto HostApp HostStreamer InputInjector InputInjectorSpec HostCoordinator HostCoordinatorSpec HostCoordinatorRuns Qt.

Open Scope act_scope.
Open Scope Z_scope.

(** * Data *)

(** A row of the source box: a window with its handle, or a monitor with its index. *)
Inductive SourceRow :=
  | SourceWindow (hwnd : Z)
  | SourceMonitor (index : Z).

(** The entries of the form; the boxes by their index. *)
Record HostForm := mkHForm {
  hf_name : bytes; hf_game : bytes; hf_mode : Z; hf_server : bytes; hf_source : Z; hf_resolution : Z; hf_fps : Z;
  hf_codec : Z; hf_bitrate : Z; hf_audio : bool }.

Inductive CodeText := NotHosting | CodeIs (code : bytes).
Inductive AddressText := StartHint | ViaServer (server : bytes) | LanPort (port : Z).

(** A number is shown when there is one. *)
Record StatTexts := mkStats {
  tx_fps : option double; tx_encoder : bytes; tx_capture : option double; tx_encode : option double;
  tx_bitrate : option double; tx_ping : option double; tx_loss : option double; tx_jitter : option double }.

(** The columns of the table; [pr_ping] is empty for 0. *)
Record PlayerRow := mkPlayer { pr_name : bytes; pr_ping : option Z; pr_input : bool; pr_state : ConnectionState }.

(** A box that was shown and is not destroyed yet. *)
Record ErrorBox := mkBox { bx_id : nat; bx_text : bytes; bx_visible : bool }.

(** An open approval dialog and, once its loop has ended, what [exec] will return. *)
Record Approval := mkAp { ap_client : Z; ap_name : bytes; ap_choice : option Z }.

(** [QMessageBox::Yes] and [QMessageBox::No]. *)
Definition buttonYes : Z := 0x4000.
Definition buttonNo : Z := 0x10000.

(** The ways the loop of a dialog can end: a button, the escape key or the
    window's close button, [reject()]. *)
Inductive DialogEnd := DlgYes | DlgNo | DlgEscape | DlgReject.

#[export] Instance DialogEnd_eq_dec : EqDecision DialogEnd.
Proof. solve_decision. Defined.

(** What [exec] then returns: the button clicked, the one of the reject role when
    the user escapes, and the code 0 when the dialog was rejected. *)
Definition execResult (e : DialogEnd) : Z :=
  match e with DlgYes => buttonYes | DlgNo | DlgEscape => buttonNo | DlgReject => 0 end.

(** [hw_hosting]: the buttons and entries are those of a running session. *)
Record HostWindow := mkHw { hw_form : HostForm; hw_sources : list SourceRow; hw_hosting : bool; hw_code :
  CodeText; hw_address : AddressText; hw_gamepad : bytes; hw_stats : StatTexts; hw_rows : list PlayerRow;
  hw_abr : bool; hw_slider : Z; hw_log : list bytes; hw_boxes : list ErrorBox; hw_active : option nat;
  hw_nextBox : nat; hw_lastText : bytes; hw_lastAt : Z; hw_approvals : list Approval }.

Definition setForm (x : HostForm) (w : HostWindow) : HostWindow :=
  mkHw x (hw_sources w) (hw_hosting w) (hw_code w) (hw_address w) (hw_gamepad w) (hw_stats w) (hw_rows w)
    (hw_abr w) (hw_slider w) (hw_log w) (hw_boxes w) (hw_active w) (hw_nextBox w) (hw_lastText w) (hw_lastAt
    w) (hw_approvals w).
Definition setSources (x : list SourceRow) (w : HostWindow) : HostWindow :=
  mkHw (hw_form w) x (hw_hosting w) (hw_code w) (hw_address w) (hw_gamepad w) (hw_stats w) (hw_rows w) (hw_abr
    w) (hw_slider w) (hw_log w) (hw_boxes w) (hw_active w) (hw_nextBox w) (hw_lastText w) (hw_lastAt w)
    (hw_approvals w).
Definition setHosting (x : bool) (w : HostWindow) : HostWindow :=
  mkHw (hw_form w) (hw_sources w) x (hw_code w) (hw_address w) (hw_gamepad w) (hw_stats w) (hw_rows w) (hw_abr
    w) (hw_slider w) (hw_log w) (hw_boxes w) (hw_active w) (hw_nextBox w) (hw_lastText w) (hw_lastAt w)
    (hw_approvals w).
Definition setCodeText (x : CodeText) (w : HostWindow) : HostWindow :=
  mkHw (hw_form w) (hw_sources w) (hw_hosting w) x (hw_address w) (hw_gamepad w) (hw_stats w) (hw_rows w)
    (hw_abr w) (hw_slider w) (hw_log w) (hw_boxes w) (hw_active w) (hw_nextBox w) (hw_lastText w) (hw_lastAt
    w) (hw_approvals w).
Definition setAddressText (x : AddressText) (w : HostWindow) : HostWindow :=
  mkHw (hw_form w) (hw_sources w) (hw_hosting w) (hw_code w) x (hw_gamepad w) (hw_stats w) (hw_rows w) (hw_abr
    w) (hw_slider w) (hw_log w) (hw_boxes w) (hw_active w) (hw_nextBox w) (hw_lastText w) (hw_lastAt w)
    (hw_approvals w).
Definition setGamepad (x : bytes) (w : HostWindow) : HostWindow :=
  mkHw (hw_form w) (hw_sources w) (hw_hosting w) (hw_code w) (hw_address w) x (hw_stats w) (hw_rows w) (hw_abr
    w) (hw_slider w) (hw_log w) (hw_boxes w) (hw_active w) (hw_nextBox w) (hw_lastText w) (hw_lastAt w)
    (hw_approvals w).
Definition setStats (x : StatTexts) (w : HostWindow) : HostWindow :=
  mkHw (hw_form w) (hw_sources w) (hw_hosting w) (hw_code w) (hw_address w) (hw_gamepad w) x (hw_rows w)
    (hw_abr w) (hw_slider w) (hw_log w) (hw_boxes w) (hw_active w) (hw_nextBox w) (hw_lastText w) (hw_lastAt
    w) (hw_approvals w).
Definition setRows (x : list PlayerRow) (w : HostWindow) : HostWindow :=
  mkHw (hw_form w) (hw_sources w) (hw_hosting w) (hw_code w) (hw_address w) (hw_gamepad w) (hw_stats w) x
    (hw_abr w) (hw_slider w) (hw_log w) (hw_boxes w) (hw_active w) (hw_nextBox w) (hw_lastText w) (hw_lastAt
    w) (hw_approvals w).
Definition setAbrBox (x : bool) (w : HostWindow) : HostWindow :=
  mkHw (hw_form w) (hw_sources w) (hw_hosting w) (hw_code w) (hw_address w) (hw_gamepad w) (hw_stats w)
    (hw_rows w) x (hw_slider w) (hw_log w) (hw_boxes w) (hw_active w) (hw_nextBox w) (hw_lastText w)
    (hw_lastAt w) (hw_approvals w).
Definition setSlider (x : Z) (w : HostWindow) : HostWindow :=
  mkHw (hw_form w) (hw_sources w) (hw_hosting w) (hw_code w) (hw_address w) (hw_gamepad w) (hw_stats w)
    (hw_rows w) (hw_abr w) x (hw_log w) (hw_boxes w) (hw_active w) (hw_nextBox w) (hw_lastText w) (hw_lastAt
    w) (hw_approvals w).
Definition setLog (x : list bytes) (w : HostWindow) : HostWindow :=
  mkHw (hw_form w) (hw_sources w) (hw_hosting w) (hw_code w) (hw_address w) (hw_gamepad w) (hw_stats w)
    (hw_rows w) (hw_abr w) (hw_slider w) x (hw_boxes w) (hw_active w) (hw_nextBox w) (hw_lastText w)
    (hw_lastAt w) (hw_approvals w).
Definition setBoxes (x : list ErrorBox) (w : HostWindow) : HostWindow :=
  mkHw (hw_form w) (hw_sources w) (hw_hosting w) (hw_code w) (hw_address w) (hw_gamepad w) (hw_stats w)
    (hw_rows w) (hw_abr w) (hw_slider w) (hw_log w) x (hw_active w) (hw_nextBox w) (hw_lastText w) (hw_lastAt
    w) (hw_approvals w).
Definition setActiveBox (x : option nat) (w : HostWindow) : HostWindow :=
  mkHw (hw_form w) (hw_sources w) (hw_hosting w) (hw_code w) (hw_address w) (hw_gamepad w) (hw_stats w)
    (hw_rows w) (hw_abr w) (hw_slider w) (hw_log w) (hw_boxes w) x (hw_nextBox w) (hw_lastText w) (hw_lastAt
    w) (hw_approvals w).
Definition setNextBox (x : nat) (w : HostWindow) : HostWindow :=
  mkHw (hw_form w) (hw_sources w) (hw_hosting w) (hw_code w) (hw_address w) (hw_gamepad w) (hw_stats w)
    (hw_rows w) (hw_abr w) (hw_slider w) (hw_log w) (hw_boxes w) (hw_active w) x (hw_lastText w) (hw_lastAt w)
    (hw_approvals w).
Definition setLastText (x : bytes) (w : HostWindow) : HostWindow :=
  mkHw (hw_form w) (hw_sources w) (hw_hosting w) (hw_code w) (hw_address w) (hw_gamepad w) (hw_stats w)
    (hw_rows w) (hw_abr w) (hw_slider w) (hw_log w) (hw_boxes w) (hw_active w) (hw_nextBox w) x (hw_lastAt w)
    (hw_approvals w).
Definition setLastAt (x : Z) (w : HostWindow) : HostWindow :=
  mkHw (hw_form w) (hw_sources w) (hw_hosting w) (hw_code w) (hw_address w) (hw_gamepad w) (hw_stats w)
    (hw_rows w) (hw_abr w) (hw_slider w) (hw_log w) (hw_boxes w) (hw_active w) (hw_nextBox w) (hw_lastText w)
    x (hw_approvals w).
Definition setApprovals (x : list Approval) (w : HostWindow) : HostWindow :=
  mkHw (hw_form w) (hw_sources w) (hw_hosting w) (hw_code w) (hw_address w) (hw_gamepad w) (hw_stats w)
    (hw_rows w) (hw_abr w) (hw_slider w) (hw_log w) (hw_boxes w) (hw_active w) (hw_nextBox w) (hw_lastText w)
    (hw_lastAt w) x.

Inductive HostWinOut :=
  | HoStartLan (s : HostLaunchSettings)
  | HoStartInternet (s : HostLaunchSettings) (server : bytes) (port : Z)
  | HoStop
  | HoApprove (clientId : Z) (accept : bool)
  | HoKick (clientId : Z)
  | HoSetClientInput (clientId : Z) (enabled : bool)
  | HoManualBitrate (kbps : Z)
  | HoAbrEnabled (on : bool)
  | HoBackToHome
  | HoClipboard (text : bytes)
  | HoOpenFolder (dir : bytes)
  | HoShowBox (id : nat) (text : bytes)
  | HoCloseTimer (id : nat) (ms : Z)
  | HoDialog (clientId : Z) (name : bytes)
  | HoDialogTimer (ms : Z).

Definition HostWinAct : Type := act HostWindow HostWinOut.

(** What a slot reads: the coordinator and the clock, in milliseconds. *)
Record HostView := mkView {
  hv_ui : HostUiState; hv_gamepad : bytes; hv_hosting : bool; hv_clients : list ClientRow; hv_now : Z }.

Section Window.
(** [paragraphs]: what [QTextEdit::append] makes of a text. *)
Context `{Qt} (cfg : Config) (paragraphs : bytes -> list bytes).

Definition noStats : StatTexts := mkStats None [] None None None None None None.

(** [buildUi]; the slider's signal is connected after its value is set. *)
Definition builtHostWindow : HostWindow :=
  let name := q_utf8 (p_name (cfg_profile cfg)) in
  let mbps := Z.max 2 (Z.min (v_bitrateMbps (cfg_video cfg)) 50) in
  mkHw (mkHForm (if bool_decide (name = []) then str "Host" else name) [] 0 [] (-1) 1 1 0 mbps true)
    [] false NotHosting StartHint (str "-") noStats [] true mbps [] [] None 0 [] 0 [].

(** * Log and error boxes *)

(** An empty document has one block. *)
Definition blockCount (log : list bytes) : nat := Nat.max 1 (length log).

Definition appendLog (line : bytes) : HostWinAct := modify (fun w =>
  let log := if (300 <? blockCount (hw_log w))%nat then drop (blockCount (hw_log w) - 300) (hw_log w) else hw_log w in
  setLog (log ++ paragraphs line) w).

Definition activeVisible (w : HostWindow) : bool :=
  match hw_active w with
  | Some k => existsb (fun b => (bx_id b =? k)%nat && bx_visible b) (hw_boxes w)
  | None => false
  end.

Definition showError (now : Z) (message : bytes) : HostWinAct := readA (fun w =>
  if bool_decide (message = []) then skip
  else if activeVisible w then skip
  else if bool_decide (message = hw_lastText w) && (now - hw_lastAt w <? 10000) then appendLog message
  else
    modify (setLastText message) ;+ modify (setLastAt now) ;+
    appendLog (str "[error] " ++ message) ;+
    let k := hw_nextBox w in
    modify (setNextBox (S k)) ;+
    modify (fun w => setBoxes (hw_boxes w ++ [mkBox k message true]) w) ;+
    modify (setActiveBox (Some k)) ;+
    emit [HoCloseTimer k 10000; HoShowBox k message]).

(** The user or the timer closes a box; it is deleted later, and its [destroyed]
    signal clears [activeErrorBox_]. *)
Definition boxClosed (k : nat) : HostWinAct :=
  modify (fun w => setBoxes ((fun b => if (bx_id b =? k)%nat then mkBox k (bx_text b) false else b) <$> hw_boxes w) w).

Definition boxDestroyed (k : nat) : HostWinAct := readA (fun w =>
  if existsb (fun b => (bx_id b =? k)%nat && negb (bx_visible b)) (hw_boxes w) then
    modify (setBoxes (List.filter (fun b => negb (bx_id b =? k)%nat) (hw_boxes w))) ;+ modify (setActiveBox None)
  else skip).

(** * Sources and settings *)

Definition onForm (f : HostForm -> HostForm) : HostWinAct := modify (fun w => setForm (f (hw_form w)) w).
Definition withSource (i : Z) (f : HostForm) : HostForm :=
  mkHForm (hf_name f) (hf_game f) (hf_mode f) (hf_server f) i (hf_resolution f) (hf_fps f) (hf_codec f) (hf_bitrate f) (hf_audio f).

(** The handles of the visible windows and the indices of the outputs. *)
Definition refreshCaptureSources (windows outputs : list Z) : HostWinAct :=
  modify (setSources ((SourceWindow <$> windows) ++ (SourceMonitor <$> outputs))) ;+
  readA (fun w => onForm (withSource (if (0 <? length (hw_sources w))%nat then 0 else -1))).

Definition hostResolutionItems : list bytes := [str "1280x720"; str "1920x1080"; str "2560x1440"; str "3840x2160"].
Definition hostFpsItems : list bytes := [str "30"; str "60"; str "120"].

(** The text at the index; none before the first. *)
Definition currentText (items : list bytes) (i : Z) : bytes :=
  if i <? 0 then [] else default [] (items !! Z.to_nat i).

Definition sizeOf (res : bytes) : Resolution :=
  let wx := q_indexOf 120 res in
  if 0 <? wx then mkResolution (q_toInt (q_left res wx)) (q_toInt (q_mid res (wx + 1))) else mkResolution 1920 1080.

(** The handle, null for none, and the monitor's index. *)
Definition chosenSource (sources : list SourceRow) (i : Z) : Z * Z :=
  match (if i <? 0 then None else sources !! Z.to_nat i) with
  | Some (SourceWindow hwnd) => (hwnd, 0)
  | Some (SourceMonitor index) => (0, index)
  | None => (0, 0)
  end.

Definition launchSettings (w : HostWindow) : HostLaunchSettings :=
  let f := hw_form w in
  let d := defaultLaunch in
  let game := q_trimmed (hf_game f) in
  let '(hwnd, monitor) := chosenSource (hw_sources w) (hf_source f) in
  mkLaunch (q_trimmed (hf_name f)) (if bool_decide (game = []) then str "a game" else game)
    (if hwnd =? 0 then CaptureMonitor else CaptureWindow) (sizeOf (currentText hostResolutionItems (hf_resolution f)))
    (u32 (q_toInt (currentText hostFpsItems (hf_fps f)))) (u32 (u32 (hf_bitrate f) * 1000))
    (if hf_codec f =? 1 then Hevc else H264) (ls_listenPort d) (ls_requireApproval d) (ls_inputDefaults d) (ls_maxClients d)
    monitor hwnd (hf_audio f) (ls_audioBitrateKbps d).

(** The server's field: [host] or [host:port]. *)
Definition parseServer (text : bytes) : bytes * Z :=
  let colon := q_lastIndexOf 58 text in
  if (0 <? colon) && (q_indexOf 58 text =? colon) then
    let p := q_toInt (q_mid text (colon + 1)) in
    if (0 <? p) && (p <=? 65535) then (q_left text colon, u16 p) else (text, 9000)
  else (text, 9000).

(** * Slots *)

Definition showIf (d : double) : option double := if dltb dzero d then Some d else None.

Definition onStateChanged (v : HostView) : HostWinAct :=
  let u := hv_ui v in
  (if negb (bool_decide (ui_sessionCode u = [])) then
     modify (setCodeText (CodeIs (ui_sessionCode u))) ;+
     modify (setAddressText (if ui_internetMode u then ViaServer (ui_serverAddress u) else LanPort (ui_tcpPort u)))
   else if negb (hv_hosting v) then modify (setCodeText NotHosting) ;+ modify (setAddressText StartHint)
   else skip) ;+
  modify (setGamepad (if bool_decide (hv_gamepad v = []) then str "-" else hv_gamepad v)) ;+
  modify (setStats (mkStats (showIf (ui_fps u)) (if bool_decide (ui_encoderName u = []) then str "-" else ui_encoderName u)
    (showIf (ui_captureMs u)) (showIf (ui_encodeMs u)) (showIf (ui_bitrateKbps u)) (showIf (ui_rttMs u))
    (showIf (ui_lossPercent u)) (showIf (ui_jitterMs u)))).

Definition playerRow (c : ClientRow) : PlayerRow :=
  mkPlayer (row_name c) (if row_rttMs c =? 0 then None else Some (row_rttMs c)) (row_inputEnabled c) (row_state c).

Definition refreshPlayerTable (v : HostView) : HostWinAct := modify (setRows (playerRow <$> hv_clients v)).

(** The dialog opens over the others and its event loop runs. *)
Definition onApprovalRequest (clientId : Z) (name : bytes) : HostWinAct :=
  modify (fun w => setApprovals (mkAp clientId name None :: hw_approvals w) w) ;+
  emit [HoDialogTimer 60000; HoDialog clientId name].

Definition hostSlot (signal : HostView * UiSignal) : HostWinAct :=
  match snd signal with
  | StateChanged => onStateChanged (fst signal)
  | ClientTableChanged => refreshPlayerTable (fst signal)
  | ApprovalRequest clientId name => onApprovalRequest clientId name
  | ErrorOccurred message => showError (hv_now (fst signal)) message
  | EncoderTrouble message => showError (hv_now (fst signal)) message
  end.

Definition hostSlots (during : list (HostView * UiSignal)) : HostWinAct := forA during hostSlot.

(** [exec] returns in the dialogs whose loops have ended, the innermost first, and
    the choice is passed on. *)
Fixpoint unwindApprovals (ds : list Approval) : list HostWinOut * list Approval :=
  match ds with
  | mkAp client _ (Some choice) :: ds =>
      let '(os, ds) := unwindApprovals ds in (HoApprove client (choice =? buttonYes) :: os, ds)
  | _ => ([], ds)
  end.

(** The loop of the dialog at depth [k] ends. *)
Definition closeDialog (k : nat) (e : DialogEnd) : HostWinAct := fun w =>
  match hw_approvals w !! k with
  | Some (mkAp client name None) =>
      let '(os, ds) := unwindApprovals (<[k := mkAp client name (Some (execResult e))]> (hw_approvals w)) in (os, setApprovals ds w)
  | _ => ([], w)
  end.

(** The timer of a dialog: a dialog whose loop has ended is not visible. *)
Definition approvalTimeout (k : nat) : HostWinAct := readA (fun w =>
  match hw_approvals w !! k with
  | Some (mkAp _ _ None) => closeDialog k DlgReject
  | _ => skip
  end).

(** * Hosting *)

Definition setHostingUi (hosting : bool) : HostWinAct :=
  modify (setHosting hosting) ;+
  if hosting then skip else modify (setCodeText NotHosting) ;+ modify (setAddressText StartHint).

(** [ok], [err]: the coordinator's answer, [during]: what it signalled before;
    [now]: the clock when it has answered. *)
Definition startHosting (during : list (HostView * UiSignal)) (ok : bool) (err : bytes) (now : Z) : HostWinAct := readA (fun w =>
  emit [if hf_mode (hw_form w) =? 1 then
          let '(server, port) := parseServer (q_trimmed (hf_server (hw_form w))) in HoStartInternet (launchSettings w) server port
        else HoStartLan (launchSettings w)] ;+
  hostSlots during ;+
  if ok then setHostingUi true
  else showError now (if bool_decide (err = []) then str "Could not start hosting." else err)).

Definition stopHosting (during : list (HostView * UiSignal)) : HostWinAct :=
  emit [HoStop] ;+ hostSlots during ;+ setHostingUi false ;+ appendLog (str "Session stopped.").

Definition stopIfHosting (hosting : bool) (during : list (HostView * UiSignal)) : HostWinAct :=
  if hosting then emit [HoStop] ;+ hostSlots during ;+ setHostingUi false else skip.

Definition back (hosting : bool) (during : list (HostView * UiSignal)) : HostWinAct :=
  stopIfHosting hosting during ;+ emit [HoBackToHome].

(** * Buttons of the session; [row] is the table's current row, -1 for none *)

Definition kickSelected (row : Z) (v : HostView) : HostWinAct :=
  if row <? 0 then showError (hv_now v) (str "Select a player in the table first.")
  else match hv_clients v !! Z.to_nat row with Some c => emit [HoKick (row_id c)] | None => skip end.

Definition toggleInputSelected (row : Z) (v : HostView) : HostWinAct :=
  if row <? 0 then showError (hv_now v) (str "Select a player in the table first.")
  else match hv_clients v !! Z.to_nat row with
       | Some c => emit [HoSetClientInput (row_id c) (negb (row_inputEnabled c))]
       | None => skip
       end.

Definition onAbrToggled (on : bool) : HostWinAct := emit [HoAbrEnabled on].

(** [setChecked] signals a change. *)
Definition setAbrChecked (on : bool) : HostWinAct := readA (fun w =>
  if Bool.eqb (hw_abr w) on then skip else modify (setAbrBox on) ;+ onAbrToggled on).

Definition onManualBitrate (mbps : Z) : HostWinAct := readA (fun w =>
  (if hw_abr w then setAbrChecked false else skip) ;+ emit [HoManualBitrate (i32 (mbps * 1000))]).

Definition copySessionCode (v : HostView) : HostWinAct :=
  if bool_decide (ui_sessionCode (hv_ui v) = []) then skip
  else emit [HoClipboard (ui_sessionCode (hv_ui v))] ;+ appendLog (str "Session code copied to clipboard.").

Definition openLogsFolder (now : Z) (dir : bytes) (exists_ : bool) : HostWinAct :=
  if exists_ then emit [HoOpenFolder dir] else showError now (str "Log folder does not exist yet: " ++ dir).

(** * Steps *)

Inductive HostWinEvent :=
  | HwEdit (form : HostForm)
  | HwRescan (windows outputs : list Z)
  | HwStart (during : list (HostView * UiSignal)) (ok : bool) (err : bytes) (now : Z)
  | HwStop (during : list (HostView * UiSignal))
  | HwBack (hosting : bool) (during : list (HostView * UiSignal))
  | HwClose (hosting : bool) (during : list (HostView * UiSignal))
  | HwKick (row : Z) (v : HostView)
  | HwToggleInput (row : Z) (v : HostView)
  | HwAbr (on : bool)
  | HwSlide (mbps : Z)
  | HwCopy (v : HostView)
  | HwLogs (now : Z) (dir : bytes) (exists_ : bool)
  | HwSignal (signal : HostView * UiSignal)
  | HwLogLine (line : bytes)
  | HwRefresh (v : HostView)
  | HwBoxClosed (k : nat)
  | HwBoxDestroyed (k : nat)
  | HwAnswer (e : DialogEnd)
  | HwDialogTimeout (k : nat).

(** While a dialog is open the page takes no input; a disabled button none either. *)
Definition userStep (w : HostWindow) (a : HostWinAct) : HostWinAct :=
  match hw_approvals w with [] => a | _ => skip end.

Definition hostWinStep (e : HostWinEvent) : HostWinAct := readA (fun w =>
  match e with
  | HwEdit form => userStep w (modify (setForm form))
  | HwRescan windows outputs => userStep w (if hw_hosting w then skip else refreshCaptureSources windows outputs)
  | HwStart during ok err now => userStep w (if hw_hosting w then skip else startHosting during ok err now)
  | HwStop during => userStep w (if hw_hosting w then stopHosting during else skip)
  | HwBack hosting during => userStep w (back hosting during)
  | HwClose hosting during => userStep w (stopIfHosting hosting during)
  | HwKick row v => userStep w (kickSelected row v)
  | HwToggleInput row v => userStep w (toggleInputSelected row v)
  | HwAbr on => userStep w (setAbrChecked on)
  | HwSlide mbps => userStep w (modify (setSlider mbps) ;+ onManualBitrate mbps)
  | HwCopy v => userStep w (if hw_hosting w then copySessionCode v else skip)
  | HwLogs now dir exists_ => userStep w (openLogsFolder now dir exists_)
  | HwSignal signal => hostSlot signal
  | HwLogLine line => appendLog line
  | HwRefresh v => refreshPlayerTable v
  | HwBoxClosed k => boxClosed k
  | HwBoxDestroyed k => boxDestroyed k
  | HwAnswer e => closeDialog 0 e
  | HwDialogTimeout k => approvalTimeout k
  end).

Definition hostWinRun (es : list HostWinEvent) : HostWinAct := forA es hostWinStep.

End Window.

(** * Settings *)

Section Settings.
Context `{QtLaws}.

Lemma toInt_text n t : 0 <= n < 2 ^ 31 -> t = print_dec n -> q_toInt t = n.
Proof. intros Hn ->. by apply toInt_dec. Qed.

(** Two numbers with a delimiter between them: each is found again. *)
Lemma number_split x a t :
  ascii x -> isdigit x = false -> 0 <= a < 2 ^ 31 -> q_text t ->
  q_indexOf x (print_dec a ++ x :: t) = q_size (print_dec a) /\ 0 < q_size (print_dec a) /\
  q_toInt (q_left (print_dec a ++ x :: t) (q_size (print_dec a))) = a /\
  q_mid (print_dec a ++ x :: t) (q_size (print_dec a) + 1) = t.
Proof.
  intros Hx Hd Ha Ht. destruct (print_dec_spec a) as (_ & _ & Hne); [lia|].
  assert (Hta : q_text (print_dec a)) by (apply text_dec; lia). split_and!.
  - apply indexOf_first; [done..|]. apply print_dec_no; [lia|done].
  - by apply size_pos.
  - rewrite left_prefix by (done || by apply text_cons). by apply toInt_dec.
  - by apply mid_after.
Qed.

Lemma sizeOf_written a b t :
  0 <= a < 2 ^ 31 -> 0 <= b < 2 ^ 31 -> t = print_dec a ++ 120 :: print_dec b -> sizeOf t = mkResolution a b.
Proof.
  intros Ha Hb ->. unfold sizeOf.
  destruct (number_split 120 a (print_dec b)) as (-> & Hp & -> & ->); [unfold ascii; lia|done|done|apply text_dec; lia|].
  rewrite (proj2 (Z.ltb_lt _ _)) by done. by rewrite toInt_dec.
Qed.

(** The entries of the two boxes read as the presets. *)
Lemma size_at i r : 0 <= i -> Resolution_presets !! Z.to_nat i = Some r -> sizeOf (currentText hostResolutionItems i) = r.
Proof.
  intros Hi Hr. assert (Hl : (Z.to_nat i < 4)%nat) by (apply lookup_lt_Some in Hr; exact Hr).
  destruct (index_cases 4 i) as (k & Hk & ->); [lia|]. rewrite Nat2Z.id in Hr. unfold currentText.
  rewrite (proj2 (Z.ltb_ge _ _)) by lia. rewrite Nat2Z.id.
  do 4 (destruct k as [|k]; [injection Hr as <-; apply sizeOf_written; [lia|lia|vm_compute; reflexivity]|]). lia.
Qed.

Lemma host_fps_at i n : 0 <= i -> fpsPresets !! Z.to_nat i = Some n -> u32 (q_toInt (currentText hostFpsItems i)) = n.
Proof.
  intros Hi Hr. assert (Hl : (Z.to_nat i < 3)%nat) by (apply lookup_lt_Some in Hr; exact Hr).
  destruct (index_cases 3 i) as (k & Hk & ->); [lia|]. rewrite Nat2Z.id in Hr. unfold currentText.
  rewrite (proj2 (Z.ltb_ge _ _)) by lia. rewrite Nat2Z.id.
  do 3 (destruct k as [|k]; [injection Hr as <-; cbn -[print_dec u32];
    match goal with |- u32 (q_toInt ?t) = ?n => rewrite (toInt_text n t); [by rewrite u32_id by by_decision|lia|vm_compute; reflexivity] end|]). lia.
Qed.

(** The row of a window and that of a monitor, in the order [refreshCaptureSources] fills. *)
Lemma window_row windows outputs k hwnd :
  windows !! k = Some hwnd -> chosenSource ((SourceWindow <$> windows) ++ (SourceMonitor <$> outputs)) (Z.of_nat k) = (hwnd, 0).
Proof.
  intros Hk. unfold chosenSource. rewrite (proj2 (Z.ltb_ge _ _)) by lia. rewrite Nat2Z.id, lookup_app_l, list_lookup_fmap, Hk; [done|].
  rewrite length_fmap. by eapply lookup_lt_Some.
Qed.

Lemma monitor_row windows outputs k m :
  outputs !! k = Some m ->
  chosenSource ((SourceWindow <$> windows) ++ (SourceMonitor <$> outputs)) (Z.of_nat (length windows + k)) = (0, m).
Proof.
  intros Hk. unfold chosenSource. rewrite (proj2 (Z.ltb_ge _ _)) by lia. rewrite Nat2Z.id, lookup_app_r by (rewrite length_fmap; lia).
  rewrite length_fmap, list_lookup_fmap. replace (_ - _)%nat with k by lia. by rewrite Hk.
Qed.

(** The server's field is read as it is written: a host without a colon with the
    standard port, and a host and a port after the only colon exactly. *)
Theorem server_field_roundtrip (host : bytes) (port : Z) :
  q_text host -> 58 ∉ host -> host <> [] -> 0 < port < 2 ^ 16 ->
  parseServer (host ++ 58 :: print_dec port) = (host, port) /\ parseServer host = (host, 9000).
Proof.
  intros Ht Hc Hn Hp. assert (Hx : ascii 58) by (unfold ascii; lia).
  assert (Hd : q_text (print_dec port)) by (apply text_dec; lia). pose proof (size_pos host Ht Hn).
  unfold parseServer. split; [|by rewrite lastIndexOf_absent].
  rewrite lastIndexOf_last by (done || (apply print_dec_no; [lia|done])). rewrite indexOf_first, Z.eqb_refl by done.
  rewrite mid_after, left_prefix, toInt_dec by (done || lia || by apply text_cons).
  rewrite !(proj2 (Z.ltb_lt _ _)), (proj2 (Z.leb_le _ _)) by lia. cbn [andb]. by rewrite u16_id by (widths; lia).
Qed.

End Settings.

(** * From the page to the streams *)

Section Launch.
Context `{QtLaws} `{CNG} (cfg : Config) (paragraphs : bytes -> list bytes) (th : Thresholds) (mvk : Z -> Z) (isAddress : bytes -> bool).

Local Abbreviation inv := (hc_inv (fun _ => True) (fun _ => True)).

(** The settings a direct start leaves in the coordinator. *)
Lemma startLan_settings s userName code bind io c :
  inv c -> reachable isAddress c -> inj_ok (hc_injector c) -> ~ serverLost c ->
  wp (hcStep cfg th mvk isAddress (HcStartLan s userName code bind io))
    (fun _ c' => exists s', hc_settings c' = Some s' /\
       streamConfig s' = mkStream (ls_codec s) (res_width (ls_resolution s)) (res_height (ls_resolution s)) (i32 (ls_fps s))
         (i32 (ls_bitrateKbps s)) (i32 (u32 (ls_fps s * 2))) (a_bitrateKbps (cfg_audio cfg)) (ls_audioEnabled s)
         (ls_captureMode s) (ls_outputIndex s) (ls_windowHwnd s) (ls_gameName s)) c.
Proof.
  intros Hc Hr Hi Hl. cbn [hcStep]. unfold startLan. apply wp_seq. eapply wp_mono; [|by apply stop_stopped]. cbv beta. intros o c' _.
  apply wp_seq, wp_modify, wp_seq, wp_modify, wp_seq, wp_modify. apply wp_read. cbn [hc_host setHost].
  destruct (HostApp.start _ _ _ _ _ _) as [ok [os a]].
  apply wp_seq, wp_modify, wp_seq, wp_modify, wp_seq, wp_emit. destruct (negb ok).
  - apply wp_modify. by eexists.
  - do 6 apply wp_seq, wp_modify. apply wp_emit. by eexists.
Qed.

(** What the rows of the source box hold after a scan. *)
Definition scanned (w : HostWindow) (windows outputs : list Z) : Prop :=
  hw_sources w = (SourceWindow <$> windows) ++ (SourceMonitor <$> outputs) /\ Forall (fun h => h <> 0) windows.

(** The source that the selected row shows. *)
Inductive shows (windows outputs : list Z) : Z -> CaptureMode -> Z -> Z -> Prop :=
  | shows_window k hwnd : windows !! k = Some hwnd -> shows windows outputs (Z.of_nat k) CaptureWindow 0 hwnd
  | shows_monitor k m : outputs !! k = Some m -> shows windows outputs (Z.of_nat (length windows + k)) CaptureMonitor m 0.

Lemma shows_chosen windows outputs i mode m hwnd :
  Forall (fun h => h <> 0) windows -> shows windows outputs i mode m hwnd ->
  chosenSource ((SourceWindow <$> windows) ++ (SourceMonitor <$> outputs)) i = (hwnd, m) /\
  (if hwnd =? 0 then CaptureMonitor else CaptureWindow) = mode.
Proof.
  intros Hw [k h Hk|k o Hk]; [|by rewrite (monitor_row _ _ _ _ Hk)]. rewrite (window_row _ _ _ _ Hk). split; [done|].
  rewrite list.Forall_forall in Hw. specialize (Hw h (list_elem_of_lookup_2 _ _ _ Hk)). by rewrite (proj2 (Z.eqb_neq _ _)).
Qed.

(** C16: what the host picked is what will be captured: starting a direct session
    hands the coordinator settings from which every stream captures exactly the
    window or the monitor of the selected row, at the size and the frame rate of
    their boxes, with a key frame every two seconds and the bit rate of the spin
    box; only the bit rate of the sound is the configured one. (The coordinator is in
    any reachable state in which the server of an earlier internet session has not
    closed its connection: starting anew would end the program then.) *)
Theorem picked_source_is_captured (w : HostWindow) (windows outputs : list Z) mode m hwnd res fps during ok err now userName code bind io c :
  let f := hw_form w in
  scanned w windows outputs -> shows windows outputs (hf_source f) mode m hwnd ->
  0 <= hf_resolution f -> Resolution_presets !! Z.to_nat (hf_resolution f) = Some res ->
  0 <= hf_fps f -> fpsPresets !! Z.to_nat (hf_fps f) = Some fps ->
  2 <= hf_bitrate f <= 50 -> hf_mode f = 0 ->
  inv c -> reachable isAddress c -> inj_ok (hc_injector c) -> ~ serverLost c ->
  exists s, head (fst (startHosting paragraphs during ok err now w)) = Some (HoStartLan s) /\
    wp (hcStep cfg th mvk isAddress (HcStartLan s userName code bind io))
      (fun _ c' => exists s' game, hc_settings c' = Some s' /\
         streamConfig s' = mkStream (if hf_codec f =? 1 then Hevc else H264) (res_width res) (res_height res) fps (hf_bitrate f * 1000)
           (2 * fps) (a_bitrateKbps (cfg_audio cfg)) (hf_audio f) mode m hwnd game) c.
Proof.
  intros f [Hs Hw] Hsel Hr1 Hr2 Hf1 Hf2 Hb Hm Hc Hr Hi Hl. exists (launchSettings w). split.
  { unfold startHosting, readA. rewrite out_seq, out_emit. fold f. by rewrite Hm. }
  destruct (shows_chosen _ _ _ _ _ _ Hw Hsel) as [Hch Hmode].
  eapply wp_mono; [|by apply startLan_settings]. cbv beta. intros _ c' (s' & E & Ec). exists s', (ls_gameName (launchSettings w)).
  split; [done|]. rewrite Ec. assert (Hfps : 30 <= fps <= 120).
  { apply list_elem_of_lookup_2 in Hf2. repeat (apply elem_of_cons in Hf2 as [->|Hf2]; [lia|]). by apply not_elem_of_nil in Hf2. }
  unfold launchSettings. rewrite Hs. fold f. rewrite Hch, Hmode. cbn [ls_codec ls_resolution ls_fps ls_bitrateKbps ls_audioEnabled ls_captureMode ls_outputIndex ls_windowHwnd ls_gameName].
  rewrite (size_at _ _ Hr1 Hr2), (host_fps_at _ _ Hf1 Hf2). f_equal.
  - by rewrite i32_small by lia.
  - rewrite (u32_id (hf_bitrate f)), u32_id, i32_small by (widths; lia). done.
  - rewrite u32_id, i32_small by (widths; lia). lia.
Qed.

End Launch.

(** * Log and boxes through every run *)

Section Page.
Context `{Qt} (cfg : Config) (paragraphs : bytes -> list bytes) (n : nat) (Hpar : forall t, (length (paragraphs t) <= n)%nat).

(** One box, on screen, or none. *)
Definition box_ok (w : HostWindow) : Prop :=
  (hw_boxes w = [] /\ hw_active w = None) \/ exists k t, hw_boxes w = [mkBox k t true] /\ hw_active w = Some k.

Definition page_ok (w : HostWindow) : Prop := (length (hw_log w) <= 300 + n)%nat /\ box_ok w.

Lemma keeps_other f :
  (forall w, hw_log (f w) = hw_log w /\ hw_boxes (f w) = hw_boxes w /\ hw_active (f w) = hw_active w) ->
  keeps page_ok (modify (Out := HostWinOut) f).
Proof.
  intros Hf. apply keeps_modify. intros w [Hl Hb]. destruct (Hf w) as (E1 & E2 & E3). unfold page_ok, box_ok. by rewrite E1, E2, E3.
Qed.

Local Ltac other := by apply keeps_other; intros ?; split_and!.

Lemma log_trimmed (log : list bytes) :
  (length (if (300 <? blockCount log)%nat then drop (blockCount log - 300) log else log) <= 300)%nat.
Proof. unfold blockCount. destruct (Nat.ltb_spec 300 (Nat.max 1 (length log))); rewrite ?length_drop; lia. Qed.

Lemma keeps_append line : keeps page_ok (appendLog paragraphs line).
Proof.
  apply keeps_modify. intros w [Hl Hb]. split; [|done]. cbn [hw_log setLog]. rewrite length_app.
  pose proof (log_trimmed (hw_log w)). specialize (Hpar line). lia.
Qed.

Lemma keeps_error now message : keeps page_ok (showError paragraphs now message).
Proof.
  apply keeps_read. intros w Hw. destruct (bool_decide (message = [])); [done|]. destruct (activeVisible w) eqn:Ea; [done|].
  destruct (_ && _); [by apply keeps_append|].
  assert (Hn : hw_boxes w = [] /\ hw_active w = None).
  { destruct Hw as [_ [Hn|(k & t & Eb & Ek)]]; [done|]. exfalso. unfold activeVisible in Ea. rewrite Eb, Ek in Ea. cbn in Ea.
    by rewrite Nat.eqb_refl in Ea. }
  destruct Hn as [Eb Ek]. pose proof (keeps_append (str "[error] " ++ message) _ Hw) as [Hl _].
  autorewrite with fin. split; [exact Hl|]. right. cbn. rewrite Eb. by eexists _, _.
Qed.

Hint Resolve keeps_append keeps_error : act.

Lemma keeps_hostSlot signal : keeps page_ok (hostSlot paragraphs signal).
Proof.
  destruct signal as [v [| |id name|message|message]]; unfold hostSlot; cbn [fst snd].
  - unfold onStateChanged. apply keeps_seq; [|apply keeps_seq; other].
    destruct (negb _); [apply keeps_seq; other|]. destruct (negb _); [apply keeps_seq; other|apply keeps_skip].
  - other.
  - apply keeps_seq; [other|apply keeps_emit].
  - apply keeps_error.
  - apply keeps_error.
Qed.

Lemma keeps_hostSlots during : keeps page_ok (hostSlots paragraphs during).
Proof. apply keeps_for, keeps_hostSlot. Qed.

Lemma keeps_hosting b : keeps page_ok (setHostingUi b).
Proof. apply keeps_seq; [other|]. destruct b; [apply keeps_skip|apply keeps_seq; other]. Qed.

Hint Resolve keeps_hostSlots keeps_hosting : act.

Lemma keeps_stopIf b during : keeps page_ok (stopIfHosting paragraphs b during).
Proof. destruct b; unfold stopIfHosting; auto with act. Qed.

Lemma keeps_abr on : keeps page_ok (setAbrChecked on).
Proof. apply keeps_read. intros w Hw. destruct (Bool.eqb _ _); [done|]. revert w Hw. apply keeps_seq; [other|apply keeps_emit]. Qed.

Lemma keeps_user w a : keeps page_ok a -> keeps page_ok (userStep w a).
Proof. intros Ha. unfold userStep. destruct (hw_approvals w); [done|apply keeps_skip]. Qed.

Lemma keeps_closed k e : keeps page_ok (closeDialog k e).
Proof.
  intros w Hw. unfold closeDialog. destruct (hw_approvals w !! k) as [[client name [b|]]|]; try done. by destruct (unwindApprovals _).
Qed.

Lemma keeps_timeout k : keeps page_ok (approvalTimeout k).
Proof.
  apply keeps_read. intros w Hw. destruct (hw_approvals w !! k) as [[client name [b|]]|]; try done. by apply keeps_closed.
Qed.

(** Every event but the two of a box's end. *)
Lemma keeps_hostStep e :
  (forall k, e <> HwBoxClosed k /\ e <> HwBoxDestroyed k) -> keeps page_ok (hostWinStep paragraphs e).
Proof.
  intros He. apply keeps_read. intros w Hw.
  destruct e as [f|ws os|during ok err now|during|b during|b during|row v|row v|on|mbps|v|now dir ex|s|line|v|k|k|accept|k];
    try (apply keeps_user; [|exact Hw]).
  - other.
  - destruct (hw_hosting w); [apply keeps_skip|]. apply keeps_seq; [other|]. apply keeps_read. intros w' Hw'. revert w' Hw'. unfold onForm. other.
  - destruct (hw_hosting w); [apply keeps_skip|]. apply keeps_read. intros w' Hw'.
    refine (keeps_seq _ _ _ (keeps_emit _ _) _ w' Hw'). apply keeps_seq; [auto with act|]. destruct ok; auto with act.
  - destruct (hw_hosting w); [|apply keeps_skip]. unfold stopHosting. auto 6 with act.
  - apply keeps_seq; [apply keeps_stopIf|apply keeps_emit].
  - apply keeps_stopIf.
  - unfold kickSelected. destruct (row <? 0); [auto with act|]. destruct (_ !! _); auto with act.
  - unfold toggleInputSelected. destruct (row <? 0); [auto with act|]. destruct (_ !! _); auto with act.
  - apply keeps_abr.
  - apply keeps_seq; [other|]. apply keeps_read. intros w' Hw'.
    refine (keeps_seq _ _ _ _ (keeps_emit _ _) w' Hw'). destruct (hw_abr w'); [apply keeps_abr|apply keeps_skip].
  - destruct (hw_hosting w); [|apply keeps_skip]. unfold copySessionCode. destruct (bool_decide _); auto with act.
  - unfold openLogsFolder. destruct ex; auto with act.
  - by apply keeps_hostSlot.
  - by apply keeps_append.
  - revert w Hw. unfold refreshPlayerTable. other.
  - by destruct (He k).
  - by destruct (He k).
  - by apply keeps_closed.
  - by apply keeps_timeout.
Qed.

(** A box that is closed is deleted before anything else happens. *)
Lemma keeps_gone k : keeps page_ok (boxClosed k ;+ boxDestroyed k).
Proof.
  intros w [Hl Hb]. rewrite fin_seq. unfold boxClosed. rewrite fin_modify. unfold boxDestroyed. rewrite fin_read.
  destruct Hb as [[Eb Ek]|(k' & t & Eb & Ek)]; cbn [hw_boxes setBoxes]; rewrite Eb; cbn.
  - split; [done|]. by left.
  - destruct (Nat.eqb_spec k' k) as [->|Hne]; cbn; rewrite ?Nat.eqb_refl; cbn.
    + split; [done|]. by left.
    + rewrite (proj2 (Nat.eqb_neq _ _)) by done. cbn. split; [done|]. right. cbn.
      rewrite ?(proj2 (Nat.eqb_neq _ _)) by done. by eexists _, _.
Qed.

(** Runs in which that is so. *)
Definition promptly (es : list HostWinEvent) : list HostWinEvent :=
  es ≫= (fun e => match e with HwBoxClosed k => [HwBoxClosed k; HwBoxDestroyed k] | HwBoxDestroyed _ => [] | e => [e] end).

Lemma run_page es w : page_ok w -> page_ok (snd (hostWinRun paragraphs (promptly es) w)).
Proof.
  revert w. induction es as [|e es IH]; intros w Hw; [done|]. unfold promptly. rewrite bind_cons. fold (promptly es).
  unfold hostWinRun in *. rewrite forA_app, fin_seq. apply IH. clear IH.
  destruct e; cbn [mret list_ret forA]; rewrite ?fin_seq, ?fin_skip; try (apply keeps_hostStep; [by intros|done]).
  - pose proof (keeps_gone k w Hw) as G. by rewrite fin_seq in G.
  - done.
Qed.

(** The host's page cannot be flooded: whatever the coordinator reports, however
    often, the log never holds more than 300 paragraphs and those of one more line,
    and, as long as a box that is closed is deleted before the next report, there is
    at most one message box, on screen, which the page knows. *)
Theorem host_page_is_not_flooded (es : list HostWinEvent) :
  page_ok (snd (hostWinRun paragraphs (promptly es) (builtHostWindow cfg))).
Proof. apply run_page. split; [cbn; lia|by left]. Qed.

End Page.

(** * Approvals *)

Section Approvals.
Context `{Qt} (cfg : Config) (paragraphs : bytes -> list bytes).

(** The players a run of outputs decided on, those it opened a dialog for, and those
    whose dialogs are open. *)
Definition decided (os : list HostWinOut) : list Z := omap (fun o => match o with HoApprove id _ => Some id | _ => None end) os.
Definition asked (os : list HostWinOut) : list Z := omap (fun o => match o with HoDialog id _ => Some id | _ => None end) os.
Definition open (w : HostWindow) : list Z := ap_client <$> hw_approvals w.

(** No open dialog waits with a yes, and the innermost waits for its answer. *)
Definition dialogs_ok (ds : list Approval) : Prop :=
  Forall (fun d => ap_choice d <> Some buttonYes) ds /\ match ds with d :: _ => ap_choice d = None | [] => True end.

Definition noApproval (o : HostWinOut) : Prop := match o with HoApprove _ _ => False | _ => True end.

(** Every dialog is decided once or still open. *)
Definition even_handed (os : list HostWinOut) (w w' : HostWindow) : Prop := decided os ++ open w' ≡ₚ asked os ++ open w.

(** A part that keeps this and decides nothing. *)
Definition balanced (a : HostWinAct) : Prop := forall w, dialogs_ok (hw_approvals w) ->
  even_handed (fst (a w)) w (snd (a w)) /\ Forall noApproval (fst (a w)) /\ dialogs_ok (hw_approvals (snd (a w))).

Lemma even_seq o1 o2 w w1 w2 : even_handed o1 w w1 -> even_handed o2 w1 w2 -> even_handed (o1 ++ o2) w w2.
Proof.
  unfold even_handed, decided, asked. intros H1 H2. rewrite !omap_app, <- !app_assoc, H2.
  rewrite Permutation_app_swap_app, H1, Permutation_app_swap_app. done.
Qed.

Lemma bal_seq a b : balanced a -> balanced b -> balanced (a ;+ b).
Proof.
  intros Ha Hb w Hw. rewrite out_seq, fin_seq. destruct (Ha w Hw) as (H1 & H2 & H3), (Hb _ H3) as (H4 & H5 & H6).
  split; [exact (even_seq _ _ _ _ _ H1 H4)|]. split; [by apply Forall_app|done].
Qed.
Lemma even_refl w : even_handed [] w w.
Proof. unfold even_handed. reflexivity. Qed.
Hint Resolve even_refl : core.

Lemma bal_skip : balanced skip.
Proof. intros w Hw. split; [apply even_refl|]. split; [by apply Forall_nil_2|exact Hw]. Qed.
Lemma bal_for {A} (xs : list A) body : (forall x, balanced (body x)) -> balanced (forA xs body).
Proof. intros Hb. induction xs; [apply bal_skip|by apply bal_seq]. Qed.

(** Parts that have nothing to do with dialogs: they decide nothing and open none. *)
Definition noDialog (o : HostWinOut) : Prop := match o with HoApprove _ _ | HoDialog _ _ => False | _ => True end.

Definition aloof (a : HostWinAct) : Prop := forall w, Forall noDialog (fst (a w)) /\ hw_approvals (snd (a w)) = hw_approvals w.

Lemma aloof_balanced a : aloof a -> balanced a.
Proof.
  intros Ha w Hw. destruct (Ha w) as [Ho Es]. unfold even_handed, open. rewrite Es.
  assert (E : decided (fst (a w)) = [] /\ asked (fst (a w)) = [] /\ Forall noApproval (fst (a w))).
  { induction Ho as [|o os Ho _ (E1 & E2 & E3)]; [done|]. unfold decided, asked in *. destruct o; try done; cbn; split_and!; try done; by constructor. }
  by destruct E as (-> & -> & ?).
Qed.

Lemma aloof_skip : aloof skip.
Proof. intros w. by split. Qed.
Lemma aloof_emit os : Forall noDialog os -> aloof (emit os).
Proof. intros Ho w. by split. Qed.
Lemma aloof_modify f : (forall w, hw_approvals (f w) = hw_approvals w) -> aloof (modify f).
Proof. intros Hf w. split; [done|apply Hf]. Qed.
Lemma aloof_seq a b : aloof a -> aloof b -> aloof (a ;+ b).
Proof.
  intros Ha Hb w. rewrite out_seq, fin_seq. destruct (Ha w) as [Ho1 E1], (Hb (snd (a w))) as [Ho2 E2].
  split; [by apply Forall_app|congruence].
Qed.
Lemma aloof_read k : (forall w, aloof (k w)) -> aloof (readA k).
Proof. intros Hk w. apply Hk. Qed.
Lemma aloof_if (b : bool) x y : aloof x -> aloof y -> aloof (if b then x else y).
Proof. by destruct b. Qed.

Hint Resolve aloof_skip aloof_seq aloof_if : act.
Hint Extern 1 (aloof (modify _)) => (apply aloof_modify; done) : act.
Hint Extern 1 (aloof (emit _)) => (apply aloof_emit; repeat constructor) : act.
Hint Extern 2 (aloof (readA _)) => (apply aloof_read; intros ?) : act.
Hint Extern 1 (aloof (match _ !! _ with _ => _ end)) => (destruct (_ !! _)) : act.

Lemma aloof_append line : aloof (appendLog paragraphs line).
Proof. unfold appendLog. auto with act. Qed.
Hint Resolve aloof_append : act.
Lemma aloof_error now message : aloof (showError paragraphs now message).
Proof. unfold showError. apply aloof_read. intros w. cbv zeta. auto 12 with act. Qed.
Hint Resolve aloof_error : act.
Lemma aloof_abr on : aloof (setAbrChecked on).
Proof. unfold setAbrChecked, onAbrToggled. auto with act. Qed.

Lemma bal_hostSlot signal : balanced (hostSlot paragraphs signal).
Proof.
  destruct signal as [v [| |id name|message|message]]; unfold hostSlot; cbn [fst snd].
  - apply aloof_balanced. unfold onStateChanged. auto 12 with act.
  - apply aloof_balanced. unfold refreshPlayerTable. auto with act.
  - intros w [Hf Hh]. unfold even_handed. cbn. split; [reflexivity|]. split; [by repeat constructor|]. split; [by constructor|done].
  - apply aloof_balanced, aloof_error.
  - apply aloof_balanced, aloof_error.
Qed.

Lemma bal_hostSlots during : balanced (hostSlots paragraphs during).
Proof. apply bal_for, bal_hostSlot. Qed.

Lemma aloof_hosting b : aloof (setHostingUi b).
Proof. unfold setHostingUi. auto with act. Qed.

Lemma bal_emit os : Forall noDialog os -> balanced (emit os).
Proof. intros Ho. by apply aloof_balanced, aloof_emit. Qed.

Lemma bal_stopIf b during : balanced (stopIfHosting paragraphs b during).
Proof.
  destruct b; [|apply bal_skip]. apply bal_seq; [by apply bal_emit; repeat constructor|].
  apply bal_seq; [apply bal_hostSlots|apply aloof_balanced, aloof_hosting].
Qed.

Lemma unwind_decides ds : decided (fst (unwindApprovals ds)) ++ (ap_client <$> snd (unwindApprovals ds)) = ap_client <$> ds.
Proof.
  induction ds as [|[c name [b|]] ds IH]; cbn [unwindApprovals]; [done| |done].
  destruct (unwindApprovals ds) as [os ds']. cbn [fst snd] in *. cbn. by rewrite <- IH.
Qed.

Lemma unwind_asks ds : asked (fst (unwindApprovals ds)) = [].
Proof.
  induction ds as [|[c name [b|]] ds IH]; cbn [unwindApprovals]; [done| |done]. by destruct (unwindApprovals ds).
Qed.

Lemma unwind_ok ds : Forall (fun d => ap_choice d <> Some buttonYes) ds ->
  dialogs_ok (snd (unwindApprovals ds)) /\ forall id, HoApprove id true ∉ fst (unwindApprovals ds).
Proof.
  induction 1 as [|[c name [x|]] ds Hd Hf IH]; cbn [unwindApprovals].
  - split; [done|]. intros id. by apply not_elem_of_nil.
  - destruct (unwindApprovals ds) as [os ds']. destruct IH as [IH1 IH2]. split; [done|]. intros id. cbn [fst] in *.
    rewrite not_elem_of_cons. split; [|apply IH2]. intros [= _ Hx]. symmetry in Hx. apply Z.eqb_eq in Hx as ->. by apply Hd.
  - split; [by split; [by constructor|]|]. intros id. by apply not_elem_of_nil.
Qed.

Lemma execResult_yes e : execResult e = buttonYes -> e = DlgYes.
Proof. by destruct e. Qed.

(** A dialog that closes decides what it must, and a yes only for its own player. *)
Lemma close_decides k e w : dialogs_ok (hw_approvals w) -> (e = DlgYes -> k = O) ->
  even_handed (fst (closeDialog k e w)) w (snd (closeDialog k e w)) /\
  dialogs_ok (hw_approvals (snd (closeDialog k e w))) /\
  forall id, HoApprove id true ∈ fst (closeDialog k e w) -> e = DlgYes /\ head (open w) = Some id.
Proof.
  intros Hw Hk. unfold closeDialog. destruct (hw_approvals w !! k) as [[client name [b|]]|] eqn:E.
  1,3: by split_and!; [| |intros ? ?%not_elem_of_nil].
  set (ds := <[k:=mkAp client name (Some (execResult e))]> (hw_approvals w)).
  pose proof (unwind_decides ds) as D. pose proof (unwind_asks ds) as A.
  assert (Hi : even_handed (fst (unwindApprovals ds)) w (setApprovals (snd (unwindApprovals ds)) w)).
  { unfold even_handed. rewrite A. unfold open. cbn [hw_approvals setApprovals app]. rewrite D. unfold ds.
    rewrite list_fmap_insert. cbn [ap_client]. rewrite list_insert_id; [done|]. by rewrite list_lookup_fmap, E. }
  assert (Hc : dialogs_ok (snd (unwindApprovals ds)) /\
    forall id, HoApprove id true ∈ fst (unwindApprovals ds) -> e = DlgYes /\ head (open w) = Some id).
  { destruct (decide (execResult e = buttonYes)) as [Ey|Hn].
    - apply execResult_yes in Ey as ->. specialize (Hk eq_refl) as ->. unfold ds, open.
      destruct (hw_approvals w) as [|d rest]; [done|]. injection E as ->.
      change (<[0%nat:=?x]> (?y :: ?l)) with (x :: l). cbn [unwindApprovals]. destruct Hw as [[_ Hf]%Forall_cons_1 _].
      destruct (unwind_ok rest Hf) as [H1 H2].
      destruct (unwindApprovals rest) as [os ds']. split; [exact H1|]. intros id. cbn [fst] in *.
      intros [[= ->]|Hin]%elem_of_cons; [done|]. by destruct (H2 id).
    - assert (Hf : Forall (fun d => ap_choice d <> Some buttonYes) ds) by (apply Forall_insert; [apply Hw|cbn; congruence]).
      destruct (unwind_ok ds Hf) as [H1 H2]. split; [done|]. intros id Hin. by destruct (H2 id). }
  destruct (unwindApprovals ds) as [os ds']. cbn [fst snd] in *. by destruct Hc.
Qed.

Lemma timeout_decides k w : dialogs_ok (hw_approvals w) ->
  even_handed (fst (approvalTimeout k w)) w (snd (approvalTimeout k w)) /\
  dialogs_ok (hw_approvals (snd (approvalTimeout k w))) /\ forall id, HoApprove id true ∉ fst (approvalTimeout k w).
Proof.
  intros Hw. unfold approvalTimeout, readA. destruct (hw_approvals w !! k) as [[client name [b|]]|];
    [split_and!; [done|done|by intros id ?%not_elem_of_nil]| |split_and!; [done|done|by intros id ?%not_elem_of_nil]].
  destruct (close_decides k DlgReject w Hw ltac:(done)) as (H1 & H2 & H3). split_and!; [done|done|].
  intros id Hin. by destruct (H3 id Hin).
Qed.

Lemma bal_user w0 a : balanced a -> balanced (userStep w0 a).
Proof. intros Ha. unfold userStep. destruct (hw_approvals w0); [done|apply bal_skip]. Qed.

(** Every event but the ends of dialogs. *)
Lemma bal_step e : (forall x k, e <> HwAnswer x /\ e <> HwDialogTimeout k) -> balanced (hostWinStep paragraphs e).
Proof.
  intros He w Hw. unfold hostWinStep, readA.
  destruct e as [f|ws os|during ok err now|during|b during|b during|row v|row v|on|mbps|v|now dir ex|s|line|v|k|k|accept|k];
    try (apply bal_user; [|exact Hw]).
  - apply aloof_balanced. auto with act.
  - apply aloof_balanced. unfold refreshCaptureSources, onForm. auto with act.
  - destruct (hw_hosting w); [apply bal_skip|]. intros w' Hw'. refine (bal_seq _ _ _ (bal_seq _ _ (bal_hostSlots during) _) w' Hw').
    + apply bal_emit, Forall_singleton. destruct (_ =? 1); [|done]. by destruct (parseServer _).
    + apply aloof_balanced. apply aloof_if; [apply aloof_hosting|apply aloof_error].
  - destruct (hw_hosting w); [|apply bal_skip]. apply bal_seq; [by apply bal_emit, Forall_singleton|].
    apply bal_seq; [apply bal_hostSlots|]. apply aloof_balanced. apply aloof_seq; [apply aloof_hosting|apply aloof_append].
  - apply bal_seq; [apply bal_stopIf|by apply bal_emit, Forall_singleton].
  - apply bal_stopIf.
  - apply aloof_balanced. unfold kickSelected. auto with act.
  - apply aloof_balanced. unfold toggleInputSelected. auto with act.
  - apply aloof_balanced, aloof_abr.
  - apply aloof_balanced. unfold onManualBitrate. apply aloof_seq; [auto with act|]. apply aloof_read. intros w'.
    apply aloof_seq; [apply aloof_if; [apply aloof_abr|auto with act]|auto with act].
  - apply aloof_balanced. unfold copySessionCode. auto 8 with act.
  - apply aloof_balanced. unfold openLogsFolder. auto with act.
  - by apply bal_hostSlot.
  - revert w Hw. apply aloof_balanced, aloof_append.
  - revert w Hw. apply aloof_balanced. unfold refreshPlayerTable. auto with act.
  - revert w Hw. apply aloof_balanced. unfold boxClosed. auto with act.
  - revert w Hw. apply aloof_balanced. unfold boxDestroyed. auto 8 with act.
  - by destruct (He accept 0%nat).
  - by destruct (He DlgYes k).
Qed.

(** Every event keeps the dialogs in order, and a yes comes from the user alone. *)
Lemma step_decides e w : dialogs_ok (hw_approvals w) ->
  let '(os, w') := hostWinStep paragraphs e w in
  even_handed os w w' /\ dialogs_ok (hw_approvals w') /\
  forall id, HoApprove id true ∈ os -> e = HwAnswer DlgYes /\ head (open w) = Some id.
Proof.
  intros Hw. assert (Hc : (exists x, e = HwAnswer x) \/ (exists k, e = HwDialogTimeout k) \/
    forall x k, e <> HwAnswer x /\ e <> HwDialogTimeout k).
  { destruct e; try (by right; right). - left. by eexists. - right. left. by eexists. }
  destruct Hc as [[accept ->]|[[k ->]|He]].
  - pose proof (close_decides 0 accept w Hw ltac:(done)) as (H1 & H2 & H3). unfold hostWinStep, readA.
    destruct (closeDialog 0 accept w) as [os w']. cbn [fst snd] in *. split; [done|]. split; [done|].
    intros id Hin. destruct (H3 id Hin) as [-> ?]. done.
  - pose proof (timeout_decides k w Hw) as (H1 & H2 & H3). unfold hostWinStep. unfold readA at 1.
    destruct (approvalTimeout k w) as [os w']. cbn [fst snd] in *. split; [done|]. split; [done|].
    intros id Hin. by destruct (H3 id).
  - destruct (bal_step e He w Hw) as (H1 & H2 & H3). destruct (hostWinStep paragraphs e w) as [os w']. cbn [fst snd] in *.
    split; [done|]. split; [done|]. intros id Hin. rewrite list.Forall_forall in H2. by destruct (H2 _ Hin).
Qed.

(** What the window tells the coordinator at once when the innermost dialog ends. *)
Lemma answer_is_passed_on e w id : dialogs_ok (hw_approvals w) -> head (open w) = Some id ->
  head (fst (hostWinStep paragraphs (HwAnswer e) w)) = Some (HoApprove id (bool_decide (e = DlgYes))).
Proof.
  intros [_ Hh]. unfold open, hostWinStep, readA, closeDialog. destruct (hw_approvals w) as [|[c name x] ds]; [done|].
  cbn in Hh |- *. subst x. intros [= ->]. destruct (unwindApprovals ds) as [os ds']. by destruct e.
Qed.

(** C15: the window passes on what the host answered: in every run, each approval
    dialog is decided exactly once or is still open; ending the innermost one tells
    the coordinator at once to admit its player if the user pressed the yes button,
    and to refuse it otherwise; and the coordinator is told to admit a player only
    then. A dialog that is refused, escaped from or rejected by its timer, or whose
    loop ends under another dialog, admits nobody. (What the session does without
    waiting for this answer is [approval_can_be_bypassed].) *)
Theorem only_the_host_admits (es : list HostWinEvent) :
  let '(os, w) := hostWinRun paragraphs es (builtHostWindow cfg) in
  decided os ++ open w ≡ₚ asked os /\
  (forall e id, head (open w) = Some id ->
     head (fst (hostWinStep paragraphs (HwAnswer e) w)) = Some (HoApprove id (bool_decide (e = DlgYes)))) /\
  forall id, HoApprove id true ∈ os -> exists es1 es2, es = es1 ++ HwAnswer DlgYes :: es2 /\
    head (open (snd (hostWinRun paragraphs es1 (builtHostWindow cfg)))) = Some id.
Proof.
  assert (G : let '(os, w) := hostWinRun paragraphs es (builtHostWindow cfg) in
    even_handed os (builtHostWindow cfg) w /\ dialogs_ok (hw_approvals w) /\
    forall id, HoApprove id true ∈ os -> exists es1 es2, es = es1 ++ HwAnswer DlgYes :: es2 /\
      head (open (snd (hostWinRun paragraphs es1 (builtHostWindow cfg)))) = Some id).
  { induction es as [|e es IH] using rev_ind.
    { split; [apply even_refl|]. split; [by split; [apply Forall_nil_2|]|]. intros id. by intros ?%not_elem_of_nil. }
    unfold hostWinRun in *. rewrite forA_app. cbn [forA]. unfold seqA.
    destruct (forA es (hostWinStep paragraphs) (builtHostWindow cfg)) as [o1 w1] eqn:E1. destruct IH as (H1 & H2 & H3).
    pose proof (step_decides e w1 H2) as Hs. destruct (hostWinStep paragraphs e w1) as [o2 w2]. unfold skip. rewrite app_nil_r.
    destruct Hs as (H4 & H5 & H6). split; [exact (even_seq _ _ _ _ _ H1 H4)|]. split; [done|].
    intros id [Hin|Hin]%elem_of_app.
    - destruct (H3 id Hin) as (es1 & es2 & -> & Hh). exists es1, (es2 ++ [e]). by rewrite <- app_assoc.
    - destruct (H6 id Hin) as [-> Hh]. exists es, []. by rewrite E1. }
  destruct (hostWinRun _ _ _) as [os w]. destruct G as (H1 & H2 & H3).
  split; [|split; [intros e id Hh; by apply answer_is_passed_on|done]].
  unfold even_handed in H1. rewrite H1. change (open (builtHostWindow cfg)) with (@nil Z). by rewrite app_nil_r.
Qed.

End Approvals.

(** * What the page leaves out *)

(** The configured approval, permissions, port and greatest bit rate do not reach a
    session: the page starts from the defaults, not from [settingsFromConfig]. *)
Theorem configured_rules_are_ignored `{Qt} (w : HostWindow) :
  let s := launchSettings w in
  ls_requireApproval s = true /\ ls_inputDefaults s = defaultInputPermissions /\ ls_listenPort s = kDefaultListenPort /\
  ls_bitrateKbps s = u32 (u32 (hf_bitrate (hw_form w)) * 1000).
Proof. unfold launchSettings. by destruct (chosenSource _ _). Qed.

(** * Runs *)

Local Abbreviation plain := (fun t : bytes => [t]).
Local Abbreviation samplePage := (@builtHostWindow AsciiQt.qt Config.defaultConfig).
Local Abbreviation pageRun := (@hostWinRun AsciiQt.qt plain).

Definition viewOf (clients : list ClientRow) (now : Z) : HostView := mkView HostCoordinator.defaultUi [] true clients now.
Definition error (now : Z) (message : bytes) : HostWinEvent := HwSignal (viewOf [] now, ErrorOccurred message).

Definition ann : ClientRow := mkRow 1 (str "Ann") Connected 0 true [].
Definition bob : ClientRow := mkRow 2 (str "Bob") Connected 0 true [].
Definition cid : ClientRow := mkRow 3 (str "Cid") Connected 0 true [].

(** The table shows Ann and Bob; Ann leaves and Cid joins before the next refresh,
    and the row that shows Bob kicks Cid. *)
Theorem stale_row_kicks_another :
  let '(os, w) := pageRun [HwRefresh (viewOf [ann; bob] 0); HwKick 1 (viewOf [bob; cid] 500)] samplePage in
  (pr_name <$> hw_rows w !! 1%nat) = Some (str "Bob") /\ os = [HoKick 3].
Proof. vm_compute. done. Qed.

(** A box that is closed but not deleted yet: the next one is forgotten when the
    first is deleted, and a third opens over it. *)
Theorem late_deletion_stacks_boxes :
  let '(_, w) := pageRun [error 0 (str "a"); HwBoxClosed 0; error 1 (str "b"); HwBoxDestroyed 0; error 2 (str "c")] samplePage in
  hw_boxes w = [mkBox 1 (str "b") true; mkBox 2 (str "c") true].
Proof. vm_compute. done. Qed.

(** A session over the internet does not count as hosting, so that leaving the page
    does not stop it. *)
Theorem back_leaves_the_internet_session :
  endsWith (sampleRun (fun _ => true) internetHost)
    (fun _ c => negb (hosting c) && bool_decide (is_Some (hc_signaling c)) && bool_decide (ui_sessionCode (hc_ui c) = sampleCode) &&
       bool_decide (length (fst (back plain (hosting c) [] samplePage)) = 1%nat)) = true /\
  fst (back plain false [] samplePage) = [HoBackToHome].
Proof. vm_compute. done. Qed.

(** A bit rate set by hand takes the mark off the adaptive box; the next session
    adapts all the same. *)
Theorem next_session_adapts_unmarked :
  let '(os, w) := pageRun [HwSlide 10; HwStart [] true [] 0] samplePage in
  hw_abr w = false /\ take 2 os = [HoAbrEnabled false; HoManualBitrate 10000] /\
  endsWith (sampleRun (fun _ => true) (HcSetAbrEnabled false :: HcSetManualBitrate 10000 :: lanHosting))
    (fun _ c => hosting c && hc_abrEnabled c && (ab_currentKbps (hc_abr c) =? ls_bitrateKbps sampleLaunch)) = true.
Proof. vm_compute. done. Qed.

(** Two requests; the timer of the first runs out under the second, which is then
    accepted. *)
Lemma only_the_host_admits_witness :
  let es := [HwSignal (viewOf [] 0, ApprovalRequest 1 (str "Ann")); HwSignal (viewOf [] 0, ApprovalRequest 2 (str "Bob"));
             HwDialogTimeout 1; HwAnswer DlgYes] in
  let os := fst (pageRun es samplePage) in
  HoApprove 2 true ∈ os /\ HoApprove 1 false ∈ os /\
  exists es1 es2, es = es1 ++ HwAnswer DlgYes :: es2 /\ head (open (snd (pageRun es1 samplePage))) = Some 2.
Proof.
  intros es os. assert (Hin : HoApprove 2 true ∈ os) by (apply list_elem_of_In; vm_compute; tauto).
  split; [done|]. split; [apply list_elem_of_In; vm_compute; tauto|].
  pose proof (@only_the_host_admits AsciiQt.qt Config.defaultConfig plain es) as T. fold es in T. unfold os in Hin.
  destruct (pageRun es samplePage) as [o w]. destruct T as (_ & _ & T). exact (T 2 Hin).
Defined.

Lemma server_field_roundtrip_witness :
  @parseServer AsciiQt.qt (str "play.example.com:7000") = (str "play.example.com", 7000).
Proof. by apply (@server_field_roundtrip AsciiQt.qt AsciiQt.qt_laws (str "play.example.com") 7000); [by apply AsciiQt.text_check|by_decision..]. Defined.

Lemma host_page_is_not_flooded_witness :
  page_ok 1 (snd (pageRun (promptly [error 0 (str "a"); error 1 (str "b"); HwBoxClosed 0; error 2 (str "b")]) samplePage)).
Proof. apply (@host_page_is_not_flooded AsciiQt.qt Config.defaultConfig plain 1). intros t. done. Defined.

(** A scan that found two windows and a monitor, and the second window chosen. *)
Local Abbreviation scannedPage := (snd (pageRun [HwRescan [4660; 22136] [0];
  HwEdit (mkHForm (str "Ada") (str "Rayman") 0 [] 1 0 2 0 12 true)] samplePage)).

Lemma scannedPage_form :
  hw_form scannedPage = mkHForm (str "Ada") (str "Rayman") 0 [] 1 0 2 0 12 true /\ scanned scannedPage [4660; 22136] [0].
Proof. split; [vm_compute; reflexivity|]. split; [vm_compute; reflexivity|by repeat constructor]. Qed.

Lemma picked_source_is_captured_witness :
  exists s, head (fst (@startHosting AsciiQt.qt plain [] true [] 0 scannedPage)) = Some (HoStartLan s) /\
    wp (@hcStep Toy.cng Config.defaultConfig defaultThresholds id (fun _ => true) (HcStartLan s (str "ada") sampleCode sampleBind sampleStop))
      (fun _ c' => exists s' game, hc_settings c' = Some s' /\
         streamConfig s' = mkStream H264 1280 720 120 12000 240 128 true CaptureWindow 0 22136 game)
      (newCoordinator Config.defaultConfig newInjector).
Proof.
  destruct scannedPage_form as [Hf Hs].
  pose proof (@picked_source_is_captured AsciiQt.qt AsciiQt.qt_laws Toy.cng Config.defaultConfig plain defaultThresholds id (fun _ => true)
    scannedPage [4660; 22136] [0] CaptureWindow 0 22136 (mkResolution 1280 720) 120 [] true [] 0 (str "ada") sampleCode sampleBind sampleStop
    (newCoordinator Config.defaultConfig newInjector)) as T.
  rewrite Hf in T. apply T; try done; try lia.
  - by apply (shows_window [4660; 22136] [0] 1 22136).
  - by apply new_inv.
  - apply (injector_new_ok (fun _ => True)).
  - intros (sg & Esg & _). discriminate Esg.
Defined.
