(* ===== verification/WindowTexts.v ===== *)
(** ui/ClientWindow.cpp and ui/HostWindow.cpp: the texts of their labels. The windows'
    models keep what a label shows as data ([InfoText], [Banner], [AddressText], ...);
    here it is written out, with [QString::arg] and [QString::number].

    [QString::arg] is an interface with its documented meaning: it puts its argument
    in the place of the lowest numbered marker of the text, wherever that came from. *)

From S2P Require Import Prelude Types Double Config Qt VideoWidget ClientCoordinator ClientWindow HostCoordinator HostWindow.

Open Scope Z_scope.

(** * Place markers *)

(** A text as its characters and its markers, [%1] to [%99]. *)
Inductive Piece := PChar (c : Z) | PMark (n : Z).

Definition percent : Z := 37.
Definition digit (c : Z) : Z := c - 48.

Fixpoint pieces (s : bytes) : list Piece :=
  match s with
  | [] => []
  | c :: r =>
      match r with
      | [] => [PChar c]
      | d :: r1 =>
          if (c =? percent) && isdigit d then
            match r1 with
            | e :: r2 => if isdigit e then PMark (10 * digit d + digit e) :: pieces r2 else PMark (digit d) :: pieces r1
            | [] => [PMark (digit d)]
            end
          else PChar c :: pieces r
      end
  end.

Definition marks (ps : list Piece) : list Z := omap (fun p => match p with PMark n => Some n | PChar _ => None end) ps.

Definition lowest (l : list Z) : option Z :=
  match l with [] => None | n :: l => Some (foldr Z.min n l) end.

(** The text with marker [n] replaced; the others stay as they were. *)
Definition fill (n : Z) (v : bytes) (ps : list Piece) : bytes :=
  concat ((fun p => match p with PChar c => [c] | PMark k => if k =? n then v else percent :: print_dec k end) <$> ps).

Definition argSpec (s v : bytes) : bytes :=
  match lowest (marks (pieces s)) with Some n => fill n v (pieces s) | None => s end.

(** [arg(a, b)] fills the two lowest markers at once. *)
Definition fill2 (n m : Z) (a b : bytes) (ps : list Piece) : bytes :=
  concat ((fun p => match p with
    | PChar c => [c]
    | PMark k => if k =? n then a else if k =? m then b else percent :: print_dec k
    end) <$> ps).

Definition arg2Spec (s a b : bytes) : bytes :=
  match lowest (marks (pieces s)) with
  | None => s
  | Some n =>
      match lowest (List.filter (fun k => negb (k =? n)) (marks (pieces s))) with
      | None => fill n a (pieces s)
      | Some m => fill2 n m a b (pieces s)
      end
  end.

(** A text without marker 0 or a locale flag, of which the documentation says nothing
    or something else. *)
Fixpoint documented (s : bytes) : bool :=
  match s with
  | [] => true
  | c :: r => negb ((c =? percent) && match r with d :: _ => (d =? 48) || (d =? 76) | [] => false end) && documented r
  end.

Class QtFormat := {
  q_arg : bytes -> bytes -> bytes;
  q_arg2 : bytes -> bytes -> bytes -> bytes;
  (** [number(x, 'f', digits)] *)
  q_number : double -> nat -> bytes }.

Class QtFormatLaws `{QtFormat} : Prop := {
  arg_doc s v : documented s = true -> q_arg s v = argSpec s v;
  arg2_doc s a b : documented s = true -> q_arg2 s a b = arg2Spec s a b;
  number_plain x n : percent ∉ q_number x n }.

(** * The texts *)

Section Texts.
Context `{Qt, QtFormat}.

(** [arg(n)] of an int. *)
Definition intText (n : Z) : bytes := if n <? 0 then 45 :: print_dec (- n) else print_dec n.
Definition argInt (s : bytes) (n : Z) : bytes := q_arg s (intText n).

Definition argF (s : bytes) (x : double) (digits : nat) : bytes := q_arg s (q_number x digits).

(** [kbps / 1000.0] *)
Definition mbps (kbps : double) : double := ddiv kbps (dofZ 1000).

Definition statsLines (s : ClientUiState) : list bytes :=
  [q_arg (argInt (str "Player %1 on %2's session") (cu_playerIndex s)) (if bool_decide (cu_hostName s = []) then str "?" else cu_hostName s);
   argF (argF (argF (str "RTT %1 ms | loss %2% | jitter %3 ms") (cu_rttMs s) 0) (cu_lossPercent s) 1) (cu_jitterMs s) 1;
   argF (argF (argF (str "In %1 Mbps | FPS %2 | decode %3 ms") (mbps (cu_bitrateKbps s)) 1) (cu_fps s) 0) (cu_decodeMs s) 1;
   q_arg (argInt (argInt (str "Video %1x%2 (%3)") (cu_width s)) (cu_height s)) (if bool_decide (cu_decoderName s = []) then str "-" else cu_decoderName s);
   q_arg (str "Audio %1") (if cu_audioActive s then argF (str "on (%1 ms dec)") (cu_audioMs s) 1 else str "off")].

Definition windowBanner (b : Banner) : bytes :=
  match b with
  | BnConnecting => str "Connecting to stream..."
  | BnLoss x => argF (str "Poor connection - packet loss %1%") x 1
  | BnLatency x => argF (str "High latency - %1 ms") x 0
  | BnFramerate x => argF (str "Low framerate - %1 FPS") x 0
  end.
Definition infoText (i : InfoText) : bytes :=
  match i with
  | ItNone => []
  | ItLine line => q_left line 160
  | ItConnecting => str "Connecting..."
  | ItStatus status => status
  | ItConnected host game player => argInt (q_arg2 (str "Connected to %1 - %2 (you are Player %3)") host game) player
  end.

Definition joinText (j : JoinText) : bytes :=
  match j with
  | JtNone => []
  | JtEnter => str "Enter the host/server address and the session code."
  | JtConnecting => str "Connecting..."
  | JtCouldNot => str "Could not connect."
  | JtDisconnected reason => q_arg (str "Disconnected: %1") reason
  | JtText message => message
  end.

Definition codeText (c : CodeText) : bytes :=
  match c with NotHosting => str "NOT HOSTING" | CodeIs code => code end.

Definition addressText (a : AddressText) : bytes :=
  match a with
  | StartHint => str "Start hosting to get a shareable code."
  | ViaServer server => q_arg (str "via %1") server
  | LanPort port => argInt (str "LAN - tell players your IP + port %1") port
  end.

Definition gamepadText (status : bytes) : bytes := q_arg (str "Virtual gamepads: %1") status.

(** A cell of the statistics. *)
Definition cell (x : option double) (digits : nat) (unit_ : bytes) : bytes :=
  match x with Some x => q_number x digits ++ unit_ | None => str "-" end.

Definition statCells (s : StatTexts) : list bytes :=
  [cell (tx_fps s) 0 []; tx_encoder s; cell (tx_capture s) 1 (str " ms"); cell (tx_encode s) 1 (str " ms");
   cell (mbps <$> tx_bitrate s) 1 (str " Mbps"); cell (tx_ping s) 0 (str " ms"); cell (tx_loss s) 1 (str "%");
   cell (tx_jitter s) 1 (str " ms")].

End Texts.

(** * Markers in known text *)

Definition headDigit (s : bytes) : bool := match s with c :: _ => isdigit c | [] => false end.

(** No marker, and nothing that becomes one, begins inside the text. *)
Fixpoint settled (s : bytes) : bool :=
  match s with
  | [] => true
  | c :: r => negb ((c =? percent) && match r with d :: _ => isdigit d || (d =? 76) | [] => false end) && settled r
  end.

Lemma pieces_char c s : c <> percent \/ headDigit s = false -> pieces (c :: s) = PChar c :: pieces s.
Proof.
  intros H. destruct s as [|d s]; [done|].
  change (pieces (c :: d :: s)) with
    (if (c =? percent) && isdigit d then
       match s with
       | e :: r2 => if isdigit e then PMark (10 * digit d + digit e) :: pieces r2 else PMark (digit d) :: pieces s
       | [] => [PMark (digit d)]
       end
     else PChar c :: pieces (d :: s)).
  cbn [headDigit] in H. destruct H as [H%Z.eqb_neq| ->]; [by rewrite H|by rewrite andb_false_r].
Qed.

Lemma pieces_mark d s : isdigit d = true -> headDigit s = false -> pieces (percent :: d :: s) = PMark (digit d) :: pieces s.
Proof. intros Hd Hs. cbn [pieces]. rewrite Hd, Z.eqb_refl. cbn [andb]. destruct s as [|e s]; [done|]. cbn in Hs. by rewrite Hs. Qed.

Lemma pieces_settled s t : settled s = true -> headDigit t = false -> pieces (s ++ t) = (PChar <$> s) ++ pieces t.
Proof.
  intros Hs Ht. induction s as [|c s IH]; [done|]. cbn [settled] in Hs. apply andb_true_iff in Hs as [Hc Hs].
  cbn [app fmap list_fmap]. rewrite pieces_char; [by rewrite IH|].
  destruct (Z.eqb_spec c percent) as [->|]; [|by left]. right. cbn [andb] in Hc. destruct s as [|d s]; [done|].
  cbn [app headDigit]. destruct (isdigit d); [done|done].
Qed.

Lemma documented_settled s t : settled s = true -> headDigit t = false -> head t <> Some 76 -> documented (s ++ t) = documented t.
Proof.
  intros Hs Ht HL. induction s as [|c s IH]; [done|]. cbn [settled] in Hs. apply andb_true_iff in Hs as [Hc Hs].
  cbn [app documented]. rewrite IH by done. destruct (Z.eqb_spec c percent) as [->|]; [|done]. cbn [andb] in *.
  assert (Hn : match s ++ t with d :: _ => (d =? 48) || (d =? 76) | [] => false end = false); [|by rewrite Hn].
  destruct s as [|d s]; cbn [app].
  - destruct t as [|d t]; [done|]. cbn in Ht, HL. apply orb_false_iff.
    split; apply Z.eqb_neq; [intros ->; discriminate Ht|congruence].
  - apply negb_true_iff, orb_false_iff in Hc as [Hd Hc]. rewrite Hc, orb_false_r.
    apply Z.eqb_neq. intros ->. discriminate Hd.
Qed.

(** Where a settled text ends and the next begins no marker arises. *)
Lemma settled_app s t : settled s = true -> settled t = true -> headDigit t = false -> head t <> Some 76 -> settled (s ++ t) = true.
Proof.
  intros Hs Ht Hd HL. induction s as [|c s IH]; [done|]. cbn [settled] in Hs. apply andb_true_iff in Hs as [Hc Hs].
  cbn [app settled]. rewrite IH, andb_true_r by done. destruct (Z.eqb_spec c percent) as [->|]; [|done]. cbn [andb] in *.
  destruct s as [|d s]; [|done]. cbn [app]. destruct t as [|d t]; [done|]. cbn in Hd, HL. rewrite Hd. cbn [orb].
  apply negb_true_iff, Z.eqb_neq. congruence.
Qed.

Lemma settled_plain v : percent ∉ v -> settled v = true.
Proof.
  induction v as [|c v IH]; intros Hv; [done|]. apply not_elem_of_cons in Hv as [Hc Hv]. cbn [settled].
  rewrite IH by done. assert (E : (c =? percent) = false) by (apply Z.eqb_neq; congruence). by rewrite E.
Qed.

(** A value in front of a settled text. *)
Lemma settled_value v t : percent ∉ v -> settled t = true -> settled (v ++ t) = true.
Proof.
  induction v as [|c v IH]; intros Hv Ht; [done|]. apply not_elem_of_cons in Hv as [Hc Hv]. cbn [app settled].
  rewrite IH by done. assert (E : (c =? percent) = false) by (apply Z.eqb_neq; congruence). by rewrite E.
Qed.

(** A settled text that does not end in a percent sign, in front of a value. *)
Lemma settled_before s v : settled (s ++ [32]) = true -> s = [] \/ List.last s 0 <> percent -> settled v = true -> settled (s ++ v) = true.
Proof.
  intros Hs Hl Hv. induction s as [|c s IH]; [done|]. cbn [app settled] in *. apply andb_true_iff in Hs as [Hc Hs].
  destruct s as [|d s].
  - cbn [app] in *. rewrite Hv, andb_true_r. destruct Hl as [|Hl]; [done|]. cbn in Hl.
    assert (E : (c =? percent) = false) by (by apply Z.eqb_neq). by rewrite E.
  - rewrite IH; [cbn [app] in *; by rewrite Hc|done|]. right. by destruct Hl as [|Hl].
Qed.

Lemma marks_chars (s : bytes) : marks (PChar <$> s) = [].
Proof. unfold marks. induction s as [|c s IH]; [done|]. cbn. exact IH. Qed.

Lemma fill_app n v ps qs : fill n v (ps ++ qs) = fill n v ps ++ fill n v qs.
Proof. unfold fill. by rewrite fmap_app, concat_app. Qed.

Lemma fill_chars n v (s : bytes) : fill n v (PChar <$> s) = s.
Proof. unfold fill. induction s as [|c s IH]; [done|]. cbn in *. by rewrite IH. Qed.

(** Text whose markers are all above [n] is left alone. *)
Definition above (n : Z) (post : bytes) : bool :=
  forallb (fun k => n <? k) (marks (pieces post)) && bool_decide (fill 0 [] (pieces post) = post) && documented post && negb (headDigit post).

Lemma lowest_above n l : forallb (fun k => n <? k) l = true -> lowest (n :: l) = Some n.
Proof.
  intros Hl. cbn [lowest]. f_equal. induction l as [|k l IH]; [done|]. cbn in *. apply andb_true_iff in Hl as [Hk Hl].
  rewrite IH by done. lia.
Qed.

Lemma fill_above n v ps : forallb (fun k => n <? k) (marks ps) = true -> 0 <= n -> fill n v ps = fill 0 [] ps.
Proof.
  intros Hl Hn. unfold fill. f_equal. unfold marks in Hl. induction ps as [|[c|k] ps IH]; [done|..]; cbn in *.
  - f_equal. by apply IH.
  - apply andb_true_iff in Hl as [Hk Hl]. rewrite IH by done. f_equal.
    rewrite !(proj2 (Z.eqb_neq k _)) by lia. done.
Qed.

Lemma above_text n s t :
  settled s = true -> headDigit (s ++ t) = false -> headDigit t = false -> head t <> Some 76 -> above n t = true ->
  above n (s ++ t) = true.
Proof.
  unfold above. rewrite !andb_true_iff, !bool_decide_eq_true. intros Hs Hst Hd HL [[[Hm Hf] Hdoc] _].
  rewrite pieces_settled, documented_settled, Hst by done. unfold marks. rewrite omap_app.
  change (omap _ (PChar <$> s)) with (marks (PChar <$> s)). rewrite marks_chars. cbn [app]. rewrite fill_app, fill_chars, Hf.
  by split_and!.
Qed.

(** [arg] fills the first of the markers that are left. *)
Lemma arg_fills `{QtFormatLaws} pre n post v :
  settled pre = true -> 1 <= n <= 9 -> above n post = true ->
  q_arg (pre ++ percent :: (48 + n) :: post) v = pre ++ v ++ post.
Proof.
  intros Hpre Hn Hpost. apply andb_true_iff in Hpost as [[[Hm Hf%bool_decide_eq_true]%andb_true_iff Hd]%andb_true_iff Hh%negb_true_iff].
  assert (Hdig : isdigit (48 + n) = true) by (unfold isdigit; lia).
  rewrite arg_doc.
  - unfold argSpec. rewrite pieces_settled, pieces_mark by done. unfold marks. rewrite omap_app.
    change (omap _ (PChar <$> pre)) with (marks (PChar <$> pre)). rewrite marks_chars. cbn [app omap list_omap].
    replace (digit (48 + n)) with n by (unfold digit; lia). fold (marks (pieces post)). rewrite lowest_above by done.
    rewrite fill_app, fill_chars. f_equal. change (PMark n :: pieces post) with ([PMark n] ++ pieces post).
    rewrite fill_app, (fill_above n v (pieces post)), Hf by (done || lia). unfold fill. cbn. rewrite Z.eqb_refl. by rewrite app_nil_r.
  - rewrite documented_settled by done. cbn [documented]. rewrite Hd, andb_true_r.
    rewrite (proj2 (Z.eqb_neq (48 + n) 48)), (proj2 (Z.eqb_neq (48 + n) 76)) by lia.
    rewrite (proj2 (Z.eqb_neq (48 + n) percent)) by (unfold percent; lia). by rewrite andb_false_r.
Qed.

(** ** Chains of arguments *)

(** Markers [n], [n + 1], ... each with the text behind it. *)
Fixpoint template (n : Z) (ls : list bytes) : bytes :=
  match ls with [] => [] | l :: ls => percent :: (48 + n) :: l ++ template (n + 1) ls end.

Fixpoint filled (ls vs : list bytes) : bytes :=
  match ls, vs with l :: ls, v :: vs => v ++ l ++ filled ls vs | _, _ => [] end.

(** A value can follow. *)
Definition opens (l : bytes) : bool := negb (List.last l 0 =? percent).

Fixpoint wellFormed (n : Z) (ls : list bytes) : bool :=
  match ls with
  | [] => true
  | l :: ls =>
      above n (l ++ template (n + 1) ls) && settled l && bool_decide (ls = [] \/ (l <> [] /\ opens l = true)) && wellFormed (n + 1) ls
  end.

Lemma opens_app s l : l <> [] -> opens l = true -> opens (s ++ l) = true.
Proof.
  intros Hl Ho. destruct l as [|c l _] using rev_ind; [done|]. unfold opens in *. rewrite app_assoc.
  by rewrite last_last in Ho |- *.
Qed.

Lemma args_fill `{QtFormatLaws} ls : forall vs pre n,
  length vs = length ls -> wellFormed n ls = true -> 1 <= n -> n + zlen ls <= 10 ->
  settled pre = true -> opens pre = true -> Forall (fun v => percent ∉ v) (removelast vs) ->
  foldl q_arg (pre ++ template n ls) vs = pre ++ filled ls vs.
Proof.
  induction ls as [|l ls IH]; intros vs pre n Hlen Hwf Hn Hn9 Hpre Hop Hvs.
  { by destruct vs. }
  destruct vs as [|v vs]; [done|]. cbn [length] in *. injection Hlen as Hlen. cbn [wellFormed] in Hwf.
  apply andb_true_iff in Hwf as [[[Ha Hs]%andb_true_iff Ho%bool_decide_eq_true]%andb_true_iff Hwf].
  cbn [template filled foldl]. rewrite arg_fills by (done || lia).
  destruct ls as [|l' ls].
  { destruct vs; [|done]. cbn. by rewrite !app_nil_r. }
  destruct vs as [|v' vs]; [done|]. destruct Ho as [|[Hl Ho]]; [done|]. cbn [removelast] in Hvs. apply Forall_cons_iff in Hvs as [Hv Hvs].
  set (rest := l' :: ls) in *. replace (pre ++ v ++ l ++ template (n + 1) rest) with ((pre ++ v ++ l) ++ template (n + 1) rest)
    by (by rewrite <- !app_assoc).
  rewrite IH; try done; try lia.
  - by rewrite <- !app_assoc.
  - apply settled_before; [by apply settled_app| |by apply settled_value]. right. unfold opens in Hop. by apply negb_true_iff, Z.eqb_neq in Hop.
  - rewrite app_assoc. by apply opens_app.
Qed.

(** A text of the program: what is before its first marker, and behind each. *)
Definition line_ok (s pre : bytes) (ls : list bytes) : bool :=
  bool_decide (s = pre ++ template 1 ls) && wellFormed 1 ls && (Nat.leb (length ls) 9) && settled pre && opens pre.

Lemma line_filled `{QtFormatLaws} s pre ls vs :
  line_ok s pre ls = true -> length vs = length ls -> Forall (fun v => percent ∉ v) (removelast vs) ->
  foldl q_arg s vs = pre ++ filled ls vs.
Proof.
  intros [[[[->%bool_decide_eq_true Hw]%andb_true_iff Hl%Nat.leb_le]%andb_true_iff Hs]%andb_true_iff Ho]%andb_true_iff Hlen Hv.
  apply args_fill; done || lia.
Qed.

(** * What the labels say *)

Definition is_int (n : Z) : Prop := - 2 ^ 31 <= n < 2 ^ 31.

Lemma intText_plain n : is_int n -> percent ∉ intText n.
Proof.
  intros Hn. unfold is_int in Hn. unfold intText. destruct (Z.ltb_spec n 0).
  - apply not_elem_of_cons. split; [done|]. apply print_dec_no; [lia|done].
  - apply print_dec_no; [lia|done].
Qed.

(** A chain of [arg]s on a line given by its parts. *)
Ltac fill_with s pre ls vs :=
  let Hline := fresh "Hline" in
  assert (Hline : Forall (fun v : bytes => percent ∉ v) (removelast vs) -> foldl q_arg s vs = pre ++ filled ls vs)
    by (apply line_filled; [vm_compute; reflexivity|reflexivity]);
  cbn [foldl filled removelast] in Hline; rewrite ?app_nil_r in Hline;
  apply Hline; repeat constructor; auto using number_plain.

Ltac fill_line pre ls :=
  lazymatch goal with
  | |- q_arg (q_arg (q_arg ?s ?a) ?b) ?c = _ => fill_with s pre ls [a; b; c]
  | |- q_arg (q_arg ?s ?a) ?b = _ => fill_with s pre ls [a; b]
  | |- q_arg ?s ?a = _ => fill_with s pre ls [a]
  end.

(** The overlay shows each statistic in its place, whatever the host calls itself and
    whatever the decoder is called: their texts come last in their lines, so a marker
    in them is shown as it is. *)
Theorem stats_lines_read `{Qt, QtFormatLaws} s
  (Hp : is_int (cu_playerIndex s)) (Hw : is_int (cu_width s)) (Hh : is_int (cu_height s)) :
  statsLines s =
    [str "Player " ++ intText (cu_playerIndex s) ++ str " on " ++ (if bool_decide (cu_hostName s = []) then str "?" else cu_hostName s) ++ str "'s session";
     str "RTT " ++ q_number (cu_rttMs s) 0 ++ str " ms | loss " ++ q_number (cu_lossPercent s) 1 ++ str "% | jitter " ++ q_number (cu_jitterMs s) 1 ++ str " ms";
     str "In " ++ q_number (mbps (cu_bitrateKbps s)) 1 ++ str " Mbps | FPS " ++ q_number (cu_fps s) 0 ++ str " | decode " ++ q_number (cu_decodeMs s) 1 ++ str " ms";
     str "Video " ++ intText (cu_width s) ++ str "x" ++ intText (cu_height s) ++ str " (" ++ (if bool_decide (cu_decoderName s = []) then str "-" else cu_decoderName s) ++ str ")";
     str "Audio " ++ (if cu_audioActive s then str "on (" ++ q_number (cu_audioMs s) 1 ++ str " ms dec)" else str "off")].
Proof.
  pose proof (intText_plain _ Hp). pose proof (intText_plain _ Hw). pose proof (intText_plain _ Hh).
  unfold statsLines, argF, argInt.
  repeat f_equal.
  - fill_line (str "Player ") [str " on "; str "'s session"].
  - fill_line (str "RTT ") [str " ms | loss "; str "% | jitter "; str " ms"].
  - fill_line (str "In ") [str " Mbps | FPS "; str " | decode "; str " ms"].
  - fill_line (str "Video ") [str "x"; str " ("; str ")"].
  - destruct (cu_audioActive s); [|fill_line (str "Audio ") [[] : bytes]].
    assert (E : q_arg (str "on (%1 ms dec)") (q_number (cu_audioMs s) 1) = str "on (" ++ q_number (cu_audioMs s) 1 ++ str " ms dec)")
      by (fill_line (str "on (") [str " ms dec)"]).
    rewrite E. fill_line (str "Audio ") [[] : bytes].
Qed.

(** The texts of the banner, of the address line and of the gamepad line. *)
Theorem labels_read `{Qt, QtFormatLaws} x port text (Hp : fits 16 port) :
  windowBanner (BnLoss x) = str "Poor connection - packet loss " ++ q_number x 1 ++ str "%" /\
  windowBanner (BnLatency x) = str "High latency - " ++ q_number x 0 ++ str " ms" /\
  windowBanner (BnFramerate x) = str "Low framerate - " ++ q_number x 0 ++ str " FPS" /\
  addressText (ViaServer text) = str "via " ++ text /\
  addressText (LanPort port) = str "LAN - tell players your IP + port " ++ print_dec port /\
  joinText (JtDisconnected text) = str "Disconnected: " ++ text /\
  gamepadText text = str "Virtual gamepads: " ++ text.
Proof.
  assert (E : print_dec port = intText port) by (unfold intText; widths; by rewrite (proj2 (Z.ltb_ge _ _)) by lia).
  split_and!; cbn [windowBanner addressText joinText]; unfold argF, argInt, gamepadText; rewrite ?E.
  - fill_line (str "Poor connection - packet loss ") [str "%"].
  - fill_line (str "High latency - ") [str " ms"].
  - fill_line (str "Low framerate - ") [str " FPS"].
  - fill_line (str "via ") [[] : bytes].
  - fill_line (str "LAN - tell players your IP + port ") [[] : bytes].
  - fill_line (str "Disconnected: ") [[] : bytes].
  - fill_line (str "Virtual gamepads: ") [[] : bytes].
Qed.

(** The line of a connection with the names in it; the player's number is filled into
    what comes out. *)
Lemma connected_names `{QtFormatLaws} host game :
  q_arg2 (str "Connected to %1 - %2 (you are Player %3)") host game =
  str "Connected to " ++ host ++ str " - " ++ game ++ str " (you are Player %3)".
Proof. rewrite arg2_doc by by vm_compute. reflexivity. Qed.

(** With names that hold no percent sign the line reads as it is meant to. *)
Theorem connected_text_reads `{Qt, QtFormatLaws} host game player
  (Hh : percent ∉ host) (Hg : percent ∉ game) :
  infoText (ItConnected host game player) =
    str "Connected to " ++ host ++ str " - " ++ game ++ str " (you are Player " ++ intText player ++ str ")".
Proof.
  cbn [infoText]. rewrite connected_names. unfold argInt.
  set (pre := str "Connected to " ++ host ++ str " - " ++ game ++ str " (you are Player ").
  assert (E : str "Connected to " ++ host ++ str " - " ++ game ++ str " (you are Player %3)" = pre ++ percent :: (48 + 3) :: str ")")
    by (unfold pre; by rewrite <- !app_assoc).
  rewrite E, arg_fills; [|unfold pre|lia|by vm_compute].
  - unfold pre. by rewrite <- !app_assoc.
  - do 2 (apply settled_before; [by vm_compute|by right|]; apply settled_value; [done|]). by vm_compute.
Qed.

(** A host that puts a marker into its name gets the player's number there, and the
    number's own marker stays: [arg] looks at what the names brought in. *)
Theorem host_name_takes_the_number `{Qt, QtFormatLaws} game player
  (Hg : percent ∉ game) :
  infoText (ItConnected (str "%1") game player) =
    str "Connected to " ++ intText player ++ str " - " ++ game ++ str " (you are Player %3)".
Proof.
  cbn [infoText]. rewrite connected_names. unfold argInt.
  apply (arg_fills (str "Connected to ") 1 (str " - " ++ game ++ str " (you are Player %3)")); [by vm_compute|lia|].
  assert (E : str " - " ++ game ++ str " (you are Player %3)" = (str " - " ++ game ++ str " (you are Player ") ++ str "%3)")
    by (by rewrite <- !app_assoc).
  rewrite E. apply above_text; [|done|done|done|by vm_compute].
  apply settled_before; [by vm_compute|by right|]. by apply settled_value.
Qed.

(** * An instance *)

(** Numbers shown by their whole part, cut to an int. *)
Definition wholePart (x : double) : Z := Z.max (- 2 ^ 31) (Z.min (default 0 (dtrunc x)) (2 ^ 31 - 1)).

#[local] Instance wholeNumbers : QtFormat :=
  {| q_arg := argSpec; q_arg2 := arg2Spec; q_number x _ := intText (wholePart x) |}.

#[local] Instance wholeNumbers_laws : QtFormatLaws.
Proof. split; [done|done|]. intros x n. apply intText_plain. unfold wholePart, is_int. lia. Qed.

(** What the host calls itself is taken as it is in the overlay; in the connection line
    a name with a percent sign is not. *)
Definition sample_stats : ClientUiState :=
  mkCui [] (str "Ann %1") [] (str "d3d11") (dofZ 12) (dofZ 1) (dofZ 2) (dofZ 60) (dofZ 3) (dofZ 4) (dofZ 8000) 2 true 1280 720.

Lemma stats_lines_read_witness :
  head (@statsLines wholeNumbers sample_stats) = Some (str "Player 2 on Ann %1's session").
Proof.
  assert (Hp : is_int 2) by by_decision. assert (Hw : is_int 1280) by by_decision. assert (Hh : is_int 720) by by_decision.
  pose proof (@stats_lines_read AsciiQt.qt wholeNumbers wholeNumbers_laws sample_stats Hp Hw Hh) as E.
  rewrite E. reflexivity.
Defined.

Lemma labels_read_witness :
  @addressText wholeNumbers (LanPort 41717) = str "LAN - tell players your IP + port 41717".
Proof.
  assert (Hp : fits 16 41717) by by_decision.
  exact (proj1 (proj2 (proj2 (proj2 (proj2 (@labels_read AsciiQt.qt wholeNumbers wholeNumbers_laws dzero 41717 [] Hp)))))).
Defined.

Lemma connected_text_reads_witness :
  @infoText AsciiQt.qt wholeNumbers (ItConnected (str "Ann") (str "?") 2) = str "Connected to Ann - ? (you are Player 2)".
Proof.
  exact (@connected_text_reads AsciiQt.qt wholeNumbers wholeNumbers_laws (str "Ann") (str "?") 2
    ltac:(by_decision) ltac:(by_decision)).
Defined.

Lemma host_name_takes_the_number_witness :
  @infoText AsciiQt.qt wholeNumbers (ItConnected (str "%1") (str "?") 2) = str "Connected to 2 - ? (you are Player %3)".
Proof.
  exact (@host_name_takes_the_number AsciiQt.qt wholeNumbers wholeNumbers_laws (str "?") 2 ltac:(by_decision)).
Defined.
