(* ===== verification/MainWindow.v ===== *)
(** ui/MainWindow.h and MainWindow.cpp: the window with the four pages, which puts the
    pages' models together; main.cpp runs it on the loaded configuration. *)

From S2P Require Import Prelude Types Double OrderedMap Json Config HostSession HostCoordinator VideoWidget ClientCoordinator Qt SettingsWindow ClientWindow HostWindow.

Open Scope act_scope.
Open Scope Z_scope.

(** * Data *)

(** The pages of the stack, by their index. *)
Inductive Page := Home | HostPage | ClientPage | SettingsPage.

#[export] Instance Page_eq_dec : EqDecision Page.
Proof. solve_decision. Defined.

(** [mw_config] is the configuration every page refers to. *)
Record MainWindow := mkMain {
  mw_page : Page; mw_host : HostWindow; mw_client : ClientWindow; mw_settings : SettingsWindow; mw_config : Config }.

Inductive MainOut :=
  | MoHost (o : HostWinOut)
  | MoClient (o : WinOut)
  | MoSaved (r : SaveResult).

Definition MainAct : Type := act MainWindow MainOut.

Section Main.
Context `{Qt} `{WidgetKeys} (bannerText : Banner -> bytes) (paragraphs : bytes -> list bytes) (dump : json -> option bytes).

(** The constructor, with what the operating system and the settings store hold. *)
Definition newMainWindow (cfg : Config) (windows outputs : list Z) (recents : list bytes) : MainWindow :=
  mkMain Home (snd (refreshCaptureSources windows outputs (builtHostWindow cfg))) (ClientWindow.builtWindow cfg recents)
    (loadFromConfig cfg SettingsWindow.builtWindow) cfg.

(** * Pages *)

(** [setCurrentIndex]: the page that leaves the screen and the one that comes. *)
Definition showPage (p : Page) : MainAct := modify (fun m =>
  mkMain p (mw_host m) (setShown (bool_decide (p = ClientPage)) (mw_client m)) (mw_settings m) (mw_config m)).

Definition showHome : MainAct := showPage Home.
Definition showHost : MainAct := showPage HostPage.
Definition showClient : MainAct := showPage ClientPage.
Definition showSettings : MainAct := showPage SettingsPage.

(** A page acts; its request to go back is connected to [showHome]. *)
Definition onHost (a : HostWinAct) : MainAct := fun m =>
  let '(os, h) := a (mw_host m) in
  (emit (MoHost <$> os) ;+
   modify (fun m => mkMain (mw_page m) h (mw_client m) (mw_settings m) (mw_config m)) ;+
   if existsb (fun o => match o with HoBackToHome => true | _ => false end) os then showHome else skip) m.

Definition onClient (a : WinAct) : MainAct := fun m =>
  let '(os, c) := a (mw_client m) in
  (emit (MoClient <$> os) ;+
   modify (fun m => mkMain (mw_page m) (mw_host m) c (mw_settings m) (mw_config m)) ;+
   if existsb (fun o => match o with WoBackToHome => true | _ => false end) os then showHome else skip) m.

Definition closeEvent (hosting : bool) (hostDuring : list (HostView * UiSignal)) (active : bool)
    (clientDuring : list (ClientUiState * CUiSignal)) : MainAct :=
  onHost (stopIfHosting paragraphs hosting hostDuring) ;+ onClient (disconnectIfActive bannerText active clientDuring).

(** * Steps *)

Inductive MainEvent :=
  | MwHostCard
  | MwJoinCard
  | MwSettingsButton
  | MwHost (e : HostWinEvent)
  | MwClient (e : WinEvent)
  | MwEditSettings (s : SettingsWindow)
  | MwSave (dirsOk opened written : bool)
  | MwSettingsBack
  | MwClose (hosting : bool) (hostDuring : list (HostView * UiSignal)) (active : bool) (clientDuring : list (ClientUiState * CUiSignal)).

(** What the user does on the host's page, as against what reaches it. *)
Definition byUser (e : HostWinEvent) : bool :=
  match e with
  | HwSignal _ | HwLogLine _ | HwRefresh _ | HwBoxClosed _ | HwBoxDestroyed _ | HwAnswer _ | HwDialogTimeout _ => false
  | _ => true
  end.

(** The events of the pages but those of the main window. *)
Definition ownHostEvent (e : HostWinEvent) : bool := match e with HwClose _ _ => false | _ => true end.
Definition ownEvent (e : WinEvent) : bool := match e with WeShow _ | WeClose _ _ => false | _ => true end.

Definition onPage (p : Page) (a : MainAct) : MainAct := readA (fun m => if decide (mw_page m = p) then a else skip).

(** The signal of the back button of the settings page has no slot. *)
Definition mainStep (e : MainEvent) : MainAct :=
  match e with
  | MwHostCard => onPage Home showHost
  | MwJoinCard => onPage Home showClient
  | MwSettingsButton => onPage Home showSettings
  | MwHost e =>
      if negb (ownHostEvent e) then skip
      else if byUser e then onPage HostPage (onHost (hostWinStep paragraphs e)) else onHost (hostWinStep paragraphs e)
  | MwClient e => readA (fun m => if ownEvent e then onClient (winStep (mw_config m) bannerText e) else skip)
  | MwEditSettings s =>
      onPage SettingsPage (modify (fun m => mkMain (mw_page m) (mw_host m) (mw_client m) s (mw_config m)))
  | MwSave dirsOk opened written => onPage SettingsPage (readA (fun m =>
      match SettingsWindow.save dump dirsOk opened written (mw_config m) (mw_settings m) with
      | Some (c, r) => modify (fun m => mkMain (mw_page m) (mw_host m) (mw_client m) (mw_settings m) c) ;+ emit [MoSaved r]
      | None => skip
      end))
  | MwSettingsBack => onPage SettingsPage skip
  | MwClose hosting hostDuring active clientDuring => closeEvent hosting hostDuring active clientDuring
  end.

Definition mainRun (es : list MainEvent) : MainAct := forA es mainStep.

End Main.

(** * Properties *)

Section Props.
Context `{Qt} `{WidgetKeys} (bannerText : Banner -> bytes) (paragraphs : bytes -> list bytes) (dump : json -> option bytes).

(** ** What the pages' own steps leave alone *)

Section Shown.
Variable b : bool.

Local Abbreviation same := (fun w : ClientWindow => cw_shown w = b).

Hint Extern 1 (keeps _ (modify _)) => (apply keeps_modify; intros ? ?; assumption) : act.
Hint Extern 2 (keeps _ (readA _)) => (apply keeps_read; intros ? ?) : act.

Lemma shown_video f : keeps same (callVideo f).
Proof. intros w Hw. unfold callVideo. by destruct (f (cw_video w)). Qed.
Hint Resolve shown_video : act.

Lemma shown_fullscreen on : keeps same (setVideoFullscreen on).
Proof. intros w Hw. rewrite fullscreen_fin. by destruct (Bool.eqb _ _). Qed.
Hint Resolve shown_fullscreen : act.

Lemma shown_streaming on : keeps same (setStreamingUi bannerText on).
Proof.
  unfold setStreamingUi. apply keeps_seq; [|destruct on; auto 8 with act].
  apply keeps_read. intros w Hw. destruct (_ && _); [by apply shown_fullscreen|done].
Qed.
Hint Resolve shown_streaming : act.

Lemma shown_slot s : keeps same (slot bannerText s).
Proof.
  destruct s as [ui [|line|reason|message|h g i]]; unfold slot, ClientWindow.onStateChanged, updateQualityBanner, onDisconnected,
    ClientWindow.showError, onConnectedToHost; cbn [fst snd]; auto with act; case_match; auto with act.
Qed.

Lemma shown_slots during : keeps same (slots bannerText during).
Proof. apply keeps_for, shown_slot. Qed.
Hint Resolve shown_slots : act.

Lemma shown_leave active during : keeps same (disconnectIfActive bannerText active during).
Proof. destruct active; unfold disconnectIfActive; auto with act. Qed.

Lemma shown_join cfg during ok err : keeps same (join cfg bannerText during ok err).
Proof.
  apply keeps_read. intros w Hw. cbv zeta. destruct (_ || _); [done|]. destruct (parseAddress _ _).
  unfold rememberHost, loadRecentHosts. refine (keeps_seq same _ _ _ _ w Hw); [auto with act|].
  destruct ok; auto 8 with act.
Qed.

Lemma shown_widget f : keeps same (onWidget f).
Proof.
  intros w Hw. unfold onWidget. refine (keeps_seq same _ _ (shown_video f) _ w Hw). apply keeps_for. intros s.
  destruct s; auto with act; apply keeps_read; intros w' Hw'; [by apply shown_fullscreen|]. destruct (cw_fullscreen w'); [by apply shown_fullscreen|done].
Qed.

Lemma shown_step cfg e : ownEvent e = true -> keeps same (winStep cfg bannerText e).
Proof.
  intros He. apply keeps_read. intros w Hw. destruct e; try done; cbn [ownEvent] in He.
  - destruct (_ && _); [by apply shown_join|done].
  - destruct (_ && _); [|done]. by apply (shown_leave true during).
  - destruct (_ && _); [|done]. exact (keeps_seq same _ _ (shown_leave active during) (keeps_emit _ _) w Hw).
  - by apply shown_slot.
  - assert (G : forall c : bool, cw_shown (snd ((if c then toggleFullscreen else skip) w)) = b); [|apply G].
    intros []; [by apply shown_fullscreen|done].
  - destruct (_ && _); [by apply shown_widget|done].
  - destruct (_ && _); [by apply shown_widget|done].
Qed.

End Shown.

(** ** Requests to go back *)

Definition notBack (o : WinOut) : Prop := o <> WoBackToHome.
Definition hostNotBack (o : HostWinOut) : Prop := o <> HoBackToHome.

Lemma no_back os : Forall notBack os -> existsb (fun o => match o with WoBackToHome => true | _ => false end) os = false.
Proof. induction 1 as [|o os Ho _ IH]; [done|]. cbn. rewrite IH. by destruct o. Qed.
Lemma no_host_back os : Forall hostNotBack os -> existsb (fun o => match o with HoBackToHome => true | _ => false end) os = false.
Proof. induction 1 as [|o os Ho _ IH]; [done|]. cbn. rewrite IH. by destruct o. Qed.

Hint Extern 1 (emits _ (emit _)) => (apply emits_emit; repeat constructor; done) : act.
Hint Extern 2 (emits _ (readA _)) => (apply emits_read; intros ?) : act.
Hint Extern 1 (emits _ (if ?b then _ else _)) => (destruct b) : act.

Lemma video_notBack f : emits notBack (callVideo f).
Proof. intros w. unfold callVideo. destruct (f (cw_video w)) as [os v]. cbn [fst]. induction os; by constructor. Qed.
Hint Resolve video_notBack : act.

Lemma streaming_notBack on : emits notBack (setStreamingUi bannerText on).
Proof. unfold setStreamingUi, setVideoFullscreen. destruct on; auto 20 with act. Qed.
Hint Resolve streaming_notBack : act.

Lemma slot_notBack s : emits notBack (slot bannerText s).
Proof.
  destruct s as [ui [|line|reason|message|h g i]]; unfold slot, ClientWindow.onStateChanged, updateQualityBanner, onDisconnected,
    ClientWindow.showError, onConnectedToHost; cbn [fst snd]; auto 12 with act.
Qed.

(** A page that is not on screen does not ask to go back. *)
Lemma hidden_notBack cfg e w : ownEvent e = true -> cw_shown w = false -> Forall notBack (fst (winStep cfg bannerText e w)).
Proof.
  intros He Hw. unfold winStep, readA. rewrite Hw. cbn [andb]. destruct e; try done; try by apply Forall_nil_2.
  by apply slot_notBack.
Qed.

Lemma error_notBack now message : emits hostNotBack (showError paragraphs now message).
Proof. unfold showError, appendLog. apply emits_read. intros w. cbv zeta. auto 20 with act. Qed.
Hint Resolve error_notBack : act.

Lemma hostSlot_notBack s : emits hostNotBack (hostSlot paragraphs s).
Proof.
  destruct s as [v [| |id name|message|message]]; unfold hostSlot, HostWindow.onStateChanged, refreshPlayerTable, onApprovalRequest;
    cbn [fst snd]; auto 20 with act.
Qed.

Lemma closed_notBack k e : emits hostNotBack (closeDialog k e).
Proof.
  intros w. unfold closeDialog. destruct (hw_approvals w !! k) as [[client name [?|]]|]; try by apply Forall_nil_2.
  assert (U : forall ds, Forall hostNotBack (fst (unwindApprovals ds))).
  { intros ds. induction ds as [|[c nm [?|]] ds IH]; cbn [unwindApprovals]; try by apply Forall_nil_2.
    destruct (unwindApprovals ds). by constructor. }
  specialize (U (<[k:=mkAp client name (Some (execResult e))]> (hw_approvals w))). by destruct (unwindApprovals _).
Qed.

Lemma timeout_notBack k : emits hostNotBack (approvalTimeout k).
Proof.
  apply emits_read. intros w. destruct (hw_approvals w !! k) as [[client name [?|]]|]; auto with act. apply closed_notBack.
Qed.

Lemma host_notBack e : byUser e = false -> emits hostNotBack (hostWinStep paragraphs e).
Proof.
  intros He. apply emits_read. intros w. destruct e; try done.
  - apply hostSlot_notBack.
  - apply emits_modify.
  - apply emits_modify.
  - apply emits_modify.
  - unfold boxDestroyed. auto with act.
  - apply closed_notBack.
  - apply timeout_notBack.
Qed.

(** ** The window *)

(** The client's page is in order and knows whether it is on screen. *)
Definition main_ok (m : MainWindow) : Prop :=
  ClientWindow.window_ok (mw_client m) /\ cw_shown (mw_client m) = bool_decide (mw_page m = ClientPage).

Lemma page_ok_show p m : main_ok m -> main_ok (snd (showPage p m)).
Proof. intros [[] _]. by split. Qed.

Lemma page_ok_host a m : main_ok m -> main_ok (snd (onHost a m)).
Proof.
  intros Hm. unfold onHost. destruct (a (mw_host m)) as [os h]. autorewrite with fin.
  destruct (existsb _ _); [by apply page_ok_show|by apply Hm].
Qed.

Lemma page_ok_client (a : WinAct) m :
  keeps ClientWindow.window_ok a -> (forall b, keeps (fun w => cw_shown w = b) a) -> main_ok m -> main_ok (snd (onClient a m)).
Proof.
  intros Ha Hs [Hw Hp]. specialize (Ha _ Hw). specialize (Hs _ _ Hp). unfold onClient. destruct (a (mw_client m)) as [os c].
  cbn [snd] in *. autorewrite with fin. assert (Hm : main_ok (mkMain (mw_page m) (mw_host m) c (mw_settings m) (mw_config m))) by by split.
  destruct (existsb _ _); [by apply page_ok_show|by apply Hm].
Qed.

Lemma main_step_ok e : keeps main_ok (mainStep bannerText paragraphs dump e).
Proof.
  intros m Hm. destruct e; cbn [mainStep]; unfold onPage; rewrite ?fin_read; try (case_decide; [|done]); try done.
  - by apply page_ok_show.
  - by apply page_ok_show.
  - by apply page_ok_show.
  - destruct (negb _); [done|]. destruct (byUser e); [|by apply page_ok_host].
    rewrite fin_read. case_decide; [by apply page_ok_host|done].
  - destruct (ownEvent e) eqn:He; [|done]. apply page_ok_client; [|intros b; by apply shown_step|done]. apply keeps_step.
  - rewrite fin_read. destruct (SettingsWindow.save dump dirsOk opened written _ _) as [[c r]|]; [|done]. by autorewrite with fin.
  - unfold closeEvent. rewrite fin_seq. apply page_ok_client; [apply keeps_disconnect|intros b; apply shown_leave|by apply page_ok_host].
Qed.

Lemma new_main_ok cfg windows outputs recents :
  stored_ok recents -> main_ok (newMainWindow cfg windows outputs recents).
Proof. intros Hr. split; [by apply page_built_ok|done]. Qed.

Lemma main_run_ok es m : main_ok m -> main_ok (snd (mainRun bannerText paragraphs dump es m)).
Proof. apply keeps_for, main_step_ok. Qed.

(** ** The settings page *)

Lemma stay_host a m : Forall hostNotBack (fst (a (mw_host m))) -> mw_page (snd (onHost a m)) = mw_page m.
Proof.
  intros Hn. unfold onHost. destruct (a (mw_host m)) as [os h]. cbn [fst] in Hn. autorewrite with fin.
  by rewrite no_host_back.
Qed.

Lemma stay_client (a : WinAct) m : Forall notBack (fst (a (mw_client m))) -> mw_page (snd (onClient a m)) = mw_page m.
Proof.
  intros Hn. unfold onClient. destruct (a (mw_client m)) as [os c]. cbn [fst] in Hn. autorewrite with fin. by rewrite no_back.
Qed.

Lemma stay_stop hosting during : emits hostNotBack (stopIfHosting paragraphs hosting during).
Proof.
  destruct hosting; unfold stopIfHosting; [|apply emits_skip]. apply emits_seq; [apply emits_emit; by repeat constructor|].
  apply emits_seq; [apply emits_for, hostSlot_notBack|]. unfold setHostingUi. auto with act.
Qed.

Lemma stay_disconnect active during : emits notBack (disconnectIfActive bannerText active during).
Proof.
  destruct active; unfold disconnectIfActive; [|apply emits_skip]. apply emits_seq; [apply emits_emit; by repeat constructor|].
  apply emits_seq; [apply emits_for, slot_notBack|apply streaming_notBack].
Qed.

Lemma dead_end_step e m : main_ok m -> mw_page m = SettingsPage -> mw_page (snd (mainStep bannerText paragraphs dump e m)) = SettingsPage.
Proof.
  intros [_ Hs] Hp. rewrite Hp in Hs. destruct e; cbn [mainStep]; unfold onPage; rewrite ?fin_read, ?Hp; try done; try (rewrite decide_True by done); try done.
  - destruct (negb _); [done|]. destruct (byUser e) eqn:He; [by rewrite fin_read, Hp|].
    rewrite <- Hp. apply stay_host. by apply host_notBack.
  - destruct (ownEvent e) eqn:He; [|done]. rewrite <- Hp. apply stay_client. by apply hidden_notBack.
  - rewrite fin_read. destruct (SettingsWindow.save dump dirsOk opened written _ _) as [[c r]|]; [|done].
    by autorewrite with fin.
  - unfold closeEvent. rewrite fin_seq. rewrite <- Hp, stay_client by apply stay_disconnect. by apply stay_host, stay_stop.
Qed.

(** The settings page is a dead end: its back button is connected to nothing, so that
    no event of any kind brings another page. *)
Theorem settings_page_is_a_dead_end cfg windows outputs recents es1 es2 :
  stored_ok recents ->
  let m := snd (mainRun bannerText paragraphs dump es1 (newMainWindow cfg windows outputs recents)) in
  mw_page m = SettingsPage -> mw_page (snd (mainRun bannerText paragraphs dump es2 m)) = SettingsPage.
Proof.
  intros Hr m. assert (Hm : main_ok m) by by apply main_run_ok, new_main_ok. clearbody m. intros Hp.
  unfold mainRun. assert (K : keeps (fun m => main_ok m /\ mw_page m = SettingsPage) (forA es2 (mainStep bannerText paragraphs dump)));
    [|by apply K].
  apply keeps_for. intros e m' [H1 H2]. split; [by apply main_step_ok|by apply dead_end_step].
Qed.

(** The pages work together: in every run of the main window the client's page
    is in order, it knows whether it is the page on screen, and closing the main
    window stops what its pages still run: a host page whose coordinator hosts and a
    client page whose coordinator is active. *)
Theorem pages_work_together cfg windows outputs recents es hosting hostDuring active clientDuring :
  stored_ok recents ->
  let m := snd (mainRun bannerText paragraphs dump es (newMainWindow cfg windows outputs recents)) in
  main_ok m /\
  let os := fst (mainStep bannerText paragraphs dump (MwClose hosting hostDuring active clientDuring) m) in
  (hosting = true -> MoHost HoStop ∈ os) /\ (active = true -> MoClient WoStop ∈ os).
Proof.
  intros Hr m. assert (Hm : main_ok m) by by apply main_run_ok, new_main_ok. clearbody m. split; [done|].
  cbn [mainStep]. unfold closeEvent. rewrite out_seq. split; intros ->.
  - apply elem_of_app. left. unfold onHost, stopIfHosting. destruct ((_ ;+ _) (mw_host m)) as [os h] eqn:E.
    assert (Ho : HoStop ∈ os).
    { apply (f_equal fst) in E. rewrite out_seq, out_emit in E. cbn [fst] in E. rewrite <- E. apply list_elem_of_here. }
    rewrite out_seq, out_emit. apply elem_of_app. left. by apply list_elem_of_fmap_2.
  - apply elem_of_app. right. unfold onClient, disconnectIfActive. destruct ((_ ;+ _) _) as [os c] eqn:E.
    assert (Ho : WoStop ∈ os).
    { apply (f_equal fst) in E. rewrite out_seq, out_emit in E. cbn [fst] in E. rewrite <- E. apply list_elem_of_here. }
    rewrite out_seq, out_emit. apply elem_of_app. left. by apply list_elem_of_fmap_2.
Qed.

End Props.

(** * Runs *)

Local Abbreviation newSample := (@newMainWindow AsciiQt.qt Config.defaultConfig [4660] [0] []).
Local Abbreviation sampleMain es := (@mainRun AsciiQt.qt qtWidgetKeys plainBanner (fun t => [t]) (fun _ => None) es newSample).

Definition joinsFromHome : list MainEvent :=
  [MwJoinCard; MwClient (WeEdit sampleForm); MwClient (WeJoin [] true []); MwClient WeToggle].

Lemma pages_work_together_witness :
  main_ok (snd (sampleMain joinsFromHome)) /\
  MoClient WoStop ∈ fst (@mainStep AsciiQt.qt qtWidgetKeys plainBanner (fun t => [t]) (fun _ => None) (MwClose false [] true []) (snd (sampleMain joinsFromHome))).
Proof.
  assert (Hs : stored_ok []) by by_decision.
  destruct (@pages_work_together AsciiQt.qt qtWidgetKeys plainBanner (fun t => [t]) (fun _ => None) Config.defaultConfig [4660] [0] [] joinsFromHome
    false [] true [] Hs) as [Hm [_ Hc]].
  split; [exact Hm|exact (Hc eq_refl)].
Defined.

Lemma settings_page_is_a_dead_end_witness :
  mw_page (snd (sampleMain [MwSettingsButton; MwSettingsBack])) = SettingsPage.
Proof.
  assert (Hs : stored_ok []) by by_decision.
  exact (@settings_page_is_a_dead_end AsciiQt.qt qtWidgetKeys plainBanner (fun t => [t]) (fun _ => None) Config.defaultConfig [4660] [0] []
    [MwSettingsButton] [MwSettingsBack] Hs eq_refl).
Defined.

(** Leaving the join form in full screen leaves the window in full screen, on a page
    where nothing ends it. *)
Theorem full_screen_outlives_its_page :
  let m := snd (sampleMain [MwJoinCard; MwClient WeToggle; MwClient (WeBack false [])]) in
  mw_page m = Home /\ cw_fullscreen (mw_client m) = true /\
  fst (@mainStep AsciiQt.qt qtWidgetKeys plainBanner (fun t => [t]) (fun _ => None) (MwClient WeToggle) m) = [].
Proof. vm_compute. done. Qed.
