(* ===== verification/Startup.v ===== *)
(** app/main.cpp: the program from its start, with the log, the configuration and the
    main window, to its end; what a later start finds of what was saved. *)

From S2P Require Import Prelude Types Double OrderedMap Json Config Paths Qt ClientSession VideoWidget ClientCoordinator HostCoordinator SettingsWindow ClientWindow HostWindow MainWindow.
From S2P Require Log VirtualGamepad.

Open Scope act_scope.
Open Scope Z_scope.

(** * Data *)

(** What the machine holds: the known folders and the environment, the files, the
    windows and monitors, the recent addresses of the settings store. *)
Record Machine := mkMachine {
  ma_roaming : bytes; ma_appData : option bytes; ma_local : bytes; ma_localAppData : option bytes;
  ma_files : bytes -> option bytes; ma_windows : list Z; ma_outputs : list Z; ma_recents : list bytes }.

(** What opening the log meets: whether its directory and its file could be made, the
    clock, the old files, and the parts of a line. *)
Record LogIo := mkLogIo {
  li_dirsOk : bool; li_reason : bytes; li_opened : bool; li_now : Z; li_entries : list Log.Entry;
  li_date : bytes; li_stamp : bytes; li_tag : bytes }.

Definition settingsFile (mc : Machine) : bytes := configFilePath (ma_roaming mc) (ma_appData mc).

Section Start.
Context `{Qt} `{WidgetKeys} (bannerText : Banner -> bytes) (paragraphs : bytes -> list bytes)
  (parse : bytes -> option json) (dump : json -> option bytes).

(** [main] up to [window.show()]: the directories made for the log, the lines
    written, the sink and the window. *)
Definition started (mc : Machine) (io : LogIo) : list bytes * list Log.LogOut * Log.Sink * MainWindow :=
  let '(made, dir) := logDir (ma_local mc) (ma_localAppData mc) in
  let info := Log.write Log.Info (li_stamp io) (li_tag io) in
  let '(l1, sink) := Log.init (li_dirsOk io) (li_reason io) (li_opened io) dir (li_now io) (li_entries io) (li_date io) (li_stamp io)
    (li_tag io) Log.newSink in
  let l2 := info (str "RemotePlay " ++ kAppVersion ++ str " starting") sink in
  let config := load parse (ma_files mc (settingsFile mc)) in
  let l3 := info (str "Configuration loaded from " ++ settingsFile mc) sink in
  (made, l1 ++ l2 ++ l3, sink, newMainWindow config (ma_windows mc) (ma_outputs mc) (ma_recents mc)).

(** The whole of [main] on the events of a run. *)
Definition main (mc : Machine) (io : LogIo) (es : list MainEvent) (code : Z) : list Log.LogOut * list MainOut * MainWindow :=
  let '(_, logs, sink, m) := started mc io in
  let '(os, m) := mainRun bannerText paragraphs dump es m in
  (logs ++ Log.write Log.Info (li_stamp io) (li_tag io) (str "RemotePlay exiting with code " ++ VirtualGamepad.print_long code) sink, os, m).

(** What a save leaves in the file; a failed write leaves some part of the text. *)
Definition fileAfter (part : bytes) (old : option bytes) (r : SaveResult) : option bytes :=
  match r with
  | SaveFailed => old
  | SaveThrows => Some []
  | Saved true text => Some text
  | Saved false _ => Some part
  end.

(** The machine after the saves of a run. *)
Definition machineAfter (part : bytes) (os : list MainOut) (mc : Machine) : Machine :=
  let path := settingsFile mc in
  let contents := foldl (fun old o => match o with MoSaved r => fileAfter part old r | _ => old end) (ma_files mc path) os in
  mkMachine (ma_roaming mc) (ma_appData mc) (ma_local mc) (ma_localAppData mc)
    (fun f => if bool_decide (f = path) then contents else ma_files mc f) (ma_windows mc) (ma_outputs mc) (ma_recents mc).

(** * Lemmas *)

(** The configuration is within its ranges, and the settings page within its
    widgets'. *)
Definition settings_ok (m : MainWindow) : Prop :=
  config_ok (mw_config m) /\ SettingsWindow.window_ok (mw_settings m).

(** What the user makes of the page are values its widgets can hold. *)
Definition editable (e : MainEvent) : Prop := match e with MwEditSettings s => SettingsWindow.window_ok s | _ => True end.

Lemma settings_show p m : settings_ok m -> settings_ok (snd (showPage p m)).
Proof. done. Qed.

Lemma settings_host a m : settings_ok m -> settings_ok (snd (onHost a m)).
Proof. intros Hm. unfold onHost. destruct (a (mw_host m)) as [os h]. autorewrite with fin. by destruct (existsb _ _). Qed.

Lemma settings_client a m : settings_ok m -> settings_ok (snd (onClient a m)).
Proof. intros Hm. unfold onClient. destruct (a (mw_client m)) as [os c]. autorewrite with fin. by destruct (existsb _ _). Qed.

Lemma settings_step e : editable e -> keeps settings_ok (mainStep bannerText paragraphs dump e).
Proof.
  intros He m Hm. destruct e; cbn [mainStep]; unfold onPage; rewrite ?fin_read; try (case_decide; [|done]); try done.
  - destruct (negb _); [done|]. destruct (byUser e); [|by apply settings_host]. rewrite fin_read. case_decide; [by apply settings_host|done].
  - destruct (ownEvent e); [by apply settings_client|done].
  - by split; [apply Hm|].
  - rewrite fin_read. unfold SettingsWindow.save. destruct (saved_chosen (mw_config m) (mw_settings m) (proj2 Hm)) as (r & f & k & -> & Hok & _).
    cbn [mbind option_bind]. autorewrite with fin. by split; [|apply Hm].
  - unfold closeEvent. rewrite fin_seq. by apply settings_client, settings_host.
Qed.

Lemma settings_run es : Forall editable es -> keeps settings_ok (mainRun bannerText paragraphs dump es).
Proof. induction 1 as [|e es He _ IH]; [apply keeps_skip|]. apply keeps_seq; [by apply settings_step|done]. Qed.

Lemma started_config mc io : mw_config (snd (started mc io)) = load parse (ma_files mc (settingsFile mc)).
Proof. unfold started. destruct (logDir _ _) as [made dir]. by destruct (Log.init _ _ _ _ _ _ _ _ _ _) as [l1 sink]. Qed.

Lemma started_settings mc io : settings_ok (snd (started mc io)).
Proof.
  unfold started. destruct (logDir _ _) as [made dir]. destruct (Log.init _ _ _ _ _ _ _ _ _ _) as [l1 sink]. cbn [snd].
  split; [apply load_in_range|]. apply loaded_ok, built_ok.
Qed.

Lemma codecAt_known i : codecAt i ∈ [H264; Hevc; Av1].
Proof. unfold codecAt. repeat (destruct (_ =? _)); set_solver. Qed.

Lemma storedName_short text : (length (storedName text) <= 32)%nat.
Proof. unfold storedName. cbv zeta. destruct (Nat.ltb_spec 32 (length (q_trimmed text))); [rewrite length_take|]; lia. Qed.

(** * Properties *)

(** Whatever the settings file holds, the program starts with a configuration
    within its ranges, and keeps one: through every run, the configuration its pages
    share is valid and the settings page shows values its widgets can hold. *)
Theorem configuration_stays_valid mc io es :
  Forall editable es -> settings_ok (snd (mainRun bannerText paragraphs dump es (snd (started mc io)))).
Proof. intros He. by apply settings_run, started_settings. Qed.

(** C40: settings survive a restart: in any run, after the settings page has written
    the file, a program started anew, whatever else its log or its devices meet, has
    exactly the configuration that was saved. Of the JSON library: a document it
    prints it reads back, with the non-negative integers unsigned. *)
Theorem settings_survive_restart `{!JsonLaws parse dump} mc io es before m dirsOk opened written os m' part text io' :
  Forall editable es ->
  mainRun bannerText paragraphs dump es (snd (started mc io)) = (before, m) ->
  mainStep bannerText paragraphs dump (MwSave dirsOk opened written) m = (os, m') ->
  MoSaved (Saved true text) ∈ os ->
  mw_config (snd (started (machineAfter part os mc) io')) = mw_config m'.
Proof.
  intros He Hrun. assert (Hm : settings_ok m).
  { change m with (snd (before, m)). rewrite <- Hrun. by apply settings_run, started_settings. }
  cbn [mainStep]. unfold onPage, readA. case_decide; [|by intros [= <- <-] ?%not_elem_of_nil].
  unfold SettingsWindow.save. destruct (saved_chosen (mw_config m) (mw_settings m) (proj2 Hm)) as (r & f & k & -> & Hok & _).
  cbn [mbind option_bind]. set (c := chosen _ _ _ _ _) in *.
  change ((modify _ ;+ emit ?o) m) with (o, mkMain (mw_page m) (mw_host m) (mw_client m) (mw_settings m) c).
  intros [= <- <-] [= Hs]%list_elem_of_singleton. rewrite started_config. unfold machineAfter. cbn [ma_files foldl].
  rewrite <- Hs. cbn [fileAfter]. rewrite bool_decide_eq_true_2 by done. cbn [mw_config].
  destruct dirsOk, opened; try done. unfold Config.save in Hs. cbn [negb] in Hs.
  destruct (dump (toJson c)) as [t|] eqn:Et; [|done]. injection Hs as <- ->.
  eapply saved_text_loads; [done| |exact Et]. split; [done|]. split; [apply codecAt_known|apply storedName_short].
Qed.

End Start.

(** * Runs *)

Local Abbreviation sampleMachine := (mkMachine (str "C:\Users\ada\AppData\Roaming") None (str "C:\Users\ada\AppData\Local") None (fun _ => None) [4660] [0] []).
Local Abbreviation sampleIo := (mkLogIo true [] true 0 [] (str "2025-01-01") (str "2025-01-01 10:00:00.000") (str "1")).
Local Abbreviation openPage := (@mainRun AsciiQt.qt qtWidgetKeys plainBanner (fun t => [t]) Tagged.dump [MwSettingsButton] (snd (@started AsciiQt.qt Tagged.parse sampleMachine sampleIo))).
Local Abbreviation editedPage := (@mainRun AsciiQt.qt qtWidgetKeys plainBanner (fun t => [t]) Tagged.dump
  [MwSettingsButton; MwEditSettings (mkSw 1 1 2 20 0 true false true true true 20 60 50000 (str "ada"))]
  (snd (@started AsciiQt.qt Tagged.parse sampleMachine sampleIo))).
Local Abbreviation savePage := (@mainStep AsciiQt.qt qtWidgetKeys plainBanner (fun t => [t]) Tagged.dump (MwSave true true true) (snd editedPage)).

Local Abbreviation writtenText := (match fst savePage with [MoSaved (Saved true t)] => t | _ => [] end).

Lemma settings_survive_restart_witness :
  let m' := snd savePage in
  mw_config (snd (@started AsciiQt.qt Tagged.parse (machineAfter [] (fst savePage) sampleMachine) sampleIo)) = mw_config m' /\
  v_codec (cfg_video (mw_config m')) = Hevc /\ n_listenPort (cfg_network (mw_config m')) = 50000.
Proof.
  assert (He : Forall editable [MwSettingsButton; MwEditSettings (mkSw 1 1 2 20 0 true false true true true 20 60 50000 (str "ada"))]).
  { repeat constructor; cbn; lia. }
  assert (Hs : fst savePage = [MoSaved (Saved true writtenText)]) by (vm_compute; reflexivity).
  split; [|split; vm_compute; reflexivity].
  apply (settings_survive_restart (H := AsciiQt.qt) (H0 := qtWidgetKeys) plainBanner (fun t => [t]) Tagged.parse Tagged.dump
    (JsonLaws0 := Tagged.laws) sampleMachine sampleIo _ (fst editedPage) (snd editedPage) true true true (fst savePage) (snd savePage) []
    writtenText sampleIo He).
  - apply surjective_pairing.
  - apply surjective_pairing.
  - exact (eq_ind_r (fun os => MoSaved (Saved true writtenText) ∈ os) (list_elem_of_here _ _) Hs).
Defined.

Lemma configuration_stays_valid_witness : settings_ok (snd openPage).
Proof. apply (@configuration_stays_valid AsciiQt.qt); by repeat constructor. Defined.

(** The lines of a start that finds its log directory. *)
Example start_is_logged :
  let '(made, logs, _, _) := @started AsciiQt.qt Tagged.parse sampleMachine sampleIo in
  made = [str "C:\Users\ada\AppData\Local\RemotePlay\Logs"] /\
  length logs = 5%nat /\
  Log.ToFile (str "C:\Users\ada\AppData\Local\RemotePlay\Logs\remoteplay_2025-01-01.log")
    (Log.lineOf Log.Info (str "2025-01-01 10:00:00.000") (str "1")
      (str "Configuration loaded from C:\Users\ada\AppData\Roaming\RemotePlay\config.json")) ∈ logs.
Proof. vm_compute. split_and!; [done|done|]. set_solver. Qed.
