(* ===== verification/Tests.v ===== *)
(** The repository's own unit tests (src/tests), replayed on the models: each example
    carries the name of the test it follows, and checks what its CHECK lines check.
    Tests of live sockets, of the system's cryptography and of the server are left
    out. *)

From S2P Require Import Prelude Types Double Packet Protocol UdpHeader SequenceTracker Reassembler JitterBuffer AdaptiveBitrate SessionCodes.

Import ByteWriter ByteReader.

Open Scope Z_scope.

(** * tests/test_packet.cpp *)

Example test_frame_roundtrip :
  let frame := makeFrame4 0x1234 0xAB (Some [1; 2; 3; 4]) 4 in
  length frame = (kFrameHeaderSize + 4)%nat /\ drop kFrameHeaderSize frame = [1; 2; 3; 4] /\
  parseFrameHeader frame = Some (mkFrameHeader kFrameMagic kFrameVersion 0x1234 0xAB 4).
Proof. vm_compute. done. Qed.

Example test_frame_empty_payload :
  let frame := makeFrame 1 [] in
  length frame = kFrameHeaderSize /\ option_map fh_payloadSize (parseFrameHeader frame) = Some 0.
Proof. vm_compute. done. Qed.

Example test_header_rejects :
  let frame := makeFrame 1 [] in
  parseFrameHeader (<[0%nat := 0x99]> frame) = None /\
  parseFrameHeader (<[2%nat := 9]> frame) = None /\
  parseFrameHeader (<[6%nat := 0xFF]> (<[7%nat := 0xFF]> (<[8%nat := 0]> (<[9%nat := 1]> frame)))) = None /\
  parseFrameHeader [0x50; 0x52; 1; 0] = None /\ parseFrameHeader [] = None.
Proof. vm_compute. done. Qed.

Example test_byte_writer_reader_roundtrip :
  let w := w_bytes [1; 2; 3] (w_str (str "hello") (w_bool true (w_i32 (-1234567) (w_u64 0x0123456789ABCDEF
             (w_u32 0x12345678 (w_u16 0xCDEF (w_u8 0xAB []))))))) in
  let m : rd _ := a ← r_u8; b ← r_u16; c ← r_u32; d ← r_u64; e ← r_i32; f ← r_bool; s ← r_str; t ← r_bytes 3 [0; 0; 0];
    ok ← get_ok; n ← get_remaining; mret (a, b, c, d, e, f, s, t, ok, n) in
  fst (m (ByteReader.init w)) =
    (0xAB, 0xCDEF, 0x12345678, 0x0123456789ABCDEF, -1234567, true, str "hello", [1; 2; 3], true, 0%nat).
Proof. vm_compute. reflexivity. Qed.

Example test_reader_underflow_marks_failed :
  let m : rd _ := a ← r_u8; b ← r_u32; ok ← get_ok; c ← r_u16; mret (ok, c) in
  fst (m (ByteReader.init [1; 2])) = (false, 0).
Proof. vm_compute. reflexivity. Qed.

Example test_reader_bad_string_length_marks_failed :
  let m : rd _ := s ← r_str; ok ← get_ok; mret (s, ok) in
  fst (m (ByteReader.init [0xFF; 0xFF])) = ([], false).
Proof. vm_compute. reflexivity. Qed.

Example test_writer_caps_string_length :
  let m : rd _ := s ← r_str; ok ← get_ok; mret (length s, ok) in
  fst (m (ByteReader.init (w_str (replicate 5000 120) []))) = (1024%nat, true).
Proof. vm_compute. reflexivity. Qed.

(** * tests/test_protocol.cpp *)

(** [roundTrip]. *)
Definition roundTrip (i : Id) (b : Body) : bool :=
  match decodeMessage (idCode i) (encodeMessage (mkEnvelope i b)) with
  | Some e => bool_decide (env_type e = i) && bool_decide (encodeMessage e = encodeMessage (mkEnvelope i b)) &&
      bool_decide (bodyId (env_body e) = i)
  | None => false
  end.

Definition testCaps : Body :=
  BHostCapabilities (mkHostCapabilities (str "Mahdyar's PC") (str "Rayman Legends") 0 1920 1080 60 8000 [Hevc; H264]).
Definition testHello : Body := BClientHello (mkClientHello (str "Mahdyar") (str "ABC7-K92P") (str "0.1.0")).

Example test_message_roundtrips :
  forallb (fun x => roundTrip (fst x) (snd x))
    [(IdClientHello, testHello); (IdHostReject, BHostReject (mkHostReject 2 (str "rejected by host"))); (IdHostApproved, BHostApproved);
     (IdHostCapabilities, testCaps); (IdClientCapabilities, BClientCapabilities (mkClientCapabilities [H264]));
     (IdNegotiationResult, BNegotiationResult (mkNegotiationResult true 1 2560 1440 120 12000 (str "HEVC")));
     (IdPing, BPing (mkPing 1234567890)); (IdPong, BPong (mkPong 1234567890));
     (IdInputPermission, BInputPermission (mkInputPermission true false false true));
     (IdKick, BKick (mkKick (str "Kicked by host"))); (IdBye, BBye (mkBye (str "Disconnected by user")))] = true.
Proof. vm_compute. reflexivity. Qed.

Example test_unknown_id_rejected :
  decodeMessage 0xFF [0; 0; 0; 0] = None /\ knownId 0xFF = false /\ knownId (idCode IdClientHello) = true.
Proof. vm_compute. done. Qed.

Example test_truncated_payload_rejected :
  let payload := encodeMessage (mkEnvelope IdClientHello testHello) in
  decodeMessage (idCode IdClientHello) (take (length payload - 1) payload) = None.
Proof. vm_compute. reflexivity. Qed.

Example test_trailing_garbage_rejected :
  decodeMessage (idCode IdPing) (encodeMessage (mkEnvelope IdPing (BPing (mkPing 42))) ++ [0]) = None.
Proof. vm_compute. reflexivity. Qed.

Example test_codec_negotiation_prefers_host_order :
  negotiateCodec [Hevc; H264] [H264; Hevc] = Some Hevc /\ negotiateCodec [Hevc; H264] [H264] = Some H264 /\
  negotiateCodec [Av1] [H264] = None /\ negotiateCodec [] [H264] = None.
Proof. vm_compute. done. Qed.

(** * tests/test_session_codes.cpp *)

Example test_alphabet_has_no_ambiguous_characters :
  Z.of_nat (length kCodeAlphabet) = kCodeAlphabetSize /\ forallb (fun c => negb (inAlphabet c)) (str "IO01") = true.
Proof. vm_compute. done. Qed.

Example test_normalization_accepts_user_typos :
  forallb (fun s => bool_decide (normalizeSessionCode s = Some (str "ABC7-K92P")))
    [str "abc7-k92p"; str "  ABC7K92P "; str "ABC7 K92P"; str "abc7 k92p"; str "ABC7-K92P"] = true.
Proof. vm_compute. reflexivity. Qed.

Example test_normalization_rejects_bad_input :
  forallb (fun s => bool_decide (normalizeSessionCode s = None))
    [str "ABC7-K92"; str "ABC7-K92PP"; str "ABCI-K92P"; str "ABO7-K92P"; str "ABC0-K92P"; str "ABC1-K92P"; []; str "--------"] = true.
Proof. vm_compute. reflexivity. Qed.

Example test_verify :
  verifySessionCode (str "ABC7-K92P") (str "ABC7-K92P") = true /\ verifySessionCode (str "abc7 k92p") (str "ABC7-K92P") = true /\
  verifySessionCode (str "ABC7-K92O") (str "ABC7-K92P") = false /\ verifySessionCode (str "ABC7-K92P") (str "AAAA-AAAA") = false /\
  verifySessionCode (str "GARBAGE!!") (str "ABC7-K92P") = false.
Proof. vm_compute. done. Qed.

Example test_constant_time_equal_basics :
  constantTimeEqual (str "ABC7-K92P") (str "ABC7-K92P") = true /\ constantTimeEqual (str "ABC7-K92P") (str "ABC7-K92O") = false /\
  constantTimeEqual (str "ABC7-K92P") (str "ABC7-K92") = false /\ constantTimeEqual [] [] = true.
Proof. vm_compute. done. Qed.

(** * tests/test_udp.cpp *)

Definition testHeader : UdpHeader := mkUdpHeader kUdpMagic kUdpVersion 0 3 0xDEADBEEF 123456789 2 7 987654321 100.

Example test_udp_header_roundtrip :
  let buf := encodeUdpHeader testHeader (replicate kUdpHeaderSize 0) in
  let size := Z.of_nat kUdpHeaderSize + 100 in
  decodeUdpHeader buf size defaultUdpHeader = (true, testHeader) /\
  fst (decodeUdpHeader (<[0%nat := 0x11]> buf) size defaultUdpHeader) = false /\
  fst (decodeUdpHeader (<[2%nat := 2]> buf) size defaultUdpHeader) = false /\
  fst (decodeUdpHeader (replicate 10 0) 10 defaultUdpHeader) = false.
Proof. vm_compute. done. Qed.

Definition testPayload : bytes := (fun i => u8 (Z.of_nat i * 31 + 7)) <$> seq 0 5000.

(** Feeding the fragments in an order; which calls completed a frame, and the last
    completed one. *)
Fixpoint feedOrder (order : list Z) (r : FragmentReassembler) (last : option AssembledFrame) :
    option (list bool * option AssembledFrame * FragmentReassembler) :=
  match order with
  | [] => Some ([], last, r)
  | i :: order =>
      let off := Z.to_nat i * kMaxUdpPayload in
      let n := (kMaxUdpPayload `min` (5000 - off))%nat in
      match feed (mkUdpHeader kUdpMagic kUdpVersion 0 3 42 100 i 5 555 (Z.of_nat n)) (drop off testPayload) r with
      | FedUB _ => None
      | FedOk out r =>
          '(cs, last, r) ← feedOrder order r (match out with Some f => Some f | None => last end);
          Some (bool_decide (is_Some out) :: cs, last, r)
      end
  end%nat.

Definition testFrame : AssembledFrame := mkAssembledFrame 0 42 100 555 true testPayload.

Example test_udp_fragment_reassembly :
  fragmentCountFor 5000 = 5 /\
  (fst <$> feedOrder [0; 1; 2; 3; 4] (newReassembler UdpVideo) None) = Some ([false; false; false; false; true], Some testFrame) /\
  (fst <$> feedOrder [2; 0; 4; 1; 3; 3] (newReassembler UdpVideo) None) =
    Some ([false; false; false; false; true; false], Some testFrame) /\
  match feed (mkUdpHeader kUdpMagic kUdpVersion 1 0 42 200 0 1 1 10) (seqZ 1 10) (newReassembler UdpVideo) with
  | FedOk (Some f) _ => af_data f = seqZ 1 10 /\ af_sequence f = 200
  | _ => False
  end.
Proof. vm_compute. done. Qed.

(** The results of tracking a list, and the tracker after it. *)
Fixpoint trackResults (qs : list Z) (t : SequenceTracker) : list Z * SequenceTracker :=
  match qs with
  | [] => ([], t)
  | q :: qs => let '(r, t) := track q t in let '(rs, t) := trackResults qs t in (r :: rs, t)
  end.

Example test_udp_sequence_tracker :
  let '(rs, t) := trackResults [10; 11; 11; 14; 12; 15] newTracker in
  rs = [0; 1; 1; 3; 0; 1] /\ st_lost t = 2 /\ st_duplicates t = 1 /\ st_late t = 1.
Proof. vm_compute. done. Qed.

Example test_udp_jitter_buffer :
  let frame q := mkAssembledFrame 0 0 q 0 false [q] in
  let t0 := 1000000000 in
  let b := push (frame 1) t0 (newJitterBuffer 20) in
  let '(o1, b) := pop (t0 + 5000000) b in
  let '(o2, b) := pop (t0 + 25000000) (push (frame 2) (t0 + 10000000) b) in
  let '(o3, b) := pop (t0 + 35000000) b in
  (o1, af_sequence <$> o2, af_sequence <$> o3) = ([], [1], [2]).
Proof. vm_compute. reflexivity. Qed.

(** * tests/test_abr.cpp *)

Definition goodSample : LinkSample := mkSample dzero dzero dzero dzero (dofZ 1).
Definition lossy (percent : Z) : LinkSample := mkSample dzero (dofZ percent) dzero dzero (dofZ 1).

Definition abrRun (ss : list LinkSample) (kbps : Z) : option (list (option Z) * AdaptiveBitrate) :=
  updates defaultThresholds ss (newAbr kbps 2000 30000).

(** A property of a run that is defined. *)
Definition abrCheck (P : list (option Z) -> AdaptiveBitrate -> bool) (r : option (list (option Z) * AdaptiveBitrate)) : bool :=
  match r with Some (rs, a) => P rs a | None => false end.

Definition changesOf (rs : list (option Z)) : list Z := omap id rs.

Example test_abr_holds_steady_on_healthy_link :
  abrCheck (fun rs a => forallb (fun v => 8000 <? v) (changesOf rs) && (8000 <=? ab_currentKbps a)) (abrRun (replicate 20 goodSample) 8000) = true.
Proof. vm_compute. reflexivity. Qed.

Fixpoint smallSteps (last : Z) (vs : list Z) : bool :=
  match vs with [] => true | v :: vs => (v <? last) && (last - v <=? 1450) && smallSteps v vs end.

Example test_abr_steps_down_smoothly_after_streak :
  abrCheck (fun rs a => smallSteps 8000 (changesOf rs) && (3 <=? length (changesOf rs))%nat && (2000 <=? ab_currentKbps a))
    (abrRun (replicate 60 (lossy 5)) 8000) = true.
Proof. vm_compute. reflexivity. Qed.

Example test_abr_no_oscillation :
  abrCheck (fun rs a => bool_decide (changesOf rs = []) && (ab_currentKbps a =? 8000))
    (abrRun (concat (replicate 40 [lossy 4; goodSample])) 8000) = true.
Proof. vm_compute. reflexivity. Qed.

Example test_abr_recovers_upward_slowly :
  abrCheck (fun rs a => (2 <=? length (changesOf rs))%nat && (4000 <? ab_currentKbps a) && (ab_currentKbps a <=? 30000))
    (abrRun (replicate 100 goodSample) 4000) = true.
Proof. vm_compute. reflexivity. Qed.

(** The indices of the changes are at least three apart. *)
Fixpoint spaced (since : nat) (rs : list (option Z)) : bool :=
  match rs with
  | [] => true
  | Some _ :: rs => (3 <=? since)%nat && spaced 1 rs
  | None :: rs => spaced (S since) rs
  end.

Example test_abr_cooldown_enforced :
  abrCheck (fun rs a => (3 <=? length (changesOf rs))%nat && (length (changesOf rs) <=? 14)%nat && spaced 3 rs)
    (abrRun (replicate 40 (lossy 9)) 10000) = true.
Proof. vm_compute. reflexivity. Qed.

Example test_abr_neutral_zone_resets_streaks :
  abrCheck (fun rs a => bool_decide (changesOf rs = []) && (ab_currentKbps a =? 8000))
    (abrRun (replicate 30 (mkSample (dofZ 100) (dofZ 1) dzero dzero (dofZ 1))) 8000) = true.
Proof. vm_compute. reflexivity. Qed.

Example test_abr_manual_override :
  let a := setManual defaultThresholds 5000 (newAbr 8000 2000 30000) in
  ab_currentKbps a = 5000 /\
  abrCheck (fun _ a => 5000 <? ab_currentKbps a) (updates defaultThresholds (replicate 12 goodSample) a) = true.
Proof. vm_compute. done. Qed.
