(* ===== verification/Handshake.v ===== *)
(** The host session and the client session together: the handshake that joins
    them, and a window in which their timers disagree.

    The two state machines run against each other through the wire encoding;
    the transport between them is the in-order delivery that TcpTransport
    provides. *)

From stdpp Require Import sorting.
From S2P Require Import Prelude Types Packet Protocol SessionCodes TcpTransport OrderedMap.
From S2P Require Import HostSession HostSessionSpec ClientSession ClientSessionSpec.

Open Scope act_scope.

(** * The pipe between the two *)

(** The frames a session hands to one of its connections, in order. *)
Definition hostFrames (conn : Z) (outs : list HostOut) : list (Z * bytes) :=
  omap (fun o => match o with HoSend c t p => if c =? conn then Some (t, p) else None | _ => None end) outs.

Definition clientFrames (conn : Z) (outs : list ClientOut) : list (Z * bytes) :=
  omap (fun o => match o with CoSend c t p => if c =? conn then Some (t, p) else None | _ => None end) outs.

Definition feedHost (now id : Z) (frames : list (Z * bytes)) : HAct :=
  forA frames (fun f => io (IoFrame now id (fst f) 0 (snd f))).

Definition feedClient (now conn : Z) (frames : list (Z * bytes)) : CAct :=
  forA frames (fun f => clientIo (CiFrame now conn (fst f) (snd f))).

Definition encoded (b : Body) : Z * bytes := (idCode (bodyId b), encodeMessage (mkEnvelope (bodyId b) b)).

(** * One frame at the client *)

Definition clientBody (now : Z) (b : Body) : CAct :=
  match b with
  | BHostApproved => skip
  | BHostCapabilities m => handleHostCapabilities m
  | BNegotiationResult m => handleNegotiation m
  | BInputPermission m => handleInputPermission m
  | _ => skip
  end.

Definition handshakeBody (b : Body) : bool :=
  match b with
  | BHostApproved | BHostCapabilities _ | BNegotiationResult _ | BInputPermission _ => true
  | _ => false
  end.

(** A live session on connection [cc]. *)
Definition clientLive (cc : Z) (c : ClientSession) : Prop :=
  cs_looping c = true /\ cs_stopping c = false /\ cs_connection c = Some cc /\ cc ∈ cs_open c.

Lemma client_receives now cc b c :
  clientLive cc c -> body_typed b -> handshakeBody b = true ->
  let r := clientIo (CiFrame now cc (fst (encoded b)) (snd (encoded b))) c in
  fst r = fst (clientBody now (canon b) (setActivity now c)) /\
  snd r = snd (clientBody now (canon b) (setActivity now c)).
Proof.
  intros (El & Es & Ec & Eo) Ht Hb. cbv zeta. unfold clientIo. rewrite fin_read, out_read, El, bool_decide_true by done.
  cbn [negb]. unfold handleFrame. rewrite fin_read, out_read, Es, fin_seq, out_seq, fin_modify, out_modify.
  unfold encoded. cbn [fst snd]. rewrite knownId_code, (decode_encode b Ht). cbn [negb env_body].
  destruct b; try discriminate; cbn [canon clientBody]; done.
Qed.

(** * The four stages *)

Section Stages.
Context (h : HostSession) (c : ClientSession) (id hconn cc : Z).

Definition helloOf (c : ClientSession) : Body :=
  BClientHello (mkClientHello (cp_clientName (cs_params c)) (cp_sessionCode (cs_params c)) kAppVersion).
Definition capsOf (c : ClientSession) : Body :=
  BClientCapabilities (mkClientCapabilities (cp_supportedCodecs (cs_params c))).
Definition permsOf (i : InputPermissions) : Body :=
  BInputPermission (mkInputPermission (perm_controller i) (perm_keyboard i) (perm_mouse i) (perm_vibration i)).

(** The client says hello as soon as it is connected. *)
Lemma stage_hello now :
  let r := handleConnected now cc c in
  clientFrames cc (fst r) = [encoded (helloOf c)] /\
  cs_params (snd r) = cs_params c /\
  (cs_looping c = true -> cs_stopping c = false -> clientLive cc (snd r)).
Proof.
  cbv zeta. split_and!.
  - unfold handleConnected. autorewrite with fin. cbn [app]. unfold sendHello. autorewrite with fin.
    unfold send. autorewrite with fin. cbn. by rewrite Z.eqb_refl.
  - done.
  - intros El Es. unfold clientLive. split_and!; try done. apply list_elem_of_here.
Qed.

(** The client answers the host's capabilities with its own. *)
Lemma stage_capabilities now m :
  clientLive cc c -> body_typed (BHostCapabilities m) ->
  let r := feedClient now cc [encoded BHostApproved; encoded (BHostCapabilities m)] c in
  clientFrames cc (fst r) = [encoded (capsOf c)] /\ clientLive cc (snd r) /\
  st_hostName (cs_status (snd r)) = cap (hc_hostName m) /\ st_gameName (cs_status (snd r)) = cap (hc_gameName m).
Proof.
  intros Hl Ht. cbv zeta. unfold feedClient. cbn [forA]. rewrite !out_seq, !fin_seq, out_skip, fin_skip, app_nil_r.
  destruct (client_receives now cc BHostApproved c Hl I eq_refl) as [-> ->]. cbn [canon clientBody].
  rewrite out_skip, fin_skip, app_nil_l. set (c1 := setActivity now c).
  assert (Hl1 : clientLive cc c1) by exact Hl.
  destruct (client_receives now cc (BHostCapabilities m) c1 Hl1 Ht eq_refl) as [-> ->]. cbn [canon clientBody].
  unfold handleHostCapabilities, updateStatus. rewrite out_seq, fin_seq, out_modify, fin_modify, out_read, fin_read.
  destruct Hl as (El & Es & Ec & Eo). unfold send. rewrite out_read, fin_read.
  cbn [cs_connection setStatus setActivity c1]. rewrite Ec. split; [|split; [exact (conj El (conj Es (conj Ec Eo)))|done]].
  autorewrite with fin. unfold updateStatus. autorewrite with fin. cbn. by rewrite Z.eqb_refl.
Qed.

(** The client adopts the host's decision and permissions. *)
Lemma stage_result now m i :
  clientLive cc c -> body_typed (BNegotiationResult m) -> nr_accepted m = true ->
  let c' := snd (feedClient now cc [encoded (BNegotiationResult m); encoded (permsOf i)] c) in
  adopted m c' /\ st_input (cs_status c') = i /\
  st_hostName (cs_status c') = st_hostName (cs_status c) /\ st_gameName (cs_status c') = st_gameName (cs_status c).
Proof.
  intros Hl Ht Ha. cbv zeta. unfold feedClient. cbn [forA]. rewrite !fin_seq, fin_skip.
  destruct (client_receives now cc (BNegotiationResult m) c Hl Ht eq_refl) as [_ ->]. cbn [canon clientBody].
  set (c1 := snd (handleNegotiation _ _)). assert (Hl1 : clientLive cc c1 /\ adopted m c1 /\
    st_hostName (cs_status c1) = st_hostName (cs_status c) /\ st_gameName (cs_status c1) = st_gameName (cs_status c)).
  { unfold c1, handleNegotiation. cbn [nr_accepted nr_note]. rewrite Ha. cbn [negb]. by split_and!. }
  destruct Hl1 as (Hl1 & Had & E1 & E2).
  destruct (client_receives now cc (permsOf i) c1 Hl1 I eq_refl) as [_ ->].
  cbn [canon clientBody permsOf]. unfold handleInputPermission, updateStatus. rewrite fin_seq, fin_modify, fin_emit.
  cbn. by destruct i.
Qed.

(** The host's approval sends both frames and keeps the client waiting. *)
Lemma stage_approval now r :
  om_lookup id (hs_clients h) = Some r -> cl_connection r = Some hconn -> cl_state r = Authenticating ->
  let a := doApprove now id true h in
  hostFrames hconn (fst a) = [encoded BHostApproved; encoded (BHostCapabilities (hostCapabilities (hs_params h)))] /\
  om_lookup id (hs_clients (snd a)) = Some (withActivity now r) /\ hs_params (snd a) = hs_params h /\
  hs_stopping (snd a) = hs_stopping h.
Proof.
  intros El Ec Est. cbv zeta. rewrite fin_doApprove, El, bool_decide_true by done.
  unfold doApprove. rewrite out_withClient, El, bool_decide_true by done. cbn [negb]. rewrite out_read.
  rewrite !out_seq, fin_sendTo, !(out_sendTo _ _ _ _ _ El Ec), out_putClient. split_and!; try done.
  - cbn. by rewrite Z.eqb_refl.
  - apply om_lookup_insert_eq.
Qed.

(** The host answers the client's capabilities with the decision and the
    permissions. *)
Lemma stage_decision now supported r codec :
  hs_stopping h = false -> om_lookup id (hs_clients h) = Some r -> cl_connection r = Some hconn ->
  cl_state r = Authenticating -> Forall (fits 8) supported ->
  negotiateCodec [hp_preferredCodec (hs_params h); H264] (take kMaxCodecs supported) = Some codec ->
  let a := feedHost now id [encoded (BClientCapabilities (mkClientCapabilities supported))] h in
  hostFrames hconn (fst a) =
    [encoded (BNegotiationResult (negotiationResult (hs_params h) (Some codec))); encoded (permsOf (cl_input r))] /\
  om_lookup id (hs_clients (snd a)) = Some (withState Connected (withActivity now r)).
Proof.
  intros Es El Ec Est Hf Hn. cbv zeta. unfold feedHost. cbn [forA]. rewrite out_seq, fin_seq, out_skip, fin_skip, app_nil_r.
  cbn [io]. unfold encoded at 1 2 5 6. cbn [fst snd]. set (b := BClientCapabilities _).
  change (idCode (bodyId b)) with (idCode IdClientCapabilities).
  set (data := encodeMessage _).
  assert (Hd : decodeMessage (idCode IdClientCapabilities) data = Some (mkEnvelope IdClientCapabilities (canon b))).
  { apply (decode_encode b). exact Hf. }
  split.
  - unfold HostSession.handleFrame. rewrite out_read, Es, knownId_code. cbn [negb]. rewrite out_withClient, El.
    rewrite out_seq, out_putClient, fin_putClient, Hd. cbn [env_body canon b cc_supportedCodecs].
    set (h1 := setClients _ h). set (r1 := withActivity now r).
    assert (E1 : om_lookup id (hs_clients h1) = Some r1) by apply om_lookup_insert_eq.
    unfold handleClientCapabilities. rewrite out_withClient, E1, bool_decide_true by done. cbn [negb]. rewrite out_read.
    change (hs_params h1) with (hs_params h). cbn [cc_supportedCodecs].
    replace (negotiateCodec _ _) with (Some codec) by (symmetry; exact Hn). rewrite !out_seq, fin_sendTo.
    rewrite (out_sendTo _ _ _ _ _ E1 Ec), (out_setState _ _ _ _ E1), fin_setState, E1.
    unfold pushInputPermissions. rewrite out_withClient. cbn [hs_clients putClients setSnapshot setClients].
    rewrite om_lookup_insert_eq, out_seq.
    rewrite (out_sendTo _ _ _ (withState Connected r1) hconn) by (apply om_lookup_insert_eq || exact Ec).
    cbn. by rewrite Z.eqb_refl.
  - rewrite (fin_handleFrame _ _ _ _ _ _ _ Es (knownId_code _) El). cbv zeta. rewrite Hd. cbn [env_body canon b].
    set (h1 := setClients _ h). set (r1 := withActivity now r).
    assert (E1 : om_lookup id (hs_clients h1) = Some r1) by apply om_lookup_insert_eq.
    rewrite (fin_handleClientCapabilities _ _ _ _ E1), bool_decide_true by done. cbn [cc_supportedCodecs].
    replace (negotiateCodec _ _) with (Some codec) by (symmetry; exact Hn). apply om_lookup_insert_eq.
Qed.

End Stages.

(** * The handshake *)

Lemma hostFrames_app conn a b : hostFrames conn (a ++ b) = hostFrames conn a ++ hostFrames conn b.
Proof. apply omap_app. Qed.

Lemma std_unique_fits cs : Forall (fits 8) cs -> Forall (fits 8) (std_unique cs).
Proof.
  induction 1 as [|a cs Ha Hcs IH]; [done|]. cbn [std_unique]. destruct cs as [|b cs]; [by constructor|].
  destruct (a =? b); [done|]. by constructor.
Qed.

(** The configuration has the widths of its C++ types. *)
Definition params_typed (p : HostSessionParams) : Prop :=
  fits 32 (hp_bitrateKbps p) /\ fits 8 (hp_preferredCodec p).

Lemma hostCapabilities_typed p : params_typed p -> body_typed (BHostCapabilities (hostCapabilities p)).
Proof.
  intros [Hb Hc]. cbn. split_and!; try apply u16_fits; [done|].
  apply (std_unique_fits [hp_preferredCodec p; H264]).
  apply Forall_cons_2; [done|]. apply Forall_cons_2; [by_decision|apply Forall_nil_2].
Qed.

Lemma negotiationResult_typed p o : params_typed p -> body_typed (BNegotiationResult (negotiationResult p o)).
Proof. intros [Hb _]. destruct o; cbn; split_and!; try apply u16_fits; try done; by_decision. Qed.

(** The hello arrives: the host's client is waiting for approval, and nothing
    was sent to it yet. *)
Lemma stage_admission now id hconn c h r :
  hs_stopping h = false -> om_sorted (hs_clients h) -> om_lookup id (hs_clients h) = Some r ->
  cl_state r = Connecting -> cl_connection r = Some hconn ->
  (length (hs_clients h) <= hp_maxClients (hs_params h))%nat ->
  verifySessionCode (cap (cp_sessionCode (cs_params c))) (hs_sessionCode h) = true ->
  let a := feedHost now id [encoded (helloOf c)] h in
  exists r2, hostFrames hconn (fst a) = [] /\ om_lookup id (hs_clients (snd a)) = Some r2 /\
    cl_state r2 = Authenticating /\ cl_connection r2 = Some hconn /\
    cl_input r2 = hp_inputDefaults (hs_params h) /\
    hs_params (snd a) = hs_params h /\ hs_stopping (snd a) = false.
Proof.
  intros Es Hs El Est Ec Hlen Hv. cbv zeta. unfold feedHost. cbn [forA].
  rewrite out_seq, fin_seq, out_skip, fin_skip, app_nil_r. cbn [io encoded fst snd].
  change (idCode (bodyId (helloOf c))) with (idCode IdClientHello).
  set (data := encodeMessage _).
  pose proof (decode_encode (helloOf c) I : decodeMessage (idCode IdClientHello) data = Some _) as Hd.
  cbn [helloOf canon bodyId] in Hd. set (m := mkClientHello _ _ _) in Hd.
  pose proof (hello_outcome now id 0 data m h r hconn Es Hs El Est Ec Hd) as O. cbv zeta in O.
  rewrite (proj2 (Nat.ltb_ge _ _) Hlen) in O. cbn [m hello_sessionCode] in O. rewrite Hv in O. cbn [negb] in O.
  destruct O as [Ol Oo].
  pose proof (fin_handleFrame now id (idCode IdClientHello) 0 data h r Es eq_refl El) as F. cbv zeta in F.
  rewrite Hd in F. cbn [env_body] in F. set (h1 := setClients _ h) in F.
  pose proof (fin_handleClientHello id m h1 _ (om_lookup_insert_eq _ _ _) (om_insert_sorted _ _ _ Hs) Est) as G.
  cbv zeta in G. unfold fitsIn in G. cbn [h1 hs_clients setClients hs_params hs_sessionCode m hello_sessionCode] in G.
  rewrite (om_insert_same_length _ _ _ _ Hs El), (proj2 (Nat.leb_le _ _) Hlen), Hv in G. cbn [andb] in G.
  destruct G as (ts & G). rewrite Ol. eexists. split; [|split; [done|]].
  - destruct (hp_autoApprove (hs_params h)); by destruct Oo as [-> _].
  - rewrite F. unfold h1, m in *. rewrite G. by split_and!.
Qed.

(** C1: a client with the right code and a codec in common ends up connected,
    and the two sides agree. The client connects and says hello, the host admits
    and then approves it, and each side handles exactly the frames the other
    sent, in order: afterwards both are CONNECTED, the client shows the codec
    the host negotiated and the host's frame size, frame rate, bit rate and
    names, and its input permissions are the host's defaults. *)
Theorem handshake_connects now id hconn cc h c r codec
    (Es : hs_stopping h = false) (Hs : om_sorted (hs_clients h))
    (El : om_lookup id (hs_clients h) = Some r) (Est : cl_state r = Connecting)
    (Ec : cl_connection r = Some hconn)
    (Hlen : (length (hs_clients h) <= hp_maxClients (hs_params h))%nat)
    (Hcode : verifySessionCode (cap (cp_sessionCode (cs_params c))) (hs_sessionCode h) = true)
    (Hp : params_typed (hs_params h)) (Hf : Forall (fits 8) (cp_supportedCodecs (cs_params c)))
    (Hn : negotiateCodec [hp_preferredCodec (hs_params h); H264]
            (take kMaxCodecs (cp_supportedCodecs (cs_params c))) = Some codec)
    (Hloop : cs_looping c = true) (Hstop : cs_stopping c = false) :
  let s1 := handleConnected now cc c in
  let s2 := feedHost now id (clientFrames cc (fst s1)) h in
  let s3 := doApprove now id true (snd s2) in
  let s4 := feedClient now cc (hostFrames hconn (fst s2 ++ fst s3)) (snd s1) in
  let s5 := feedHost now id (clientFrames cc (fst s4)) (snd s3) in
  let s6 := feedClient now cc (hostFrames hconn (fst s5)) (snd s4) in
  let st := status (snd s6) in
  stateOf id (snd s5) = Some Connected /\ st_state st = Connected /\
  st_codec st = u8 codec /\ st_width st = u16 (res_width (hp_resolution (hs_params h))) /\
  st_height st = u16 (res_height (hp_resolution (hs_params h))) /\
  st_fps st = u8 (Z.min (hp_fps (hs_params h)) 255) /\ st_bitrateKbps st = hp_bitrateKbps (hs_params h) /\
  st_hostName st = cap (hp_hostName (hs_params h)) /\ st_gameName st = cap (hp_gameName (hs_params h)) /\
  st_input st = hp_inputDefaults (hs_params h).
Proof.
  cbv zeta. destruct (stage_hello c cc now) as (-> & Hcp & Hlive). specialize (Hlive Hloop Hstop).
  set (c1 := snd (handleConnected now cc c)) in *.
  destruct (stage_admission now id hconn c h r Es Hs El Est Ec Hlen Hcode)
    as (r2 & Hout & El2 & Est2 & Ec2 & Ei2 & Ep2 & Es2).
  set (s2 := feedHost now id [encoded (helloOf c)] h) in *.
  destruct (stage_approval (snd s2) id hconn now r2 El2 Ec2 Est2) as (Hout3 & El3 & Ep3 & Es3).
  set (s3 := doApprove now id true (snd s2)) in *. rewrite hostFrames_app, Hout, Hout3, Ep2, app_nil_l.
  destruct (stage_capabilities c1 cc now (hostCapabilities (hs_params h)) Hlive (hostCapabilities_typed _ Hp))
    as (-> & Hlive4 & Hhost & Hgame).
  set (c4 := snd (feedClient now cc _ c1)) in *.
  rewrite <- Ep2, <- Ep3 in Hn. rewrite <- Hcp in Hn, Hf. rewrite Es2 in Es3.
  destruct (stage_decision (snd s3) id hconn now _ _ codec Es3 El3 Ec2 Est2 Hf Hn) as (Hout5 & El5).
  unfold capsOf. rewrite Hout5, Ep3, Ep2. cbn [withActivity cl_input]. rewrite Ei2.
  destruct (stage_result c4 cc now (negotiationResult (hs_params h) (Some codec)) (hp_inputDefaults (hs_params h))
              Hlive4 (negotiationResult_typed _ _ Hp) eq_refl) as (Had & Hin & Hh & Hg).
  destruct Had as (E1 & E2 & E3 & E4 & E5 & E6). unfold status.
  split; [unfold stateOf; by rewrite El5|]. rewrite E1, E2, E3, E4, E5, E6, Hin, Hh, Hg, Hhost, Hgame. done.
Qed.

Lemma handshake_connects_witness :
  let c := snd (start sampleCParams (newClient true)) in
  let s1 := handleConnected 2000 3 c in
  let s2 := feedHost 2000 1 (clientFrames 3 (fst s1)) sampleHost in
  let s3 := doApprove 2000 1 true (snd s2) in
  let s4 := feedClient 2000 3 (hostFrames 7 (fst s2 ++ fst s3)) (snd s1) in
  let s5 := feedHost 2000 1 (clientFrames 3 (fst s4)) (snd s3) in
  stateOf 1 (snd s5) = Some Connected.
Proof.
  refine (proj1 (handshake_connects 2000 1 7 3 sampleHost (snd (start sampleCParams (newClient true)))
            (mkRec 1 (str "pending") Connecting 1000 0 (Some 7) defaultInputPermissions 0 (str "10.0.0.2")) H264
            _ _ _ _ _ _ _ _ _ _ _ _)); try reflexivity.
  - unfold om_sorted. apply SSorted_cons; [apply SSorted_nil|apply Forall_nil_2].
  - apply Nat.leb_le. reflexivity.
  - split; by_decision.
  - by_decision.
Defined.

(** * The approval window *)

(** The host's 75 s approval window is really 12 s. While its client waits
    for the decision the host sends it nothing, housekeeping included, and does
    not time it out for 75 s; the client does not ping in that state, so its
    watchdog sees no data and ends the session as soon as 12 s have passed. *)
Theorem approval_window_is_cut id h c r
    (Eh : hs_clients h = [(id, r)]) (Est : cl_state r = Authenticating)
    (El : cs_looping c = true) (Earm : cs_armed c = true) (Es : cs_stopping c = false) :
  (forall now, now - cl_lastActivity r <= seconds 75 ->
     fst (housekeeping now h) = [] /\ hs_clients (snd (housekeeping now h)) = hs_clients h) /\
  (forall now, seconds 12 < now - cs_lastActivity c ->
     let c' := snd (clientIo (CiTimer now) c) in
     st_state (status c') = Disconnected /\ cs_running c' = false /\
     st_lastError (status c') = str "Connection timed out (no data from host)").
Proof.
  split.
  - intros now Hnow. unfold housekeeping. rewrite out_seq, fin_seq, out_read, fin_read, out_modify, fin_modify, Eh.
    assert (Ht : timedOut now r = false).
    { unfold timedOut. rewrite Est. cbn [idleLimit]. apply Z.ltb_ge. exact Hnow. }
    cbn [List.filter snd]. rewrite Ht. cbn [fmap list_fmap forA]. unfold probe, pingDue. rewrite Est. cbn [active andb].
    by rewrite !out_seq, !fin_seq.
  - intros now Hnow. cbv zeta. unfold clientIo. rewrite fin_read, El, Earm. cbn [negb].
    rewrite fin_seq, fin_modify, Es. cbv iota. unfold startHeartbeat. rewrite fin_read.
    cbn [cs_stopping setArmed cs_lastActivity]. change kWatchdogTimeout with (seconds 12).
    rewrite Es, (proj2 (Z.ltb_lt _ _) Hnow).
    destruct (finish_down (str "Connection timed out (no data from host)") true (setArmed false c)) as (E1 & _ & E2 & _).
    split_and!; [exact E1|exact E2|].
    by apply finish_lastError.
Qed.

(** The sample client, connected one hour after boot. *)
Definition waitingClient : ClientSession :=
  snd (clientRun [CeStart sampleCParams; CeIo (CiAttempt (seconds 3600) (inr 3))] (newClient true)).

Lemma approval_window_is_cut_witness :
  let h := snd (HostSession.handleFrame (seconds 3600) 1 1 0 sampleHello sampleHost) in
  fst (housekeeping (seconds 3660) h) = [] /\
  st_state (status (snd (clientIo (CiTimer (seconds 3613)) waitingClient))) = Disconnected.
Proof.
  refine (match approval_window_is_cut 1 (snd (HostSession.handleFrame (seconds 3600) 1 1 0 sampleHello sampleHost))
            waitingClient
            (mkRec 1 (str "Ali") Authenticating (seconds 3600) 0 (Some 7) defaultInputPermissions 0 (str "10.0.0.2"))
            _ _ _ _ _ with
          | conj A B => conj (proj1 (A (seconds 3660) _)) (proj1 (B (seconds 3613) _))
          end); try reflexivity.
  apply Z.leb_le. reflexivity.
Defined.
